(* ===== verification/_CoqProject ===== *)
-Q . S2P
Prelude.v
Path.v
Vfs.v
Pmm.v
Vmm.v
Paging.v
Pty.v
User.v
Sched.v
Futex.v
Kernel.v
Shm.v
Mmap.v
Frame.v
Proc.v
Clone.v
Aspace.v
Elf.v
Signal.v
Sock.v
Input.v
File.v
FileOps.v
Ioctl.v
FsSys.v
Exec.v
NetSys.v
Poll.v
Trap.v
Gic.v
Smp.v
Irq.v
Procfs.v
Calls.v
Dispatch.v
Pci.v
Block.v
Gpu.v
Drm.v
Virtq.v
VirtNet.v
VirtInput.v
Ext4.v
Boot.v
