(* ===== verification/Prelude.v ===== *)
(** * Cyllor: a verification library for the Cyllor kernel

    Cyllor is a Unix-like kernel in Rust (sources under [src/kernel/src]).  This
    library models its core as executable Rocq definitions, file by file, and
    proves the properties that make each part correct; where the code does not do
    what it means to, a theorem says what it does instead.

    ** The system and its models

    Memory.
    - [Pmm]: the bitmap page allocator and the boot from the memory map
      ([mm/pmm.rs], [mm/mod.rs]).
    - [Vmm]: the areas of an address space ([mm/vmm.rs]), a [gmap] from start
      addresses.
    - [Paging]: the AArch64 page tables ([arch/aarch64/paging.rs]) over physical
      memory, a function from addresses to bytes; the machine is [Mach].
    - [User]: [copy_to_user] and [copy_from_user] ([syscall/fs.rs]).
    - [Kernel]: the state the process-level files share (machine, scheduler, area
      maps, process table, shared memory).
    - [Shm], [Mmap]: System V shared memory, [mmap], [munmap], [brk]
      ([mm/shm.rs], [mm/mmap.rs]).

    Processes.
    - [Sched]: threads, run queues, switching, timed sleep ([sched/scheduler.rs],
      [sched/process.rs], [sched/wait.rs]).
    - [Futex]: [ipc/futex.rs].
    - [Proc], [Clone]: exit, wait, credentials, clone ([sched/mod.rs],
      [syscall/process.rs]).
    - [Frame], [Signal]: trap frames behind the class [CpuContext], and signals
      ([ipc/signal.rs]).
    - [Aspace], [Elf], [Exec]: address spaces of user programs, the loader with the
      first stack, [execve] with scripts ([sched/elf.rs], [sched/mod.rs]).  The
      parser of image headers is a third-party crate, behind the class [Goblin].

    Processor.
    - [Trap]: exception entry and exit and the context switch
      ([arch/aarch64/exceptions.rs], [arch/aarch64/context.rs]), their assembly as a
      list of instructions run on a small processor.
    - [Gic]: interrupt controller, timer and serial port as the register accesses
      the drivers make ([arch/aarch64/gic.rs], [timer.rs], [mod.rs], [drivers/uart.rs]).
    - [Smp]: the start of the other processors as interleaved steps
      ([arch/aarch64/mod.rs]).
    - [Irq]: the handlers behind the entry, with demand paging; its state [St] is the
      whole kernel with its hardware.
    - [Calls], [Dispatch]: the remaining system calls and the table from numbers to
      calls, with the return to the user program ([syscall/]).

    Files.
    - [Path]: byte strings and UTF-8 as the path code uses them.
    - [Vfs]: the tree of inodes ([fs/vfs.rs], [fs/devfs.rs]).  Inodes are shared by
      reference, so they live in a store and directories hold handles.
    - [File]: open files and the descriptor table ([fs/vfs.rs], [fs/fdtable.rs],
      [fs/pipe.rs]), with the state [Os] of the whole system; open files are shared
      the same way.
    - [FileOps], [Ioctl]: the operations of an open file, by type ([fs/vfs.rs]).
      Raw accesses to user memory and the DRM device are classes.
    - [FsSys]: the system calls on paths and descriptors ([fs/mod.rs],
      [syscall/fs.rs]).
    - [Procfs]: the process directory and the boot of the file tree ([fs/procfs.rs],
      [fs/mod.rs]).
    - [Poll]: epoll, [ppoll], timers, signal descriptors ([fs/mod.rs],
      [syscall/io.rs]).
    - [Block], [Ext4]: the VirtIO block driver ([drivers/virtio/mmio.rs],
      [drivers/virtio/block.rs]) and the ext4 reader ([fs/ext4.rs]).  [Block]
      verifies the driver against the class [VirtioBlk] of devices and provides the
      class [BlockDevice] with its laws [BlockLaws]; [Ext4] is verified against
      those.

    Devices and communication.
    - [Gpu]: the VirtIO graphics driver ([drivers/virtio/gpu.rs]) against the class
      [VirtioGpuDev] of displays that follow the specification.
    - [Drm]: frame buffer and mode setting on top of it ([drivers/drm.rs],
      [drivers/framebuffer.rs]).
    - [Virtq]: what the drivers of the network card and of the input devices share,
      a queue of buffers that the device fills, with its invariant and the class
      [Receiver] of devices; [VirtNet], [VirtInput]: the two drivers
      ([drivers/virtio/net.rs], [drivers/virtio/input.rs]).
    - [Pci]: configuration space and enumeration of bus 0 ([drivers/pci.rs]).
    - [Pty]: terminals and the line discipline ([drivers/pty.rs]).
    - [Input]: event queues ([drivers/input.rs]).
    - [Sock], [NetSys]: the socket tables and the socket calls ([net/mod.rs]).

    Start.
    - [Boot]: the main function above the drivers ([main.rs]): the embedded program,
      the files copied from the disk, the first process.

    ** Conventions

    A function of the kernel is a computation in the monad [M] below: it returns a
    value, an error number or a panic together with the state, since changes made
    before an early return stay.  The build checks arithmetic (the [dev] profile),
    so an overflow is a panic; wrapping and saturating operations are written out.
    A lock that its holder takes again is a panic too (the CPU spins for ever); the
    definitions that can do it say so.  [BTreeMap]s are [gmap]s, iterated with
    [bentries] (or [Path.sentries]) in key order.  Log output is left out.

    Loops with an evident bound use it as fuel (the bytes to copy, the pages to
    map, the directory's length), and a theorem or the definition's comment says
    that it is enough.  [Vfs.resolve_path] takes the number of nested activations
    the stack has room for: exhausting it is a panic, and [Vfs.resolve_terminates]
    gives a bound.  A call that sleeps is modelled by its looks: a look returns
    [None] to sleep; [Poll.wait_loop] and [Proc.wait_loop] iterate looks with the
    rest of the system as a parameter.  [Ext4.lookup_from] recurses on the number
    of symbolic links it may still follow and needs no fuel.

    Interleaving is by whole calls or looks; finer interleavings of CPUs inside a
    call are outside the model.

    ** The theorems

    - Invariants: the allocator after boot, the scheduler's tables, shared-memory
      accounting, the socket tables, the data each type of open file has, the
      progress of the other processors.
    - Functional behaviour: allocation, area and page-table updates as updates of
      the map they denote, lowest free descriptor, renaming, dispatch of signals,
      scheduling, futex wake-ups, fork, loading a program and its stack, demand
      paging, the result of a system call, page flips, pipes, socket streams, ready
      lists, file contents on disk, the boot up to the system calls the first
      program's machine code makes.
    - Refinement and equivalence: the line discipline implements a line editor, the
      block driver a disk, the graphics driver a screen, the page-wise copy the
      byte-wise one.
    - Round trips: exception entry and exit, switching away and back, signal delivery
      and return, exit and wait, writing and reading back, an inode's path and its
      lookup, durations and their encoding.
    - Termination and bounds: path lookup, waits with a timeout, directory scans,
      timer expirations, the printing of numbers.
    - Errors: theorems on what goes wrong, among them a reused descriptor number
      that takes over a live socket, waits on sockets that hang, a rename that
      loses a file, a dying thread whose switch overwrites another's context, a
      stack pointer that never reaches the user program, a user address whose
      fault message exhausts the kernel stack, standard streams that are never
      connected to the console.

    ** Not modelled

    - What the boot loader answers, the heap crate, log output, the inline assembly
      that only sets up registers of the boot processor, and the stubs for x86_64.
    - [net/smoltcp.rs], [ipc/timerfd.rs], [arch/aarch64/boot.rs] and the lock
      wrappers under [sync/] are not part of the module tree and so not of the
      build. *)

From Stdlib Require Export Ascii ZArith Lia.
From stdpp Require Export base gmap list strings fin_maps sorting.

#[export] Set Default Goal Selector "!".

Ltac Zify.zify_post_hook ::= Z.div_mod_to_equations.

Global Open Scope Z_scope.

(** ** Error numbers ([syscall/mod.rs]) *)

Definition EPERM := 1.
Definition ENOENT := 2.
Definition ESRCH := 3.
Definition EBADF := 9.
Definition ECHILD := 10.
Definition EAGAIN := 11.
Definition ENOMEM := 12.
Definition EFAULT := 14.
Definition EEXIST := 17.
Definition ENOTDIR := 20.
Definition EISDIR := 21.
Definition EINVAL := 22.
Definition EMFILE := 24.
Definition ENOTSOCK := 88.
Definition EOPNOTSUPP := 95.
Definition EAFNOSUPPORT := 97.
Definition EADDRINUSE := 98.
Definition EISCONN := 106.
Definition ENOTCONN := 107.
Definition ETIMEDOUT := 110.
Definition ECONNREFUSED := 111.

(** ** Outcomes and the kernel monad

    A kernel function ends with [Ok v], with [Err e] (the [Result] the code
    returns), or with [Panic]: an index out of range, an [unwrap] of [None],
    or an arithmetic overflow, which the default [dev] profile checks.  State
    changes made before an early [return Err(..)] stay in place, so the state
    is returned next to every outcome. *)

Inductive outcome (A : Type) : Type :=
| Ok (v : A)
| Err (e : Z)
| Panic.
Arguments Ok {A} v.
Arguments Err {A} e.
Arguments Panic {A}.

#[export] Instance outcome_eq_dec `{EqDecision A} : EqDecision (outcome A).
Proof. solve_decision. Defined.

Definition M (S A : Type) : Type := S → outcome A * S.

Declare Scope kernel_scope.
Delimit Scope kernel_scope with kernel.

Section Monad.
Context {S : Type}.

Definition ret {A} (a : A) : M S A := λ s, (Ok a, s).
Definition fail {A} (e : Z) : M S A := λ s, (Err e, s).
Definition panic {A} : M S A := λ s, (Panic, s).

Definition bind {A B} (m : M S A) (k : A → M S B) : M S B := λ s,
  match m s with
  | (Ok a, s') => k a s'
  | (Err e, s') => (Err e, s')
  | (Panic, s') => (Panic, s')
  end.

Definition get : M S S := λ s, (Ok s, s).
Definition put (s' : S) : M S () := λ _, (Ok tt, s').
Definition modify (f : S → S) : M S () := λ s, (Ok tt, f s).
Definition gets {A} (f : S → A) : M S A := λ s, (Ok (f s), s).

(** [opt.ok_or(e)?] and an operation whose [None] aborts the kernel. *)
Definition ok_or {A} (o : option A) (e : Z) : M S A :=
  match o with Some a => ret a | None => fail e end.
Definition or_panic {A} (o : option A) : M S A :=
  match o with Some a => ret a | None => panic end.

(** [let _ = m;]: the error is dropped, a panic is not. *)
Definition ignore {A} (m : M S A) : M S () := λ s,
  match m s with
  | (Ok _, s') | (Err _, s') => (Ok tt, s')
  | (Panic, s') => (Panic, s')
  end.

(** The result of a call as a value: [match m { Ok(..) => .., Err(..) => .. }]. *)
Definition try {A} (m : M S A) : M S (A + Z) := λ s,
  match m s with
  | (Ok a, s') => (Ok (inl a), s')
  | (Err e, s') => (Ok (inr e), s')
  | (Panic, s') => (Panic, s')
  end.

Definition map_err {A} (m : M S A) (e : Z) : M S A := λ s,
  match m s with
  | (Err _, s') => (Err e, s')
  | r => r
  end.

Fixpoint for_each {A} (l : list A) (f : A → M S ()) : M S () :=
  match l with
  | [] => ret tt
  | x :: l' => bind (f x) (λ _, for_each l' f)
  end.

Definition when (b : bool) (m : M S ()) : M S () := if b then m else ret tt.
End Monad.

Notation "'let!' x := m 'in' k" := (bind m (λ x, k))
  (at level 10, x pattern, m at level 100, k at level 200) : kernel_scope.
Notation "m ;;; k" := (bind m (λ _, k))
  (at level 100, k at level 200, right associativity) : kernel_scope.
Bind Scope kernel_scope with M.
Open Scope kernel_scope.

Lemma bind_ok {S A B} (m : M S A) (k : A → M S B) s a s' :
  m s = (Ok a, s') → bind m k s = k a s'.
Proof. intros E. unfold bind. by rewrite E. Qed.

Lemma bind_err {S A B} (m : M S A) (k : A → M S B) s e s' :
  m s = (Err e, s') → bind m k s = (Err e, s').
Proof. intros E. unfold bind. by rewrite E. Qed.

Lemma bind_assoc {S A B C} (m : M S A) (k : A → M S B) (h : B → M S C) s :
  bind (bind m k) h s = bind m (λ a, bind (k a) h) s.
Proof. unfold bind. by destruct (m s) as [[]]. Qed.

Lemma for_each_app {S A} (l1 l2 : list A) (f : A → M S ()) s :
  for_each (l1 ++ l2) f s = bind (for_each l1 f) (λ _, for_each l2 f) s.
Proof.
  revert s. induction l1 as [|x l1 IH]; intros s; [done|]. cbn.
  rewrite bind_assoc. unfold bind at 1 2. destruct (f x s) as [[] s']; [|done..].
  apply IH.
Qed.

(** One step of a computation, as rewriting: [kstep] runs the primitive at the
    head of a [bind]. *)

Lemma bind_ret {S A B} (a : A) (k : A → M S B) s : bind (ret a) k s = k a s.
Proof. done. Qed.
Lemma bind_get {S B} (k : S → M S B) s : bind get k s = k s s.
Proof. done. Qed.
Lemma bind_put {S B} x (k : () → M S B) s : bind (put x) k s = k tt x.
Proof. done. Qed.
Lemma bind_modify {S B} f (k : () → M S B) s : bind (modify f) k s = k tt (f s).
Proof. done. Qed.
Lemma bind_gets {S A B} (f : S → A) (k : A → M S B) s : bind (gets f) k s = k (f s) s.
Proof. done. Qed.
Lemma bind_or_panic {S A B} (a : A) (k : A → M S B) s : bind (or_panic (Some a)) k s = k a s.
Proof. done. Qed.
Lemma bind_ok_or {S A B} (a : A) e (k : A → M S B) s : bind (ok_or (Some a) e) k s = k a s.
Proof. done. Qed.
Lemma bind_ok_or_None {S A B} e (k : A → M S B) s : bind (ok_or None e) k s = (Err e, s).
Proof. done. Qed.
Lemma bind_or_panic_None {S A B} (k : A → M S B) s : bind (or_panic None) k s = (Panic, s).
Proof. done. Qed.
Lemma bind_fail {S A B} e (k : A → M S B) s : bind (fail e) k s = (Err e, s).
Proof. done. Qed.
Lemma bind_when_true {S B} m (k : () → M S B) s : bind (when true m) k s = bind m k s.
Proof. done. Qed.
Lemma bind_when_false {S B} m (k : () → M S B) s : bind (when false m) k s = k tt s.
Proof. done. Qed.

Create Rewrite HintDb kernel.
#[export] Hint Rewrite @bind_ret @bind_get @bind_put @bind_modify @bind_gets @bind_or_panic @bind_or_panic_None @bind_ok_or
  @bind_ok_or_None @bind_fail @bind_when_true @bind_when_false @bind_assoc : kernel.
Ltac kstep := autorewrite with kernel; cbv beta zeta.
Ltac kstep_in H := autorewrite with kernel in H; cbv beta zeta in H.

(** ** Preservation of a predicate on the state

    [preserves P m]: [P] holds after [m], whatever its outcome, if it held before. *)

Definition preserves {S A} (P : S → Prop) (m : M S A) : Prop := ∀ s, P s → P (m s).2.

Section Preserves.
Context {S : Type} (P : S → Prop).

Lemma preserves_ret {A} (a : A) : preserves P (ret a).
Proof. intros s Hs. exact Hs. Qed.
Lemma preserves_fail {A} e : preserves P (fail (A:=A) e).
Proof. intros s Hs. exact Hs. Qed.
Lemma preserves_panic {A} : preserves P (panic (A:=A)).
Proof. intros s Hs. exact Hs. Qed.
Lemma preserves_get : preserves P get.
Proof. intros s Hs. exact Hs. Qed.
Lemma preserves_gets {A} (f : S → A) : preserves P (gets f).
Proof. intros s Hs. exact Hs. Qed.
Lemma preserves_ok_or {A} (o : option A) e : preserves P (ok_or o e).
Proof. intros s Hs. destruct o; exact Hs. Qed.
Lemma preserves_or_panic {A} (o : option A) : preserves P (or_panic o).
Proof. intros s Hs. destruct o; exact Hs. Qed.
Lemma preserves_modify f : (∀ s, P s → P (f s)) → preserves P (modify f).
Proof. intros H s. apply H. Qed.
Lemma preserves_bind {A B} (m : M S A) (k : A → M S B) :
  preserves P m → (∀ a, preserves P (k a)) → preserves P (bind m k).
Proof. intros Hm Hk s Hs. apply Hm in Hs. unfold bind. destruct (m s) as [[a| |] s']; [by apply Hk|done..]. Qed.
Lemma preserves_ignore {A} (m : M S A) : preserves P m → preserves P (ignore m).
Proof. intros Hm s Hs. apply Hm in Hs. unfold ignore. by destruct (m s) as [[]]. Qed.
Lemma preserves_try {A} (m : M S A) : preserves P m → preserves P (try m).
Proof. intros Hm s Hs. apply Hm in Hs. unfold try. by destruct (m s) as [[]]. Qed.
Lemma preserves_map_err {A} (m : M S A) e : preserves P m → preserves P (map_err m e).
Proof. intros Hm s Hs. apply Hm in Hs. unfold map_err. by destruct (m s) as [[]]. Qed.
Lemma preserves_when b m : preserves P m → preserves P (when b m).
Proof. intros Hm. destruct b; [exact Hm|apply preserves_ret]. Qed.
Lemma preserves_for_each {A} (l : list A) (f : A → M S ()) : (∀ a, preserves P (f a)) → preserves P (for_each l f).
Proof. intros Hf. induction l; cbn; [apply preserves_ret|]. by apply preserves_bind. Qed.
(** [let! s := get in k s], where the rest knows the state. *)
Lemma preserves_bind_get {B} (k : S → M S B) : (∀ s, P s → P (k s s).2) → preserves P (bind get k).
Proof. intros H s. apply H. Qed.
End Preserves.

Create HintDb preserves.
#[export] Hint Resolve preserves_ret preserves_fail preserves_panic preserves_get preserves_gets preserves_ok_or preserves_or_panic
  preserves_ignore preserves_try preserves_map_err preserves_when preserves_for_each preserves_bind : preserves.

(** Splits a computation into its parts, leaving the state changes. *)
Ltac preserves_step :=
  intros; cbv beta zeta;
  lazymatch goal with
  | |- preserves _ (bind _ _) => apply preserves_bind
  | |- preserves _ (when _ _) => apply preserves_when
  | |- preserves _ (ignore _) => apply preserves_ignore
  | |- preserves _ (try _) => apply preserves_try
  | |- preserves _ (map_err _ _) => apply preserves_map_err
  | |- preserves _ (for_each _ _) => apply preserves_for_each
  | |- preserves _ (match ?x with _ => _ end) => destruct x
  | |- preserves _ _ => solve [eauto with preserves]
  end.

(** ** Machine integers

    A [u64] or [usize] is a [Z] in [[0, 2^64)]. *)

Definition u64_max : Z := 2 ^ 64 - 1.
Definition u64_ok (x : Z) : Prop := 0 ≤ x < 2 ^ 64.

(** [a + b], [a - b] and [a * b] of the [dev] profile: [None] is the overflow panic. *)
Definition add64 (a b : Z) : option Z := if bool_decide (a + b < 2 ^ 64) then Some (a + b) else None.
Definition sub64 (a b : Z) : option Z := if bool_decide (b ≤ a) then Some (a - b) else None.
Definition mul64 (a b : Z) : option Z := if bool_decide (a * b < 2 ^ 64) then Some (a * b) else None.

Definition saturating_add (a b : Z) : Z := Z.min (a + b) u64_max.
Definition saturating_sub (a b : Z) : Z := Z.max (a - b) 0.
Definition saturating_mul (a b : Z) : Z := Z.min (a * b) u64_max.
Definition wrapping_add (a b : Z) : Z := (a + b) mod 2 ^ 64.
Definition wrapping_mul (a b : Z) : Z := (a * b) mod 2 ^ 64.

(** [!x] on a [u64] and on a [u32]. *)
Definition not64 (x : Z) : Z := u64_max - x.
Definition not32 (x : Z) : Z := 2 ^ 32 - 1 - x.

(** [(x & m) != 0] *)
Definition has (x m : Z) : bool := negb (Z.land x m =? 0).

Lemma add64_Some a b c : add64 a b = Some c ↔ c = a + b ∧ a + b < 2 ^ 64.
Proof. unfold add64. case_bool_decide; naive_solver. Qed.

Lemma sub64_Some a b c : sub64 a b = Some c ↔ c = a - b ∧ b ≤ a.
Proof. unfold sub64. case_bool_decide; naive_solver. Qed.

Lemma add64_small a b : a + b < 2 ^ 64 → add64 a b = Some (a + b).
Proof. intros. by apply add64_Some. Qed.

Lemma sub64_small a b : b ≤ a → sub64 a b = Some (a - b).
Proof. intros. by apply sub64_Some. Qed.

(** ** Bits *)

Lemma not64_mod x : u64_ok x → not64 x = Z.lnot x mod 2 ^ 64.
Proof.
  intros [? ?]. unfold not64, u64_max, Z.lnot.
  replace (Z.pred (- x)) with (2 ^ 64 - 1 - x + (-1) * 2 ^ 64) by lia.
  rewrite Z.mod_add, Z.mod_small; lia.
Qed.

Lemma not64_ok x : u64_ok x → u64_ok (not64 x).
Proof. unfold u64_ok, not64, u64_max. lia. Qed.

Lemma testbit_not64 x i : u64_ok x →
  Z.testbit (not64 x) i = bool_decide (0 ≤ i < 64) && negb (Z.testbit x i).
Proof.
  intros Hx. rewrite not64_mod by done. case_bool_decide.
  - rewrite Z.mod_pow2_bits_low by lia. apply Z.lnot_spec; lia.
  - destruct (decide (i < 0)); [by rewrite Z.testbit_neg_r by lia|].
    apply Z.mod_pow2_bits_high; lia.
Qed.

Lemma u64_testbit_high x i : u64_ok x → 64 ≤ i → Z.testbit x i = false.
Proof.
  intros [? ?] ?. rewrite <- (Z.mod_small x (2 ^ 64)) by lia.
  apply Z.mod_pow2_bits_high; lia.
Qed.

Lemma testbit_one_shl b i : 0 ≤ b → Z.testbit (Z.shiftl 1 b) i = bool_decide (i = b).
Proof.
  intros Hb. rewrite Z.shiftl_1_l. case_bool_decide as E; subst.
  - by apply Z.pow2_bits_true.
  - by apply Z.pow2_bits_false.
Qed.

(** A number whose bits above 64 are clear is a [u64]. *)
Lemma u64_of_bits x : 0 ≤ x → (∀ i, 64 ≤ i → Z.testbit x i = false) → u64_ok x.
Proof.
  intros Hx Hb. split; [done|].
  destruct (decide (x = 0)) as [->|]; [lia|].
  apply Z.log2_lt_pow2; [lia|].
  destruct (Z.lt_ge_cases (Z.log2 x) 64) as [|Hge]; [done|].
  pose proof (Hb _ Hge) as Hf. rewrite Z.bit_log2 in Hf by lia. done.
Qed.

Lemma u64_land_l x y : u64_ok x → 0 ≤ y → u64_ok (Z.land x y).
Proof.
  intros Hx Hy. apply u64_of_bits; [apply Z.land_nonneg; unfold u64_ok in Hx; lia|].
  intros i Hi. by rewrite Z.land_spec, u64_testbit_high.
Qed.

Lemma u64_lor x y : u64_ok x → u64_ok y → u64_ok (Z.lor x y).
Proof.
  intros Hx Hy. apply u64_of_bits; [apply Z.lor_nonneg; unfold u64_ok in *; lia|].
  intros i Hi. by rewrite Z.lor_spec, !u64_testbit_high.
Qed.

Lemma u64_shl1 b : 0 ≤ b < 64 → u64_ok (Z.shiftl 1 b).
Proof.
  intros Hb. rewrite Z.shiftl_1_l. split; [lia|]. apply Z.pow_lt_mono_r; lia.
Qed.

Lemma testbit_set_bit w b i : 0 ≤ b →
  Z.testbit (Z.lor w (Z.shiftl 1 b)) i = bool_decide (i = b) || Z.testbit w i.
Proof. intros. by rewrite Z.lor_spec, testbit_one_shl, orb_comm. Qed.

Lemma testbit_clear_bit w b i : u64_ok w → 0 ≤ b < 64 →
  Z.testbit (Z.land w (not64 (Z.shiftl 1 b))) i = negb (bool_decide (i = b)) && Z.testbit w i.
Proof.
  intros Hw Hb. rewrite Z.land_spec, testbit_not64, testbit_one_shl by (auto using u64_shl1 || lia).
  destruct (decide (0 ≤ i < 64)).
  - rewrite (bool_decide_eq_true_2 (0 ≤ i < 64)) by done. by rewrite andb_comm.
  - rewrite (bool_decide_eq_false_2 (0 ≤ i < 64)) by done.
    destruct (decide (i < 0)); [by rewrite Z.testbit_neg_r, !andb_false_r by lia|].
    rewrite (u64_testbit_high w) by (done || lia). by rewrite !andb_false_r.
Qed.

(** [(w & (1 << b)) == 0] tests bit [b]. *)
Lemma land_shl1_eqb w b : 0 ≤ b → (Z.land w (Z.shiftl 1 b) =? 0) = negb (Z.testbit w b).
Proof.
  intros Hb. destruct (Z.eqb_spec (Z.land w (Z.shiftl 1 b)) 0) as [E0|E0]; symmetry.
  - apply negb_true_iff.
    rewrite <- (Z.testbit_0_l b), <- E0, Z.land_spec, testbit_one_shl by lia.
    by rewrite bool_decide_eq_true_2, andb_true_r.
  - apply negb_false_iff, not_false_iff_true. intros Hf. apply E0, Z.bits_inj'. intros i Hi.
    rewrite Z.land_spec, testbit_one_shl, Z.testbit_0_l by lia.
    case_bool_decide; [subst; by rewrite Hf|by rewrite andb_false_r].
Qed.

Lemma has_shl1 w b : 0 ≤ b → has w (Z.shiftl 1 b) = Z.testbit w b.
Proof. intros. unfold has. rewrite land_shl1_eqb by done. apply negb_involutive. Qed.

(** Bitwise equality of two 64-bit words. *)
Lemma u64_bits_inj x y : u64_ok x → u64_ok y →
  (∀ i, 0 ≤ i < 64 → Z.testbit x i = Z.testbit y i) → x = y.
Proof.
  intros Hx Hy H. apply Z.bits_inj'. intros i Hi.
  destruct (decide (i < 64)); [apply H; lia|]. by rewrite !u64_testbit_high by (done || lia).
Qed.

(** [x & !(2^k - 1)] rounds down to a multiple of [2^k]. *)
Lemma land_align_down x k : u64_ok x → 0 ≤ k < 64 →
  Z.land x (not64 (2 ^ k - 1)) = x - x mod 2 ^ k.
Proof.
  intros Hx Hk.
  assert (u64_ok (2 ^ k - 1)) as Hm.
  { pose proof (Z.pow_pos_nonneg 2 k). pose proof (Z.pow_lt_mono_r 2 k 64). split; lia. }
  replace (x - x mod 2 ^ k) with (Z.shiftl (Z.shiftr x k) k).
  2:{ rewrite Z.shiftl_mul_pow2, Z.shiftr_div_pow2 by lia.
      pose proof (Z.div_mod x (2 ^ k)). lia. }
  apply Z.bits_inj'. intros i Hi.
  rewrite Z.land_spec, testbit_not64, Z.shiftl_spec by done.
  rewrite Z.sub_1_r, <- Z.ones_equiv, Z.testbit_ones_nonneg by lia.
  destruct (decide (i < k)).
  - rewrite (Z.testbit_neg_r _ (i - k)) by lia.
    rewrite (proj2 (Z.ltb_lt i k)) by done. cbn. by rewrite !andb_false_r.
  - rewrite Z.shiftr_spec by lia. replace (i - k + k) with i by lia.
    rewrite (proj2 (Z.ltb_ge i k)) by lia. cbn. rewrite andb_true_r.
    case_bool_decide; [by rewrite andb_true_r|].
    rewrite (u64_testbit_high x) by (done || lia). done.
Qed.

(** ** Little-endian words *)

(** [to_le_bytes] of an [n]-byte integer and [from_le_bytes]. *)
Fixpoint to_le (n : nat) (v : Z) : list Z :=
  match n with
  | O => []
  | S n' => v mod 256 :: to_le n' (v / 256)
  end.

Fixpoint from_le (l : list Z) : Z :=
  match l with
  | [] => 0
  | b :: l' => b + 256 * from_le l'
  end.

Definition byte_ok (b : Z) : Prop := 0 ≤ b < 256.

Lemma length_to_le n v : length (to_le n v) = n.
Proof. revert v. induction n; intros; cbn; auto. Qed.

Lemma to_le_ok n v : Forall byte_ok (to_le n v).
Proof. revert v. induction n; intros; cbn; constructor; auto. unfold byte_ok. lia. Qed.

Lemma from_to_le n v : from_le (to_le n v) = v mod 256 ^ Z.of_nat n.
Proof.
  revert v. induction n as [|n IH]; intros v; cbn [to_le from_le]; [by rewrite Z.mod_1_r|].
  rewrite IH, Nat2Z.inj_succ, Z.pow_succ_r by lia.
  rewrite Z.rem_mul_r by lia. lia.
Qed.

Lemma from_le_bound l : Forall byte_ok l → 0 ≤ from_le l < 256 ^ Z.of_nat (length l).
Proof.
  unfold byte_ok. induction 1 as [|b l Hb _ IH]; cbn [from_le length]; [lia|].
  rewrite Nat2Z.inj_succ, Z.pow_succ_r by lia. nia.
Qed.

Lemma to_from_le l : Forall byte_ok l → to_le (length l) (from_le l) = l.
Proof.
  unfold byte_ok. induction 1 as [|b l Hb _ IH]; cbn [from_le length to_le]; [done|].
  rewrite (Z.mul_comm 256). rewrite Z.mod_add, Z.mod_small by lia. f_equal.
  rewrite Z.div_add, Z.div_small by lia. exact IH.
Qed.

Lemma to_le_lookup n v i : (i < n)%nat → to_le n v !! i = Some (v / 256 ^ Z.of_nat i mod 256).
Proof.
  revert v i. induction n as [|n IH]; intros v i Hi; [lia|]. cbn [to_le].
  destruct i as [|i]; [by rewrite Z.pow_0_r, Z.div_1_r|]. cbn [lookup list_lookup].
  change (to_le n (v / 256) !! i = Some (v / 256 ^ Z.of_nat (S i) mod 256)).
  rewrite IH by lia. rewrite Nat2Z.inj_succ, Z.pow_succ_r by lia.
  rewrite Z.div_div by lia. done.
Qed.

(** ** Ordered maps

    A [BTreeMap] with integer keys is a [gmap]; iteration goes through
    [bentries], the bindings in increasing key order. *)

Section BTree.
Context {A : Type}.
Implicit Types m : gmap Z A.

Definition key_le (x y : Z * A) : Prop := x.1 ≤ y.1.

#[export] Instance key_le_dec : RelDecision key_le.
Proof. intros x y. unfold key_le. apply _. Defined.

#[export] Instance key_le_trans : Transitive key_le.
Proof. intros x y z. unfold key_le. lia. Qed.

#[export] Instance key_le_total : Total key_le.
Proof. intros x y. unfold key_le. lia. Qed.

Definition bentries m : list (Z * A) := merge_sort key_le (map_to_list m).
Definition bkeys m : list Z := (bentries m).*1.
Definition bvalues m : list A := (bentries m).*2.

Lemma elem_of_bentries m k v : (k, v) ∈ bentries m ↔ m !! k = Some v.
Proof. unfold bentries. rewrite merge_sort_Permutation. apply elem_of_map_to_list. Qed.

Lemma bentries_sorted m : StronglySorted key_le (bentries m).
Proof. apply StronglySorted_merge_sort; apply _. Qed.

Lemma bkeys_NoDup m : NoDup (bkeys m).
Proof. unfold bkeys, bentries. rewrite merge_sort_Permutation. apply NoDup_fst_map_to_list. Qed.

Lemma elem_of_bkeys m k : k ∈ bkeys m ↔ is_Some (m !! k).
Proof.
  unfold bkeys. rewrite list_elem_of_fmap. split.
  - intros ([k' v] & -> & Hin). apply elem_of_bentries in Hin. cbn. eauto.
  - intros [v Hv]. exists (k, v). by rewrite elem_of_bentries.
Qed.

Lemma elem_of_bvalues m v : v ∈ bvalues m ↔ ∃ k, m !! k = Some v.
Proof.
  unfold bvalues. rewrite list_elem_of_fmap. split.
  - intros ([k v'] & -> & Hin). apply elem_of_bentries in Hin. eauto.
  - intros [k Hk]. exists (k, v). by rewrite elem_of_bentries.
Qed.
End BTree.

(** ** Lists *)

Lemma list_filter_ext_in {A} (P Q : A → Prop) `{!∀ x, Decision (P x), !∀ x, Decision (Q x)}
    (l : list A) :
  (∀ x, x ∈ l → P x ↔ Q x) → filter P l = filter Q l.
Proof.
  induction l as [|x l IH]; intros HPQ; [done|].
  pose proof (HPQ x (list_elem_of_here _ _)) as Hx.
  assert (filter P l = filter Q l) as E by (apply IH; intros; apply HPQ; by apply list_elem_of_further).
  destruct (decide (P x)).
  - rewrite !filter_cons_True by tauto. by rewrite E.
  - rewrite !filter_cons_False by tauto. by rewrite E.
Qed.

(** The head of a filtered list is the first element that passes. *)
Lemma filter_cons_inv {A} (P : A → Prop) `{!∀ x, Decision (P x)} (l k : list A) x :
  filter P l = x :: k →
  ∃ l1 l2, l = l1 ++ x :: l2 ∧ Forall (λ y, ¬ P y) l1 ∧ P x ∧ k = filter P l2.
Proof.
  induction l as [|y l IH]; [done|]. destruct (decide (P y)) as [Hy|Hy].
  - rewrite filter_cons_True by done. intros [= <- <-]. by exists [], l.
  - rewrite filter_cons_False by done. intros (l1 & l2 & -> & ? & ? & ?)%IH.
    exists (y :: l1), l2. auto.
Qed.

Lemma StronglySorted_filter {A} (R : relation A) (P : A → Prop) `{!∀ x, Decision (P x)} (l : list A) :
  StronglySorted R l → StronglySorted R (filter P l).
Proof.
  induction 1 as [|x l Hs IH Hx]; [constructor|]. destruct (decide (P x)).
  - rewrite filter_cons_True by done. constructor; [done|].
    rewrite Forall_forall in Hx |- *. intros y [_ Hy]%list_elem_of_filter. auto.
  - by rewrite filter_cons_False.
Qed.

(** [min_by_key] returns the first minimal element, [max_by_key] the last
    maximal one. *)
Fixpoint min_by_key {A} (f : A → Z) (l : list A) : option A :=
  match l with
  | [] => None
  | x :: l' =>
      match min_by_key f l' with
      | Some y => if f y <? f x then Some y else Some x
      | None => Some x
      end
  end.

Fixpoint max_by_key {A} (f : A → Z) (l : list A) : option A :=
  match l with
  | [] => None
  | x :: l' =>
      match max_by_key f l' with
      | Some y => if f y <? f x then Some x else Some y
      | None => Some x
      end
  end.

Lemma min_by_key_spec {A} (f : A → Z) l x : min_by_key f l = Some x → x ∈ l ∧ ∀ y, y ∈ l → f x ≤ f y.
Proof.
  revert x. induction l as [|a l IH]; intros x; cbn; [done|].
  destruct (min_by_key f l) as [y|] eqn:E.
  - destruct (IH y eq_refl) as [Hy Hm]. destruct (Z.ltb_spec (f y) (f a)); intros [= <-].
    + split; [by right|]. intros z [->|Hz]%elem_of_cons; [lia|auto].
    + split; [by left|]. intros z [->|Hz]%elem_of_cons; [lia|]. apply Hm in Hz. lia.
  - intros [= <-]. split; [by left|]. destruct l as [|b l]; [|cbn in E; by repeat case_match].
    intros z [->|Hz]%elem_of_cons; [lia|by apply not_elem_of_nil in Hz].
Qed.

Lemma max_by_key_spec {A} (f : A → Z) l x : max_by_key f l = Some x → x ∈ l ∧ ∀ y, y ∈ l → f y ≤ f x.
Proof.
  revert x. induction l as [|a l IH]; intros x; cbn; [done|].
  destruct (max_by_key f l) as [y|] eqn:E.
  - destruct (IH y eq_refl) as [Hy Hm]. destruct (Z.ltb_spec (f y) (f a)); intros [= <-].
    + split; [by left|]. intros z [->|Hz]%elem_of_cons; [lia|]. apply Hm in Hz. lia.
    + split; [by right|]. intros z [->|Hz]%elem_of_cons; [lia|auto].
  - intros [= <-]. split; [by left|]. destruct l as [|b l]; [|cbn in E; by repeat case_match].
    intros z [->|Hz]%elem_of_cons; [lia|by apply not_elem_of_nil in Hz].
Qed.

Lemma min_by_key_None {A} (f : A → Z) l : min_by_key f l = None ↔ l = [].
Proof. destruct l; cbn; [done|]. split; [by repeat case_match|done]. Qed.

Lemma max_by_key_None {A} (f : A → Z) l : max_by_key f l = None ↔ l = [].
Proof. destruct l; cbn; [done|]. split; [by repeat case_match|done]. Qed.

Lemma filter_none {A} (P : A → Prop) `{!∀ x, Decision (P x)} (l : list A) :
  (∀ x, x ∈ l → ¬ P x) → filter P l = [].
Proof.
  induction l as [|x l IH]; intros Hn; [done|]. rewrite filter_cons_False by (apply Hn; left).
  apply IH. intros y Hy. apply Hn. by right.
Qed.

Lemma map_id_in {A} (f : A → A) (l : list A) : (∀ x, x ∈ l → f x = x) → List.map f l = l.
Proof.
  induction l as [|x l IH]; intros Hf; cbn; [done|]. rewrite Hf by left. f_equal. apply IH. intros y Hy. apply Hf. by right.
Qed.
