(* ===== verification/Path.v ===== *)
(** * Byte strings, paths and UTF-8

    A Rust [&str] is a list of bytes.  This file holds the string functions the
    file systems use ([split('/')], [trim_start_matches], [rfind], [rsplit_once]),
    the byte order of [BTreeMap<String, _>], and the UTF-8 decoder behind
    [from_utf8] and [from_utf8_lossy]. *)

From S2P Require Import Prelude.

Definition bytes_of (s : string) : list Z := (λ a, Z.of_nat (nat_of_ascii a)) <$> String.list_ascii_of_string s.

(** [/] *)
Definition slash : Z := 47.

Fixpoint trim_start (c : Z) (l : list Z) : list Z :=
  match l with
  | x :: l' => if x =? c then trim_start c l' else l
  | [] => []
  end.

Definition trim_end (c : Z) (l : list Z) : list Z := reverse (trim_start c (reverse l)).

(** [split(c)]: the pieces between the separators, at least one. *)
Fixpoint split (c : Z) (l : list Z) : list (list Z) :=
  match l with
  | [] => [[]]
  | x :: l' =>
      if x =? c then [] :: split c l'
      else match split c l' with
           | p :: ps => (x :: p) :: ps
           | [] => [[x]]
           end
  end.

(** The text before and after the last [c]: [rfind] with its two slices. *)
Fixpoint rsplit_once (c : Z) (l : list Z) : option (list Z * list Z) :=
  match l with
  | [] => None
  | x :: l' =>
      match rsplit_once c l' with
      | Some (a, b) => Some (x :: a, b)
      | None => if x =? c then Some ([], l') else None
      end
  end.

(** The bytes before the first NUL, all of them when there is none. *)
Fixpoint until_nul (l : list Z) : list Z :=
  match l with [] => [] | b :: l' => if b =? 0 then [] else b :: until_nul l' end.

Definition starts_with (p l : list Z) : bool := bool_decide (take (length p) l = p).

(** [components.join("/")] *)
Fixpoint join (c : Z) (l : list (list Z)) : list Z :=
  match l with
  | [] => []
  | [p] => p
  | p :: l' => p ++ c :: join c l'
  end.

(** ** The order of names *)

Fixpoint lex_le (a b : list Z) : bool :=
  match a, b with
  | [], _ => true
  | _ :: _, [] => false
  | x :: a', y :: b' => (x <? y) || ((x =? y) && lex_le a' b')
  end.

Section Names.
Context {A : Type}.
Implicit Types m : gmap (list Z) A.

Definition name_le (x y : list Z * A) : Prop := lex_le x.1 y.1 = true.

#[export] Instance name_le_dec : RelDecision name_le.
Proof. intros x y. unfold name_le. apply _. Defined.

(** The bindings of a [BTreeMap<String, A>] in iteration order. *)
Definition sentries m : list (list Z * A) := merge_sort name_le (map_to_list m).

Lemma elem_of_sentries m k v : (k, v) ∈ sentries m ↔ m !! k = Some v.
Proof. unfold sentries. rewrite merge_sort_Permutation. apply elem_of_map_to_list. Qed.

Lemma length_sentries m : length (sentries m) = size m.
Proof. unfold sentries. rewrite merge_sort_Permutation. apply length_map_to_list. Qed.
End Names.

Lemma lex_le_trans a b c : lex_le a b = true → lex_le b c = true → lex_le a c = true.
Proof.
  revert b c. induction a as [|x a IH]; intros [|y b] [|z c]; cbn; try done.
  rewrite !orb_true_iff, !andb_true_iff, !Z.ltb_lt, !Z.eqb_eq. intros [?|[? ?]] [?|[? ?]]; [left; lia..|].
  right. split; [lia|eauto].
Qed.

Lemma lex_le_total a b : lex_le a b = true ∨ lex_le b a = true.
Proof.
  revert b. induction a as [|x a IH]; intros [|y b]; cbn; try tauto.
  rewrite !orb_true_iff, !andb_true_iff, !Z.ltb_lt, !Z.eqb_eq.
  destruct (Z.lt_total x y) as [|[->|]]; [tauto| |tauto]. destruct (IH b); tauto.
Qed.

#[export] Instance name_le_trans {A} : Transitive (name_le (A:=A)).
Proof. intros x y z. apply lex_le_trans. Qed.

#[export] Instance name_le_total {A} : Total (name_le (A:=A)).
Proof. intros x y. apply lex_le_total. Qed.

Lemma sentries_sorted {A} (m : gmap (list Z) A) : StronglySorted name_le (sentries m).
Proof. apply StronglySorted_merge_sort; apply _. Qed.

(** ** UTF-8 *)

Definition in_range (lo hi b : Z) : bool := (lo <=? b) && (b <=? hi).
Definition is_cont (b : Z) : bool := in_range 0x80 0xBF b.

(** The lead bytes of three- and four-byte sequences with the second bytes each
    of them allows. *)
Definition second_of_three (a b : Z) : bool :=
  ((a =? 0xE0) && in_range 0xA0 0xBF b) || (in_range 0xE1 0xEC a && is_cont b) ||
  ((a =? 0xED) && in_range 0x80 0x9F b) || (in_range 0xEE 0xEF a && is_cont b).
Definition second_of_four (a b : Z) : bool :=
  ((a =? 0xF0) && in_range 0x90 0xBF b) || (in_range 0xF1 0xF3 a && is_cont b) ||
  ((a =? 0xF4) && in_range 0x80 0x8F b).

(** One step of the decoder on a non-empty input: whether a scalar value starts
    there, and how many bytes it, or the maximal ill-formed part, takes.  A byte
    beyond the end counts as 0, which is no continuation byte. *)
Definition utf8_step (l : list Z) : bool * nat :=
  let at_ i := default 0 (l !! i) in
  let a := at_ 0%nat in let b := at_ 1%nat in let c := at_ 2%nat in let d := at_ 3%nat in
  if a <? 0x80 then (true, 1%nat)
  else if in_range 0xC2 0xDF a then if is_cont b then (true, 2%nat) else (false, 1%nat)
  else if in_range 0xE0 0xEF a then
    if negb (second_of_three a b) then (false, 1%nat)
    else if is_cont c then (true, 3%nat) else (false, 2%nat)
  else if in_range 0xF0 0xF4 a then
    if negb (second_of_four a b) then (false, 1%nat)
    else if negb (is_cont c) then (false, 2%nat)
    else if is_cont d then (true, 4%nat) else (false, 3%nat)
  else (false, 1%nat).

(** Every step takes a byte at least: [length l] steps are enough. *)
Fixpoint utf8_valid_loop (fuel : nat) (l : list Z) : bool :=
  match fuel, l with
  | S fuel', _ :: _ => let '(ok, n) := utf8_step l in ok && utf8_valid_loop fuel' (drop n l)
  | _, _ => true
  end.
Definition utf8_valid (l : list Z) : bool := utf8_valid_loop (length l) l.

(** [core::str::from_utf8] *)
Definition from_utf8 (l : list Z) : option (list Z) := if utf8_valid l then Some l else None.

(** U+FFFD *)
Definition replacement : list Z := [0xEF; 0xBF; 0xBD].

Fixpoint lossy_loop (fuel : nat) (l : list Z) : list Z :=
  match fuel, l with
  | S fuel', _ :: _ =>
      let '(ok, n) := utf8_step l in
      (if ok then take n l else replacement) ++ lossy_loop fuel' (drop n l)
  | _, _ => []
  end.
(** [String::from_utf8_lossy] *)
Definition from_utf8_lossy (l : list Z) : list Z := lossy_loop (length l) l.

Lemma utf8_step_pos l : (1 ≤ (utf8_step l).2)%nat.
Proof. unfold utf8_step. repeat case_match; cbn; lia. Qed.

Lemma second_zero a : second_of_three a 0 = false ∧ second_of_four a 0 = false.
Proof.
  unfold second_of_three, second_of_four, is_cont.
  assert (∀ lo hi, 0 < lo → in_range lo hi 0 = false) as E.
  { intros lo hi ?. unfold in_range. by rewrite (proj2 (Z.leb_gt lo 0)). }
  rewrite !E by lia. by rewrite !andb_false_r.
Qed.

Lemma utf8_step_fits l : l ≠ [] → (utf8_step l).1 = true → ((utf8_step l).2 ≤ length l)%nat.
Proof.
  intros Hl. unfold utf8_step. destruct (second_zero (default 0 (l !! 0%nat))) as [E3 E4].
  destruct l as [|a [|b [|c [|d l]]]]; [done|..];
    cbv [lookup list_lookup default from_option id] in E3, E4 |- *; change (is_cont 0) with false;
    try rewrite E3; try rewrite E4; cbn [length negb]; repeat case_match; cbn; try done; lia.
Qed.

Lemma lossy_valid_loop fuel : ∀ l, (length l ≤ fuel)%nat → utf8_valid_loop fuel l = true → lossy_loop fuel l = l.
Proof.
  induction fuel as [|fuel IH]; intros [|x l] Hl; [done|cbn in Hl; lia|done|].
  pose proof (utf8_step_pos (x :: l)) as Hp. pose proof (utf8_step_fits (x :: l)) as Hf.
  cbn [utf8_valid_loop lossy_loop]. destruct (utf8_step (x :: l)) as [[] n]; cbn [fst snd] in *; [|done].
  intros Hv. rewrite IH; [apply take_drop| |done]. rewrite length_drop. lia.
Qed.

(** A well-formed string is its own lossy decoding. *)
Lemma lossy_valid l : utf8_valid l = true → from_utf8_lossy l = l.
Proof. by apply lossy_valid_loop. Qed.

(** ** Splitting and joining *)

Lemma trim_start_app_other c x l : x ≠ c → trim_start c (x :: l) = x :: l.
Proof. intros. cbn. by rewrite (proj2 (Z.eqb_neq _ _)). Qed.

Lemma split_nonempty c l : split c l ≠ [].
Proof. destruct l; cbn; [done|]. repeat case_match; done. Qed.

Lemma split_no_sep c l : c ∉ l → split c l = [l].
Proof.
  induction l as [|x l IH]; cbn; [done|]. rewrite not_elem_of_cons. intros [Hx Hl].
  rewrite (proj2 (Z.eqb_neq x c)) by congruence. by rewrite IH.
Qed.

Lemma split_app_sep c l1 l2 : c ∉ l1 → split c (l1 ++ c :: l2) = l1 :: split c l2.
Proof.
  induction l1 as [|x l1 IH]; cbn; [by rewrite Z.eqb_refl|]. rewrite not_elem_of_cons. intros [Hx Hl].
  rewrite (proj2 (Z.eqb_neq x c)) by congruence. by rewrite IH.
Qed.

Lemma split_join c ps : ps ≠ [] → Forall (λ p, c ∉ p) ps → split c (join c ps) = ps.
Proof.
  intros Hne Hp. induction Hp as [|p ps Hc Hp IH]; [done|]. destruct ps as [|q ps]; [by apply split_no_sep|].
  change (join c (p :: q :: ps)) with (p ++ c :: join c (q :: ps)). by rewrite split_app_sep, IH.
Qed.

Lemma split_pieces c l : Forall (λ p, c ∉ p) (split c l).
Proof.
  induction l as [|x l IH]; cbn; [repeat constructor; apply not_elem_of_nil|].
  destruct (Z.eqb_spec x c); [constructor; [apply not_elem_of_nil|done]|].
  destruct (split c l) as [|p ps]; [repeat constructor; by apply not_elem_of_cons; split; [congruence|apply not_elem_of_nil]|].
  apply Forall_cons in IH as [Hc Hps]. constructor; [apply not_elem_of_cons; split; [congruence|done]|done].
Qed.

Lemma rsplit_once_None c l : rsplit_once c l = None ↔ c ∉ l.
Proof.
  induction l as [|x l IH]; cbn; [by split; [intros _; apply not_elem_of_nil|]|]. rewrite not_elem_of_cons.
  destruct (rsplit_once c l) as [[]|]; [split; [done|]; intros [_ H]; by apply IH in H|].
  destruct (Z.eqb_spec x c); [split; [done|]; intros [H _]; congruence|]. split; [|done]. intros _. split; [congruence|by apply IH].
Qed.

Lemma rsplit_once_app c a b : c ∉ b → rsplit_once c (a ++ c :: b) = Some (a, b).
Proof.
  intros Hb%rsplit_once_None. induction a as [|x a IH]; cbn; [by rewrite Hb, Z.eqb_refl|by rewrite IH].
Qed.

Lemma rsplit_once_Some c l a b : rsplit_once c l = Some (a, b) → l = a ++ c :: b ∧ c ∉ b.
Proof.
  revert a b. induction l as [|x l IH]; intros a b; cbn; [done|].
  destruct (rsplit_once c l) as [[a' b']|] eqn:E.
  - intros [= <- <-]. destruct (IH _ _ eq_refl) as [-> ?]. done.
  - apply rsplit_once_None in E. destruct (Z.eqb_spec x c) as [->|]; [|done]. by intros [= <- <-].
Qed.
