(* ===== verification/Vfs.v ===== *)
(** * The in-memory tree of files ([fs/vfs.rs], [fs/devfs.rs])

    An inode lives behind an [Arc<Mutex<Inode>>] that directories and open files
    share, so the inodes are a store indexed by handles and a directory maps names
    to handles; [Arc::ptr_eq] compares handles.  An inode stays in the store when
    its last name goes, like the allocation an open file still holds.

    [resolve_path] follows a symbolic link by calling itself.  The model takes the
    number [depth] of nested activations the kernel stack has room for; one more
    is the stack overflow, the outcome [Panic]. *)

From S2P Require Import Prelude.
From S2P Require Import Path.

Inductive InodeType := IFile | IDirectory | ICharDevice | IBlockDevice | IPipe | ISocket | ISymlink.

#[export] Instance InodeType_eq_dec : EqDecision InodeType.
Proof. solve_decision. Defined.

Record Inode := mkInode {
  itype : InodeType; isize : Z; idata : list Z; children : gmap (list Z) Z; imode : Z; iuid : Z; igid : Z;
  dev_major : Z; dev_minor : Z }.

Definition new_dir (mode : Z) : Inode := mkInode IDirectory 0 [] ∅ mode 0 0 0 0.
Definition new_file (mode : Z) : Inode := mkInode IFile 0 [] ∅ mode 0 0 0 0.
Definition new_chardev (major minor : Z) : Inode := mkInode ICharDevice 0 [] ∅ 0x1B6 0 0 major minor.

Definition set_children (x : gmap (list Z) Z) (i : Inode) : Inode :=
  mkInode (itype i) (isize i) (idata i) x (imode i) (iuid i) (igid i) (dev_major i) (dev_minor i).
Definition set_data (x : list Z) (i : Inode) : Inode :=
  mkInode (itype i) (Z.of_nat (length x)) x (children i) (imode i) (iuid i) (igid i) (dev_major i) (dev_minor i).
Definition set_itype (x : InodeType) (i : Inode) : Inode :=
  mkInode x (isize i) (idata i) (children i) (imode i) (iuid i) (igid i) (dev_major i) (dev_minor i).

Record Fs := mkFs { inodes : gmap Z Inode; NEXT_INODE : Z; ROOT : option Z; CWD : list Z }.

(** The inode behind a handle.  A handle is never dangling: [closed] below. *)
Definition node (t : Fs) (h : Z) : Inode := default (new_file 0) (inodes t !! h).

Definition set_inodes (x : gmap Z Inode) (t : Fs) : Fs := mkFs x (NEXT_INODE t) (ROOT t) (CWD t).
Definition set_cwd (x : list Z) (t : Fs) : Fs := mkFs (inodes t) (NEXT_INODE t) (ROOT t) x.
Definition set_root (x : Z) (t : Fs) : Fs := mkFs (inodes t) (NEXT_INODE t) (Some x) (CWD t).

(** [Arc::new(Mutex::new(i))] *)
Definition alloc_inode (i : Inode) : M Fs Z := λ t,
  (Ok (NEXT_INODE t), mkFs (<[NEXT_INODE t := i]> (inodes t)) (NEXT_INODE t + 1) (ROOT t) (CWD t)).

Definition on_node (h : Z) (f : Inode → Inode) (t : Fs) : Fs := set_inodes (alter f h (inodes t)) t.
Definition add_child (dir : Z) (name : list Z) (h : Z) (t : Fs) : Fs :=
  on_node dir (λ i, set_children (<[name := h]> (children i)) i) t.
Definition remove_child (dir : Z) (name : list Z) (t : Fs) : Fs :=
  on_node dir (λ i, set_children (delete name (children i)) i) t.

Definition child (t : Fs) (dir : Z) (name : list Z) : option Z := children (node t dir) !! name.

(** ** Paths *)

Definition dot : list Z := [46].
Definition dotdot : list Z := [46; 46].

Definition root : M Fs Z := let! t := get in or_panic (ROOT t).
Definition current_dir (t : Fs) : list Z := CWD t.

(** Components the walk ignores; [..] is one of them. *)
Definition skipped (c : list Z) : bool := bool_decide (c = []) || bool_decide (c = dot) || bool_decide (c = dotdot).

(** The loop over the components, with the call that follows a link as [follow]. *)
Fixpoint walk (follow : list Z → outcome Z) (t : Fs) (current : Z) (components : list (list Z)) : outcome Z :=
  match components with
  | [] => Ok current
  | c :: cs =>
      if skipped c then walk follow t current cs
      else if negb (bool_decide (itype (node t current) = IDirectory)) then Err ENOTDIR
      else match child t current c with
           | Some h =>
               if bool_decide (itype (node t h) = ISymlink) then
                 match follow (from_utf8_lossy (idata (node t h))) with
                 | Ok h' => walk follow t h' cs
                 | r => r
                 end
               else walk follow t h cs
           | None => Err ENOENT
           end
  end.

Definition is_root_path (path : list Z) : bool := bool_decide (path = [slash]) || bool_decide (path = []).

Fixpoint resolve_path (depth : nat) (t : Fs) (path : list Z) : outcome Z :=
  match depth with
  | O => Panic
  | S depth' =>
      match ROOT t with
      | None => Panic
      | Some r =>
          if is_root_path path then Ok r
          else walk (resolve_path depth' t) t r (split slash (trim_start slash path))
      end
  end.

Definition resolve (depth : nat) (path : list Z) : M Fs Z := λ t, (resolve_path depth t path, t).

Definition rsplit_path (path : list Z) : list Z * list Z :=
  let path := trim_end slash path in
  match rsplit_once slash path with
  | Some (a, b) => (if bool_decide (a = []) then [slash] else a, b)
  | None => ([slash], path)
  end.

Section Vfs.
Context (depth : nat).

Definition resolve_path_lstat (path : list Z) : M Fs Z :=
  if is_root_path path then root else
  let trimmed := trim_start slash path in
  let '(parent, last) :=
    match rsplit_once slash trimmed with Some (a, b) => (resolve depth (slash :: a), b) | None => (root, trimmed) end in
  let! p := parent in
  let! o := gets (λ t, child t p last) in
  ok_or o ENOENT.

Definition set_current_dir (path : list Z) : M Fs Z :=
  let! h := resolve depth path in
  let! ty := gets (λ t, itype (node t h)) in
  if negb (bool_decide (ty = IDirectory)) then fail ENOTDIR else
  modify (set_cwd path) ;;; ret 0.

Definition mkdir (path : list Z) (mode : Z) : M Fs Z :=
  let '(parent_path, name) := rsplit_path path in
  let! parent := resolve depth parent_path in
  let! o := gets (λ t, child t parent name) in
  match o with
  | Some _ => fail EEXIST
  | None => let! h := alloc_inode (new_dir mode) in modify (add_child parent name h) ;;; ret 0
  end.

(** The flags are not looked at. *)
Definition unlink (path : list Z) (flags : Z) : M Fs Z :=
  let '(parent_path, name) := rsplit_path path in
  let! parent := resolve depth parent_path in
  let! o := gets (λ t, child t parent name) in
  match o with
  | Some _ => modify (remove_child parent name) ;;; ret 0
  | None => fail ENOENT
  end.

Definition RENAME_NOREPLACE : Z := 1.

Definition rename (old_path new_path : list Z) (flags : Z) : M Fs Z :=
  if negb (Z.land flags (not32 RENAME_NOREPLACE) =? 0) then fail EINVAL else
  let '(old_parent_path, old_name) := rsplit_path old_path in
  let '(new_parent_path, new_name) := rsplit_path new_path in
  if bool_decide (old_name = []) || bool_decide (new_name = []) then fail EINVAL else
  let! old_parent := resolve depth old_parent_path in
  let! new_parent := resolve depth new_parent_path in
  let noreplace := has flags RENAME_NOREPLACE in
  if old_parent =? new_parent then
    let! taken := gets (λ t, bool_decide (is_Some (child t old_parent new_name))) in
    if noreplace && taken then fail EEXIST else
    let! o := gets (λ t, child t old_parent old_name) in
    let! moved := ok_or o ENOENT in
    modify (remove_child old_parent old_name) ;;;
    modify (add_child old_parent new_name moved) ;;; ret 0
  else
    let! o := gets (λ t, child t old_parent old_name) in
    let! moved := ok_or o ENOENT in
    modify (remove_child old_parent old_name) ;;;
    let! taken := gets (λ t, bool_decide (is_Some (child t new_parent new_name))) in
    if noreplace && taken then fail EEXIST else
    modify (add_child new_parent new_name moved) ;;; ret 0.
End Vfs.

(** ** The path of an inode *)

Definition child_path (path name : list Z) : list Z :=
  if bool_decide (path = [slash]) then slash :: name else path ++ slash :: name.

(** What a node adds to the stack: its children, if it is a directory.  The last
    one pushed is popped first, so the stack is kept with its top in front. *)
Definition push_children (t : Fs) (h : Z) (path : list Z) : list (Z * list Z) :=
  if bool_decide (itype (node t h) = IDirectory)
  then reverse ((λ e, (e.2, child_path path e.1)) <$> sentries (children (node t h))) else [].

(** [None] when [fuel] rounds do not end the search. *)
Fixpoint search (fuel : nat) (t : Fs) (target : Z) (stack : list (Z * list Z)) : option (option (list Z)) :=
  match stack with
  | [] => Some None
  | (h, path) :: rest =>
      match fuel with
      | O => None
      | S fuel' => if h =? target then Some (Some path) else search fuel' t target (push_children t h path ++ rest)
      end
  end.

(** The path text grows with every level, so a search that does not end exhausts
    the heap: the allocation failure is the kernel's panic. *)
Definition path_of_inode (fuel : nat) (target : Z) : M Fs (option (list Z)) :=
  let! r := root in
  if r =? target then ret (Some [slash]) else
  let! t := get in
  or_panic (search fuel t target [(r, [slash])]).

(** ** Status records *)

(** The file-type bits of [stat_node] and [FileObject::stat]; types the match
    does not list count as regular files. *)
Definition type_bits (ty : InodeType) : Z :=
  match ty with IFile => 0x8000 | IDirectory => 0x4000 | ICharDevice => 0x2000 | _ => 0x8000 end.

Definition stat_record (mode size : Z) : list Z :=
  replicate 16 0 ++ to_le 4 mode ++ replicate 28 0 ++ to_le 8 size ++ to_le 8 4096 ++ replicate 64 0.

Definition stat_node (i : Inode) : list Z := stat_record (Z.lor (type_bits (itype i)) (imode i)) (isize i).

(** ** Boot *)

(** [dir.children.insert(name, Arc::new(..))] *)
Definition put_new (dir : Z) (name : string) (i : Inode) : M Fs Z :=
  let! h := alloc_inode i in modify (add_child dir (bytes_of name) h) ;;; ret h.

Definition top_dirs : list string :=
  ["dev"; "proc"; "tmp"; "etc"; "var"; "home"; "usr"; "bin"; "sbin"; "lib"; "sys"; "run"]%string.

Definition init : M Fs () :=
  let! r := alloc_inode (new_dir 0x1ED) in
  for_each top_dirs (λ d, put_new r d (new_dir 0x1ED) ;;; ret tt) ;;;
  let! usr := gets (λ t, child t r (bytes_of "usr")) in
  match usr with
  | Some u => for_each ["bin"; "lib"; "share"]%string (λ d, put_new u d (new_dir 0x1ED) ;;; ret tt)
  | None => ret tt
  end ;;;
  modify (set_root r) ;;; modify (set_cwd [slash]).

Definition dev_nodes : list (string * (Z * Z)) :=
  [("null", (1, 3)); ("zero", (1, 5)); ("urandom", (1, 9)); ("tty", (5, 0)); ("console", (5, 1)); ("fb0", (29, 0))]%string.
Definition dri_nodes : list (string * (Z * Z)) := [("card0", (226, 0)); ("renderD128", (226, 128))]%string.
Definition input_nodes : list (string * (Z * Z)) := [("event0", (13, 64)); ("event1", (13, 65)); ("mice", (13, 63))]%string.

Definition put_chardevs (dir : Z) (l : list (string * (Z * Z))) : M Fs () :=
  for_each l (λ e, put_new dir e.1 (new_chardev e.2.1 e.2.2) ;;; ret tt).

(** [devfs::init] *)
Definition devfs_init : M Fs () :=
  let! r := root in
  let! o := gets (λ t, child t r (bytes_of "dev")) in
  match o with
  | Some dev =>
      put_chardevs dev dev_nodes ;;;
      let! dri := alloc_inode (new_dir 0x1ED) in
      put_chardevs dri dri_nodes ;;;
      modify (add_child dev (bytes_of "dri") dri) ;;;
      let! input := alloc_inode (new_dir 0x1ED) in
      put_chardevs input input_nodes ;;;
      modify (add_child dev (bytes_of "input") input) ;;;
      put_new dev "ptmx" (new_chardev 5 2) ;;;
      put_new dev "pts" (new_dir 0x1ED) ;;; ret tt
  | None => ret tt
  end.

Definition empty_fs : Fs := mkFs ∅ 0 None [].
Definition boot_tree : Fs := ((init ;;; devfs_init) empty_fs).2.

(** ** Components *)

(** The components that count. *)
Definition comps (path : list Z) : list (list Z) := filter (λ c, skipped c = false) (split slash path).

Lemma walk_filter f t l : ∀ cur, walk f t cur (filter (λ c, skipped c = false) l) = walk f t cur l.
Proof.
  induction l as [|c l IH]; intros cur; [done|]. rewrite filter_cons. cbn [walk].
  destruct (skipped c) eqn:E; [rewrite decide_False by done; apply IH|]. rewrite decide_True by done. cbn [walk]. rewrite E.
  case_match; [done|]. case_match; [|done]. case_match; [case_match; auto|auto].
Qed.

Lemma walk_app f t l1 l2 : ∀ cur, walk f t cur (l1 ++ l2) =
  match walk f t cur l1 with Ok h => walk f t h l2 | r => r end.
Proof.
  induction l1 as [|c l1 IH]; intros cur; [done|]. cbn [walk app].
  case_match; [apply IH|]. case_match; [done|]. case_match; [|done]. case_match; [case_match; auto|auto].
Qed.

Lemma comps_slash p : comps (slash :: p) = comps p.
Proof. unfold comps. cbn [split]. rewrite Z.eqb_refl. by rewrite filter_cons_False. Qed.

Lemma comps_app_slash a b : comps (a ++ slash :: b) = comps a ++ comps b.
Proof.
  unfold comps. rewrite <- filter_app. f_equal. induction a as [|x a IH]; cbn [app split]; [by rewrite Z.eqb_refl|].
  rewrite IH. destruct (x =? slash); [done|]. pose proof (split_nonempty slash a). by destruct (split slash a).
Qed.

Lemma comps_trim_start p : comps (trim_start slash p) = comps p.
Proof.
  induction p as [|x p IH]; cbn [trim_start]; [done|]. destruct (Z.eqb_spec x slash) as [->|]; [|done].
  by rewrite comps_slash.
Qed.

Lemma trim_end_snoc c p x : trim_end c (p ++ [x]) = if x =? c then trim_end c p else p ++ [x].
Proof.
  unfold trim_end. rewrite reverse_snoc. cbn [trim_start]. destruct (x =? c); [done|]. by rewrite reverse_cons, reverse_involutive.
Qed.

Lemma comps_trim_end p : comps (trim_end slash p) = comps p.
Proof.
  induction p as [|x p IH] using rev_ind; [done|]. rewrite trim_end_snoc. destruct (Z.eqb_spec x slash) as [->|]; [|done].
  rewrite comps_app_slash, IH. change (comps []) with (@nil (list Z)). by rewrite app_nil_r.
Qed.

Lemma comps_name c : slash ∉ c → comps c = if skipped c then [] else [c].
Proof. intros H. unfold comps. rewrite split_no_sep by done. rewrite filter_cons. by destruct (skipped c). Qed.

Lemma rsplit_path_name path : slash ∉ (rsplit_path path).2.
Proof.
  unfold rsplit_path. destruct (rsplit_once slash _) as [[a b]|] eqn:E; [by apply rsplit_once_Some in E as [_ ?]|].
  by apply rsplit_once_None.
Qed.

Lemma rsplit_path_comps path : comps path = comps (rsplit_path path).1 ++ comps (rsplit_path path).2.
Proof.
  unfold rsplit_path. rewrite <- (comps_trim_end path). destruct (rsplit_once slash _) as [[a b]|] eqn:E; cbn [fst snd].
  - apply rsplit_once_Some in E as [-> _]. rewrite comps_app_slash. f_equal. by case_bool_decide; subst.
  - done.
Qed.

(** A resolution is a walk from the root along the components. *)
Lemma resolve_comps d t p : resolve_path (S d) t p =
  match ROOT t with Some r => walk (resolve_path d t) t r (comps p) | None => Panic end.
Proof.
  cbn [resolve_path]. destruct (ROOT t) as [r|]; [|done]. rewrite <- (comps_trim_start p). unfold comps. rewrite walk_filter.
  unfold is_root_path. do 2 (case_bool_decide; subst; [done|]). done.
Qed.

Lemma resolve_split d t p : resolve_path (S d) t p =
  match resolve_path (S d) t (rsplit_path p).1 with
  | Ok h => walk (resolve_path d t) t h (comps (rsplit_path p).2)
  | r => r
  end.
Proof. rewrite !resolve_comps, (rsplit_path_comps p). destruct (ROOT t); [|done]. apply walk_app. Qed.

(** ** Symbolic links *)

Definition is_symlink (t : Fs) (h : Z) : Prop := itype (node t h) = ISymlink.
#[export] Instance is_symlink_dec t h : Decision (is_symlink t h).
Proof. unfold is_symlink. apply _. Defined.
Definition target (t : Fs) (h : Z) : list Z := from_utf8_lossy (idata (node t h)).

(** A rank for links: a link can only meet links of smaller rank on the way to
    its target.  The links it may meet are those that bear the name of one of the
    target's components, in any directory. *)
Definition meets (t : Fs) (path : list Z) (h : Z) : Prop :=
  is_symlink t h ∧ ∃ c dir, c ∈ comps path ∧ child t dir c = Some h.
Definition ranked (t : Fs) (rank : Z → nat) : Prop :=
  ∀ h h', is_symlink t h → meets t (target t h) h' → (rank h' < rank h)%nat.

Lemma walk_no_panic f t l : (∀ c dir h, c ∈ l → child t dir c = Some h → is_symlink t h → f (target t h) ≠ Panic) →
  ∀ cur, walk f t cur l ≠ Panic.
Proof.
  induction l as [|c l IH]; intros Hf cur; cbn [walk]; [done|].
  assert (∀ cur, walk f t cur l ≠ Panic) as IH'.
  { apply IH. intros c' dir h Hc. apply (Hf c' dir h). by right. }
  destruct (skipped c); [apply IH'|]. destruct (negb _); [done|]. destruct (child t cur c) as [h|] eqn:E; [|done].
  case_bool_decide as Hs; [|apply IH'].
  pose proof (Hf c cur h (list_elem_of_here _ _) E Hs) as Hn. unfold target in Hn. by destruct (f _).
Qed.

Lemma resolve_no_panic t rank r : ROOT t = Some r → ranked t rank →
  ∀ n p, (∀ h, meets t p h → (rank h < n)%nat) → resolve_path (S n) t p ≠ Panic.
Proof.
  intros Hr Hk. induction n as [|n IH]; intros p Hp; rewrite resolve_comps, Hr; apply walk_no_panic; intros c dir h Hc Hch Hs.
  - assert (rank h < 0)%nat; [|lia]. apply Hp. split; [done|eauto].
  - apply IH. intros h' Hm. pose proof (Hk h h' Hs Hm). assert (rank h < S n)%nat; [|lia]. apply Hp. split; [done|eauto].
Qed.

(** ** Walks through directories *)

(** Names that [walk] looks up. *)
Definition good_name (c : list Z) : Prop := skipped c = false ∧ slash ∉ c.

#[export] Instance good_name_dec c : Decision (good_name c).
Proof. unfold good_name. apply _. Defined.

(** Where the names [cs] lead from [cur], every step taken in a directory. *)
Fixpoint goto (t : Fs) (cur : Z) (cs : list (list Z)) : option Z :=
  match cs with
  | [] => Some cur
  | c :: cs' =>
      if bool_decide (itype (node t cur) = IDirectory) then h ← child t cur c; goto t h cs' else None
  end.

(** The directory entries such a walk reads. *)
Fixpoint entries (t : Fs) (cur : Z) (cs : list (list Z)) : list (Z * list Z) :=
  match cs with
  | [] => []
  | c :: cs' => (cur, c) :: match child t cur c with Some h => entries t h cs' | None => [] end
  end.

(** [/c1/c2/..], the text of a list of names. *)
Definition path_str (cs : list (list Z)) : list Z := if bool_decide (cs = []) then [slash] else slash :: join slash cs.

Lemma goto_snoc t cs c : ∀ cur, goto t cur (cs ++ [c]) =
  d ← goto t cur cs; if bool_decide (itype (node t d) = IDirectory) then child t d c else None.
Proof.
  induction cs as [|x cs IH]; intros cur; cbn.
  - case_bool_decide; [|done]. by destruct (child t cur c).
  - case_bool_decide; [|done]. destruct (child t cur x); [apply IH|done].
Qed.

Lemma goto_dir t c cs cur h : goto t cur (c :: cs) = Some h → itype (node t cur) = IDirectory.
Proof. cbn. by case_bool_decide. Qed.

(** A walk through directories to something that is not a link is the walk of
    [resolve_path], whatever the depth. *)
Lemma goto_walk f t cs h : Forall good_name cs → itype (node t h) ≠ ISymlink → ∀ cur, goto t cur cs = Some h → walk f t cur cs = Ok h.
Proof.
  intros Hg Hs. induction Hg as [|c cs [Hc _] Hg IH]; intros cur; cbn [goto walk]; [by intros [= ->]|].
  rewrite Hc. case_bool_decide as Hd; [|done]. cbn [negb]. destruct (child t cur c) as [x|] eqn:E; [|done]. cbn. intros Hx.
  rewrite bool_decide_eq_false_2; [by apply IH|]. destruct cs as [|c' cs]; [by injection Hx as ->|].
  apply goto_dir in Hx. congruence.
Qed.

Lemma comps_join cs : cs ≠ [] → Forall good_name cs → comps (join slash cs) = cs.
Proof.
  intros Hn Hg. unfold comps. rewrite split_join; [|done|by apply (Forall_impl _ _ _ Hg); intros ? []].
  clear Hn. induction Hg as [|c cs [Hc _] _ IH]; [done|]. by rewrite filter_cons_True, IH.
Qed.

Lemma comps_path_str cs : Forall good_name cs → comps (path_str cs) = cs.
Proof. intros Hg. unfold path_str. case_bool_decide; [by subst|]. rewrite comps_slash. by apply comps_join. Qed.

Lemma goto_resolve t r cs h d : ROOT t = Some r → Forall good_name cs → itype (node t h) ≠ ISymlink →
  goto t r cs = Some h → resolve_path (S d) t (path_str cs) = Ok h.
Proof. intros Hr Hg Hs Hh. rewrite resolve_comps, Hr, comps_path_str by done. by apply goto_walk. Qed.

Lemma join_snoc cs c : cs ≠ [] → join slash (cs ++ [c]) = join slash cs ++ slash :: c.
Proof.
  induction cs as [|x cs IH]; [done|]. intros _. destruct cs as [|y cs]; [done|].
  change (x ++ slash :: join slash ((y :: cs) ++ [c]) = (x ++ slash :: join slash (y :: cs)) ++ slash :: c).
  rewrite IH by done. by rewrite <- app_assoc.
Qed.

Lemma path_str_snoc cs c : Forall good_name cs → path_str (cs ++ [c]) = child_path (path_str cs) c.
Proof.
  intros Hg. destruct (decide (cs = [])) as [->|E]; [done|]. unfold path_str, child_path.
  rewrite !(bool_decide_eq_false_2 (_ = [])) by (done || by destruct cs). rewrite join_snoc, bool_decide_eq_false_2; [done| |done].
  intros [= Hj]. pose proof (comps_join cs E Hg) as Hc. rewrite Hj in Hc. by subst.
Qed.

(** ** Searching the tree *)

Definition names_ok (t : Fs) : Prop := ∀ d c h, child t d c = Some h → good_name c.

(** Directories do not contain themselves, directly or not. *)
Definition acyclic (t : Fs) (rk : Z → nat) : Prop :=
  ∀ d c h, itype (node t d) = IDirectory → child t d c = Some h → (rk h < rk d)%nat.

Definition names_of (t : Fs) (r : Z) (e : Z * list Z) : Prop :=
  ∃ cs, Forall good_name cs ∧ goto t r cs = Some e.1 ∧ e.2 = path_str cs.

Lemma elem_of_push t h path x p :
  (x, p) ∈ push_children t h path ↔ itype (node t h) = IDirectory ∧ ∃ c, child t h c = Some x ∧ p = child_path path c.
Proof.
  unfold push_children. case_bool_decide as Hd; [|rewrite elem_of_nil; tauto]. rewrite elem_of_reverse, list_elem_of_fmap. split.
  - intros ([c y] & [= -> ->] & Hin). apply elem_of_sentries in Hin. eauto.
  - intros (_ & c & Hc & ->). exists (c, x). by rewrite elem_of_sentries.
Qed.

Lemma push_names t r h path : names_ok t → names_of t r (h, path) → Forall (names_of t r) (push_children t h path).
Proof.
  intros Hn (cs & Hg & Hh & Hp). apply Forall_forall. intros [x p] (Hd & c & Hc & ->)%elem_of_push. cbn in Hh, Hp. subst path.
  pose proof (Hn _ _ _ Hc) as Hgc. exists (cs ++ [c]). split; [apply Forall_app; auto|]. cbn [fst snd].
  rewrite goto_snoc, Hh. cbn. rewrite bool_decide_eq_true_2 by done. split; [done|]. by rewrite path_str_snoc.
Qed.

Lemma search_sound t r x fuel : names_ok t → ∀ stack p, Forall (names_of t r) stack → search fuel t x stack = Some (Some p) →
  names_of t r (x, p).
Proof.
  intros Hn. induction fuel as [|fuel IH]; intros [|[h q] rest] p Hst; cbn [search]; [done..|].
  apply Forall_cons in Hst as [Hh Hst]. destruct (Z.eqb_spec h x) as [->|]; [by intros [= <-]|].
  intros E. apply (IH _ _) in E; [done|]. apply Forall_app. auto using push_names.
Qed.

Lemma search_complete t x fuel : ∀ stack, search fuel t x stack = Some None →
  ∀ h p cs, (h, p) ∈ stack → goto t h cs ≠ Some x.
Proof.
  induction fuel as [|fuel IH]; intros [|[h q] rest] E h' p cs; [by rewrite elem_of_nil|done|by rewrite elem_of_nil|].
  cbn [search] in E. destruct (Z.eqb_spec h x) as [|Hne]; [done|]. pose proof (IH _ E) as Hs.
  intros [[= -> ->]|Hin]%elem_of_cons; [|apply (Hs h' p cs), elem_of_app; by right].
  destruct cs as [|c cs]; [by intros [= ->]|]. intros Hg. pose proof (goto_dir _ _ _ _ _ Hg) as Hd. cbn in Hg.
  rewrite bool_decide_eq_true_2 in Hg by done. destruct (child t h c) as [y|] eqn:Ec; [|done]. cbn in Hg.
  apply (Hs y (child_path q c) cs); [|done]. apply elem_of_app. left. apply elem_of_push. eauto.
Qed.

(** [k] rounds get through the stack [l] or find the target. *)
Definition gets_through (t : Fs) (x : Z) (k : nat) (l : list (Z * list Z)) : Prop :=
  ∀ rest fuel, (∃ p, search (k + fuel) t x (l ++ rest) = Some (Some p)) ∨ search (k + fuel) t x (l ++ rest) = search fuel t x rest.

Lemma gets_through_list t x l : Forall (λ e, ∃ k, gets_through t x k [e]) l → ∃ k, gets_through t x k l.
Proof.
  induction 1 as [|e l [k Hk] _ [k' IH]]; [exists 0%nat; intros rest fuel; by right|].
  exists (k + k')%nat. intros rest fuel. rewrite <- Nat.add_assoc. destruct (Hk (l ++ rest) (k' + fuel)%nat) as [H|H]; [by left|].
  cbn [app] in *. rewrite H. apply IH.
Qed.

Lemma gets_through_node t x rk : acyclic t rk → ∀ n h path, (rk h < n)%nat → ∃ k, gets_through t x k [(h, path)].
Proof.
  intros Ha. induction n as [|n IH]; intros h path Hr; [lia|].
  destruct (gets_through_list t x (push_children t h path)) as [k Hk].
  { apply Forall_forall. intros [y p] (Hd & c & Hc & ->)%elem_of_push. apply IH. pose proof (Ha _ _ _ Hd Hc). lia. }
  exists (S k). intros rest fuel. cbn [app Nat.add search]. destruct (h =? x); [left; eauto|]. apply Hk.
Qed.

Lemma search_terminates t x rk h path : acyclic t rk → ∃ n, ∀ fuel, (n ≤ fuel)%nat → is_Some (search fuel t x [(h, path)]).
Proof.
  intros Ha. destruct (gets_through_node t x rk Ha (S (rk h)) h path) as [k Hk]; [lia|]. exists k. intros fuel Hf.
  replace fuel with (k + (fuel - k))%nat by lia. destruct (Hk [] (fuel - k)%nat) as [[p E]|E]; cbn [app] in E; rewrite E; [eauto|].
  by destruct (fuel - k)%nat.
Qed.

(** ** Edits of one entry *)

Lemma dir_present t d : itype (node t d) = IDirectory → is_Some (inodes t !! d).
Proof. unfold node. destruct (inodes t !! d); [eauto|done]. Qed.

Lemma node_on t d f h : node (on_node d f t) h = if bool_decide (h = d ∧ is_Some (inodes t !! d)) then f (node t h) else node t h.
Proof.
  unfold node, on_node. cbn. case_bool_decide as E.
  - destruct E as [-> [i Hi]]. by rewrite lookup_alter, Hi, decide_True.
  - destruct (decide (h = d)) as [->|]; [|by rewrite lookup_alter_ne]. rewrite lookup_alter, decide_True by done.
    destruct (inodes t !! d) eqn:Ed; [|done]. exfalso. eauto.
Qed.

(** The effect of an edit: the entry [(d, n)] becomes [o], everything else stays. *)
Record edited (t t' : Fs) (d : Z) (n : list Z) (o : option Z) : Prop := {
  ed_root : ROOT t' = ROOT t;
  ed_next : NEXT_INODE t' = NEXT_INODE t;
  ed_type : ∀ h, itype (node t' h) = itype (node t h);
  ed_data : ∀ h, idata (node t' h) = idata (node t h);
  ed_dom : ∀ h, is_Some (inodes t' !! h) ↔ is_Some (inodes t !! h);
  ed_here : child t' d n = o;
  ed_else : ∀ d' n', (d', n') ≠ (d, n) → child t' d' n' = child t d' n' }.

Lemma on_node_dom t d f h : is_Some (inodes (on_node d f t) !! h) ↔ is_Some (inodes t !! h).
Proof.
  cbn. destruct (decide (h = d)) as [->|]; [|by rewrite lookup_alter_ne]. rewrite lookup_alter, decide_True by done. apply fmap_is_Some.
Qed.

Lemma edit_entry (t : Fs) (d : Z) (n : list Z) (o : option Z) (g : gmap (list Z) Z → gmap (list Z) Z) : is_Some (inodes t !! d) →
  (∀ m, g m !! n = o) → (∀ m n', n' ≠ n → g m !! n' = m !! n') →
  edited t (on_node d (λ i, set_children (g (children i)) i) t) d n o.
Proof.
  intros Hd Hn He. split; try done.
  1,2: intros h; rewrite node_on; by case_bool_decide.
  - intros h. apply on_node_dom.
  - unfold child. rewrite node_on, bool_decide_eq_true_2 by done. apply Hn.
  - intros d' n' Hne. unfold child. rewrite node_on. case_bool_decide as E; [|done]. destruct E as [-> _]. apply He. congruence.
Qed.

Lemma add_child_edited t d n h : is_Some (inodes t !! d) → edited t (add_child d n h t) d n (Some h).
Proof.
  intros Hd. apply (edit_entry t d n (Some h) (insert n h)); [done|intros; by rewrite lookup_insert, decide_True|].
  intros m n' Hn. by rewrite lookup_insert_ne.
Qed.

Lemma remove_child_edited t d n : is_Some (inodes t !! d) → edited t (remove_child d n t) d n None.
Proof.
  intros Hd. apply (edit_entry t d n None (delete n)); [done|intros; by rewrite lookup_delete, decide_True|].
  intros m n' Hn. by rewrite lookup_delete_ne.
Qed.

(** A walk that does not read an edited entry goes on as before. *)
Lemma goto_frame t t' d n (o : option Z) cs : edited t t' d n o → ∀ cur, (d, n) ∉ entries t cur cs →
  goto t' cur cs = goto t cur cs ∧ entries t' cur cs = entries t cur cs.
Proof.
  intros He. induction cs as [|c cs IH]; intros cur; [done|]. cbn [entries goto]. rewrite not_elem_of_cons. intros [Hne Hin].
  rewrite (ed_type _ _ _ _ _ He), (ed_else _ _ _ _ _ He) by done. destruct (child t cur c) as [h|]; cbn; [|done].
  destruct (IH h Hin) as [-> ->]. done.
Qed.

(** ** No handle dangles *)

Record closed (t : Fs) : Prop := {
  cl_root : ∀ r, ROOT t = Some r → is_Some (inodes t !! r);
  cl_child : ∀ d c h, child t d c = Some h → is_Some (inodes t !! h);
  cl_next : ∀ h, is_Some (inodes t !! h) → h < NEXT_INODE t }.

Lemma edited_closed t t' d n o : edited t t' d n o → (∀ h, o = Some h → is_Some (inodes t !! h)) → closed t → closed t'.
Proof.
  intros He Ho Hc. split.
  - intros r. rewrite (ed_root _ _ _ _ _ He), (ed_dom _ _ _ _ _ He). apply Hc.
  - intros d' c h. rewrite (ed_dom _ _ _ _ _ He). destruct (decide ((d', c) = (d, n))) as [[= -> ->]|Hne].
    + rewrite (ed_here _ _ _ _ _ He). apply Ho.
    + rewrite (ed_else _ _ _ _ _ He) by done. apply Hc.
  - intros h. rewrite (ed_dom _ _ _ _ _ He), (ed_next _ _ _ _ _ He). apply Hc.
Qed.

Lemma walk_present f t l : closed t → (∀ p h, f p = Ok h → is_Some (inodes t !! h)) →
  ∀ cur h, is_Some (inodes t !! cur) → walk f t cur l = Ok h → is_Some (inodes t !! h).
Proof.
  intros Hc Hf. induction l as [|c l IH]; intros cur h Hcur; cbn [walk]; [by intros [= <-]|].
  destruct (skipped c); [by apply IH|]. destruct (negb _); [done|]. destruct (child t cur c) as [x|] eqn:E; [|done].
  apply Hc in E. destruct (bool_decide _); [|by apply IH]. destruct (f _) eqn:Ef; [|done..]. apply IH. by eapply Hf.
Qed.

Lemma resolve_present t d : closed t → ∀ p h, resolve_path d t p = Ok h → is_Some (inodes t !! h).
Proof.
  intros Hc. induction d as [|d IH]; intros p h; [done|]. rewrite resolve_comps. destruct (ROOT t) as [r|] eqn:Er; [|done].
  apply walk_present; [done..|]. by apply Hc.
Qed.

(** ** Growing the tree *)

(** [t'] has what [t] has, and maybe more. *)
Record grows (t t' : Fs) : Prop := {
  gr_root : ROOT t' = ROOT t;
  gr_node : ∀ h, is_Some (inodes t !! h) → itype (node t' h) = itype (node t h) ∧ idata (node t' h) = idata (node t h);
  gr_child : ∀ d c h, child t d c = Some h → child t' d c = Some h }.

Lemma walk_grows f f' t t' l : closed t → grows t t' → (∀ p h, f p = Ok h → f' p = Ok h ∧ is_Some (inodes t !! h)) →
  ∀ cur h, is_Some (inodes t !! cur) → walk f t cur l = Ok h → walk f' t' cur l = Ok h.
Proof.
  intros Hc Hg Hf. induction l as [|c l IH]; intros cur h Hcur; cbn [walk]; [done|].
  destruct (skipped c); [by apply IH|]. destruct (gr_node _ _ Hg _ Hcur) as [-> _]. destruct (negb _); [done|].
  destruct (child t cur c) as [x|] eqn:E; [|done]. rewrite (gr_child _ _ Hg _ _ _ E).
  pose proof (cl_child _ Hc _ _ _ E) as Hx. destruct (gr_node _ _ Hg _ Hx) as [-> ->]. destruct (bool_decide _); [|by apply IH].
  destruct (f _) as [y| |] eqn:Ef; [|done..]. apply Hf in Ef as [-> Hy]. by apply IH.
Qed.

Lemma resolve_grows t t' d : closed t → grows t t' → ∀ p h, resolve_path d t p = Ok h → resolve_path d t' p = Ok h.
Proof.
  intros Hc Hg. induction d as [|d IH]; intros p h; [done|]. rewrite !resolve_comps, (gr_root _ _ Hg).
  destruct (ROOT t) as [r|] eqn:Er; [|done]. apply walk_grows; [done..| |by apply Hc].
  intros q x Hq. split; [by apply IH|by eapply resolve_present].
Qed.

(** A new inode under a name that was free. *)
Definition with_new (i : Inode) (d : Z) (n : list Z) (t : Fs) : Fs := add_child d n (NEXT_INODE t) (alloc_inode i t).2.

Lemma node_alloc i t h : node (alloc_inode i t).2 h = if bool_decide (h = NEXT_INODE t) then i else node t h.
Proof.
  unfold node. cbn. case_bool_decide; [subst; by rewrite lookup_insert, decide_True|by rewrite lookup_insert_ne].
Qed.

Lemma with_new_spec i d n t : closed t → is_Some (inodes t !! d) → child t d n = None → children i = ∅ →
  grows t (with_new i d n t) ∧ closed (with_new i d n t) ∧
  child (with_new i d n t) d n = Some (NEXT_INODE t) ∧ node (with_new i d n t) (NEXT_INODE t) = i.
Proof.
  intros Hc Hd Hn Hi. set (t1 := (alloc_inode i t).2). pose proof (cl_next _ Hc _ Hd) as Hlt.
  assert (∀ h, is_Some (inodes t1 !! h) ↔ h = NEXT_INODE t ∨ is_Some (inodes t !! h)) as Hdom.
  { intros h. cbn. destruct (decide (h = NEXT_INODE t)) as [->|]; [rewrite lookup_insert, decide_True by done; split; eauto|].
    rewrite lookup_insert_ne by done. naive_solver. }
  assert (∀ d' c, child t1 d' c = if bool_decide (d' = NEXT_INODE t) then None else child t d' c) as Hch.
  { intros d' c. unfold child, t1. rewrite node_alloc. case_bool_decide; [by rewrite Hi|done]. }
  assert (∀ h, is_Some (inodes t !! h) → node t1 h = node t h) as Hold.
  { intros h Hh. unfold t1. rewrite node_alloc, bool_decide_eq_false_2; [done|]. pose proof (cl_next _ Hc _ Hh). lia. }
  assert (edited t1 (with_new i d n t) d n (Some (NEXT_INODE t))) as He by (apply add_child_edited, Hdom; by right).
  assert (closed t1) as Hc1.
  { split.
    - intros r Hr. apply Hdom. right. by apply Hc.
    - intros d' c h. rewrite Hch, Hdom. case_bool_decide; [done|]. intros ?%Hc. by right.
    - intros h [->|Hh%Hc]%Hdom; cbn; lia. }
  split_and!.
  - split; [apply He|..].
    + intros h Hh. by rewrite (ed_type _ _ _ _ _ He), (ed_data _ _ _ _ _ He), Hold.
    + intros d' c h Hh. rewrite (ed_else _ _ _ _ _ He) by congruence. rewrite Hch, bool_decide_eq_false_2; [done|].
      intros ->. unfold child, node in Hh. destruct (inodes t !! NEXT_INODE t) eqn:E; [|done].
      pose proof (cl_next _ Hc (NEXT_INODE t)) as Hx. rewrite E in Hx. specialize (Hx ltac:(eauto)). lia.
  - eapply edited_closed; [done| |done]. intros h [= <-]. apply Hdom. by left.
  - apply He.
  - unfold with_new, add_child. rewrite node_on, bool_decide_eq_false_2, node_alloc, bool_decide_eq_true_2 by (done || lia). done.
Qed.

(** ** Renaming *)

Lemma good_nonempty c : good_name c → c ≠ [].
Proof. intros [Hs _] ->. done. Qed.

Lemma rsplit_child p c : good_name c → p = [slash] ∨ trim_end slash p = p ∧ p ≠ [] → rsplit_path (child_path p c) = (p, c).
Proof.
  intros Hg Hp. pose proof (good_nonempty c Hg) as Hne. destruct Hg as [_ Hc].
  assert (∃ q, child_path p c = q ++ slash :: c ∧ (if bool_decide (q = []) then [slash] else q) = p) as (q & E & Eq).
  { unfold child_path. destruct (decide (p = [slash])) as [->|Hn]; [by exists []|]. rewrite bool_decide_eq_false_2 by done.
    exists p. destruct Hp as [|[_ ?]]; [done|]. by rewrite bool_decide_eq_false_2. }
  unfold rsplit_path. rewrite E. assert (trim_end slash (q ++ slash :: c) = q ++ slash :: c) as ->.
  { destruct c as [|x c _] using rev_ind; [done|]. rewrite app_comm_cons, app_assoc, trim_end_snoc.
    destruct (Z.eqb_spec x slash) as [->|]; [|done]. exfalso. apply Hc, elem_of_app. right. left. }
  rewrite rsplit_once_app by done. by rewrite Eq.
Qed.

Lemma trim_path_str cs : Forall good_name cs → path_str cs = [slash] ∨ trim_end slash (path_str cs) = path_str cs ∧ path_str cs ≠ [].
Proof.
  intros Hg. destruct cs as [|c cs _] using rev_ind; [by left|]. right. apply Forall_app in Hg as [Hg [Hc _]%Forall_cons].
  rewrite path_str_snoc by done. assert (child_path (path_str cs) c ≠ []) as Hn by (unfold child_path; case_bool_decide; [done|by destruct (path_str cs)]).
  split; [|done]. pose proof (good_nonempty c Hc). destruct Hc as [_ Hc]. destruct c as [|x c _] using rev_ind; [done|].
  assert (∃ q, child_path (path_str cs) (c ++ [x]) = q ++ [x]) as [q ->].
  { unfold child_path. case_bool_decide; [by exists (slash :: c)|]. exists (path_str cs ++ slash :: c). by rewrite <- app_assoc. }
  rewrite trim_end_snoc. destruct (Z.eqb_spec x slash) as [->|]; [|done]. exfalso. apply Hc, elem_of_app. right. left.
Qed.

Lemma rsplit_path_str cs c : Forall good_name cs → good_name c → rsplit_path (path_str (cs ++ [c])) = (path_str cs, c).
Proof. intros Hg Hc. rewrite path_str_snoc by done. by apply rsplit_child, trim_path_str. Qed.

Lemma goto_edited t t' d n o cs c r : edited t t' d n o → (d, n) ∉ entries t r cs →
  goto t r cs = Some d → itype (node t d) = IDirectory → c = n → goto t' r (cs ++ [c]) = o.
Proof.
  intros He Hin Hg Hd ->. rewrite goto_snoc. destruct (goto_frame _ _ _ _ _ cs He r Hin) as [-> _]. rewrite Hg. cbn.
  rewrite (ed_type _ _ _ _ _ He), bool_decide_eq_true_2 by done. apply He.
Qed.

(** A walk whose last entry is missing. *)
Lemma goto_missing f t cs c r d : Forall good_name cs → good_name c → goto t r cs = Some d → itype (node t d) = IDirectory →
  child t d c = None → walk f t r (cs ++ [c]) = Err ENOENT.
Proof.
  intros Hg [Hc _] Hd Ht Hn. rewrite walk_app, (goto_walk _ _ _ d) by (done || congruence). cbn [walk].
  by rewrite Hc, bool_decide_eq_true_2, Hn.
Qed.

Lemma resolve_missing t cs c r d e : ROOT t = Some r → Forall good_name cs → good_name c → goto t r cs = Some d →
  itype (node t d) = IDirectory → child t d c = None → resolve_path (S e) t (path_str (cs ++ [c])) = Err ENOENT.
Proof.
  intros Hr Hg Hc Hd Ht Hn. rewrite resolve_comps, Hr, comps_path_str by (apply Forall_app; auto). by eapply goto_missing.
Qed.

Section Renaming.
Context (t : Fs) (r : Z) (cs ds : list (list Z)) (a b : list Z) (p q h : Z).
Context (Hr : ROOT t = Some r) (Hcs : Forall good_name cs) (Hds : Forall good_name ds) (Ha : good_name a) (Hb : good_name b).
Context (Hp : goto t r cs = Some p) (Hpd : itype (node t p) = IDirectory).
Context (Hq : goto t r ds = Some q) (Hqd : itype (node t q) = IDirectory).
Context (Hh : child t p a = Some h).

Lemma rename_start d flags : Z.land flags (not32 RENAME_NOREPLACE) = 0 →
  rename (S d) (path_str (cs ++ [a])) (path_str (ds ++ [b])) flags t =
  if p =? q then
    if has flags RENAME_NOREPLACE && bool_decide (is_Some (child t p b)) then (Err EEXIST, t)
    else (Ok 0, add_child p b h (remove_child p a t))
  else
    if has flags RENAME_NOREPLACE && bool_decide (is_Some (child (remove_child p a t) q b)) then (Err EEXIST, remove_child p a t)
    else (Ok 0, add_child q b h (remove_child p a t)).
Proof using All.
  intros Hf. unfold rename. rewrite Hf, !rsplit_path_str by done. cbn [negb Z.eqb].
  rewrite !(bool_decide_eq_false_2 (_ = [])) by (by apply good_nonempty). cbn [orb].
  assert (resolve_path (S d) t (path_str cs) = Ok p) as Ep by (apply (goto_resolve t r); congruence).
  assert (resolve_path (S d) t (path_str ds) = Ok q) as Eq by (apply (goto_resolve t r); congruence).
  rewrite (bind_ok _ _ _ p t) by (unfold resolve; by rewrite Ep). rewrite (bind_ok _ _ _ q t) by (unfold resolve; by rewrite Eq).
  destruct (p =? q); kstep.
  - destruct (_ && _); [done|]. kstep. by rewrite Hh.
  - rewrite Hh. kstep. by destruct (_ && _).
Qed.

(** The entries the two walks read are not the ones that change. *)
Context (Hpa : (p, a) ∉ entries t r cs ++ entries t r ds) (Hqb : (q, b) ∉ entries t r cs ++ entries t r ds).

Lemma rename_edits t1 : t1 = add_child q b h (remove_child p a t) →
  edited t (remove_child p a t) p a None ∧ edited (remove_child p a t) t1 q b (Some h).
Proof using All.
  intros ->. assert (edited t (remove_child p a t) p a None) as E1 by (by apply remove_child_edited, dir_present).
  split; [done|]. apply add_child_edited, (ed_dom _ _ _ _ _ E1). by apply dir_present.
Qed.

Lemma renamed_resolves t1 e : t1 = add_child q b h (remove_child p a t) →
  goto t1 r (ds ++ [b]) = Some h ∧
  (itype (node t h) ≠ ISymlink → resolve_path (S e) t1 (path_str (ds ++ [b])) = Ok h) ∧
  ((p, a) ≠ (q, b) → resolve_path (S e) t1 (path_str (cs ++ [a])) = Err ENOENT) ∧
  (∀ d c, (d, c) ≠ (p, a) → (d, c) ≠ (q, b) → child t1 d c = child t d c).
Proof using All.
  intros Ht. destruct (rename_edits t1 Ht) as [E1 E2]. set (t0 := remove_child p a t) in *. clearbody t0.
  assert (((p, a) ∉ entries t r cs) ∧ ((p, a) ∉ entries t r ds)) as [P1 P2] by (split; intros ?; apply Hpa, elem_of_app; auto).
  assert (((q, b) ∉ entries t r cs) ∧ ((q, b) ∉ entries t r ds)) as [Q1 Q2] by (split; intros ?; apply Hqb, elem_of_app; auto).
  destruct (goto_frame _ _ _ _ _ cs E1 r P1) as [G1 N1]. destruct (goto_frame _ _ _ _ _ ds E1 r P2) as [G2 N2].
  assert (∀ x, itype (node t1 x) = itype (node t x)) as Ty by (intros x; by rewrite (ed_type _ _ _ _ _ E2), (ed_type _ _ _ _ _ E1)).
  assert (goto t1 r (ds ++ [b]) = Some h) as Hg.
  { eapply goto_edited; [exact E2|by rewrite N2|by rewrite G2|by rewrite (ed_type _ _ _ _ _ E1)|done]. }
  assert (ROOT t1 = Some r) as Hr1 by (by rewrite (ed_root _ _ _ _ _ E2), (ed_root _ _ _ _ _ E1)).
  split_and!; [done|..].
  - intros Hs. apply (goto_resolve t1 r); [done|apply Forall_app; auto|by rewrite Ty|done].
  - intros Hne. apply (resolve_missing t1 cs a r p); [done..| |by rewrite Ty|].
    + destruct (goto_frame _ _ _ _ _ cs E2 r) as [-> _]; [by rewrite N1|]. by rewrite G1.
    + rewrite (ed_else _ _ _ _ _ E2) by done. apply E1.
  - intros d c H1 H2. by rewrite (ed_else _ _ _ _ _ E2), (ed_else _ _ _ _ _ E1).
Qed.
End Renaming.

(** ** Theorems *)

(** C29. A lookup ends: when symbolic links are ranked so that a link only meets
    links of smaller rank on the way to its target, [n] the bound of the ranks,
    [resolve_path] returns a node or an errno for every path within [n + 1]
    nested activations. *)
Theorem resolve_terminates t rank n r path : ROOT t = Some r → ranked t rank → (∀ h, is_symlink t h → (rank h < n)%nat) →
  resolve_path (S n) t path ≠ Panic.
Proof. intros Hr Hk Hn. apply (resolve_no_panic t rank r); [done..|]. intros h [Hs _]. auto. Qed.

(** A tree with a link: the boot tree and [/proc/self/exe]. *)
Definition exe_link : Inode := set_itype ISymlink (set_data (bytes_of "/usr/bin/init") (new_file 0x1FF)).
Definition demo_tree : Fs :=
  ((init ;;; let! self := put_new 2 "self" (new_dir 0x16D) in put_new self "exe" exe_link) empty_fs).2.

Lemma child_check (P : Z → list Z → Z → Prop) t :
  map_Forall (λ d i, map_Forall (λ c h, P d c h) (children i)) (inodes t) → ∀ d c h, child t d c = Some h → P d c h.
Proof.
  intros H d c h. unfold child, node. destruct (inodes t !! d) as [i|] eqn:E; [|done]. cbn. intros Hc.
  by apply (H d i E c h).
Qed.

Lemma demo_no_link_met : ∀ d c h, child demo_tree d c = Some h →
  itype (node demo_tree h) = ISymlink → (h = 17 ∧ c = bytes_of "exe").
Proof.
  apply (child_check (λ _ c h, itype (node demo_tree h) = ISymlink → (h = 17 ∧ c = bytes_of "exe"))).
  refine (bool_decide_unpack _ _). vm_compute. exact I.
Qed.

Lemma resolve_terminates_witness : resolve_path 2 demo_tree (bytes_of "/proc/self/exe") = Err ENOENT ∧
  resolve_path 2 demo_tree (bytes_of "/proc/self/exe") ≠ Panic.
Proof.
  split; [vm_compute; reflexivity|]. apply (resolve_terminates demo_tree (λ _, 0%nat) 1 0).
  - vm_compute. reflexivity.
  - intros h h' Hs [Hs' (c & dir & Hc & Hch)]. destruct (demo_no_link_met _ _ _ Hch Hs') as [-> ->]. exfalso.
    assert (h = 17) as ->; [|apply (bool_decide_unpack (bytes_of "exe" ∉ comps (target demo_tree 17))); [vm_compute; exact I|exact Hc]].
    revert Hs. unfold is_symlink, node. destruct (inodes demo_tree !! h) as [i|] eqn:E; [|done]. cbn. intros Hs.
    assert (map_Forall (λ h i, itype i = ISymlink → h = 17) (inodes demo_tree)) as Hm
      by (refine (bool_decide_unpack _ _); vm_compute; exact I).
    exact (Hm h i E Hs).
  - intros. lia.
Defined.

Lemma path_of_inode_spec t r rk target : ROOT t = Some r → names_ok t → acyclic t rk →
  ∃ n, ∀ fuel, (n ≤ fuel)%nat → ∃ o, path_of_inode fuel target t = (Ok o, t) ∧
    match o with
    | Some p => (∃ cs, Forall good_name cs ∧ p = path_str cs ∧ goto t r cs = Some target) ∧
                (itype (node t target) ≠ ISymlink → ∀ depth, resolve_path (S depth) t p = Ok target)
    | None => ∀ cs, goto t r cs ≠ Some target
    end.
Proof.
  intros Hr Hn Ha. destruct (search_terminates t target rk r [slash] Ha) as [n Hf]. exists n. intros fuel Hle.
  unfold path_of_inode, root. kstep. rewrite Hr. kstep. destruct (Z.eqb_spec r target) as [<-|Hne].
  - exists (Some [slash]). split; [done|]. split; [by exists []|]. intros Hs depth. by apply (goto_resolve t r []).
  - kstep. destruct (Hf fuel Hle) as [o Eo]. rewrite Eo. exists o. split; [done|]. destruct o as [p|].
    + destruct (search_sound t r target fuel Hn [(r, [slash])] p) as (cs & Hg & Hgo & Hp); [|done|].
      { constructor; [|done]. by exists []. }
      cbn in Hgo, Hp. subst p. split; [by exists cs|]. intros Hs depth. by apply (goto_resolve t r).
    + intros cs. apply (search_complete t target fuel _ Eo r [slash]). left.
Qed.

(** C20. [path_of_inode] is the inverse of [resolve_path]: on a tree whose names
    are ordinary and whose directories do not contain themselves, the search ends
    (some number of rounds is enough); a path it returns names the inode and
    resolves to it, unless it is a link; when it returns none, no sequence of
    names leads to the inode. *)
Theorem path_of_inode_resolves t r rk target : ROOT t = Some r → names_ok t → acyclic t rk →
  ∃ n, ∀ fuel, (n ≤ fuel)%nat → ∃ o, path_of_inode fuel target t = (Ok o, t) ∧
    match o with
    | Some p => (∃ cs, Forall good_name cs ∧ p = path_str cs ∧ goto t r cs = Some target) ∧
                (itype (node t target) ≠ ISymlink → ∀ depth, resolve_path (S depth) t p = Ok target)
    | None => ∀ cs, goto t r cs ≠ Some target
    end.
Proof. apply path_of_inode_spec. Qed.

Lemma demo_names_ok : names_ok demo_tree.
Proof. refine (child_check (λ _ c _, good_name c) demo_tree _). refine (bool_decide_unpack _ _). vm_compute. exact I. Qed.

(** The handles of the demo tree grow along its entries. *)
Lemma demo_acyclic : acyclic demo_tree (λ h, Z.to_nat (20 - h)).
Proof.
  intros d c h _. revert d c h. refine (child_check (λ d _ h, (Z.to_nat (20 - h) < Z.to_nat (20 - d))%nat) demo_tree _).
  refine (bool_decide_unpack _ _). vm_compute. exact I.
Qed.

Lemma path_of_inode_resolves_witness : ∃ fuel, path_of_inode fuel 13 demo_tree = (Ok (Some (bytes_of "/usr/bin")), demo_tree).
Proof.
  destruct (path_of_inode_resolves demo_tree 0 _ 13 ltac:(vm_compute; reflexivity) demo_names_ok demo_acyclic) as [n Hn].
  exists (40 + n)%nat. destruct (Hn (40 + n)%nat ltac:(lia)) as (o & E & _).
  assert (path_of_inode (40 + n) 13 demo_tree = (Ok (Some (bytes_of "/usr/bin")), demo_tree)) as Ek by (vm_compute; reflexivity).
  rewrite E in Ek. rewrite E. exact Ek.
Defined.

(** [mkdir] of a new ordinary name in a directory succeeds: the path then
    resolves to a fresh empty directory with the requested mode, every path that
    resolved before still resolves to the same node, at every depth, and no handle
    dangles. *)
Theorem mkdir_creates t depth path mode parent name p : closed t → rsplit_path path = (parent, name) →
  resolve_path (S depth) t parent = Ok p → itype (node t p) = IDirectory → skipped name = false → child t p name = None →
  ∃ t', mkdir (S depth) path mode t = (Ok 0, t') ∧
    resolve_path (S depth) t' path = Ok (NEXT_INODE t) ∧ node t' (NEXT_INODE t) = new_dir mode ∧
    (inodes t !! NEXT_INODE t = None) ∧
    (∀ d q h, resolve_path d t q = Ok h → resolve_path d t' q = Ok h) ∧ closed t'.
Proof.
  intros Hc Hs Hp Hd Hk Hn. exists (with_new (new_dir mode) p name t).
  destruct (with_new_spec (new_dir mode) p name t Hc (dir_present _ _ Hd) Hn eq_refl) as (Hg & Hc' & Hch & Hnew).
  split_and!; [|rewrite resolve_split, Hs; cbn [fst snd]|done| |by intros d; apply resolve_grows|done].
  - unfold mkdir. rewrite Hs. rewrite (bind_ok _ _ _ p t) by (unfold resolve; by rewrite Hp). kstep. by rewrite Hn.
  - rewrite (resolve_grows _ _ _ Hc Hg _ _ Hp). pose proof (rsplit_path_name path) as Hsl. rewrite Hs in Hsl. cbn in Hsl.
    rewrite comps_name, Hk by done. cbn [walk]. rewrite Hk.
    destruct (gr_node _ _ Hg _ (dir_present _ _ Hd)) as [-> _]. rewrite bool_decide_eq_true_2 by done. cbn [negb].
    rewrite Hch, Hnew, bool_decide_eq_false_2 by done. done.
  - destruct (inodes t !! NEXT_INODE t) eqn:E; [|done]. pose proof (cl_next _ Hc (NEXT_INODE t)) as Hx. rewrite E in Hx.
    specialize (Hx ltac:(eauto)). lia.
Qed.

Lemma demo_closed : closed demo_tree.
Proof.
  split.
  - intros r Hr. assert (r = 0) as -> by (vm_compute in Hr; congruence). refine (bool_decide_unpack _ _). vm_compute. exact I.
  - refine (child_check (λ _ _ h, is_Some (inodes demo_tree !! h)) demo_tree _). refine (bool_decide_unpack _ _). vm_compute. exact I.
  - intros h [i Hi]. assert (map_Forall (λ h _, h < NEXT_INODE demo_tree) (inodes demo_tree)) as Hm
      by (refine (bool_decide_unpack _ _); vm_compute; exact I). exact (Hm h i Hi).
Qed.

Lemma mkdir_creates_witness : ∃ t', mkdir 1 (bytes_of "/tmp/work/") 0x1C0 demo_tree = (Ok 0, t') ∧
  resolve_path 1 t' (bytes_of "/tmp/work/") = Ok 18.
Proof.
  destruct (mkdir_creates demo_tree 0 (bytes_of "/tmp/work/") 0x1C0 (bytes_of "/tmp") (bytes_of "work") 3 demo_closed)
    as (t' & H & H' & _); [vm_compute; reflexivity..|]. exists t'. split; [exact H|exact H'].
Defined.

(** C7. A rename moves exactly one entry: with the parents reached through
    directories and no walk to a parent reading one of the two entries that
    change, [rename] succeeds, the new path resolves to the moved inode (unless
    it is a link), the old path no longer exists when the two differ, and every
    other directory entry is unchanged. *)
Theorem rename_moves t r cs ds a b p q h flags depth : ROOT t = Some r →
  Forall good_name cs → Forall good_name ds → good_name a → good_name b →
  goto t r cs = Some p → itype (node t p) = IDirectory → goto t r ds = Some q → itype (node t q) = IDirectory →
  child t p a = Some h → (p, a) ∉ entries t r cs ++ entries t r ds → (q, b) ∉ entries t r cs ++ entries t r ds →
  flags = 0 ∨ flags = RENAME_NOREPLACE ∧ child t q b = None →
  ∃ t', rename (S depth) (path_str (cs ++ [a])) (path_str (ds ++ [b])) flags t = (Ok 0, t') ∧
    (itype (node t h) ≠ ISymlink → resolve_path (S depth) t' (path_str (ds ++ [b])) = Ok h) ∧
    ((p, a) ≠ (q, b) → resolve_path (S depth) t' (path_str (cs ++ [a])) = Err ENOENT) ∧
    (∀ d c, (d, c) ≠ (p, a) → (d, c) ≠ (q, b) → child t' d c = child t d c).
Proof.
  intros Hr Hcs Hds Ha Hb Hp Hpd Hq Hqd Hh Hpa Hqb Hf. exists (add_child q b h (remove_child p a t)).
  destruct (renamed_resolves t r cs ds a b p q h Hr Hcs Hds Ha Hb Hp Hpd Hq Hqd Hh Hpa Hqb _ depth eq_refl) as (_ & H1 & H2 & H3).
  split; [|done]. destruct (rename_edits t r cs ds a b p q h Hr Hcs Hds Ha Hb Hp Hpd Hq Hqd Hh Hpa Hqb _ eq_refl) as [E1 _].
  rewrite (rename_start t r cs ds a b p q h) by (done || by destruct Hf as [->|[-> _]]).
  assert (has flags RENAME_NOREPLACE && bool_decide (is_Some (child t q b)) = false) as Ef.
  { destruct Hf as [->|[-> ->]]; [done|]. apply andb_false_r. }
  destruct (Z.eqb_spec p q) as [<-|Hne]; [by rewrite Ef|]. rewrite (ed_else _ _ _ _ _ E1) by congruence. by rewrite Ef.
Qed.

Lemma rename_moves_witness : ∃ t', rename 1 (bytes_of "/usr/share") (bytes_of "/tmp/docs") 1 demo_tree = (Ok 0, t') ∧
  resolve_path 1 t' (bytes_of "/tmp/docs") = Ok 15 ∧ resolve_path 1 t' (bytes_of "/usr/share") = Err ENOENT.
Proof.
  destruct (rename_moves demo_tree 0 [bytes_of "usr"] [bytes_of "tmp"] (bytes_of "share") (bytes_of "docs") 7 3 15 1 0)
    as (t' & H & H1 & H2 & _);
    [vm_compute; reflexivity|refine (bool_decide_unpack _ _); vm_compute; exact I..|].
  exists t'. split; [exact H|]. split; [apply H1; vm_compute; discriminate|apply H2; discriminate].
Defined.

(** Across directories, [RENAME_NOREPLACE] is checked after the source entry
    is gone: when the target exists the call fails with EEXIST, and the file can
    no longer be found under its old name. *)
Theorem rename_noreplace_loses t r cs ds a b p q h x depth : ROOT t = Some r →
  Forall good_name cs → Forall good_name ds → good_name a → good_name b →
  goto t r cs = Some p → itype (node t p) = IDirectory → goto t r ds = Some q → itype (node t q) = IDirectory →
  child t p a = Some h → p ≠ q → child t q b = Some x → (p, a) ∉ entries t r cs →
  ∃ t', rename (S depth) (path_str (cs ++ [a])) (path_str (ds ++ [b])) RENAME_NOREPLACE t = (Err EEXIST, t') ∧
    resolve_path (S depth) t' (path_str (cs ++ [a])) = Err ENOENT.
Proof.
  intros Hr Hcs Hds Ha Hb Hp Hpd Hq Hqd Hh Hne Hx Hpa. exists (remove_child p a t).
  assert (edited t (remove_child p a t) p a None) as E1 by (by apply remove_child_edited, dir_present). split.
  - rewrite (rename_start t r cs ds a b p q h) by done. rewrite (proj2 (Z.eqb_neq p q)) by done.
    rewrite (ed_else _ _ _ _ _ E1) by congruence. rewrite Hx. done.
  - destruct (goto_frame _ _ _ _ _ cs E1 r Hpa) as [G _].
    apply (resolve_missing _ cs a r p); [by rewrite (ed_root _ _ _ _ _ E1)|done..|by rewrite G|by rewrite (ed_type _ _ _ _ _ E1)|apply E1].
Qed.

Lemma rename_noreplace_loses_witness :
  ∃ t', rename 1 (bytes_of "/usr/share") (bytes_of "/proc/self") 1 demo_tree = (Err EEXIST, t') ∧
    resolve_path 1 t' (bytes_of "/usr/share") = Err ENOENT.
Proof.
  destruct (rename_noreplace_loses demo_tree 0 [bytes_of "usr"] [bytes_of "proc"] (bytes_of "share") (bytes_of "self") 7 2 15 16 0)
    as (t' & H & H'); [vm_compute; reflexivity|refine (bool_decide_unpack _ _); vm_compute; exact I..|].
  exists t'. split; [exact H|exact H'].
Defined.

Lemma link_to_itself t r cs c d h : ROOT t = Some r → Forall good_name cs → good_name c → goto t r cs = Some d →
  itype (node t d) = IDirectory → child t d c = Some h → is_symlink t h → target t h = path_str (cs ++ [c]) →
  ∀ depth, resolve_path depth t (path_str (cs ++ [c])) = Panic.
Proof.
  intros Hr Hg Hc Hd Ht Hh Hs Htgt. induction depth as [|depth IH]; [done|].
  rewrite resolve_comps, Hr, comps_path_str by (apply Forall_app; auto).
  rewrite walk_app, (goto_walk _ _ _ d) by (done || congruence). cbn [walk]. destruct Hc as [-> _].
  rewrite bool_decide_eq_true_2 by done. cbn [negb]. rewrite Hh, bool_decide_eq_true_2 by done.
  unfold target in Htgt. by rewrite Htgt, IH.
Qed.

(** Nothing bounds the links that [resolve_path] follows: after a symbolic
    link has been renamed to the path it points to, which [rename] accepts, every
    lookup of that path overflows the kernel stack, however deep it is. *)
Theorem rename_makes_loop t r cs ds a b p q h depth : ROOT t = Some r →
  Forall good_name cs → Forall good_name ds → good_name a → good_name b →
  goto t r cs = Some p → itype (node t p) = IDirectory → goto t r ds = Some q → itype (node t q) = IDirectory →
  child t p a = Some h → (p, a) ∉ entries t r cs ++ entries t r ds → (q, b) ∉ entries t r cs ++ entries t r ds →
  is_symlink t h → target t h = path_str (ds ++ [b]) →
  ∃ t', rename (S depth) (path_str (cs ++ [a])) (path_str (ds ++ [b])) 0 t = (Ok 0, t') ∧
    ∀ d, resolve_path d t' (path_str (ds ++ [b])) = Panic.
Proof.
  intros Hr Hcs Hds Ha Hb Hp Hpd Hq Hqd Hh Hpa Hqb Hs Htg. set (t1 := add_child q b h (remove_child p a t)). exists t1.
  split; [rewrite (rename_start t r cs ds a b p q h) by done; by destruct (Z.eqb_spec p q) as [<-|]|].
  destruct (rename_edits t r cs ds a b p q h Hr Hcs Hds Ha Hb Hp Hpd Hq Hqd Hh Hpa Hqb t1 eq_refl) as [E1 E2].
  rewrite not_elem_of_app in Hpa, Hqb. destruct (goto_frame _ _ _ _ _ ds E1 r (proj2 Hpa)) as [G1 N1].
  destruct (goto_frame _ _ _ _ _ ds E2 r) as [G2 _]; [rewrite N1; apply Hqb|].
  apply (link_to_itself t1 r ds b q h); [|done|done|by rewrite G2, G1| |apply (ed_here _ _ _ _ _ E2)|..].
  - by rewrite (ed_root _ _ _ _ _ E2), (ed_root _ _ _ _ _ E1).
  - by rewrite (ed_type _ _ _ _ _ E2), (ed_type _ _ _ _ _ E1).
  - unfold is_symlink. by rewrite (ed_type _ _ _ _ _ E2), (ed_type _ _ _ _ _ E1).
  - unfold target. by rewrite (ed_data _ _ _ _ _ E2), (ed_data _ _ _ _ _ E1).
Qed.

(** [rename("/proc/self/exe", "/usr/bin/init")]. *)
Lemma rename_makes_loop_witness :
  ∃ t', rename 1 (bytes_of "/proc/self/exe") (bytes_of "/usr/bin/init") 0 demo_tree = (Ok 0, t') ∧
    ∀ d, resolve_path d t' (bytes_of "/usr/bin/init") = Panic.
Proof.
  destruct (rename_makes_loop demo_tree 0 [bytes_of "proc"; bytes_of "self"] [bytes_of "usr"; bytes_of "bin"] (bytes_of "exe")
    (bytes_of "init") 16 13 17 0) as (t' & H & H');
    [vm_compute; reflexivity|refine (bool_decide_unpack _ _); vm_compute; exact I..|].
  exists t'. split; [exact H|exact H'].
Defined.

(** [mkdir("/")] does not fail: it adds a nameless entry to the root, and names
    are no longer ordinary. *)
Lemma mkdir_root t depth mode r : ROOT t = Some r → is_Some (inodes t !! r) → r ≠ NEXT_INODE t → child t r [] = None →
  ∃ t', mkdir (S depth) [slash] mode t = (Ok 0, t') ∧ ¬ names_ok t'.
Proof.
  intros Hr Hi Hne Hn. exists (with_new (new_dir mode) r [] t). split.
  - unfold mkdir. change (rsplit_path [slash]) with ([slash], @nil Z). cbv beta iota. rewrite (bind_ok _ _ _ r t).
    + kstep. by rewrite Hn.
    + unfold resolve. by rewrite resolve_comps, Hr.
  - intros Hk. assert (edited (alloc_inode (new_dir mode) t).2 (with_new (new_dir mode) r [] t) r [] (Some (NEXT_INODE t))) as E.
    { apply add_child_edited. cbn. by rewrite lookup_insert_ne by congruence. }
    destruct (Hk r [] (NEXT_INODE t)); [apply E|done].
Qed.
