(* ===== verification/Pmm.v ===== *)
(** * Physical memory manager ([mm/pmm.rs], [find_contiguous_region] of [mm/mod.rs])

    A bitmap with one bit per 4 KiB page (set = in use) and a counter of free
    pages.  [pmm_inv] ties the counter to the bitmap.  The operations run in
    the kernel monad: an index out of range or an arithmetic overflow is
    [Panic]. *)

From S2P Require Import Prelude.

Definition PAGE_SIZE : Z := 4096.
Definition MAX_PAGES : Z := 1024 * 1024.
Definition FULL : Z := 0xFFFFFFFFFFFFFFFF.

Record BitmapAllocator := mkPmm {
  bitmap : list Z;
  total_pages : Z;
  free_pages : Z
}.

Definition new : BitmapAllocator :=
  {| bitmap := replicate (Z.to_nat (MAX_PAGES / 64)) FULL;
     total_pages := 0; free_pages := 0 |}.

Definition set_word (idx w : Z) (s : BitmapAllocator) : BitmapAllocator :=
  {| bitmap := <[Z.to_nat idx := w]> (bitmap s);
     total_pages := total_pages s; free_pages := free_pages s |}.

Definition set_free (n : Z) (s : BitmapAllocator) : BitmapAllocator :=
  {| bitmap := bitmap s; total_pages := total_pages s; free_pages := n |}.

Definition set_total (n : Z) (s : BitmapAllocator) : BitmapAllocator :=
  {| bitmap := bitmap s; total_pages := n; free_pages := free_pages s |}.

(** [self.bitmap[idx]] *)
Definition word_at (idx : Z) : M BitmapAllocator Z :=
  let! s := get in or_panic (bitmap s !! Z.to_nat idx).

Definition mark_free (page : Z) : M BitmapAllocator () :=
  let idx := page / 64 in
  let bit := page mod 64 in
  let! w := word_at idx in
  modify (set_word idx (Z.land w (not64 (Z.shiftl 1 bit)))) ;;;
  let! s := get in
  let! n := or_panic (add64 (free_pages s) 1) in
  modify (set_free n).

(** [u64::trailing_zeros] *)
Definition trailing_zeros (x : Z) : Z :=
  match filter (λ i, Z.testbit x i = true) (seqZ 0 64) with
  | i :: _ => i
  | [] => 64
  end.

(** The [for (i, entry) in bitmap.iter_mut().enumerate()] scan: the updated
    bitmap and the page number of the first clear bit. *)
Fixpoint alloc_scan (i : Z) (l : list Z) : option (list Z * Z) :=
  match l with
  | [] => None
  | w :: l' =>
      if bool_decide (w = FULL) then
        match alloc_scan (i + 1) l' with
        | Some (l'', p) => Some (w :: l'', p)
        | None => None
        end
      else
        let bit := trailing_zeros (not64 w) in
        Some (Z.lor w (Z.shiftl 1 bit) :: l', i * 64 + bit)
  end.

Definition alloc_page : M BitmapAllocator (option Z) :=
  let! s := get in
  match alloc_scan 0 (bitmap s) with
  | None => ret None
  | Some (bm, p) =>
      let! n := or_panic (sub64 (free_pages s) 1) in
      put {| bitmap := bm; total_pages := total_pages s; free_pages := n |} ;;;
      ret (Some (p * PAGE_SIZE))
  end.

Definition free_page (phys_addr : Z) : M BitmapAllocator () :=
  let page := phys_addr / PAGE_SIZE in
  let idx := page / 64 in
  let bit := page mod 64 in
  let! w := word_at idx in
  modify (set_word idx (Z.land w (not64 (Z.shiftl 1 bit)))) ;;;
  let! s := get in
  let! n := or_panic (add64 (free_pages s) 1) in
  modify (set_free n).

Definition mark_used (phys_addr : Z) : M BitmapAllocator () :=
  let page := phys_addr / PAGE_SIZE in
  if bool_decide (page < MAX_PAGES) then
    let idx := page / 64 in
    let bit := page mod 64 in
    let! w := word_at idx in
    if Z.land w (Z.shiftl 1 bit) =? 0 then
      modify (set_word idx (Z.lor w (Z.shiftl 1 bit))) ;;;
      let! s := get in
      when (bool_decide (0 < free_pages s)) (modify (set_free (free_pages s - 1)))
    else ret tt
  else ret tt.

(** ** Boot: the memory map *)

(** [limine::memmap::Entry] *)
Record Entry := mkEntry { type_ : Z; base : Z; length_ : Z }.

Section Boot.
(** [limine::memmap::MEMMAP_USABLE], a constant of the bootloader crate. *)
Variable MEMMAP_USABLE : Z.

Definition MAX_PHYS : Z := 2 * 1024 * 1024 * 1024.

(** The [start_page .. start_page + page_count] of one entry; [None] is the
    overflow panic of [base + len], [Some None] the [continue]. *)
Definition entry_pages (e : Entry) : option (list Z) :=
  match add64 (base e) (length_ e) with
  | None => None
  | Some end_ =>
      if bool_decide (MAX_PHYS < end_) && bool_decide (MAX_PHYS ≤ base e) then Some []
      else
        let usable_end := Z.min end_ MAX_PHYS in
        let start_page := base e / PAGE_SIZE in
        let page_count := (usable_end - base e) / PAGE_SIZE in
        Some (seqZ start_page page_count)
  end.

(** The local [total] starts at 0 and is stored in [total_pages] after the
    loop; here [total_pages] itself is reset and counts. *)
Definition init_page (p : Z) : M BitmapAllocator () :=
  if bool_decide (p < MAX_PAGES) then
    mark_free p ;;; modify (λ s, set_total (total_pages s + 1) s)
  else ret tt.

Definition init_entry (e : Entry) : M BitmapAllocator () :=
  if type_ e =? MEMMAP_USABLE then
    let! ps := or_panic (entry_pages e) in for_each ps init_page
  else ret tt.

Definition init (entries : list Entry) : M BitmapAllocator () :=
  modify (set_total 0) ;;; for_each entries init_entry.

(** [find_contiguous_region] of [mm/mod.rs]; [None] inside is the panic. *)
Definition region_candidate (e : Entry) : option (Z * Z) :=
  match add64 (base e) (length_ e) with
  | None => None
  | Some end_ =>
      let safe_base := Z.max (base e) 0x44000000 in
      let safe_len := if bool_decide (end_ ≤ safe_base) then 0 else end_ - safe_base in
      match add64 safe_base 0x1FFFFF with
      | None => None
      | Some up =>
          let aligned_base := Z.land up (not64 0x1FFFFF) in
          let aligned_len := if bool_decide (safe_base + safe_len ≤ aligned_base) then 0
                             else safe_base + safe_len - aligned_base in
          Some (aligned_base, aligned_len)
      end
  end.

Fixpoint find_contiguous_region (size : Z) (entries : list Entry) : outcome (option Z) :=
  match entries with
  | [] => Ok None
  | e :: es =>
      if type_ e =? MEMMAP_USABLE then
        match region_candidate e with
        | None => Panic
        | Some (aligned_base, aligned_len) =>
            if bool_decide (size ≤ aligned_len) then Ok (Some aligned_base)
            else find_contiguous_region size es
        end
      else find_contiguous_region size es
  end.

Definition KERNEL_HEAP_SIZE : Z := 32 * 1024 * 1024.

(** [mm::init]: the page allocator, the kernel-heap region ([expect] panics
    when there is none), and the pages of that region reserved.  Returns the
    physical address handed to the heap allocator. *)
Definition mm_init (entries : list Entry) : M BitmapAllocator Z :=
  init entries ;;;
  match find_contiguous_region KERNEL_HEAP_SIZE entries with
  | Ok (Some heap_phys) =>
      let num_pages := KERNEL_HEAP_SIZE / 4096 in
      for_each (seqZ 0 num_pages) (λ i, mark_used (heap_phys + i * 4096)) ;;;
      ret heap_phys
  | _ => panic
  end.
End Boot.

(** ** The invariant *)

(** The page's bit in the bitmap. *)
Definition page_used (s : BitmapAllocator) (p : Z) : bool :=
  match bitmap s !! Z.to_nat (p / 64) with
  | Some w => Z.testbit w (p mod 64)
  | None => true
  end.

Definition zeros (w : Z) : Z := Z.of_nat (length (filter (λ i, Z.testbit w i = false) (seqZ 0 64))).
Definition count_free (l : list Z) : Z := foldr (λ w acc, zeros w + acc) 0 l.

Lemma count_free_cons w l : count_free (w :: l) = zeros w + count_free l.
Proof. done. Qed.

Definition page_ok (p : Z) : Prop := 0 ≤ p < MAX_PAGES.

(** The bitmap has its full size, its words are 64-bit words and the counter
    is the number of clear bits. *)
Record pmm_inv (s : BitmapAllocator) : Prop := {
  inv_length : Z.of_nat (length (bitmap s)) = MAX_PAGES / 64;
  inv_words : Forall u64_ok (bitmap s);
  inv_count : free_pages s = count_free (bitmap s)
}.

(** *** Counting clear bits *)

Lemma filter_drop_one {A} (P Q : A → Prop) `{!∀ x, Decision (P x), !∀ x, Decision (Q x)}
    (l : list A) b :
  NoDup l → b ∈ l → P b → (∀ x, Q x ↔ P x ∧ x ≠ b) →
  length (filter P l) = S (length (filter Q l)).
Proof.
  intros Hnd Hin HPb HQ. induction Hnd as [|x l Hx Hnd IH]; [by apply not_elem_of_nil in Hin|].
  apply elem_of_cons in Hin as [->|Hin].
  - rewrite filter_cons_True, filter_cons_False by (rewrite ?HQ; tauto). cbn. do 2 f_equal.
    apply list_filter_ext_in. intros y Hy.
    rewrite HQ. split; [intros; split; [done|]; intros ->; done|naive_solver].
  - assert (x ≠ b) by (intros ->; done).
    destruct (decide (P x)).
    + rewrite !filter_cons_True by (rewrite ?HQ; tauto). cbn. by rewrite IH.
    + rewrite !filter_cons_False by (rewrite ?HQ; tauto). auto.
Qed.

Lemma zeros_set w w' b : 0 ≤ b < 64 → Z.testbit w b = false →
  (∀ i, 0 ≤ i < 64 → Z.testbit w' i = bool_decide (i = b) || Z.testbit w i) →
  zeros w = zeros w' + 1.
Proof.
  intros Hb Hw Hw'. unfold zeros.
  rewrite (filter_drop_one _ (λ i, Z.testbit w i = false ∧ i ≠ b) _ b);
    [|apply NoDup_seqZ|by apply elem_of_seqZ|done|done].
  rewrite (list_filter_ext_in (λ i, Z.testbit w' i = false) (λ i, Z.testbit w i = false ∧ i ≠ b)); [lia|].
  intros i Hi%elem_of_seqZ. rewrite Hw' by lia.
  rewrite orb_false_iff, bool_decide_eq_false. tauto.
Qed.

Lemma zeros_nonneg w : 0 ≤ zeros w ≤ 64.
Proof. unfold zeros. pose proof (length_filter (λ i, Z.testbit w i = false) (seqZ 0 64)) as H.
  rewrite length_seqZ in H. lia. Qed.

Lemma count_free_app l1 l2 : count_free (l1 ++ l2) = count_free l1 + count_free l2.
Proof. induction l1; [done|]. rewrite <- app_comm_cons, !count_free_cons. lia. Qed.

Lemma count_free_bound l : 0 ≤ count_free l ≤ 64 * Z.of_nat (length l).
Proof.
  induction l as [|w l IH]; [done|]. rewrite count_free_cons. cbn [length].
  pose proof (zeros_nonneg w). lia.
Qed.

Lemma count_free_insert l i w w' : l !! i = Some w →
  count_free (<[i := w']> l) = count_free l - zeros w + zeros w'.
Proof.
  intros Hi. pose proof (take_drop_middle _ _ _ Hi) as E.
  rewrite insert_take_drop by eauto using lookup_lt_Some.
  rewrite <- E at 3. rewrite !count_free_app, !count_free_cons. lia.
Qed.

Lemma zeros_full : zeros FULL = 0.
Proof. vm_compute. done. Qed.

Lemma count_free_full n : count_free (replicate n FULL) = 0.
Proof. induction n as [|n IH]; [done|]. cbn [replicate]. by rewrite count_free_cons, zeros_full, IH. Qed.

Lemma inv_lookup s p : pmm_inv s → page_ok p →
  ∃ w, bitmap s !! Z.to_nat (p / 64) = Some w ∧ u64_ok w.
Proof.
  intros [Hl Hw _] [? ?]. unfold MAX_PAGES in *.
  destruct (lookup_lt_is_Some_2 (bitmap s) (Z.to_nat (p / 64))) as [w E]; [lia|].
  exists w. split; [done|]. by eapply Forall_lookup_1 in Hw.
Qed.

(** Writing one word changes the bits of its 64 pages only. *)
Lemma page_used_set_word s p w w' q : 0 ≤ p → 0 ≤ q →
  bitmap s !! Z.to_nat (p / 64) = Some w →
  page_used (set_word (p / 64) w' s) q =
    if bool_decide (q / 64 = p / 64) then Z.testbit w' (q mod 64) else page_used s q.
Proof.
  intros Hp Hq E. unfold page_used. cbn. case_bool_decide as Hd.
  - rewrite Hd, list_lookup_insert_eq; [done|]. by eapply lookup_lt_Some.
  - rewrite list_lookup_insert_ne; [done|]. lia.
Qed.

Lemma page_index_inj p q : 0 ≤ p → 0 ≤ q → q / 64 = p / 64 → q mod 64 = p mod 64 ↔ q = p.
Proof. intros. split; [|naive_solver]. lia. Qed.

Lemma set_word_inv s p w w' :
  pmm_inv s → page_ok p → bitmap s !! Z.to_nat (p / 64) = Some w → u64_ok w' →
  pmm_inv (set_free (free_pages s - zeros w + zeros w') (set_word (p / 64) w' s)).
Proof.
  intros [Hl Hw Hc] Hp E Hw'. constructor; cbn.
  - by rewrite length_insert.
  - by apply Forall_insert.
  - rewrite (count_free_insert _ _ _ _ E). lia.
Qed.

Lemma free_pages_bound s : pmm_inv s → 0 ≤ free_pages s ≤ MAX_PAGES.
Proof. intros [Hl _ ->]. pose proof (count_free_bound (bitmap s)). unfold MAX_PAGES in *. lia. Qed.

Lemma FULL_bits i : Z.testbit FULL i = bool_decide (0 ≤ i < 64).
Proof.
  change FULL with (not64 0). rewrite testbit_not64 by (unfold u64_ok; lia).
  by rewrite Z.testbit_0_l, andb_true_r.
Qed.

Lemma new_inv : pmm_inv new.
Proof.
  constructor; cbn -[replicate].
  - rewrite length_replicate. unfold MAX_PAGES. lia.
  - apply Forall_replicate. unfold u64_ok, FULL. lia.
  - by rewrite count_free_full.
Qed.

Lemma new_used p : page_used new p = true.
Proof.
  unfold page_used. cbn -[replicate]. destruct (_ !! _) as [w|] eqn:E; [|done].
  apply lookup_replicate in E as [-> _]. rewrite FULL_bits. by apply bool_decide_eq_true_2; lia.
Qed.

(** *** One page set or cleared *)

(** [s'] is [s] with the bit of page [p] set to [b] and the counter adjusted. *)
Record flips (s : BitmapAllocator) (p : Z) (b : bool) (s' : BitmapAllocator) : Prop := {
  flips_inv : pmm_inv s';
  flips_total : total_pages s' = total_pages s;
  flips_free : free_pages s' = free_pages s + (if b then -1 else 1);
  flips_used q : 0 ≤ q → page_used s' q = if bool_decide (q = p) then b else page_used s q
}.

Lemma flip_word s p b w w' :
  pmm_inv s → page_ok p → bitmap s !! Z.to_nat (p / 64) = Some w → u64_ok w' →
  Z.testbit w (p mod 64) = negb b →
  (∀ i, Z.testbit w' i = if bool_decide (i = p mod 64) then b else Z.testbit w i) →
  flips s p b (set_free (free_pages s + (if b then -1 else 1)) (set_word (p / 64) w' s)).
Proof.
  intros Hinv Hp E Hw' Hb Hbits. assert (0 ≤ p mod 64 < 64) by lia. unfold page_ok in Hp.
  assert (zeros w' - zeros w = if b then -1 else 1) as Hz.
  { destruct b; cbn in Hb.
    - rewrite (zeros_set w w' (p mod 64)); [lia|done|done|].
      intros i Hi. rewrite Hbits. by case_bool_decide.
    - rewrite (zeros_set w' w (p mod 64)); [lia|done| |].
      + rewrite Hbits. by rewrite bool_decide_eq_true_2.
      + intros i Hi. rewrite Hbits. case_bool_decide; by subst. }
  constructor; [|done|done|].
  - replace (free_pages s + _) with (free_pages s - zeros w + zeros w') by lia.
    by apply set_word_inv.
  - intros q Hq. change (page_used (set_free _ ?x)) with (page_used x).
    rewrite (page_used_set_word _ _ w) by (done || lia).
    destruct (decide (q / 64 = p / 64)) as [Hd|Hd].
    + rewrite (bool_decide_eq_true_2 _ Hd), Hbits.
      pose proof (page_index_inj p q ltac:(lia) ltac:(lia) Hd).
      rewrite (bool_decide_ext (q mod 64 = p mod 64) (q = p)) by done.
      case_bool_decide; [done|]. unfold page_used. by rewrite Hd, E.
    + rewrite (bool_decide_eq_false_2 _ Hd), (bool_decide_eq_false_2 (q = p)); naive_solver.
Qed.

Lemma page_used_word s p w : bitmap s !! Z.to_nat (p / 64) = Some w →
  page_used s p = Z.testbit w (p mod 64).
Proof. intros E. unfold page_used. by rewrite E. Qed.

Lemma mark_free_flips s p : pmm_inv s → page_ok p → page_used s p = true →
  ∃ s', mark_free p s = (Ok tt, s') ∧ flips s p false s'.
Proof.
  intros Hinv Hp Hu. destruct (inv_lookup s p Hinv Hp) as (w & E & Hw).
  rewrite (page_used_word _ _ _ E) in Hu. pose proof (free_pages_bound s Hinv).
  eexists. split.
  - unfold mark_free, word_at, or_panic, bind, get, modify, ret. cbn. rewrite E. cbn.
    rewrite add64_small by (unfold MAX_PAGES in *; lia). done.
  - apply (flip_word _ _ false w); try done.
    + apply u64_land_l; [done|]. pose proof (not64_ok _ (u64_shl1 (p mod 64) ltac:(lia))).
      unfold u64_ok in *. lia.
    + intros i. rewrite testbit_clear_bit by (done || lia). by case_bool_decide.
Qed.

(** Clearing a bit that is already clear leaves the bitmap alone, but still
    increments the counter. *)
Lemma mark_free_again s p : pmm_inv s → page_ok p → page_used s p = false →
  mark_free p s = (Ok tt, set_free (free_pages s + 1) s).
Proof.
  intros Hinv Hp Hu. destruct (inv_lookup s p Hinv Hp) as (w & E & Hw).
  rewrite (page_used_word _ _ _ E) in Hu. pose proof (free_pages_bound s Hinv).
  unfold mark_free, word_at, or_panic, bind, get, modify, ret. cbn. rewrite E. cbn.
  rewrite add64_small by (unfold MAX_PAGES in *; lia). f_equal.
  unfold set_free, set_word. cbn. f_equal. apply list_insert_id. rewrite E. f_equal.
  apply u64_bits_inj; [done| |].
  - apply u64_land_l; [done|]. pose proof (not64_ok _ (u64_shl1 (p mod 64) ltac:(lia))).
    unfold u64_ok in *. lia.
  - intros i Hi. rewrite testbit_clear_bit by (done || lia).
    case_bool_decide; [by subst|done].
Qed.

Lemma free_page_mark_free a s : free_page a s = mark_free (a / PAGE_SIZE) s.
Proof. done. Qed.

(** *** Allocation *)

Lemma trailing_zeros_spec x : u64_ok x → x ≠ 0 →
  0 ≤ trailing_zeros x < 64 ∧ Z.testbit x (trailing_zeros x) = true ∧
  ∀ j, 0 ≤ j < trailing_zeros x → Z.testbit x j = false.
Proof.
  intros Hx Hx0. unfold trailing_zeros.
  destruct (filter _ _) as [|i l] eqn:E.
  - exfalso. apply Hx0, u64_bits_inj; [done|unfold u64_ok; lia|].
    intros i Hi. rewrite Z.testbit_0_l. apply not_true_iff_false. intros Ht.
    apply (not_elem_of_nil i). rewrite <- E. apply list_elem_of_filter. by rewrite elem_of_seqZ.
  - apply filter_cons_inv in E as (l1 & l2 & El & Hl1 & Hi & El2).
    assert (seqZ 0 64 !! length l1 = Some i) as Hlk
      by (rewrite El; by apply list_lookup_middle).
    apply lookup_seqZ in Hlk as [Ei Hlt]. split; [lia|]. split; [done|].
    intros j Hj. apply not_true_iff_false. intros Ht.
    assert (l1 !! Z.to_nat j = Some j) as Hlj.
    { rewrite <- (lookup_app_l l1 (i :: l2)) by lia. rewrite <- El.
      rewrite lookup_seqZ_lt by lia. f_equal. lia. }
    eapply Forall_lookup_1 in Hl1; [|exact Hlj]. done.
Qed.

Lemma alloc_scan_None i l : alloc_scan i l = None → Forall (λ w, w = FULL) l.
Proof.
  revert i. induction l as [|w l IH]; intros i; cbn; [done|].
  case_bool_decide; [|done]. destruct (alloc_scan (i + 1) l) as [[]|] eqn:E; [done|].
  intros _. constructor; [done|]. by eapply IH.
Qed.

Lemma alloc_scan_Some i l l' p : alloc_scan i l = Some (l', p) →
  ∃ k w, l !! k = Some w ∧ w ≠ FULL ∧ (∀ j, (j < k)%nat → l !! j = Some FULL) ∧
    p = (i + Z.of_nat k) * 64 + trailing_zeros (not64 w) ∧
    l' = <[k := Z.lor w (Z.shiftl 1 (trailing_zeros (not64 w)))]> l.
Proof.
  revert i l' p. induction l as [|w l IH]; intros i l' p; cbn -[trailing_zeros]; [done|].
  case_bool_decide as Hw.
  - destruct (alloc_scan (i + 1) l) as [[l'' p']|] eqn:E; [|done].
    intros [= <- <-]. apply IH in E as (k & w' & Hk & Hne & Hlow & -> & ->).
    exists (S k), w'. repeat split; [done|done| |lia].
    intros [|j] Hj; [by rewrite <- Hw|]. apply Hlow. lia.
  - intros [= <- <-]. exists O, w. repeat split; [done|lia|].
    by rewrite Z.add_0_r.
Qed.

Lemma word_not_full w : u64_ok w → w ≠ FULL → not64 w ≠ 0.
Proof. unfold u64_ok, not64, u64_max, FULL. lia. Qed.

Lemma zeros_le_count l k w : l !! k = Some w → zeros w ≤ count_free l.
Proof.
  intros Hk. rewrite <- (take_drop_middle _ _ _ Hk), count_free_app, count_free_cons.
  pose proof (count_free_bound (take k l)). pose proof (count_free_bound (drop (S k) l)). lia.
Qed.

Lemma all_full_used s p : Forall (λ w, w = FULL) (bitmap s) → page_used s p = true.
Proof.
  intros Hf. unfold page_used. destruct (_ !! _) as [w|] eqn:E; [|done].
  eapply Forall_lookup_1 in Hf as ->; [|exact E].
  rewrite FULL_bits. apply bool_decide_eq_true_2. lia.
Qed.

(** [alloc_page] finds the lowest free page, or fails with every page in use. *)
Lemma alloc_page_cases s : pmm_inv s →
  (∃ p s', alloc_page s = (Ok (Some (p * PAGE_SIZE)), s') ∧ page_ok p ∧
     page_used s p = false ∧ (∀ q, 0 ≤ q < p → page_used s q = true) ∧ flips s p true s') ∨
  (alloc_page s = (Ok None, s) ∧ (∀ p, page_used s p = true) ∧ free_pages s = 0).
Proof.
  intros Hinv. unfold alloc_page, bind, get.
  destruct (alloc_scan 0 (bitmap s)) as [[bm p]|] eqn:E; [left|right].
  - apply alloc_scan_Some in E as (k & w & Hk & Hne & Hlow & Hp & ->).
    assert (u64_ok w) as Hw by (by eapply Forall_lookup_1; [apply Hinv|]).
    destruct (trailing_zeros_spec (not64 w)) as (Htz & Hbit & Hmin);
      [by apply not64_ok|by apply word_not_full|].
    set (tz := trailing_zeros (not64 w)) in *.
    assert (Z.of_nat k < MAX_PAGES / 64) as Hkl.
    { destruct Hinv as [<- _ _]. apply lookup_lt_Some in Hk. lia. }
    assert (page_ok p) as Hpok by (unfold page_ok, MAX_PAGES in *; lia).
    assert (Z.to_nat (p / 64) = k ∧ p mod 64 = tz) as [Ek Et] by lia.
    rewrite testbit_not64, bool_decide_eq_true_2 in Hbit by (done || lia).
    apply negb_true_iff in Hbit.
    assert (∀ i, Z.testbit (Z.lor w (Z.shiftl 1 tz)) i = bool_decide (i = tz) || Z.testbit w i) as Hset
      by (intros i; apply testbit_set_bit; lia).
    pose proof (zeros_set w _ tz Htz Hbit (λ i _, Hset i)) as Hz.
    pose proof (zeros_nonneg (Z.lor w (Z.shiftl 1 tz))). pose proof (zeros_le_count _ _ _ Hk).
    exists p. eexists. split.
    { rewrite sub64_small by (rewrite (inv_count _ Hinv); lia). done. }
    split; [done|]. split; [by rewrite (page_used_word s p w) by (by rewrite Ek); rewrite Et|]. split.
    + intros q Hq. destruct (decide (q / 64 = p / 64)) as [Hd|Hd].
      * unfold page_used. rewrite Hd, Ek, Hk.
        assert (Z.testbit (not64 w) (q mod 64) = false) as Hf by (apply Hmin; lia).
        rewrite testbit_not64, bool_decide_eq_true_2 in Hf by (done || lia).
        by apply negb_false_iff in Hf.
      * unfold page_used. rewrite Hlow by lia. rewrite FULL_bits. apply bool_decide_eq_true_2. lia.
    + rewrite <- Ek in Hk |- *. apply (flip_word s p true w); try done.
      * apply u64_lor; [done|]. by apply u64_shl1.
      * by rewrite Et.
      * intros i. rewrite Hset, Et. by case_bool_decide.
  - apply alloc_scan_None in E. split; [done|]. split; [by intros; apply all_full_used|].
    rewrite (inv_count _ Hinv). clear Hinv. induction E as [|w l -> _ IH]; [done|].
    by rewrite count_free_cons, zeros_full, IH.
Qed.

(** Two states that satisfy the invariant and agree on every page are equal. *)
Lemma pmm_ext s s' : pmm_inv s → pmm_inv s' → total_pages s' = total_pages s →
  (∀ p, 0 ≤ p → page_used s' p = page_used s p) → s' = s.
Proof.
  intros Hs Hs' Ht Hu.
  assert (bitmap s' = bitmap s) as Eb.
  { apply list_eq_same_length with (n := length (bitmap s)); [done| |].
    { pose proof (inv_length _ Hs). pose proof (inv_length _ Hs'). lia. }
    intros k w w' Hk E' E. pose proof (inv_words _ Hs) as Hw. pose proof (inv_words _ Hs') as Hw'.
    eapply Forall_lookup_1 in Hw; [|exact E]. eapply Forall_lookup_1 in Hw'; [|exact E'].
    apply u64_bits_inj; [done|done|]. intros i Hi.
    pose proof (Hu (64 * Z.of_nat k + i)) as Hp. unfold page_used in Hp.
    replace (Z.to_nat ((64 * Z.of_nat k + i) / 64)) with k in Hp by lia.
    replace ((64 * Z.of_nat k + i) mod 64) with i in Hp by lia.
    rewrite E, E' in Hp. apply Hp. lia. }
  destruct s, s'; cbn in *. subst. f_equal.
  pose proof (inv_count _ Hs). pose proof (inv_count _ Hs'). cbn in *. lia.
Qed.

Lemma mark_used_spec s a : pmm_inv s → 0 ≤ a →
  ∃ s', mark_used a s = (Ok tt, s') ∧ pmm_inv s' ∧ total_pages s' = total_pages s ∧
    ∀ q, 0 ≤ q → page_used s' q = bool_decide (q = a / PAGE_SIZE) || page_used s q.
Proof.
  intros Hinv Ha. set (p := a / PAGE_SIZE). assert (0 ≤ p) by (unfold p, PAGE_SIZE; lia).
  unfold mark_used. fold p. case_bool_decide as Hp.
  2:{ exists s. split; [done|]. split; [done|]. split; [done|]. intros q Hq. case_bool_decide; [subst q|done].
      unfold page_used. destruct (_ !! _) as [w|] eqn:E; [|done]. exfalso.
      apply lookup_lt_Some in E. pose proof (inv_length _ Hinv). unfold MAX_PAGES in *. lia. }
  assert (page_ok p) as Hpok by done.
  destruct (inv_lookup s p Hinv Hpok) as (w & E & Hw).
  unfold word_at, bind, get, or_panic. rewrite E. cbn.
  assert (0 ≤ p mod 64 < 64) as Hb by lia.
  rewrite land_shl1_eqb by lia. destruct (Z.testbit w (p mod 64)) eqn:Ht; cbn.
  - exists s. split; [done|]. split; [done|]. split; [done|]. intros q Hq. case_bool_decide; [subst q|done].
    by rewrite (page_used_word _ _ _ E), Ht.
  - assert (0 < free_pages s) as Hfp.
    { pose proof (zeros_set w (Z.lor w (Z.shiftl 1 (p mod 64))) (p mod 64) Hb Ht
        (λ i _, testbit_set_bit w (p mod 64) i ltac:(lia))).
      pose proof (zeros_nonneg (Z.lor w (Z.shiftl 1 (p mod 64)))).
      pose proof (zeros_le_count _ _ _ E). rewrite (inv_count _ Hinv). lia. }
    pose proof (flip_word s p true w (Z.lor w (Z.shiftl 1 (p mod 64))) Hinv Hpok E) as Hfl.
    destruct Hfl as [HI _ _ HU]; [by apply u64_lor, u64_shl1|done| |].
    { intros i. rewrite testbit_set_bit by lia. by case_bool_decide. }
    eexists. split; [unfold when; cbn; by rewrite bool_decide_eq_true_2|].
    split; [exact HI|]. split; [done|]. intros q Hq. etrans; [exact (HU q Hq)|]. by case_bool_decide.
Qed.

(** ** Boot *)

Section BootProofs.
Variable MEMMAP_USABLE : Z.

(** What the bootloader hands over: 64-bit ranges. *)
Definition entry_ok (e : Entry) : Prop :=
  0 ≤ base e ∧ 0 ≤ length_ e ∧ base e + length_ e < 2 ^ 64.

Definition usable_pages (entries : list Entry) : list Z :=
  entries ≫= λ e, if type_ e =? MEMMAP_USABLE then default [] (entry_pages e) else [].

Lemma entry_pages_ok e : entry_ok e → ∃ ps, entry_pages e = Some ps ∧
  Forall (λ p, 0 ≤ p < MAX_PAGES) ps.
Proof.
  intros (Hb & Hl & Hs). unfold entry_pages. rewrite add64_small by done.
  destruct (_ && _) eqn:E; [by exists []|].
  eexists. split; [done|]. apply Forall_forall. intros p Hp.
  apply elem_of_seqZ in Hp. unfold PAGE_SIZE, MAX_PHYS, MAX_PAGES in *.
  apply andb_false_iff in E as [E|E]; apply bool_decide_eq_false in E; lia.
Qed.

Lemma usable_pages_ok entries : Forall entry_ok entries → Forall page_ok (usable_pages entries).
Proof.
  rewrite !Forall_forall. intros Hok p (e & Hp & He)%list_elem_of_bind.
  destruct (entry_pages_ok e (Hok e He)) as (ps & Eps & Hps). rewrite Eps in Hp.
  destruct (_ =? _); [|set_solver]. rewrite Forall_forall in Hps. by apply Hps.
Qed.

(** After [init_page] over distinct pages, exactly those pages are free in
    addition, and both counters grew by their number. *)
Record freed (s : BitmapAllocator) (ps : list Z) (s' : BitmapAllocator) : Prop := {
  freed_inv : pmm_inv s';
  freed_total : total_pages s' = total_pages s + Z.of_nat (length ps);
  freed_free : free_pages s' = free_pages s + Z.of_nat (length ps);
  freed_used q : 0 ≤ q → page_used s' q = if bool_decide (q ∈ ps) then false else page_used s q
}.

Lemma freed_nil s : pmm_inv s → freed s [] s.
Proof. intros H. constructor; [done|cbn;lia|cbn;lia|done]. Qed.

Lemma freed_app s ps s1 qs s2 : freed s ps s1 → freed s1 qs s2 → freed s (ps ++ qs) s2.
Proof.
  intros [? T1 F1 U1] [? T2 F2 U2]. constructor; [done|rewrite T2, T1, length_app; lia|
    rewrite F2, F1, length_app; lia|].
  intros q Hq. rewrite U2, U1 by done.
  repeat case_bool_decide; set_solver.
Qed.

Lemma init_pages_freed ps : ∀ s, pmm_inv s → NoDup ps → Forall page_ok ps →
  Forall (λ p, page_used s p = true) ps →
  ∃ s', for_each ps init_page s = (Ok tt, s') ∧ freed s ps s'.
Proof.
  induction ps as [|p ps IH]; intros s Hinv Hnd Hok Hu; [exists s; split; [done|by apply freed_nil]|].
  apply NoDup_cons in Hnd as [Hnp Hnd]. apply Forall_cons in Hok as [Hp Hok].
  apply Forall_cons in Hu as [Hup Hu].
  destruct (mark_free_flips s p Hinv Hp Hup) as (s1 & E1 & [I1 T1 F1 U1]).
  set (s2 := set_total (total_pages s1 + 1) s1).
  assert (freed s [p] s2) as Hf.
  { constructor; cbn; [by destruct I1; constructor|lia|lia|].
    intros q Hq. change (page_used s2 q) with (page_used s1 q). rewrite U1 by done.
    repeat case_bool_decide; set_solver. }
  destruct (IH s2) as (s' & E' & Hf'); [apply Hf|done|done| |].
  { rewrite Forall_forall in Hu, Hok |- *. intros q Hq. destruct Hf as [_ _ _ Hf].
    rewrite Hf by (by apply Hok). rewrite bool_decide_eq_false_2 by set_solver. auto. }
  exists s'. split; [|apply (freed_app s [p] s2 ps s' Hf Hf')].
  cbn. unfold init_page at 1. rewrite bool_decide_eq_true_2 by (unfold page_ok in Hp; lia).
  rewrite bind_assoc, (bind_ok _ _ _ _ _ E1). exact E'.
Qed.

Lemma init_entries_freed entries : ∀ s, pmm_inv s → Forall entry_ok entries →
  NoDup (usable_pages entries) → Forall (λ p, page_used s p = true) (usable_pages entries) →
  ∃ s', for_each entries (init_entry MEMMAP_USABLE) s = (Ok tt, s') ∧ freed s (usable_pages entries) s'.
Proof.
  induction entries as [|e es IH]; intros s Hinv Hok Hnd Hu; [exists s; split; [done|by apply freed_nil]|].
  apply Forall_cons in Hok as [He Hok].
  change (usable_pages (e :: es)) with
    ((if type_ e =? MEMMAP_USABLE then default [] (entry_pages e) else []) ++ usable_pages es) in *.
  destruct (entry_pages_ok e He) as (ps & Eps & Hps). cbn. unfold init_entry at 1.
  destruct (type_ e =? MEMMAP_USABLE).
  - rewrite Eps in *. cbn [default id] in *.
    apply NoDup_app in Hnd as (Hnd1 & Hdis & Hnd2). apply Forall_app in Hu as [Hu1 Hu2].
    destruct (init_pages_freed ps s) as (s1 & E1 & Hf1); [done..|].
    destruct (IH s1) as (s2 & E2 & Hf2); [apply Hf1|done|done| |].
    { rewrite Forall_forall in Hu2 |- *. intros q Hq.
      pose proof (usable_pages_ok es Hok) as Hup. rewrite Forall_forall in Hup.
      rewrite (freed_used _ _ _ Hf1) by (by apply Hup).
      rewrite bool_decide_eq_false_2 by set_solver. auto. }
    exists s2. split; [|by eapply freed_app].
    rewrite (bind_ok _ _ s tt s1); [exact E2|]. exact E1.
  - destruct (IH s) as (s2 & E2 & Hf2); [done..|]. exists s2. split; [exact E2|done].
Qed.

(** [mark_used] over the kernel-heap pages. *)
Lemma mark_used_range l : ∀ s, pmm_inv s → Forall (λ a, 0 ≤ a) l →
  ∃ s', for_each l mark_used s = (Ok tt, s') ∧ pmm_inv s' ∧ total_pages s' = total_pages s ∧
    ∀ q, 0 ≤ q → page_used s' q = bool_decide (q ∈ (λ a, a / PAGE_SIZE) <$> l) || page_used s q.
Proof.
  induction l as [|a l IH]; intros s Hinv Hl; [by exists s|].
  apply Forall_cons in Hl as [Ha Hl].
  destruct (mark_used_spec s a Hinv Ha) as (s1 & E1 & I1 & T1 & U1).
  destruct (IH s1 I1 Hl) as (s2 & E2 & I2 & T2 & U2).
  exists s2. cbn. rewrite (bind_ok _ _ _ _ _ E1). split; [done|]. split; [done|]. split; [lia|].
  intros q Hq. rewrite U2, U1 by done. rewrite orb_assoc. f_equal.
  rewrite <- bool_decide_or. apply bool_decide_ext. set_solver.
Qed.
End BootProofs.

Lemma region_candidate_spec e b len : entry_ok e → region_candidate e = Some (b, len) → 0 < len →
  base e ≤ b ∧ b + len = base e + length_ e ∧ b mod 0x200000 = 0 ∧ 0x44000000 ≤ b.
Proof.
  intros (Hb & Hl & Hs) E Hlen. unfold region_candidate in E. rewrite add64_small in E by done.
  set (safe := Z.max (base e) 0x44000000) in *. assert (base e ≤ safe ∧ 0x44000000 ≤ safe) as [Hs1 Hs2] by lia.
  destruct (add64 safe 0x1FFFFF) as [up|] eqn:Eup; [|done]. apply add64_Some in Eup as [-> Hup].
  change 0x1FFFFF with (2 ^ 21 - 1) in E. rewrite land_align_down in E by (unfold u64_ok; lia).
  change (2 ^ 21) with 0x200000 in E. simplify_eq.
  repeat case_bool_decide; lia.
Qed.

Lemma find_contiguous_region_spec U size entries b : Forall entry_ok entries → 0 < size →
  find_contiguous_region U size entries = Ok (Some b) →
  ∃ e, e ∈ entries ∧ type_ e = U ∧ base e ≤ b ∧ b + size ≤ base e + length_ e ∧
       b mod 0x200000 = 0 ∧ 0x44000000 ≤ b.
Proof.
  intros Hok Hsz. induction Hok as [|e es He Hok IH]; [done|]. cbn.
  destruct (Z.eqb_spec (type_ e) U) as [Et|].
  2:{ intros E. apply IH in E as (e' & ? & ?). exists e'. split; [by right|done]. }
  destruct (region_candidate e) as [[ab al]|] eqn:Ec; [|done]. case_bool_decide as Hd.
  - intros [= <-]. apply region_candidate_spec in Ec; [|done|lia]. exists e. split; [by left|].
    repeat split; lia.
  - intros E. apply IH in E as (e' & ? & ?). exists e'. split; [by right|done].
Qed.

Lemma heap_pages_range h : h mod 4096 = 0 → ∀ q,
  q ∈ (λ a, a / PAGE_SIZE) <$> ((λ i, h + i * 4096) <$> seqZ 0 (KERNEL_HEAP_SIZE / 4096)) ↔
  h / 4096 ≤ q < h / 4096 + KERNEL_HEAP_SIZE / 4096.
Proof.
  intros Hh q. rewrite <- list_fmap_compose, list_elem_of_fmap. cbn. unfold PAGE_SIZE. split.
  - intros (i & -> & Hi%elem_of_seqZ). lia.
  - intros Hq. exists (q - h / 4096). split; [lia|]. apply elem_of_seqZ. lia.
Qed.

Lemma for_each_fmap {S A B} (g : A → B) (f : B → M S ()) l s :
  for_each l (λ x, f (g x)) s = for_each (g <$> l) f s.
Proof.
  revert s. induction l as [|x l IH]; intros s; [done|]. cbn. unfold bind.
  by destruct (f (g x) s) as [[] ?].
Qed.

(** ** Theorems *)

(** C8. [alloc_page] never panics on a consistent allocator.  It returns the
    lowest free page, marks exactly that page used, decrements the counter and
    keeps the allocator consistent; it returns [None] only when every page is
    in use. *)
Theorem alloc_page_first_fit s : pmm_inv s →
  match alloc_page s with
  | (Ok (Some a), s') => ∃ p, a = p * PAGE_SIZE ∧ page_ok p ∧ page_used s p = false ∧
      (∀ q, 0 ≤ q < p → page_used s q = true) ∧
      pmm_inv s' ∧ free_pages s' = free_pages s - 1 ∧
      (∀ q, 0 ≤ q → page_used s' q = bool_decide (q = p) || page_used s q)
  | (Ok None, s') => s' = s ∧ (∀ p, page_used s p = true) ∧ free_pages s = 0
  | _ => False
  end.
Proof.
  intros Hinv. destruct (alloc_page_cases s Hinv) as
    [(p & s' & -> & Hp & Hf & Hlow & [I T F U])|(-> & Hall & H0)]; [|done].
  exists p. repeat (split; [done|]). intros q Hq. rewrite U by done. by case_bool_decide.
Qed.

(** A one-page allocator: page 5 freed in the all-used bitmap. *)
Lemma one_page_free : ∃ s, mark_free 5 new = (Ok tt, s) ∧ pmm_inv s ∧
  (∀ q, 0 ≤ q → page_used s q = negb (bool_decide (q = 5))).
Proof.
  destruct (mark_free_flips new 5 new_inv) as (s & E & [I _ _ U]); [done|by rewrite new_used|].
  exists s. split; [done|]. split; [done|]. intros q Hq. rewrite U by done.
  rewrite new_used. by case_bool_decide.
Qed.

Lemma alloc_page_first_fit_witness : ∃ s, pmm_inv s ∧
  match alloc_page s with (Ok (Some a), _) => a = 20480 | _ => False end.
Proof.
  destruct one_page_free as (s & _ & I & U). exists s. split; [exact I|].
  pose proof (alloc_page_first_fit s I) as H.
  destruct (alloc_page s) as [[[a|]| |] s']; [|destruct H as (_ & H & _)|done|done].
  - destruct H as (p & -> & Hp & Hu & _). unfold page_ok in Hp. rewrite U in Hu by lia.
    apply negb_false_iff, bool_decide_eq_true in Hu as ->. done.
  - specialize (H 5). by rewrite U in H.
Defined.

(** Freeing the page just allocated restores the allocator exactly. *)
Theorem alloc_free_roundtrip s a s' : pmm_inv s → alloc_page s = (Ok (Some a), s') →
  free_page a s' = (Ok tt, s).
Proof.
  intros Hinv E. destruct (alloc_page_cases s Hinv) as
    [(p & s1 & E1 & Hp & Hf & Hlow & [I T F U])|(E1 & _)]; rewrite E1 in E; simplify_eq.
  rewrite free_page_mark_free. replace (p * PAGE_SIZE / PAGE_SIZE) with p by (unfold PAGE_SIZE; lia).
  destruct (mark_free_flips s' p I Hp) as (s2 & E2 & [I2 T2 F2 U2]).
  { rewrite U by (unfold page_ok in Hp; lia). by rewrite bool_decide_eq_true_2. }
  rewrite E2. f_equal. apply pmm_ext; [done|done|lia|].
  intros q Hq. rewrite U2, U by done. by case_bool_decide; [subst|].
Qed.

Lemma alloc_free_roundtrip_witness : ∃ s a s', pmm_inv s ∧ alloc_page s = (Ok (Some a), s') ∧
  free_page a s' = (Ok tt, s).
Proof.
  destruct one_page_free as (s & _ & I & U).
  destruct (alloc_page_cases s I) as [(p & s' & E & _)|(_ & H & _)].
  - exists s, (p * PAGE_SIZE), s'. split; [exact I|]. split; [exact E|].
    exact (alloc_free_roundtrip s _ s' I E).
  - exfalso. specialize (H 5). by rewrite U in H.
Defined.

(** Freeing a page that is already free (a double free) is not detected:
    the bitmap is unchanged but the free counter still grows, so the counter no
    longer matches the bitmap. *)
Theorem double_free_corrupts_counter s a : pmm_inv s → page_ok (a / PAGE_SIZE) →
  page_used s (a / PAGE_SIZE) = false →
  ∃ s', free_page a s = (Ok tt, s') ∧ bitmap s' = bitmap s ∧
        free_pages s' = free_pages s + 1 ∧ ~ pmm_inv s'.
Proof.
  intros Hinv Hp Hu. rewrite free_page_mark_free, mark_free_again by done.
  eexists. split; [done|]. split; [done|]. split; [done|].
  intros [_ _ Hc]. cbn [set_free free_pages bitmap] in Hc. rewrite (inv_count _ Hinv) in Hc. lia.
Qed.

Lemma double_free_corrupts_counter_witness : ∃ s s', pmm_inv s ∧ free_page 20480 s = (Ok tt, s') ∧
  ~ pmm_inv s'.
Proof.
  destruct one_page_free as (s & _ & I & U).
  destruct (double_free_corrupts_counter s 20480 I) as (s' & E & _ & _ & H).
  - vm_compute. split; congruence.
  - by rewrite U.
  - exists s, s'. split; [exact I|]. split; [exact E|exact H].
Defined.

(** What the boot protocol promises of a memory map: ranges of 64-bit addresses,
    and usable ones that are made of whole pages and do not overlap. *)
Record limine_map (U : Z) (entries : list Entry) : Prop := {
  lm_range : Forall entry_ok entries;
  lm_aligned : Forall (λ e, type_ e = U → base e mod 4096 = 0 ∧ length_ e mod 4096 = 0) entries;
  lm_apart i j e e' : entries !! i = Some e → entries !! j = Some e' → i ≠ j → type_ e = U → type_ e' = U →
    base e + length_ e ≤ base e' ∨ base e' + length_ e' ≤ base e }.

(** Page [q] is usable: all of its bytes are in one usable range and below 2 GiB. *)
Definition page_usable (U : Z) (entries : list Entry) (q : Z) : Prop :=
  ∃ e, e ∈ entries ∧ type_ e = U ∧ base e ≤ q * 4096 ∧ q * 4096 + 4096 ≤ base e + length_ e ∧ q * 4096 + 4096 ≤ 0x80000000.

(** The usable bytes below 2 GiB. *)
Definition usable_bytes (U : Z) (entries : list Entry) : Z :=
  foldr (λ e n, (if decide (type_ e = U) then Z.max 0 (Z.min (base e + length_ e) 0x80000000 - base e) else 0) + n) 0 entries.

Lemma limine_map_tail U e es : limine_map U (e :: es) → limine_map U es.
Proof.
  intros [Hr Ha Hd]. apply Forall_cons in Hr as [_ Hr]. apply Forall_cons in Ha as [_ Ha]. split; [done|done|].
  intros i j x y Hi Hj Hne. by apply (Hd (S i) (S j)); [| |lia].
Qed.

Lemma entry_pages_exact e : entry_ok e → base e mod 4096 = 0 → length_ e mod 4096 = 0 → ∃ ps, entry_pages e = Some ps ∧ NoDup ps ∧
  (∀ q, q ∈ ps ↔ base e ≤ q * 4096 ∧ q * 4096 + 4096 ≤ base e + length_ e ∧ q * 4096 + 4096 ≤ 0x80000000) ∧
  Z.of_nat (length ps) * 4096 = Z.max 0 (Z.min (base e + length_ e) 0x80000000 - base e).
Proof.
  intros (Hb & Hl & Hs) Hba Hla. unfold entry_pages. rewrite add64_small by done. unfold MAX_PHYS, PAGE_SIZE.
  destruct (_ && _) eqn:E.
  - apply andb_true_iff in E as [E1 E2]. apply bool_decide_eq_true in E1, E2. exists []. split_and!; [done|constructor| |cbn; lia].
    intros q. split; [set_solver|lia].
  - eexists. split; [done|]. split; [apply NoDup_seqZ|]. rewrite length_seqZ.
    apply andb_false_iff in E as [E|E]; apply bool_decide_eq_false in E; (split; [intros q; rewrite elem_of_seqZ; lia|lia]).
Qed.

Lemma usable_pages_spec U entries : limine_map U entries →
  NoDup (usable_pages U entries) ∧ (∀ q, q ∈ usable_pages U entries ↔ page_usable U entries q) ∧
  Z.of_nat (length (usable_pages U entries)) * 4096 = usable_bytes U entries.
Proof.
  induction entries as [|e es IH]; intros Hm.
  { split; [constructor|]. split; [|done]. intros q. split; [set_solver|]. intros (e & He & _). set_solver. }
  destruct (IH (limine_map_tail U e es Hm)) as (Hn & Hi & Hc). destruct Hm as [Hr Ha Hd].
  apply Forall_cons in Hr as [He _]. apply Forall_cons in Ha as [Hae _].
  change (usable_pages U (e :: es)) with ((if type_ e =? U then default [] (entry_pages e) else []) ++ usable_pages U es).
  cbn [usable_bytes foldr]. fold (usable_bytes U es). destruct (Z.eqb_spec (type_ e) U) as [Hu|Hu].
  - destruct (Hae Hu) as [Hba Hla]. destruct (entry_pages_exact e He Hba Hla) as (ps & -> & Hnp & Hip & Hcp). cbn [default from_option id].
    split; [|split].
    + apply NoDup_app. split; [done|]. split; [|done]. intros q Hq%Hip (e' & He' & Hu' & Hq')%Hi.
      apply list_elem_of_lookup in He' as [j Hj]. destruct (Hd 0%nat (S j) e e' eq_refl Hj ltac:(lia) Hu Hu'); lia.
    + intros q. rewrite elem_of_app, Hip, Hi. unfold page_usable. split.
      * intros [Hq|(e' & He' & Hq)]; [exists e|exists e']; (split; [set_solver|done]).
      * intros (e' & [->|He']%elem_of_cons & Hu' & Hq); [by left|right; by exists e'].
    + rewrite length_app, Nat2Z.inj_add, Z.mul_add_distr_r, Hc, Hcp. by rewrite decide_True by done.
  - cbn [app]. split; [done|]. split; [|by rewrite decide_False by done]. intros q. rewrite Hi. unfold page_usable.
    split; intros (e' & He' & Hu' & Hq); exists e'; (split; [set_solver|done]).
Qed.

(** C34. Boot: on a memory map as the boot protocol promises it (usable ranges are whole
    pages and do not overlap) that has a 32 MiB region for the kernel heap,
    [mm::init] succeeds with a consistent allocator: a page is free exactly when all
    of its bytes lie in a usable range, below 2 GiB and outside the kernel heap, and
    the total counts the pages of usable memory below 2 GiB; the heap is 2 MiB
    aligned and lies inside one usable range. *)
Theorem mm_init_correct U entries heap : limine_map U entries →
  find_contiguous_region U KERNEL_HEAP_SIZE entries = Ok (Some heap) →
  ∃ s, mm_init U entries new = (Ok heap, s) ∧ pmm_inv s ∧
    total_pages s * 4096 = usable_bytes U entries ∧
    (∀ q, 0 ≤ q → page_used s q = false ↔
       page_usable U entries q ∧ ~ (heap ≤ q * 4096 < heap + 32 * 1024 * 1024)) ∧
    heap mod 0x200000 = 0 ∧
    (∃ e, e ∈ entries ∧ type_ e = U ∧ base e ≤ heap ∧ heap + 32 * 1024 * 1024 ≤ base e + length_ e).
Proof.
  intros Hm Hfind. pose proof (lm_range _ _ Hm) as Hok. destruct (usable_pages_spec U entries Hm) as (Hnd & Hiff & Hcount).
  destruct (find_contiguous_region_spec U KERNEL_HEAP_SIZE entries heap Hok) as
    (e & He & Ht & Hb & Hsz & Hal & Hlow); [done|done|].
  destruct (init_entries_freed U entries new new_inv Hok Hnd) as (s1 & E1 & [I1 T1 F1 U1]).
  { apply Forall_forall. intros. apply new_used. }
  assert (init U entries new = (Ok tt, s1)) as Ei by exact E1.
  set (l := (λ i, heap + i * 4096) <$> seqZ 0 (KERNEL_HEAP_SIZE / 4096)).
  destruct (mark_used_range l s1 I1) as (s2 & E2 & I2 & T2 & U2).
  { apply Forall_forall. intros a (i & -> & Hi%elem_of_seqZ)%list_elem_of_fmap. lia. }
  exists s2. split; [|split; [done|split; [|split; [|split; [done|by exists e]]]]].
  - unfold mm_init. rewrite (bind_ok _ _ _ _ _ Ei), Hfind.
    unfold bind at 1. rewrite (for_each_fmap (λ i, heap + i * 4096) mark_used). fold l. by rewrite E2.
  - rewrite T2, T1, <- Hcount. cbn. lia.
  - intros q Hq. rewrite U2, U1, new_used by done. unfold l. rewrite orb_false_iff, bool_decide_eq_false.
    rewrite heap_pages_range, <- Hiff by lia. change KERNEL_HEAP_SIZE with (32 * 1024 * 1024).
    assert (heap / 4096 ≤ q < heap / 4096 + 32 * 1024 * 1024 / 4096 ↔ heap ≤ q * 4096 < heap + 32 * 1024 * 1024) as ->.
    { assert (heap mod 4096 = 0) by (rewrite <- (Z.mod_mod_divide heap 0x200000 4096), Hal; [done|by exists 512]). lia. }
    case_bool_decide; (split; intros [? ?]; [done || split; done|done || split; done]).
Qed.

Lemma demo_limine : limine_map 0 [mkEntry 0 0x44000000 0x4000000].
Proof.
  split; [repeat constructor; cbn; lia|by repeat constructor|].
  intros [|i] [|j] e e' Hi Hj Hne; [done|discriminate..].
Qed.

(** 64 MiB of usable memory: the lower half is the heap, the upper half is free. *)
Lemma mm_init_correct_witness :
  ∃ s, mm_init 0 [mkEntry 0 0x44000000 0x4000000] new = (Ok 0x44000000, s) ∧ total_pages s = 16384 ∧
    page_used s 0x47FFF = false ∧ page_used s 0x48000 ≠ false.
Proof.
  destruct (mm_init_correct 0 [mkEntry 0 0x44000000 0x4000000] 0x44000000 demo_limine) as (s & E & I & T & F & _); [vm_compute; reflexivity|].
  exists s. split; [exact E|]. split; [|split].
  - assert (usable_bytes 0 [mkEntry 0 0x44000000 0x4000000] = 0x4000000) as Hb by (vm_compute; reflexivity). rewrite Hb in T. lia.
  - apply F; [lia|]. split; [|lia]. exists (mkEntry 0 0x44000000 0x4000000). split; [apply list_elem_of_here|]. split; [reflexivity|]. cbn [base length_]. lia.
  - intros H%F; [|lia]. destruct H as [(e & ->%list_elem_of_singleton & _ & H) _]. cbn [base length_] in H. lia.
Defined.
