(* ===== verification/Vmm.v ===== *)
(** * Virtual memory areas ([mm/vmm.rs])

    A process address space is a [BTreeMap] from start address to [Vma].
    [remove_range], [map] and [mprotect] split areas at the borders of a
    range.  The abstract view of a map is the partial function [view] from
    addresses to attributes; the theorems say how each operation changes it. *)

From S2P Require Import Prelude.

Definition PROT_NONE : Z := 0.
Definition PROT_READ : Z := 1.
Definition PROT_WRITE : Z := 2.
Definition PROT_EXEC : Z := 4.
Definition MAP_SHARED : Z := 0x01.
Definition MAP_PRIVATE : Z := 0x02.
Definition MAP_FIXED : Z := 0x10.
Definition MAP_ANONYMOUS : Z := 0x20.

Record Vma := mkVma {
  start : Z;
  end_ : Z;
  prot : Z;
  flags : Z;
  offset : Z;
  name : option string
}.

#[export] Instance Vma_eq_dec : EqDecision Vma.
Proof. solve_decision. Defined.

Definition set_start (x : Z) (v : Vma) : Vma := mkVma x (end_ v) (prot v) (flags v) (offset v) (name v).
Definition set_end (x : Z) (v : Vma) : Vma := mkVma (start v) x (prot v) (flags v) (offset v) (name v).
Definition set_prot (p : Z) (v : Vma) : Vma := mkVma (start v) (end_ v) p (flags v) (offset v) (name v).

Definition new_anon (s e p : Z) (n : option string) : Vma :=
  mkVma s e p (Z.lor MAP_PRIVATE MAP_ANONYMOUS) 0 n.

Definition is_readable (v : Vma) : bool := has (prot v) PROT_READ.
Definition is_writable (v : Vma) : bool := has (prot v) PROT_WRITE.
Definition is_executable (v : Vma) : bool := has (prot v) PROT_EXEC.

(** The four permission characters of [/proc/self/maps]. *)
Definition prot_str (v : Vma) : string :=
  String (if is_readable v then "r" else "-")%char
  (String (if is_writable v then "w" else "-")%char
  (String (if is_executable v then "x" else "-")%char
  (String (if has (flags v) MAP_SHARED then "s" else "p")%char EmptyString))).

(** ** Operations *)

(** Keys of the areas that overlap [[s, e)], in increasing order. *)
Definition overlap_keys (m : gmap Z Vma) (s e : Z) : list Z :=
  (filter (λ kv, kv.1 < e ∧ s < end_ kv.2) (bentries m)).*1.

(** The loop body of [remove_range]. *)
Definition cut_one (s e : Z) (m : gmap Z Vma) (key : Z) : gmap Z Vma :=
  match m !! key with
  | None => m
  | Some vma =>
      let m := delete key m in
      let m := if bool_decide (start vma < s) then
                 let left := set_end s vma in <[start left := left]> m else m in
      if bool_decide (e < end_ vma) then
        let right := set_start e vma in <[start right := right]> m else m
  end.

Definition remove_range (m : gmap Z Vma) (s e : Z) : gmap Z Vma :=
  foldl (cut_one s e) m (overlap_keys m s e).

Definition map (m : gmap Z Vma) (s e p f o : Z) (n : option string) : gmap Z Vma :=
  <[s := mkVma s e p f o n]> (remove_range m s e).

(** [start + len] overflows in the [dev] profile: [None]. *)
Definition map_anon (m : gmap Z Vma) (s len p : Z) (n : option string) : option (gmap Z Vma) :=
  e ← add64 s len; Some (map m s e p (Z.lor MAP_PRIVATE MAP_ANONYMOUS) 0 n).

Definition unmap (m : gmap Z Vma) (s len : Z) : option (gmap Z Vma) :=
  e ← add64 s len; Some (remove_range m s e).

(** The loop body of [mprotect]. *)
Definition protect_one (s e p : Z) (m : gmap Z Vma) (key : Z) : gmap Z Vma :=
  match m !! key with
  | None => m
  | Some vma =>
      let m := delete key m in
      let '(vma, m) :=
        if bool_decide (start vma < s) then
          let left := set_end s vma in (set_start s vma, <[start left := left]> m)
        else (vma, m) in
      let '(vma, m) :=
        if bool_decide (e < end_ vma) then
          let right := set_start e vma in (set_end e vma, <[start right := right]> m)
        else (vma, m) in
      let vma := set_prot p vma in
      <[start vma := vma]> m
  end.

Definition mprotect (m : gmap Z Vma) (s len p : Z) : option (gmap Z Vma) :=
  e ← add64 s len; Some (foldl (protect_one s e p) m (overlap_keys m s e)).

(** [range(..=addr).next_back()], then the bound test. *)
Definition find (m : gmap Z Vma) (addr : Z) : option Vma :=
  match last (filter (λ kv, kv.1 ≤ addr) (bentries m)) with
  | Some (_, v) => if bool_decide (addr < end_ v) then Some v else None
  | None => None
  end.

Definition len (m : gmap Z Vma) : nat := size m.
Definition snapshot (m : gmap Z Vma) : list Vma := bvalues m.

(** ** Rendering [/proc/self/maps] *)

Definition hex_digit (d : Z) : ascii :=
  ascii_of_nat (Z.to_nat (if d <? 10 then 48 + d else 87 + d)).

(** [n] hexadecimal digits of [v], most significant first, in front of [acc]. *)
Fixpoint hex_digits (n : nat) (v : Z) (acc : string) : string :=
  match n with
  | O => acc
  | S n' => hex_digits n' (v / 16) (String (hex_digit (v mod 16)) acc)
  end.

(** [{:0width$x}]: as many digits as the value needs, at least [width]. *)
Definition fmt_hex (width : nat) (v : Z) : string :=
  hex_digits (width `max` Z.to_nat (Z.log2 v / 4 + 1)) v EmptyString.

Definition vma_line (v : Vma) : string :=
  fmt_hex 16 (start v) +:+ "-" +:+ fmt_hex 16 (end_ v) +:+ " " +:+ prot_str v +:+ " "
  +:+ fmt_hex 8 (offset v) +:+ " 00:00 0          " +:+ default "" (name v) +:+ String "010" EmptyString.

Definition maps_string (m : gmap Z Vma) : string :=
  foldr (λ v acc, vma_line v +:+ acc) EmptyString (bvalues m).

Example maps_string_example :
  maps_string {[ 0x1000 := mkVma 0x1000 0x3000 5 MAP_PRIVATE 0 (Some "[anon]") ]} =
  "0000000000001000-0000000000003000 r-xp 00000000 00:00 0          [anon]
".
Proof. vm_compute. reflexivity. Qed.

(** ** Well-formed maps and their view *)

Record wf (m : gmap Z Vma) : Prop := {
  wf_key k v : m !! k = Some v → k = start v;
  wf_nonempty k v : m !! k = Some v → start v < end_ v;
  wf_disjoint k k' v v' : m !! k = Some v → m !! k' = Some v' → k ≠ k' →
    end_ v ≤ start v' ∨ end_ v' ≤ start v
}.

(** [v] is an area of [m] that contains address [a]. *)
Definition covers (m : gmap Z Vma) (a : Z) (v : Vma) : Prop :=
  m !! start v = Some v ∧ start v ≤ a < end_ v.

(** What an address sees of its area. *)
Record attrs := mkAttrs { a_prot : Z; a_flags : Z; a_offset : Z; a_name : option string }.

Definition attr (v : Vma) : attrs := mkAttrs (prot v) (flags v) (offset v) (name v).
Definition view (m : gmap Z Vma) (a : Z) : option attrs := attr <$> find m a.

Lemma wf_empty : wf ∅.
Proof. constructor; intros *; by rewrite lookup_empty. Qed.

Lemma covers_unique m a v w : wf m → covers m a v → covers m a w → v = w.
Proof.
  intros Hwf [Hv Hav] [Hw Haw]. destruct (decide (start v = start w)) as [E|E]; [congruence|].
  destruct (wf_disjoint m Hwf _ _ _ _ Hv Hw E); lia.
Qed.

Lemma last_sorted {A} (R : relation A) (l : list A) x y :
  StronglySorted R l → last l = Some x → y ∈ l → y = x ∨ R y x.
Proof.
  induction 1 as [|z l Hs IH Hz]; [done|]. intros Hl Hy.
  destruct l as [|z' l]; [cbn in Hl; simplify_eq; apply list_elem_of_singleton in Hy; by left|].
  change (last (z' :: l) = Some x) in Hl. apply elem_of_cons in Hy as [->|Hy]; [right|by apply IH].
  rewrite Forall_forall in Hz. apply Hz, last_Some_elem_of. done.
Qed.

Lemma find_covers m a v : wf m → find m a = Some v ↔ covers m a v.
Proof.
  intros Hwf. unfold find. set (l := filter _ _).
  assert (StronglySorted key_le l) as Hs by apply StronglySorted_filter, bentries_sorted.
  assert (∀ k w, (k, w) ∈ l ↔ k ≤ a ∧ m !! k = Some w) as Hl
    by (intros; unfold l; by rewrite list_elem_of_filter, elem_of_bentries).
  destruct (last l) as [[k w]|] eqn:E.
  - assert (k ≤ a ∧ m !! k = Some w) as [Hk Hw] by (by apply Hl, last_Some_elem_of).
    pose proof (wf_key m Hwf _ _ Hw) as ->. case_bool_decide as Hd; split.
    + intros [= <-]. done.
    + intros Hc. f_equal. by eapply covers_unique.
    + done.
    + intros [Hv Hav]. exfalso.
      destruct (last_sorted _ _ _ (start v, v) Hs E) as [?|Hle]; [apply Hl; split; [lia|done]|simplify_eq; lia|].
      unfold key_le in Hle. cbn in Hle. destruct (decide (start v = start w)) as [Es|Es]; [rewrite Es in Hv; simplify_eq; lia|].
      pose proof (wf_nonempty m Hwf _ _ Hw).
      destruct (wf_disjoint m Hwf _ _ _ _ Hv Hw Es); lia.
  - split; [done|]. intros [Hv Hav]. exfalso. apply last_None in E.
    apply (not_elem_of_nil (start v, v)). rewrite <- E. apply Hl. split; [lia|done].
Qed.

Lemma find_None m a : wf m → find m a = None ↔ ∀ v, ~ covers m a v.
Proof.
  intros Hwf. split.
  - intros E v Hc. apply find_covers in Hc; congruence.
  - intros H. destruct (find m a) as [v|] eqn:E; [|done]. apply find_covers in E; [|done]. by destruct (H v).
Qed.

(** ** Replacing areas by pieces of themselves *)

(** One step of both loops: the area at [key] is replaced by the areas of [P]. *)
Definition splice (P : Vma → gmap Z Vma) (m : gmap Z Vma) (key : Z) : gmap Z Vma :=
  match m !! key with
  | None => m
  | Some v => P v ∪ delete key m
  end.

(** The pieces of [v] are well formed and lie inside [v]. *)
Record pieces_of (v : Vma) (P : gmap Z Vma) : Prop := {
  po_wf : wf P;
  po_inside k p : P !! k = Some p → start v ≤ start p ∧ end_ p ≤ end_ v
}.

Section Splice.
Context (P : Vma → gmap Z Vma).

(** A key of another area is never the start of a piece. *)
Lemma splice_other m v k' v' : wf m → m !! start v = Some v → pieces_of v (P v) →
  m !! k' = Some v' → k' ≠ start v → P v !! k' = None.
Proof.
  intros Hwf Hv [HP Hin] Hv' Hne. destruct (P v !! k') as [p|] eqn:E; [|done]. exfalso.
  pose proof (wf_key _ HP _ _ E) as Ek. pose proof (wf_nonempty _ HP _ _ E).
  pose proof (wf_key _ Hwf _ _ Hv') as Ek'. pose proof (wf_nonempty _ Hwf _ _ Hv').
  destruct (Hin _ _ E). destruct (wf_disjoint _ Hwf _ _ _ _ Hv' Hv Hne); lia.
Qed.

Lemma splice_lookup m v k w : wf m → m !! start v = Some v → pieces_of v (P v) →
  splice P m (start v) !! k = Some w ↔
  P v !! k = Some w ∨ (m !! k = Some w ∧ k ≠ start v).
Proof.
  intros Hwf Hv HP. unfold splice. rewrite Hv, lookup_union_Some_raw, lookup_delete_Some. split.
  - naive_solver.
  - intros [?|[Hk Hne]]; [by left|]. right. split; [|done]. by eapply splice_other.
Qed.

Lemma splice_wf m v : wf m → m !! start v = Some v → pieces_of v (P v) →
  wf (splice P m (start v)).
Proof.
  intros Hwf Hv HP. pose proof HP as [HPwf Hin]. constructor.
  - intros k w E. rewrite splice_lookup in E by done. destruct E as [E|[E _]]; [exact (wf_key _ HPwf _ _ E)|exact (wf_key _ Hwf _ _ E)].
  - intros k w E. rewrite splice_lookup in E by done. destruct E as [E|[E _]];
      [exact (wf_nonempty _ HPwf _ _ E)|exact (wf_nonempty _ Hwf _ _ E)].
  - intros k k' w w' E E' Hne. rewrite splice_lookup in E, E' by done.
    destruct E as [E|[E Hk]], E' as [E'|[E' Hk']].
    + exact (wf_disjoint _ HPwf _ _ _ _ E E' Hne).
    + destruct (Hin _ _ E). pose proof (wf_nonempty _ HPwf _ _ E).
      destruct (wf_disjoint m Hwf _ _ _ _ Hv E'); [congruence|lia|lia].
    + destruct (Hin _ _ E'). pose proof (wf_nonempty _ HPwf _ _ E').
      destruct (wf_disjoint m Hwf _ _ _ _ Hv E); [congruence|lia|lia].
    + exact (wf_disjoint _ Hwf _ _ _ _ E E' Hne).
Qed.

(** The whole loop: areas whose key is in [ks] are replaced, the others stay. *)
Lemma splice_all ks : ∀ m, wf m → NoDup ks →
  (∀ k, k ∈ ks → ∃ v, m !! k = Some v ∧ pieces_of v (P v)) →
  wf (foldl (splice P) m ks) ∧
  ∀ k w, foldl (splice P) m ks !! k = Some w ↔
    (∃ v, start v ∈ ks ∧ m !! start v = Some v ∧ P v !! k = Some w) ∨ (m !! k = Some w ∧ k ∉ ks).
Proof.
  induction ks as [|k ks IH]; intros m Hwf Hnd Hks; cbn [foldl].
  { split; [done|]. intros k w. set_solver. }
  apply NoDup_cons in Hnd as [Hk Hnd]. destruct (Hks k) as (v & Hv & HP); [by left|].
  pose proof (wf_key _ Hwf _ _ Hv) as ->.
  assert (∀ k' v', k' ∈ ks → splice P m (start v) !! k' = Some v' ↔ m !! k' = Some v') as Hsame.
  { intros k' v' Hk'. destruct (Hks k') as (u & Hu & _); [by right|].
    assert (k' ≠ start v) by (intros ->; done). rewrite splice_lookup by done.
    pose proof (splice_other m v k' u Hwf Hv HP Hu). naive_solver. }
  destruct (IH (splice P m (start v))) as [IHwf IHl]; [by apply splice_wf|done| |].
  { intros k' Hk'. destruct (Hks k') as (u & Hu & HPu); [by right|]. exists u. by rewrite Hsame. }
  split; [done|]. intros j w. rewrite IHl. split.
  - intros [(u & Hu & Hmu & Hj)|[Hj Hnj]].
    + left. exists u. rewrite Hsame in Hmu by done. split; [by right|done].
    + rewrite splice_lookup in Hj by done. destruct Hj as [Hj|[Hj Hne]]; [|right; set_solver].
      left. exists v. split; [by left|done].
  - intros [(u & [Eu|Hu]%elem_of_cons & Hmu & Hj)|[Hj Hnj]].
    + right. rewrite Eu in Hmu. simplify_eq. rewrite splice_lookup by done. split; [by left|].
      intros Hjks. destruct (Hks j) as (u' & Hu' & _); [by right|].
      assert (j ≠ start v) as Hne by (intros ->; done).
      rewrite (splice_other m v j u') in Hj by done. done.
    + left. exists u. by rewrite Hsame.
    + right. rewrite splice_lookup by done. set_solver.
Qed.

Lemma find_splice_all ks m a : wf m → NoDup ks →
  (∀ k, k ∈ ks → ∃ v, m !! k = Some v ∧ pieces_of v (P v)) →
  find (foldl (splice P) m ks) a =
    match find m a with
    | Some v => if bool_decide (start v ∈ ks) then find (P v) a else Some v
    | None => None
    end.
Proof.
  intros Hwf Hnd Hks. destruct (splice_all ks m Hwf Hnd Hks) as [Hwf' Hl].
  assert (∀ v, start v ∈ ks → m !! start v = Some v → pieces_of v (P v)) as HP.
  { intros v Hin Hv. destruct (Hks _ Hin) as (v' & Hv' & ?). by simplify_eq. }
  assert (∀ v w, start v ∈ ks → m !! start v = Some v → covers (P v) a w → covers m a v) as Hup.
  { intros v w Hin Hv [Hw Ha]. split; [done|]. destruct (po_inside _ _ (HP v Hin Hv) _ _ Hw). lia. }
  apply option_eq. intros w. rewrite find_covers by done. unfold covers at 1. rewrite Hl. split.
  - intros [[(v & Hin & Hv & Hw)|[Hw Hin]] Ha].
    + assert (covers (P v) a w) as Hc by done.
      rewrite (proj2 (find_covers m a v Hwf)) by eauto.
      rewrite bool_decide_eq_true_2 by done. apply find_covers; [by apply HP|done].
    + rewrite (proj2 (find_covers m a w Hwf)) by done. by rewrite bool_decide_eq_false_2.
  - destruct (find m a) as [v|] eqn:Ef; [|done]. apply find_covers in Ef as [Hv Hva]; [|done].
    case_bool_decide as Hin.
    + rewrite find_covers by (by apply HP). intros [Hw Ha]. split; [|done]. left. eauto.
    + intros [= <-]. split; [by right|done].
Qed.
End Splice.

(** *** The pieces each loop leaves of an overlapping area *)

Definition right_piece (e : Z) (v : Vma) : gmap Z Vma :=
  if bool_decide (e < end_ v) then {[ e := set_start e v ]} else ∅.
Definition left_piece (s : Z) (v : Vma) : gmap Z Vma :=
  if bool_decide (start v < s) then {[ start v := set_end s v ]} else ∅.
Definition mid_area (s e p : Z) (v : Vma) : Vma :=
  mkVma (Z.max s (start v)) (Z.min e (end_ v)) p (flags v) (offset v) (name v).

Definition cut_pieces (s e : Z) (v : Vma) : gmap Z Vma := right_piece e v ∪ left_piece s v.
Definition protect_pieces (s e p : Z) (v : Vma) : gmap Z Vma :=
  {[ Z.max s (start v) := mid_area s e p v ]} ∪ cut_pieces s e v.

Lemma cut_one_splice s e m k : cut_one s e m k = splice (cut_pieces s e) m k.
Proof.
  unfold cut_one, splice. destruct (m !! k) as [v|]; [|done]. unfold cut_pieces, right_piece, left_piece.
  repeat case_bool_decide; cbn [set_start set_end start];
    rewrite ?insert_union_singleton_l, ?(left_id_L ∅ (∪)), <- ?(assoc_L (∪)), ?(left_id_L ∅ (∪)); done.
Qed.

Lemma protect_one_splice s e p m k : (∀ v, m !! k = Some v → s < e ∧ start v < e ∧ s < end_ v) →
  protect_one s e p m k = splice (protect_pieces s e p) m k.
Proof.
  intros Hov. unfold protect_one, splice. destruct (m !! k) as [v|] eqn:E; [|done].
  destruct (Hov v eq_refl) as (? & ? & ?).
  unfold protect_pieces, cut_pieces, right_piece, left_piece, mid_area.
  case_bool_decide; cbn [set_start set_end start end_]; case_bool_decide;
    cbn [set_start set_end start end_ set_prot prot flags offset name];
    rewrite ?insert_union_singleton_l, <- ?(assoc_L (∪)), ?(left_id_L ∅ (∪));
    unfold set_prot, set_start, set_end; cbn;
    repeat ((rewrite Z.max_l by lia) || (rewrite Z.max_r by lia) ||
            (rewrite Z.min_l by lia) || (rewrite Z.min_r by lia)); done.
Qed.

Lemma singleton_map_Some (i k : Z) (x w : Vma) :
  ({[ i := x ]} : gmap Z Vma) !! k = Some w ↔ k = i ∧ w = x.
Proof. rewrite lookup_singleton_Some. naive_solver. Qed.

Lemma right_piece_Some e v k w :
  right_piece e v !! k = Some w ↔ e < end_ v ∧ k = e ∧ w = set_start e v.
Proof.
  unfold right_piece. case_bool_decide; [rewrite singleton_map_Some|rewrite lookup_empty]; naive_solver.
Qed.

Lemma left_piece_Some s v k w :
  left_piece s v !! k = Some w ↔ start v < s ∧ k = start v ∧ w = set_end s v.
Proof.
  unfold left_piece. case_bool_decide; [rewrite singleton_map_Some|rewrite lookup_empty]; naive_solver.
Qed.

Lemma cut_pieces_Some s e v k w : s ≤ e → start v < e →
  cut_pieces s e v !! k = Some w ↔
  (e < end_ v ∧ k = e ∧ w = set_start e v) ∨ (start v < s ∧ k = start v ∧ w = set_end s v).
Proof.
  intros Hse Hov. unfold cut_pieces. rewrite lookup_union_Some, right_piece_Some, left_piece_Some; [done|].
  apply map_disjoint_spec. intros i x y. rewrite right_piece_Some, left_piece_Some. lia.
Qed.

Lemma protect_pieces_Some s e p v k w : s < e → start v < e → s < end_ v →
  protect_pieces s e p v !! k = Some w ↔
  (k = Z.max s (start v) ∧ w = mid_area s e p v) ∨
  (e < end_ v ∧ k = e ∧ w = set_start e v) ∨ (start v < s ∧ k = start v ∧ w = set_end s v).
Proof.
  intros Hse Hov Hov'. unfold protect_pieces.
  rewrite lookup_union_Some, singleton_map_Some, cut_pieces_Some; [done|lia|done|].
  apply map_disjoint_spec. intros i x y. rewrite singleton_map_Some, cut_pieces_Some by lia. lia.
Qed.

Lemma cut_pieces_of s e v : s ≤ e → start v < e → s < end_ v → pieces_of v (cut_pieces s e v).
Proof.
  intros Hse H1 H2. split; [split|].
  - intros k w. rewrite cut_pieces_Some by done. intros [(? & -> & ->)|(? & -> & ->)]; done.
  - intros k w. rewrite cut_pieces_Some by done. intros [(? & -> & ->)|(? & -> & ->)]; cbn; lia.
  - intros k k' w w'. rewrite !cut_pieces_Some by done.
    intros [(? & -> & ->)|(? & -> & ->)] [(? & -> & ->)|(? & -> & ->)] ?; cbn; lia.
  - intros k w. rewrite cut_pieces_Some by done. intros [(? & -> & ->)|(? & -> & ->)]; cbn; lia.
Qed.

Lemma protect_pieces_of s e p v : s < e → start v < e → s < end_ v → start v < end_ v →
  pieces_of v (protect_pieces s e p v).
Proof.
  intros Hse H1 H2 H3. split; [split|].
  - intros k w. rewrite protect_pieces_Some by done.
    intros [(-> & ->)|[(? & -> & ->)|(? & -> & ->)]]; done.
  - intros k w. rewrite protect_pieces_Some by done.
    intros [(-> & ->)|[(? & -> & ->)|(? & -> & ->)]]; cbn; lia.
  - intros k k' w w'. rewrite !protect_pieces_Some by done.
    intros [(-> & ->)|[(? & -> & ->)|(? & -> & ->)]] [(-> & ->)|[(? & -> & ->)|(? & -> & ->)]] ?; cbn; lia.
  - intros k w. rewrite protect_pieces_Some by done.
    intros [(-> & ->)|[(? & -> & ->)|(? & -> & ->)]]; cbn; lia.
Qed.

Lemma elem_of_overlap_keys m s e k :
  k ∈ overlap_keys m s e ↔ ∃ v, m !! k = Some v ∧ k < e ∧ s < end_ v.
Proof.
  unfold overlap_keys. rewrite list_elem_of_fmap. split.
  - intros ([k' v] & -> & [? Hin]%list_elem_of_filter). apply elem_of_bentries in Hin. eauto.
  - intros (v & Hv & ? & ?). exists (k, v). split; [done|].
    apply list_elem_of_filter. by rewrite elem_of_bentries.
Qed.

Lemma overlap_keys_NoDup m s e : NoDup (overlap_keys m s e).
Proof.
  unfold overlap_keys. eapply sublist_NoDup; [apply (bkeys_NoDup m)|].
  apply fmap_sublist, sublist_filter.
Qed.

(** The loops as folds of [splice]. *)
Lemma remove_range_splice m s e :
  remove_range m s e = foldl (splice (cut_pieces s e)) m (overlap_keys m s e).
Proof.
  unfold remove_range. generalize (overlap_keys m s e). intros ks. revert m.
  induction ks as [|k ks IH]; intros m; cbn; [done|]. by rewrite cut_one_splice.
Qed.

Lemma protect_splice m s e p : wf m → s < e →
  foldl (protect_one s e p) m (overlap_keys m s e) =
  foldl (splice (protect_pieces s e p)) m (overlap_keys m s e).
Proof.
  intros Hwf Hse.
  assert (∀ k, k ∈ overlap_keys m s e → ∃ v, m !! k = Some v ∧ start v = k ∧ start v < e ∧ s < end_ v ∧
    start v < end_ v) as Hks.
  { intros k (v & Hv & ? & ?)%elem_of_overlap_keys. exists v.
    rewrite <- (wf_key _ Hwf _ _ Hv). pose proof (wf_nonempty _ Hwf _ _ Hv).
    pose proof (wf_key _ Hwf _ _ Hv). repeat split; (done || lia). }
  pose proof (overlap_keys_NoDup m s e) as Hnd. revert Hks Hnd.
  generalize (overlap_keys m s e). intros ks. revert m Hwf.
  induction ks as [|k ks IH]; intros m Hwf Hks Hnd; cbn; [done|].
  apply NoDup_cons in Hnd as [Hk Hnd]. destruct (Hks k) as (v & Hv & <- & ? & ? & ?); [by left|].
  rewrite protect_one_splice by (intros v' E; rewrite Hv in E; simplify_eq; done).
  assert (pieces_of v (protect_pieces s e p v)) as HP by (by apply protect_pieces_of).
  apply IH; [by apply splice_wf| |done].
  intros k' Hk'. destruct (Hks k') as (u & Hu & <- & ?); [by right|]. exists u. split; [|done].
  rewrite splice_lookup by done. right. split; [done|]. intros E. congruence.
Qed.

Lemma overlap_pieces m s e (P : Vma → gmap Z Vma) : wf m →
  (∀ v, start v < e → s < end_ v → start v < end_ v → pieces_of v (P v)) →
  ∀ k, k ∈ overlap_keys m s e → ∃ v, m !! k = Some v ∧ pieces_of v (P v).
Proof.
  intros Hwf HP k (v & Hv & ? & ?)%elem_of_overlap_keys. exists v. split; [done|].
  pose proof (wf_key _ Hwf _ _ Hv). pose proof (wf_nonempty _ Hwf _ _ Hv). apply HP; [congruence|done|done].
Qed.

Lemma overlap_keys_covers m s e a v : wf m → covers m a v →
  start v ∈ overlap_keys m s e ↔ start v < e ∧ s < end_ v.
Proof.
  intros Hwf [Hv _]. rewrite elem_of_overlap_keys. split.
  - intros (v' & Hv' & ?). by simplify_eq.
  - eauto.
Qed.

Lemma remove_range_wf m s e : wf m → s ≤ e → wf (remove_range m s e).
Proof.
  intros Hwf Hse. rewrite remove_range_splice.
  apply splice_all; [done|apply overlap_keys_NoDup|].
  apply overlap_pieces; [done|]. intros. by apply cut_pieces_of.
Qed.

Lemma remove_range_view m s e a : wf m → s ≤ e →
  view (remove_range m s e) a = if bool_decide (s ≤ a < e) then None else view m a.
Proof.
  intros Hwf Hse. unfold view. rewrite remove_range_splice, find_splice_all;
    [|done|apply overlap_keys_NoDup|apply overlap_pieces; [done|intros; by apply cut_pieces_of]].
  destruct (find m a) as [v|] eqn:Ef; [|by destruct (bool_decide _)].
  apply find_covers in Ef as Hc; [|done]. pose proof Hc as [_ Ha].
  case_bool_decide as Hin; rewrite (overlap_keys_covers m s e a v Hwf Hc) in Hin.
  2:{ rewrite bool_decide_eq_false_2 by lia. done. }
  destruct Hin as [H1 H2]. pose proof (po_wf _ _ (cut_pieces_of s e v Hse H1 H2)) as HPwf.
  case_bool_decide as Hr.
  - rewrite (proj2 (find_None _ a HPwf)); [done|].
    intros w [Hw Hwa]. rewrite cut_pieces_Some in Hw by done.
    destruct Hw as [(? & ? & ->)|(? & ? & ->)]; cbn in *; lia.
  - destruct (decide (a < s)).
    + rewrite (proj2 (find_covers _ a (set_end s v) HPwf)); [done|].
      split; [|cbn; lia]. rewrite cut_pieces_Some by done. right. cbn. split; [lia|done].
    + rewrite (proj2 (find_covers _ a (set_start e v) HPwf)); [done|].
      split; [|cbn; lia]. rewrite cut_pieces_Some by done. left. cbn. split; [lia|done].
Qed.

Lemma view_None m a : view m a = None ↔ find m a = None.
Proof. unfold view. apply fmap_None. Qed.

Lemma insert_area_wf m v : wf m → start v < end_ v → (∀ a, start v ≤ a < end_ v → find m a = None) →
  wf (<[start v := v]> m) ∧
  ∀ a, find (<[start v := v]> m) a = if bool_decide (start v ≤ a < end_ v) then Some v else find m a.
Proof.
  intros Hwf Hne Hfree.
  assert (∀ k w, m !! k = Some w → end_ w ≤ start v ∨ end_ v ≤ start w) as Hdis.
  { intros k w Hw. pose proof (wf_key _ Hwf _ _ Hw) as ->. pose proof (wf_nonempty _ Hwf _ _ Hw).
    destruct (decide (end_ w ≤ start v)); [by left|]. destruct (decide (end_ v ≤ start w)); [by right|].
    exfalso. apply (proj1 (find_None m (Z.max (start v) (start w)) Hwf)) with w; [apply Hfree; lia|].
    split; [done|lia]. }
  assert (wf (<[start v := v]> m)) as Hwf'.
  { constructor.
    - intros k w [[<- <-]|[? ?]]%lookup_insert_Some; [done|by eapply wf_key].
    - intros k w [[<- <-]|[? ?]]%lookup_insert_Some; [done|by eapply wf_nonempty].
    - intros k k' w w' [[<- <-]|[? Hw]]%lookup_insert_Some [[<- <-]|[? Hw']]%lookup_insert_Some Hk;
        [done|apply Hdis in Hw'; lia|apply Hdis in Hw; lia|by eapply (wf_disjoint _ Hwf)]. }
  split; [done|]. intros a. case_bool_decide as Hin.
  - apply find_covers; [done|]. split; [by rewrite lookup_insert_eq|done].
  - apply option_eq. intros w. rewrite !find_covers by done. unfold covers.
    rewrite lookup_insert_Some. split.
    + intros [[[? <-]|[? ?]] ?]; [by destruct Hin|done].
    + intros [Hw ?]. split; [|done]. right. split; [|done]. intros E. apply Hdis in Hw as Hd.
      pose proof (wf_nonempty _ Hwf _ _ Hw). lia.
Qed.

(** ** Theorems *)

(** [find] is exact on a well-formed map: it returns an area exactly when
    that area is in the map and contains the address. *)
Theorem find_exact m a v : wf m → find m a = Some v ↔ m !! start v = Some v ∧ start v ≤ a < end_ v.
Proof. apply find_covers. Qed.

Definition demo_map : gmap Z Vma :=
  {[ 0x1000 := mkVma 0x1000 0x4000 3 MAP_SHARED 0 (Some "[fd:5]") ]}.

Lemma demo_map_wf : wf demo_map.
Proof.
  unfold demo_map. constructor.
  - by intros k v [<- <-]%lookup_singleton_Some.
  - by intros k v [<- <-]%lookup_singleton_Some.
  - by intros k k' v v' [<- <-]%lookup_singleton_Some [<- <-]%lookup_singleton_Some ?.
Qed.

Lemma find_exact_witness : find demo_map 0x2000 = Some (mkVma 0x1000 0x4000 3 MAP_SHARED 0 (Some "[fd:5]")).
Proof. apply (find_exact demo_map 0x2000 _ demo_map_wf). split; [reflexivity|cbn; lia]. Defined.

(** C4. [unmap] keeps the map well formed, removes exactly the addresses of the
    range and keeps protection, flags and name of every other address, also
    when an area is split in two. *)
Theorem unmap_view m s n m' : wf m → 0 ≤ n → unmap m s n = Some m' →
  wf m' ∧ ∀ a, view m' a = if bool_decide (s ≤ a < s + n) then None else view m a.
Proof.
  intros Hwf Hn. unfold unmap. intros (e & [-> _]%add64_Some & [= <-])%bind_Some.
  split; [apply remove_range_wf; [done|lia]|]. intros a. apply remove_range_view; [done|lia].
Qed.

Lemma unmap_view_witness : ∃ m', unmap demo_map 0x2000 0x1000 = Some m' ∧ wf m' ∧ len m' = 2%nat ∧
  view m' 0x2000 = None ∧ view m' 0x3000 = view demo_map 0x3000.
Proof.
  eexists. split; [reflexivity|].
  destruct (unmap_view demo_map 0x2000 0x1000 _ demo_map_wf ltac:(lia) eq_refl) as [Hwf Hv].
  split; [exact Hwf|]. split; [vm_compute; reflexivity|]. split; [by rewrite Hv|by rewrite Hv].
Defined.

(** [map] keeps the map well formed; every address of the new range has the
    new attributes and every other address keeps its own. *)
Theorem map_view m s e p f o nm : wf m → s < e →
  wf (map m s e p f o nm) ∧
  ∀ a, view (map m s e p f o nm) a =
       if bool_decide (s ≤ a < e) then Some (mkAttrs p f o nm) else view m a.
Proof.
  intros Hwf Hse. destruct (insert_area_wf (remove_range m s e) (mkVma s e p f o nm)) as [Hwf' Hf].
  - apply remove_range_wf; [done|lia].
  - done.
  - cbn. intros a Ha. apply view_None. rewrite remove_range_view by (done || lia).
    by rewrite bool_decide_eq_true_2.
  - split; [exact Hwf'|]. intros a. unfold view. unfold map. rewrite Hf. cbn [start end_].
    case_bool_decide as Hd; [done|].
    change (view (remove_range m s e) a = view m a). rewrite remove_range_view by (done || lia).
    by rewrite bool_decide_eq_false_2.
Qed.

Lemma map_view_witness : let m' := map demo_map 0x2000 0x6000 5 MAP_PRIVATE 0 None in
  wf m' ∧ view m' 0x5000 = Some (mkAttrs 5 MAP_PRIVATE 0 None).
Proof.
  destruct (map_view demo_map 0x2000 0x6000 5 MAP_PRIVATE 0 None demo_map_wf ltac:(lia)) as [Hwf Hv].
  split; [exact Hwf|]. by rewrite Hv.
Defined.

(** [mprotect] of a non-empty range keeps the map well formed, changes the
    protection of exactly the mapped addresses of the range and nothing else. *)
Theorem mprotect_view m s n p m' : wf m → 0 < n → mprotect m s n p = Some m' →
  wf m' ∧ ∀ a, view m' a =
    if bool_decide (s ≤ a < s + n) then
      (λ t, mkAttrs p (a_flags t) (a_offset t) (a_name t)) <$> view m a
    else view m a.
Proof.
  intros Hwf Hn. unfold mprotect. intros (e & [-> _]%add64_Some & [= <-])%bind_Some.
  rewrite protect_splice by (done || lia). set (e := s + n).
  assert (∀ k, k ∈ overlap_keys m s e → ∃ v, m !! k = Some v ∧ pieces_of v (protect_pieces s e p v)) as HP
    by (apply overlap_pieces; [done|]; intros; apply protect_pieces_of; (done || lia)).
  split; [apply splice_all; [done|apply overlap_keys_NoDup|done]|].
  intros a. unfold view. rewrite find_splice_all; [|done|apply overlap_keys_NoDup|done].
  destruct (find m a) as [v|] eqn:Ef; [|by destruct (bool_decide _)].
  apply find_covers in Ef as Hc; [|done]. pose proof Hc as [Hmv Ha].
  case_bool_decide as Hin; rewrite (overlap_keys_covers m s e a v Hwf Hc) in Hin.
  2:{ rewrite bool_decide_eq_false_2 by lia. done. }
  destruct Hin as [H1 H2]. assert (s < e) as Hse by lia.
  pose proof (po_wf _ _ (protect_pieces_of s e p v Hse H1 H2 ltac:(lia))) as HPwf.
  assert (∀ w, protect_pieces s e p v !! start w = Some w → start w ≤ a < end_ w →
    find (protect_pieces s e p v) a = Some w) as Hfind by (intros; by apply find_covers).
  case_bool_decide as Hr; [|destruct (decide (a < s))].
  - rewrite (Hfind (mid_area s e p v)); [done| |cbn; lia].
    rewrite protect_pieces_Some by done. by left.
  - rewrite (Hfind (set_end s v)); [done| |cbn; lia].
    rewrite protect_pieces_Some by done. cbn. right; right. split; [lia|done].
  - rewrite (Hfind (set_start e v)); [done| |cbn; lia].
    rewrite protect_pieces_Some by done. cbn. right; left. split; [lia|done].
Qed.

Lemma mprotect_view_witness : ∃ m', mprotect demo_map 0x2000 0x1000 PROT_READ = Some m' ∧ wf m' ∧
  len m' = 3%nat ∧ view m' 0x2fff = Some (mkAttrs 1 MAP_SHARED 0 (Some "[fd:5]")).
Proof.
  eexists. split; [reflexivity|].
  destruct (mprotect_view demo_map 0x2000 0x1000 PROT_READ _ demo_map_wf ltac:(lia) eq_refl) as [Hwf Hv].
  split; [exact Hwf|]. split; [vm_compute; reflexivity|]. rewrite Hv. vm_compute. reflexivity.
Defined.

(** The file position an address of an area is backed by. *)
Definition file_pos (m : gmap Z Vma) (a : Z) : option Z := (λ v, offset v + (a - start v)) <$> find m a.

(** The right remnant of a split area keeps the offset of the whole area, so
    the recorded file position of an address that stays mapped changes. *)
Lemma right_remnant_offset_stale : ∃ m', unmap demo_map 0x1000 0x1000 = Some m' ∧
  file_pos demo_map 0x3000 = Some 0x2000 ∧ file_pos m' 0x3000 = Some 0x1000.
Proof. eexists. split; [reflexivity|]. vm_compute. done. Qed.
