(* ===== verification/Paging.v ===== *)
(** * AArch64 page tables ([arch/aarch64/paging.rs])

    Physical memory is a byte function; the code reaches it through the HHDM
    alias, whose offset cancels out, so addresses here are physical.  A table
    is a 4 KiB page of 512 little-endian descriptors.  The result type
    [Result<(), ()>] becomes the kernel monad with the single error
    [err_unit].  TLB maintenance and barriers have no effect on this memory
    and are left out. *)

From S2P Require Import Prelude.
From S2P Require Import Pmm.

Definition ENTRIES_PER_TABLE : Z := 512.
Definition PTE_VALID : Z := Z.shiftl 1 0.
Definition PTE_TABLE : Z := Z.shiftl 1 1.
Definition PTE_PAGE : Z := Z.shiftl 1 1.
Definition PTE_AF : Z := Z.shiftl 1 10.
Definition PTE_SH_INNER : Z := Z.shiftl 3 8.
Definition PTE_AP_RW_EL1 : Z := Z.shiftl 0 6.
Definition PTE_AP_RW_ALL : Z := Z.shiftl 1 6.
Definition PTE_AP_RO_EL1 : Z := Z.shiftl 2 6.
Definition PTE_AP_RO_ALL : Z := Z.shiftl 3 6.
Definition PTE_UXN : Z := Z.shiftl 1 54.
Definition PTE_PXN : Z := Z.shiftl 1 53.
Definition PTE_ATTR_NORMAL : Z := Z.shiftl 0 2.
Definition PTE_ATTR_DEVICE : Z := Z.shiftl 1 2.
Definition PTE_NG : Z := Z.shiftl 1 11.
Definition ADDR_MASK : Z := 0x0000FFFFFFFFF000.

(** ** Page attributes *)

Record PageAttr := mkAttr {
  readable : bool; writable : bool; executable : bool; user : bool; device : bool }.

Definition USER_RWX := mkAttr true true true true false.
Definition USER_RW := mkAttr true true false true false.
Definition USER_RX := mkAttr true false true true false.
Definition USER_RO := mkAttr true false false true false.
Definition KERNEL_RW := mkAttr true true false false false.
Definition KERNEL_RWX := mkAttr true true true false false.
Definition DEVICE := mkAttr true true false false true.

Definition to_pte (a : PageAttr) : Z :=
  let flags := PTE_SH_INNER in
  let flags := if device a then Z.lor flags PTE_ATTR_DEVICE else Z.lor flags PTE_ATTR_NORMAL in
  if user a then
    let flags := Z.lor flags PTE_NG in
    let flags := if writable a then Z.lor flags PTE_AP_RW_ALL else Z.lor flags PTE_AP_RO_ALL in
    let flags := if executable a then flags else Z.lor flags PTE_UXN in
    Z.lor flags PTE_PXN
  else
    let flags := if writable a then Z.lor flags PTE_AP_RW_EL1 else Z.lor flags PTE_AP_RO_EL1 in
    let flags := if executable a then flags else Z.lor flags PTE_PXN in
    Z.lor flags PTE_UXN.

(** ** Memory *)

Record Mach := mkMach { mpmm : Pmm.BitmapAllocator; mem : Z → Z }.

Definition set_pmm (p : Pmm.BitmapAllocator) (s : Mach) : Mach := mkMach p (mem s).
Definition set_mem (f : Z → Z) (s : Mach) : Mach := mkMach (mpmm s) f.

Definition lift_pmm {A} (m : M Pmm.BitmapAllocator A) : M Mach A := λ s,
  let '(r, p) := m (mpmm s) in (r, set_pmm p s).

Definition rd64 (f : Z → Z) (a : Z) : Z := from_le ((λ i, f (a + i)) <$> seqZ 0 8).
Definition wr64 (f : Z → Z) (a v : Z) : Z → Z := λ x,
  if bool_decide (a ≤ x < a + 8) then v / 256 ^ (x - a) mod 256 else f x.

(** [ptr::write_bytes(p, 0, 4096)] *)
Definition zero_page (f : Z → Z) (p : Z) : Z → Z := λ x,
  if bool_decide (p ≤ x < p + 4096) then 0 else f x.

(** [copy_nonoverlapping] of kernel bytes to memory, and back. *)
Definition wr_bytes (f : Z → Z) (a : Z) (data : list Z) : Z → Z := λ x,
  if bool_decide (a ≤ x < a + Z.of_nat (length data)) then default 0 (data !! Z.to_nat (x - a)) else f x.
Definition rd_bytes (f : Z → Z) (a : Z) (n : nat) : list Z := (λ i, f (a + i)) <$> seqZ 0 (Z.of_nat n).

Definition read64 (a : Z) : M Mach Z := gets (λ s, rd64 (mem s) a).
Definition write64 (a v : Z) : M Mach () := modify (λ s, set_mem (wr64 (mem s) a v) s).
Definition write_zero_page (p : Z) : M Mach () := modify (λ s, set_mem (zero_page (mem s) p) s).

Definition alloc_table_page : M Mach (option Z) :=
  let! o := lift_pmm Pmm.alloc_page in
  match o with
  | None => ret None
  | Some phys => write_zero_page phys ;;; ret (Some phys)
  end.

(** ** Walks *)

Definition err_unit : Z := -1.

Definition valid (e : Z) : bool := has e PTE_VALID.
Definition pte_addr (e : Z) : Z := Z.land e ADDR_MASK.

(** [(virt >> (39 - 9 level)) & 0x1FF] *)
Definition index (virt : Z) (level : nat) : Z :=
  Z.land (Z.shiftr virt (39 - 9 * Z.of_nat level)) 0x1FF.

Definition slot (table i : Z) : Z := table + 8 * i.

(** [AddressSpace::new] *)
Definition aspace_new : M Mach (option Z) := alloc_table_page.

(** The [for level in 0..3] loop of [map_page]. *)
Fixpoint walk_create (root virt : Z) (levels : list nat) (table_phys : Z) : M Mach Z :=
  match levels with
  | [] => ret table_phys
  | level :: levels' =>
      let a := slot table_phys (index virt level) in
      let! entry := read64 a in
      if valid entry then walk_create root virt levels' (pte_addr entry)
      else
        let! o := alloc_table_page in
        let! new_table := ok_or o err_unit in
        if new_table =? root then fail err_unit
        else
          let new_entry := Z.lor (Z.lor new_table PTE_VALID) PTE_TABLE in
          write64 a new_entry ;;;
          let! verify := read64 a in
          if verify =? new_entry then walk_create root virt levels' new_table
          else fail err_unit
  end.

Definition leaf_entry (phys : Z) (pte_flags : Z) : Z :=
  Z.lor (Z.lor (Z.lor (Z.lor (Z.land phys ADDR_MASK) pte_flags) PTE_VALID) PTE_PAGE) PTE_AF.

Definition map_page (root virt phys : Z) (flags : PageAttr) : M Mach () :=
  let pte_flags := to_pte flags in
  let! l3 := walk_create root virt [0; 1; 2]%nat root in
  write64 (slot l3 (index virt 3)) (leaf_entry phys pte_flags).

(** [map_range] and [map_anon]; [size + PAGE_SIZE - 1] and the address sums
    may overflow. *)
Definition pages_of (size : Z) : option Z :=
  x ← add64 size Pmm.PAGE_SIZE; Some ((x - 1) / Pmm.PAGE_SIZE).

Definition map_range (root virt_start phys_start size : Z) (flags : PageAttr) : M Mach () :=
  let! pages := or_panic (pages_of size) in
  for_each (seqZ 0 pages) (λ i,
    let offset := i * Pmm.PAGE_SIZE in
    let! v := or_panic (add64 virt_start offset) in
    let! p := or_panic (add64 phys_start offset) in
    map_page root v p flags).

Definition map_anon (root virt_start size : Z) (flags : PageAttr) : M Mach () :=
  let! pages := or_panic (pages_of size) in
  for_each (seqZ 0 pages) (λ i,
    let! o := lift_pmm Pmm.alloc_page in
    let! phys := ok_or o err_unit in
    write_zero_page phys ;;;
    let! v := or_panic (add64 virt_start (i * Pmm.PAGE_SIZE)) in
    map_page root v phys flags).

(** The read-only walk shared by [unmap_page] and [translate]. *)
Fixpoint walk (f : Z → Z) (virt : Z) (levels : list nat) (table_phys : Z) : option Z :=
  match levels with
  | [] => Some table_phys
  | level :: levels' =>
      let entry := rd64 f (slot table_phys (index virt level)) in
      if valid entry then walk f virt levels' (pte_addr entry) else None
  end.

Definition unmap_page (root virt : Z) : M Mach (option Z) :=
  let! s := get in
  match walk (mem s) virt [0; 1; 2]%nat root with
  | None => ret None
  | Some l3 =>
      let a := slot l3 (index virt 3) in
      let! entry := read64 a in
      if valid entry then write64 a 0 ;;; ret (Some (pte_addr entry)) else ret None
  end.

Definition translate (f : Z → Z) (root virt : Z) : option Z :=
  match walk f virt [0; 1; 2]%nat root with
  | None => None
  | Some l3 =>
      let entry := rd64 f (slot l3 (index virt 3)) in
      if valid entry then Some (Z.lor (pte_addr entry) (Z.land virt 0xFFF)) else None
  end.

(** [AddressSpace::copy_to_user]: one chunk per page; every chunk is at least
    one byte, so [length data] rounds are enough fuel.  [uaddr] is
    [user_virt + offset], whose overflow panics. *)
Fixpoint copy_to_user_loop (fuel : nat) (root uaddr : Z) (data : list Z) : M Mach () :=
  match fuel with
  | O => ret tt
  | S fuel' =>
      match data with
      | [] => ret tt
      | _ =>
          let! uaddr := or_panic (add64 uaddr 0) in
          let page_offset := Z.land uaddr 0xFFF in
          let chunk := Z.min (Pmm.PAGE_SIZE - page_offset) (Z.of_nat (length data)) in
          let! s := get in
          let! phys := ok_or (translate (mem s) root uaddr) err_unit in
          put (set_mem (wr_bytes (mem s) phys (take (Z.to_nat chunk) data)) s) ;;;
          copy_to_user_loop fuel' root (uaddr + chunk) (drop (Z.to_nat chunk) data)
      end
  end.

Definition copy_to_user (root user_virt : Z) (data : list Z) : M Mach () :=
  copy_to_user_loop (length data) root user_virt data.

Fixpoint copy_from_user_loop (fuel : nat) (root uaddr : Z) (n : nat) : M Mach (list Z) :=
  match fuel with
  | O => ret []
  | S fuel' =>
      match n with
      | O => ret []
      | _ =>
          let! uaddr := or_panic (add64 uaddr 0) in
          let page_offset := Z.land uaddr 0xFFF in
          let chunk := Z.to_nat (Z.min (Pmm.PAGE_SIZE - page_offset) (Z.of_nat n)) in
          let! s := get in
          let! phys := ok_or (translate (mem s) root uaddr) err_unit in
          let bytes := rd_bytes (mem s) phys chunk in
          let! rest := copy_from_user_loop fuel' root (uaddr + Z.of_nat chunk) (n - chunk) in
          ret (bytes ++ rest)
      end
  end.

Definition copy_from_user (root user_virt : Z) (n : nat) : M Mach (list Z) :=
  copy_from_user_loop n root user_virt n.

(** The free functions used by architecture-neutral code. *)
Definition translate_user_va (root_phys va : Z) : M Mach (option Z) :=
  gets (λ s, translate (mem s) root_phys va).

Definition map_user_page (root_phys virt phys : Z) (flags : PageAttr) : M Mach () :=
  ignore (map_page root_phys virt phys flags).

Definition unmap_user_page (root_phys virt : Z) : M Mach (option Z) := unmap_page root_phys virt.

(** ** Kernel mappings of device memory

    [ttbr1] is the value of TTBR1_EL1 and [hhdm] the HHDM offset; both come
    from the bootloader. *)

(** [fix_device_mmio_attrs]: rewrite the 1 GiB block of L1[0]. *)
Definition fix_device_mmio_attrs (ttbr1 : Z) : M Mach () :=
  let l0_phys := pte_addr ttbr1 in
  let! l0_entry := read64 l0_phys in
  if Z.land l0_entry 3 =? 3 then
    let l1_phys := pte_addr l0_entry in
    let! l1_0 := read64 l1_phys in
    when ((Z.land l1_0 1 =? 1) && (Z.land l1_0 2 =? 0))
      (let phys_addr := Z.land l1_0 0x0000FFFFC0000000 in
       let new_entry := Z.lor (Z.lor (Z.lor (Z.lor (Z.lor (Z.lor phys_addr (Z.shiftl 1 0))
         PTE_ATTR_DEVICE) PTE_SH_INNER) (Z.shiftl 1 10)) PTE_PXN) PTE_UXN in
       write64 l1_phys new_entry)
  else ret tt.

(** The walk of [map_device_mmio]: the [break] on a block entry leaves
    [table_phys] at the table that holds the block. *)
Fixpoint device_walk (virt : Z) (levels : list nat) (table_phys : Z) : M Mach Z :=
  match levels with
  | [] => ret table_phys
  | level :: levels' =>
      let a := slot table_phys (index virt level) in
      let! entry := read64 a in
      if Z.land entry 3 =? 3 then device_walk virt levels' (pte_addr entry)
      else if (Z.land entry 1 =? 1) && (Z.land entry 2 =? 0) && bool_decide (0 < level)%nat then
        ret table_phys
      else
        let! o := lift_pmm Pmm.alloc_page in
        let! new_table := or_panic o in
        write_zero_page new_table ;;;
        write64 a (Z.lor new_table 3) ;;;
        device_walk virt levels' new_table
  end.

Definition map_device_page (ttbr1 hhdm addr : Z) : M Mach () :=
  let! virt := or_panic (add64 addr hhdm) in
  let! table_phys := device_walk virt [0; 1; 2]%nat (pte_addr ttbr1) in
  let a := slot table_phys (index virt 3) in
  let! existing := read64 a in
  when (Z.land existing 1 =? 0)
    (write64 a (Z.lor (Z.lor (Z.lor (Z.land addr ADDR_MASK) (to_pte DEVICE)) 3) (Z.shiftl 1 10))).

(** [phys_start + size + 0xFFF] may overflow. *)
Definition map_device_mmio (ttbr1 hhdm phys_start size : Z) : M Mach () :=
  let addr := Z.land phys_start (not64 0xFFF) in
  let! e := or_panic (add64 phys_start size) in
  let! e := or_panic (add64 e 0xFFF) in
  let end_ := Z.land e (not64 0xFFF) in
  for_each (seqZ 0 ((end_ - addr) / Pmm.PAGE_SIZE))
    (λ i, map_device_page ttbr1 hhdm (addr + i * Pmm.PAGE_SIZE)).

(** ** Descriptor arithmetic *)

Lemma mask_arith e : Z.land e ADDR_MASK = (e / 4096) mod 2 ^ 36 * 4096.
Proof.
  replace ADDR_MASK with (Z.shiftl (Z.ones 36) 12) by reflexivity.
  change 4096 with (2 ^ 12). rewrite <- Z.shiftr_div_pow2, <- Z.shiftl_mul_pow2 by lia.
  rewrite <- Z.land_ones by lia. apply Z.bits_inj'. intros i Hi.
  rewrite Z.land_spec, !Z.shiftl_spec by lia. destruct (decide (i < 12)).
  - rewrite !(Z.testbit_neg_r _ (i - 12)) by lia. by rewrite andb_false_r.
  - rewrite Z.land_spec, Z.shiftr_spec by lia. by replace (i - 12 + 12) with i by lia.
Qed.

Lemma pte_addr_lor a f : Z.land f ADDR_MASK = 0 → pte_addr (Z.lor a f) = pte_addr a.
Proof. intros E. unfold pte_addr. by rewrite Z.land_lor_distr_l, E, Z.lor_0_r. Qed.

Lemma to_pte_mask a : Z.land (to_pte a) ADDR_MASK = 0.
Proof. by destruct a as [[] [] [] [] []]; vm_compute. Qed.

Lemma pte_addr_page p : 0 ≤ p < 2 ^ 36 → pte_addr (p * 4096) = p * 4096.
Proof. intros Hp. unfold pte_addr. rewrite mask_arith. lia. Qed.

Lemma pte_addr_idemp e : pte_addr (Z.land e ADDR_MASK) = Z.land e ADDR_MASK.
Proof. unfold pte_addr. by rewrite <- Z.land_assoc. Qed.

Lemma table_entry_addr t : pte_addr (Z.lor (Z.lor t PTE_VALID) PTE_TABLE) = pte_addr t.
Proof. by rewrite !pte_addr_lor. Qed.

Lemma leaf_entry_addr phys a : pte_addr (leaf_entry phys (to_pte a)) = Z.land phys ADDR_MASK.
Proof.
  unfold leaf_entry. rewrite !pte_addr_lor by done. rewrite pte_addr_lor by apply to_pte_mask.
  apply pte_addr_idemp.
Qed.

Lemma valid_testbit e : valid e = Z.testbit e 0.
Proof. unfold valid, PTE_VALID. by rewrite has_shl1. Qed.

Lemma table_entry_valid t : valid (Z.lor (Z.lor t PTE_VALID) PTE_TABLE) = true.
Proof. rewrite valid_testbit, !Z.lor_spec. cbn. by rewrite orb_true_r. Qed.

Lemma leaf_entry_valid phys f : valid (leaf_entry phys f) = true.
Proof. unfold leaf_entry. rewrite valid_testbit, !Z.lor_spec. cbn. by rewrite !orb_true_r. Qed.

Lemma valid_0 : valid 0 = false.
Proof. done. Qed.

Lemma index_range virt l : 0 ≤ index virt l < 512.
Proof.
  unfold index. change 0x1FF with (Z.ones 9). rewrite Z.land_ones by lia. apply Z.mod_pos_bound. lia.
Qed.

Lemma index_arith virt l : (l ≤ 3)%nat → index virt l = (virt / 2 ^ (39 - 9 * Z.of_nat l)) mod 512.
Proof.
  intros. unfold index. change 0x1FF with (Z.ones 9). rewrite Z.land_ones, Z.shiftr_div_pow2 by lia. done.
Qed.

(** The 36-bit virtual page number, all that a walk looks at. *)
Definition vpage (virt : Z) : Z := (virt / 4096) mod 2 ^ 36.

Lemma vpage_index v v' : vpage v = vpage v' ↔ ∀ l, (l ≤ 3)%nat → index v l = index v' l.
Proof.
  unfold vpage. split.
  - intros E l Hl. rewrite !index_arith by done.
    destruct l as [|[|[|[|]]]]; [..|lia]; cbn [Z.of_nat Pos.of_succ_nat Pos.succ];
      [change (2 ^ (39 - 9 * 0)) with 549755813888|change (2 ^ (39 - 9 * 1)) with 1073741824|
       change (2 ^ (39 - 9 * 2)) with 2097152|change (2 ^ (39 - 9 * 3)) with 4096]; lia.
  - intros E. pose proof (E 0%nat ltac:(lia)) as E0. pose proof (E 1%nat ltac:(lia)) as E1.
    pose proof (E 2%nat ltac:(lia)) as E2. pose proof (E 3%nat ltac:(lia)) as E3.
    rewrite !index_arith in * by lia.
    change (2 ^ (39 - 9 * Z.of_nat 0)) with 549755813888 in *. change (2 ^ (39 - 9 * Z.of_nat 1)) with 1073741824 in *.
    change (2 ^ (39 - 9 * Z.of_nat 2)) with 2097152 in *. change (2 ^ (39 - 9 * Z.of_nat 3)) with 4096 in *.
    lia.
Qed.

(** ** Memory lemmas *)

Lemma rd64_ext f g a : (∀ x, a ≤ x < a + 8 → f x = g x) → rd64 f a = rd64 g a.
Proof.
  intros H. unfold rd64. f_equal. apply list_fmap_ext. intros i x Hx%list_elem_of_lookup_2%elem_of_seqZ.
  apply H. lia.
Qed.

Lemma rd64_wr64_same f a v : u64_ok v → rd64 (wr64 f a v) a = v.
Proof.
  intros Hv. unfold rd64. replace ((λ i, wr64 f a v (a + i)) <$> seqZ 0 8) with (to_le 8 v).
  - rewrite from_to_le. apply Z.mod_small. unfold u64_ok in Hv. lia.
  - apply list_eq_same_length with 8%nat; [by rewrite length_fmap, length_seqZ|by rewrite length_to_le|].
    intros i x y Hi Hx Hy. rewrite to_le_lookup in Hx by done.
    rewrite list_lookup_fmap, lookup_seqZ_lt in Hy by lia. simplify_eq/=.
    unfold wr64. rewrite bool_decide_eq_true_2 by lia. do 3 f_equal. lia.
Qed.

Lemma rd64_wr64_other f a b v : a + 8 ≤ b ∨ b + 8 ≤ a → rd64 (wr64 f a v) b = rd64 f b.
Proof.
  intros H. apply rd64_ext. intros x Hx. unfold wr64. by rewrite bool_decide_eq_false_2 by lia.
Qed.

Lemma rd64_zero_page_in f p a : p ≤ a → a + 8 ≤ p + 4096 → rd64 (zero_page f p) a = 0.
Proof.
  intros H1 H2. rewrite (rd64_ext _ (λ _, 0)); [done|].
  intros x Hx. unfold zero_page. by rewrite bool_decide_eq_true_2 by lia.
Qed.

Lemma rd64_zero_page_out f p a : a + 8 ≤ p ∨ p + 4096 ≤ a → rd64 (zero_page f p) a = rd64 f a.
Proof.
  intros H. apply rd64_ext. intros x Hx. unfold zero_page. by rewrite bool_decide_eq_false_2 by lia.
Qed.

(** Slots of page-aligned tables are equal or do not overlap. *)
Lemma slot_apart t t' i i' : t mod 4096 = 0 → t' mod 4096 = 0 → 0 ≤ i < 512 → 0 ≤ i' < 512 →
  (t ≠ t' ∨ i ≠ i') → slot t i + 8 ≤ slot t' i' ∨ slot t' i' + 8 ≤ slot t i.
Proof. unfold slot. intros. lia. Qed.

(** ** The table tree

    [lv] is a ghost map from table address to level.  Every valid descriptor
    of a table above level 3 points to a table one level down, no table has
    two parents, and every table is a page the allocator considers used. *)

Definition entry (f : Z → Z) (t i : Z) : Z := rd64 f (slot t i).

Record tree (s : Mach) (root : Z) (lv : gmap Z nat) : Prop := {
  tree_pmm : Pmm.pmm_inv (mpmm s);
  tree_root : lv !! root = Some 0%nat;
  tree_level t l : lv !! t = Some l → (l ≤ 3)%nat;
  tree_page t l : lv !! t = Some l →
    ∃ p, t = p * 4096 ∧ Pmm.page_ok p ∧ Pmm.page_used (mpmm s) p = true;
  tree_child t l i : lv !! t = Some l → (l < 3)%nat → 0 ≤ i < 512 →
    valid (entry (mem s) t i) = true → lv !! pte_addr (entry (mem s) t i) = Some (S l);
  tree_inj t t' l l' i i' : lv !! t = Some l → (l < 3)%nat → lv !! t' = Some l' → (l' < 3)%nat →
    0 ≤ i < 512 → 0 ≤ i' < 512 →
    valid (entry (mem s) t i) = true → valid (entry (mem s) t' i') = true →
    pte_addr (entry (mem s) t i) = pte_addr (entry (mem s) t' i') → t = t' ∧ i = i'
}.

Lemma tree_aligned s root lv t l : tree s root lv → lv !! t = Some l → t mod 4096 = 0.
Proof. intros Ht Hl. destruct (tree_page _ _ _ Ht _ _ Hl) as (p & -> & _). lia. Qed.

(** Walk along explicit indices, then read the last descriptor. *)
Fixpoint path (f : Z → Z) (ix : list Z) (t : Z) : option Z :=
  match ix with
  | [] => Some t
  | i :: ix' => if valid (entry f t i) then path f ix' (pte_addr (entry f t i)) else None
  end.

Definition leaf (f : Z → Z) (ix : list Z) (j t : Z) : option Z :=
  match path f ix t with
  | Some t' => if valid (entry f t' j) then Some (entry f t' j) else None
  | None => None
  end.

Definition indices (virt : Z) : list Z := [index virt 0; index virt 1; index virt 2].

Lemma walk_path f virt ls t : walk f virt ls t = path f (index virt <$> ls) t.
Proof.
  revert t. induction ls as [|l ls IH]; intros t; cbn; [done|]. unfold entry.
  destruct (valid _); [apply IH|done].
Qed.

Lemma translate_leaf f root virt :
  translate f root virt =
  (λ e, Z.lor (pte_addr e) (Z.land virt 0xFFF)) <$> leaf f (indices virt) (index virt 3) root.
Proof.
  unfold translate, leaf. rewrite walk_path. unfold indices. cbn [fmap list_fmap].
  destruct (path _ _ _); [|done]. unfold entry. by destruct (valid _).
Qed.

Lemma path_app f ix js t : path f (ix ++ js) t = t' ← path f ix t; path f js t'.
Proof. revert t. induction ix as [|i ix IH]; intros t; cbn; [done|]. destruct (valid _); [apply IH|done]. Qed.

Definition idx_ok (i : Z) : Prop := 0 ≤ i < 512.

Lemma path_level s root lv ix t : tree s root lv → Forall idx_ok ix → (length ix ≤ 3)%nat →
  path (mem s) ix root = Some t → lv !! t = Some (length ix).
Proof.
  intros Ht. revert t. induction ix as [|i ix IH] using rev_ind; intros t Hok Hlen.
  - intros [= <-]. apply Ht.
  - apply Forall_app in Hok as [Hok [Hi _]%Forall_cons]. rewrite length_app in Hlen |- *. cbn in *.
    rewrite path_app. intros (t1 & H1 & H2)%bind_Some. cbn in H2.
    destruct (valid (entry (mem s) t1 i)) eqn:Ev; [|done]. simplify_eq.
    rewrite (tree_child _ _ _ Ht t1 (length ix)); [f_equal; lia|apply IH; (done || lia)|lia|done|done].
Qed.

(** Two walks of the same length that meet took the same indices. *)
Lemma path_inj s root lv ix ix' t : tree s root lv → Forall idx_ok ix → Forall idx_ok ix' →
  length ix = length ix' → (length ix ≤ 3)%nat →
  path (mem s) ix root = Some t → path (mem s) ix' root = Some t → ix = ix'.
Proof.
  intros Ht. revert ix' t. induction ix as [|i ix IH] using rev_ind; intros ix' t Hok Hok' Hlen Hle.
  - by destruct ix'.
  - destruct ix' as [|i' ix' _] using rev_ind; [rewrite length_app in Hlen; cbn in Hlen; lia|].
    rewrite !length_app in *. cbn in *.
    apply Forall_app in Hok as [Hok [Hi _]%Forall_cons]. apply Forall_app in Hok' as [Hok' [Hi' _]%Forall_cons].
    rewrite !path_app. intros (t1 & H1 & H2)%bind_Some (t2 & H3 & H4)%bind_Some. cbn in H2, H4.
    destruct (valid (entry (mem s) t1 i)) eqn:E1; [|done]. destruct (valid (entry (mem s) t2 i')) eqn:E2; [|done].
    simplify_eq. destruct (tree_inj _ _ _ Ht t1 t2 (length ix) (length ix') i i') as [-> ->]; try done.
    + eapply path_level; (done || lia).
    + lia.
    + eapply path_level; (done || lia).
    + lia.
    + f_equal. eapply IH; (done || lia).
Qed.

(** ** Adding a table *)

Lemma free_not_table s root lv q : tree s root lv → Pmm.page_used (mpmm s) q = false → lv !! (q * 4096) = None.
Proof.
  intros Ht Hf. destruct (lv !! (q * 4096)) as [l'|] eqn:E; [|done].
  destruct (tree_page _ _ _ Ht _ _ E) as (p & Ep & _ & Hu).
  assert (p = q) as -> by lia. congruence.
Qed.

Lemma table_entry_ok q : Pmm.page_ok q → u64_ok (Z.lor (Z.lor (q * 4096) PTE_VALID) PTE_TABLE).
Proof.
  intros Hq. apply u64_lor; [apply u64_lor|]; [|by apply u64_shl1..].
  assert (0 ≤ q < Pmm.MAX_PAGES) as Hq' by exact Hq. unfold Pmm.MAX_PAGES in Hq'. unfold u64_ok. lia.
Qed.

Lemma table_entry_page q : Pmm.page_ok q → pte_addr (Z.lor (Z.lor (q * 4096) PTE_VALID) PTE_TABLE) = q * 4096.
Proof.
  intros Hq. rewrite table_entry_addr. apply pte_addr_page.
  assert (0 ≤ q < Pmm.MAX_PAGES) as Hq' by exact Hq. unfold Pmm.MAX_PAGES in Hq'. lia.
Qed.

Section Create.
Context (s : Mach) (root : Z) (lv : gmap Z nat) (Ht : tree s root lv).
Context (q : Z) (Hq : Pmm.page_ok q) (Hfree : Pmm.page_used (mpmm s) q = false).
Context (p' : Pmm.BitmapAllocator) (Hflip : Pmm.flips (mpmm s) q true p').
Context (t i : Z) (l : nat) (Hlv : lv !! t = Some l) (Hl : (l < 3)%nat) (Hi : idx_ok i).
Context (Hinv : valid (entry (mem s) t i) = false).

Let new_table : Z := q * 4096.
Let new_entry : Z := Z.lor (Z.lor new_table PTE_VALID) PTE_TABLE.
Let s' : Mach := mkMach p' (wr64 (zero_page (mem s) new_table) (slot t i) new_entry).

Lemma new_fresh : lv !! new_table = None.
Proof. apply (free_not_table s root lv q Ht Hfree). Qed.

Lemma new_entry_ok : u64_ok new_entry.
Proof. apply (table_entry_ok q Hq). Qed.

Lemma new_entry_addr : pte_addr new_entry = new_table.
Proof. apply (table_entry_page q Hq). Qed.

Lemma create_entry u lu k : lv !! u = Some lu → idx_ok k →
  entry (mem s') u k = if bool_decide (u = t ∧ k = i) then new_entry else entry (mem s) u k.
Proof.
  intros Hu Hk. unfold entry, s'. cbn [mem]. case_bool_decide as Hd.
  - destruct Hd as [-> ->]. apply rd64_wr64_same, new_entry_ok.
  - pose proof (tree_aligned _ _ _ _ _ Ht Hu). pose proof (tree_aligned _ _ _ _ _ Ht Hlv).
    assert (0 ≤ k < 512 ∧ 0 ≤ i < 512) as [? ?] by done.
    rewrite rd64_wr64_other by (apply slot_apart; (done || lia)).
    apply rd64_zero_page_out. assert (u ≠ new_table) by (intros ->; rewrite new_fresh in Hu; done).
    assert (new_table mod 4096 = 0) by (unfold new_table; lia). unfold slot. lia.
Qed.

Lemma create_entry_new k : idx_ok k → entry (mem s') new_table k = 0.
Proof.
  intros Hk. unfold entry, s'. cbn [mem]. pose proof (tree_aligned _ _ _ _ _ Ht Hlv).
  assert (t ≠ new_table) by (intros E; pose proof Hlv as Hx; rewrite E, new_fresh in Hx; done).
  assert (new_table mod 4096 = 0) by (unfold new_table; lia).
  assert (0 ≤ k < 512 ∧ 0 ≤ i < 512) as [? ?] by done.
  rewrite rd64_wr64_other by (apply slot_apart; (done || lia)).
  apply rd64_zero_page_in; unfold slot; lia.
Qed.

Lemma create_tree : tree s' root (<[new_table := S l]> lv).
Proof.
  pose proof new_fresh as Hnew.
  assert (∀ u lu, <[new_table := S l]> lv !! u = Some lu →
    (u = new_table ∧ lu = S l) ∨ (u ≠ new_table ∧ lv !! u = Some lu)) as Hcase
    by (intros u lu; rewrite lookup_insert_Some; naive_solver).
  assert (∀ u lu, lv !! u = Some lu → <[new_table := S l]> lv !! u = Some lu) as Hold.
  { intros u lu Hu. rewrite lookup_insert_ne; [done|]. intros <-. congruence. }
  constructor.
  - apply Hflip.
  - apply Hold, Ht.
  - intros u lu [[-> ->]|[_ Hu]]%Hcase; [lia|by eapply (tree_level _ _ _ Ht)].
  - intros u lu [[-> ->]|[_ Hu]]%Hcase.
    + exists q. split; [done|]. split; [done|]. cbn. rewrite (Pmm.flips_used _ _ _ _ Hflip) by apply Hq.
      by rewrite bool_decide_eq_true_2.
    + destruct (tree_page _ _ _ Ht _ _ Hu) as (p & -> & Hp & Hup). exists p. split; [done|]. split; [done|].
      cbn. rewrite (Pmm.flips_used _ _ _ _ Hflip) by apply Hp. by case_bool_decide.
  - intros u lu k [[-> ->]|[_ Hu]]%Hcase Hlu Hk Hv.
    + by rewrite create_entry_new in Hv.
    + rewrite (create_entry u lu k) in Hv |- * by done. case_bool_decide as Hd.
      * destruct Hd as [-> ->]. rewrite new_entry_addr. rewrite Hlv in Hu. simplify_eq. by rewrite lookup_insert_eq.
      * apply Hold. by eapply (tree_child _ _ _ Ht).
  - intros u u' lu lu' k k' [[-> ->]|[_ Hu]]%Hcase Hlu [[-> ->]|[_ Hu']]%Hcase Hlu' Hk Hk' Hv Hv' E;
      try (by rewrite create_entry_new in Hv); try (by rewrite create_entry_new in Hv').
    rewrite (create_entry u lu k) in Hv, E by done. rewrite (create_entry u' lu' k') in Hv', E by done.
    repeat case_bool_decide; try naive_solver.
    + exfalso. rewrite new_entry_addr in E. apply (tree_child _ _ _ Ht _ _ _ Hu' Hlu' Hk') in Hv'. congruence.
    + exfalso. rewrite new_entry_addr in E. apply (tree_child _ _ _ Ht _ _ _ Hu Hlu Hk) in Hv. congruence.
    + by eapply (tree_inj _ _ _ Ht).
Qed.

(** The new table is empty, so no leaf descriptor appears or disappears. *)
Lemma create_leaf ix : ∀ u lu j, lv !! u = Some lu → (length ix + lu = 3)%nat → Forall idx_ok ix → idx_ok j →
  leaf (mem s') ix j u = leaf (mem s) ix j u.
Proof.
  induction ix as [|k ix IH]; intros u lu j Hu Hlen Hok Hj; unfold leaf in *; cbn [path length] in *.
  - rewrite (create_entry u lu j) by done. rewrite bool_decide_eq_false_2; [done|].
    intros [-> _]. rewrite Hlv in Hu. simplify_eq. lia.
  - apply Forall_cons in Hok as [Hk Hok]. rewrite (create_entry u lu k) by done.
    case_bool_decide as Hd.
    + destruct Hd as [-> ->]. rewrite Hinv. unfold new_entry. rewrite table_entry_valid. fold new_entry.
      rewrite new_entry_addr. destruct ix as [|k' ix]; cbn [path].
      * by rewrite create_entry_new.
      * apply Forall_cons in Hok as [Hk' _]. by rewrite create_entry_new.
    + destruct (valid (entry (mem s) u k)) eqn:Ev; [|done].
      apply (IH _ (S lu)); [|lia|done|done]. eapply (tree_child _ _ _ Ht); (done || lia).
Qed.

Lemma create_path ix : ∀ u lu x, lv !! u = Some lu → (length ix + lu ≤ 3)%nat → Forall idx_ok ix →
  path (mem s) ix u = Some x → path (mem s') ix u = Some x.
Proof.
  induction ix as [|k ix IH]; intros u lu x Hu Hlen Hok; cbn [path length] in *; [done|].
  apply Forall_cons in Hok as [Hk Hok]. rewrite (create_entry u lu k) by done.
  destruct (valid (entry (mem s) u k)) eqn:Ev; [|done]. intros Hp.
  rewrite bool_decide_eq_false_2 by (intros [-> ->]; congruence). rewrite Ev.
  apply (IH _ (S lu)); [|lia|done|done]. eapply (tree_child _ _ _ Ht); (done || lia).
Qed.

Lemma create_frame x : ~ (new_table ≤ x < new_table + 4096) → ~ (t ≤ x < t + 4096) → mem s' x = mem s x.
Proof.
  intros H1 H2. assert (0 ≤ i < 512) by exact Hi. unfold s'. cbn [mem]. unfold wr64.
  rewrite bool_decide_eq_false_2 by (unfold slot; lia). unfold zero_page. by rewrite bool_decide_eq_false_2.
Qed.
End Create.

(** ** What a walk that creates tables may change *)

Definition in_table (lv : gmap Z nat) (x : Z) : Prop := ∃ t l, lv !! t = Some l ∧ t ≤ x < t + 4096.

(** From [s] to [s'] tables were only added: leaf descriptors and existing
    walks are as before, memory outside tables is untouched, and pages in use
    stay in use; a new table is a page that was free. *)
Record grows (root : Z) (s : Mach) (lv : gmap Z nat) (s' : Mach) (lv' : gmap Z nat) : Prop := {
  grows_tree : tree s' root lv';
  grows_sub t l : lv !! t = Some l → lv' !! t = Some l;
  grows_new t l : lv' !! t = Some l → lv !! t = Some l ∨ Pmm.page_used (mpmm s) (t / 4096) = false;
  grows_used p : 0 ≤ p → Pmm.page_used (mpmm s) p = true → Pmm.page_used (mpmm s') p = true;
  grows_leaf ix j : length ix = 3%nat → Forall idx_ok ix → idx_ok j →
    leaf (mem s') ix j root = leaf (mem s) ix j root;
  grows_path ix x : (length ix ≤ 3)%nat → Forall idx_ok ix →
    path (mem s) ix root = Some x → path (mem s') ix root = Some x;
  grows_frame x : ~ in_table lv' x → mem s' x = mem s x
}.

Lemma grows_refl root s lv : tree s root lv → grows root s lv s lv.
Proof. intros Ht. constructor; auto. Qed.

Lemma grows_trans root s1 lv1 s2 lv2 s3 lv3 :
  grows root s1 lv1 s2 lv2 → grows root s2 lv2 s3 lv3 → grows root s1 lv1 s3 lv3.
Proof.
  intros [T1 S1 N1 U1 L1 P1 F1] [T2 S2 N2 U2 L2 P2 F2]. constructor; auto.
  - intros t l H3. destruct (N2 _ _ H3) as [H2|Hf]; [by apply N1 in H2|]. right.
    destruct (tree_page _ _ _ T2 _ _ H3) as (p & -> & Hp & _).
    replace (p * 4096 / 4096) with p in * by lia.
    apply not_true_iff_false. intros Hu. apply U1 in Hu; [congruence|apply Hp].
  - intros ix j Hl Hok Hj. rewrite L2, L1 by done. done.
  - intros x Hx. rewrite F2 by done. apply F1. intros (t & l & Ht & Hx'). apply Hx. exists t, l. auto.
Qed.

Lemma alloc_table_page_cases s root lv : tree s root lv →
  (∃ q p', alloc_table_page s = (Ok (Some (q * 4096)), mkMach p' (zero_page (mem s) (q * 4096))) ∧
     Pmm.page_ok q ∧ Pmm.page_used (mpmm s) q = false ∧ Pmm.flips (mpmm s) q true p') ∨
  (alloc_table_page s = (Ok None, s) ∧ Pmm.free_pages (mpmm s) = 0).
Proof.
  intros Ht. destruct (Pmm.alloc_page_cases (mpmm s) (tree_pmm _ _ _ Ht)) as
    [(q & p' & E & Hq & Hf & _ & Hfl)|(E & _ & H0)]; [left|right];
    unfold alloc_table_page, lift_pmm, bind; rewrite E.
  - exists q, p'. done.
  - split; [by destruct s|done].
Qed.

(** One round of the loop on an invalid descriptor adds one empty table. *)
Lemma create_grows s root lv q p' t i l : tree s root lv → Pmm.page_ok q →
  Pmm.page_used (mpmm s) q = false → Pmm.flips (mpmm s) q true p' →
  lv !! t = Some l → (l < 3)%nat → idx_ok i → valid (entry (mem s) t i) = false →
  grows root s lv
    (mkMach p' (wr64 (zero_page (mem s) (q * 4096)) (slot t i) (Z.lor (Z.lor (q * 4096) PTE_VALID) PTE_TABLE)))
    (<[q * 4096 := S l]> lv).
Proof.
  intros Ht Hq Hf Hfl Hlv Hl Hi Hv.
  assert (lv !! (q * 4096) = None) as Hnew by (by eapply free_not_table). constructor.
  - by apply create_tree.
  - intros u lu Hu. rewrite lookup_insert_ne; [done|]. congruence.
  - intros u lu [[<- <-]|[_ Hu]]%lookup_insert_Some; [right|by left].
    by replace (q * 4096 / 4096) with q by lia.
  - intros p Hp Hu. cbn. rewrite (Pmm.flips_used _ _ _ _ Hfl) by done. by case_bool_decide.
  - intros ix j Hlen Hok Hj. eapply (create_leaf s root lv Ht); try done; [apply Ht|lia].
  - intros ix x Hlen Hok Hp. eapply (create_path s root lv Ht); try done; [apply Ht|lia].
  - intros x Hx. eapply create_frame; [eassumption..| |].
    + intros Hx'. apply Hx. exists (q * 4096), (S l). by rewrite lookup_insert_eq.
    + intros Hx'. apply Hx. exists t, l. rewrite lookup_insert_ne; [done|]. congruence.
Qed.

Lemma index_ok virt l : idx_ok (index virt l).
Proof. apply index_range. Qed.

Lemma indices_ok virt ls : Forall idx_ok (index virt <$> ls).
Proof. apply Forall_fmap, Forall_forall. intros l _. apply index_ok. Qed.

(** The creating walk either runs out of pages or ends at the level-3 table. *)
Lemma walk_create_grows root virt ls : ∀ l s lv t, ls = seq l (3 - l) → (l ≤ 3)%nat →
  tree s root lv → path (mem s) (index virt <$> seq 0 l) root = Some t →
  ∃ r s' lv', walk_create root virt ls t s = (r, s') ∧ grows root s lv s' lv' ∧
    Pmm.free_pages (mpmm s) - (3 - Z.of_nat l) ≤ Pmm.free_pages (mpmm s') ∧
    (r = Err err_unit ∧ Pmm.free_pages (mpmm s) < 3 - Z.of_nat l ∨
     ∃ t3, r = Ok t3 ∧ path (mem s') (indices virt) root = Some t3).
Proof.
  induction ls as [|l0 ls IH]; intros l s lv t Els Hl Ht Hp.
  { assert (l = 3%nat) as -> by (destruct (3 - l)%nat eqn:E; [lia|done]).
    exists (Ok t), s, lv. split; [done|]. split; [by apply grows_refl|]. split; [lia|]. right. by exists t. }
  destruct (3 - l)%nat as [|n] eqn:En; [done|]. cbn in Els. injection Els as -> Els.
  assert (ls = seq (S l) (3 - S l)) as Els' by (rewrite Els; f_equal; lia).
  assert (path (mem s) (index virt <$> seq 0 l) root = Some t → lv !! t = Some l) as Hlv.
  { intros Hp'. pose proof (path_level s root lv _ t Ht (indices_ok virt (seq 0 l))) as H.
    rewrite length_fmap, length_seq in H. by apply H. }
  specialize (Hlv Hp). pose proof (index_ok virt l) as Hi.
  assert (∀ f t', path f (index virt <$> seq 0 l) root = Some t → valid (entry f t (index virt l)) = true →
    pte_addr (entry f t (index virt l)) = t' → path f (index virt <$> seq 0 (S l)) root = Some t') as Hext.
  { intros f t' Hpf Hvf <-. rewrite seq_S, fmap_app, path_app, Hpf. cbn. by rewrite Hvf. }
  cbn [walk_create]. unfold bind at 1, read64, gets. fold (entry (mem s) t (index virt l)).
  destruct (valid (entry (mem s) t (index virt l))) eqn:Ev.
  { edestruct (IH (S l) s lv) as (r & s' & lv' & E & Hg & Hfr & Hr); [exact Els'|lia|exact Ht|by apply Hext|].
    exists r, s', lv'. split; [exact E|]. split; [done|]. split; [lia|].
    destruct Hr as [[-> ?]|?]; [left; split; [done|lia]|by right]. }
  destruct (alloc_table_page_cases s root lv Ht) as [(q & p' & Ea & Hq & Hf & Hfl)|[Ea H0]]; unfold bind at 1; rewrite Ea.
  2:{ exists (Err err_unit), s, lv. split; [done|]. split; [by apply grows_refl|]. split; [lia|]. left. split; [done|lia]. }
  cbn [ok_or ret]. unfold bind at 1. cbn [ok_or ret].
  assert (q * 4096 ≠ root) as Hne.
  { assert (lv !! (q * 4096) = None) as Hn by (by eapply free_not_table). intros E.
    rewrite E, (tree_root _ _ _ Ht) in Hn. done. }
  rewrite (proj2 (Z.eqb_neq _ _) Hne).
  pose proof (create_grows s root lv q p' t (index virt l) l Ht Hq Hf Hfl Hlv ltac:(lia) Hi Ev) as Hg.
  set (ne := Z.lor (Z.lor (q * 4096) PTE_VALID) PTE_TABLE) in *.
  unfold bind at 1, write64, modify. cbn [set_mem mem mpmm]. unfold bind at 1, read64, gets. cbn [mem].
  assert (rd64 (wr64 (zero_page (mem s) (q * 4096)) (slot t (index virt l)) ne) (slot t (index virt l)) = ne) as Erd
    by (by apply rd64_wr64_same, table_entry_ok).
  unfold set_mem. cbn [mem mpmm]. rewrite Erd, Z.eqb_refl.
  set (s1 := mkMach p' (wr64 _ _ ne)) in *.
  edestruct (IH (S l) s1 _ (q * 4096) Els' ltac:(lia) (grows_tree _ _ _ _ _ Hg)) as (r & s' & lv' & E & Hg' & Hfr & Hr).
  { apply Hext.
    - apply (grows_path _ _ _ _ _ Hg); [rewrite length_fmap, length_seq; lia|apply indices_ok|done].
    - unfold s1. cbn [mem]. unfold entry. rewrite Erd. apply table_entry_valid.
    - unfold s1. cbn [mem]. unfold entry. rewrite Erd. by apply table_entry_page. }
  pose proof (Pmm.flips_free _ _ _ _ Hfl) as Hfp. unfold s1 in Hr, Hfr. cbn [mpmm] in Hr, Hfp, Hfr. cbv iota in Hfp.
  exists r, s', lv'. split; [exact E|]. split; [by eapply grows_trans|]. split; [lia|].
  destruct Hr as [[-> Hr]|?]; [left|by right]. split; [done|lia].
Qed.

(** ** Writing a level-3 descriptor *)

Section Leaf.
Context (s : Mach) (root : Z) (lv : gmap Z nat) (Ht : tree s root lv).
Context (l3 j e : Z) (H3 : lv !! l3 = Some 3%nat) (Hj : idx_ok j) (He : u64_ok e).

Let s' : Mach := set_mem (wr64 (mem s) (slot l3 j) e) s.

Lemma leaf_write_entry u lu k : lv !! u = Some lu → idx_ok k →
  entry (mem s') u k = if bool_decide (u = l3 ∧ k = j) then e else entry (mem s) u k.
Proof using All.
  intros Hu Hk. unfold entry, s'. cbn [mem set_mem]. case_bool_decide as Hd.
  - destruct Hd as [-> ->]. by apply rd64_wr64_same.
  - pose proof (tree_aligned _ _ _ _ _ Ht Hu). pose proof (tree_aligned _ _ _ _ _ Ht H3).
    assert (0 ≤ k < 512 ∧ 0 ≤ j < 512) as [? ?] by done.
    apply rd64_wr64_other, slot_apart; (done || lia).
Qed.

Lemma leaf_write_upper u lu k : lv !! u = Some lu → (lu < 3)%nat → idx_ok k →
  entry (mem s') u k = entry (mem s) u k.
Proof using All.
  intros Hu Hlu Hk. rewrite (leaf_write_entry u lu k Hu Hk). rewrite bool_decide_eq_false_2; [done|].
  intros [-> _]. rewrite H3 in Hu. simplify_eq. lia.
Qed.

Lemma leaf_write_tree : tree s' root lv.
Proof using All.
  constructor.
  - apply Ht.
  - apply Ht.
  - apply Ht.
  - apply Ht.
  - intros u lu k Hu Hlu Hk Hv. rewrite (leaf_write_upper u lu k Hu Hlu Hk) in *. by eapply (tree_child _ _ _ Ht).
  - intros u u' lu lu' k k' Hu Hlu Hu' Hlu' Hk Hk' Hv Hv' E.
    rewrite (leaf_write_upper u lu k Hu Hlu Hk) in *. rewrite (leaf_write_upper u' lu' k' Hu' Hlu' Hk') in *.
    by eapply (tree_inj _ _ _ Ht).
Qed.

Lemma leaf_write_path ix : ∀ u lu, lv !! u = Some lu → (length ix + lu ≤ 3)%nat → Forall idx_ok ix →
  path (mem s') ix u = path (mem s) ix u.
Proof using All.
  induction ix as [|k ix IH]; intros u lu Hu Hlen Hok; cbn [path length] in *; [done|].
  apply Forall_cons in Hok as [Hk Hok]. rewrite (leaf_write_upper u lu k Hu ltac:(lia) Hk).
  destruct (valid (entry (mem s) u k)) eqn:Ev; [|done].
  apply (IH _ (S lu)); [|lia|done]. eapply (tree_child _ _ _ Ht); (done || lia).
Qed.

(** Every other leaf descriptor is as before. *)
Lemma leaf_write_leaf ix ix' j' : length ix = 3%nat → length ix' = 3%nat →
  Forall idx_ok ix → Forall idx_ok ix' → idx_ok j' → path (mem s) ix root = Some l3 →
  leaf (mem s') ix' j' root =
  if bool_decide (ix' = ix ∧ j' = j) then (if valid e then Some e else None) else leaf (mem s) ix' j' root.
Proof using All.
  intros Hlen Hlen' Hok Hok' Hj' Hp. pose proof (tree_root _ _ _ Ht) as Hr.
  unfold leaf. rewrite (leaf_write_path ix' root 0 Hr ltac:(lia) Hok').
  destruct (path (mem s) ix' root) as [t'|] eqn:Ep.
  - pose proof (path_level _ _ _ _ _ Ht Hok' ltac:(lia) Ep) as Hl. rewrite (leaf_write_entry t' _ j' Hl Hj').
    case_bool_decide as Hd.
    + destruct Hd as [-> ->]. rewrite bool_decide_eq_true_2; [done|]. split; [|done].
      eapply (path_inj _ _ _ _ _ _ Ht); (done || lia).
    + rewrite bool_decide_eq_false_2; [done|]. intros [-> ->]. apply Hd. split; [congruence|done].
  - rewrite bool_decide_eq_false_2; [done|]. intros [-> ->]. congruence.
Qed.
End Leaf.

Lemma vpage_indices v v' : vpage v = vpage v' ↔ indices v = indices v' ∧ index v 3 = index v' 3.
Proof.
  rewrite vpage_index. split.
  - intros E. unfold indices. rewrite !E by lia. done.
  - intros [[= E0 E1 E2] E3] l Hl. destruct l as [|[|[|[|]]]]; (done || lia).
Qed.

Lemma indices_idx_ok v : Forall idx_ok (indices v).
Proof. apply (indices_ok v [0; 1; 2]%nat). Qed.

Lemma to_pte_u64 a : u64_ok (to_pte a).
Proof. destruct a as [[] [] [] [] []]; vm_compute; split; congruence. Qed.

Lemma leaf_entry_ok phys a : u64_ok phys → u64_ok (leaf_entry phys (to_pte a)).
Proof.
  intros Hp. unfold leaf_entry. repeat apply u64_lor; try by apply u64_shl1.
  - by apply u64_land_l.
  - apply to_pte_u64.
Qed.

(** The descriptor a virtual address resolves to, and its translation. *)
Definition pte_of (s : Mach) (root v : Z) : option Z := leaf (mem s) (indices v) (index v 3) root.

Lemma pte_of_write s root lv v l3 e v' : tree s root lv → u64_ok e →
  path (mem s) (indices v) root = Some l3 →
  pte_of (set_mem (wr64 (mem s) (slot l3 (index v 3)) e) s) root v' =
  if bool_decide (vpage v' = vpage v) then (if valid e then Some e else None) else pte_of s root v'.
Proof.
  intros Ht He Hp. unfold pte_of.
  pose proof (path_level _ _ _ _ _ Ht (indices_idx_ok v) ltac:(done) Hp) as H3.
  rewrite (leaf_write_leaf s root lv Ht l3 (index v 3) e H3 (index_ok v 3) He (indices v)) by
    (done || apply indices_idx_ok || apply index_ok).
  by rewrite (bool_decide_ext _ _ (vpage_indices v' v)).
Qed.

Lemma translate_pte f p root v :
  translate f root v = (λ e, Z.lor (pte_addr e) (Z.land v 0xFFF)) <$> pte_of (mkMach p f) root v.
Proof. apply translate_leaf. Qed.

(** Descriptors after [map_page]: the tables grow, then one descriptor changes. *)
Lemma map_page_pte s root lv virt phys flags : tree s root lv → u64_ok phys →
  ∃ r s' lv', map_page root virt phys flags s = (r, s') ∧ tree s' root lv' ∧
    (∀ x, ~ in_table lv' x → mem s' x = mem s x) ∧
    (∀ t l, lv' !! t = Some l → lv !! t = Some l ∨ Pmm.page_used (mpmm s) (t / 4096) = false) ∧
    (∀ v', pte_of s' root v' =
       if bool_decide (r = Ok tt ∧ vpage v' = vpage virt) then Some (leaf_entry phys (to_pte flags))
       else pte_of s root v') ∧
    (∀ p, 0 ≤ p → Pmm.page_used (mpmm s) p = true → Pmm.page_used (mpmm s') p = true) ∧
    Pmm.free_pages (mpmm s) - 3 ≤ Pmm.free_pages (mpmm s') ∧
    (r = Ok tt ∨ r = Err err_unit ∧ Pmm.free_pages (mpmm s) < 3).
Proof.
  intros Ht Hphys.
  destruct (walk_create_grows root virt [0; 1; 2]%nat 0 s lv root) as (r & s1 & lv1 & E & Hg & Hfree & Hr); try done; [lia|].
  assert (∀ v', pte_of s1 root v' = pte_of s root v') as Hold.
  { intros v'. apply (grows_leaf _ _ _ _ _ Hg); (done || apply indices_idx_ok || apply index_ok). }
  unfold map_page, bind at 1. rewrite E. destruct Hr as [[-> Hr]|(t3 & -> & Hp)].
  { exists (Err err_unit), s1, lv1. split; [done|]. split; [apply Hg|]. split; [apply Hg|]. split; [apply Hg|].
    split; [|split; [apply Hg|split; [lia|right; split; [done|lia]]]].
    intros v'. rewrite bool_decide_eq_false_2 by naive_solver. apply Hold. }
  pose proof (grows_tree _ _ _ _ _ Hg) as Ht1. pose proof (leaf_entry_ok phys flags Hphys) as He.
  pose proof (path_level _ _ _ _ _ Ht1 (indices_idx_ok virt) ltac:(done) Hp) as H3.
  eexists (Ok tt), _, lv1. split; [done|]. split; [by apply leaf_write_tree; [| |apply index_ok|]|].
  split; [|split; [apply Hg|split; [|split; [apply Hg|split; [cbn [mpmm set_mem]; lia|by left]]]]].
  - intros x Hx. cbn [mem set_mem]. unfold wr64. rewrite bool_decide_eq_false_2; [by apply Hg|].
    intros Hx'. apply Hx. exists t3, 3%nat. split; [done|]. pose proof (index_range virt 3). unfold slot in Hx'. lia.
  - intros v'. rewrite (pte_of_write s1 root lv1 virt t3 _ v' Ht1 He Hp), leaf_entry_valid, Hold.
    repeat case_bool_decide; naive_solver.
Qed.

(** Unmapping clears one descriptor and keeps every table. *)
Lemma unmap_page_pte s root lv virt : tree s root lv →
  ∃ s', unmap_page root virt s = (Ok (pte_addr <$> pte_of s root virt), s') ∧ tree s' root lv ∧
    mpmm s' = mpmm s ∧
    ∀ v', pte_of s' root v' = if bool_decide (vpage v' = vpage virt) then None else pte_of s root v'.
Proof.
  intros Ht. assert (∀ v', vpage v' = vpage virt → pte_of s root v' = pte_of s root virt) as Hsame.
  { intros v' [E1 E2]%vpage_indices. unfold pte_of. by rewrite E1, E2. }
  assert (pte_of s root virt = None → ∀ v',
    pte_of s root v' = if bool_decide (vpage v' = vpage virt) then None else pte_of s root v') as Hnone.
  { intros HN v'. case_bool_decide as Hd; [|done]. by rewrite (Hsame v' Hd). }
  unfold unmap_page, bind at 1, get. rewrite walk_path. change (index virt <$> [0; 1; 2]%nat) with (indices virt).
  unfold pte_of at 1. unfold leaf at 1. destruct (path (mem s) (indices virt) root) as [l3|] eqn:Ep.
  2:{ exists s. split; [done|]. split; [done|]. split; [done|]. apply Hnone. unfold pte_of, leaf. by rewrite Ep. }
  unfold bind at 1, read64, gets. fold (entry (mem s) l3 (index virt 3)).
  destruct (valid (entry (mem s) l3 (index virt 3))) eqn:Ev.
  2:{ exists s. split; [done|]. split; [done|]. split; [done|]. apply Hnone. unfold pte_of, leaf. by rewrite Ep, Ev. }
  pose proof (path_level _ _ _ _ _ Ht (indices_idx_ok virt) ltac:(done) Ep) as H3.
  eexists. split; [done|]. split; [by apply leaf_write_tree; [| |apply index_ok|]|].
  split; [done|]. intros v'. by rewrite (pte_of_write s root lv virt l3 0 v' Ht (conj (Z.le_refl 0) eq_refl) Ep).
Qed.

(** A zeroed page that is in use is an address space without mappings. *)
Lemma zero_tree p f q : Pmm.pmm_inv p → Pmm.page_ok q → Pmm.page_used p q = true →
  (∀ x, q * 4096 ≤ x < q * 4096 + 4096 → f x = 0) → tree (mkMach p f) (q * 4096) {[q * 4096 := 0%nat]}.
Proof.
  intros Hp Hq Hu H0.
  assert (∀ i, 0 ≤ i < 512 → valid (entry f (q * 4096) i) = false) as Hv.
  { intros i Hi. unfold entry. rewrite (rd64_ext _ (λ _, 0)); [done|]. intros x Hx. apply H0. unfold slot in Hx. lia. }
  constructor; cbn [mem mpmm].
  - done.
  - apply lookup_singleton_eq.
  - intros t l [<- <-]%lookup_singleton_Some. lia.
  - intros t l [<- <-]%lookup_singleton_Some. by exists q.
  - intros t l i [<- <-]%lookup_singleton_Some _ Hi. by rewrite Hv.
  - intros t t' l l' i i' [<- <-]%lookup_singleton_Some _ [<- <-]%lookup_singleton_Some _ Hi Hi'. by rewrite Hv.
Qed.

Lemma zero_unmapped p f q v : Pmm.pmm_inv p → Pmm.page_ok q → Pmm.page_used p q = true →
  (∀ x, q * 4096 ≤ x < q * 4096 + 4096 → f x = 0) → translate f (q * 4096) v = None.
Proof.
  intros _ _ _ H0. unfold translate. cbn [walk]. rewrite (rd64_ext _ (λ _, 0)); [done|].
  intros x Hx. apply H0. pose proof (index_range v 0). unfold slot in Hx. lia.
Qed.

Lemma tree_ext p p' f root lv : tree (mkMach p f) root lv → Pmm.pmm_inv p' →
  (∀ q, Pmm.page_used p q = true → Pmm.page_used p' q = true) → tree (mkMach p' f) root lv.
Proof.
  intros [T1 T2 T3 T4 T5 T6] Hp Hu. constructor; cbn [mem mpmm] in *; try done.
  intros t l Hl. destruct (T4 t l Hl) as (q & -> & Hq & Hused). eauto.
Qed.

(** A new address space is a well-formed, empty table tree: no address
    translates; when no page is left there is none. *)
Theorem aspace_new_empty s : Pmm.pmm_inv (mpmm s) →
  ∃ o s', aspace_new s = (Ok o, s') ∧
    match o with
    | Some root => tree s' root {[root := 0%nat]} ∧ ∀ v, translate (mem s') root v = None
    | None => s' = s ∧ Pmm.free_pages (mpmm s) = 0
    end.
Proof.
  intros Hp. unfold aspace_new, alloc_table_page, lift_pmm, bind at 1.
  destruct (Pmm.alloc_page_cases (mpmm s) Hp) as [(q & p' & E & Hq & Hf & _ & Hfl)|(E & _ & H0)]; rewrite E.
  2:{ exists None, s. by destruct s. }
  eexists (Some (q * 4096)), _. split; [done|]. cbn [mem set_mem set_pmm mpmm].
  assert (∀ x, q * 4096 ≤ x < q * 4096 + 4096 → zero_page (mem s) (q * Pmm.PAGE_SIZE) x = 0) as Hz.
  { intros x Hx. unfold zero_page, Pmm.PAGE_SIZE. by rewrite bool_decide_eq_true_2. }
  assert (Pmm.page_used p' q = true) as Hu.
  { rewrite (Pmm.flips_used _ _ _ _ Hfl) by apply Hq. by rewrite bool_decide_eq_true_2. }
  split; [by apply zero_tree; [apply Hfl|..]|]. intros v. by apply (zero_unmapped p'); [apply Hfl|..].
Qed.

(** Four free pages and an empty address space in page 1. *)
Lemma demo_machine : ∃ s, tree s 4096 {[4096 := 0%nat]} ∧ Pmm.free_pages (mpmm s) = 4 ∧ mem s = λ _, 0.
Proof.
  destruct (Pmm.mark_free_flips Pmm.new 5 Pmm.new_inv) as (p5 & _ & [I5 _ F5 U5]); [done|by rewrite Pmm.new_used|].
  destruct (Pmm.mark_free_flips p5 6 I5) as (p6 & _ & [I6 _ F6 U6]); [done|by rewrite U5, Pmm.new_used|].
  destruct (Pmm.mark_free_flips p6 7 I6) as (p7 & _ & [I7 _ F7 U7]); [done|by rewrite U6, U5, Pmm.new_used|].
  destruct (Pmm.mark_free_flips p7 8 I7) as (p8 & _ & [I8 _ F8 U8]); [done|by rewrite U7, U6, U5, Pmm.new_used|].
  exists (mkMach p8 (λ _, 0)). split; [|split; [|done]].
  - apply (zero_tree p8 (λ _, 0) 1); [done|done| |done]. by rewrite U8, U7, U6, U5, Pmm.new_used by done.
  - cbn [mpmm]. rewrite F8, F7, F6, F5. reflexivity.
Qed.

Lemma aspace_new_empty_witness : ∃ s o s', Pmm.pmm_inv (mpmm s) ∧ aspace_new s = (Ok (Some o), s') ∧
  ∀ v, translate (mem s') o v = None.
Proof.
  destruct demo_machine as (s & Ht & Hf & _).
  destruct (aspace_new_empty s (tree_pmm _ _ _ Ht)) as ([o|] & s' & E & H).
  - exists s, o, s'. split; [apply Ht|]. split; [exact E|apply H].
  - exfalso. destruct H as [_ H]. congruence.
Defined.

(** C1. Mapping a page never panics and keeps the table tree well formed.  On
    success the page's addresses translate to the given frame and every other
    address translates as before; the only failure is exhausted memory (fewer
    than three free pages), and it changes no translation.  Memory outside the
    address space's own tables is not written. *)
Theorem map_page_translate s root lv virt phys flags : tree s root lv → u64_ok phys →
  ∃ r s' lv', map_page root virt phys flags s = (r, s') ∧ tree s' root lv' ∧
    (∀ x, ~ in_table lv' x → mem s' x = mem s x) ∧
    (∀ t l, lv' !! t = Some l → lv !! t = Some l ∨ Pmm.page_used (mpmm s) (t / 4096) = false) ∧
    ((r = Ok tt ∧
      ∀ v', translate (mem s') root v' =
        if bool_decide (vpage v' = vpage virt)
        then Some (Z.lor (Z.land phys ADDR_MASK) (Z.land v' 0xFFF)) else translate (mem s) root v') ∨
     (r = Err err_unit ∧ Pmm.free_pages (mpmm s) < 3 ∧
      ∀ v', translate (mem s') root v' = translate (mem s) root v')).
Proof.
  intros Ht Hphys.
  destruct (map_page_pte s root lv virt phys flags Ht Hphys) as (r & s' & lv' & E & Ht' & Hfr & Hnew & Hpte & _ & _ & Hr).
  exists r, s', lv'. do 4 (split; [done|]).
  destruct Hr as [->|[-> Hr]]; [left|right]; (split; [done|]); [|split; [done|]]; intros v';
    rewrite !translate_leaf; fold (pte_of s' root v'); fold (pte_of s root v'); rewrite Hpte.
  - case_bool_decide as Hd; case_bool_decide as Hd'; try naive_solver. cbn. by rewrite leaf_entry_addr.
  - by rewrite bool_decide_eq_false_2 by naive_solver.
Qed.

Lemma map_page_translate_witness : ∃ s s', tree s 4096 {[4096 := 0%nat]} ∧
  map_page 4096 0x400000 0x9000 USER_RX s = (Ok tt, s') ∧ translate (mem s') 4096 0x400123 = Some 0x9123.
Proof.
  destruct demo_machine as (s & Ht & Hf & _).
  destruct (map_page_translate s 4096 _ 0x400000 0x9000 USER_RX Ht) as
    (r & s' & lv' & E & _ & _ & _ & [[-> H]|(_ & H & _)]).
  - split; [lia|reflexivity].
  - exists s, s'. split; [exact Ht|]. split; [exact E|]. rewrite H. reflexivity.
  - exfalso. lia.
Defined.

(** Unmapping returns the frame the page was mapped to, if any, clears
    exactly that page's translation, and neither frees nor damages a table. *)
Theorem unmap_page_translate s root lv virt : tree s root lv →
  ∃ s', unmap_page root virt s = (Ok (pte_addr <$> pte_of s root virt), s') ∧ tree s' root lv ∧
    mpmm s' = mpmm s ∧
    ∀ v', translate (mem s') root v' =
      if bool_decide (vpage v' = vpage virt) then None else translate (mem s) root v'.
Proof.
  intros Ht. destruct (unmap_page_pte s root lv virt Ht) as (s' & E & Ht' & Hp & Hpte).
  exists s'. do 3 (split; [done|]). intros v'. rewrite !translate_leaf.
  fold (pte_of s' root v'). fold (pte_of s root v'). rewrite Hpte. by case_bool_decide.
Qed.

Lemma unmap_page_translate_witness : ∃ s s' s2, map_page 4096 0x400000 0x9000 USER_RX s = (Ok tt, s') ∧
  unmap_page 4096 0x400000 s' = (Ok (Some 0x9000), s2) ∧ translate (mem s2) 4096 0x400123 = None.
Proof.
  destruct demo_machine as (s & Ht & Hf & _).
  destruct (map_page_pte s 4096 _ 0x400000 0x9000 USER_RX Ht) as (r & s' & lv' & E & Ht' & _ & _ & H & _ & _ & Hr);
    [split; [lia|reflexivity]|].
  destruct Hr as [->|[_ Hr]]; [|exfalso; lia].
  destruct (unmap_page_translate s' 4096 lv' 0x400000 Ht') as (s2 & E2 & _ & _ & H2).
  exists s, s', s2. split; [exact E|]. split; [|rewrite H2; reflexivity].
  rewrite E2, H, bool_decide_eq_true_2 by done. reflexivity.
Defined.

Lemma leaf_entry_bit phys a k : 0 ≤ k → Z.testbit ADDR_MASK k = false →
  Z.testbit (Z.lor (Z.lor PTE_VALID PTE_PAGE) PTE_AF) k = false →
  Z.testbit (leaf_entry phys (to_pte a)) k = Z.testbit (to_pte a) k.
Proof.
  intros Hk Hm Hf. rewrite !Z.lor_spec in Hf. apply orb_false_iff in Hf as [[H1 H2]%orb_false_iff H3].
  unfold leaf_entry. rewrite !Z.lor_spec, Z.land_spec, Hm, H1, H2, H3. by rewrite andb_false_r, !orb_false_r.
Qed.

(** Descriptor permissions: user code reaches a page (AP[1], bit 6) exactly
    when the attribute says user; a page is read-only (AP[2], bit 7) exactly
    when the attribute is not writable; user code executes (UXN, bit 54, clear)
    only executable user pages and the kernel (PXN, bit 53, clear) only
    executable kernel pages; the memory type is the device one exactly for a
    device; and the address bits are the frame's. *)
Theorem leaf_entry_permissions phys a :
  let e := leaf_entry phys (to_pte a) in
  Z.testbit e 6 = user a ∧ Z.testbit e 7 = negb (writable a) ∧
  Z.testbit e 54 = negb (user a && executable a) ∧ Z.testbit e 53 = user a || negb (executable a) ∧
  Z.testbit e 2 = device a ∧ pte_addr e = Z.land phys ADDR_MASK ∧ valid e = true.
Proof.
  cbv zeta. rewrite !leaf_entry_bit by done. rewrite leaf_entry_addr, leaf_entry_valid.
  by destruct a as [[] [] [] [] []].
Qed.

(** What [map_device_page] does when it meets a 1 GiB block. *)
Definition device_entry (addr : Z) : Z :=
  Z.lor (Z.lor (Z.lor (Z.land addr ADDR_MASK) (to_pte DEVICE)) 3) (Z.shiftl 1 10).

Lemma device_entry_ok addr : u64_ok addr → u64_ok (device_entry addr).
Proof.
  intros Ha. unfold device_entry. apply u64_lor; [apply u64_lor; [apply u64_lor|]|by apply u64_shl1].
  - by apply u64_land_l.
  - apply to_pte_u64.
  - split; [lia|reflexivity].
Qed.

Lemma device_entry_table addr : Z.land (device_entry addr) 3 = 3.
Proof.
  unfold device_entry. rewrite !Z.land_lor_distr_l, <- Z.land_assoc.
  change (Z.land ADDR_MASK 3) with 0. rewrite Z.land_0_r. reflexivity.
Qed.

(** When the address is already covered by a 1 GiB block,
    [map_device_mmio] does not leave the tables alone: the [break] keeps the L1
    table as the current table, so the L3 index is looked up there, and if that
    slot is empty a descriptor is written into the L1 table.  At level 1 its low
    bits make it a table descriptor that points at device memory, for a
    gigabyte the caller never named. *)
Theorem device_block_corrupts_l1 s ttbr1 hhdm addr l1 : u64_ok addr → addr + hhdm < 2 ^ 64 →
  let virt := addr + hhdm in
  let l0_entry := entry (mem s) (pte_addr ttbr1) (index virt 0) in
  Z.land l0_entry 3 = 3 → l1 = pte_addr l0_entry →
  Z.land (entry (mem s) l1 (index virt 1)) 3 = 1 →
  Z.land (entry (mem s) l1 (index virt 3)) 1 = 0 →
  ∃ s', map_device_page ttbr1 hhdm addr s = (Ok tt, s') ∧
    index virt 3 ≠ index virt 1 ∧
    entry (mem s') l1 (index virt 3) = device_entry addr ∧ Z.land (device_entry addr) 3 = 3 ∧
    pte_addr (device_entry addr) = Z.land addr ADDR_MASK.
Proof.
  intros Ha Hv virt l0_entry H0 -> H1 H3. subst virt.
  set (l1 := pte_addr l0_entry) in *. set (e1 := entry (mem s) l1 (index (addr + hhdm) 1)) in *.
  assert (Z.land e1 1 = 1) as Hb0 by (change 1 with (Z.land 3 1) at 1; by rewrite Z.land_assoc, H1).
  assert (Z.land e1 2 = 0) as Hb1 by (change 2 with (Z.land 3 2) at 1; by rewrite Z.land_assoc, H1).
  unfold map_device_page, bind at 1. rewrite add64_small by done. cbn [or_panic ret].
  unfold bind at 1. cbn [device_walk]. unfold bind at 1, read64 at 1, gets at 1.
  change (rd64 (mem s) (slot (pte_addr ttbr1) (index (addr + hhdm) 0))) with l0_entry. rewrite H0, Z.eqb_refl.
  cbn [device_walk]. unfold bind at 1, read64 at 1, gets at 1. fold l1.
  change (rd64 (mem s) (slot l1 (index (addr + hhdm) 1))) with e1. rewrite H1, Hb0, Hb1.
  cbn [Z.eqb Pos.eqb andb ret]. rewrite bool_decide_eq_true_2 by lia. cbn [ret].
  unfold bind at 1, read64 at 1, gets at 1. fold (entry (mem s) l1 (index (addr + hhdm) 3)). rewrite H3.
  eexists. split; [done|]. split; [|split; [|split; [apply device_entry_table|]]].
  - intros E. rewrite E in H3. fold e1 in H3. congruence.
  - cbn [mem set_mem]. by apply rd64_wr64_same, device_entry_ok.
  - unfold device_entry. rewrite !pte_addr_lor by done. apply pte_addr_idemp.
Qed.

Lemma device_block_corrupts_l1_witness :
  ∃ s s', entry (mem s) 0x2000 0 = 0x40000701 ∧ entry (mem s) 0x2000 9 = 0 ∧
    map_device_page 0x1000 0 0x09000 s = (Ok tt, s') ∧ Z.land (entry (mem s') 0x2000 9) 3 = 3.
Proof.
  set (f := wr64 (wr64 (λ _, 0) 0x1000 0x2003) 0x2000 0x40000701).
  destruct (device_block_corrupts_l1 (mkMach Pmm.new f) 0x1000 0 0x9000 0x2000) as (s' & E & _ & H & H3 & _).
  1-6: vm_compute; (reflexivity || split; congruence).
  exists (mkMach Pmm.new f), s'. split; [reflexivity|]. split; [reflexivity|]. split; [exact E|].
  change (index (0x9000 + 0) 3) with 9 in H. rewrite H. exact H3.
Defined.
