(* ===== verification/Pty.v ===== *)
(** * Pseudo-terminals ([drivers/pty.rs])

    Terminal attributes and their byte layout, the line discipline, output
    processing, and the table of terminals.  Bytes written to the UART and
    signals sent to a process group are logged in order, as the effects that
    leave the component. *)

From S2P Require Import Prelude.

(** ** Flags and control characters *)

Definition IGNBRK : Z := 0x1.
Definition BRKINT : Z := 0x2.
Definition IGNPAR : Z := 0x4.
Definition PARMRK : Z := 0x8.
Definition INPCK : Z := 0x10.
Definition ISTRIP : Z := 0x20.
Definition INLCR : Z := 0x40.
Definition IGNCR : Z := 0x80.
Definition ICRNL : Z := 0x100.
Definition IXON : Z := 0x400.
Definition IXOFF : Z := 0x1000.
Definition IMAXBEL : Z := 0x2000.
Definition IUTF8 : Z := 0x4000.
Definition OPOST : Z := 0x1.
Definition ONLCR : Z := 0x4.
Definition CSIZE : Z := 0x30.
Definition CS8 : Z := 0x30.
Definition CREAD : Z := 0x80.
Definition HUPCL : Z := 0x400.
Definition CLOCAL : Z := 0x800.
Definition B38400 : Z := 0xf.
Definition ISIG : Z := 0x1.
Definition ICANON : Z := 0x2.
Definition ECHO : Z := 0x8.
Definition ECHOE : Z := 0x10.
Definition ECHOK : Z := 0x20.
Definition ECHONL : Z := 0x40.
Definition ECHOCTL : Z := 0x200.
Definition ECHOKE : Z := 0x800.
Definition IEXTEN : Z := 0x8000.
Definition VINTR : nat := 0%nat.
Definition VQUIT : nat := 1%nat.
Definition VERASE : nat := 2%nat.
Definition VKILL : nat := 3%nat.
Definition VEOF : nat := 4%nat.
Definition VTIME : nat := 5%nat.
Definition VMIN : nat := 6%nat.
Definition VSWTC : nat := 7%nat.
Definition VSTART : nat := 8%nat.
Definition VSTOP : nat := 9%nat.
Definition VSUSP : nat := 10%nat.
Definition VEOL : nat := 11%nat.
Definition VREPRINT : nat := 12%nat.
Definition VDISCARD : nat := 13%nat.
Definition VWERASE : nat := 14%nat.
Definition VLNEXT : nat := 15%nat.
Definition VEOL2 : nat := 16%nat.
Definition NCCS : nat := 19%nat.

(** ** Terminal attributes *)

Record Termios := mkTermios {
  c_iflag : Z; c_oflag : Z; c_cflag : Z; c_lflag : Z; c_line : Z;
  c_cc : list Z; pad : list Z; c_ispeed : Z; c_ospeed : Z }.

(** An array of zeros filled in by assignments. *)
Definition assign_all (l : list (nat * Z)) (a : list Z) : list Z :=
  foldl (λ a '(i, v), <[i := v]> a) a l.

Definition default_cc : list Z :=
  assign_all [(VINTR, 0x03); (VQUIT, 0x1C); (VERASE, 0x7F); (VKILL, 0x15); (VEOF, 0x04); (VTIME, 0);
    (VMIN, 1); (VSWTC, 0); (VSTART, 0x11); (VSTOP, 0x13); (VSUSP, 0x1A); (VEOL, 0); (VREPRINT, 0x12);
    (VDISCARD, 0x0F); (VWERASE, 0x17); (VLNEXT, 0x16); (VEOL2, 0)] (replicate NCCS 0).

Definition lor_all (l : list Z) : Z := foldl Z.lor 0 l.

Definition default_cooked : Termios := {|
  c_iflag := lor_all [ICRNL; IXON; IMAXBEL; IUTF8];
  c_oflag := lor_all [OPOST; ONLCR];
  c_cflag := lor_all [B38400; CS8; CREAD; HUPCL; CLOCAL];
  c_lflag := lor_all [ISIG; ICANON; ECHO; ECHOE; ECHOK; ECHOCTL; ECHOKE; IEXTEN];
  c_line := 0; c_cc := default_cc; pad := [0]; c_ispeed := 38400; c_ospeed := 38400 |}.

(** [buf[a..a + len].copy_from_slice(bytes)]: the lengths agree at every call. *)
Definition copy_at (a : nat) (bytes buf : list Z) : list Z :=
  take a buf ++ bytes ++ drop (a + length bytes) buf.
Definition slice (a b : nat) (buf : list Z) : list Z := take (b - a) (drop a buf).

Definition to_bytes (t : Termios) : list Z :=
  let buf := replicate 60 0 in
  let buf := copy_at 0 (to_le 4 (c_iflag t)) buf in
  let buf := copy_at 4 (to_le 4 (c_oflag t)) buf in
  let buf := copy_at 8 (to_le 4 (c_cflag t)) buf in
  let buf := copy_at 12 (to_le 4 (c_lflag t)) buf in
  let buf := <[16%nat := c_line t]> buf in
  let buf := copy_at 17 (c_cc t) buf in
  let buf := copy_at 40 (to_le 4 (c_ispeed t)) buf in
  copy_at 44 (to_le 4 (c_ospeed t)) buf.

Definition from_bytes (buf : list Z) : Termios := {|
  c_iflag := from_le (slice 0 4 buf);
  c_oflag := from_le (slice 4 8 buf);
  c_cflag := from_le (slice 8 12 buf);
  c_lflag := from_le (slice 12 16 buf);
  c_line := default 0 (buf !! 16%nat);
  c_cc := slice 17 (17 + NCCS) buf;
  pad := [0];
  c_ispeed := from_le (slice 40 44 buf);
  c_ospeed := from_le (slice 44 48 buf) |}.

Record Winsize := mkWinsize { ws_row : Z; ws_col : Z; ws_xpixel : Z; ws_ypixel : Z }.
Definition default_80x24 : Winsize := mkWinsize 24 80 640 384.

(** ** Terminals *)

Record Pty := mkPty {
  id : Z;
  master_rx : list Z;
  slave_rx : list Z;
  termios : Termios;
  winsize : Winsize;
  fg_pgrp : Z;
  session : Z;
  locked : bool;
  line_buf : list Z }.

Definition set_master_rx (x : list Z) (p : Pty) : Pty :=
  mkPty (id p) x (slave_rx p) (termios p) (winsize p) (fg_pgrp p) (session p) (locked p) (line_buf p).
Definition set_slave_rx (x : list Z) (p : Pty) : Pty :=
  mkPty (id p) (master_rx p) x (termios p) (winsize p) (fg_pgrp p) (session p) (locked p) (line_buf p).
Definition set_line_buf (x : list Z) (p : Pty) : Pty :=
  mkPty (id p) (master_rx p) (slave_rx p) (termios p) (winsize p) (fg_pgrp p) (session p) (locked p) x.
Definition set_locked (x : bool) (p : Pty) : Pty :=
  mkPty (id p) (master_rx p) (slave_rx p) (termios p) (winsize p) (fg_pgrp p) (session p) x (line_buf p).

(** What the line discipline works on: the locked terminal, the bytes sent to
    the UART and the signals sent to process groups. *)
Record Term := mkTerm { pty : Pty; uart : list Z; signals : list (Z * Z) }.

Definition on_pty (f : Pty → Pty) (t : Term) : Term := mkTerm (f (pty t)) (uart t) (signals t).

Section Ldisc.
Context (console : Z).

Definition echo_byte (byte : Z) (t : Term) : Term :=
  let t := if id (pty t) =? console
           then mkTerm (pty t) (uart t ++ (if byte =? 10 then [13] else []) ++ [byte]) (signals t)
           else t in
  on_pty (λ p, set_master_rx (master_rx p ++ [byte]) p) t.

Definition echo_all (l : list Z) (t : Term) : Term := foldl (λ t b, echo_byte b t) t l.

Definition send_signal_to_fg (pgrp sig : Z) (t : Term) : Term :=
  mkTerm (pty t) (uart t) (signals t ++ [(pgrp, sig)]).

(** BS SP BS *)
Definition erase_seq : list Z := [8; 32; 8].

(** [line_buf.pop()] and the echo of one erased character. *)
Definition pop_line (echo : bool) (t : Term) : Term :=
  let t := on_pty (λ p, set_line_buf (removelast (line_buf p)) p) t in
  if echo then echo_all erase_seq t else t.

(** The two loops of VWERASE: erase while the last byte satisfies [f]; each
    round removes a byte, so the length of the line is enough fuel. *)
Fixpoint erase_while (fuel : nat) (f : Z → bool) (echo : bool) (t : Term) : Term :=
  match fuel, last (line_buf (pty t)) with
  | S fuel', Some b => if f b then erase_while fuel' f echo (pop_line echo t) else t
  | _, _ => t
  end.

Definition flush_line (t : Term) : Term :=
  on_pty (λ p, set_line_buf [] (set_slave_rx (slave_rx p ++ line_buf p) p)) t.

Definition input_signal (c sig : Z) (t : Term) : Term :=
  let t := echo_all [94; c; 10] t in
  let t := send_signal_to_fg (fg_pgrp (pty t)) sig t in
  on_pty (set_line_buf []) t.

Definition input_byte_ldisc (byte : Z) (t : Term) : Term :=
  let iflag := c_iflag (termios (pty t)) in
  let lflag := c_lflag (termios (pty t)) in
  let cc (i : nat) := default 0 (c_cc (termios (pty t)) !! i) in
  let byte := if has iflag ICRNL && (byte =? 13) then 10 else byte in
  if has iflag IGNCR && (byte =? 13) then t else
  let byte := if has iflag INLCR && (byte =? 10) then 13 else byte in
  if has lflag ISIG && (byte =? cc VINTR) then input_signal 67 2 t else
  if has lflag ISIG && (byte =? cc VQUIT) then input_signal 92 3 t else
  if has lflag ISIG && (byte =? cc VSUSP) then input_signal 90 20 t else
  if has lflag ICANON then
    if byte =? cc VERASE then
      match line_buf (pty t) with
      | [] => t
      | _ => pop_line (has lflag ECHO && has lflag ECHOE) t
      end
    else if byte =? cc VKILL then
      let count := length (line_buf (pty t)) in
      let t := on_pty (set_line_buf []) t in
      if has lflag ECHO && has lflag ECHOK then Nat.iter count (echo_all erase_seq) t else t
    else if byte =? cc VWERASE then
      let t := erase_while (length (line_buf (pty t))) (λ b, b =? 32) (has lflag ECHO) t in
      erase_while (length (line_buf (pty t))) (λ b, negb (b =? 32)) (has lflag ECHO) t
    else if byte =? cc VEOF then flush_line t
    else
      let t := if has lflag ECHO then echo_byte byte t
               else if has lflag ECHONL && (byte =? 10) then echo_byte byte t else t in
      let t := on_pty (λ p, set_line_buf (line_buf p ++ [byte]) p) t in
      if (byte =? 10) || (negb (cc VEOL =? 0) && (byte =? cc VEOL))
         || (negb (cc VEOL2 =? 0) && (byte =? cc VEOL2))
      then flush_line t else t
  else
    let t := if has lflag ECHO then echo_byte byte t else t in
    on_pty (λ p, set_slave_rx (slave_rx p ++ [byte]) p) t.

Definition input_all (data : list Z) (t : Term) : Term := foldl (λ t b, input_byte_ldisc b t) t data.
End Ldisc.

Definition process_output (p : Pty) (data : list Z) : list Z :=
  let oflag := c_oflag (termios p) in
  if negb (has oflag OPOST) then data else
  foldl (λ out b, (if has oflag ONLCR && (b =? 10) then out ++ [13] else out) ++ [b]) [] data.

(** ** The table of terminals *)

Definition u32_max : Z := 2 ^ 32 - 1.

Record Sys := mkSys {
  PTYS : gmap Z Pty; NEXT_PTY : Z; CONSOLE_PTY : Z; sys_uart : list Z; sys_signals : list (Z * Z) }.

Definition boot : Sys := mkSys ∅ 0 u32_max [] [].

Definition fresh_pty (i : Z) : Pty := {|
  id := i; master_rx := []; slave_rx := []; termios := default_cooked; winsize := default_80x24;
  fg_pgrp := 1; session := 1; locked := true; line_buf := [] |}.

(** [fetch_add] wraps around at [u32::MAX]. *)
Definition alloc_pty (s : Sys) : Z * Sys :=
  let i := NEXT_PTY s in
  (i, mkSys (<[i := fresh_pty i]> (PTYS s)) ((i + 1) mod 2 ^ 32) (CONSOLE_PTY s) (sys_uart s) (sys_signals s)).

Definition get_pty (s : Sys) (i : Z) : option Pty := PTYS s !! i.

Definition create_console_pty (s : Sys) : Z * Sys :=
  let '(i, s) := alloc_pty s in
  (i, mkSys (alter (set_locked false) i (PTYS s)) (NEXT_PTY s) i (sys_uart s) (sys_signals s)).

Definition console_pty_id (s : Sys) : Z := CONSOLE_PTY s.

(** Run the line discipline on terminal [i], if it exists. *)
Definition with_pty (i : Z) (f : Term → Term) (s : Sys) : Sys :=
  match get_pty s i with
  | None => s
  | Some p =>
      let t := f (mkTerm p (sys_uart s) (sys_signals s)) in
      mkSys (<[i := pty t]> (PTYS s)) (NEXT_PTY s) (CONSOLE_PTY s) (uart t) (signals t)
  end.

Definition push_uart_byte (byte : Z) (s : Sys) : Sys :=
  let i := console_pty_id s in
  if i =? u32_max then s else with_pty i (input_byte_ldisc (console_pty_id s) byte) s.

Definition master_write (i : Z) (data : list Z) (s : Sys) : Sys :=
  with_pty i (input_all (console_pty_id s) data) s.

Definition slave_write (i : Z) (data : list Z) (s : Sys) : Sys :=
  with_pty i (on_pty (λ p, set_master_rx (master_rx p ++ process_output p data) p)) s.

(** ** The canonical-mode editor as a specification

    What a user sees of the discipline: keys edit a pending line, which is
    handed to the reader as a whole.  Echo and the UART are not part of it. *)

Inductive Key := KIgnore | KSignal (sig : Z) | KErase | KKill | KWordErase | KEof | KChar (b : Z) | KEol (b : Z).

Definition control (tm : Termios) (i : nat) : Z := default 0 (c_cc tm !! i).

(** Carriage-return and newline translation; [None] drops the byte. *)
Definition translate_cr (tm : Termios) (b : Z) : option Z :=
  let b := if has (c_iflag tm) ICRNL && (b =? 13) then 10 else b in
  if has (c_iflag tm) IGNCR && (b =? 13) then None
  else Some (if has (c_iflag tm) INLCR && (b =? 10) then 13 else b).

Definition ends_line (tm : Termios) (b : Z) : bool :=
  (b =? 10) || (negb (control tm VEOL =? 0) && (b =? control tm VEOL))
  || (negb (control tm VEOL2 =? 0) && (b =? control tm VEOL2)).

Definition key_of (tm : Termios) (b : Z) : Key :=
  match translate_cr tm b with
  | None => KIgnore
  | Some b =>
      let isig := has (c_lflag tm) ISIG in
      if isig && (b =? control tm VINTR) then KSignal 2 else
      if isig && (b =? control tm VQUIT) then KSignal 3 else
      if isig && (b =? control tm VSUSP) then KSignal 20 else
      if b =? control tm VERASE then KErase else
      if b =? control tm VKILL then KKill else
      if b =? control tm VWERASE then KWordErase else
      if b =? control tm VEOF then KEof else
      if ends_line tm b then KEol b else KChar b
  end.

Record Editor := mkEditor { pending : list Z; delivered : list Z; sent : list (Z * Z) }.

Fixpoint drop_while (f : Z → bool) (l : list Z) : list Z :=
  match l with
  | [] => []
  | x :: l' => if f x then drop_while f l' else l
  end.

(** Drop the longest suffix whose bytes satisfy [f]. *)
Definition trim (f : Z → bool) (l : list Z) : list Z := reverse (drop_while f (reverse l)).

Definition edit (pgrp : Z) (k : Key) (e : Editor) : Editor :=
  match k with
  | KIgnore => e
  | KSignal sig => mkEditor [] (delivered e) (sent e ++ [(pgrp, sig)])
  | KErase => mkEditor (removelast (pending e)) (delivered e) (sent e)
  | KKill => mkEditor [] (delivered e) (sent e)
  | KWordErase =>
      mkEditor (trim (λ b, negb (b =? 32)) (trim (λ b, b =? 32) (pending e))) (delivered e) (sent e)
  | KEof => mkEditor [] (delivered e ++ pending e) (sent e)
  | KChar b => mkEditor (pending e ++ [b]) (delivered e) (sent e)
  | KEol b => mkEditor [] (delivered e ++ pending e ++ [b]) (sent e)
  end.

Definition editor_of (t : Term) : Editor := mkEditor (line_buf (pty t)) (slave_rx (pty t)) (signals t).

(** ** The editor simulation *)

(** Two terminals that agree on everything but echo output. *)
Definition same (t t' : Term) : Prop :=
  editor_of t' = editor_of t ∧ termios (pty t') = termios (pty t) ∧ fg_pgrp (pty t') = fg_pgrp (pty t).

#[export] Instance same_equiv : Equivalence same.
Proof.
  split.
  - by repeat split.
  - intros t t' (E & E1 & E2). unfold same. by rewrite E, E1, E2.
  - intros t t' t'' (E & E1 & E2) (F & F1 & F2). unfold same. by rewrite F, F1, F2.
Qed.

Lemma same_echo console b t : same t (echo_byte console b t).
Proof. unfold echo_byte, same. by destruct (id (pty t) =? console). Qed.

Lemma same_echo_all console l t : same t (echo_all console l t).
Proof.
  revert t. induction l as [|b l IH]; intros t; [done|]. cbn. etrans; [apply (same_echo console b)|apply IH].
Qed.

Lemma same_echo_iter console l n t : same t (Nat.iter n (echo_all console l) t).
Proof. induction n as [|n IH]; [done|]. cbn. etrans; [exact IH|apply same_echo_all]. Qed.

#[export] Instance set_line_proper x : Proper (same ==> same) (on_pty (set_line_buf x)).
Proof. intros t t' (E & E1 & E2). injection E as El Es Eg. unfold same, editor_of. cbn. by rewrite Es, Eg, E1, E2. Qed.

Lemma same_pop console echo t : same (on_pty (λ p, set_line_buf (removelast (line_buf p)) p) t) (pop_line console echo t).
Proof. unfold pop_line. destruct echo; [apply same_echo_all|done]. Qed.

Lemma removelast_reverse (x : Z) (l : list Z) : removelast (reverse (x :: l)) = reverse l.
Proof. rewrite reverse_cons. by rewrite removelast_last. Qed.

Lemma last_reverse_cons (x : Z) (l : list Z) : last (reverse (x :: l)) = Some x.
Proof. rewrite reverse_cons. apply last_snoc. Qed.

(** Each erase loop trims the pending line, whatever it echoes. *)
Lemma erase_while_trim console f echo r : ∀ fuel t, line_buf (pty t) = reverse r → (length r ≤ fuel)%nat →
  same (on_pty (set_line_buf (reverse (drop_while f r))) t) (erase_while console fuel f echo t).
Proof.
  induction r as [|x r IH]; intros fuel t Hl Hf.
  - destruct fuel; cbn; rewrite ?Hl; cbn; unfold same, editor_of; cbn; by rewrite Hl.
  - destruct fuel as [|fuel]; [cbn in Hf; lia|]. cbn [erase_while]. rewrite Hl, last_reverse_cons. cbn [drop_while].
    destruct (f x) eqn:Ef; [|unfold same, editor_of; cbn; by rewrite Hl].
    destruct (same_pop console echo t) as (E & E1 & E2). injection E as El Es Eg.
    cbn [on_pty pty set_line_buf line_buf slave_rx termios fg_pgrp signals] in *. rewrite Hl, removelast_reverse in El. etrans; [|apply IH; [exact El|cbn in Hf; lia]].
    unfold same, editor_of. cbn. by rewrite Es, Eg, E1, E2.
Qed.

Lemma erase_while_spec console f echo t :
  same (on_pty (set_line_buf (trim f (line_buf (pty t)))) t)
       (erase_while console (length (line_buf (pty t))) f echo t).
Proof.
  apply erase_while_trim; [by rewrite reverse_involutive|by rewrite length_reverse].
Qed.

Lemma same_flush t t' : same t t' → same (flush_line t) (flush_line t').
Proof.
  intros (E & E1 & E2). injection E as El Es Eg. unfold same, editor_of, flush_line. cbn. by rewrite El, Es, Eg, E1, E2.
Qed.

(** Appending a byte to the line, then flushing it when it ends the line. *)
Lemma same_push t t' b : same t t' →
  same (on_pty (λ p, set_line_buf (line_buf p ++ [b]) p) t) (on_pty (λ p, set_line_buf (line_buf p ++ [b]) p) t').
Proof.
  intros (E & E1 & E2). injection E as El Es Eg. unfold same, editor_of. cbn. by rewrite El, Es, Eg, E1, E2.
Qed.

Lemma same_signal console c sig t :
  same (mkTerm (set_line_buf [] (pty t)) (uart t) (signals t ++ [(fg_pgrp (pty t), sig)])) (input_signal console c sig t).
Proof.
  unfold input_signal. pose proof (same_echo_all console [94; c; 10] t) as H.
  set (t' := echo_all console [94; c; 10] t) in *. clearbody t'. destruct H as (E & E1 & E2). injection E as El Es Eg.
  unfold same, editor_of. cbn [on_pty pty set_line_buf line_buf slave_rx termios fg_pgrp signals send_signal_to_fg].
  by rewrite Es, Eg, E1, E2.
Qed.

(** One byte in canonical mode is one editor step. *)
Lemma ldisc_step console b t : has (c_lflag (termios (pty t))) ICANON = true →
  let t' := input_byte_ldisc console b t in
  editor_of t' = edit (fg_pgrp (pty t)) (key_of (termios (pty t)) b) (editor_of t) ∧
  termios (pty t') = termios (pty t) ∧ fg_pgrp (pty t') = fg_pgrp (pty t).
Proof.
  intros Hc. cbv zeta. unfold input_byte_ldisc, key_of, translate_cr, control. rewrite Hc.
  set (tm := termios (pty t)) in *. set (b1 := if has (c_iflag tm) ICRNL && (b =? 13) then 10 else b).
  destruct (has (c_iflag tm) IGNCR && (b1 =? 13)); [done|].
  set (b2 := if has (c_iflag tm) INLCR && (b1 =? 10) then 13 else b1).
  destruct (has (c_lflag tm) ISIG && (b2 =? default 0 (c_cc tm !! VINTR))); [apply same_signal|].
  destruct (has (c_lflag tm) ISIG && (b2 =? default 0 (c_cc tm !! VQUIT))); [apply same_signal|].
  destruct (has (c_lflag tm) ISIG && (b2 =? default 0 (c_cc tm !! VSUSP))); [apply same_signal|].
  destruct (b2 =? default 0 (c_cc tm !! VERASE)).
  { destruct (line_buf (pty t)) as [|x l] eqn:El; [|apply same_pop].
    unfold edit, editor_of. cbn. by rewrite El. }
  destruct (b2 =? default 0 (c_cc tm !! VKILL)).
  { destruct (has (c_lflag tm) ECHO && has (c_lflag tm) ECHOK); [|done].
    apply (same_echo_iter console erase_seq _ (on_pty (set_line_buf []) t)). }
  destruct (b2 =? default 0 (c_cc tm !! VWERASE)).
  { set (t1 := erase_while console _ (λ b, b =? 32) _ t).
    pose proof (erase_while_spec console (λ b, b =? 32) (has (c_lflag tm) ECHO) t : same _ t1) as H1.
    assert (line_buf (pty t1) = trim (λ b, b =? 32) (line_buf (pty t))) as El by (by destruct H1 as ([= ? ? ?] & _)).
    pose proof (erase_while_spec console (λ b, negb (b =? 32)) (has (c_lflag tm) ECHO) t1) as H2.
    rewrite El in H2 at 1. cut (same (on_pty (set_line_buf (trim (λ b, negb (b =? 32)) (trim (λ b, b =? 32) (line_buf (pty t))))) t)
      (erase_while console (length (line_buf (pty t1))) (λ b, negb (b =? 32)) (has (c_lflag tm) ECHO) t1)); [done|].
    etrans; [|exact H2]. rewrite <- H1. done. }
  destruct (b2 =? default 0 (c_cc tm !! VEOF)); [done|].
  set (t1 := if has (c_lflag tm) ECHO then echo_byte console b2 t else _).
  assert (same t t1) as H1 by (unfold t1; repeat case_match; done || apply same_echo).
  unfold ends_line, control. destruct ((b2 =? 10) || _ || _).
  - apply (same_flush (on_pty (λ p, set_line_buf (line_buf p ++ [b2]) p) t)), same_push, H1.
  - apply same_push, H1.
Qed.

Lemma input_all_refines console data : ∀ t, has (c_lflag (termios (pty t))) ICANON = true →
  let t' := input_all console data t in
  editor_of t' = foldl (λ e k, edit (fg_pgrp (pty t)) k e) (editor_of t) (key_of (termios (pty t)) <$> data) ∧
  termios (pty t') = termios (pty t) ∧ fg_pgrp (pty t') = fg_pgrp (pty t).
Proof.
  induction data as [|b data IH]; intros t Hc; [done|]. cbv zeta in *. cbn [input_all foldl fmap list_fmap].
  destruct (ldisc_step console b t Hc) as (E & E1 & E2).
  destruct (IH (input_byte_ldisc console b t)) as (F & F1 & F2); [by rewrite E1|].
  unfold input_all in *. rewrite F, F1, F2, E, E1, E2. done.
Qed.

(** *** Typing a line *)

Lemma edit_chars pgrp w e : foldl (λ e k, edit pgrp k e) e (KChar <$> w) = mkEditor (pending e ++ w) (delivered e) (sent e).
Proof.
  revert e. induction w as [|b w IH]; intros e; cbn [foldl fmap list_fmap edit].
  - rewrite app_nil_r. by destruct e.
  - rewrite IH. cbn [pending delivered sent]. by rewrite <- app_assoc.
Qed.

(** Keys that are plain characters under [tm]. *)
Definition plain (tm : Termios) (b : Z) : bool :=
  match key_of tm b with KChar b' => b' =? b | _ => false end.

Lemma plain_key tm b : plain tm b = true → key_of tm b = KChar b.
Proof. unfold plain. destruct (key_of tm b); try done. by intros ->%Z.eqb_eq. Qed.

Lemma plain_keys tm w : forallb (plain tm) w = true → key_of tm <$> w = KChar <$> w.
Proof.
  intros H. apply list_fmap_ext. intros i b Hb%list_elem_of_lookup_2. apply plain_key.
  rewrite forallb_forall in H. by apply H, list_elem_of_In.
Qed.

(** *** Byte layout *)

Definition u32_ok (x : Z) : Prop := 0 ≤ x < 2 ^ 32.

Record termios_ok (t : Termios) : Prop := {
  tok_i : u32_ok (c_iflag t); tok_o : u32_ok (c_oflag t); tok_c : u32_ok (c_cflag t); tok_l : u32_ok (c_lflag t);
  tok_is : u32_ok (c_ispeed t); tok_os : u32_ok (c_ospeed t);
  tok_cc : length (c_cc t) = NCCS; tok_pad : pad t = [0] }.

Lemma from_to_u32 x : u32_ok x → from_le (to_le 4 x) = x.
Proof. intros Hx. rewrite from_to_le. apply Z.mod_small. exact Hx. Qed.

Ltac explode l n :=
  lazymatch n with
  | O => destruct l; [|done]
  | S ?n' => let x := fresh "x" in let l' := fresh "l" in destruct l as [|x l']; [done|]; explode l' n'
  end.

(** ** Properties *)

(** C9. In canonical mode, whatever bytes arrive, the line discipline behaves
    like the line editor: the pending line, the bytes handed to the reader and
    the signals sent are those of the specification, keystroke by keystroke. *)
Theorem ldisc_refines_editor console data t : has (c_lflag (termios (pty t))) ICANON = true →
  editor_of (input_all console data t) =
  foldl (λ e k, edit (fg_pgrp (pty t)) k e) (editor_of t) (key_of (termios (pty t)) <$> data).
Proof. intros Hc. by destruct (input_all_refines console data t Hc). Qed.

Definition demo_term : Term := mkTerm (fresh_pty 0) [] [].

(** "cd x", word erase, "ls", DEL, "s", CR *)
Lemma ldisc_refines_editor_witness :
  editor_of (input_all 0 [99; 100; 32; 120; 23; 108; 115; 127; 115; 13] demo_term) =
  mkEditor [] [99; 100; 32; 108; 115; 10] [].
Proof. rewrite (ldisc_refines_editor 0 _ demo_term); reflexivity. Defined.

(** A line of plain characters is invisible to the reader until the line
    is ended, and is then delivered whole and in order, ended by a newline;
    nothing is signalled. *)
Theorem typed_line_delivered console w eol t : has (c_lflag (termios (pty t))) ICANON = true →
  forallb (plain (termios (pty t))) w = true → key_of (termios (pty t)) eol = KEol 10 →
  editor_of (input_all console w t) = mkEditor (line_buf (pty t) ++ w) (slave_rx (pty t)) (signals t) ∧
  editor_of (input_all console (w ++ [eol]) t) =
    mkEditor [] (slave_rx (pty t) ++ line_buf (pty t) ++ w ++ [10]) (signals t).
Proof.
  intros Hc Hw He. destruct (input_all_refines console w t Hc) as (E & _).
  destruct (input_all_refines console (w ++ [eol]) t Hc) as (E' & _).
  rewrite fmap_app, foldl_app in E'. rewrite (plain_keys _ _ Hw), edit_chars in E, E'. split; [done|].
  rewrite E'. cbn [fmap list_fmap foldl]. rewrite He. cbn. by rewrite <- app_assoc.
Qed.

Lemma typed_line_delivered_witness :
  slave_rx (pty (input_all 0 ([104; 105] ++ [13]) demo_term)) = [104; 105; 10].
Proof.
  destruct (typed_line_delivered 0 [104; 105] 13 demo_term) as [_ E]; [reflexivity..|].
  exact (f_equal delivered E).
Defined.

(** In raw mode (no canonical processing, no signals, no CR/NL translation)
    the terminal is transparent: the reader gets exactly the bytes written. *)
Theorem raw_transparent console data t :
  has (c_lflag (termios (pty t))) ICANON = false → has (c_lflag (termios (pty t))) ISIG = false →
  has (c_iflag (termios (pty t))) ICRNL = false → has (c_iflag (termios (pty t))) IGNCR = false →
  has (c_iflag (termios (pty t))) INLCR = false →
  editor_of (input_all console data t) =
    mkEditor (line_buf (pty t)) (slave_rx (pty t) ++ data) (signals t).
Proof.
  revert t. induction data as [|b data IH]; intros t H1 H2 H3 H4 H5.
  { cbn. by rewrite app_nil_r. }
  cbn [input_all foldl].
  assert (same (on_pty (λ p, set_slave_rx (slave_rx p ++ [b]) p) t) (input_byte_ldisc console b t)) as (E & E1 & _).
  { unfold input_byte_ldisc. rewrite H1, H2, H3, H4, H5. cbn [andb].
    destruct (has (c_lflag (termios (pty t))) ECHO); [|done].
    pose proof (same_echo console b t) as H. set (t' := echo_byte console b t) in *. clearbody t'.
    destruct H as (E & E1 & E2). injection E as El Es Eg. unfold same, editor_of. cbn. by rewrite El, Es, Eg, E1, E2. }
  set (t1 := input_byte_ldisc console b t) in *. clearbody t1. injection E as El Es Eg. cbn in E1.
  fold (input_all console data t1). rewrite (IH t1) by (by rewrite E1).
  rewrite El, Es, Eg. cbn. by rewrite <- app_assoc.
Qed.

Lemma raw_transparent_witness :
  let tm := mkTermios 0 0 0 0 0 default_cc [0] 0 0 in
  let t := mkTerm (mkPty 3 [] [] tm default_80x24 1 1 false []) [] [] in
  slave_rx (pty (input_all 0 [3; 13; 4; 127] t)) = [3; 13; 4; 127].
Proof.
  exact (f_equal delivered (raw_transparent 0 [3; 13; 4; 127]
    (mkTerm (mkPty 3 [] [] (mkTermios 0 0 0 0 0 default_cc [0] 0 0) default_80x24 1 1 false []) [] [])
    eq_refl eq_refl eq_refl eq_refl eq_refl)).
Defined.

(** Terminal attributes survive the 60-byte user-space layout: encoding
    gives 60 bytes, and decoding them gives the attributes back. *)
Theorem termios_roundtrip t : termios_ok t → length (to_bytes t) = 60%nat ∧ from_bytes (to_bytes t) = t.
Proof.
  intros [Hi Ho Hc Hl His Hos Hcc Hpad]. destruct t as [i o c l ln cc pd isp osp]. cbn in *. subst pd.
  unfold NCCS in Hcc. explode cc 19%nat.
  split; [reflexivity|]. unfold from_bytes, to_bytes.
  cbn [c_iflag c_oflag c_cflag c_lflag c_line c_cc c_ispeed c_ospeed to_le].
  cbv [copy_at slice replicate app take drop length Nat.add Nat.sub insert list_insert lookup list_lookup default NCCS].
  f_equal; (by apply from_to_u32) || done.
Qed.

Lemma termios_roundtrip_witness : from_bytes (to_bytes default_cooked) = default_cooked.
Proof. apply (termios_roundtrip default_cooked). repeat split; vm_compute; congruence. Defined.

(** Undo newline expansion: CR LF becomes LF. *)
Fixpoint strip_cr (l : list Z) : list Z :=
  match l with
  | [] => []
  | b :: l' =>
      match l' with
      | c :: _ => if (b =? 13) && (c =? 10) then strip_cr l' else b :: strip_cr l'
      | [] => [b]
      end
  end.

Lemma process_output_acc onlcr data : ∀ out,
  foldl (λ out b, (if onlcr && (b =? 10) then out ++ [13] else out) ++ [b]) out data =
  out ++ flat_map (λ b, if onlcr && (b =? 10) then [13; b] else [b]) data.
Proof.
  induction data as [|b data IH]; intros out; cbn [foldl flat_map]; [by rewrite app_nil_r|].
  rewrite IH. destruct (onlcr && (b =? 10)); by rewrite <- !app_assoc.
Qed.

Lemma strip_cons b c l :
  strip_cr (b :: c :: l) = if (b =? 13) && (c =? 10) then strip_cr (c :: l) else b :: strip_cr (c :: l).
Proof. done. Qed.

(** Stripping passes over any byte that is not followed by LF. *)
Lemma strip_pass b l : (∀ c l', l = c :: l' → c ≠ 10) → strip_cr (b :: l) = b :: strip_cr l.
Proof.
  intros H. destruct l as [|c l]; [done|]. rewrite strip_cons.
  rewrite (proj2 (Z.eqb_neq c 10)) by (by eapply H). by rewrite andb_false_r.
Qed.

Lemma strip_expand data : strip_cr (flat_map (λ b, if b =? 10 then [13; b] else [b]) data) = data.
Proof.
  assert (∀ data c l', flat_map (λ b, if b =? 10 then [13; b] else [b]) data = c :: l' → c ≠ 10) as Hne.
  { intros [|b d] c l'; [done|]. cbn [flat_map]. destruct (Z.eqb_spec b 10); cbn [app]; by intros [= <- _]. }
  induction data as [|b data IH]; [done|]. cbn [flat_map].
  destruct (Z.eqb_spec b 10) as [->|Hb]; cbn [app].
  - rewrite strip_cons, strip_pass by apply Hne. cbn. by rewrite IH.
  - rewrite strip_pass by apply Hne. by rewrite IH.
Qed.

(** Output processing loses nothing: without OPOST it is the identity, and
    with newline expansion every LF becomes CR LF and undoing the expansion
    gives the bytes written. *)
Theorem process_output_roundtrip p data :
  (has (c_oflag (termios p)) OPOST = false → process_output p data = data) ∧
  (has (c_oflag (termios p)) OPOST = true → has (c_oflag (termios p)) ONLCR = true →
     strip_cr (process_output p data) = data ∧
     length (process_output p data) = (length data + length (filter (λ b, b = 10%Z) data))%nat).
Proof.
  unfold process_output. split; [by intros ->|]. intros -> ->. cbn [negb].
  rewrite process_output_acc. cbn [app andb]. split; [apply strip_expand|].
  induction data as [|b data IH]; [done|]. cbn [flat_map]. rewrite length_app, IH, filter_cons.
  destruct (b =? 10) eqn:Eb, (decide (b = 10)); cbn [length]; lia.
Qed.

Lemma process_output_roundtrip_witness :
  strip_cr (process_output (fresh_pty 0) [97; 10; 13; 10]) = [97; 10; 13; 10].
Proof. apply (process_output_roundtrip (fresh_pty 0) [97; 10; 13; 10]); reflexivity. Defined.

(** End-of-file on an empty line leaves the terminal exactly as it was: no
    trace of the key reaches the reader's buffer, so a reader cannot tell it
    from no input at all. *)
Theorem eof_on_empty_line_lost console b t : has (c_lflag (termios (pty t))) ICANON = true →
  key_of (termios (pty t)) b = KEof → line_buf (pty t) = [] → input_byte_ldisc console b t = t.
Proof.
  intros Hc Hk Hl. destruct t as [p u sg]. destruct p. cbn in Hl. subst.
  unfold key_of, translate_cr, control in Hk. unfold input_byte_ldisc. rewrite Hc. cbn [pty termios] in *.
  set (b1 := if has (c_iflag termios0) ICRNL && (b =? 13) then 10 else b) in *.
  destruct (has (c_iflag termios0) IGNCR && (b1 =? 13)); [done|].
  set (b2 := if has (c_iflag termios0) INLCR && (b1 =? 10) then 13 else b1) in *.
  do 3 (lazymatch goal with |- (if ?c then _ else _) = _ => destruct c; [done|] end). cbv iota.
  do 3 (lazymatch goal with |- (if ?c then _ else _) = _ => destruct c; [done|] end).
  destruct (b2 =? default 0 (c_cc termios0 !! VEOF)); [unfold flush_line, on_pty, set_line_buf, set_slave_rx; cbn; by rewrite app_nil_r|].
  by destruct (ends_line termios0 b2).
Qed.

Lemma eof_on_empty_line_lost_witness : input_byte_ldisc 0 4 demo_term = demo_term.
Proof. apply (eof_on_empty_line_lost 0 4 demo_term); reflexivity. Defined.
