(* ===== verification/User.v ===== *)
(** * Access to user memory ([syscall/fs.rs])

    [copy_to_user] and [copy_from_user] of the system-call layer work on the
    machine of [Paging] and the page-table root of the current process
    ([read_user_page_table_root]), one chunk per page.  Reading an unmapped page
    fails; writing to one maps a fresh zeroed page first and retries. *)

From S2P Require Import Prelude.
From S2P Require Import Pmm.
From S2P Require Import Paging.

(** [uaddr] is [user_addr + offset]; its overflow panics.  Every round reads at
    least one byte, so [n] rounds are enough. *)
Fixpoint copy_from_user_loop (fuel : nat) (root uaddr : Z) (n : nat) : M Mach (list Z) :=
  match fuel, n with
  | S fuel', S _ =>
      let! uaddr := or_panic (if bool_decide (uaddr < 2 ^ 64) then Some uaddr else None) in
      let! o := translate_user_va root uaddr in
      match o with
      | Some pa =>
          let page_rem := 4096 - Z.land uaddr 0xFFF in
          let chunk := Z.to_nat (Z.min page_rem (Z.of_nat n)) in
          let! bytes := gets (λ s, rd_bytes (mem s) pa chunk) in
          let! rest := copy_from_user_loop fuel' root (uaddr + Z.of_nat chunk) (n - chunk) in
          ret (bytes ++ rest)
      | None => fail EFAULT
      end
  | _, _ => ret []
  end.

Definition copy_from_user (root user_addr : Z) (n : nat) : M Mach (list Z) :=
  copy_from_user_loop n root user_addr n.

(** Every round writes a byte or takes a free page. *)
Fixpoint copy_to_user_loop (fuel : nat) (root uaddr : Z) (data : list Z) : M Mach () :=
  match fuel, data with
  | S fuel', _ :: _ =>
      let! uaddr := or_panic (if bool_decide (uaddr < 2 ^ 64) then Some uaddr else None) in
      let! o := translate_user_va root uaddr in
      match o with
      | Some pa =>
          let page_rem := 4096 - Z.land uaddr 0xFFF in
          let chunk := Z.to_nat (Z.min page_rem (Z.of_nat (length data))) in
          modify (λ s, set_mem (wr_bytes (mem s) pa (take chunk data)) s) ;;;
          copy_to_user_loop fuel' root (uaddr + Z.of_nat chunk) (drop chunk data)
      | None =>
          let page_addr := Z.land uaddr (not64 0xFFF) in
          let! o := lift_pmm Pmm.alloc_page in
          let! phys := ok_or o ENOMEM in
          write_zero_page phys ;;;
          map_user_page root page_addr phys USER_RW ;;;
          copy_to_user_loop fuel' root uaddr data
      end
  | _, _ => ret tt
  end.

Definition copy_to_user (root user_addr : Z) (data : list Z) : M Mach () := λ s,
  copy_to_user_loop (length data + Z.to_nat (Pmm.free_pages (mpmm s)) + 1) root user_addr data s.

(** ** Translation within a page *)

Lemma land_fff x : Z.land x 0xFFF = x mod 4096.
Proof. change 0xFFF with (Z.ones 12). by rewrite Z.land_ones by lia. Qed.

Lemma lor_page_offset a k : a mod 4096 = 0 → 0 ≤ k < 4096 → Z.lor a k = a + k.
Proof.
  intros Ha Hk. rewrite <- Z.add_lor_land. replace (Z.land a k) with 0; [lia|]. symmetry.
  replace a with (Z.shiftl (a / 4096) 12) by (rewrite Z.shiftl_mul_pow2 by lia; lia).
  apply Z.bits_inj'. intros i Hi. rewrite Z.land_spec, Z.testbit_0_l, Z.shiftl_spec by lia.
  destruct (decide (i < 12)); [by rewrite Z.testbit_neg_r by lia|].
  replace k with (k mod 2 ^ 12) by (apply Z.mod_small; lia). rewrite Z.mod_pow2_bits_high by lia. apply andb_false_r.
Qed.

Lemma pte_addr_aligned e : pte_addr e mod 4096 = 0.
Proof. unfold pte_addr. rewrite mask_arith. lia. Qed.

(** Addresses of one page translate together. *)
Lemma translate_same_page f root v k : 0 ≤ v → 0 ≤ k → v mod 4096 + k < 4096 →
  translate f root (v + k) = (λ a, a + k) <$> translate f root v.
Proof.
  intros Hv Hk Hb. rewrite !translate_leaf.
  assert (vpage (v + k) = vpage v) as Hp by (unfold vpage; f_equal; lia).
  apply vpage_indices in Hp as [-> ->]. destruct (leaf _ _ _ _) as [e|]; [|done]. cbn. f_equal.
  rewrite !land_fff, !lor_page_offset by (apply pte_addr_aligned || lia). lia.
Qed.

(** ** The byte-wise meaning of a read *)

Definition user_byte (f : Z → Z) (root v : Z) : option Z := f <$> translate f root v.
Definition user_bytes (f : Z → Z) (root v : Z) (n : nat) : option (list Z) :=
  mapM (user_byte f root) (seqZ v (Z.of_nat n)).

Lemma mapM_all_Some {A B} (g : A → option B) (h : A → B) l : (∀ x, x ∈ l → g x = Some (h x)) → mapM g l = Some (h <$> l).
Proof. intros H. apply mapM_Some, Forall2_fmap_r, Forall_Forall2_diag, Forall_forall. exact H. Qed.

Lemma mapM_app {A B} (g : A → option B) l k : mapM g (l ++ k) = l1 ← mapM g l; l2 ← mapM g k; Some (l1 ++ l2).
Proof.
  induction l as [|x l IH]; cbn; [by destruct (mapM g k)|]. destruct (g x); cbn; [|done]. rewrite IH.
  destruct (mapM g l); cbn; [|done]. by destruct (mapM g k).
Qed.

Lemma user_bytes_app f root v n m : user_bytes f root v (n + m) =
  l ← user_bytes f root v n; l' ← user_bytes f root (v + Z.of_nat n) m; Some (l ++ l').
Proof. unfold user_bytes. rewrite Nat2Z.inj_add, seqZ_app by lia. apply mapM_app. Qed.

Lemma user_bytes_page f root v pa n : 0 ≤ v → translate f root v = Some pa → v mod 4096 + Z.of_nat n ≤ 4096 →
  user_bytes f root v n = Some (rd_bytes f pa n).
Proof.
  intros Hv Ht Hn. unfold user_bytes, rd_bytes.
  rewrite (mapM_all_Some _ (λ x, f (pa + (x - v)))).
  - f_equal. replace (seqZ v (Z.of_nat n)) with (Z.add v <$> seqZ 0 (Z.of_nat n)) by (by rewrite fmap_add_seqZ, Z.add_0_r).
    rewrite <- list_fmap_compose. apply list_fmap_ext. intros i x _. cbn. f_equal. lia.
  - intros x Hx%elem_of_seqZ. unfold user_byte. replace x with (v + (x - v)) at 1 by lia.
    rewrite translate_same_page, Ht by lia. done.
Qed.

Lemma copy_from_user_loop_spec root fuel : ∀ v n s, (n ≤ fuel)%nat → 0 ≤ v → v + Z.of_nat n ≤ 2 ^ 64 →
  copy_from_user_loop fuel root v n s =
  (match user_bytes (mem s) root v n with Some l => Ok l | None => Err EFAULT end, s).
Proof.
  induction fuel as [|fuel IH]; intros v n s Hf Hv Hn; [by destruct n; [|lia]|].
  destruct n as [|n]; [done|]. cbn [copy_from_user_loop]. rewrite bool_decide_eq_true_2 by lia. kstep.
  unfold translate_user_va. kstep. destruct (translate (mem s) root v) as [pa|] eqn:Et.
  - rewrite land_fff. set (chunk := Z.to_nat _). assert (1 ≤ chunk ≤ S n)%nat as Hc by (unfold chunk; lia).
    assert (v mod 4096 + Z.of_nat chunk ≤ 4096) as Hpg by (unfold chunk; lia).
    kstep. unfold bind at 1. rewrite IH by lia. replace (S n) with (chunk + (S n - chunk))%nat at 2 by lia.
    rewrite user_bytes_app, (user_bytes_page _ _ _ _ _ Hv Et Hpg). cbn [mbind option_bind].
    by destruct (user_bytes _ _ _ _).
  - assert (user_bytes (mem s) root v 1 = None) as E1.
    { unfold user_bytes. change (seqZ v (Z.of_nat 1)) with [0 + v]. rewrite Z.add_0_l. cbn. unfold user_byte. by rewrite Et. }
    change (S n) with (1 + n)%nat. by rewrite user_bytes_app, E1.
Qed.

(** C26. Reading user memory page by page is reading it byte by byte through the
    page tables: the result is the bytes at the translated addresses, or EFAULT
    as soon as one address is unmapped; the machine is not changed. *)
Theorem copy_from_user_bytewise root user_addr n s : 0 ≤ user_addr → user_addr + Z.of_nat n ≤ 2 ^ 64 →
  copy_from_user root user_addr n s =
  (match user_bytes (mem s) root user_addr n with Some l => Ok l | None => Err EFAULT end, s).
Proof. intros Hv Hn. by apply copy_from_user_loop_spec. Qed.

(** Two pages mapped at 0x400000, filled with 7; a read across their boundary. *)
Definition demo_mem : Z → Z :=
  wr64 (wr64 (wr64 (wr64 (wr64 (λ _, 7) 0x1000 0x2003) 0x2000 0x3003) 0x3010 0x4003) 0x4000 0x9003) 0x4008 0xA003.

Lemma demo_bytes : user_bytes demo_mem 4096 0x400FFF 2 = Some [7; 7].
Proof. vm_compute. reflexivity. Qed.

Lemma copy_from_user_bytewise_witness :
  ∃ s, copy_from_user 4096 0x400FFF 2 s = (Ok [7; 7], s).
Proof.
  exists (mkMach (Pmm.mkPmm [] 0 0) demo_mem).
  rewrite (copy_from_user_bytewise 4096 0x400FFF 2 (mkMach (Pmm.mkPmm [] 0 0) demo_mem)); [|lia|lia].
  cbn [mem]. rewrite demo_bytes. reflexivity.
Defined.
