(* ===== verification/Sched.v ===== *)
(** * Threads, scheduler and timed sleep
      ([sched/process.rs], [sched/scheduler.rs], [sched/wait.rs], [sched/cpu.rs])

    The static tables become fields of [Sys].  The CPU a function runs on, the
    address of a new kernel stack and the trampoline address come from outside
    and are arguments.  [schedule] ends in a context switch done in assembly:
    the model returns which thread's context is saved into, which one is loaded
    and which page table is activated. *)

From S2P Require Import Prelude.

(** ** Threads *)

Inductive ThreadState := Ready | Running | Blocked | Dead.

#[export] Instance ThreadState_eq_dec : EqDecision ThreadState.
Proof. solve_decision. Defined.

Record Context := mkContext {
  x19 : Z; x20 : Z; x21 : Z; x22 : Z; x23 : Z; x24 : Z; x25 : Z; x26 : Z; x27 : Z; x28 : Z; x29 : Z; x30 : Z;
  sp : Z; user_pc : Z; user_flags : Z; user_sp : Z; page_table_root : Z; user_tls : Z }.

Definition zero_ctx : Context := mkContext 0 0 0 0 0 0 0 0 0 0 0 0 0 0 0 0 0 0.

(** A context made by [zero], [set_return_addr] and the user-mode fields. *)
Definition entry_ctx (ret_addr stack_top pc usp root tls : Z) : Context :=
  mkContext 0 0 0 0 0 0 0 0 0 0 0 ret_addr stack_top pc 0 usp root tls.

Definition prepare_first_run (c : Context) : Context :=
  mkContext (user_pc c) (user_flags c) (user_sp c) (page_table_root c) (user_tls c)
    (x24 c) (x25 c) (x26 c) (x27 c) (x28 c) (x29 c) (x30 c) (sp c)
    (user_pc c) (user_flags c) (user_sp c) (page_table_root c) (user_tls c).

(** The kernel stack is known by its top; [address_space] by its root. *)
Record Thread := mkThread {
  pid : Z; name : string; state : ThreadState; context : Context; kernel_stack : option Z;
  vruntime : Z; is_user : bool; first_run : bool; address_space : option Z }.

Definition set_state (x : ThreadState) (t : Thread) : Thread :=
  mkThread (pid t) (name t) x (context t) (kernel_stack t) (vruntime t) (is_user t) (first_run t) (address_space t).
Definition set_vruntime (x : Z) (t : Thread) : Thread :=
  mkThread (pid t) (name t) (state t) (context t) (kernel_stack t) x (is_user t) (first_run t) (address_space t).
Definition start_user (t : Thread) : Thread :=
  mkThread (pid t) (name t) (state t) (prepare_first_run (context t)) (kernel_stack t) (vruntime t) (is_user t)
    false (address_space t).

Definition new_kernel (p : Z) (n : string) (entry stack_top : Z) : Thread :=
  mkThread p n Ready (entry_ctx entry stack_top 0 0 0 0) (Some stack_top) 0 false false None.
Definition new_idle (n : string) : Thread :=
  mkThread 0 n Running zero_ctx None u64_max false false None.
Definition new_user (n : string) (p entry usp root trampoline stack_top : Z) : Thread :=
  mkThread p n Ready (entry_ctx trampoline stack_top entry usp root 0) (Some stack_top) 0 true true (Some root).
Definition new_user_cloned (n : string) (p pc usp root tls trampoline stack_top : Z) : Thread :=
  mkThread p n Ready (entry_ctx trampoline stack_top pc usp root tls) (Some stack_top) 0 true true None.

(** ** State *)

Record Scheduler := mkScheduler {
  run_queues : list (list Thread); current : list (option Thread); num_cpus : nat; initialized : bool }.

Definition MAX_CPUS : nat := 8.

Record Sys := mkSys {
  SCHEDULER : Scheduler;
  CURRENT_PID : list Z;
  NEXT_PID : Z;
  TICK : Z;
  TICK_HZ : Z;
  SLEEP_QUEUE : gmap Z (list Z);
  ipis : list nat }.

Definition boot : Sys := mkSys (mkScheduler [] [] 0 false) (replicate MAX_CPUS 0) 1 0 100 ∅ [].

Definition set_sched (x : Scheduler) (s : Sys) : Sys :=
  mkSys x (CURRENT_PID s) (NEXT_PID s) (TICK s) (TICK_HZ s) (SLEEP_QUEUE s) (ipis s).
Definition set_queues (x : list (list Thread)) (s : Sys) : Sys :=
  let d := SCHEDULER s in set_sched (mkScheduler x (current d) (num_cpus d) (initialized d)) s.
Definition set_currents (x : list (option Thread)) (s : Sys) : Sys :=
  let d := SCHEDULER s in set_sched (mkScheduler (run_queues d) x (num_cpus d) (initialized d)) s.
Definition set_sleep (x : gmap Z (list Z)) (s : Sys) : Sys :=
  mkSys (SCHEDULER s) (CURRENT_PID s) (NEXT_PID s) (TICK s) (TICK_HZ s) x (ipis s).
Definition set_tick (x : Z) (s : Sys) : Sys :=
  mkSys (SCHEDULER s) (CURRENT_PID s) (NEXT_PID s) x (TICK_HZ s) (SLEEP_QUEUE s) (ipis s).

(** [fetch_add] wraps around. *)
Definition alloc_pid : M Sys Z := λ s,
  (Ok (NEXT_PID s), mkSys (SCHEDULER s) (CURRENT_PID s) (wrapping_add (NEXT_PID s) 1) (TICK s) (TICK_HZ s)
    (SLEEP_QUEUE s) (ipis s)).

Definition set_current_pid (cpu : nat) (p : Z) (s : Sys) : Sys :=
  if (cpu <? MAX_CPUS)%nat
  then mkSys (SCHEDULER s) (<[cpu := p]> (CURRENT_PID s)) (NEXT_PID s) (TICK s) (TICK_HZ s) (SLEEP_QUEUE s) (ipis s)
  else s.
Definition get_current_pid (cpu : nat) (s : Sys) : Z :=
  if (cpu <? MAX_CPUS)%nat then default 0 (CURRENT_PID s !! cpu) else 0.

Definition init (n : nat) (idle_name : nat → string) (s : Sys) : Sys :=
  let d := SCHEDULER s in
  set_sched (mkScheduler (run_queues d ++ replicate n []) (current d ++ ((λ i, Some (new_idle (idle_name i))) <$> seq 0 n))
    n true) s.

(** ** Picking a thread *)

Definition is_ready (t : Thread) : bool := bool_decide (state t = Ready).
Definition count_ready (q : list Thread) : nat := length (filter (λ t, is_ready t) q).

Definition least_loaded_cpu (d : Scheduler) : nat :=
  default 0%nat (min_by_key (λ c, Z.of_nat (count_ready (default [] (run_queues d !! c)))) (seq 0 (num_cpus d))).

(** [spawn_kernel_thread]; [cpu] is the calling CPU. *)
Definition spawn_kernel_thread (cpu : nat) (n : string) (entry stack_top : Z) : M Sys Z :=
  let! p := alloc_pid in
  let! s := get in
  match run_queues (SCHEDULER s) with
  | [] => ret p
  | qs =>
      let target := least_loaded_cpu (SCHEDULER s) in
      let! q := or_panic (qs !! target) in
      modify (set_queues (<[target := q ++ [new_kernel p n entry stack_top]]> qs)) ;;;
      when (negb (target =? cpu)%nat)
        (modify (λ s, mkSys (SCHEDULER s) (CURRENT_PID s) (NEXT_PID s) (TICK s) (TICK_HZ s) (SLEEP_QUEUE s)
           (ipis s ++ [target]))) ;;;
      ret p
  end.

(** [iter().enumerate().filter(ready)] *)
Definition ready_entries (q : list Thread) : list (nat * Thread) :=
  filter (λ e, is_ready e.2) (imap pair q).

(** [remove(i)] of a queue that has an entry there. *)
Definition take_at (q : list Thread) (i : nat) : option (Thread * list Thread) :=
  t ← q !! i; Some (t, delete i q).

Definition pick_local (q : list Thread) : option nat := fst <$> min_by_key (λ e, vruntime e.2) (ready_entries q).
Definition steal_index (q : list Thread) : option nat := fst <$> last (ready_entries q).

Definition pick_victim (cpu : nat) (d : Scheduler) : option nat :=
  max_by_key (λ c, Z.of_nat (count_ready (default [] (run_queues d !! c))))
    (filter (λ c, c ≠ cpu) (seq 0 (num_cpus d))).

(** Steps 1 and 2 of [schedule]: the chosen thread and the remaining queues. *)
Definition pick_next (cpu : nat) (d : Scheduler) : option (Thread * list (list Thread)) :=
  let qs := run_queues d in
  match (q ← qs !! cpu; i ← pick_local q; take_at q i) with
  | Some (t, q') => Some (t, <[cpu := q']> qs)
  | None =>
      v ← pick_victim cpu d; q ← qs !! v;
      if (1 <? count_ready q)%nat then
        i ← steal_index q; '(t, q') ← take_at q i; Some (t, <[v := q']> qs)
      else None
  end.

(** ** [schedule] *)

(** What the assembly switch is given: the thread whose context is written
    ([None] for the null pointer), the thread to run, whether the idle loop is
    left, and the page table to activate. *)
Record Switch := mkSwitch { sw_old : option Z; sw_new : Z; sw_idle : bool; sw_page_table : option Z }.

(** Whether a context is really loaded: not when the old context is null and
    the CPU was not idle. *)
Definition switches (w : Switch) : bool := sw_idle w || bool_decide (is_Some (sw_old w)).

(** Time-slice accounting of the running thread. *)
Definition charge (t : Thread) : Thread := if pid t =? 0 then t else set_vruntime (saturating_add (vruntime t) 1) t.

(** [next] becomes the running thread of [cpu]. *)
Definition start_next (t : Thread) : Thread :=
  set_state Running (if is_user t && first_run t then start_user t else t).

Definition schedule (cpu_id : nat) : M Sys (option Switch) :=
  let! s := get in
  let d := SCHEDULER s in
  if negb (initialized d) || (num_cpus d <=? cpu_id)%nat then ret None else
  let! curr := or_panic (current d !! cpu_id) in
  let! _ := or_panic (run_queues d !! cpu_id) in
  modify (set_currents (<[cpu_id := charge <$> curr]> (current d))) ;;;
  match pick_next cpu_id d with
  | None => ret None
  | Some (next, qs) =>
      modify (set_queues qs) ;;;
      match charge <$> curr with
      | None => ret None
      | Some curr =>
          let next := start_next next in
          let page_table := if is_user next then Some (page_table_root (context next)) else None in
          let! s := get in
          if pid curr =? 0 then
            put (set_current_pid cpu_id (pid next)
                  (set_currents (<[cpu_id := Some next]> (current (SCHEDULER s))) s)) ;;;
            ret (Some (mkSwitch None (pid next) true page_table))
          else
            let! q := or_panic (qs !! cpu_id) in
            let q := match state curr with
                     | Running => q ++ [set_state Ready curr]
                     | Blocked => q ++ [curr]
                     | _ => q
                     end in
            let s := set_queues (<[cpu_id := q]> qs) s in
            let s := set_currents (<[cpu_id := Some next]> (current (SCHEDULER s))) s in
            put (set_current_pid cpu_id (pid next) s) ;;;
            ret (Some (mkSwitch (pid <$> last q) (pid next) false page_table))
      end
  end.

(** ** Sleeping and waking *)

Definition current_tick (s : Sys) : Z := TICK s.
Definition set_tick_hz (hz : Z) (s : Sys) : Sys :=
  mkSys (SCHEDULER s) (CURRENT_PID s) (NEXT_PID s) (TICK s) hz (SLEEP_QUEUE s) (ipis s).

(** Wake the first Blocked thread with this pid, in one queue and in all. *)
Fixpoint wake_in (p : Z) (q : list Thread) : option (list Thread) :=
  match q with
  | [] => None
  | t :: q' =>
      if (pid t =? p) && bool_decide (state t = Blocked) then Some (set_state Ready t :: q')
      else cons t <$> wake_in p q'
  end.

Fixpoint wake_queues (p : Z) (qs : list (list Thread)) : list (list Thread) :=
  match qs with
  | [] => []
  | q :: qs' => match wake_in p q with Some q' => q' :: qs' | None => q :: wake_queues p qs' end
  end.

(** The expired prefix of the sleep queue, in deadline order. *)
Definition expired (now : Z) (q : gmap Z (list Z)) : list (Z * list Z) :=
  filter (λ e, e.1 ≤ now) (bentries q).

(** [TICK] is a wrapping atomic; [fetch_add(..) + 1] is a checked addition. *)
Definition tick : M Sys () :=
  let! s := get in
  let! now := or_panic (add64 (TICK s) 1) in
  let gone := expired now (SLEEP_QUEUE s) in
  put (set_sleep (filter (λ e, now < e.1) (SLEEP_QUEUE s)) (set_tick now s)) ;;;
  for_each (concat gone.*2) (λ p, modify (λ s, set_queues (wake_queues p (run_queues (SCHEDULER s))) s)).

Definition register_wakeup (p wake_tick : Z) (s : Sys) : Sys :=
  set_sleep (<[wake_tick := default [] (SLEEP_QUEUE s !! wake_tick) ++ [p]]> (SLEEP_QUEUE s)) s.

Definition cancel_wakeup (p : Z) (s : Sys) : Sys :=
  set_sleep ((λ l, filter (λ x, x ≠ p) l) <$> SLEEP_QUEUE s) s.

Definition block_current_until (cpu_id : nat) (wake_tick : Z) : M Sys (option Switch) :=
  let! s := get in
  let p := get_current_pid cpu_id s in
  let! curr := or_panic (current (SCHEDULER s) !! cpu_id) in
  put (set_currents (<[cpu_id := set_state Blocked <$> curr]> (current (SCHEDULER s))) s) ;;;
  modify (register_wakeup p wake_tick) ;;;
  schedule cpu_id.

Definition sleep_ticks (cpu_id : nat) (n : Z) : M Sys (option Switch) :=
  if n =? 0 then ret None else
  let! s := get in
  let! wake_at := or_panic (add64 (current_tick s) n) in
  block_current_until cpu_id wake_at.

Definition sleep_ns (cpu_id : nat) (ns : Z) : M Sys (option Switch) :=
  let! s := get in
  let hz := Z.max (TICK_HZ s) 1 in
  let! x := or_panic (mul64 ns hz) in
  let! x := or_panic (add64 x 999999999) in
  sleep_ticks cpu_id (Z.max (x / 1000000000) 1).

(** ** Exits *)

Definition mark_current_dead (cpu_id : nat) : M Sys () :=
  let! s := get in
  let d := SCHEDULER s in
  if (cpu_id <? num_cpus d)%nat then
    let! curr := or_panic (current d !! cpu_id) in
    put (set_currents (<[cpu_id := set_state Dead <$> curr]> (current d)) s)
  else ret tt.

Definition kill_if (pids : list Z) (t : Thread) : Thread :=
  if bool_decide (pid t ∈ pids) then set_state Dead t else t.

(** Every CPU below [num_cpus]; the tables have exactly that many entries. *)
Definition mark_threads_dead (pids : list Z) (s : Sys) : Sys :=
  let d := SCHEDULER s in
  set_sched (mkScheduler (List.map (List.map (kill_if pids)) (run_queues d)) (List.map (option_map (kill_if pids)) (current d))
    (num_cpus d) (initialized d)) s.

(** ** Invariant *)

Record wf (d : Scheduler) : Prop := {
  wf_init : initialized d = true;
  wf_queues : length (run_queues d) = num_cpus d;
  wf_current : length (current d) = num_cpus d }.

(** Every thread the scheduler holds. *)
Definition threads (d : Scheduler) : list Thread := concat (run_queues d) ++ omap (λ o, o) (current d).

(** ** Lists of queues *)

Lemma concat_insert {A} (qs : list (list A)) c q : (c < length qs)%nat →
  concat (<[c := q]> qs) = concat (take c qs) ++ q ++ concat (drop (S c) qs).
Proof. intros Hc. rewrite insert_take_drop by done. by rewrite concat_app. Qed.

Lemma concat_lookup {A} (qs : list (list A)) c q : qs !! c = Some q →
  concat qs = concat (take c qs) ++ q ++ concat (drop (S c) qs).
Proof. intros Hq. rewrite <- (take_drop_middle qs c q Hq) at 1. by rewrite concat_app. Qed.

Lemma omap_insert {A} (l : list (option A)) c o : (c < length l)%nat →
  omap (λ x, x) (<[c := o]> l) = omap (λ x, x) (take c l) ++ option_list o ++ omap (λ x, x) (drop (S c) l).
Proof. intros Hc. rewrite insert_take_drop by done. rewrite omap_app. cbn. by destruct o. Qed.

Lemma omap_lookup {A} (l : list (option A)) c o : l !! c = Some o →
  omap (λ x, x) l = omap (λ x, x) (take c l) ++ option_list o ++ omap (λ x, x) (drop (S c) l).
Proof. intros Hq. rewrite <- (take_drop_middle l c o Hq) at 1. rewrite omap_app. cbn. by destruct o. Qed.

(** ** Facts about the choice *)

Lemma elem_of_ready_entries q i t : (i, t) ∈ ready_entries q ↔ q !! i = Some t ∧ state t = Ready.
Proof.
  unfold ready_entries. rewrite list_elem_of_filter, elem_of_lookup_imap. unfold is_ready. cbn.
  rewrite bool_decide_spec. naive_solver.
Qed.

Lemma ready_entries_nil q : ready_entries q = [] ↔ ∀ t, t ∈ q → state t ≠ Ready.
Proof.
  split.
  - intros E t [i Hi]%list_elem_of_lookup Hr.
    assert ((i, t) ∈ ready_entries q) as H by (by apply elem_of_ready_entries). rewrite E in H.
    by apply not_elem_of_nil in H.
  - intros H. destruct (ready_entries q) as [|[i t] l] eqn:E; [done|].
    assert ((i, t) ∈ ready_entries q) as [Hi Hr]%elem_of_ready_entries by (rewrite E; by left).
    by apply list_elem_of_lookup_2, H in Hi.
Qed.

Lemma take_at_Some q i t q' : take_at q i = Some (t, q') ↔ q !! i = Some t ∧ q' = delete i q.
Proof. unfold take_at. destruct (q !! i); cbn; naive_solver. Qed.

(** Where the chosen thread comes from. *)
Record picked (cpu : nat) (d : Scheduler) (t : Thread) (qs : list (list Thread)) (c i : nat) (q : list Thread) : Prop := {
  picked_queue : run_queues d !! c = Some q;
  picked_at : q !! i = Some t;
  picked_rest : qs = <[c := delete i q]> (run_queues d);
  picked_ready : state t = Ready;
  picked_why :
    (c = cpu ∧ ∀ t', t' ∈ q → state t' = Ready → vruntime t ≤ vruntime t') ∨
    (c ≠ cpu ∧ (∀ q0 t', run_queues d !! cpu = Some q0 → t' ∈ q0 → state t' ≠ Ready) ∧ (1 < count_ready q)%nat ∧
     ∀ c' q', c' ≠ cpu → run_queues d !! c' = Some q' → (count_ready q' ≤ count_ready q)%nat) }.

Lemma pick_local_spec q i : pick_local q = Some i →
  ∃ t, q !! i = Some t ∧ state t = Ready ∧ ∀ t', t' ∈ q → state t' = Ready → vruntime t ≤ vruntime t'.
Proof.
  unfold pick_local. intros ([i' t] & [Hin Hmin]%min_by_key_spec & ->)%fmap_Some.
  apply elem_of_ready_entries in Hin as [Hi Hr]. exists t. do 2 (split; [done|]).
  intros t' [j Hj]%list_elem_of_lookup Hr'. apply (Hmin (j, t')). by apply elem_of_ready_entries.
Qed.

Lemma pick_local_None q : pick_local q = None ↔ ∀ t, t ∈ q → state t ≠ Ready.
Proof. unfold pick_local. rewrite fmap_None, min_by_key_None. apply ready_entries_nil. Qed.

Lemma steal_index_spec q i : steal_index q = Some i → ∃ t, q !! i = Some t ∧ state t = Ready.
Proof.
  unfold steal_index. intros ([i' t] & [l El]%last_Some & ->)%fmap_Some.
  assert ((i', t) ∈ ready_entries q) as H%elem_of_ready_entries by (rewrite El; apply elem_of_app; right; by left). eauto.
Qed.

Lemma pick_local_step cpu d q : run_queues d !! cpu = Some q →
  (∃ i t, pick_local q = Some i ∧ q !! i = Some t ∧ pick_next cpu d = Some (t, <[cpu := delete i q]> (run_queues d))) ∨
  (pick_local q = None ∧ pick_next cpu d =
    (v ← pick_victim cpu d; q ← run_queues d !! v;
      if (1 <? count_ready q)%nat then
        i ← steal_index q; '(t, q') ← take_at q i; Some (t, <[v := q']> (run_queues d))
      else None)).
Proof.
  intros Hq. unfold pick_next. rewrite Hq. cbn [mbind option_bind].
  destruct (pick_local q) as [i|] eqn:Ei; [left|right; done].
  destruct (pick_local_spec q i Ei) as (t & Hi & _). exists i, t. do 2 (split; [done|]).
  cbn. unfold take_at. by rewrite Hi.
Qed.

Lemma pick_next_Some cpu d q0 t qs : length (run_queues d) = num_cpus d → run_queues d !! cpu = Some q0 →
  pick_next cpu d = Some (t, qs) → ∃ c i q, picked cpu d t qs c i q.
Proof.
  intros Hlen Hq0 E. destruct (pick_local_step cpu d q0 Hq0) as [(i & t' & Ei & Hi & E')|[Hn E']]; rewrite E' in E.
  - simplify_eq. destruct (pick_local_spec _ _ Ei) as (t' & Hi' & Hr & Hmin). simplify_eq.
    exists cpu, i, q0. constructor; auto.
  - apply bind_Some in E as (v & Ev & (q & Hq & E)%bind_Some).
    destruct (Nat.ltb_spec 1 (count_ready q)) as [H1|]; [|done].
    apply bind_Some in E as (i & Ei & ([t' q'] & (Hi & ->)%take_at_Some & E)%bind_Some). simplify_eq.
    destruct (steal_index_spec _ _ Ei) as (t' & Hi' & Hr). simplify_eq.
    apply max_by_key_spec in Ev as [[Hv Hin]%list_elem_of_filter Hmax].
    exists v, i, q. constructor; auto. right. split; [done|]. split; [|split; [done|]].
    + intros q1 t' Hq1. simplify_eq. by apply pick_local_None.
    + intros c' q' Hc' Hq'. specialize (Hmax c'). rewrite Hq', Hq in Hmax. cbn in Hmax.
      apply Nat2Z.inj_le, Hmax, list_elem_of_filter. split; [done|]. apply elem_of_seq.
      apply lookup_lt_Some in Hq'. lia.
Qed.

Lemma pick_next_None cpu d q0 : length (run_queues d) = num_cpus d → run_queues d !! cpu = Some q0 →
  pick_next cpu d = None →
  (∀ t, t ∈ q0 → state t ≠ Ready) ∧ ∀ c q, c ≠ cpu → run_queues d !! c = Some q → (count_ready q ≤ 1)%nat.
Proof.
  intros Hlen Hq0 E. destruct (pick_local_step cpu d q0 Hq0) as [(i & t & _ & _ & E')|[Hn E']]; rewrite E' in E; [done|].
  split; [by apply pick_local_None|]. intros c q Hc Hq.
  assert (c ∈ filter (λ c, c ≠ cpu) (seq 0 (num_cpus d))) as Hin.
  { apply list_elem_of_filter. split; [done|]. apply elem_of_seq. apply lookup_lt_Some in Hq. lia. }
  unfold pick_victim in E. destruct (max_by_key _ _) as [v|] eqn:Ev.
  2:{ apply max_by_key_None in Ev. rewrite Ev in Hin. by apply not_elem_of_nil in Hin. }
  apply max_by_key_spec in Ev as [[Hv Hvin]%list_elem_of_filter Hmax]. specialize (Hmax c Hin).
  apply elem_of_seq in Hvin. rewrite Hq in Hmax. cbn [default from_option id] in Hmax.
  destruct (lookup_lt_is_Some_2 (run_queues d) v ltac:(lia)) as [qv Hqv].
  cbn [mbind option_bind] in E. rewrite Hqv in E, Hmax.
  cbn [mbind option_bind default from_option id] in E, Hmax.
  destruct (Nat.ltb_spec 1 (count_ready qv)) as [H1|]; [|lia]. exfalso.
  destruct (steal_index qv) as [i|] eqn:Ei.
  - destruct (steal_index_spec _ _ Ei) as (t & Hi & _). cbn in E. unfold take_at in E. by rewrite Hi in E.
  - unfold steal_index in Ei. apply fmap_None, last_None in Ei.
    assert (filter (λ t, is_ready t) qv = []) as El; [|unfold count_ready in H1; rewrite El in H1; cbn in H1; lia].
    rewrite ready_entries_nil in Ei. apply filter_none. intros t Ht. unfold is_ready. rewrite bool_decide_spec. by apply Ei.
Qed.

(** What becomes of the thread that leaves the CPU. *)
Definition requeue (t : Thread) : list Thread :=
  if pid t =? 0 then [] else
  match state t with Running => [set_state Ready t] | Blocked => [t] | _ => [] end.

Definition page_table_of (t : Thread) : option Z :=
  if is_user t then Some (page_table_root (context t)) else None.

Lemma charge_pid t : pid (charge t) = pid t.
Proof. unfold charge. by destruct (pid t =? 0). Qed.

Lemma charge_state t : state (charge t) = state t.
Proof. unfold charge. by destruct (pid t =? 0). Qed.

Lemma start_next_pid t : pid (start_next t) = pid t.
Proof. unfold start_next. by destruct (is_user t && first_run t). Qed.

Lemma sched_set_current_pid c p s : SCHEDULER (set_current_pid c p s) = SCHEDULER s.
Proof. unfold set_current_pid. by case_match. Qed.

Lemma schedule_spec cpu s curr : wf (SCHEDULER s) → current (SCHEDULER s) !! cpu = Some (Some curr) →
  let d := SCHEDULER s in
  (pick_next cpu d = None ∧ schedule cpu s = (Ok None, set_currents (<[cpu := Some (charge curr)]> (current d)) s)) ∨
  (∃ next qs q, pick_next cpu d = Some (next, qs) ∧ qs !! cpu = Some q ∧
     schedule cpu s =
       (Ok (Some (mkSwitch (if pid curr =? 0 then None else pid <$> last (q ++ requeue (charge curr)))
          (pid next) (pid curr =? 0) (page_table_of (start_next next)))),
        set_current_pid cpu (pid next) (set_sched (mkScheduler (<[cpu := q ++ requeue (charge curr)]> qs)
          (<[cpu := Some (start_next next)]> (current d)) (num_cpus d) (initialized d)) s))).
Proof.
  intros [Hi Hq Hc] Hcurr d. fold d in Hi, Hq, Hc, Hcurr.
  pose proof (lookup_lt_Some _ _ _ Hcurr) as Hlt.
  destruct (lookup_lt_is_Some_2 (run_queues d) cpu ltac:(lia)) as [q0 Hq0].
  unfold schedule. kstep. fold d. rewrite Hi, (proj2 (Nat.leb_gt _ _)) by lia. cbn [negb orb].
  rewrite Hcurr, Hq0. kstep. destruct (pick_next cpu d) as [[next qs]|] eqn:Ep; [right|by left].
  destruct (pick_next_Some cpu d q0 next qs Hq Hq0 Ep) as (c & i & q1 & [Pq Pa -> Pr _]).
  destruct (lookup_lt_is_Some_2 (<[c := delete i q1]> (run_queues d)) cpu) as [q Hqs]; [rewrite length_insert; lia|].
  exists next, (<[c := delete i q1]> (run_queues d)), q. do 2 (split; [done|]).
  kstep. change (charge <$> Some curr) with (Some (charge curr)). cbv iota.
  rewrite !charge_pid, !start_next_pid. unfold requeue. rewrite charge_pid, charge_state.
  kstep. destruct (pid curr =? 0) eqn:E0.
  - kstep. rewrite app_nil_r, (list_insert_id _ cpu q Hqs). cbn. rewrite list_insert_insert_eq.
    unfold ret, set_currents, set_queues, set_sched. cbn. fold d. by rewrite Hi.
  - rewrite Hqs. kstep. cbn. rewrite list_insert_insert_eq. unfold ret, set_currents, set_queues, set_sched. cbn.
    fold d. rewrite Hi. destruct (state curr); rewrite ?app_nil_r; done.
Qed.

(** ** Conservation *)

Lemma concat_take_thread qs c i (q : list Thread) t : qs !! c = Some q → q !! i = Some t →
  concat qs ≡ₚ t :: concat (<[c := delete i q]> qs).
Proof.
  intros Hq Ht. rewrite (concat_lookup _ _ _ Hq), concat_insert by (by eapply lookup_lt_Some).
  rewrite (delete_Permutation q i t Ht) at 1. solve_Permutation.
Qed.

Lemma concat_append_thread qs c (q r : list Thread) : qs !! c = Some q →
  concat (<[c := q ++ r]> qs) ≡ₚ r ++ concat qs.
Proof.
  intros Hq. rewrite (concat_lookup _ _ _ Hq), concat_insert by (by eapply lookup_lt_Some). solve_Permutation.
Qed.

Lemma omap_replace (cur : list (option Thread)) c t t' : cur !! c = Some (Some t) →
  ∃ rest, omap (λ o, o) cur ≡ₚ t :: rest ∧ omap (λ o, o) (<[c := Some t']> cur) ≡ₚ t' :: rest.
Proof.
  intros Hc. exists (omap (λ o, o) (take c cur) ++ omap (λ o, o) (drop (S c) cur)).
  rewrite (omap_lookup _ _ _ Hc), omap_insert by (by eapply lookup_lt_Some). cbn [option_list]. split; solve_Permutation.
Qed.

Lemma switch_wf cpu next s qs (q : list Thread) t : wf (SCHEDULER s) → length qs = num_cpus (SCHEDULER s) →
  wf (SCHEDULER (set_current_pid cpu next (set_sched (mkScheduler (<[cpu := q]> qs)
    (<[cpu := Some t]> (current (SCHEDULER s))) (num_cpus (SCHEDULER s)) (initialized (SCHEDULER s))) s))).
Proof.
  intros [H1 H2 H3] Hl. rewrite sched_set_current_pid. constructor; cbn; [done|by rewrite length_insert..].
Qed.

(** The thread that leaves the scheduler when [curr] leaves its CPU. *)
Definition gone (curr : Thread) : list Z := if bool_decide (pid curr = 0 ∨ state curr = Dead) then [pid curr] else [].

Lemma requeue_gone curr : pid curr = 0 ∨ state curr ≠ Ready → (pid <$> requeue curr) ++ gone curr ≡ₚ [pid curr].
Proof.
  unfold requeue, gone. intros H. destruct (Z.eqb_spec (pid curr) 0).
  - by rewrite bool_decide_eq_true_2 by (by left).
  - destruct (state curr) eqn:E; cbn [fmap list_fmap app set_state pid].
    all: first [by rewrite bool_decide_eq_true_2 by (by right)|by rewrite bool_decide_eq_false_2 by naive_solver|naive_solver].
Qed.

Lemma requeue_charge curr : pid <$> requeue (charge curr) = pid <$> requeue curr.
Proof. unfold requeue. rewrite charge_pid, charge_state. destruct (pid curr =? 0), (state curr); cbn; by rewrite ?charge_pid. Qed.

(** C18. [schedule], called while the CPU's current thread is idle, Running, Blocked or
    Dead, never panics, keeps the scheduler well formed, and neither loses nor
    duplicates a thread: the threads before are those after, plus, when a switch
    happens, the idle or Dead thread that leaves the CPU.  A Running or Blocked thread
    that leaves goes to the end of the CPU's queue with its context, as Ready or
    Blocked.  (A current thread that a wake-up has already made Ready is the subject of
    [Futex.woken_current_dropped].) *)
Theorem schedule_conserves cpu s curr : wf (SCHEDULER s) → current (SCHEDULER s) !! cpu = Some (Some curr) →
  pid curr = 0 ∨ state curr ≠ Ready →
  ∃ o s', schedule cpu s = (Ok o, s') ∧ wf (SCHEDULER s') ∧
    pid <$> threads (SCHEDULER s) ≡ₚ (pid <$> threads (SCHEDULER s')) ++
      match o with Some _ => if bool_decide (pid curr = 0 ∨ state curr = Dead) then [pid curr] else [] | None => [] end ∧
    (is_Some o → pid curr ≠ 0 → state curr ≠ Dead → ∃ q t, run_queues (SCHEDULER s') !! cpu = Some (q ++ [t]) ∧
       pid t = pid curr ∧ context t = context curr ∧ state t = if bool_decide (state curr = Running) then Ready else Blocked).
Proof.
  intros Hwf Hc Hst. destruct (schedule_spec cpu s curr Hwf Hc) as [[_ E]|(next & qs & q & Ep & Hq & E)].
  - eexists None, _. split; [exact E|]. split; [destruct Hwf; constructor; cbn; by rewrite ?length_insert|]. split; [|by intros []].
    rewrite app_nil_r. unfold threads. cbn [set_currents set_sched SCHEDULER run_queues current].
    destruct (omap_replace _ _ _ (charge curr) Hc) as (rest & E1 & E2). rewrite E1, E2, !fmap_app. cbn [fmap list_fmap].
    by rewrite charge_pid.
  - eexists (Some _), _. split; [exact E|].
    destruct (lookup_lt_is_Some_2 (run_queues (SCHEDULER s)) cpu) as [q0 Hq0].
    { apply lookup_lt_Some in Hc. destruct Hwf. lia. }
    destruct (pick_next_Some cpu _ q0 next qs (wf_queues _ Hwf) Hq0 Ep) as (c & i & q1 & [Pq Pa -> Pr _]).
    split; [apply switch_wf; [done|rewrite length_insert; apply Hwf]|]. rewrite sched_set_current_pid. split.
    + unfold threads. cbn [set_sched SCHEDULER run_queues current].
      destruct (omap_replace _ _ _ (start_next next) Hc) as (rest & E1 & E2).
      rewrite E1, E2, (concat_take_thread _ _ _ _ _ Pq Pa), (concat_append_thread _ _ _ _ Hq).
      rewrite !fmap_app. cbn [fmap list_fmap]. change (list_fmap Thread Z pid) with (fmap (M:=list) pid).
      rewrite requeue_charge, start_next_pid, ?fmap_app. fold (gone curr). pose proof (requeue_gone curr Hst) as Hg.
      change (pid curr :: (pid <$> rest)) with ([pid curr] ++ (pid <$> rest)). rewrite <- Hg. solve_Permutation.
    + intros _ Hp Hd. cbn [set_sched SCHEDULER run_queues]. destruct Hst as [|Hst]; [done|].
      assert (∃ t, requeue (charge curr) = [t] ∧ pid t = pid curr ∧ context t = context curr ∧ state t = if bool_decide (state curr = Running) then Ready else Blocked)
        as (t & -> & Ht).
      { unfold requeue, charge. rewrite (proj2 (Z.eqb_neq _ _) Hp). cbn [pid state set_vruntime]. rewrite (proj2 (Z.eqb_neq _ _) Hp).
        destruct (state curr) eqn:Es; try done; (eexists; split; [reflexivity|by rewrite ?bool_decide_eq_true_2, ?bool_decide_eq_false_2 by done]). }
      exists q, t. split; [|done]. apply list_lookup_insert_eq. by eapply lookup_lt_Some.
Qed.

(** C35. The choice of the next thread, while the CPU's current thread is idle, Running
    or Blocked, is fair and greedy: the chosen thread was Ready and had the least virtual
    runtime of the CPU's own queue or, when that queue has no Ready thread, came from the
    remote queue with the most Ready threads (at least two); it becomes the CPU's
    current, Running thread, and the assembly switch is made: it saves into the context
    of the thread that leaves (nothing when the CPU was idle) and loads the chosen one's
    context and page table.  There is no switch only if no thread can be chosen. *)
Theorem schedule_fair cpu s curr : wf (SCHEDULER s) → current (SCHEDULER s) !! cpu = Some (Some curr) →
  pid curr = 0 ∨ state curr = Running ∨ state curr = Blocked →
  ∃ o s', schedule cpu s = (Ok o, s') ∧
    match o with
    | Some w => ∃ next qs c i q t, picked cpu (SCHEDULER s) next qs c i q ∧
        current (SCHEDULER s') !! cpu = Some (Some t) ∧ pid t = pid next ∧ state t = Running ∧
        switches w = true ∧ sw_new w = pid next ∧ sw_old w = (if pid curr =? 0 then None else Some (pid curr)) ∧
        sw_page_table w = (if is_user next then Some (page_table_root (context next)) else None)
    | None =>
        (∀ q t, run_queues (SCHEDULER s) !! cpu = Some q → t ∈ q → state t ≠ Ready) ∧
        (∀ c q, c ≠ cpu → run_queues (SCHEDULER s) !! c = Some q → (count_ready q ≤ 1)%nat)
    end.
Proof.
  intros Hwf Hc Hst. pose proof (lookup_lt_Some _ _ _ Hc) as Hlt.
  destruct (lookup_lt_is_Some_2 (run_queues (SCHEDULER s)) cpu) as [q0 Hq0]; [destruct Hwf; lia|].
  destruct (schedule_spec cpu s curr Hwf Hc) as [[Ep E]|(next & qs & q & Ep & Hq & E)].
  - eexists None, _. split; [exact E|].
    destruct (pick_next_None cpu _ q0 (wf_queues _ Hwf) Hq0 Ep) as [H1 H2]. split; [|exact H2].
    intros q t Hq. simplify_eq. apply H1.
  - eexists (Some _), _. split; [exact E|].
    destruct (pick_next_Some cpu _ q0 next qs (wf_queues _ Hwf) Hq0 Ep) as (c & i & q1 & P).
    exists next, qs, c, i, q1, (start_next next). split; [exact P|]. rewrite sched_set_current_pid.
    split; [cbn; by apply list_lookup_insert_eq|]. split; [apply start_next_pid|]. split; [done|].
    assert ((if pid curr =? 0 then None else pid <$> last (q ++ requeue (charge curr))) = if pid curr =? 0 then None else Some (pid curr)) as ->.
    { destruct (Z.eqb_spec (pid curr) 0) as [|Hp]; [done|]. unfold requeue. rewrite charge_pid, charge_state, (proj2 (Z.eqb_neq _ _) Hp).
      destruct Hst as [|[-> | ->]]; [done|..]; rewrite last_snoc; cbn; by rewrite ?charge_pid. }
    split; [unfold switches; cbn; by destruct (pid curr =? 0)|]. do 2 (split; [done|]).
    unfold page_table_of, start_next. cbn [sw_page_table]. by destruct (is_user next && first_run next).
Qed.

(** ** Timed wake-ups *)

Definition wake_one (ps : list Z) (t : Thread) : Thread :=
  if bool_decide (pid t ∈ ps ∧ state t = Blocked) then set_state Ready t else t.

Lemma wake_one_pid ps t : pid (wake_one ps t) = pid t.
Proof. unfold wake_one. by case_bool_decide. Qed.

Lemma wake_one_nil t : wake_one [] t = t.
Proof. unfold wake_one. rewrite bool_decide_eq_false_2; [done|]. intros [H%not_elem_of_nil _]. done. Qed.

Lemma wake_one_cons p ps t : wake_one (p :: ps) t = wake_one ps (wake_one [p] t).
Proof.
  unfold wake_one. repeat case_bool_decide; cbn in *; try done; exfalso; set_solver.
Qed.

Lemma wake_one_other p t : pid t ≠ p → wake_one [p] t = t.
Proof. intros Hp. unfold wake_one. rewrite bool_decide_eq_false_2; [done|]. set_solver. Qed.

Lemma wake_in_map p q : NoDup (pid <$> q) →
  match wake_in p q with Some q' => q' = List.map (wake_one [p]) q ∧ p ∈ pid <$> q | None => List.map (wake_one [p]) q = q end.
Proof.
  induction q as [|t q IH]; cbn [wake_in List.map]; [done|]. intros [Hn Hd]%NoDup_cons.
  destruct (Z.eqb_spec (pid t) p) as [Ep|Ep]; cbn [andb].
  - assert (List.map (wake_one [p]) q = q) as Eq.
    { apply map_id_in. intros x Hx. apply wake_one_other.
      intros Epx. apply Hn. apply list_elem_of_fmap. exists x. by rewrite Ep, Epx. }
    unfold wake_one at 1 3. destruct (decide (state t = Blocked)).
    + rewrite bool_decide_eq_true_2 by done. rewrite bool_decide_eq_true_2 by set_solver. rewrite Eq. split; [done|]. set_solver.
    + rewrite bool_decide_eq_false_2 by done. specialize (IH Hd). destruct (wake_in p q) as [q'|]; cbn.
      * destruct IH as [_ IH]. exfalso. apply Hn. by rewrite Ep.
      * rewrite Eq. rewrite bool_decide_eq_false_2; [done|]. naive_solver.
  - rewrite wake_one_other by done. specialize (IH Hd). destruct (wake_in p q); cbn.
    + destruct IH as [-> IH]. split; [done|]. set_solver.
    + by rewrite IH.
Qed.

Lemma wake_queues_map p qs : NoDup (pid <$> concat qs) → wake_queues p qs = List.map (List.map (wake_one [p])) qs.
Proof.
  induction qs as [|q qs IH]; cbn [wake_queues List.map concat]; [done|]. rewrite fmap_app.
  intros (H1 & H2 & H3)%NoDup_app. pose proof (wake_in_map p q H1) as H. destruct (wake_in p q) as [q'|].
  - destruct H as [-> Hp]. f_equal. symmetry. apply map_id_in. intros q2 Hq2. apply map_id_in. intros x Hx. apply wake_one_other.
    intros Ep. apply (H2 p Hp). apply list_elem_of_fmap. exists x. split; [done|].
    apply list_elem_of_In, in_concat. exists q2. by rewrite <- !list_elem_of_In.
  - by rewrite H, IH.
Qed.

Lemma map_wake_pids ps qs : pid <$> concat (List.map (List.map (wake_one ps)) qs) = pid <$> concat qs.
Proof.
  induction qs as [|q qs IH]; cbn [List.map concat]; [done|]. rewrite !fmap_app, IH. f_equal.
  induction q as [|t q IHq]; cbn; [done|]. rewrite wake_one_pid. by f_equal.
Qed.

(** Waking a list of threads one after the other. *)
Lemma wake_loop ps : ∀ s, NoDup (pid <$> concat (run_queues (SCHEDULER s))) →
  for_each ps (λ p, modify (λ s, set_queues (wake_queues p (run_queues (SCHEDULER s))) s)) s =
  (Ok tt, set_queues (List.map (List.map (wake_one ps)) (run_queues (SCHEDULER s))) s).
Proof.
  induction ps as [|p ps IH]; intros s Hnd; cbn [for_each].
  - rewrite map_id_in by (intros q _; apply map_id_in; intros t _; apply wake_one_nil). by destruct s as [[]].
  - kstep. rewrite wake_queues_map by done. rewrite IH by (cbn; by rewrite map_wake_pids).
    unfold set_queues, set_sched. cbn. do 3 f_equal. rewrite List.map_map. apply List.map_ext. intros q.
    rewrite List.map_map. apply List.map_ext. intros t. symmetry. apply wake_one_cons.
Qed.

Lemma elem_of_expired now (q : gmap Z (list Z)) p :
  p ∈ concat (expired now q).*2 ↔ ∃ at_ l, q !! at_ = Some l ∧ at_ ≤ now ∧ p ∈ l.
Proof.
  unfold expired. rewrite list_elem_of_In, in_concat. setoid_rewrite <- list_elem_of_In. split.
  - intros (l & ([k l'] & -> & [Hle Hin]%list_elem_of_filter)%list_elem_of_fmap & Hp).
    apply elem_of_bentries in Hin. eauto.
  - intros (k & l & Hk & Hle & Hp). exists l. split; [|done]. apply list_elem_of_fmap. exists (k, l).
    split; [done|]. apply list_elem_of_filter. split; [done|]. by apply elem_of_bentries.
Qed.

Lemma tick_result s : NoDup (pid <$> concat (run_queues (SCHEDULER s))) → TICK s + 1 < 2 ^ 64 →
  tick s = (Ok tt, set_queues (List.map (List.map (wake_one (concat (expired (TICK s + 1) (SLEEP_QUEUE s)).*2)))
                       (run_queues (SCHEDULER s)))
                     (set_sleep (filter (λ e, TICK s + 1 < e.1) (SLEEP_QUEUE s)) (set_tick (TICK s + 1) s))).
Proof. intros Hnd Ht. unfold tick. kstep. rewrite add64_small by done. kstep. by rewrite wake_loop. Qed.

Lemma sleep_filter_lookup (m : gmap Z (list Z)) now k :
  (filter (λ e, now < e.1) m : gmap Z (list Z)) !! k = if bool_decide (k ≤ now) then None else m !! k.
Proof.
  destruct (m !! k) as [l|] eqn:Ek.
  - case_bool_decide.
    + apply map_lookup_filter_None_2. right. intros l' _. cbn. lia.
    + apply map_lookup_filter_Some_2; [done|]. cbn. lia.
  - rewrite map_lookup_filter_None_2 by (by left). by case_bool_decide.
Qed.

Lemma tick_wakes_at s k : NoDup (pid <$> concat (run_queues (SCHEDULER s))) → TICK s + 1 < 2 ^ 64 → k ≤ TICK s + 1 →
  ∃ s', tick s = (Ok tt, s') ∧ SLEEP_QUEUE s' !! k = None ∧ current (SCHEDULER s') = current (SCHEDULER s).
Proof.
  intros Hnd Ht Hk. rewrite tick_result by done. eexists. split; [done|]. split; [|done].
  cbn [SLEEP_QUEUE set_queues set_sched set_sleep set_tick]. by rewrite sleep_filter_lookup, bool_decide_eq_true_2.
Qed.

(** A timer tick advances the clock by one, removes exactly the deadlines
    that have passed, and makes Ready exactly the queued Blocked threads
    registered for them; nothing else about any thread changes. *)
Theorem tick_wakes s : NoDup (pid <$> concat (run_queues (SCHEDULER s))) → TICK s + 1 < 2 ^ 64 →
  ∃ s' woken, tick s = (Ok tt, s') ∧ TICK s' = TICK s + 1 ∧
    (∀ p, p ∈ woken ↔ ∃ at_ l, SLEEP_QUEUE s !! at_ = Some l ∧ at_ ≤ TICK s + 1 ∧ p ∈ l) ∧
    (∀ at_, SLEEP_QUEUE s' !! at_ = if bool_decide (at_ ≤ TICK s + 1) then None else SLEEP_QUEUE s !! at_) ∧
    run_queues (SCHEDULER s') = List.map (List.map (wake_one woken)) (run_queues (SCHEDULER s)) ∧
    current (SCHEDULER s') = current (SCHEDULER s).
Proof.
  intros Hnd Ht. rewrite tick_result by done. eexists _, _. split; [done|]. split; [done|].
  split; [apply elem_of_expired|]. split; [|done]. intros k. apply sleep_filter_lookup.
Qed.

(** When an exited thread leaves the CPU, the context [schedule] saves
    into is not its own: it is that of the last thread left in the queue, which
    then resumes in the exited thread's state, or, if the queue is empty, no
    context at all, in which case the switch is skipped and the exited thread
    keeps running although the tables say the chosen one does. *)
Theorem dead_current_switch cpu s curr next qs q : wf (SCHEDULER s) →
  current (SCHEDULER s) !! cpu = Some (Some curr) → pid curr ≠ 0 → state curr = Dead →
  pick_next cpu (SCHEDULER s) = Some (next, qs) → qs !! cpu = Some q →
  ∃ w s', schedule cpu s = (Ok (Some w), s') ∧
    current (SCHEDULER s') !! cpu = Some (Some (start_next next)) ∧
    sw_old w = pid <$> last q ∧ switches w = negb (bool_decide (q = [])).
Proof.
  intros Hwf Hc H0 Hd Ep Hq. destruct (schedule_spec cpu s curr Hwf Hc) as [[Ep' _]|(n' & qs' & q' & Ep' & Hq' & E)];
    [congruence|]. rewrite Ep in Ep'. simplify_eq.
  assert (requeue (charge curr) = []) as Er.
  { unfold requeue. by rewrite charge_pid, charge_state, (proj2 (Z.eqb_neq _ _)), Hd. }
  rewrite Er, app_nil_r, (proj2 (Z.eqb_neq _ _) H0) in E. eexists _, _. split; [exact E|]. split; [|split; [done|]].
  - rewrite sched_set_current_pid. cbn. apply list_lookup_insert_eq. by eapply lookup_lt_Some.
  - unfold switches. cbn. clear. induction q as [|x q _] using rev_ind; [done|]. rewrite last_snoc.
    rewrite bool_decide_eq_true_2 by (by eexists). rewrite bool_decide_eq_false_2; [done|]. by intros [_ ?]%app_nil.
Qed.

(** Demonstration states: two CPUs, the first one running thread 7. *)
Definition demo_thread (p : Z) (st : ThreadState) (vr : Z) : Thread :=
  mkThread p "t" st zero_ctx None vr false false None.
Definition demo (q : list Thread) (curr : Thread) : Sys :=
  mkSys (mkScheduler [q; []] [Some curr; Some (new_idle "idle-1")] 2 true) (replicate 8 0) 10 100 100 ∅ [].

Lemma demo_wf q curr : wf (SCHEDULER (demo q curr)).
Proof. by constructor. Qed.

Lemma schedule_conserves_witness :
  ∃ o s', schedule 0 (demo [demo_thread 8 Ready 5; demo_thread 9 Ready 3] (demo_thread 7 Running 4)) = (Ok o, s') ∧
    [8; 9; 7; 0] ≡ₚ (pid <$> threads (SCHEDULER s')) ++ [].
Proof.
  destruct (schedule_conserves 0 (demo [demo_thread 8 Ready 5; demo_thread 9 Ready 3] (demo_thread 7 Running 4))
    (demo_thread 7 Running 4)) as (o & s' & E & _ & H & _); [apply demo_wf|reflexivity|right; discriminate|].
  exists o, s'. split; [exact E|]. destruct o; exact H.
Defined.

Lemma schedule_fair_witness :
  ∃ w s', schedule 0 (demo [demo_thread 8 Ready 5; demo_thread 9 Ready 3] (demo_thread 7 Running 4)) = (Ok (Some w), s') ∧
    sw_new w = 9.
Proof.
  destruct (schedule_fair 0 (demo [demo_thread 8 Ready 5; demo_thread 9 Ready 3] (demo_thread 7 Running 4))
    (demo_thread 7 Running 4)) as ([w|] & s' & E & H); [apply demo_wf|reflexivity|right; by left| |].
  - exists w, s'. split; [exact E|]. vm_compute in E. by injection E as <- _.
  - exfalso. destruct H as [H _]. by apply (H _ (demo_thread 8 Ready 5) eq_refl); [left|].
Defined.

Lemma tick_wakes_witness :
  let s := set_sleep {[101 := [8]; 150 := [9]]} (demo [demo_thread 8 Blocked 5; demo_thread 9 Blocked 3] (demo_thread 7 Running 4)) in
  ∃ s', tick s = (Ok tt, s') ∧ SLEEP_QUEUE s' !! 101 = None ∧ SLEEP_QUEUE s' !! 150 = Some [9].
Proof.
  cbv zeta. edestruct tick_wakes as (s' & w & E & _ & _ & H & _).
  3:{ exists s'. split; [exact E|]. rewrite !H. split; reflexivity. }
  - apply (bool_decide_unpack _). vm_compute. exact I.
  - reflexivity.
Defined.

Lemma dead_current_switch_witness :
  ∃ w s', schedule 0 (demo [demo_thread 8 Blocked 5; demo_thread 9 Ready 3] (demo_thread 7 Dead 4)) = (Ok (Some w), s') ∧
    sw_old w = Some 8.
Proof.
  destruct (dead_current_switch 0 (demo [demo_thread 8 Blocked 5; demo_thread 9 Ready 3] (demo_thread 7 Dead 4))
    (demo_thread 7 Dead 4) (demo_thread 9 Ready 3) [[demo_thread 8 Blocked 5]; []] [demo_thread 8 Blocked 5])
    as (w & s' & E & _ & H & _); [apply demo_wf|reflexivity|done|reflexivity..|].
  exists w, s'. split; [exact E|]. rewrite H. reflexivity.
Defined.

(** ** Blocking with nothing else to run *)

(** When no other thread is runnable, [block_current_until] returns at
    once: there is no switch and the caller keeps the CPU, marked Blocked.  The
    tick that reaches its deadline forgets the deadline without waking it,
    because it looks for the thread in the run queues only: the thread stays
    Blocked with no wake-up pending. *)
Theorem block_loses_wakeup cpu s curr wake_tick : wf (SCHEDULER s) →
  current (SCHEDULER s) !! cpu = Some (Some curr) → pick_next cpu (SCHEDULER s) = None →
  NoDup (pid <$> concat (run_queues (SCHEDULER s))) → TICK s + 1 < 2 ^ 64 → wake_tick ≤ TICK s + 1 →
  ∃ s1 s2, block_current_until cpu wake_tick s = (Ok None, s1) ∧ tick s1 = (Ok tt, s2) ∧
    SLEEP_QUEUE s2 !! wake_tick = None ∧
    current (SCHEDULER s2) !! cpu = Some (Some (charge (set_state Blocked curr))) ∧
    state (charge (set_state Blocked curr)) = Blocked.
Proof.
  intros Hwf Hc Hp Hnd Ht Hw. pose proof (lookup_lt_Some _ _ _ Hc) as Hlt.
  unfold block_current_until. kstep. rewrite Hc. kstep.
  set (s0 := register_wakeup _ _ _).
  assert (current (SCHEDULER s0) !! cpu = Some (Some (set_state Blocked curr))) as Hc0
    by (cbn; by apply list_lookup_insert_eq).
  assert (wf (SCHEDULER s0)) as Hwf0 by (destruct Hwf; constructor; cbn; by rewrite ?length_insert).
  destruct (schedule_spec cpu s0 _ Hwf0 Hc0) as [[_ E]|(n & qs & q & Ep & _)].
  2:{ exfalso. change (pick_next cpu (SCHEDULER s0)) with (pick_next cpu (SCHEDULER s)) in Ep. congruence. }
  rewrite E. set (s1 := set_currents _ s0).
  destruct (tick_wakes_at s1 wake_tick) as (s2 & E2 & Hq & Hcur); [done..|].
  exists s1, s2. split; [done|]. split; [done|]. split; [done|]. split; [|by rewrite charge_state].
  rewrite Hcur. cbn. apply list_lookup_insert_eq. by rewrite length_insert.
Qed.

(** A sleep of one tick on a CPU with nothing else to do. *)
Lemma block_loses_wakeup_witness :
  ∃ s1 s2, block_current_until 0 101 (demo [] (demo_thread 7 Running 4)) = (Ok None, s1) ∧ tick s1 = (Ok tt, s2) ∧
    SLEEP_QUEUE s2 !! 101 = None.
Proof.
  destruct (block_loses_wakeup 0 (demo [] (demo_thread 7 Running 4)) (demo_thread 7 Running 4) 101)
    as (s1 & s2 & E1 & E2 & H & _).
  - apply demo_wf.
  - reflexivity.
  - reflexivity.
  - constructor.
  - reflexivity.
  - vm_compute. congruence.
  - exists s1, s2. split; [exact E1|]. split; [exact E2|exact H].
Defined.
