(* ===== verification/Futex.v ===== *)
(** * Futexes ([ipc/futex.rs])

    [do_futex] runs on CPU [cpu] with the page tables at [root]; [freq] is the
    frequency of the hardware counter.  A waiting thread leaves the CPU inside
    [do_futex]: what the rest of the system does until it runs again is the
    argument [others]. *)

From S2P Require Import Prelude.
From S2P Require Import Pmm.
From S2P Require Import Paging.
From S2P Require Import User.
From S2P Require Import Sched.

Definition FUTEX_WAIT : Z := 0.
Definition FUTEX_WAKE : Z := 1.
Definition FUTEX_REQUEUE : Z := 3.
Definition FUTEX_CMP_REQUEUE : Z := 4.
Definition FUTEX_WAIT_BITSET : Z := 9.
Definition FUTEX_WAKE_BITSET : Z := 10.
Definition FUTEX_CMD_MASK : Z := 0x7f.

Record Sys := mkSys {
  sched : Sched.Sys;
  mach : Mach;
  FUTEX_WAITERS : gmap Z (list Z);
  FUTEX_TOKENS : gmap Z Z }.

Definition set_sched (x : Sched.Sys) (s : Sys) : Sys := mkSys x (mach s) (FUTEX_WAITERS s) (FUTEX_TOKENS s).
Definition set_waiters (x : gmap Z (list Z)) (s : Sys) : Sys := mkSys (sched s) (mach s) x (FUTEX_TOKENS s).
Definition set_tokens (x : gmap Z Z) (s : Sys) : Sys := mkSys (sched s) (mach s) (FUTEX_WAITERS s) x.

Definition lift_sched {A} (m : M Sched.Sys A) : M Sys A := λ s, let '(r, x) := m (sched s) in (r, set_sched x s).
Definition lift_mach {A} (m : M Mach A) : M Sys A := λ s,
  let '(r, x) := m (mach s) in (r, mkSys (sched s) x (FUTEX_WAITERS s) (FUTEX_TOKENS s)).

Section Futex.
Context (cpu : nat) (root freq : Z).

Definition read_user_u32 (addr : Z) : M Sys Z :=
  let! raw := map_err (lift_mach (User.copy_from_user root addr 4)) EFAULT in ret (from_le raw).

Definition read_timeout_ticks (timeout_ptr : Z) : M Sys Z :=
  if timeout_ptr =? 0 then ret 0 else
  let! raw := map_err (lift_mach (User.copy_from_user root timeout_ptr 16)) EFAULT in
  let secs := from_le (take 8 raw) in
  let nsecs := from_le (drop 8 raw) in
  ret (saturating_add (saturating_mul secs freq) (saturating_mul nsecs freq / 1000000000)).

Definition to_sched_ticks (counter_ticks : Z) : Z :=
  let counter_hz := Z.max freq 1 in
  saturating_add (saturating_mul counter_ticks 100) (counter_hz - 1) / counter_hz.

(** [wake_tid]: for each CPU its current thread, then its queue. *)
Definition wake_current (tid : Z) (o : option Sched.Thread) : option Sched.Thread :=
  match o with
  | Some t => if (pid t =? tid) && bool_decide (state t = Blocked) then Some (set_state Ready t) else None
  | None => None
  end.

Fixpoint wake_cpus (tid : Z) (cs : list (option Sched.Thread)) (qs : list (list Sched.Thread)) :
    option (list (option Sched.Thread) * list (list Sched.Thread)) :=
  match cs, qs with
  | c :: cs', q :: qs' =>
      match wake_current tid c with
      | Some t => Some (Some t :: cs', q :: qs')
      | None =>
          match wake_in tid q with
          | Some q' => Some (c :: cs', q' :: qs')
          | None => '(cs'', qs'') ← wake_cpus tid cs' qs'; Some (c :: cs'', q :: qs'')
          end
      end
  | _, _ => None
  end.

Definition wake_tid (tid : Z) (s : Sched.Sys) : bool * Sched.Sys :=
  let d := SCHEDULER s in
  match wake_cpus tid (current d) (run_queues d) with
  | Some (cs, qs) => (true, Sched.set_sched (mkScheduler qs cs (num_cpus d) (initialized d)) s)
  | None => (false, s)
  end.

(** The loop over the picked threads of FUTEX_WAKE and FUTEX_REQUEUE. *)
Definition wake_picked (tid : Z) (s : Sys) : Sys :=
  let s := set_sched (cancel_wakeup tid (sched s)) s in
  let '(b, x) := wake_tid tid (sched s) in
  let s := set_sched x s in
  if b then set_tokens (<[tid := Z.min (default 0 (FUTEX_TOKENS s !! tid) + 1) (2 ^ 32 - 1)]> (FUTEX_TOKENS s)) s else s.

Definition wake_all (l : list Z) (s : Sys) : Sys := foldl (λ s tid, wake_picked tid s) s l.

(** Store a queue back; an empty one is removed. *)
Definition put_queue (uaddr : Z) (q : list Z) (w : gmap Z (list Z)) : gmap Z (list Z) :=
  match q with [] => delete uaddr w | _ => <[uaddr := q]> w end.

Definition queue (w : gmap Z (list Z)) (uaddr : Z) : list Z := default [] (w !! uaddr).

(** After the wait: leave the queue, consume a wake token. *)
Definition leave_queue (uaddr tid : Z) (w : gmap Z (list Z)) : gmap Z (list Z) :=
  match w !! uaddr with
  | Some q => put_queue uaddr (filter (λ p, p ≠ tid) q) w
  | None => w
  end.

Definition take_token (tid : Z) : M Sys bool := λ s,
  match FUTEX_TOKENS s !! tid with
  | Some t => if 0 <? t then (Ok true, set_tokens (<[tid := t - 1]> (FUTEX_TOKENS s)) s) else (Ok false, s)
  | None => (Ok false, s)
  end.

Definition futex_wait (others : Sys → Sys) (uaddr val timeout : Z) : M Sys Z :=
  let! cur := read_user_u32 uaddr in
  if negb (cur =? val) then fail EAGAIN else
  let! tid := gets (λ s, get_current_pid cpu (sched s)) in
  let! timeout_ticks := (if timeout =? 0 then ret 0 else let! t := read_timeout_ticks timeout in ret (to_sched_ticks t)) in
  if negb (timeout =? 0) && (timeout_ticks =? 0) then fail ETIMEDOUT else
  modify (λ s, set_waiters (<[uaddr := queue (FUTEX_WAITERS s) uaddr ++ [tid]]> (FUTEX_WAITERS s)) s) ;;;
  let! now := gets (λ s, current_tick (sched s)) in
  let wake_at := if timeout =? 0 then u64_max else saturating_add now timeout_ticks in
  let! _ := lift_sched (block_current_until cpu wake_at) in
  modify others ;;;
  modify (λ s, set_waiters (leave_queue uaddr tid (FUTEX_WAITERS s)) s) ;;;
  let! was_woken := take_token tid in
  if was_woken then ret 0 else
  let! cur := read_user_u32 uaddr in
  if negb (cur =? val) then ret 0 else
  if negb (timeout =? 0) then fail ETIMEDOUT else ret 0.

Definition futex_wake (uaddr val : Z) : M Sys Z :=
  if val =? 0 then ret 0 else
  let! q := gets (λ s, queue (FUTEX_WAITERS s) uaddr) in
  let picked := take (Z.to_nat val) q in
  modify (λ s, if bool_decide (is_Some (FUTEX_WAITERS s !! uaddr))
               then set_waiters (put_queue uaddr (drop (Z.to_nat val) q) (FUTEX_WAITERS s)) s else s) ;;;
  modify (wake_all picked) ;;;
  ret (Z.of_nat (length picked)).

Definition futex_requeue (cmp : bool) (uaddr val nr_requeue uaddr2 val3 : Z) : M Sys Z :=
  if uaddr2 =? 0 then fail EINVAL else
  let! bad := (if cmp then let! cur := read_user_u32 uaddr in ret (negb (cur =? val3)) else ret false) in
  if bad then fail EAGAIN else
  let! src := gets (λ s, queue (FUTEX_WAITERS s) uaddr) in
  let picked := take (Z.to_nat val) src in
  let rest := drop (Z.to_nat val) src in
  let moved := take (Z.to_nat nr_requeue) rest in
  modify (λ s, set_waiters (put_queue uaddr (drop (Z.to_nat nr_requeue) rest) (FUTEX_WAITERS s)) s) ;;;
  modify (λ s, match moved with
               | [] => s
               | _ => set_waiters (<[uaddr2 := queue (FUTEX_WAITERS s) uaddr2 ++ moved]> (FUTEX_WAITERS s)) s
               end) ;;;
  modify (wake_all picked) ;;;
  ret (Z.of_nat (length picked)).

Definition do_futex (others : Sys → Sys) (uaddr futex_op val timeout uaddr2 val3 : Z) : M Sys Z :=
  if uaddr =? 0 then fail EINVAL else
  let op := Z.land futex_op FUTEX_CMD_MASK in
  if (op =? FUTEX_WAIT) || (op =? FUTEX_WAIT_BITSET) then
    if (op =? FUTEX_WAIT_BITSET) && (val3 =? 0) then fail EINVAL else futex_wait others uaddr val timeout
  else if (op =? FUTEX_WAKE) || (op =? FUTEX_WAKE_BITSET) then
    if (op =? FUTEX_WAKE_BITSET) && (val3 =? 0) then fail EINVAL else futex_wake uaddr val
  else if (op =? FUTEX_REQUEUE) || (op =? FUTEX_CMP_REQUEUE) then
    futex_requeue (op =? FUTEX_CMP_REQUEUE) uaddr val timeout uaddr2 val3
  else fail EINVAL.
End Futex.

(** ** Queues *)

Lemma queue_put_eq u q w : queue (put_queue u q w) u = q.
Proof. unfold queue, put_queue. destruct q; [by rewrite lookup_delete_eq|by rewrite lookup_insert_eq]. Qed.

Lemma queue_put_ne u u' q w : u ≠ u' → queue (put_queue u q w) u' = queue w u'.
Proof. intros Hu. unfold queue, put_queue. destruct q; [by rewrite lookup_delete_ne|by rewrite lookup_insert_ne]. Qed.

Lemma queue_insert_eq u q w : queue (<[u := q]> w) u = q.
Proof. unfold queue. by rewrite lookup_insert_eq. Qed.

Lemma queue_insert_ne u u' q w : u ≠ u' → queue (<[u := q]> w) u' = queue w u'.
Proof. intros Hu. unfold queue. by rewrite lookup_insert_ne. Qed.

Lemma wake_picked_frame tid s :
  FUTEX_WAITERS (wake_picked tid s) = FUTEX_WAITERS s ∧ mach (wake_picked tid s) = mach s.
Proof. unfold wake_picked. by destruct (wake_tid _ _) as [[] ?]. Qed.

Lemma wake_all_frame l s : FUTEX_WAITERS (wake_all l s) = FUTEX_WAITERS s ∧ mach (wake_all l s) = mach s.
Proof.
  revert s. induction l as [|t l IH]; intros s; [done|].
  change (wake_all (t :: l) s) with (wake_all l (wake_picked t s)). destruct (IH (wake_picked t s)) as [-> ->].
  apply wake_picked_frame.
Qed.

Lemma futex_wake_spec uaddr val s : 0 < val →
  let q := queue (FUTEX_WAITERS s) uaddr in
  ∃ s0, futex_wake uaddr val s = (Ok (Z.of_nat (length (take (Z.to_nat val) q))), wake_all (take (Z.to_nat val) q) s0) ∧
    sched s0 = sched s ∧ mach s0 = mach s ∧ FUTEX_TOKENS s0 = FUTEX_TOKENS s ∧
    (∀ u, queue (FUTEX_WAITERS s0) u = if bool_decide (u = uaddr) then drop (Z.to_nat val) q else queue (FUTEX_WAITERS s) u).
Proof.
  intros Hv q. unfold futex_wake. rewrite (proj2 (Z.eqb_neq _ _)) by lia. kstep. fold q.
  eexists. split; [done|]. case_bool_decide as Hs; (do 3 (split; [done|])); intros u; cbn [FUTEX_WAITERS set_waiters].
  - case_bool_decide; [subst; apply queue_put_eq|by rewrite queue_put_ne].
  - case_bool_decide; [subst|done]. unfold q, queue. apply eq_None_not_Some in Hs. rewrite Hs. cbn. by rewrite drop_nil.
Qed.

(** The dispatch of [do_futex]. *)
Lemma do_futex_op cpu root freq others uaddr val timeout uaddr2 val3 : uaddr ≠ 0 →
  let f op := do_futex cpu root freq others uaddr op val timeout uaddr2 val3 in
  f FUTEX_WAIT = futex_wait cpu root freq others uaddr val timeout ∧ f FUTEX_WAKE = futex_wake uaddr val ∧
  f FUTEX_REQUEUE = futex_requeue root false uaddr val timeout uaddr2 val3 ∧
  f FUTEX_CMP_REQUEUE = futex_requeue root true uaddr val timeout uaddr2 val3.
Proof. intros Hu f. unfold f, do_futex. rewrite (proj2 (Z.eqb_neq _ _) Hu). repeat split. Qed.

(** ** Properties *)

(** FUTEX_WAKE wakes in arrival order and no more than asked: it returns
    the smaller of the count and the number of waiters, removes exactly that
    many from the front of the address's queue, and leaves every other queue and
    user memory alone. *)
Theorem futex_wake_fifo cpu root freq others uaddr val timeout uaddr2 val3 s : uaddr ≠ 0 → 0 < val →
  let q := queue (FUTEX_WAITERS s) uaddr in
  ∃ s', do_futex cpu root freq others uaddr FUTEX_WAKE val timeout uaddr2 val3 s =
      (Ok (Z.min val (Z.of_nat (length q))), s') ∧
    queue (FUTEX_WAITERS s') uaddr = drop (Z.to_nat val) q ∧
    (∀ u, u ≠ uaddr → queue (FUTEX_WAITERS s') u = queue (FUTEX_WAITERS s) u) ∧ mach s' = mach s.
Proof.
  intros Hu Hv q. destruct (do_futex_op cpu root freq others uaddr val timeout uaddr2 val3 Hu) as (_ & -> & _).
  destruct (futex_wake_spec uaddr val s Hv) as (s0 & E & E1 & E2 & E3 & Hq). fold q in E, Hq.
  rewrite E. eexists. split.
  - f_equal. f_equal. rewrite length_take. lia.
  - destruct (wake_all_frame (take (Z.to_nat val) q) s0) as [-> ->]. split; [by rewrite Hq, bool_decide_eq_true_2|].
    split; [|done]. intros u Hne. by rewrite Hq, bool_decide_eq_false_2.
Qed.

(** FUTEX_REQUEUE conserves waiters: the first [val] are picked to be
    woken, the next [nr_requeue] move, in order, to the back of the second
    queue, the rest stay. *)
Theorem futex_requeue_conserves cpu root freq others uaddr val nr_requeue uaddr2 val3 s :
  uaddr ≠ 0 → uaddr2 ≠ 0 → uaddr ≠ uaddr2 → 0 ≤ val → 0 ≤ nr_requeue →
  let q := queue (FUTEX_WAITERS s) uaddr in
  ∃ s', do_futex cpu root freq others uaddr FUTEX_REQUEUE val nr_requeue uaddr2 val3 s =
      (Ok (Z.min val (Z.of_nat (length q))), s') ∧
    queue (FUTEX_WAITERS s') uaddr = drop (Z.to_nat val + Z.to_nat nr_requeue) q ∧
    queue (FUTEX_WAITERS s') uaddr2 =
      queue (FUTEX_WAITERS s) uaddr2 ++ take (Z.to_nat nr_requeue) (drop (Z.to_nat val) q) ∧
    (∀ u, u ≠ uaddr → u ≠ uaddr2 → queue (FUTEX_WAITERS s') u = queue (FUTEX_WAITERS s) u).
Proof.
  intros Hu Hu2 Hne Hv Hr q.
  destruct (do_futex_op cpu root freq others uaddr val nr_requeue uaddr2 val3 Hu) as (_ & _ & -> & _).
  unfold futex_requeue. rewrite (proj2 (Z.eqb_neq _ _) Hu2). kstep. fold q.
  set (moved := take (Z.to_nat nr_requeue) (drop (Z.to_nat val) q)).
  eexists. split; [unfold ret; do 2 f_equal; rewrite length_take; lia|].
  rewrite (proj1 (wake_all_frame _ _)).
  rewrite !drop_drop. destruct moved as [|m ms] eqn:Em; cbn [FUTEX_WAITERS set_waiters].
  - rewrite queue_put_eq, app_nil_r. split; [done|]. split; [by rewrite queue_put_ne|]. intros u H1 H2. by rewrite queue_put_ne.
  - rewrite queue_insert_ne, queue_put_eq, queue_insert_eq by done. split; [done|]. split; [by rewrite queue_put_ne|].
    intros u H1 H2. by rewrite queue_insert_ne, queue_put_ne by done.
Qed.

(** A system with CPU 0 running thread 7 and waiters 4, 5, 6 at address 64;
    user memory is one zero page mapped at address 0. *)
Definition demo_mem : Mach :=
  mkMach (Pmm.mkPmm [] 0 0) (wr64 (wr64 (wr64 (wr64 (λ _, 0) 0x1000 0x2003) 0x2000 0x3003) 0x3000 0x4003) 0x4000 0x9003).
Definition demo : Sys :=
  mkSys (Sched.demo [demo_thread 9 Sched.Ready 0] (demo_thread 7 Running 0)) demo_mem {[64 := [4; 5; 6]]} ∅.

Lemma futex_wake_fifo_witness :
  ∃ s', do_futex 0 4096 100 (λ s, s) 64 FUTEX_WAKE 2 0 0 0 demo = (Ok 2, s') ∧ queue (FUTEX_WAITERS s') 64 = [6].
Proof.
  destruct (futex_wake_fifo 0 4096 100 (λ s, s) 64 2 0 0 0 demo) as (s' & E & H & _); [done|done|].
  exists s'. split; [exact E|exact H].
Defined.

Lemma futex_requeue_conserves_witness :
  ∃ s', do_futex 0 4096 100 (λ s, s) 64 FUTEX_REQUEUE 1 1 128 0 demo = (Ok 1, s') ∧
    queue (FUTEX_WAITERS s') 64 = [6] ∧ queue (FUTEX_WAITERS s') 128 = [5].
Proof.
  destruct (futex_requeue_conserves 0 4096 100 (λ s, s) 64 1 1 128 0 demo) as (s' & E & H1 & H2 & _); [lia..|].
  exists s'. split; [exact E|]. split; [exact H1|exact H2].
Defined.

(** ** Waiting *)

Definition reads (root uaddr v : Z) (s : Sys) : Prop := read_user_u32 root uaddr s = (Ok v, s).

Lemma reads_bytes root uaddr l s : user_bytes (mem (mach s)) root uaddr 4 = Some l → 0 ≤ uaddr → uaddr + 4 ≤ 2 ^ 64 →
  reads root uaddr (from_le l) s.
Proof.
  intros E H1 H2. unfold reads, read_user_u32. erewrite bind_ok; [done|]. unfold map_err, lift_mach, User.copy_from_user.
  rewrite copy_from_user_loop_spec by (done || lia). rewrite E. by destruct s.
Qed.

Lemma take_token_some tid s t : FUTEX_TOKENS s !! tid = Some t → 0 < t →
  take_token tid s = (Ok true, set_tokens (<[tid := t - 1]> (FUTEX_TOKENS s)) s).
Proof. intros E Ht. unfold take_token. rewrite E. by rewrite (proj2 (Z.ltb_lt _ _)). Qed.

Lemma leave_queue_empty uaddr tid w : queue w uaddr = [] → queue (leave_queue uaddr tid w) uaddr = [].
Proof.
  unfold leave_queue, queue. destruct (w !! uaddr) as [q|] eqn:E; cbn; [|by rewrite E]. intros ->. cbn.
  by rewrite lookup_delete_eq.
Qed.

(** Waking a thread that is Blocked gives it a token. *)
Lemma wake_picked_token tid s x : wake_tid tid (cancel_wakeup tid (sched s)) = (true, x) →
  FUTEX_TOKENS s !! tid = None → FUTEX_TOKENS (wake_picked tid s) = <[tid := 1]> (FUTEX_TOKENS s).
Proof. intros E Hn. unfold wake_picked. cbn. rewrite E. cbn. by rewrite Hn. Qed.

(** ** Waking a thread that has not left its CPU yet *)

(** Thread [tid] is the current thread of [cpu] and nowhere else. *)
Record only_at (cpu : nat) (tid : Z) (d : Scheduler) : Prop := {
  only_queues t : t ∈ concat (run_queues d) → pid t ≠ tid;
  only_current c t : current d !! c = Some (Some t) → pid t = tid → c = cpu }.

Lemma wake_in_none tid q : (∀ t, t ∈ q → pid t ≠ tid) → wake_in tid q = None.
Proof.
  induction q as [|t q IH]; intros H; cbn; [done|]. rewrite (proj2 (Z.eqb_neq _ _)) by (apply H; left). cbn.
  rewrite IH; [done|]. intros x Hx. apply H. by right.
Qed.

Lemma wake_cpus_current tid t cs : ∀ cpu qs, length cs = length qs →
  cs !! cpu = Some (Some t) → pid t = tid → state t = Blocked → (∀ t, t ∈ concat qs → pid t ≠ tid) →
  (∀ c t, cs !! c = Some (Some t) → pid t = tid → c = cpu) →
  wake_cpus tid cs qs = Some (<[cpu := Some (set_state Ready t)]> cs, qs).
Proof.
  induction cs as [|c cs IH]; intros cpu [|q qs] Hlen Hc Hp Hb Hq Ho; try done. cbn [wake_cpus].
  destruct cpu as [|cpu]; cbn in Hc.
  - simplify_eq. cbn. by rewrite Z.eqb_refl, bool_decide_eq_true_2.
  - assert (wake_current tid c = None) as ->.
    { destruct c as [t'|]; [|done]. cbn. destruct (Z.eqb_spec (pid t') tid) as [E|]; [|done].
      by specialize (Ho 0%nat t' eq_refl E). }
    rewrite wake_in_none by (intros x Hx; apply Hq; cbn; apply elem_of_app; by left).
    rewrite (IH cpu qs); [done| |done..| |].
    + cbn in Hlen. lia.
    + intros x Hx. apply Hq. cbn. apply elem_of_app. by right.
    + intros c' x Hc' Hx. specialize (Ho (S c') x Hc' Hx). lia.
Qed.

(** A wake-up that reaches a thread between being marked Blocked and leaving
    its CPU destroys it: [wake_tid] makes the current thread Ready, and the
    [schedule] that follows re-queues only Running and Blocked threads, so the
    woken thread is in no queue and on no CPU afterwards. *)
Theorem woken_current_dropped cpu tid s t : wf (SCHEDULER s) →
  current (SCHEDULER s) !! cpu = Some (Some t) → pid t = tid → tid ≠ 0 → state t = Blocked →
  only_at cpu tid (SCHEDULER s) → pick_next cpu (SCHEDULER s) ≠ None →
  ∃ s1 w s2, wake_tid tid s = (true, s1) ∧ schedule cpu s1 = (Ok (Some w), s2) ∧
    ∀ t', t' ∈ threads (SCHEDULER s2) → pid t' ≠ tid.
Proof.
  intros Hwf Hc Hp H0 Hb [Oq Oc] Hn. set (d := SCHEDULER s) in *.
  assert (wake_tid tid s = (true, Sched.set_sched (mkScheduler (run_queues d)
    (<[cpu := Some (set_state Ready t)]> (current d)) (num_cpus d) (initialized d)) s)) as Ew.
  { unfold wake_tid. fold d. by rewrite (wake_cpus_current tid t (current d) cpu) by
      (done || (destruct Hwf; congruence)). }
  eexists. set (s1 := Sched.set_sched _ s) in *. pose proof (lookup_lt_Some _ _ _ Hc) as Hlt.
  assert (wf (SCHEDULER s1)) as Hwf1 by (destruct Hwf; constructor; cbn; by rewrite ?length_insert).
  assert (current (SCHEDULER s1) !! cpu = Some (Some (set_state Ready t))) as Hc1 by (cbn; by apply list_lookup_insert_eq).
  destruct (schedule_spec cpu s1 _ Hwf1 Hc1) as [[Ep _]|(next & qs & q & Ep & Hq & E)]; [done|].
  eexists _, _. split; [exact Ew|]. split; [exact E|].
  assert (requeue (charge (set_state Ready t)) = []) as Er.
  { unfold requeue. by rewrite charge_pid, charge_state, (proj2 (Z.eqb_neq _ _)) by (cbn; congruence). }
  rewrite Er, app_nil_r, (list_insert_id _ _ _ Hq). unfold threads. rewrite sched_set_current_pid.
  cbn [SCHEDULER Sched.set_sched run_queues current].
  change (current (SCHEDULER s1)) with (<[cpu := Some (set_state Ready t)]> (current d)). rewrite list_insert_insert_eq.
  destruct (lookup_lt_is_Some_2 (run_queues d) cpu) as [q0 Hq0]; [destruct Hwf; fold d in wf_queues, wf_current; lia|].
  destruct (pick_next_Some cpu (SCHEDULER s1) q0 next qs (wf_queues _ Hwf1) Hq0 Ep) as (c & i & q1 & [Pq Pa -> _ _]).
  pose proof (concat_take_thread _ _ _ _ _ Pq Pa) as Hperm. intros t' [Hin|Hin]%elem_of_app.
  - apply Oq. change (run_queues d) with (run_queues (SCHEDULER s1)). rewrite Hperm. by right.
  - apply list_elem_of_omap in Hin as (o & [k Hk]%list_elem_of_lookup & Ho). subst o.
    apply list_lookup_insert_Some in Hk as [(<- & Ek & _)|(Hne & Hk)].
    + injection Ek as <-. rewrite start_next_pid. apply Oq. change (run_queues d) with (run_queues (SCHEDULER s1)).
      rewrite Hperm. by left.
    + intros Hp'. apply Hne. symmetry. by eapply Oc.
Qed.

Lemma woken_current_dropped_witness :
  let s := Sched.demo [demo_thread 9 Ready 0] (demo_thread 7 Blocked 0) in
  ∃ s1 w s2, wake_tid 7 s = (true, s1) ∧ schedule 0 s1 = (Ok (Some w), s2) ∧
    ∀ t', t' ∈ threads (SCHEDULER s2) → pid t' ≠ 7.
Proof.
  apply (woken_current_dropped 0 7 (Sched.demo [demo_thread 9 Ready 0] (demo_thread 7 Blocked 0)) (demo_thread 7 Blocked 0)).
  - apply demo_wf.
  - reflexivity.
  - reflexivity.
  - done.
  - reflexivity.
  - constructor.
    + intros t [->|[]%not_elem_of_nil]%elem_of_cons. done.
    + intros [|[|c]] t; cbn; [done|by intros [= <-]|done].
  - done.
Defined.

(** ** Sleeping and being woken *)

(** The queue in which a Blocked thread is the last, and the only one with its pid. *)
Lemma wake_in_last q t : (∀ x, x ∈ q → pid x ≠ pid t) → state t = Blocked → wake_in (pid t) (q ++ [t]) = Some (q ++ [set_state Ready t]).
Proof.
  intros Hq Hb. induction q as [|x q IH]; cbn [app wake_in].
  - by rewrite Z.eqb_refl, bool_decide_eq_true_2.
  - rewrite (proj2 (Z.eqb_neq _ _)) by (apply Hq; left). cbn [andb]. rewrite IH; [done|]. intros y Hy. apply Hq. by right.
Qed.

Lemma wake_cpus_queue t cs : ∀ cpu qs q, length cs = length qs → qs !! cpu = Some (q ++ [t]) → state t = Blocked →
  (∀ x, x ∈ q → pid x ≠ pid t) → (∀ c q' x, c ≠ cpu → qs !! c = Some q' → x ∈ q' → pid x ≠ pid t) →
  (∀ c x, cs !! c = Some (Some x) → pid x ≠ pid t) →
  wake_cpus (pid t) cs qs = Some (cs, <[cpu := q ++ [set_state Ready t]]> qs).
Proof.
  induction cs as [|c cs IH]; intros cpu [|q0 qs] q Hlen Hq Hb Hin Hout Hcur; try done. cbn [wake_cpus].
  assert (wake_current (pid t) c = None) as ->.
  { destruct c as [t'|]; [|done]. cbn. by rewrite (proj2 (Z.eqb_neq _ _)) by (by apply (Hcur 0%nat)). }
  destruct cpu as [|cpu]; cbn in Hq.
  - injection Hq as ->. by rewrite wake_in_last.
  - rewrite wake_in_none by (intros x Hx; by apply (Hout 0%nat q0)).
    rewrite (IH cpu qs q); [done| |done..| |].
    + cbn in Hlen. lia.
    + intros c' q' x Hne. apply (Hout (S c')). lia.
    + intros c' x. apply (Hcur (S c')).
Qed.

(** Where a thread that blocks is left: the last of its CPU's queue, Blocked, and
    nowhere else. *)
Record asleep (cpu : nat) (t : Thread) (d : Scheduler) (q : list Thread) (t' : Thread) : Prop := {
  as_queue : run_queues d !! cpu = Some (q ++ [t']);
  as_pid : pid t' = pid t;
  as_state : state t' = Blocked;
  as_context : context t' = context t;
  as_before x : x ∈ q → pid x ≠ pid t;
  as_queues c q' x : c ≠ cpu → run_queues d !! c = Some q' → x ∈ q' → pid x ≠ pid t;
  as_current c x : current d !! c = Some (Some x) → pid x ≠ pid t;
  as_len : length (current d) = length (run_queues d) }.

Lemma block_sleeps cpu wake_at t s : wf (SCHEDULER s) → current (SCHEDULER s) !! cpu = Some (Some t) → pid t ≠ 0 →
  only_at cpu (pid t) (SCHEDULER s) → pick_next cpu (SCHEDULER s) ≠ None →
  ∃ w sc q t', block_current_until cpu wake_at s = (Ok (Some w), sc) ∧ asleep cpu t (SCHEDULER sc) q t'.
Proof.
  intros Hwf Hc H0 [Oq Oc] Hn. set (d := SCHEDULER s) in *. pose proof (lookup_lt_Some _ _ _ Hc) as Hlt.
  unfold block_current_until. kstep. fold d. rewrite Hc. kstep.
  match goal with |- context [schedule cpu ?x] => set (s1 := x) end.
  assert (wf (SCHEDULER s1)) as Hwf1 by (destruct Hwf; constructor; cbn; by rewrite ?length_insert).
  assert (current (SCHEDULER s1) !! cpu = Some (Some (set_state Blocked t))) as Hc1 by (cbn; by apply list_lookup_insert_eq).
  destruct (schedule_spec cpu s1 _ Hwf1 Hc1) as [[Ep _]|(next & qs & q & Ep & Hq & E)]; [done|].
  assert (requeue (charge (set_state Blocked t)) = [charge (set_state Blocked t)]) as Er.
  { unfold requeue. by rewrite charge_pid, charge_state, (proj2 (Z.eqb_neq _ _)). }
  rewrite Er in E. destruct (lookup_lt_is_Some_2 (run_queues d) cpu) as [q0 Hq0]; [destruct Hwf; fold d in wf_queues, wf_current; lia|].
  destruct (pick_next_Some cpu (SCHEDULER s1) q0 next qs (wf_queues _ Hwf1) Hq0 Ep) as (c & i & q1 & [Pq Pa Eqs _ _]).
  pose proof (concat_take_thread _ _ _ _ _ Pq Pa) as Hperm. rewrite <- Eqs in Hperm.
  assert (∀ c' q' x, qs !! c' = Some q' → x ∈ q' → pid x ≠ pid t) as Hqs.
  { intros c' q' x Hq' Hx. apply Oq. change (run_queues d) with (run_queues (SCHEDULER s1)). rewrite Hperm. right.
    apply list_elem_of_In, in_concat. exists q'. split; apply list_elem_of_In; [by eapply list_elem_of_lookup_2|done]. }
  eexists _, _, q, (charge (set_state Blocked t)). split; [exact E|].
  rewrite sched_set_current_pid. cbn [SCHEDULER Sched.set_sched]. constructor; cbn [run_queues current].
  - apply list_lookup_insert_eq. by eapply lookup_lt_Some.
  - by rewrite charge_pid.
  - by rewrite charge_state.
  - unfold charge. by destruct (_ =? _).
  - intros x Hx. by eapply Hqs.
  - intros c' q' x Hne. rewrite list_lookup_insert_ne by done. apply Hqs.
  - intros c' x Hx. apply list_lookup_insert_Some in Hx as [(<- & Ek & _)|(Hne & Hk)].
    + injection Ek as <-. rewrite start_next_pid. apply Oq. change (run_queues d) with (run_queues (SCHEDULER s1)). rewrite Hperm. by left.
    + cbn in Hk. rewrite list_lookup_insert_ne in Hk by done. intros Hp'. apply Hne. symmetry. by eapply Oc.
  - rewrite !length_insert, Eqs, length_insert. destruct Hwf1. congruence.
Qed.


(** Thread 7 runs on CPU 0; it blocks and thread 9 takes over. *)
Definition demo_running : Sys := set_sched (set_current_pid 0 7 (sched demo)) demo.

