(* ===== verification/Kernel.v ===== *)
(** * Kernel state shared by memory mapping, shared memory, processes and signals

    The static tables of [sched/process.rs], [sched/mod.rs], [syscall/process.rs]
    and [mm/shm.rs], next to the machine and the scheduler.  A process's area
    map is behind an [Arc<Mutex<Vmm>>] that threads share, so a process holds a
    handle and the maps are in a store.  The calling CPU [cpu] and its page-table
    root [root] (TTBR0) are arguments of the functions that read them. *)

From S2P Require Import Prelude.
From S2P Require Import Pmm.
From S2P Require Import Paging.
From S2P Require Import Sched.
From S2P Require Import Vmm.

Definition USER_BRK_BASE : Z := 0x0000006000000000.
Definition USER_MMAP_BASE : Z := 0x0000007000000000.

Record Process := mkProcess {
  p_pid : Z; tgid : Z; pgid : Z; sid : Z; ppid : Z;
  uid : Z; gid : Z; euid : Z; egid : Z; suid : Z; sgid : Z;
  no_new_privs : bool; p_name : string; environ : list Z; p_threads : list Z;
  brk_base : Z; brk_current : Z; mmap_next : Z; vmm : Z }.

Definition set_threads (x : list Z) (p : Process) : Process :=
  mkProcess (p_pid p) (tgid p) (pgid p) (sid p) (ppid p) (uid p) (gid p) (euid p) (egid p) (suid p) (sgid p)
    (no_new_privs p) (p_name p) (environ p) x (brk_base p) (brk_current p) (mmap_next p) (vmm p).
Definition set_brk (base cur : Z) (p : Process) : Process :=
  mkProcess (p_pid p) (tgid p) (pgid p) (sid p) (ppid p) (uid p) (gid p) (euid p) (egid p) (suid p) (sgid p)
    (no_new_privs p) (p_name p) (environ p) (p_threads p) base cur (mmap_next p) (vmm p).
Definition set_mmap_next (x : Z) (p : Process) : Process :=
  mkProcess (p_pid p) (tgid p) (pgid p) (sid p) (ppid p) (uid p) (gid p) (euid p) (egid p) (suid p) (sgid p)
    (no_new_privs p) (p_name p) (environ p) (p_threads p) (brk_base p) (brk_current p) x (vmm p).

(** [data] is the kernel address of the segment's buffer. *)
Record ShmSegment := mkSeg {
  seg_key : Z; seg_size : Z; seg_data : Z; seg_id : Z; attach_count : Z; marked_for_delete : bool }.

Definition set_count (x : Z) (g : ShmSegment) : ShmSegment :=
  mkSeg (seg_key g) (seg_size g) (seg_data g) (seg_id g) x (marked_for_delete g).
Definition set_marked (g : ShmSegment) : ShmSegment :=
  mkSeg (seg_key g) (seg_size g) (seg_data g) (seg_id g) (attach_count g) true.

(** An attachment: address, segment id, size. *)
Record Attach := mkAttach { at_addr : Z; at_id : Z; at_size : Z }.

Record ShmState := mkShm { SHM_SEGS : gmap Z ShmSegment; SHM_ATTACH : gmap Z (list Attach); NEXT_SHMID : Z }.

Record K := mkK {
  mach : Mach;
  sched : Sched.Sys;
  PROCESS_TABLE : gmap Z Process;
  VMMS : gmap Z (gmap Z Vma);
  NEXT_VMM : Z;
  EXITED_CHILDREN : gmap Z (Z * Z);
  CLEAR_CHILD_TID : gmap Z Z;
  ROBUST_LIST : gmap Z (Z * Z);
  RSEQ_STATE : gmap Z (Z * Z * Z);
  shm : ShmState }.

Definition set_mach (x : Mach) (k : K) : K :=
  mkK x (sched k) (PROCESS_TABLE k) (VMMS k) (NEXT_VMM k) (EXITED_CHILDREN k) (CLEAR_CHILD_TID k) (ROBUST_LIST k)
    (RSEQ_STATE k) (shm k).
Definition set_sched (x : Sched.Sys) (k : K) : K :=
  mkK (mach k) x (PROCESS_TABLE k) (VMMS k) (NEXT_VMM k) (EXITED_CHILDREN k) (CLEAR_CHILD_TID k) (ROBUST_LIST k)
    (RSEQ_STATE k) (shm k).
Definition set_table (x : gmap Z Process) (k : K) : K :=
  mkK (mach k) (sched k) x (VMMS k) (NEXT_VMM k) (EXITED_CHILDREN k) (CLEAR_CHILD_TID k) (ROBUST_LIST k)
    (RSEQ_STATE k) (shm k).
Definition set_vmms (x : gmap Z (gmap Z Vma)) (n : Z) (k : K) : K :=
  mkK (mach k) (sched k) (PROCESS_TABLE k) x n (EXITED_CHILDREN k) (CLEAR_CHILD_TID k) (ROBUST_LIST k)
    (RSEQ_STATE k) (shm k).
Definition set_exited (x : gmap Z (Z * Z)) (k : K) : K :=
  mkK (mach k) (sched k) (PROCESS_TABLE k) (VMMS k) (NEXT_VMM k) x (CLEAR_CHILD_TID k) (ROBUST_LIST k)
    (RSEQ_STATE k) (shm k).
Definition set_tls (c : gmap Z Z) (r : gmap Z (Z * Z)) (q : gmap Z (Z * Z * Z)) (k : K) : K :=
  mkK (mach k) (sched k) (PROCESS_TABLE k) (VMMS k) (NEXT_VMM k) (EXITED_CHILDREN k) c r q (shm k).
Definition set_shm (x : ShmState) (k : K) : K :=
  mkK (mach k) (sched k) (PROCESS_TABLE k) (VMMS k) (NEXT_VMM k) (EXITED_CHILDREN k) (CLEAR_CHILD_TID k)
    (ROBUST_LIST k) (RSEQ_STATE k) x.

Definition on_mach {A} (m : M Mach A) : M K A := λ k, let '(r, x) := m (mach k) in (r, set_mach x k).
Definition on_sched {A} (m : M Sched.Sys A) : M K A := λ k, let '(r, x) := m (sched k) in (r, set_sched x k).

(** [current_pid()] on CPU [cpu]. *)
Definition current_pid (cpu : nat) (k : K) : Z := get_current_pid cpu (sched k).

(** The area map behind a process's handle, and an update of it. *)
Definition vmm_of (p : Process) (k : K) : gmap Z Vma := default ∅ (VMMS k !! vmm p).
Definition put_vmm (p : Process) (m : gmap Z Vma) (k : K) : K := set_vmms (<[vmm p := m]> (VMMS k)) (NEXT_VMM k) k.

(** [(v + PAGE_SIZE - 1) & !(PAGE_SIZE - 1)]; the addition may overflow. *)
Definition align_up (v : Z) : option Z := x ← add64 v 4096; Some (Z.land (x - 1) (not64 4095)).

Definition prot_to_page_attr (prot : Z) : PageAttr :=
  let r := has prot PROT_READ in let w := has prot PROT_WRITE in let x := has prot PROT_EXEC in
  mkAttr (r || w || x) w x true false.

(** [mmap::shm_alloc_addr] *)
Definition shm_alloc_addr (cpu : nat) (size : Z) : M K Z :=
  let! k := get in
  match PROCESS_TABLE k !! current_pid cpu k with
  | Some p =>
      let! aligned := or_panic (align_up (Z.max size 4096)) in
      let! addr := or_panic (align_up (mmap_next p)) in
      put (set_table (<[current_pid cpu k := set_mmap_next (saturating_add addr aligned) p]> (PROCESS_TABLE k)) k) ;;;
      ret addr
  | None => ret USER_MMAP_BASE
  end.

(** [k] pages from [base]: [base + i * 4096] may overflow. *)
Definition page_at (base i : Z) : option Z := add64 base (i * 4096).

Lemma align_up_spec v a : 0 ≤ v → align_up v = Some a → a mod 4096 = 0 ∧ v ≤ a < v + 4096 ∧ a < 2 ^ 64.
Proof.
  intros Hv. unfold align_up. destruct (add64 v 4096) as [x|] eqn:E; [|done]. apply add64_Some in E as [-> Hb].
  cbn. intros [= <-]. change 4095 with (2 ^ 12 - 1). rewrite land_align_down by (unfold u64_ok; lia).
  change (2 ^ 12) with 4096. lia.
Qed.
