(* ===== verification/Shm.v ===== *)
(** * System V shared memory ([mm/shm.rs])

    Segments, attachments and their accounting.  The buffer of a new segment
    comes from the kernel heap: its address [buf] is an argument of [do_shmget].
    [hhdm] is the offset of the direct map. *)

From stdpp Require Import pretty.
From S2P Require Import Prelude.
From S2P Require Import Pmm.
From S2P Require Import Paging.
From S2P Require Import User.
From S2P Require Import Sched.
From S2P Require Import Vmm.
From S2P Require Import Kernel.

Section Shm.
Context (cpu : nat) (root hhdm : Z).

Definition IPC_PRIVATE : Z := 0.
Definition IPC_CREAT : Z := 0x200.
Definition IPC_EXCL : Z := 0x400.
Definition SHM_RDONLY : Z := 0x1000.
Definition IPC_RMID : Z := 0.
Definition IPC_STAT : Z := 2.

Definition set_segs (x : gmap Z ShmSegment) (h : ShmState) : ShmState := mkShm x (SHM_ATTACH h) (NEXT_SHMID h).
Definition set_attach (x : gmap Z (list Attach)) (h : ShmState) : ShmState := mkShm (SHM_SEGS h) x (NEXT_SHMID h).
Definition on_shm (f : ShmState → ShmState) (k : K) : K := set_shm (f (shm k)) k.

(** The first live segment with this key, in id order. *)
Definition find_key (segs : gmap Z ShmSegment) (key : Z) : option ShmSegment :=
  head (filter (λ g, seg_key g = key ∧ marked_for_delete g = false) (bvalues segs)).

(** [vec![0u8; size]] at kernel address [buf]. *)
Definition zero_bytes (f : Z → Z) (a n : Z) : Z → Z := λ x, if bool_decide (a ≤ x < a + n) then 0 else f x.

(** [fetch_add] on an [AtomicI32] wraps. *)
Definition wrap_i32 (x : Z) : Z := (x + 2 ^ 31) mod 2 ^ 32 - 2 ^ 31.

Definition create_segment (key size buf : Z) : M K Z :=
  let! id := gets (λ k, NEXT_SHMID (shm k)) in
  modify (λ k, set_mach (set_mem (zero_bytes (mem (mach k)) (buf - hhdm) size) (mach k)) k) ;;;
  modify (on_shm (λ h, mkShm (<[id := mkSeg key size buf id 0 false]> (SHM_SEGS h)) (SHM_ATTACH h) (wrap_i32 (id + 1)))) ;;;
  ret id.

Definition do_shmget (key size shmflg buf : Z) : M K Z :=
  if size =? 0 then fail EINVAL else
  let! segs := gets (λ k, SHM_SEGS (shm k)) in
  match (if key =? IPC_PRIVATE then None else find_key segs key) with
  | Some g => if has shmflg IPC_CREAT && has shmflg IPC_EXCL then fail EEXIST else ret (seg_id g)
  | None =>
      if (key =? IPC_PRIVATE) || has shmflg IPC_CREAT then create_segment key size buf
      else match find_key segs key with Some g => ret (seg_id g) | None => fail ENOENT end
  end.

(** [segs.get_mut(&id)] with a change of the attach count; ids that are gone are skipped. *)
Definition bump (d : Z → Z) (id : Z) (segs : gmap Z ShmSegment) : gmap Z ShmSegment :=
  alter (λ g, set_count (d (attach_count g)) g) id segs.
Definition inc (x : Z) : Z := saturating_add x 1.
Definition dec (x : Z) : Z := saturating_sub x 1.

Definition orphan (g : ShmSegment) : bool := marked_for_delete g && (attach_count g =? 0).
Definition retain (segs : gmap Z ShmSegment) : gmap Z ShmSegment := filter (λ e, orphan e.2 = false) segs.

Definition cleanup_orphaned (h : ShmState) : ShmState := set_segs (retain (SHM_SEGS h)) h.

(** [SHM_ATTACH.entry(pid).or_insert_with(Vec::new).push(..)] *)
Definition push_attach (pid : Z) (a : Attach) (h : ShmState) : ShmState :=
  set_attach (<[pid := default [] (SHM_ATTACH h !! pid) ++ [a]]> (SHM_ATTACH h)) h.

(** The text of the area's name; only its prefix is ever looked at. *)
Definition shm_name (shmid : Z) : string := "[shm:" +:+ pretty.pretty shmid +:+ "]".

Definition do_shmat (shmid shmaddr shmflg : Z) : M K Z :=
  let! segs := gets (λ k, SHM_SEGS (shm k)) in
  match segs !! shmid with
  | Some g =>
      if marked_for_delete g then fail EINVAL else
      let size := seg_size g in
      let! map_addr := (if shmaddr =? 0 then shm_alloc_addr cpu size else ret shmaddr) in
      let readonly := has shmflg SHM_RDONLY in
      let flags := if readonly then USER_RO else USER_RW in
      let! sz := or_panic (add64 size 4095) in
      for_each (seqZ 0 (sz / 4096)) (λ i,
        let! page_virt := or_panic (page_at (seg_data g) i) in
        let! phys := or_panic (sub64 page_virt hhdm) in
        let! v := or_panic (page_at map_addr i) in
        on_mach (map_user_page root v phys flags)) ;;;
      let! pid := gets (current_pid cpu) in
      modify (on_shm (λ h, set_segs (bump inc shmid (SHM_SEGS h)) h)) ;;;
      modify (on_shm (push_attach pid (mkAttach map_addr shmid size))) ;;;
      let! k := get in
      match PROCESS_TABLE k !! pid with
      | Some p =>
          let! e := or_panic (add64 map_addr size) in
          put (put_vmm p (Vmm.map (vmm_of p k) map_addr e
            (if readonly then PROT_READ else Z.lor PROT_READ PROT_WRITE) MAP_SHARED 0 (Some (shm_name shmid))) k)
      | None => ret tt
      end ;;;
      ret map_addr
  | None => fail EINVAL
  end.

(** Store a process's attachments back; an empty list is removed. *)
Definition put_entries (pid : Z) (l : list Attach) (m : gmap Z (list Attach)) : gmap Z (list Attach) :=
  match l with [] => delete pid m | _ => <[pid := l]> m end.

Definition do_shmdt (shmaddr : Z) : M K Z :=
  if (shmaddr =? 0) || negb (shmaddr mod 4096 =? 0) then fail EINVAL else
  let! pid := gets (current_pid cpu) in
  let! at_map := gets (λ k, SHM_ATTACH (shm k)) in
  let! entries := ok_or (at_map !! pid) EINVAL in
  let! found := ok_or (list_find (λ a, at_addr a = shmaddr) entries) EINVAL in
  let idx := found.1 in
  let m := found.2 in
  modify (on_shm (set_attach (put_entries pid (delete idx entries) at_map))) ;;;
  when (negb (root =? 0)) (
    let! sz := or_panic (add64 (at_size m) 4095) in
    for_each (seqZ 0 (sz / 4096)) (λ i,
      let! v := or_panic (page_at (at_addr m) i) in
      on_mach (unmap_user_page root v) ;;; ret tt)) ;;;
  let! k := get in
  match PROCESS_TABLE k !! pid with
  | Some p => let! v := or_panic (Vmm.unmap (vmm_of p k) (at_addr m) (at_size m)) in put (put_vmm p v k)
  | None => ret tt
  end ;;;
  modify (on_shm (λ h, set_segs (bump dec (at_id m) (SHM_SEGS h)) h)) ;;;
  modify (on_shm cleanup_orphaned) ;;;
  ret 0.

(** Drop one count per attachment in the list, then free what is orphaned. *)
Definition release (l : list Attach) (segs : gmap Z ShmSegment) : gmap Z ShmSegment :=
  foldl (λ m a, bump dec (at_id a) m) segs l.

Definition cleanup_process_attachments (pid : Z) (h : ShmState) : ShmState :=
  let mappings := default [] (SHM_ATTACH h !! pid) in
  let h' := set_attach (delete pid (SHM_ATTACH h)) h in
  match mappings with
  | [] => h'
  | _ => set_segs (retain (release mappings (SHM_SEGS h))) h'
  end.

Definition covered (addr end_ : Z) (a : Attach) : bool :=
  (addr <=? at_addr a) && (saturating_add (at_addr a) (at_size a) <=? end_).

Definition detach_mappings_in_range (pid addr len : Z) (h : ShmState) : ShmState :=
  if len =? 0 then h else
  let end_ := saturating_add addr len in
  match SHM_ATTACH h !! pid with
  | None => h
  | Some entries =>
      let removed := filter (λ a, covered addr end_ a = true) entries in
      let kept := filter (λ a, covered addr end_ a = false) entries in
      let h' := set_attach (put_entries pid kept (SHM_ATTACH h)) h in
      match removed with
      | [] => h'
      | _ => set_segs (retain (release removed (SHM_SEGS h))) h'
      end
  end.

(** The [shmid_ds] bytes of IPC_STAT: the size at offset 48 of 112 bytes. *)
Definition shmid_ds (size : Z) : list Z := replicate 48 0 ++ to_le 8 size ++ replicate 56 0.

Definition do_shmctl (shmid cmd buf : Z) : M K Z :=
  if cmd =? IPC_RMID then
    let! segs := gets (λ k, SHM_SEGS (shm k)) in
    match segs !! shmid with
    | Some g => modify (on_shm (set_segs (retain (<[shmid := set_marked g]> segs)))) ;;; ret 0
    | None => fail EINVAL
    end
  else if cmd =? IPC_STAT then
    if buf =? 0 then ret 0 else
    let! segs := gets (λ k, SHM_SEGS (shm k)) in
    let! g := ok_or (segs !! shmid) EINVAL in
    map_err (on_mach (User.copy_to_user root buf (shmid_ds (seg_size g)))) EFAULT ;;;
    ret 0
  else fail EINVAL.
End Shm.

(** ** Computations that leave the shared-memory tables alone *)

Definition keeps_shm {A} (m : M K A) : Prop := ∀ k, shm (m k).2 = shm k.

Lemma keeps_ret {A} (a : A) : keeps_shm (ret a).
Proof. done. Qed.
Lemma keeps_fail {A} e : keeps_shm (fail (A:=A) e).
Proof. done. Qed.
Lemma keeps_gets {A} (f : K → A) : keeps_shm (gets f).
Proof. done. Qed.
Lemma keeps_or_panic {A} (o : option A) : keeps_shm (or_panic o).
Proof. by destruct o. Qed.
Lemma keeps_ok_or {A} (o : option A) e : keeps_shm (ok_or o e).
Proof. by destruct o. Qed.
Lemma keeps_on_mach {A} (m : M Mach A) : keeps_shm (on_mach m).
Proof. intros k. unfold on_mach. by destruct (m (mach k)). Qed.
Lemma keeps_map_err {A} (m : M K A) e : keeps_shm m → keeps_shm (map_err m e).
Proof. intros H k. unfold map_err. specialize (H k). by destruct (m k) as [[]]. Qed.
Lemma keeps_bind {A B} (m : M K A) (f : A → M K B) : keeps_shm m → (∀ a, keeps_shm (f a)) → keeps_shm (bind m f).
Proof.
  intros Hm Hf k. unfold bind. specialize (Hm k). destruct (m k) as [[a| |] k1]; cbn in *; [|done..].
  by rewrite Hf.
Qed.
Lemma keeps_for_each {A} (l : list A) (f : A → M K ()) : (∀ a, keeps_shm (f a)) → keeps_shm (for_each l f).
Proof. intros Hf. induction l; cbn; [apply keeps_ret|]. by apply keeps_bind. Qed.
Lemma keeps_when b m : keeps_shm m → keeps_shm (when b m).
Proof. by destruct b. Qed.

Create HintDb keeps.
#[export] Hint Resolve keeps_ret keeps_fail keeps_gets keeps_or_panic keeps_ok_or keeps_on_mach keeps_map_err
  keeps_bind keeps_for_each keeps_when : keeps.

Lemma keeps_shm_alloc_addr cpu size : keeps_shm (shm_alloc_addr cpu size).
Proof.
  intros k. unfold shm_alloc_addr. kstep. destruct (_ !! _) as [p|]; [|done].
  destruct (align_up (Z.max size 4096)); [|done]. kstep. by destruct (align_up (mmap_next p)).
Qed.
#[export] Hint Resolve keeps_shm_alloc_addr : keeps.

(** Run a computation that keeps the tables: either it ends the whole, or the rest runs. *)
Lemma keeps_cases {A B} (m : M K A) (f : A → M K B) k r k' : keeps_shm m → bind m f k = (r, k') →
  shm k' = shm k ∨ ∃ a k1, m k = (Ok a, k1) ∧ shm k1 = shm k ∧ f a k1 = (r, k').
Proof.
  intros Hm. unfold bind. specialize (Hm k). destruct (m k) as [[a| |] k1]; cbn in Hm.
  - intros E. right. by exists a, k1.
  - intros [= _ <-]. by left.
  - intros [= _ <-]. by left.
Qed.

(** ** Counting attachments *)

Definition all_attach (m : gmap Z (list Attach)) : list Attach := concat (map_to_list m).*2.
Definition lcnt (id : Z) (l : list Attach) : Z := Z.of_nat (length (filter (λ a, at_id a = id) l)).
Definition cnt (id : Z) (m : gmap Z (list Attach)) : Z := lcnt id (all_attach m).

Lemma lcnt_app id l l' : lcnt id (l ++ l') = lcnt id l + lcnt id l'.
Proof. unfold lcnt. rewrite filter_app, length_app. lia. Qed.

Lemma lcnt_perm id l l' : l ≡ₚ l' → lcnt id l = lcnt id l'.
Proof. intros H. unfold lcnt. by rewrite H. Qed.

Lemma lcnt_pos id l : 0 < lcnt id l ↔ ∃ a, a ∈ l ∧ at_id a = id.
Proof.
  unfold lcnt. split.
  - destruct (filter _ l) as [|a l'] eqn:E; cbn; [lia|]. intros _. exists a.
    assert (a ∈ filter (λ a, at_id a = id) l) as [? ?]%list_elem_of_filter by (rewrite E; left). done.
  - intros (a & Ha & Hid). assert (a ∈ filter (λ a, at_id a = id) l) as H by (by apply list_elem_of_filter).
    destruct (filter _ l); [by apply not_elem_of_nil in H|]. cbn. lia.
Qed.

Lemma all_attach_insert pid l m : all_attach (<[pid := l]> m) ≡ₚ l ++ all_attach (delete pid m).
Proof.
  unfold all_attach. rewrite <- insert_delete_eq. rewrite map_to_list_insert by apply lookup_delete_eq. done.
Qed.

Lemma all_attach_lookup pid l m : m !! pid = Some l → all_attach m ≡ₚ l ++ all_attach (delete pid m).
Proof. intros H. rewrite <- (insert_id m pid l H) at 1. apply all_attach_insert. Qed.

Lemma all_attach_default pid m : all_attach m ≡ₚ default [] (m !! pid) ++ all_attach (delete pid m).
Proof. destruct (m !! pid) eqn:E; [by apply all_attach_lookup|]. cbn. by rewrite delete_id. Qed.

Lemma all_attach_put pid l m : all_attach (put_entries pid l m) ≡ₚ l ++ all_attach (delete pid m).
Proof. unfold put_entries. destruct l; [done|]. apply all_attach_insert. Qed.

(** ** The accounting invariant

    A segment's count is the number of attachments to it; every attachment is to
    a segment that exists; a segment marked for deletion exists only while it is
    attached. *)

Record shm_inv (h : ShmState) : Prop := {
  inv_count id g : SHM_SEGS h !! id = Some g → attach_count g = cnt id (SHM_ATTACH h);
  inv_live a : a ∈ all_attach (SHM_ATTACH h) → is_Some (SHM_SEGS h !! at_id a);
  inv_orphan id g : SHM_SEGS h !! id = Some g → orphan g = false;
  inv_id id g : SHM_SEGS h !! id = Some g → seg_id g = id ∧ id < NEXT_SHMID h }.

Lemma bump_lookup d id id' segs : bump d id segs !! id' =
  (λ g, if bool_decide (id' = id) then set_count (d (attach_count g)) g else g) <$> segs !! id'.
Proof.
  unfold bump. case_bool_decide as H.
  - subst. by rewrite lookup_alter_eq.
  - rewrite lookup_alter_ne by done. by destruct (segs !! id').
Qed.

Lemma set_count_id g : set_count (attach_count g) g = g.
Proof. by destruct g. Qed.

Lemma release_lookup l : ∀ segs id, (∀ g, segs !! id = Some g → 0 ≤ attach_count g) →
  release l segs !! id = (λ g, set_count (Z.max (attach_count g - lcnt id l) 0) g) <$> segs !! id.
Proof.
  induction l as [|a l IH]; intros segs id Hnn; cbn [release foldl].
  - destruct (segs !! id) as [g|] eqn:E; [|done]. cbn. specialize (Hnn g eq_refl).
    replace (Z.max (attach_count g - lcnt id []) 0) with (attach_count g) by (unfold lcnt; cbn; lia).
    by rewrite set_count_id.
  - unfold release in IH. rewrite IH; rewrite bump_lookup.
    + destruct (segs !! id) as [g|] eqn:E; [|done]. cbn [fmap option_fmap option_map]. specialize (Hnn g eq_refl).
      unfold lcnt. rewrite filter_cons. repeat case_bool_decide; destruct (decide (at_id a = id)); try congruence.
      cbn [set_count attach_count length seg_key seg_size seg_data seg_id marked_for_delete]. unfold dec, saturating_sub.
      f_equal. unfold set_count. cbn. f_equal. lia.
    + intros g (g0 & E & ->)%fmap_Some. specialize (Hnn g0 E). case_bool_decide; [|done]. cbn. unfold dec, saturating_sub. lia.
Qed.

Lemma retain_lookup segs id : retain segs !! id = g ← segs !! id; if orphan g then None else Some g.
Proof.
  unfold retain. destruct (segs !! id) as [g|] eqn:E; cbn.
  - destruct (orphan g) eqn:Eo.
    + apply map_lookup_filter_None_2. right. intros g' E'. cbn. simplify_eq. congruence.
    + by apply map_lookup_filter_Some_2.
  - apply map_lookup_filter_None_2. by left.
Qed.

(** Dropping attachments [l] with their counts, and then the orphans, keeps the invariant. *)
Lemma release_inv h att' l : shm_inv h → all_attach (SHM_ATTACH h) ≡ₚ l ++ all_attach att' →
  shm_inv (mkShm (retain (release l (SHM_SEGS h))) att' (NEXT_SHMID h)).
Proof.
  intros [I1 I2 I3 I4] Hp.
  assert (∀ id g, SHM_SEGS h !! id = Some g → attach_count g = lcnt id l + cnt id att') as Hc.
  { intros id g Hg. rewrite (I1 id g Hg). unfold cnt. rewrite (lcnt_perm id _ _ Hp). apply lcnt_app. }
  assert (∀ id g, SHM_SEGS h !! id = Some g → release l (SHM_SEGS h) !! id = Some (set_count (cnt id att') g)) as Hr.
  { intros id g Hg. rewrite release_lookup; rewrite Hg.
    - cbn. f_equal. f_equal. rewrite (Hc id g Hg). unfold cnt, lcnt. lia.
    - intros g' [= <-]. rewrite (Hc id g Hg). unfold cnt, lcnt. lia. }
  assert (∀ id g, retain (release l (SHM_SEGS h)) !! id = Some g →
    ∃ g0, SHM_SEGS h !! id = Some g0 ∧ g = set_count (cnt id att') g0 ∧ orphan g = false) as Hinv.
  { intros id g. rewrite retain_lookup. destruct (SHM_SEGS h !! id) as [g0|] eqn:E.
    - rewrite (Hr id g0 E). cbn. destruct (orphan _) eqn:Eo; [done|]. intros [= <-]. by exists g0.
    - rewrite release_lookup, E by (intros ?; by rewrite E). done. }
  constructor; cbn.
  - intros id g (g0 & _ & -> & _)%Hinv. done.
  - intros a Ha. destruct (I2 a) as [g Hg]; [rewrite Hp; apply elem_of_app; by right|].
    rewrite retain_lookup, (Hr _ g Hg). cbn.
    assert (0 < cnt (at_id a) att') as Hpos by (apply lcnt_pos; eauto).
    unfold orphan. cbn. rewrite (proj2 (Z.eqb_neq _ _)) by lia. rewrite andb_false_r. by eexists.
  - intros id g (g0 & _ & _ & Ho)%Hinv. done.
  - intros id g (g0 & Hg & -> & _)%Hinv. exact (I4 id g0 Hg).
Qed.

Lemma retain_id h : shm_inv h → retain (SHM_SEGS h) = SHM_SEGS h.
Proof.
  intros I. apply map_eq. intros id. rewrite retain_lookup. destruct (SHM_SEGS h !! id) as [g|] eqn:E; [|done].
  cbn. by rewrite (inv_orphan _ I id g E).
Qed.

Lemma cleanup_process_inv pid h : shm_inv h → shm_inv (cleanup_process_attachments pid h).
Proof.
  intros I. pose proof (release_inv h (delete pid (SHM_ATTACH h)) (default [] (SHM_ATTACH h !! pid)) I
    (all_attach_default pid (SHM_ATTACH h))) as H.
  unfold cleanup_process_attachments. destruct (default [] (SHM_ATTACH h !! pid)) as [|a l]; [|exact H].
  cbn in H. by rewrite (retain_id h I) in H.
Qed.

Lemma filter_bool_split (f : Attach → bool) l :
  l ≡ₚ filter (λ a, f a = true) l ++ filter (λ a, f a = false) l.
Proof.
  induction l as [|a l IH]; [done|]. rewrite !filter_cons. destruct (f a) eqn:E.
  - rewrite decide_True, decide_False by congruence. cbn. by rewrite <- IH.
  - rewrite decide_False, decide_True by congruence. rewrite <- Permutation_middle. by rewrite <- IH.
Qed.

Lemma detach_range_inv pid addr len h : shm_inv h → shm_inv (detach_mappings_in_range pid addr len h).
Proof.
  intros I. unfold detach_mappings_in_range. destruct (len =? 0); [done|].
  destruct (SHM_ATTACH h !! pid) as [l|] eqn:E; [|done].
  set (f := covered addr (saturating_add addr len)).
  pose proof (release_inv h (put_entries pid (filter (λ a, f a = false) l) (SHM_ATTACH h)) (filter (λ a, f a = true) l) I) as H.
  rewrite all_attach_put, app_assoc, <- filter_bool_split, <- all_attach_lookup in H by done. specialize (H (Permutation_refl _)).
  destruct (filter (λ a, f a = true) l); [|exact H]. cbn in H. by rewrite (retain_id h I) in H.
Qed.

(** Attaching adds one to the count and one attachment. *)
Lemma attach_inv h pid a g : shm_inv h → SHM_SEGS h !! at_id a = Some g → marked_for_delete g = false →
  cnt (at_id a) (SHM_ATTACH h) < u64_max →
  shm_inv (push_attach pid a (set_segs (bump inc (at_id a) (SHM_SEGS h)) h)).
Proof.
  intros [I1 I2 I3 I4] Hg Hm Hb. unfold push_attach, set_attach, set_segs. cbn.
  assert (all_attach (<[pid := default [] (SHM_ATTACH h !! pid) ++ [a]]> (SHM_ATTACH h)) ≡ₚ a :: all_attach (SHM_ATTACH h)) as Hp.
  { rewrite all_attach_insert, (all_attach_default pid (SHM_ATTACH h)) at 1. solve_Permutation. }
  constructor; cbn.
  - intros id g' Hg'. rewrite bump_lookup in Hg'. destruct (SHM_SEGS h !! id) as [g0|] eqn:E; [|done]. cbn in Hg'.
    unfold cnt in *. rewrite (lcnt_perm id _ _ Hp). unfold lcnt in *. rewrite filter_cons. pose proof (I1 id g0 E) as Hc.
    unfold cnt, lcnt in Hc. case_bool_decide as Hd; destruct (decide (at_id a = id)); simplify_eq; cbn in *.
    + unfold inc, saturating_add. lia.
    + done.
  - intros a' Ha'. rewrite Hp in Ha'. rewrite bump_lookup. apply fmap_is_Some.
    apply elem_of_cons in Ha' as [->|Ha']; [by exists g|by apply I2].
  - intros id g' Hg'. rewrite bump_lookup in Hg'. destruct (SHM_SEGS h !! id) as [g0|] eqn:E; [|done]. cbn in Hg'.
    case_bool_decide; simplify_eq; [|by eapply I3]. unfold orphan. cbn. by rewrite Hm.
  - intros id g' Hg'. rewrite bump_lookup in Hg'. destruct (SHM_SEGS h !! id) as [g0|] eqn:E; [|done]. cbn in Hg'.
    pose proof (I4 id g0 E). case_bool_decide; by simplify_eq.
Qed.

(** ** The operations *)

Lemma shm_put_vmm p v k : shm (put_vmm p v k) = shm k.
Proof. done. Qed.

Lemma do_shmget_inv hhdm key size flg buf k r k' : NEXT_SHMID (shm k) < 2 ^ 31 - 1 → - 2 ^ 31 ≤ NEXT_SHMID (shm k) →
  do_shmget hhdm key size flg buf k = (r, k') → shm_inv (shm k) → shm_inv (shm k').
Proof.
  intros Hn Hn0 E I. unfold do_shmget in E. destruct (size =? 0); [by injection E as _ <-|]. kstep_in E.
  destruct (if key =? IPC_PRIVATE then None else find_key _ _); [by destruct (_ && _); injection E as _ <-|].
  destruct (_ || _); [|by destruct (find_key _ _); injection E as _ <-].
  unfold create_segment in E. kstep_in E. injection E as _ <-. destruct I as [I1 I2 I3 I4]. cbn.
  set (id := NEXT_SHMID (shm k)) in *.
  assert (SHM_SEGS (shm k) !! id = None) as Hfresh.
  { destruct (SHM_SEGS (shm k) !! id) as [g|] eqn:Eg; [|done]. destruct (I4 id g Eg). unfold id in *. lia. }
  assert (wrap_i32 (id + 1) = id + 1) as Hw by (unfold wrap_i32; rewrite Z.mod_small; lia).
  constructor; cbn.
  - intros i g [[<- <-]|[Hne Hg]]%lookup_insert_Some; [|by apply I1]. cbn.
    destruct (decide (0 < cnt id (SHM_ATTACH (shm k)))) as [(a & Ha & Hid)%lcnt_pos|]; [|unfold cnt, lcnt in *; lia].
    destruct (I2 a Ha) as [g Hg]. congruence.
  - intros a Ha. destruct (I2 a Ha) as [g Hg]. rewrite lookup_insert_ne; [by exists g|]. congruence.
  - intros i g [[<- <-]|[Hne Hg]]%lookup_insert_Some; [done|by eapply I3].
  - intros i g [[<- <-]|[Hne Hg]]%lookup_insert_Some; cbn; rewrite Hw; [split; [done|lia]|]. destruct (I4 i g Hg).
    split; [done|]. unfold id. lia.
Qed.

Lemma do_shmat_shm cpu root hhdm shmid addr flg k r k' : do_shmat cpu root hhdm shmid addr flg k = (r, k') →
  shm k' = shm k ∨
  ∃ g pid a, SHM_SEGS (shm k) !! shmid = Some g ∧ marked_for_delete g = false ∧ at_id a = shmid ∧
    shm k' = push_attach pid a (set_segs (bump inc shmid (SHM_SEGS (shm k))) (shm k)).
Proof.
  unfold do_shmat. intros E. kstep_in E.
  destruct (SHM_SEGS (shm k) !! shmid) as [g|] eqn:Eg; [|injection E as _ <-; by left].
  destruct (marked_for_delete g) eqn:Em; [injection E as _ <-; by left|].
  apply keeps_cases in E as [?|(ma & k1 & _ & E1 & E)]; [by left| |destruct (addr =? 0); auto with keeps].
  apply keeps_cases in E as [E|(sz & k2 & _ & E2 & E)]; [left; congruence| |auto with keeps].
  apply keeps_cases in E as [E|([] & k3 & _ & E3 & E)]; [left; congruence| |auto 10 with keeps].
  kstep_in E. right. eexists g, (current_pid cpu k3), (mkAttach ma shmid (seg_size g)). do 3 (split; [done|]).
  set (k4 := on_shm _ _) in E.
  assert (shm k4 = push_attach (current_pid cpu k3) (mkAttach ma shmid (seg_size g))
    (set_segs (bump inc shmid (SHM_SEGS (shm k))) (shm k))) as <- by (unfold k4; cbn; by rewrite E3, E2, E1).
  destruct (PROCESS_TABLE k4 !! _) as [p|]; kstep_in E; [|by injection E as _ <-].
  destruct (add64 ma (seg_size g)); kstep_in E; by injection E as _ <-.
Qed.

Lemma release_one a segs : release [a] segs = bump dec (at_id a) segs.
Proof. done. Qed.

(** [shmdt] runs part of its work before the count changes: if the kernel panics
    there, the count is still the old one, so only completed calls are covered. *)
Lemma do_shmdt_inv cpu root addr k r k' : do_shmdt cpu root addr k = (r, k') → r ≠ Panic →
  shm_inv (shm k) → shm_inv (shm k').
Proof.
  unfold do_shmdt. intros E Hr I. destruct (_ || _); [by injection E as _ <-|]. kstep_in E.
  set (pid := current_pid cpu k) in E.
  destruct (SHM_ATTACH (shm k) !! pid) as [l|] eqn:El; kstep_in E; [|by injection E as _ <-].
  destruct (list_find (λ a, at_addr a = addr) l) as [[i a]|] eqn:Ef; kstep_in E; [|by injection E as _ <-].
  apply list_find_Some in Ef as (Ha & _). cbn [fst snd] in E.
  set (h1 := put_entries pid (delete i l) (SHM_ATTACH (shm k))) in E.
  assert (shm_inv (mkShm (retain (bump dec (at_id a) (SHM_SEGS (shm k)))) h1 (NEXT_SHMID (shm k)))) as Hinv.
  { rewrite <- release_one. apply release_inv; [done|]. unfold h1. rewrite all_attach_put, app_assoc.
    rewrite (all_attach_lookup _ _ _ El), (delete_Permutation _ _ _ Ha) at 1. done. }
  unfold bind at 1 in E. set (k1 := on_shm _ k) in E.
  set (m := when _ _) in E. assert (keeps_shm m) as Hk by (unfold m; auto 10 with keeps). specialize (Hk k1).
  destruct (m k1) as [[[]|e|] k2] eqn:Em; cbn in Hk; [|exfalso|by injection E as <- _].
  - kstep_in E. destruct (PROCESS_TABLE k2 !! pid) as [p|]; kstep_in E.
    + destruct (Vmm.unmap _ _ _); kstep_in E; [|by injection E as <- _]. injection E as _ <-. cbn. by rewrite Hk.
    + injection E as _ <-. cbn. by rewrite Hk.
  - assert (∀ k e k', m k ≠ (Err e, k')) as Hne; [|by apply Hne in Em]. clear. unfold m. intros k e k'.
    destruct (negb _); [|done]. cbn [when]. destruct (add64 _ _) as [sz|]; [|done]. kstep.
    generalize (seqZ 0 (sz / 4096)). intros js. revert k. induction js as [|j js IH]; intros k; [done|]. cbn [for_each].
    kstep. destruct (page_at _ _); [|done]. kstep. unfold bind at 1, on_mach at 1.
    destruct (unmap_user_page root z (mach k)) as [[o| |] x] eqn:Eu; [apply IH| |done]. exfalso.
    unfold unmap_user_page, unmap_page in Eu. revert Eu. kstep. destruct (walk _ _ _ _); [|done]. unfold read64, write64. kstep.
    by destruct (valid _).
Qed.

Lemma do_shmctl_inv root shmid cmd buf k r k' : do_shmctl root shmid cmd buf k = (r, k') →
  shm_inv (shm k) → shm_inv (shm k').
Proof.
  unfold do_shmctl. intros E I. destruct (cmd =? IPC_RMID).
  - kstep_in E. destruct (SHM_SEGS (shm k) !! shmid) as [g|] eqn:Eg; kstep_in E; injection E as _ <-; [|done].
    destruct I as [I1 I2 I3 I4]. cbn. set (segs' := <[shmid := set_marked g]> (SHM_SEGS (shm k))).
    assert (∀ id g', retain segs' !! id = Some g' → orphan g' = false ∧ attach_count g' = cnt id (SHM_ATTACH (shm k)) ∧
      seg_id g' = id ∧ id < NEXT_SHMID (shm k)) as H.
    { intros id g'. rewrite retain_lookup. unfold segs'. destruct (decide (id = shmid)) as [->|Hne].
      - rewrite lookup_insert_eq. cbn [mbind option_bind]. destruct (orphan (set_marked g)) eqn:Eo; [done|]. intros [= <-]. split; [done|].
        split; [exact (I1 _ g Eg)|exact (I4 _ g Eg)].
      - rewrite lookup_insert_ne by done. destruct (SHM_SEGS (shm k) !! id) as [g0|] eqn:E0; [|done]. cbn.
        destruct (orphan g0) eqn:Eo; [done|]. intros [= <-]. split; [done|]. split; [by apply I1|by apply I4]. }
    constructor; cbn; [naive_solver| |naive_solver|naive_solver].
    intros a Ha. destruct (I2 a Ha) as [g0 Hg0]. rewrite retain_lookup. unfold segs'.
    destruct (decide (at_id a = shmid)) as [Ea|Hne].
    + rewrite Ea, lookup_insert_eq. cbn. unfold orphan. cbn. rewrite (I1 shmid g Eg).
      rewrite (proj2 (Z.eqb_neq _ _)); [by eexists|]. assert (0 < cnt shmid (SHM_ATTACH (shm k))); [|lia]. apply lcnt_pos. eauto.
    + rewrite lookup_insert_ne, Hg0 by done. cbn. rewrite (I3 _ _ Hg0). by eexists.
  - destruct (cmd =? IPC_STAT); [|by injection E as _ <-]. destruct (buf =? 0); [by injection E as _ <-|].
    kstep_in E. destruct (SHM_SEGS (shm k) !! shmid); kstep_in E; [|by injection E as _ <-].
    apply keeps_cases in E as [Es|(x & k1 & _ & E1 & E)]; [by rewrite Es| |auto with keeps].
    injection E as _ <-. by rewrite E1.
Qed.

(** ** Histories *)

(** One call that touches the tables.  The bounds say that ids and counts have
    not been used up. *)
Inductive shm_step (cpu : nat) (root hhdm : Z) (k k' : K) : Prop :=
| step_shmget key size flg buf r : - 2 ^ 31 ≤ NEXT_SHMID (shm k) < 2 ^ 31 - 1 →
    do_shmget hhdm key size flg buf k = (r, k') → shm_step cpu root hhdm k k'
| step_shmat id addr flg r : cnt id (SHM_ATTACH (shm k)) < u64_max →
    do_shmat cpu root hhdm id addr flg k = (r, k') → shm_step cpu root hhdm k k'
| step_shmdt addr r : do_shmdt cpu root addr k = (r, k') → r ≠ Panic → shm_step cpu root hhdm k k'
| step_shmctl id cmd buf r : do_shmctl root id cmd buf k = (r, k') → shm_step cpu root hhdm k k'
| step_exit pid : k' = on_shm (cleanup_process_attachments pid) k → shm_step cpu root hhdm k k'
| step_munmap pid addr len : k' = on_shm (detach_mappings_in_range pid addr len) k → shm_step cpu root hhdm k k'.

Lemma shm_step_inv cpu root hhdm k k' : shm_step cpu root hhdm k k' → shm_inv (shm k) → shm_inv (shm k').
Proof.
  intros [key size flg buf r [H1 H2] E|id addr flg r Hb E|addr r E Hr|id cmd buf r E|pid ->|pid addr len ->] I.
  - by eapply do_shmget_inv.
  - apply do_shmat_shm in E as [->|(g & pid & a & Hg & Hm & <- & ->)]; [done|]. by eapply attach_inv.
  - by eapply do_shmdt_inv.
  - by eapply do_shmctl_inv.
  - by apply cleanup_process_inv.
  - by apply detach_range_inv.
Qed.

(** C22. Shared-memory accounting: after any sequence of calls, exits and unmaps
    every segment's attach count is the number of attachments to it, every
    attachment is to a live segment (none is freed while attached), and a segment
    marked for deletion is gone as soon as its last attachment is. *)
Theorem shm_accounting cpu root hhdm k k' : rtc (shm_step cpu root hhdm) k k' → shm_inv (shm k) → shm_inv (shm k').
Proof. induction 1 as [|k k1 k' Hs _ IH]; [done|]. intros I. by apply IH, (shm_step_inv _ _ _ _ _ Hs). Qed.

Definition demo_k : K :=
  mkK (mkMach (Pmm.mkPmm [] 0 0) (λ _, 0)) Sched.boot ∅ ∅ 0 ∅ ∅ ∅ ∅ (mkShm ∅ ∅ 1).

Lemma shm_accounting_witness :
  ∃ k', (do_shmget 0 42 4096 IPC_CREAT 0x9000 demo_k).2 = k' ∧ shm_inv (shm k') ∧ size (SHM_SEGS (shm k')) = 1%nat.
Proof.
  eexists. split; [reflexivity|]. split; [|reflexivity].
  apply (shm_accounting 0 4096 0 demo_k).
  - apply rtc_once. eapply (step_shmget 0 4096 0 demo_k _ 42 4096 IPC_CREAT 0x9000 (Ok 1)); [vm_compute; split; congruence|].
    reflexivity.
  - constructor; cbn; [done| |done|done]. intros a []%not_elem_of_nil.
Defined.
