(* ===== verification/Mmap.v ===== *)
(** * Memory mapping system calls ([mm/mmap.rs])

    [do_mmap], [do_munmap], [do_mprotect] and [do_brk] on the kernel state.
    [root] is the page-table root of the calling CPU, [cpu] its number, and
    [file_of fd] what [get_file] gives for a descriptor: [None] when there is no
    such file, else the contents of its inode, if it has one. *)

From stdpp Require Import pretty.
From S2P Require Import Prelude.
From S2P Require Import Pmm.
From S2P Require Import Paging.
From S2P Require Import User.
From S2P Require Import Sched.
From S2P Require Import Vmm.
From S2P Require Import Kernel.
From S2P Require Import Shm.

Definition VALID_PROT_MASK : Z := Z.lor (Z.lor PROT_READ PROT_WRITE) PROT_EXEC.

(** [update_heap_vma_locked]: the heap's area follows the break. *)
Definition update_heap_vma (p : Process) (old_heap_end : Z) : M K () :=
  let! k := get in
  let m := vmm_of p k in
  let! m := or_panic (if brk_base p <? old_heap_end
                      then Vmm.unmap m (brk_base p) (old_heap_end - brk_base p) else Some m) in
  let! new_heap_end := or_panic (align_up (brk_current p)) in
  let m := if brk_base p <? new_heap_end
           then Vmm.map m (brk_base p) new_heap_end (Z.lor PROT_READ PROT_WRITE) (Z.lor MAP_PRIVATE MAP_ANONYMOUS) 0
                  (Some "[heap]")
           else m in
  modify (put_vmm p m).

Section Mmap.
Context (cpu : nat) (root : Z).

(** Change the entry of the calling process. *)
Definition put_proc (p : Process) (k : K) : K :=
  set_table (<[current_pid cpu k := p]> (PROCESS_TABLE k)) k.

Definition set_brk_base (addr : Z) : M K () :=
  let! k := get in
  match PROCESS_TABLE k !! current_pid cpu k with
  | Some p =>
      let! old_heap_end := or_panic (align_up (brk_current p)) in
      let p := set_brk addr addr p in
      modify (put_proc p) ;;;
      update_heap_vma p old_heap_end
  | None => ret tt
  end.

Definition free_frame (phys : Z) : M Mach () := lift_pmm (Pmm.free_page phys).

(** Undo of a partial mapping: free what was mapped. *)
Definition rollback (mapped : list (Z * Z)) : M Mach () :=
  for_each mapped (λ e,
    let! o := unmap_user_page root e.1 in
    free_frame (default e.2 o)).

(** Copy one page of the file's contents into a fresh frame. *)
Definition load_page (content : list Z) (file_offset phys : Z) : M Mach () :=
  let avail := Z.max (Z.of_nat (length content) - file_offset) 0 in
  let to_copy := Z.min 4096 avail in
  when (0 <? to_copy)
    (modify (λ s, set_mem (wr_bytes (mem s) phys (take (Z.to_nat to_copy) (drop (Z.to_nat file_offset) content))) s)).

(** The page loop of [do_mmap]; [mapped] lists what is mapped so far. *)
Fixpoint map_pages (flags : PageAttr) (file : option (option (list Z))) (offset : Z) (vs : list (Z * Z)) (mapped : list (Z * Z)) :
    M Mach () :=
  match vs with
  | [] => ret tt
  | (i, base) :: vs' =>
      let! virt := or_panic (page_at base i) in
      let! o := lift_pmm Pmm.alloc_page in
      match o with
      | None => rollback mapped ;;; fail ENOMEM
      | Some phys =>
          write_zero_page phys ;;;
          map_user_page root virt phys flags ;;;
          match file with
          | Some (Some content) =>
              let! off := or_panic (page_at offset i) in
              load_page content off phys
          | Some None => let! _ := or_panic (page_at offset i) in ret tt
          | None => ret tt
          end ;;;
          map_pages flags file offset vs' (mapped ++ [(virt, phys)])
      end
  end.

Definition is_shm_area (v : Vma) : bool :=
  has (flags v) MAP_SHARED && match name v with Some n => String.prefix "[shm:" n | None => false end.

(** The unmap loop of [do_munmap]: frames of shared-memory pages are not freed. *)
Definition unmap_pages (addr : Z) (shared : list bool) : M Mach () :=
  for_each (imap (λ i b, (Z.of_nat i, b)) shared) (λ e,
    let! virt := or_panic (page_at addr e.1) in
    let! o := unmap_user_page root virt in
    match o with
    | Some phys => when (negb e.2) (free_frame phys)
    | None => ret tt
    end).

Definition do_munmap (addr length : Z) : M K Z :=
  if (length =? 0) || negb (addr mod 4096 =? 0) then fail EINVAL else
  let! aligned_len := or_panic (align_up length) in
  if root =? 0 then fail ENOMEM else
  let pages := aligned_len / 4096 in
  let! pid := gets (current_pid cpu) in
  let! k := get in
  let! shared := or_panic (
    match PROCESS_TABLE k !! pid with
    | Some p => mapM (λ i, v ← page_at addr i; Some (match Vmm.find (vmm_of p k) v with Some a => is_shm_area a | None => false end))
                  (seqZ 0 pages)
    | None => Some (replicate (Z.to_nat pages) false)
    end) in
  on_mach (unmap_pages addr shared) ;;;
  let! k := get in
  match PROCESS_TABLE k !! pid with
  | Some p => let! m := or_panic (Vmm.unmap (vmm_of p k) addr aligned_len) in put (put_vmm p m k)
  | None => ret tt
  end ;;;
  modify (on_shm (detach_mappings_in_range pid addr aligned_len)) ;;;
  ret 0.

(** The name of a file mapping; only its prefix is ever looked at. *)
Definition fd_name (fd : Z) : string := "[fd:" +:+ pretty fd +:+ "]".

Definition do_mmap (file_of : Z → option (option (list Z))) (addr length prot flags fd offset : Z) : M K Z :=
  let! aligned_len := or_panic (align_up length) in
  if aligned_len =? 0 then fail EINVAL else
  if has prot (not32 VALID_PROT_MASK) then fail EINVAL else
  let is_private := has flags MAP_PRIVATE in
  let is_shared := has flags MAP_SHARED in
  if eqb is_private is_shared then fail EINVAL else
  let is_anon := has flags MAP_ANONYMOUS in
  if negb is_anon && (fd <? 0) then fail EINVAL else
  if (0 <=? fd) && ((offset <? 0) || negb (offset mod 4096 =? 0)) then fail EINVAL else
  let is_fixed := has flags 0x10 in
  let! pid := gets (current_pid cpu) in
  let! k := get in
  let! p := ok_or (PROCESS_TABLE k !! pid) ESRCH in
  let! map_addr :=
    (if is_fixed then if (addr =? 0) || negb (addr mod 4096 =? 0) then fail EINVAL else ret addr
     else
       let! base := or_panic (align_up (mmap_next p)) in
       modify (put_proc (set_mmap_next (saturating_add base aligned_len) p)) ;;; ret base) in
  when is_fixed (ignore (do_munmap map_addr aligned_len)) ;;;
  if root =? 0 then fail ENOMEM else
  let num_pages := aligned_len / 4096 in
  let file := if 0 <=? fd then file_of fd else None in
  on_mach (map_pages (prot_to_page_attr prot) file offset ((λ i, (i, map_addr)) <$> seqZ 0 num_pages) []) ;;;
  let! k := get in
  let! p := ok_or (PROCESS_TABLE k !! pid) ESRCH in
  let name := if is_anon then "[anon]" else fd_name fd in
  let! e := or_panic (add64 map_addr aligned_len) in
  put (put_vmm p (Vmm.map (vmm_of p k) map_addr e prot
    (Z.lor (if is_shared then MAP_SHARED else MAP_PRIVATE) (Z.land flags MAP_ANONYMOUS)) (Z.max offset 0) (Some name)) k) ;;;
  ret map_addr.

(** The first loop of [do_mprotect]: the frames behind the pages. *)
Fixpoint collect_frames (addr : Z) (is_ : list Z) : M K (list (Z * Z)) :=
  match is_ with
  | [] => ret []
  | i :: is' =>
      let! v := or_panic (page_at addr i) in
      let! pa := gets (λ k, translate (mem (mach k)) root v) in
      let! pa := ok_or pa EINVAL in
      let! rest := collect_frames addr is' in
      ret ((v, Z.land pa (not64 0xFFF)) :: rest)
  end.

Definition do_mprotect (addr length prot : Z) : M K Z :=
  if (length =? 0) || negb (addr mod 4096 =? 0) then fail EINVAL else
  if has prot (not32 VALID_PROT_MASK) then fail EINVAL else
  let! aligned_len := or_panic (align_up length) in
  if root =? 0 then fail ENOMEM else
  let flags := prot_to_page_attr prot in
  let pages := aligned_len / 4096 in
  let! page_phys := collect_frames addr (seqZ 0 pages) in
  for_each page_phys (λ e, on_mach (map_user_page root e.1 e.2 flags)) ;;;
  let! k := get in
  match PROCESS_TABLE k !! current_pid cpu k with
  | Some p => let! m := or_panic (Vmm.mprotect (vmm_of p k) addr aligned_len prot) in put (put_vmm p m k)
  | None => ret tt
  end ;;;
  ret 0.

(** The growing loop of [do_brk]: [false] when memory ran out (after the rollback). *)
Fixpoint grow_heap (pages : list Z) (mapped : list (Z * Z)) : M Mach bool :=
  match pages with
  | [] => ret true
  | v :: pages' =>
      let! o := lift_pmm Pmm.alloc_page in
      match o with
      | None => rollback mapped ;;; ret false
      | Some phys =>
          write_zero_page phys ;;;
          map_user_page root v phys USER_RW ;;;
          grow_heap pages' (mapped ++ [(v, phys)])
      end
  end.

Definition shrink_heap (pages : list Z) : M Mach () :=
  for_each pages (λ v, let! o := unmap_user_page root v in
                       match o with Some phys => free_frame phys | None => ret tt end).

(** The page addresses from [a] up to [b], both page aligned. *)
Definition page_list (a b : Z) : list Z := (λ i, a + i * 4096) <$> seqZ 0 ((b - a) / 4096).

Definition do_brk (addr : Z) : M K Z :=
  let! k := get in
  let! p := ok_or (PROCESS_TABLE k !! current_pid cpu k) ESRCH in
  if (addr =? 0) || (addr <? brk_base p) || (addr =? brk_current p) || (root =? 0) then ret (brk_current p) else
  let! old_aligned := or_panic (align_up (brk_current p)) in
  let! new_aligned := or_panic (align_up addr) in
  let! done :=
    (if old_aligned <? new_aligned then on_mach (grow_heap (page_list old_aligned new_aligned) [])
     else on_mach (shrink_heap (page_list new_aligned old_aligned)) ;;; ret true) in
  if negb done then ret (brk_current p) else
  let p := set_brk (brk_base p) addr p in
  modify (put_proc p) ;;;
  update_heap_vma p old_aligned ;;;
  ret addr.
End Mmap.

(** ** Mappings that own their frames

    Every mapped frame is a page in use, is not a table, and is mapped once. *)

Record owned (s : Mach) (root : Z) (lv : gmap Z nat) : Prop := {
  own_tree : tree s root lv;
  own_frame v e : pte_of s root v = Some e →
    ∃ q, pte_addr e = q * 4096 ∧ Pmm.page_ok q ∧ Pmm.page_used (mpmm s) q = true ∧ lv !! (q * 4096) = None;
  own_inj v v' e e' : pte_of s root v = Some e → pte_of s root v' = Some e' → pte_addr e = pte_addr e' →
    vpage v = vpage v' }.

(** Pages in use outside the tables keep their contents and their state. *)
Record kept (s : Mach) (lv : gmap Z nat) (s' : Mach) (lv' : gmap Z nat) : Prop := {
  kept_used p : 0 ≤ p → Pmm.page_used (mpmm s) p = true → Pmm.page_used (mpmm s') p = true;
  kept_table p : 0 ≤ p → Pmm.page_used (mpmm s) p = true → lv !! (p * 4096) = None → lv' !! (p * 4096) = None;
  kept_mem p x : 0 ≤ p → Pmm.page_used (mpmm s) p = true → lv !! (p * 4096) = None →
    p * 4096 ≤ x < p * 4096 + 4096 → mem s' x = mem s x }.

Lemma kept_refl s lv : kept s lv s lv.
Proof. by constructor. Qed.

Lemma kept_trans s1 lv1 s2 lv2 s3 lv3 : kept s1 lv1 s2 lv2 → kept s2 lv2 s3 lv3 → kept s1 lv1 s3 lv3.
Proof.
  intros [U1 T1 M1] [U2 T2 M2]. constructor; intros; eauto.
  rewrite (M2 p) by eauto. eauto.
Qed.

Lemma in_table_page s root lv p x : tree s root lv → lv !! (p * 4096) = None → p * 4096 ≤ x < p * 4096 + 4096 →
  ~ in_table lv x.
Proof.
  intros Ht Hn Hx (t & l & Hl & Hx'). destruct (tree_page _ _ _ Ht _ _ Hl) as (q & -> & _).
  assert (q = p) as -> by lia. congruence.
Qed.

(** Walks only read the tables. *)
Lemma path_ext f s root lv ix : ∀ t l, tree s root lv → (∀ x, in_table lv x → f x = mem s x) →
  lv !! t = Some l → (length ix + l ≤ 3)%nat → Forall idx_ok ix → path f ix t = path (mem s) ix t.
Proof.
  induction ix as [|i ix IH]; intros t l Ht Hf Hl Hlen Hok; cbn [path length] in *; [done|].
  apply Forall_cons in Hok as [Hi Hok].
  assert (entry f t i = entry (mem s) t i) as ->.
  { apply rd64_ext. intros x Hx. apply Hf. exists t, l. split; [done|]. unfold idx_ok, slot in *. lia. }
  destruct (valid (entry (mem s) t i)) eqn:Ev; [|done]. eapply IH; [done|done| |  |done].
  - eapply (tree_child _ _ _ Ht); (done || lia).
  - lia.
Qed.

Lemma pte_of_ext p f s root lv v : tree s root lv → (∀ x, in_table lv x → f x = mem s x) →
  pte_of (mkMach p f) root v = pte_of s root v.
Proof.
  intros Ht Hf. unfold pte_of, leaf. cbn [mem]. pose proof (tree_root _ _ _ Ht) as Hr.
  rewrite (path_ext f s root lv (indices v) root 0 Ht Hf Hr ltac:(done) (indices_idx_ok v)).
  destruct (path (mem s) (indices v) root) as [t|] eqn:Ep; [|done].
  pose proof (path_level _ _ _ _ _ Ht (indices_idx_ok v) ltac:(done) Ep) as Hl.
  assert (entry f t (index v 3) = entry (mem s) t (index v 3)) as ->; [|done].
  apply rd64_ext. intros x Hx. apply Hf. exists t, 3%nat. split; [done|].
  pose proof (index_range v 3). unfold slot in *. lia.
Qed.

Lemma tree_frame p f s root lv : tree s root lv → Pmm.pmm_inv p →
  (∀ q, 0 ≤ q → is_Some (lv !! (q * 4096)) → Pmm.page_used p q = true) →
  (∀ x, in_table lv x → f x = mem s x) → tree (mkMach p f) root lv.
Proof.
  intros Ht Hp Hu Hf.
  assert (∀ t l i, lv !! t = Some l → 0 ≤ i < 512 → entry f t i = entry (mem s) t i) as He.
  { intros t l i Hl Hi. apply rd64_ext. intros x Hx. apply Hf. exists t, l. split; [done|]. unfold slot in Hx. lia. }
  destruct Ht as [T1 T2 T3 T4 T5 T6]. constructor; cbn [mem mpmm]; [done|done|done| | |].
  - intros t l Hl. destruct (T4 t l Hl) as (q & -> & Hq & _). exists q. split; [done|]. split; [done|].
    apply Hu; [apply Hq|by exists l].
  - intros t l i Hl Hl3 Hi. rewrite (He t l i Hl Hi). by apply T5.
  - intros t t' l l' i i' Hl Hl3 Hl' Hl3' Hi Hi'. rewrite (He t l i Hl Hi), (He t' l' i' Hl' Hi'). by eapply T6.
Qed.

(** Allocating and filling a frame disturbs no mapping. *)
Lemma fresh_frame s root lv : owned s root lv → 0 < Pmm.free_pages (mpmm s) →
  ∃ q p', Pmm.alloc_page (mpmm s) = (Ok (Some (q * 4096)), p') ∧ Pmm.page_ok q ∧
    Pmm.page_used p' q = true ∧ lv !! (q * 4096) = None ∧ Pmm.page_used (mpmm s) q = false ∧
    Pmm.free_pages p' = Pmm.free_pages (mpmm s) - 1 ∧
    ∀ f, (∀ x, ~ (q * 4096 ≤ x < q * 4096 + 4096) → f x = mem s x) →
      let s1 := mkMach p' f in
      owned s1 root lv ∧ (∀ v, pte_of s1 root v = pte_of s root v) ∧ kept s lv s1 lv.
Proof.
  intros [Ht Hf Hi] Hfree. pose proof (tree_pmm _ _ _ Ht) as Hp.
  destruct (Pmm.alloc_page_cases (mpmm s) Hp) as [(q & p' & E & Hq & Hu & _ & [I _ F U])|(_ & _ & H0)]; [|lia].
  exists q, p'. split; [exact E|]. split; [done|]. assert (0 ≤ q) as Hq0 by apply Hq.
  assert (lv !! (q * 4096) = None) as Hlq by (by eapply free_not_table).
  split; [rewrite U by done; by rewrite bool_decide_eq_true_2|]. do 2 (split; [done|]). split; [rewrite F; lia|].
  intros f Hfill s1.
  assert (∀ x, in_table lv x → f x = mem s x) as Hfr.
  { intros x Hx. apply Hfill. intros Hd. by eapply (in_table_page s root lv q x). }
  assert (∀ p, 0 ≤ p → Pmm.page_used (mpmm s) p = true → Pmm.page_used p' p = true) as Hmono.
  { intros p H0 Hu'. rewrite U by done. by case_bool_decide. }
  assert (tree s1 root lv) as Ht1.
  { apply (tree_frame p' _ s); [done|done| |done]. intros p H0 [l Hl]. destruct (tree_page _ _ _ Ht _ _ Hl) as (q' & E' & Hq' & Hu').
    assert (q' = p) as -> by lia. by apply Hmono. }
  assert (∀ v, pte_of s1 root v = pte_of s root v) as Hpte by (intros v; by eapply pte_of_ext).
  split; [|split; [exact Hpte|]].
  - constructor; [done| |].
    + intros v e. rewrite Hpte. intros (q' & E1 & Hq' & Hu' & Hn)%Hf. exists q'. do 2 (split; [done|]). split; [|done].
      apply Hmono; [apply Hq'|done].
    + intros v v' e e'. rewrite !Hpte. apply Hi.
  - constructor; [done|done|]. intros p x H0 Hup Hn Hx. cbn [mem s1]. apply Hfill.
    intros Hx'. assert (p = q) as -> by lia. congruence.
Qed.

(** One round of a mapping loop: a fresh frame with contents [f] behind [v]. *)
Lemma map_filled s root lv v flags : owned s root lv → 4 ≤ Pmm.free_pages (mpmm s) →
  ∃ q p', Pmm.alloc_page (mpmm s) = (Ok (Some (q * 4096)), p') ∧ Pmm.page_ok q ∧ Pmm.page_used (mpmm s) q = false ∧
  ∀ f, (∀ x, ~ (q * 4096 ≤ x < q * 4096 + 4096) → f x = mem s x) →
  ∃ s' lv', map_user_page root v (q * 4096) flags (mkMach p' f) = (Ok tt, s') ∧
    owned s' root lv' ∧ kept s lv s' lv' ∧ Pmm.free_pages (mpmm s) - 4 ≤ Pmm.free_pages (mpmm s') ∧
    Pmm.page_used (mpmm s') q = true ∧ lv' !! (q * 4096) = None ∧
    (∀ x, q * 4096 ≤ x < q * 4096 + 4096 → mem s' x = f x) ∧
    ∀ v', pte_of s' root v' = if bool_decide (vpage v' = vpage v) then Some (leaf_entry (q * 4096) (to_pte flags))
                              else pte_of s root v'.
Proof.
  intros Ho Hfree. destruct (fresh_frame s root lv Ho ltac:(lia)) as (q & p' & E & Hq & Hu & Hlq & Huf & Hfp & Hfill).
  exists q, p'. do 3 (split; [done|]). intros f Hf. destruct (Hfill f Hf) as (Ho1 & Hpte1 & Hk1).
  set (s1 := mkMach p' f) in *. assert (0 ≤ q < Pmm.MAX_PAGES) as Hqr by exact Hq.
  unfold Pmm.MAX_PAGES in Hqr.
  destruct (map_page_pte s1 root lv v (q * 4096) flags (own_tree _ _ _ Ho1)) as
    (r & s' & lv' & Em & Ht' & Hfr & Hnew & Hpte & Hmono & Hfree' & Hr); [unfold u64_ok; lia|].
  destruct Hr as [->|[_ Hr]]; [|cbn [mpmm s1] in Hr; lia].
  assert (∀ p, 0 ≤ p → Pmm.page_used (mpmm s1) p = true → lv !! (p * 4096) = None → lv' !! (p * 4096) = None) as Hnt.
  { intros p H0 Hup Hn. destruct (lv' !! (p * 4096)) as [l|] eqn:El; [|done].
    destruct (Hnew _ _ El) as [H|H]; [congruence|]. replace (p * 4096 / 4096) with p in H by lia. congruence. }
  assert (kept s1 lv s' lv') as Hk2.
  { constructor; [done|done|]. intros p x H0 Hup Hn Hx. apply Hfr. eapply in_table_page; [exact Ht'|by apply Hnt|done]. }
  assert (∀ v', pte_of s' root v' = if bool_decide (vpage v' = vpage v) then Some (leaf_entry (q * 4096) (to_pte flags))
    else pte_of s root v') as Hpte'.
  { intros v'. rewrite Hpte, Hpte1. repeat case_bool_decide; naive_solver. }
  assert (pte_addr (leaf_entry (q * 4096) (to_pte flags)) = q * 4096) as Haddr.
  { rewrite leaf_entry_addr. apply pte_addr_page. lia. }
  exists s', lv'. split; [fold s1; unfold map_user_page, ignore; by rewrite Em|].
  split; [|split; [by eapply kept_trans|split; [cbn [mpmm s1] in Hfree'; lia|]]].
  - destruct Ho as [_ Of Oi]. constructor; [done| |].
    + intros v' e. rewrite Hpte'. case_bool_decide; [intros [= <-]; exists q|intros (q' & E1 & Hq' & Hu' & Hn)%Of; exists q'].
      * split; [done|]. split; [done|]. split; [apply Hmono; [lia|done]|apply Hnt; [lia|done|done]].
      * assert (0 ≤ q') as Hq0 by apply Hq'. split; [done|]. split; [done|].
        assert (Pmm.page_used (mpmm s1) q' = true) by (by apply (kept_used _ _ _ _ Hk1)). auto.
    + intros v1 v2 e1 e2. rewrite !Hpte'. repeat case_bool_decide; intros E1 E2 Ea.
      * congruence.
      * exfalso. simplify_eq. destruct (Of _ _ E2) as (q' & Ea' & _ & Hu' & _). rewrite Haddr, Ea' in Ea.
        assert (q' = q) as -> by lia. congruence.
      * exfalso. simplify_eq. destruct (Of _ _ E1) as (q' & Ea' & _ & Hu' & _). rewrite Haddr, Ea' in Ea.
        assert (q' = q) as -> by lia. congruence.
      * by eapply Oi.
  - split; [apply Hmono; [lia|done]|]. split; [apply Hnt; [lia|done|done]|]. split; [|done].
    intros x Hx. rewrite (kept_mem _ _ _ _ Hk2 q) by (done || lia). done.
Qed.

(** The same with a zeroed frame. *)
Lemma map_fresh s root lv v flags : owned s root lv → 4 ≤ Pmm.free_pages (mpmm s) →
  ∃ q p' s' lv', Pmm.alloc_page (mpmm s) = (Ok (Some (q * 4096)), p') ∧ Pmm.page_ok q ∧
    map_user_page root v (q * 4096) flags (mkMach p' (zero_page (mem s) (q * 4096))) = (Ok tt, s') ∧
    owned s' root lv' ∧ kept s lv s' lv' ∧ Pmm.free_pages (mpmm s) - 4 ≤ Pmm.free_pages (mpmm s') ∧
    Pmm.page_used (mpmm s') q = true ∧ lv' !! (q * 4096) = None ∧
    (∀ x, q * 4096 ≤ x < q * 4096 + 4096 → mem s' x = 0) ∧
    ∀ v', pte_of s' root v' = if bool_decide (vpage v' = vpage v) then Some (leaf_entry (q * 4096) (to_pte flags))
                              else pte_of s root v'.
Proof.
  intros Ho Hfree. destruct (map_filled s root lv v flags Ho Hfree) as (q & p' & E & Hq & _ & H).
  destruct (H (zero_page (mem s) (q * 4096))) as (s' & lv' & Em & Ho' & Hk & Hf & Hu & Hl & Hm & Hpte).
  { intros x Hx. unfold zero_page. by rewrite bool_decide_eq_false_2. }
  exists q, p', s', lv'. do 8 (split; [done|]). split; [|done]. intros x Hx. rewrite Hm by done. unfold zero_page.
  by rewrite bool_decide_eq_true_2.
Qed.

(** One round of an unmapping loop: the frame behind [v], if any, is freed. *)
Lemma unmap_free s root lv v : owned s root lv →
  ∃ s1 s', unmap_user_page root v s = (Ok (pte_addr <$> pte_of s root v), s1) ∧
    (match pte_of s root v with Some e => free_frame (pte_addr e) s1 | None => (Ok tt, s1) end) = (Ok tt, s') ∧
    owned s' root lv ∧
    (∀ v', pte_of s' root v' = if bool_decide (vpage v' = vpage v) then None else pte_of s root v') ∧
    (∀ e, pte_of s root v = Some e → Pmm.page_used (mpmm s') (pte_addr e / 4096) = false) ∧
    (∀ p, 0 ≤ p → Pmm.page_used (mpmm s) p = false → Pmm.page_used (mpmm s') p = false).
Proof.
  intros [Ht Of Oi]. destruct (unmap_page_pte s root lv v Ht) as (s1 & E & Ht1 & Hp & Hpte).
  exists s1. destruct (pte_of s root v) as [e|] eqn:Ev.
  - destruct (Of v e Ev) as (q & Ea & Hq & Hu & Hn). assert (0 ≤ q) as Hq0 by apply Hq.
    destruct (Pmm.mark_free_flips (mpmm s) q (tree_pmm _ _ _ Ht) Hq Hu) as (p' & Ep & [I _ _ U]).
    exists (mkMach p' (mem s1)). split; [exact E|]. split.
    { unfold free_frame, lift_pmm. rewrite Pmm.free_page_mark_free, Ea, Hp.
      replace (q * 4096 / Pmm.PAGE_SIZE) with q by (unfold Pmm.PAGE_SIZE; lia). by rewrite Ep. }
    assert (∀ v', pte_of (mkMach p' (mem s1)) root v' = pte_of s1 root v') as Hsame by (intros v'; done).
    split; [constructor|split; [intros v'; by rewrite Hsame|split]].
    + apply (tree_frame p' _ s1); [done|done| |done]. intros p H0 [l Hl]. rewrite U by done.
      rewrite bool_decide_eq_false_2 by congruence. destruct (tree_page _ _ _ Ht _ _ Hl) as (q' & E' & _ & Hu').
      by replace p with q' by lia.
    + intros v' e'. rewrite Hsame, Hpte. case_bool_decide as Hd; [done|]. intros Ev'.
      destruct (Of v' e' Ev') as (q' & Ea' & Hq' & Hu' & Hn'). exists q'. do 2 (split; [done|]). split; [|done].
      cbn [mpmm]. rewrite U by apply Hq'. rewrite bool_decide_eq_false_2; [done|]. intros ->. apply Hd.
      eapply Oi; [done|done|congruence].
    + intros v1 v2 e1 e2. rewrite !Hsame, !Hpte. repeat case_bool_decide; try done. apply Oi.
    + intros e' [= <-]. rewrite Ea. replace (q * 4096 / 4096) with q by lia. cbn [mpmm]. rewrite U by done.
      by rewrite bool_decide_eq_true_2.
    + intros p H0 Hpf. cbn [mpmm]. rewrite U by done. by case_bool_decide.
  - exists s1. split; [exact E|]. split; [done|]. split; [constructor|split; [done|split; [done|by rewrite Hp]]].
    + done.
    + intros v' e'. rewrite Hpte. case_bool_decide; [done|]. intros (q & ? & ? & ? & ?)%Of. exists q. by rewrite Hp.
    + intros v1 v2 e1 e2. rewrite !Hpte. repeat case_bool_decide; try done. apply Oi.
Qed.

(** ** The loops *)

Definition target (e : Z * Z) : Z := e.2 + e.1 * 4096.

(** A zeroed frame with the given attributes behind address [v]. *)
Definition zero_mapped (s : Mach) (root : Z) (lv : gmap Z nat) (flags : PageAttr) (v : Z) : Prop :=
  ∃ q, pte_of s root v = Some (leaf_entry (q * 4096) (to_pte flags)) ∧ Pmm.page_ok q ∧
    Pmm.page_used (mpmm s) q = true ∧ lv !! (q * 4096) = None ∧ ∀ x, q * 4096 ≤ x < q * 4096 + 4096 → mem s x = 0.

Lemma zero_mapped_kept s lv s' lv' root flags v : kept s lv s' lv' → pte_of s' root v = pte_of s root v →
  zero_mapped s root lv flags v → zero_mapped s' root lv' flags v.
Proof.
  intros [U T Mm] E (q & Ep & Hq & Hu & Hn & H0). assert (0 ≤ q) as Hq0 by apply Hq. exists q. rewrite E.
  do 2 (split; [done|]). split; [by apply U|]. split; [by apply T|]. intros x Hx. rewrite (Mm q) by done. auto.
Qed.

Lemma map_pages_anon root flags off : ∀ vs mapped s lv, owned s root lv →
  4 * Z.of_nat (length vs) ≤ Pmm.free_pages (mpmm s) → Forall (λ e, target e < 2 ^ 64) vs →
  ∃ s' lv', map_pages root flags None off vs mapped s = (Ok tt, s') ∧ owned s' root lv' ∧ kept s lv s' lv' ∧
    (∀ v, (∀ e, e ∈ vs → vpage v ≠ vpage (target e)) → pte_of s' root v = pte_of s root v) ∧
    (∀ v e, e ∈ vs → vpage v = vpage (target e) → zero_mapped s' root lv' flags v).
Proof.
  induction vs as [|[i base] vs IH]; intros mapped s lv Ho Hfree Hok; cbn [map_pages length] in *.
  { exists s, lv. split; [done|]. split; [done|]. split; [apply kept_refl|]. split; [done|]. by intros v e ?%not_elem_of_nil. }
  apply Forall_cons in Hok as [Ht Hok]. unfold target in Ht. cbn [fst snd] in Ht.
  unfold page_at at 1. rewrite add64_small by done. kstep.
  destruct (map_fresh s root lv (base + i * 4096) flags Ho ltac:(lia)) as
    (q & p' & s1 & lv1 & Ea & Hq & Em & Ho1 & Hk1 & Hf1 & Hu1 & Hl1 & H01 & Hpte1).
  unfold bind at 1, lift_pmm. rewrite Ea. unfold write_zero_page. kstep. cbn [set_mem set_pmm mem mpmm].
  rewrite (bind_ok _ _ _ _ _ Em). kstep.
  destruct (IH (mapped ++ [(base + i * 4096, q * 4096)]) s1 lv1 Ho1 ltac:(lia) Hok) as (s' & lv' & E & Ho' & Hk' & Hold & Hnew).
  exists s', lv'. split; [exact E|]. split; [done|]. split; [by eapply kept_trans|].
  assert (∀ v, vpage v = vpage (base + i * 4096) → zero_mapped s1 root lv1 flags v) as Hz1.
  { intros v Hv. exists q. rewrite Hpte1, bool_decide_eq_true_2 by done. done. }
  split.
  - intros v Hv. rewrite Hold by (intros e He; apply Hv; by right). rewrite Hpte1, bool_decide_eq_false_2; [done|].
    apply (Hv (i, base)). by left.
  - intros v e [->|He]%elem_of_cons Hv; [|by eapply Hnew].
    destruct (decide (Exists (λ e, vpage v = vpage (target e)) vs)) as [Hex|Hex].
    + apply Exists_exists in Hex as (e & He & Hve). by eapply Hnew.
    + eapply (zero_mapped_kept s1 lv1); [done| |by apply Hz1]. apply Hold. intros e He Hve. apply Hex, Exists_exists. eauto.
Qed.

Lemma unmap_pages_spec root addr es : ∀ s lv, owned s root lv → Forall (λ e, addr + e.1 * 4096 < 2 ^ 64 ∧ e.2 = false) es →
  ∃ s', for_each es (λ e : Z * bool,
      let! virt := or_panic (page_at addr e.1) in
      let! o := unmap_user_page root virt in
      match o with Some phys => when (negb e.2) (free_frame phys) | None => ret tt end) s = (Ok tt, s') ∧
    owned s' root lv ∧
    (∀ v, (∀ e, e ∈ es → vpage v ≠ vpage (addr + e.1 * 4096)) → pte_of s' root v = pte_of s root v) ∧
    (∀ v e, e ∈ es → vpage v = vpage (addr + e.1 * 4096) → pte_of s' root v = None ∧
       ∀ d, pte_of s root v = Some d → Pmm.page_used (mpmm s') (pte_addr d / 4096) = false) ∧
    (∀ p, 0 ≤ p → Pmm.page_used (mpmm s) p = false → Pmm.page_used (mpmm s') p = false).
Proof.
  induction es as [|[i b] es IH]; intros s lv Ho Hok; cbn [for_each].
  { exists s. split; [done|]. split; [done|]. split; [done|]. split; [by intros v e ?%not_elem_of_nil|done]. }
  apply Forall_cons in Hok as [[Hi Hb] Hok]. cbn [fst snd] in Hi, Hb |- *. subst b. unfold page_at at 1. rewrite add64_small by done.
  destruct (unmap_free s root lv (addr + i * 4096) Ho) as (s1 & s2 & Eu & Ef & Ho2 & Hpte & Hfr & Hmono).
  destruct (IH s2 lv Ho2 Hok) as (s' & E & Ho' & Hold & Hnew & Hmono'). exists s'. split; [|split; [done|split; [|split]]].
  - kstep. rewrite (bind_ok _ _ _ _ _ Eu). destruct (pte_of s root (addr + i * 4096)) as [d|]; cbn [fmap option_fmap option_map].
    + cbn [when negb]. rewrite (bind_ok _ _ _ _ _ Ef). exact E.
    + injection Ef as <-. kstep. exact E.
  - intros v Hv. rewrite Hold by (intros e He; apply Hv; by right). rewrite Hpte, bool_decide_eq_false_2; [done|].
    apply (Hv (i, false)). by left.
  - intros v e He Hv. destruct (decide (vpage v = vpage (addr + i * 4096))) as [Hvi|Hvi].
    + assert (pte_of s2 root v = None) as Hn by (rewrite Hpte; by rewrite bool_decide_eq_true_2).
      split.
      * destruct (decide (Exists (λ e, vpage v = vpage (addr + e.1 * 4096)) es)) as [(e' & He' & Hv')%Exists_exists|Hex].
        -- by apply (Hnew v e').
        -- rewrite Hold; [done|]. intros e' He' Hv'. apply Hex, Exists_exists. eauto.
      * intros d Hd. apply vpage_indices in Hvi as [E1 E2]. unfold pte_of in Hd. rewrite E1, E2 in Hd.
        apply (Hfr d) in Hd as Hd'. apply Hmono'; [|done].
        destruct (own_frame _ _ _ Ho _ _ Hd) as (q & -> & Hq & _). assert (0 ≤ q) by apply Hq. lia.
    + apply elem_of_cons in He as [->|He]; [done|]. destruct (Hnew v e He Hv) as [H1 H2]. split; [done|].
      intros d Hd. apply H2. rewrite Hpte. by rewrite bool_decide_eq_false_2.
  - intros p Hp0 Hp. auto.
Qed.

(** ** Addresses of a page range *)

Lemma vpage_in_range base n v : 0 ≤ base → base mod 4096 = 0 → n mod 4096 = 0 → base ≤ v < base + n →
  (v - base) / 4096 ∈ seqZ 0 (n / 4096) ∧ vpage v = vpage (base + (v - base) / 4096 * 4096).
Proof. intros. split; [apply elem_of_seqZ; lia|]. unfold vpage. f_equal. lia. Qed.

Lemma vpage_out_range base n v i : 0 ≤ base → base mod 4096 = 0 → n mod 4096 = 0 → base + n ≤ 2 ^ 48 → 0 ≤ v < 2 ^ 48 →
  ~ (base ≤ v < base + n) → i ∈ seqZ 0 (n / 4096) → vpage v ≠ vpage (base + i * 4096).
Proof. 
  intros Hb Ha Hn Hbn Hv Hout Hi%elem_of_seqZ. assert (0 ≤ i ∧ i * 4096 + 4096 ≤ n) as [Hi0 Hi1] by lia. clear Hi.
  unfold vpage. rewrite !Z.mod_small; [lia| |].
  - change (2 ^ 36) with (2 ^ 48 / 4096). lia.
  - change (2 ^ 36) with (2 ^ 48 / 4096). lia.
Qed.

Lemma on_mach_ok {A} (m : M Mach A) k a s : m (mach k) = (Ok a, s) → on_mach m k = (Ok a, set_mach s k).
Proof. intros E. unfold on_mach. by rewrite E. Qed.

(** The flag word of an anonymous private mapping. *)
Definition ANON : Z := Z.lor MAP_PRIVATE MAP_ANONYMOUS.

(** An anonymous mapping, given enough free memory (at most four frames per
    page, three of them tables), succeeds at the process's next mapping address:
    every page of the range is backed by a zeroed frame of its own with the
    requested protection, every other user address keeps its translation, and the
    area map gains exactly this area. *)
Theorem mmap_anonymous cpu root file_of k p lv len n prot base :
  PROCESS_TABLE k !! current_pid cpu k = Some p → owned (mach k) root lv → root ≠ 0 → 0 ≤ len → 0 ≤ mmap_next p →
  align_up len = Some n → n ≠ 0 → has prot (not32 VALID_PROT_MASK) = false → align_up (mmap_next p) = Some base →
  base + n ≤ 2 ^ 48 → 4 * (n / 4096) ≤ Pmm.free_pages (mpmm (mach k)) →
  ∃ k' lv', do_mmap cpu root file_of 0 len prot ANON (-1) 0 k = (Ok base, k') ∧ owned (mach k') root lv' ∧
    (∀ v, base ≤ v < base + n → zero_mapped (mach k') root lv' (prot_to_page_attr prot) v) ∧
    (∀ v, 0 ≤ v < 2 ^ 48 → ~ (base ≤ v < base + n) → pte_of (mach k') root v = pte_of (mach k) root v) ∧
    vmm_of p k' = Vmm.map (vmm_of p k) base (base + n) prot ANON 0 (Some "[anon]").
Proof.
  intros Hp Ho Hroot Hlen Hmn Hn Hn0 Hprot Hbase Hlim Hfree.
  destruct (align_up_spec _ _ Hlen Hn) as (Hna & Hnl & _). destruct (align_up_spec _ _ Hmn Hbase) as (Hba & Hbl & _).
  unfold do_mmap. rewrite Hn. kstep. rewrite (proj2 (Z.eqb_neq _ _) Hn0), Hprot.
  change (eqb (has ANON MAP_PRIVATE) (has ANON MAP_SHARED)) with false. change (has ANON MAP_ANONYMOUS) with true.
  change (has ANON 16) with false. cbn [negb andb Z.leb Z.compare]. kstep. rewrite Hp. kstep. rewrite Hbase. kstep.
  rewrite (proj2 (Z.eqb_neq _ _) Hroot).
  set (k1 := put_proc cpu _ k).
  destruct (map_pages_anon root (prot_to_page_attr prot) 0 ((λ i, (i, base)) <$> seqZ 0 (n / 4096)) [] (mach k1) lv Ho) as
    (s' & lv' & E & Ho' & _ & Hold & Hnew).
  { rewrite length_fmap, length_seqZ. cbn [mach k1 put_proc set_table]. lia. }
  { apply Forall_fmap, Forall_forall. intros i Hi%elem_of_seqZ. unfold target. cbn. lia. }
  rewrite (bind_ok _ _ _ _ _ (on_mach_ok _ _ _ _ E)). kstep.
  assert (PROCESS_TABLE (set_mach s' k1) !! current_pid cpu k = Some (set_mmap_next (saturating_add base n) p)) as Hp1
    by (cbn; apply lookup_insert_eq).
  rewrite Hp1. kstep. rewrite add64_small by lia. kstep. eexists _, lv'. split; [done|]. split; [done|]. split; [|split].
  - intros v Hv. destruct (vpage_in_range base n v ltac:(lia) Hba Hna Hv) as [Hi Hvp].
    eapply (Hnew v ((v - base) / 4096, base)); [|exact Hvp]. apply list_elem_of_fmap. eauto.
  - intros v Hv Hout. apply (Hold v). intros e (i & -> & Hi)%list_elem_of_fmap. unfold target. cbn [fst snd].
    apply (vpage_out_range base n); (done || lia).
  - unfold vmm_of at 1. cbn [put_vmm set_vmms VMMS vmm set_mmap_next]. by rewrite lookup_insert_eq.
Qed.

(** C23. Unmapping a page-aligned range that holds no shared-memory segment
    removes exactly the translations of that range, returns every frame that was
    mapped there to the allocator (none is leaked, none freed twice), and keeps
    all other mappings and the ownership of frames intact. *)
Theorem munmap_releases cpu root k p lv addr len n :
  PROCESS_TABLE k !! current_pid cpu k = Some p → owned (mach k) root lv → root ≠ 0 → 0 ≤ addr → 0 < len →
  addr mod 4096 = 0 → align_up len = Some n → addr + n ≤ 2 ^ 48 →
  (∀ v a, addr ≤ v < addr + n → Vmm.find (vmm_of p k) v = Some a → is_shm_area a = false) →
  ∃ k', do_munmap cpu root addr len k = (Ok 0, k') ∧ owned (mach k') root lv ∧
    (∀ v, addr ≤ v < addr + n → pte_of (mach k') root v = None ∧
       ∀ d, pte_of (mach k) root v = Some d → Pmm.page_used (mpmm (mach k')) (pte_addr d / 4096) = false) ∧
    (∀ v, 0 ≤ v < 2 ^ 48 → ~ (addr ≤ v < addr + n) → pte_of (mach k') root v = pte_of (mach k) root v) ∧
    Some (vmm_of p k') = Vmm.unmap (vmm_of p k) addr n.
Proof.
  intros Hp Ho Hroot Ha Hlen Haa Hn Hlim Hshm. destruct (align_up_spec len n ltac:(lia) Hn) as (Hna & Hnl & _).
  unfold do_munmap. rewrite (proj2 (Z.eqb_neq len 0)) by lia. rewrite Haa. cbn [Z.eqb negb orb]. rewrite Hn. kstep.
  rewrite (proj2 (Z.eqb_neq _ _) Hroot). kstep. rewrite Hp.
  rewrite (User.mapM_all_Some _ (λ _, false)).
  2:{ intros i Hi%elem_of_seqZ. unfold page_at. rewrite add64_small by lia. cbn.
      destruct (Vmm.find (vmm_of p k) (addr + i * 4096)) as [a|] eqn:Ef; [|done]. f_equal. eapply Hshm; [|exact Ef]. lia. }
  kstep. unfold unmap_pages. set (es := imap _ _).
  assert (∀ e, e ∈ es ↔ e.1 ∈ seqZ 0 (n / 4096) ∧ e.2 = false) as Hes.
  { intros [j b]. unfold es. rewrite elem_of_lookup_imap. cbn [fst snd]. split.
    - intros (i & b' & [= -> ->] & Hi). apply list_lookup_fmap_Some in Hi as (x & -> & Hx).
      apply lookup_seqZ in Hx as [-> Hx]. split; [|done]. apply elem_of_seqZ. lia.
    - intros [Hj%elem_of_seqZ ->]. exists (Z.to_nat j), false. split; [f_equal; lia|].
      rewrite list_lookup_fmap, lookup_seqZ_lt by lia. done. }
  destruct (unmap_pages_spec root addr es (mach k) lv Ho) as (s' & E & Ho' & Hold & Hnew & _).
  { apply Forall_forall. intros [j b] [Hj%elem_of_seqZ Hb]%Hes. cbn in *. split; [lia|done]. }
  rewrite (bind_ok _ _ _ _ _ (on_mach_ok _ _ _ _ E)). kstep. cbn [PROCESS_TABLE set_mach]. rewrite Hp.
  change (vmm_of p (set_mach s' k)) with (vmm_of p k). unfold Vmm.unmap. rewrite add64_small by lia. cbn [mbind option_bind].
  kstep. eexists. split; [done|]. split; [done|]. split; [|split].
  - intros v Hv. destruct (vpage_in_range addr n v Ha Haa Hna Hv) as [Hi Hvp].
    apply (Hnew v ((v - addr) / 4096, false)); [by apply Hes|done].
  - intros v Hv Hout. apply (Hold v). intros [j b] [Hj _]%Hes. by apply (vpage_out_range addr n).
  - unfold vmm_of at 1. cbn. by rewrite lookup_insert_eq.
Qed.

(** A process with an empty address space and four free frames. *)
Definition demo_proc : Process :=
  mkProcess 0 0 0 0 0 0 0 0 0 0 0 false "p" [] [0] USER_BRK_BASE USER_BRK_BASE USER_MMAP_BASE 0.
Definition demo_k (s : Mach) : K := mkK s Sched.boot {[0 := demo_proc]} ∅ 1 ∅ ∅ ∅ ∅ (mkShm ∅ ∅ 1).

Lemma demo_owned : ∃ s, owned s 4096 {[4096 := 0%nat]} ∧ Pmm.free_pages (mpmm s) = 4.
Proof.
  destruct demo_machine as (s & Ht & Hf & H0). exists s. split; [|done].
  assert (∀ v, pte_of s 4096 v = None) as Hn.
  { intros v. unfold pte_of, leaf. rewrite H0. cbn [path indices]. by rewrite (rd64_ext (λ _, 0) (λ _, 0) _ (λ _ _, eq_refl) : entry (λ _, 0) 4096 (index v 0) = _). }
  constructor; [done| |]; intros *; by rewrite Hn.
Qed.

Lemma mmap_anonymous_witness :
  ∃ k k' lv', do_mmap 0 4096 (λ _, None) 0 100 PROT_READ ANON (-1) 0 k = (Ok USER_MMAP_BASE, k') ∧
    zero_mapped (mach k') 4096 lv' (prot_to_page_attr PROT_READ) USER_MMAP_BASE.
Proof.
  destruct demo_owned as (s & Ho & Hf).
  destruct (mmap_anonymous 0 4096 (λ _, None) (demo_k s) demo_proc {[4096 := 0%nat]} 100 4096 PROT_READ USER_MMAP_BASE)
    as (k' & lv' & E & _ & H & _); [reflexivity|exact Ho|done|lia|vm_compute; congruence|reflexivity|done|reflexivity|
      reflexivity|vm_compute; congruence|cbn [mach demo_k]; rewrite Hf; reflexivity || (vm_compute; congruence)|].
  exists (demo_k s), k', lv'. split; [exact E|]. apply H. vm_compute. split; congruence.
Defined.

Lemma munmap_releases_witness :
  ∃ k k', do_munmap 0 4096 USER_MMAP_BASE 100 k = (Ok 0, k') ∧ pte_of (mach k') 4096 USER_MMAP_BASE = None.
Proof.
  destruct demo_owned as (s & Ho & _).
  destruct (munmap_releases 0 4096 (demo_k s) demo_proc {[4096 := 0%nat]} USER_MMAP_BASE 100 4096) as (k' & E & _ & H & _);
    [reflexivity|exact Ho|done|vm_compute; congruence|lia|reflexivity|reflexivity|vm_compute; congruence| |].
  { intros v a _ Hf. vm_compute in Hf. done. }
  exists (demo_k s), k'. split; [exact E|]. apply H. vm_compute. split; congruence.
Defined.
