(* ===== verification/Frame.v ===== *)
(** * Trap frames ([arch/mod.rs], [arch/aarch64/exceptions.rs], [arch/x86_64/mod.rs])

    The trait [CpuContext] through which the architecture-neutral kernel reads
    and writes the saved user registers, what its users rely on, and its two
    implementations.  Only registers 0 to 30 are ever named. *)

From S2P Require Import Prelude.

Class CpuContext (F : Type) := {
  reg : F → nat → Z;
  set_reg : nat → Z → F → F;
  pc : F → Z;
  set_pc : Z → F → F;
  sp : F → Z;
  set_sp : Z → F → F }.

Definition NREGS : nat := 31.

(** The laws of a register file. *)
Class ContextLaws (F : Type) `{CpuContext F} := {
  ctx_ok : F → Prop;
  ok_set_reg f i v : ctx_ok f → ctx_ok (set_reg i v f);
  ok_set_pc f v : ctx_ok f → ctx_ok (set_pc v f);
  ok_set_sp f v : ctx_ok f → ctx_ok (set_sp v f);
  reg_set_reg f i j v : ctx_ok f → (i < NREGS)%nat → reg (set_reg i v f) j = if decide (i = j) then v else reg f j;
  reg_set_pc f j v : reg (set_pc v f) j = reg f j;
  reg_set_sp f j v : reg (set_sp v f) j = reg f j;
  pc_set_reg f i v : pc (set_reg i v f) = pc f;
  pc_set_pc f v : pc (set_pc v f) = v;
  pc_set_sp f v : pc (set_sp v f) = pc f;
  sp_set_reg f i v : sp (set_reg i v f) = sp f;
  sp_set_pc f v : sp (set_pc v f) = sp f;
  sp_set_sp f v : sp (set_sp v f) = v }.

Create HintDb frame.
Create Rewrite HintDb frame.
#[export] Hint Resolve ok_set_reg ok_set_pc ok_set_sp : frame.
#[export] Hint Rewrite @reg_set_pc @reg_set_sp @pc_set_reg @pc_set_pc @pc_set_sp @sp_set_reg @sp_set_pc @sp_set_sp
  using typeclasses eauto : frame.

(** ** AArch64 *)

Module AArch64.
Record TrapFrame := mkFrame { regs : list Z; f_sp : Z; elr : Z; spsr : Z }.

#[global] Instance TrapFrame_context : CpuContext TrapFrame := {
  reg f i := default 0 (regs f !! i);
  set_reg i v f := mkFrame (<[i := v]> (regs f)) (f_sp f) (elr f) (spsr f);
  pc := elr;
  set_pc v f := mkFrame (regs f) (f_sp f) v (spsr f);
  sp := f_sp;
  set_sp v f := mkFrame (regs f) v (elr f) (spsr f) }.

(** [regs] is an array of 31. *)
#[global] Instance TrapFrame_laws : ContextLaws TrapFrame.
Proof.
  refine {| ctx_ok f := length (regs f) = NREGS |}; try done.
  - intros f i v Hf. cbn. by rewrite length_insert.
  - intros f i j v Hf Hi. cbn. case_decide; subst.
    + by rewrite list_lookup_insert_eq by (by rewrite Hf).
    + by rewrite list_lookup_insert_ne.
Defined.
End AArch64.

(** ** x86_64 *)

Module X86_64.
Record TrapFrame := mkFrame { regs : list Z; rip : Z; rsp : Z }.

#[global] Instance TrapFrame_context : CpuContext TrapFrame := {
  reg f i := default 0 (regs f !! i);
  set_reg i v f := mkFrame (if bool_decide (i < length (regs f))%nat then <[i := v]> (regs f) else regs f) (rip f) (rsp f);
  pc := rip;
  set_pc v f := mkFrame (regs f) v (rsp f);
  sp := rsp;
  set_sp v f := mkFrame (regs f) (rip f) v }.

(** [regs] is an array of 32. *)
#[global] Instance TrapFrame_laws : ContextLaws TrapFrame.
Proof.
  refine {| ctx_ok f := length (regs f) = 32%nat |}; try done.
  - intros f i v Hf. cbn. case_bool_decide; [by rewrite length_insert|done].
  - intros f i j v Hf Hi. unfold NREGS in Hi. cbn. rewrite bool_decide_eq_true_2 by lia. case_decide; subst.
    + by rewrite list_lookup_insert_eq by lia.
    + by rewrite list_lookup_insert_ne.
Defined.
End X86_64.

(** ** Frames up to what a user program can see through the trait *)

Section Equiv.
Context `{ContextLaws F}.

Definition same_context (f g : F) : Prop :=
  (∀ i, (i < NREGS)%nat → reg f i = reg g i) ∧ pc f = pc g ∧ sp f = sp g.

#[export] Instance same_context_equiv : Equivalence same_context.
Proof.
  constructor.
  - by intros f.
  - intros f g (H1 & H2 & H3). split; [|done]. intros i Hi. symmetry. auto.
  - intros f g h (H1 & H2 & H3) (H1' & H2' & H3'). split; [|split; congruence]. intros i Hi. rewrite H1 by done. auto.
Qed.

#[export] Instance set_pc_proper v : Proper (same_context ==> same_context) (set_pc v).
Proof. intros f g (H1 & H2 & H3). split; [|by autorewrite with frame]. intros i Hi. autorewrite with frame. auto. Qed.

#[export] Instance set_sp_proper v : Proper (same_context ==> same_context) (set_sp v).
Proof. intros f g (H1 & H2 & H3). split; [|by autorewrite with frame]. intros i Hi. autorewrite with frame. auto. Qed.

(** Writing a register the value it has. *)
Lemma set_reg_same f i v : ctx_ok f → (i < NREGS)%nat → reg f i = v → same_context (set_reg i v f) f.
Proof.
  intros Hf Hi <-. split; [|by autorewrite with frame]. intros j Hj. rewrite reg_set_reg by done. by case_decide; subst.
Qed.

(** The loop [for (i, v) in regs.iter().enumerate() { set_reg(i, v) }]. *)
Definition write_regs (l : list Z) (f : F) : F := foldl (λ f e, set_reg e.1 e.2 f) f (imap pair l).

Lemma write_regs_from l : ∀ n f, ctx_ok f → (n + length l ≤ NREGS)%nat →
  let g := foldl (λ f e, set_reg e.1 e.2 f) f (imap (λ i x, ((n + i)%nat, x)) l) in
  ctx_ok g ∧ pc g = pc f ∧ sp g = sp f ∧
  ∀ j, reg g j = if decide (n ≤ j)%nat then default (reg f j) (l !! (j - n)%nat) else reg f j.
Proof.
  induction l as [|x l IH]; intros n f Hf Hlen; cbn [imap foldl length fst snd] in *.
  - do 3 (split; [done|]). intros j. by case_decide.
  - rewrite Nat.add_0_r.
    replace (imap ((λ i x0, ((n + i)%nat, x0)) ∘ S) l) with (imap (λ i x, ((S n + i)%nat, x)) l).
    2:{ apply imap_ext. intros i y _. cbn. by rewrite Nat.add_succ_r. }
    destruct (IH (S n) (set_reg n x f)) as (H1 & H2 & H3 & H4); [by apply ok_set_reg|lia|].
    split; [done|]. autorewrite with frame in H2, H3. do 2 (split; [done|]). intros j. rewrite H4, reg_set_reg by (done || lia).
    destruct (decide (S n ≤ j)%nat).
    + rewrite (decide_True (P:=(n ≤ j)%nat)) by lia. replace (j - n)%nat with (S (j - S n)) by lia. cbn.
      by rewrite (decide_False (P:=n = j)) by lia.
    + destruct (decide (n = j)) as [->|]; [|by rewrite decide_False by lia]. rewrite decide_True by lia.
      by rewrite Nat.sub_diag.
Qed.

Lemma write_regs_spec l f : ctx_ok f → (length l ≤ NREGS)%nat →
  ctx_ok (write_regs l f) ∧ pc (write_regs l f) = pc f ∧ sp (write_regs l f) = sp f ∧
  ∀ j, reg (write_regs l f) j = default (reg f j) (l !! j).
Proof.
  intros Hf Hl. destruct (write_regs_from l 0 f Hf Hl) as (H1 & H2 & H3 & H4). do 3 (split; [done|]).
  intros j. etransitivity; [apply H4|]. by rewrite Nat.sub_0_r.
Qed.

(** All registers, as the kernel reads them out. *)
Definition read_regs (f : F) : list Z := reg f <$> seq 0 NREGS.

Lemma length_read_regs f : length (read_regs f) = NREGS.
Proof. unfold read_regs. by rewrite length_fmap, length_seq. Qed.

Lemma read_regs_lookup f i : (i < NREGS)%nat → read_regs f !! i = Some (reg f i).
Proof. intros Hi. unfold read_regs. by rewrite list_lookup_fmap, lookup_seq_lt. Qed.
End Equiv.
