(* ===== verification/Proc.v ===== *)
(** * Processes: exit, wait, credentials and per-thread registrations
      ([sched/mod.rs], [syscall/process.rs])

    [cpu] is the calling CPU and [root] its page-table root.  A blocking wait is
    given the list of what the rest of the system does during each sleep. *)

From S2P Require Import Prelude.
From S2P Require Import Pmm.
From S2P Require Import Paging.
From S2P Require Import User.
From S2P Require Import Sched.
From S2P Require Import Vmm.
From S2P Require Import Kernel.
From S2P Require Import Shm.

(** ** Field updates *)

Definition set_uids (u e s : Z) (p : Process) : Process :=
  mkProcess (p_pid p) (tgid p) (pgid p) (sid p) (ppid p) u (gid p) e (egid p) s (sgid p)
    (no_new_privs p) (p_name p) (environ p) (p_threads p) (brk_base p) (brk_current p) (mmap_next p) (vmm p).
Definition set_gids (g e s : Z) (p : Process) : Process :=
  mkProcess (p_pid p) (tgid p) (pgid p) (sid p) (ppid p) (uid p) g (euid p) e (suid p) s
    (no_new_privs p) (p_name p) (environ p) (p_threads p) (brk_base p) (brk_current p) (mmap_next p) (vmm p).
Definition set_groups (pg sd : Z) (p : Process) : Process :=
  mkProcess (p_pid p) (tgid p) pg sd (ppid p) (uid p) (gid p) (euid p) (egid p) (suid p) (sgid p)
    (no_new_privs p) (p_name p) (environ p) (p_threads p) (brk_base p) (brk_current p) (mmap_next p) (vmm p).
(** ** Exit *)

Definition timer_tick (cpu : nat) : M K (option Switch) := on_sched (tick ;;; schedule cpu).

Definition cleanup_thread_state (tid : Z) (k : K) : K :=
  set_tls (delete tid (CLEAR_CHILD_TID k)) (delete tid (ROBUST_LIST k)) (delete tid (RSEQ_STATE k)) k.

Definition register_clear_child_tid (tid tidptr : Z) (k : K) : K :=
  if tidptr =? 0 then k else set_tls (<[tid := tidptr]> (CLEAR_CHILD_TID k)) (ROBUST_LIST k) (RSEQ_STATE k) k.

(** The process-table part of [note_process_exit]: leave the leader's list and the table. *)
Definition remove_process (pid g : Z) (table : gmap Z Process) : gmap Z Process :=
  delete pid (alter (λ l, set_threads (filter (λ t, t ≠ pid) (p_threads l)) l) g table).

Definition note_process_exit (pid code : Z) (k : K) : K :=
  let k := cleanup_thread_state pid k in
  let k := on_shm (cleanup_process_attachments pid) k in
  let '(parent, g) := match PROCESS_TABLE k !! pid with Some p => (ppid p, tgid p) | None => (0, pid) end in
  let k := set_table (remove_process pid g (PROCESS_TABLE k)) k in
  if negb (parent =? 0) && (g =? pid) then set_exited (<[pid := (parent, code)]> (EXITED_CHILDREN k)) k else k.

Definition group_members (g : Z) (k : K) : list Z :=
  p_pid <$> filter (λ p, tgid p = g) (bvalues (PROCESS_TABLE k)).

Definition note_thread_group_exit (g code : Z) (k : K) : K :=
  foldl (λ k pid, note_process_exit pid code k) k (group_members g k).

Section Proc.
Context (cpu : nat) (root : Z).

(** [sys_exit] up to the switch to another thread. *)
Definition sys_exit (code : Z) : M K (option Switch) :=
  let! pid := gets (current_pid cpu) in
  modify (note_process_exit pid code) ;;;
  let! tidptr := gets (λ k, CLEAR_CHILD_TID k !! pid) in
  modify (λ k, set_tls (delete pid (CLEAR_CHILD_TID k)) (ROBUST_LIST k) (RSEQ_STATE k) k) ;;;
  match tidptr with
  | Some t => when (negb (t =? 0)) (ignore (on_mach (User.copy_to_user root t (to_le 4 0))))
  | None => ret tt
  end ;;;
  modify (λ k, set_tls (CLEAR_CHILD_TID k) (delete pid (ROBUST_LIST k)) (RSEQ_STATE k) k) ;;;
  on_sched (mark_current_dead cpu) ;;;
  on_sched (schedule cpu).

Definition sys_exit_group (code : Z) : M K (option Switch) :=
  let! k := get in
  let pid := current_pid cpu k in
  let g := match PROCESS_TABLE k !! pid with Some p => tgid p | None => pid end in
  let members := group_members g k in
  modify (λ k, set_tls (foldl (λ m t, delete t m) (CLEAR_CHILD_TID k) members)
                 (foldl (λ m t, delete t m) (ROBUST_LIST k) members) (RSEQ_STATE k) k) ;;;
  modify (note_thread_group_exit g code) ;;;
  modify (λ k, set_sched (mark_threads_dead members (sched k)) k) ;;;
  on_sched (schedule cpu).

(** ** Wait *)

Definition WNOHANG : Z := 1.
Definition WNOWAIT : Z := 0x01000000.

(** An exited child of [parent] that the call may report. *)
Definition find_exited (parent pid : Z) (ch : gmap Z (Z * Z)) : option Z :=
  if 0 <? pid then
    match ch !! pid with Some (pp, _) => if pp =? parent then Some pid else None | None => None end
  else fst <$> head (filter (λ e : Z * (Z * Z), e.2.1 = parent) (bentries ch)).

Definition has_live_child (parent pid : Z) (table : gmap Z Process) : bool :=
  existsb (λ p, (ppid p =? parent) && (p_pid p =? tgid p) && (if 0 <? pid then p_pid p =? pid else true)) (bvalues table).

(** One pass of the wait loop. *)
Inductive Wait := WDone (pid status : Z) | WError (e : Z) | WSleep.

Definition wait_pass (parent pid options : Z) : M K Wait :=
  let! ch := gets EXITED_CHILDREN in
  match find_exited parent pid ch with
  | Some target =>
      let status := match ch !! target with Some (_, st) => st | None => 0 end in
      when (negb (has options WNOWAIT)) (modify (set_exited (delete target ch))) ;;;
      ret (WDone target status)
  | None =>
      let! live := gets (λ k, has_live_child parent pid (PROCESS_TABLE k)) in
      if live then ret (if has options WNOHANG then WDone 0 0 else WSleep)
      else
        let! ch := gets EXITED_CHILDREN in
        match find_exited parent pid ch with
        | Some _ => ret WSleep
        | None => ret (WError ECHILD)
        end
  end.

(** The wait loop: [env] is what the rest of the system does in each sleep
    ([sleep_ticks(1)], or the immediate retry after the second look at the exited
    children); [None] when the caller is still asleep at its end. *)
Fixpoint wait_loop (env : list (K → K)) (parent pid options : Z) : M K (option (Z * Z)) :=
  let! w := wait_pass parent pid options in
  match w with
  | WDone p st => ret (Some (p, st))
  | WError e => fail e
  | WSleep =>
      match env with
      | [] => ret None
      | f :: env' => modify f ;;; wait_loop env' parent pid options
      end
  end.

Definition do_wait4_with_status (env : list (K → K)) (pid options : Z) : M K (option (Z * Z)) :=
  let! parent := gets (current_pid cpu) in
  wait_loop env parent pid options.

(** The status word is [(status as u32) << 8]. *)
Definition do_wait4 (env : list (K → K)) (pid wstatus options : Z) : M K (option Z) :=
  let! o := do_wait4_with_status env pid options in
  match o with
  | None => ret None
  | Some (reaped, status) =>
      when (negb (reaped =? 0) && negb (wstatus =? 0))
        (ignore (on_mach (User.copy_to_user root wstatus (to_le 4 (Z.shiftl (status mod 2 ^ 32) 8 mod 2 ^ 32))))) ;;;
      ret (Some reaped)
  end.

(** ** Identity *)

Definition cur_proc (k : K) : option Process := PROCESS_TABLE k !! current_pid cpu k.
Definition put_cur (p : Process) (k : K) : K := set_table (<[current_pid cpu k := p]> (PROCESS_TABLE k)) k.

Definition sys_getpid : M K Z := gets (current_pid cpu).
Definition sys_gettid : M K Z := gets (current_pid cpu).
Definition current_creds (k : K) : Z * Z * Z * Z :=
  match cur_proc k with Some p => (uid p, gid p, euid p, egid p) | None => (0, 0, 0, 0) end.
Definition sys_getppid : M K Z := gets (λ k, match cur_proc k with Some p => ppid p | None => 0 end).
Definition sys_getpgrp : M K Z := gets (λ k, match cur_proc k with Some p => pgid p | None => current_pid cpu k end).

(** The process a [pid] argument names: 0 is the caller. *)
Definition pid_target (pid : Z) (k : K) : option Z :=
  if pid =? 0 then Some (current_pid cpu k) else if 0 <? pid then Some pid else None.

Definition sys_getpgid (pid : Z) : M K Z :=
  let! k := get in
  let! target := ok_or (pid_target pid k) EINVAL in
  let! p := ok_or (PROCESS_TABLE k !! target) ESRCH in
  ret (pgid p).

Definition sys_getsid (pid : Z) : M K Z :=
  let! k := get in
  let! target := ok_or (pid_target pid k) EINVAL in
  let! p := ok_or (PROCESS_TABLE k !! target) ESRCH in
  ret (sid p).

Definition sys_setsid : M K Z :=
  let! k := get in
  let pid := current_pid cpu k in
  let! p := ok_or (cur_proc k) ESRCH in
  if pgid p =? pid then fail EPERM else
  put (put_cur (set_groups pid pid p) k) ;;; ret pid.

Definition sys_setpgid (pid pg : Z) : M K Z :=
  if pg <? 0 then fail EINVAL else
  let! k := get in
  let! target := ok_or (pid_target pid k) EINVAL in
  let! caller := ok_or (cur_proc k) ESRCH in
  let new_pgid := if pg =? 0 then target else pg in
  let! t := ok_or (PROCESS_TABLE k !! target) ESRCH in
  if negb (sid t =? sid caller) then fail EPERM else
  if negb (new_pgid =? target) &&
     negb (existsb (λ p, (pgid p =? new_pgid) && (sid p =? sid caller)) (bvalues (PROCESS_TABLE k))) then fail EPERM else
  put (set_table (<[target := set_groups new_pgid (sid t) t]> (PROCESS_TABLE k)) k) ;;; ret 0.

(** ** Credentials *)

Definition sys_setuid (u : Z) : M K Z :=
  let! k := get in
  let! p := ok_or (cur_proc k) ESRCH in
  if negb (euid p =? 0) && negb (u =? uid p) && negb (u =? euid p) then fail EPERM else
  put (put_cur (set_uids u u u p) k) ;;; ret 0.

Definition sys_setgid (g : Z) : M K Z :=
  let! k := get in
  let! p := ok_or (cur_proc k) ESRCH in
  if negb (egid p =? 0) && negb (g =? gid p) && negb (g =? egid p) then fail EPERM else
  put (put_cur (set_gids g g g p) k) ;;; ret 0.

(** One requested id of [setresuid]/[setresgid]: negative keeps [old]; otherwise
    root may choose anything and others only among the three current ids. *)
Definition pick_id (is_root : bool) (a b c old req : Z) : option Z :=
  if req <? 0 then Some old
  else if negb is_root && negb (req =? a) && negb (req =? b) && negb (req =? c) then None
  else Some req.

Definition sys_setresuid (ruid_ euid_ suid_ : Z) : M K Z :=
  let! k := get in
  let! p := ok_or (cur_proc k) ESRCH in
  let pick := pick_id (euid p =? 0) (uid p) (euid p) (suid p) in
  let! nr := ok_or (pick (uid p) ruid_) EPERM in
  let! ne := ok_or (pick (euid p) euid_) EPERM in
  let! ns := ok_or (pick (suid p) suid_) EPERM in
  put (put_cur (set_uids nr ne ns p) k) ;;; ret 0.

Definition sys_setresgid (rgid_ egid_ sgid_ : Z) : M K Z :=
  let! k := get in
  let! p := ok_or (cur_proc k) ESRCH in
  let pick := pick_id (euid p =? 0) (gid p) (egid p) (sgid p) in
  let! nr := ok_or (pick (gid p) rgid_) EPERM in
  let! ne := ok_or (pick (egid p) egid_) EPERM in
  let! ns := ok_or (pick (sgid p) sgid_) EPERM in
  put (put_cur (set_gids nr ne ns p) k) ;;; ret 0.

(** Writing three ids to user memory, skipping null pointers. *)
Definition write_id (ptr v : Z) : M K () :=
  when (negb (ptr =? 0)) (map_err (on_mach (User.copy_to_user root ptr (to_le 4 v))) EFAULT).

Definition sys_getresuid (r e s : Z) : M K Z :=
  let! k := get in
  let! p := ok_or (cur_proc k) ESRCH in
  write_id r (uid p) ;;; write_id e (euid p) ;;; write_id s (suid p) ;;; ret 0.

Definition sys_getresgid (r e s : Z) : M K Z :=
  let! k := get in
  let! p := ok_or (cur_proc k) ESRCH in
  write_id r (gid p) ;;; write_id e (egid p) ;;; write_id s (sgid p) ;;; ret 0.

(** ** Thread state *)

Definition sys_set_tid_address (tidptr : Z) : M K Z :=
  let! tid := gets (current_pid cpu) in
  modify (λ k, set_tls (<[tid := tidptr]> (CLEAR_CHILD_TID k)) (ROBUST_LIST k) (RSEQ_STATE k) k) ;;;
  ret tid.

Definition RSEQ_SIG : Z := 0x53053053.

Definition sys_rseq (rseq rseq_len flags sig : Z) : M K Z :=
  if has flags (not64 1) then fail EINVAL else
  if negb (rseq_len =? 0) && (rseq_len <? 32) then fail EINVAL else
  let! tid := gets (current_pid cpu) in
  let! m := gets RSEQ_STATE in
  if flags =? 1 then
    match m !! tid with
    | Some (old_addr, _, _) =>
        if negb (rseq =? 0) && negb (rseq =? old_addr) then fail EINVAL else
        modify (λ k, set_tls (CLEAR_CHILD_TID k) (ROBUST_LIST k) (delete tid m) k) ;;; ret 0
    | None => fail EINVAL
    end
  else if rseq =? 0 then fail EINVAL
  else if negb (sig =? 0) && negb (sig =? RSEQ_SIG) then fail EINVAL
  else modify (λ k, set_tls (CLEAR_CHILD_TID k) (ROBUST_LIST k) (<[tid := (rseq, rseq_len, sig)]> m) k) ;;; ret 0.

Definition sys_set_robust_list (head_ len_ : Z) : M K Z :=
  if (head_ =? 0) || (len_ =? 0) then fail EINVAL else
  let! tid := gets (current_pid cpu) in
  modify (λ k, set_tls (CLEAR_CHILD_TID k) (<[tid := (head_, len_)]> (ROBUST_LIST k)) (RSEQ_STATE k) k) ;;;
  ret 0.

(** [pid as u64] of a negative [i32] wraps. *)
Definition sys_get_robust_list (pid head_ptr len_ptr : Z) : M K Z :=
  if (head_ptr =? 0) || (len_ptr =? 0) then fail EFAULT else
  let! k := get in
  let caller := current_pid cpu k in
  let target := if pid =? 0 then caller else pid mod 2 ^ 64 in
  if negb (bool_decide (is_Some (PROCESS_TABLE k !! target))) then fail ESRCH else
  if negb (target =? caller) then fail EPERM else
  let '(h, l) := default (0, 0) (ROBUST_LIST k !! target) in
  map_err (on_mach (User.copy_to_user root head_ptr (to_le 8 h))) EFAULT ;;;
  map_err (on_mach (User.copy_to_user root len_ptr (to_le 8 l))) EFAULT ;;;
  ret 0.
End Proc.

(** ** Facts about exit *)

(** Everything of the state but the scheduler and the tables of exits. *)
Lemma note_process_exit_same pid code k :
  mach (note_process_exit pid code k) = mach k ∧ sched (note_process_exit pid code k) = sched k.
Proof.
  unfold note_process_exit. cbv zeta. set (k1 := on_shm _ _).
  assert (mach k1 = mach k ∧ sched k1 = sched k) as [E1 E2] by done. clearbody k1.
  destruct (PROCESS_TABLE k1 !! pid); case_match; simplify_eq; destruct (negb _ && _); done.
Qed.

Lemma note_process_exit_tls pid code k :
  CLEAR_CHILD_TID (note_process_exit pid code k) = delete pid (CLEAR_CHILD_TID k) ∧
  ROBUST_LIST (note_process_exit pid code k) = delete pid (ROBUST_LIST k) ∧
  RSEQ_STATE (note_process_exit pid code k) = delete pid (RSEQ_STATE k).
Proof.
  unfold note_process_exit. cbv zeta. set (k1 := on_shm _ _).
  assert (CLEAR_CHILD_TID k1 = delete pid (CLEAR_CHILD_TID k) ∧ ROBUST_LIST k1 = delete pid (ROBUST_LIST k) ∧
          RSEQ_STATE k1 = delete pid (RSEQ_STATE k)) as E by done. clearbody k1.
  destruct (PROCESS_TABLE k1 !! pid); case_match; simplify_eq; destruct (negb _ && _); done.
Qed.

(** A leader with a parent leaves the table and its status behind. *)
Lemma note_process_exit_leader pid code k p :
  PROCESS_TABLE k !! pid = Some p → tgid p = pid → ppid p ≠ 0 →
  PROCESS_TABLE (note_process_exit pid code k) = delete pid (PROCESS_TABLE k) ∧
  EXITED_CHILDREN (note_process_exit pid code k) = <[pid := (ppid p, code)]> (EXITED_CHILDREN k).
Proof.
  intros Hp Hg Hpp. unfold note_process_exit. cbv zeta. set (k1 := on_shm _ _).
  assert (PROCESS_TABLE k1 = PROCESS_TABLE k ∧ EXITED_CHILDREN k1 = EXITED_CHILDREN k) as [E1 E2] by done.
  clearbody k1. rewrite E1, Hp, Hg, (proj2 (Z.eqb_neq _ _) Hpp), Z.eqb_refl. cbn. rewrite ?E1, ?E2. split; [|done].
  apply map_eq. intros i. unfold remove_process. destruct (decide (i = pid)) as [->|].
  - by rewrite !lookup_delete_eq.
  - rewrite !lookup_delete_ne by done. by rewrite lookup_alter_ne.
Qed.

Lemma current_pid_other cpu c p s : c ≠ cpu → get_current_pid c (set_current_pid cpu p s) = get_current_pid c s.
Proof.
  intros Hc. unfold get_current_pid, set_current_pid. destruct (c <? MAX_CPUS)%nat, (cpu <? MAX_CPUS)%nat; cbn; try done.
  by rewrite list_lookup_insert_ne.
Qed.

(** The scheduler half of an exit never fails, and leaves the other CPUs alone. *)
Lemma leave_cpu cpu s curr : Sched.wf (SCHEDULER s) → current (SCHEDULER s) !! cpu = Some (Some curr) →
  ∃ sw s', (mark_current_dead cpu ;;; schedule cpu) s = (Ok sw, s') ∧
    ∀ c, c ≠ cpu → get_current_pid c s' = get_current_pid c s.
Proof.
  intros Hwf Hc. pose proof (lookup_lt_Some _ _ _ Hc) as Hlt. unfold mark_current_dead. kstep.
  rewrite (proj2 (Nat.ltb_lt _ _)) by (destruct Hwf; lia). rewrite Hc. kstep.
  change (Sched.set_state Dead <$> Some curr) with (Some (Sched.set_state Dead curr)).
  set (s0 := set_currents _ s).
  assert (Sched.wf (SCHEDULER s0)) as Hwf0 by (destruct Hwf; constructor; cbn; by rewrite ?length_insert).
  assert (current (SCHEDULER s0) !! cpu = Some (Some (Sched.set_state Dead curr))) as Hc0
    by (cbn; by apply list_lookup_insert_eq).
  destruct (schedule_spec cpu s0 _ Hwf0 Hc0) as [[_ E]|(n & qs & q & _ & _ & E)]; rewrite E;
    eexists _, _; (split; [done|]); intros c Hne; [done|]. by rewrite current_pid_other.
Qed.

Lemma on_sched_bind {A B} (m : M Sched.Sys A) (f : A → M Sched.Sys B) k :
  bind (on_sched m) (λ a, on_sched (f a)) k = on_sched (bind m f) k.
Proof. unfold on_sched, bind. by destruct (m (sched k)) as [[] s]. Qed.

(** [sys_exit] is the bookkeeping of [note_process_exit] and the switch: by the
    time it looks for a clear-tid address there is none. *)
Lemma sys_exit_spec cpu root code k curr : Sched.wf (SCHEDULER (sched k)) →
  current (SCHEDULER (sched k)) !! cpu = Some (Some curr) →
  ∃ sw s', sys_exit cpu root code k = (Ok sw, set_sched s' (note_process_exit (current_pid cpu k) code k)) ∧
    ∀ c, c ≠ cpu → get_current_pid c s' = get_current_pid c (sched k).
Proof.
  intros Hwf Hc. unfold sys_exit. kstep. set (pid := current_pid cpu k). set (k1 := note_process_exit pid code k).
  destruct (note_process_exit_same pid code k) as [Em Es]. destruct (note_process_exit_tls pid code k) as (Ec & Er & _).
  fold k1 in Em, Es, Ec, Er.
  rewrite Ec, lookup_delete_eq. kstep. cbn [CLEAR_CHILD_TID ROBUST_LIST RSEQ_STATE set_tls].
  rewrite Er, !delete_delete_eq. rewrite on_sched_bind.
  destruct (leave_cpu cpu (sched k) curr Hwf Hc) as (sw & s' & E & Ho). exists sw, s'. split; [|done].
  unfold on_sched. cbn [sched set_tls]. rewrite Es, E. f_equal. rewrite <- Ec, <- Er. by destruct k1.
Qed.

(** ** Exit and wait *)

(** Every process is filed under its pid. *)
Definition keyed (table : gmap Z Process) : Prop := ∀ i p, table !! i = Some p → p_pid p = i.

Lemma has_live_child_spec parent pid table : keyed table → 0 < pid →
  has_live_child parent pid table = true ↔ ∃ p, table !! pid = Some p ∧ ppid p = parent ∧ tgid p = pid.
Proof.
  intros Hk H0. unfold has_live_child. rewrite existsb_exists. rewrite (proj2 (Z.ltb_lt _ _) H0). split.
  - intros (p & [i Hi]%list_elem_of_In%elem_of_bvalues & H). apply andb_true_iff in H as [[H1 H2]%andb_true_iff H3].
    apply Z.eqb_eq in H1, H2, H3. pose proof (Hk _ _ Hi) as E. assert (i = pid) as -> by congruence.
    exists p. repeat split; congruence.
  - intros (p & Hp & H1 & H2). exists p. split; [apply list_elem_of_In, elem_of_bvalues; eauto|].
    rewrite (Hk _ _ Hp), H1, H2, !Z.eqb_refl. done.
Qed.

Lemma find_exited_pid parent pid ch : 0 < pid →
  find_exited parent pid ch =
    match ch !! pid with Some (pp, _) => if pp =? parent then Some pid else None | None => None end.
Proof. intros H. unfold find_exited. by rewrite (proj2 (Z.ltb_lt _ _) H). Qed.

(** One look at a named child that has exited, is running, or does not exist. *)
Lemma wait_pass_exited parent pid options k st : 0 < pid → EXITED_CHILDREN k !! pid = Some (parent, st) →
  has options WNOWAIT = false →
  wait_pass parent pid options k = (Ok (WDone pid st), set_exited (delete pid (EXITED_CHILDREN k)) k).
Proof.
  intros H0 He Hw. unfold wait_pass. kstep. rewrite find_exited_pid, He, Z.eqb_refl by done. rewrite Hw. kstep. by rewrite He.
Qed.

Lemma wait_pass_live parent pid options k p : 0 < pid → keyed (PROCESS_TABLE k) → EXITED_CHILDREN k !! pid = None →
  PROCESS_TABLE k !! pid = Some p → ppid p = parent → tgid p = pid →
  wait_pass parent pid options k = (Ok (if has options WNOHANG then WDone 0 0 else WSleep), k).
Proof.
  intros H0 Hk He Hp Hpp Hg. unfold wait_pass. kstep. rewrite find_exited_pid, He by done. kstep.
  rewrite (proj2 (has_live_child_spec parent pid _ Hk H0)) by eauto. done.
Qed.

Lemma wait_pass_gone parent pid options k : 0 < pid → keyed (PROCESS_TABLE k) → EXITED_CHILDREN k !! pid = None →
  PROCESS_TABLE k !! pid = None → wait_pass parent pid options k = (Ok (WError ECHILD), k).
Proof.
  intros H0 Hk He Hp. unfold wait_pass. kstep. rewrite find_exited_pid, He by done. kstep.
  destruct (has_live_child parent pid (PROCESS_TABLE k)) eqn:E.
  - apply has_live_child_spec in E as (p & ? & _); [congruence|done|done].
  - kstep. by rewrite find_exited_pid, He.
Qed.

Lemma keyed_delete pid table : keyed table → keyed (delete pid table).
Proof. intros Hk i p [_ H]%lookup_delete_Some. eauto. Qed.

(** Exit and wait meet: while the child runs, a non-blocking wait by its
    parent reports nothing; a blocking wait sleeps, and when the child exits
    it returns the child's pid and exit code, with the child gone
    from the process table and its status reaped, so that a second wait fails
    with [ECHILD]. *)
Theorem exit_wait4_roundtrip cpu pcpu root code k curr c p : Sched.wf (SCHEDULER (sched k)) →
  current (SCHEDULER (sched k)) !! cpu = Some (Some curr) → keyed (PROCESS_TABLE k) →
  current_pid cpu k = c → 0 < c → PROCESS_TABLE k !! c = Some p → tgid p = c →
  ppid p = current_pid pcpu k → ppid p ≠ 0 → EXITED_CHILDREN k !! c = None →
  let exit := λ k, (sys_exit cpu root code k).2 in
  do_wait4_with_status pcpu [] c WNOHANG k = (Ok (Some (0, 0)), k) ∧
  do_wait4_with_status pcpu [] c 0 k = (Ok None, k) ∧
  ∃ k2, do_wait4_with_status pcpu [exit] c 0 k = (Ok (Some (c, code)), k2) ∧
    EXITED_CHILDREN k2 = EXITED_CHILDREN k ∧ PROCESS_TABLE k2 = delete c (PROCESS_TABLE k) ∧
    do_wait4_with_status pcpu [] c 0 k2 = (Err ECHILD, k2).
Proof.
  intros Hwf Hc Hk Hcur H0 Hp Hg Hpp Hp0 He exit.
  unfold do_wait4_with_status. kstep. rewrite <- Hpp.
  split; [|split]; cbn [wait_loop].
  1,2: erewrite bind_ok by (by eapply wait_pass_live); done.
  erewrite bind_ok by (by eapply wait_pass_live). change (has 0 WNOHANG) with false. cbv iota. kstep.
  destruct (sys_exit_spec cpu root code k curr Hwf Hc) as (sw & s' & E & Ho). change (exit k) with (sys_exit cpu root code k).2. rewrite E, Hcur.
  destruct (note_process_exit_leader c code k p Hp Hg Hp0) as [Et Ee].
  set (k1 := note_process_exit c code k) in *. cbn [snd].
  erewrite bind_ok by (apply wait_pass_exited; [done|cbn; rewrite Ee; by apply lookup_insert_eq|done]).
  eexists. split; [reflexivity|]. cbn [EXITED_CHILDREN PROCESS_TABLE set_exited set_sched]. rewrite Ee, Et.
  split; [by rewrite delete_insert_id|]. split; [done|].
  kstep. erewrite bind_ok by
    (apply wait_pass_gone; cbn; rewrite ?Ee, ?Et; [done|by apply keyed_delete|by apply lookup_delete_eq..]). done.
Qed.

(** ** Credentials *)

(** The calls that change a process's credentials. *)
Inductive CredCall :=
| SetUid (u : Z) | SetResUid (r e s : Z) | SetGid (g : Z) | SetResGid (r e s : Z) | SetSid | SetPgid (pid pg : Z).

Definition cred_call (cpu : nat) (c : CredCall) : M K Z :=
  match c with
  | SetUid u => sys_setuid cpu u
  | SetResUid r e s => sys_setresuid cpu r e s
  | SetGid g => sys_setgid cpu g
  | SetResGid r e s => sys_setresgid cpu r e s
  | SetSid => sys_setsid cpu
  | SetPgid pid pg => sys_setpgid cpu pid pg
  end.

Definition run_creds (cpu : nat) (l : list CredCall) (k : K) : K := foldl (λ k c, (cred_call cpu c k).2) k l.

Definition uids (p : Process) : list Z := [uid p; euid p; suid p].
Definition gids (p : Process) : list Z := [gid p; egid p; sgid p].

(** [q] has only ids [p] had, and no root ids. *)
Record unprivileged (p q : Process) : Prop := {
  unp_uids : uids q ⊆ uids p; unp_root : 0 ∉ uids q;
  unp_gids : gids q ⊆ gids p; unp_group : 0 ∉ gids q }.

Lemma pick_id_subset a b c old req x : pick_id false a b c old req = Some x → x = old ∨ x ∈ [a; b; c].
Proof.
  unfold pick_id. destruct (req <? 0); [intros [= <-]; by left|]. cbn [negb andb].
  destruct (Z.eqb_spec req a), (Z.eqb_spec req b), (Z.eqb_spec req c); cbn; intros [= <-]; right; set_solver.
Qed.

Lemma cur_proc_put cpu p k : cur_proc cpu (put_cur cpu p k) = Some p.
Proof. unfold cur_proc, put_cur. apply lookup_insert_eq. Qed.

Section CredStep.
Context (cpu : nat) (k : K) (p p0 : Process) (Hp : cur_proc cpu k = Some p) (Hun : unprivileged p0 p).

(** The caller is still there and still unprivileged. *)
Definition safe_end {A} (r : outcome A * K) : Prop := ∃ q, cur_proc cpu r.2 = Some q ∧ unprivileged p0 q.

Lemma safe_same {A} (o : outcome A) : safe_end (o, k).
Proof using All. by exists p. Qed.

Lemma safe_put {A} (o : outcome A) q : unprivileged p0 q → safe_end (o, put_cur cpu q k).
Proof using All. intros Hq. exists q. split; [apply cur_proc_put|done]. Qed.

Lemma euid_nonroot : (euid p =? 0) = false.
Proof using All. apply Z.eqb_neq. intros E. apply (unp_root _ _ Hun). unfold uids. rewrite E. set_solver. Qed.

Lemma egid_nonroot : (egid p =? 0) = false.
Proof using All. apply Z.eqb_neq. intros E. apply (unp_group _ _ Hun). unfold gids. rewrite E. set_solver. Qed.

Lemma safe_uids {A} (o : outcome A) r e s : r ∈ uids p → e ∈ uids p → s ∈ uids p →
  safe_end (o, put_cur cpu (set_uids r e s p) k).
Proof using All.
  intros ???. apply safe_put. destruct Hun as [U1 U2 U3 U4]. constructor; [| |done|done]; unfold uids in *; cbn in *; set_solver.
Qed.

Lemma safe_gids {A} (o : outcome A) r e s : r ∈ gids p → e ∈ gids p → s ∈ gids p →
  safe_end (o, put_cur cpu (set_gids r e s p) k).
Proof using All.
  intros ???. apply safe_put. destruct Hun as [U1 U2 U3 U4]. constructor; [done|done| |]; unfold gids in *; cbn in *; set_solver.
Qed.

Lemma setuid_safe u : safe_end (sys_setuid cpu u k).
Proof using All.
  unfold sys_setuid. kstep. rewrite Hp. kstep. rewrite euid_nonroot. cbn [negb andb].
  destruct (Z.eqb_spec u (uid p)) as [->|]; [|destruct (Z.eqb_spec u (euid p)) as [->|]]; cbn [negb andb]; kstep;
    [apply safe_uids; unfold uids; set_solver..|apply safe_same].
Qed.

Lemma setgid_safe g : safe_end (sys_setgid cpu g k).
Proof using All.
  unfold sys_setgid. kstep. rewrite Hp. kstep. rewrite egid_nonroot. cbn [negb andb].
  destruct (Z.eqb_spec g (gid p)) as [->|]; [|destruct (Z.eqb_spec g (egid p)) as [->|]]; cbn [negb andb]; kstep;
    [apply safe_gids; unfold gids; set_solver..|apply safe_same].
Qed.

Lemma setresuid_safe r e s : safe_end (sys_setresuid cpu r e s k).
Proof using All.
  unfold sys_setresuid. kstep. rewrite Hp. kstep. rewrite euid_nonroot.
  destruct (pick_id _ _ _ _ _ r) as [nr|] eqn:Er; kstep; [|apply safe_same].
  destruct (pick_id _ _ _ _ _ e) as [ne|] eqn:Ee; kstep; [|apply safe_same].
  destruct (pick_id _ _ _ _ _ s) as [ns|] eqn:Es; kstep; [|apply safe_same].
  apply pick_id_subset in Er, Ee, Es. apply safe_uids; unfold uids; set_solver.
Qed.

Lemma setresgid_safe r e s : safe_end (sys_setresgid cpu r e s k).
Proof using All.
  unfold sys_setresgid. kstep. rewrite Hp. kstep. rewrite euid_nonroot.
  destruct (pick_id _ _ _ _ _ r) as [nr|] eqn:Er; kstep; [|apply safe_same].
  destruct (pick_id _ _ _ _ _ e) as [ne|] eqn:Ee; kstep; [|apply safe_same].
  destruct (pick_id _ _ _ _ _ s) as [ns|] eqn:Es; kstep; [|apply safe_same].
  apply pick_id_subset in Er, Ee, Es. apply safe_gids; unfold gids; set_solver.
Qed.

Lemma set_groups_unprivileged a b : unprivileged p0 (set_groups a b p).
Proof using All. by destruct Hun; constructor. Qed.

Lemma setsid_safe : safe_end (sys_setsid cpu k).
Proof using All.
  unfold sys_setsid. kstep. rewrite Hp. kstep. destruct (_ =? _); kstep; [apply safe_same|].
  apply safe_put, set_groups_unprivileged.
Qed.

Lemma setpgid_safe pid pg : safe_end (sys_setpgid cpu pid pg k).
Proof using All.
  unfold sys_setpgid. destruct (pg <? 0); [apply safe_same|]. kstep.
  destruct (pid_target cpu pid k) as [t|]; kstep; [|apply safe_same]. rewrite Hp. kstep.
  destruct (PROCESS_TABLE k !! t) as [q|] eqn:Et; kstep; [|apply safe_same].
  set (np := if pg =? 0 then t else pg). clearbody np.
  repeat case_match; [apply safe_same..|]. kstep.
  destruct (decide (t = current_pid cpu k)) as [->|].
  - apply (safe_put (Ok 0)). unfold cur_proc in Hp. assert (q = p) as -> by congruence. apply set_groups_unprivileged.
  - exists p. split; [|done]. unfold cur_proc in *. cbn. by rewrite lookup_insert_ne.
Qed.

Lemma cred_call_safe c : safe_end (cred_call cpu c k).
Proof using All.
  destruct c; cbn [cred_call];
    auto using setuid_safe, setresuid_safe, setgid_safe, setresgid_safe, setsid_safe, setpgid_safe.
Qed.
End CredStep.

(** C25. No sequence of credential calls gives privilege back: a process with
    no root user or group id keeps to the user and group ids it started with,
    so none of its ids ever becomes 0. *)
Theorem no_privilege_gain cpu k p calls : cur_proc cpu k = Some p → 0 ∉ uids p → 0 ∉ gids p →
  ∃ q, cur_proc cpu (run_creds cpu calls k) = Some q ∧ (uids q ⊆ uids p) ∧ (0 ∉ uids q) ∧ (gids q ⊆ gids p) ∧ (0 ∉ gids q).
Proof.
  intros Hp Hu Hg. assert (unprivileged p p) as H by by constructor.
  enough (∀ l k q, cur_proc cpu k = Some q → unprivileged p q →
    ∃ q', cur_proc cpu (run_creds cpu l k) = Some q' ∧ unprivileged p q') as HE.
  { destruct (HE calls k p Hp H) as (q & Eq & []). eauto 10. }
  clear k Hp H. induction l as [|c l IH]; intros k q Hq Hun; [by exists q|].
  destruct (cred_call_safe cpu k q p Hq Hun c) as (q1 & H1 & U1). by apply (IH _ q1).
Qed.

(** The address registered with [set_tid_address] or [CLONE_CHILD_CLEARTID]
    is never cleared by [sys_exit]: [note_process_exit] drops the registration
    before [sys_exit] reads it, so the exit writes nothing to memory. *)
Theorem exit_skips_clear_tid cpu root code k curr tidptr : Sched.wf (SCHEDULER (sched k)) →
  current (SCHEDULER (sched k)) !! cpu = Some (Some curr) →
  CLEAR_CHILD_TID k !! current_pid cpu k = Some tidptr → tidptr ≠ 0 →
  ∃ sw k', sys_exit cpu root code k = (Ok sw, k') ∧ mach k' = mach k ∧
    CLEAR_CHILD_TID k' !! current_pid cpu k = None.
Proof.
  intros Hwf Hc Ht Hn. destruct (sys_exit_spec cpu root code k curr Hwf Hc) as (sw & s' & E & _).
  eexists _, _. split; [exact E|]. destruct (note_process_exit_same (current_pid cpu k) code k) as [Em _].
  destruct (note_process_exit_tls (current_pid cpu k) code k) as (Et & _).
  split; [exact Em|]. cbn. rewrite Et. apply lookup_delete_eq.
Qed.

(** ** Demonstration: process 7 on CPU 0, its parent 3 on CPU 1 *)

Definition demo_proc (pid parent : Z) : Process :=
  mkProcess pid pid 3 3 parent 1000 100 1000 100 1000 100 false "demo" [] [pid] 0 0 0 0.

Definition demo_k : K :=
  mkK (mkMach (Pmm.mkPmm [] 0 0) (λ _, 0))
    (mkSys (mkScheduler [[]; []] [Some (demo_thread 7 Running 4); Some (demo_thread 3 Running 4)] 2 true)
       [7; 3; 0; 0; 0; 0; 0; 0] 10 100 100 ∅ [])
    {[7 := demo_proc 7 3; 3 := demo_proc 3 1]} {[0 := ∅]} 1 ∅ {[7 := 0x5000]} ∅ ∅ (mkShm ∅ ∅ 1).

Lemma demo_k_wf : Sched.wf (SCHEDULER (sched demo_k)).
Proof. by constructor. Qed.

Lemma demo_k_keyed : keyed (PROCESS_TABLE demo_k).
Proof.
  intros i p. cbn [PROCESS_TABLE demo_k]. intros [[<- <-]|[_ H]]%lookup_insert_Some; [done|].
  by apply lookup_singleton_Some in H as [<- <-].
Qed.

Lemma exit_wait4_roundtrip_witness :
  ∃ k2, do_wait4_with_status 1 [λ k, (sys_exit 0 0 42 k).2] 7 0 demo_k = (Ok (Some (7, 42)), k2) ∧
    do_wait4_with_status 1 [] 7 0 k2 = (Err ECHILD, k2).
Proof.
  destruct (exit_wait4_roundtrip 0 1 0 42 demo_k (demo_thread 7 Running 4) 7 (demo_proc 7 3) demo_k_wf) as (_ & _ & k2 & E & _ & _ & E');
    [reflexivity|apply demo_k_keyed|reflexivity|lia|reflexivity..|done|reflexivity|].
  exists k2. split; [exact E|exact E'].
Defined.

(** Giving up and asking for root again. *)
Lemma no_privilege_gain_witness :
  ∃ q, cur_proc 0 (run_creds 0 [SetUid 0; SetResUid (-1) 0 (-1); SetResGid 0 0 0; SetSid] demo_k) = Some q ∧ (0 ∉ uids q).
Proof.
  destruct (no_privilege_gain 0 demo_k (demo_proc 7 3) [SetUid 0; SetResUid (-1) 0 (-1); SetResGid 0 0 0; SetSid])
    as (q & E & _ & H & _).
  - reflexivity.
  - apply (bool_decide_unpack _). vm_compute. exact I.
  - apply (bool_decide_unpack _). vm_compute. exact I.
  - exists q. split; [exact E|exact H].
Defined.

Lemma exit_skips_clear_tid_witness :
  ∃ sw k', sys_exit 0 0 42 demo_k = (Ok sw, k') ∧ mach k' = mach demo_k.
Proof.
  destruct (exit_skips_clear_tid 0 0 42 demo_k (demo_thread 7 Running 4) 0x5000 demo_k_wf) as (sw & k' & E & H & _);
    [reflexivity|reflexivity|lia|].
  exists sw, k'. split; [exact E|exact H].
Defined.
