(* ===== verification/Clone.v ===== *)
(** * Clone ([sched/mod.rs])

    [do_clone] and the eager copy of the address space behind [fork].  The child
    starts on the page tables of its parent ([CLONE_VM]) or on a copy. *)

From S2P Require Import Prelude.
From S2P Require Import Pmm.
From S2P Require Import Paging.
From S2P Require Import User.
From S2P Require Import Sched.
From S2P Require Import Vmm.
From S2P Require Import Kernel.
From S2P Require Import Shm.
From S2P Require Import Mmap.
From S2P Require Import Proc.
From S2P Require Import Frame.

Definition CLONE_VM : Z := 0x00000100.
Definition CLONE_SIGHAND : Z := 0x00000800.
Definition CLONE_SETTLS : Z := 0x00080000.
Definition CLONE_PARENT : Z := 0x00008000.
Definition CLONE_PIDFD : Z := 0x00001000.
Definition CLONE_THREAD : Z := 0x00010000.
Definition CLONE_PARENT_SETTID : Z := 0x00100000.
Definition CLONE_CHILD_CLEARTID : Z := 0x00200000.
Definition CLONE_CHILD_SETTID : Z := 0x01000000.

(** [copy_nonoverlapping] of one page between frames. *)
Definition copy_page (f : Z → Z) (src dst : Z) : Z → Z := λ x,
  if bool_decide (dst ≤ x < dst + 4096) then f (src + (x - dst)) else f x.

Definition undo_clone (child_root : Z) (mapped : list Z) : M Mach () :=
  for_each mapped (λ va,
    let! o := unmap_user_page child_root va in
    match o with Some phys => lift_pmm (Pmm.free_page phys) | None => ret tt end).

(** The pages of one area, from [va]; [n] of them.  [va += 4096] may overflow. *)
Fixpoint clone_area (parent_root child_root prot va : Z) (n : nat) (mapped : list Z) : M Mach (list Z) :=
  match n with
  | O => ret mapped
  | S n' =>
      let! o := translate_user_va parent_root va in
      let! mapped :=
        match o with
        | None => ret mapped
        | Some parent_phys =>
            let! c := lift_pmm Pmm.alloc_page in
            match c with
            | None => undo_clone child_root mapped ;;; fail ENOMEM
            | Some child_phys =>
                modify (λ s, set_mem (copy_page (mem s) parent_phys child_phys) s) ;;;
                map_user_page child_root va child_phys (prot_to_page_attr prot) ;;;
                ret (mapped ++ [va])
            end
        end in
      let! va := or_panic (add64 va 4096) in
      clone_area parent_root child_root prot va n' mapped
  end.

Definition area_pages (v : Vma) : nat := Z.to_nat ((end_ v - start v + 4095) / 4096).

Fixpoint clone_areas (parent_root child_root : Z) (areas : list Vma) (mapped : list Z) : M Mach () :=
  match areas with
  | [] => ret tt
  | v :: areas' =>
      let! mapped := clone_area parent_root child_root (prot v) (start v) (area_pages v) mapped in
      clone_areas parent_root child_root areas' mapped
  end.

Definition clone_user_address_space (parent_root child_root : Z) (parent_vmm : gmap Z Vma) : M Mach () :=
  clone_areas parent_root child_root (Vmm.snapshot parent_vmm) [].

(** Linux's rules on flag combinations, checked first. *)
Definition clone_flags_ok (flags ptid : Z) : bool :=
  let exit_signal := Z.land flags 0xff in
  negb (has flags CLONE_THREAD && (negb (has flags CLONE_SIGHAND) || negb (has flags CLONE_VM))) &&
  negb (has flags CLONE_THREAD && negb (exit_signal =? 0)) &&
  negb (has flags CLONE_SIGHAND && negb (has flags CLONE_VM)) &&
  negb (has flags CLONE_PIDFD && has flags CLONE_PARENT_SETTID) &&
  negb (has flags CLONE_PIDFD && (ptid =? 0)).

(** The parent as the child sees it; a caller without an entry gets defaults and
    a fresh area map. *)
Definition parent_info (cpu : nat) (k : K) : Process * K :=
  let pid := current_pid cpu k in
  match PROCESS_TABLE k !! pid with
  | Some p => (p, k)
  | None =>
      (mkProcess pid pid pid pid 0 0 0 0 0 0 0 false "cloned" [] [] USER_BRK_BASE USER_BRK_BASE USER_MMAP_BASE (NEXT_VMM k),
       set_vmms (<[NEXT_VMM k := ∅]> (VMMS k)) (NEXT_VMM k + 1) k)
  end.

(** The child's table entry. *)
Definition child_entry (flags child parent_pid : Z) (p : Process) (vmm_handle : Z) : Process :=
  mkProcess child (if has flags CLONE_THREAD then tgid p else child) (pgid p) (sid p)
    (if has flags CLONE_THREAD then ppid p else if has flags CLONE_PARENT then ppid p else parent_pid)
    (uid p) (gid p) (euid p) (egid p) (suid p) (sgid p) (no_new_privs p) (p_name p) (environ p) [child]
    (brk_base p) (brk_current p) (mmap_next p) vmm_handle.

Section Clone.
Context `{CpuContext F} (cpu : nat) (root : Z).

(** The child as a thread and a process, up to the thread id stored for the parent;
    [trampoline] and [stack_top] come from the architecture and the heap. *)
Definition clone_child (frame : F) (trampoline stack_top flags stack ptid tls : Z) : M K Z :=
  if negb (clone_flags_ok flags ptid) then fail EINVAL else
  let share_vm := has flags CLONE_VM in
  let! parent_pid := gets (current_pid cpu) in
  let! child := on_sched alloc_pid in
  let child_sp := if stack =? 0 then sp frame else stack in
  let child_pc := pc frame in
  let! p := (λ k, let '(p, k') := parent_info cpu k in (Ok p, k')) in
  let! cur := gets (λ k, current (SCHEDULER (sched k)) !! cpu) in
  let! cur := or_panic cur in
  let! cur := ok_or cur ESRCH in
  let page_root := page_table_root (context cur) in
  let child_tls := if has flags CLONE_SETTLS then tls else user_tls (context cur) in
  let! areas := gets (vmm_of p) in
  let! thread :=
    (if share_vm then ret (new_user_cloned (p_name p) child child_pc child_sp page_root child_tls trampoline stack_top)
     else
       let! o := on_mach aspace_new in
       let! child_root := ok_or o ENOMEM in
       on_mach (clone_user_address_space page_root child_root areas) ;;;
       let t := new_user (p_name p) child child_pc child_sp child_root trampoline stack_top in
       ret (mkThread (Sched.pid t) (Sched.name t) (Sched.state t) (entry_ctx trampoline stack_top child_pc child_sp child_root child_tls)
              (kernel_stack t) (vruntime t) (is_user t) (first_run t) (address_space t))) in
  let! qs := gets (λ k, run_queues (SCHEDULER (sched k))) in
  match qs with
  | [] => fail ESRCH
  | _ =>
      let! target := gets (λ k, least_loaded_cpu (SCHEDULER (sched k))) in
      let! q := or_panic (qs !! target) in
      modify (λ k, set_sched (set_queues (<[target := q ++ [thread]]> qs) (sched k)) k) ;;;
      let! handle :=
        (if share_vm then ret (vmm p)
         else
           let! h := gets NEXT_VMM in
           modify (λ k, set_vmms (<[h := areas]> (VMMS k)) (h + 1) k) ;;; ret h) in
      modify (λ k, set_table (<[child := child_entry flags child parent_pid p handle]> (PROCESS_TABLE k)) k) ;;;
      when (has flags CLONE_THREAD)
        (modify (λ k, set_table (alter (λ l, set_threads (p_threads l ++ [child]) l) (tgid p) (PROCESS_TABLE k)) k)) ;;;
      when (has flags CLONE_PARENT_SETTID && negb (ptid =? 0))
        (ignore (on_mach (User.copy_to_user root ptid (to_le 8 child)))) ;;;
      ret child
  end.

(** [on] runs a computation on the kernel's part of a larger state, in which
    [alloc_pidfd] is the file-descriptor component's. *)
Definition do_clone {T} (on : ∀ A, M K A → M T A) (alloc_pidfd : Z → M T Z) (frame : F)
    (trampoline stack_top flags stack ptid tls ctid : Z) : M T Z :=
  let! child := on _ (clone_child frame trampoline stack_top flags stack ptid tls) in
  when (has flags CLONE_PIDFD)
    (let! fd := alloc_pidfd child in on _ (ignore (on_mach (User.copy_to_user root ptid (to_le 4 (fd mod 2 ^ 32)))))) ;;;
  on _ (when (has flags CLONE_CHILD_SETTID && negb (ctid =? 0))
          (ignore (on_mach (User.copy_to_user root ctid (to_le 8 child)))) ;;;
        when (has flags CLONE_CHILD_CLEARTID && negb (ctid =? 0)) (modify (register_clear_child_tid child ctid))) ;;;
  ret child.
End Clone.

(** ** Two address spaces

    The parent's tables and frames are apart from the child's tables. *)

Record apart (s : Mach) (pr : Z) (lvp lvc : gmap Z nat) : Prop := {
  apart_table t l : lvp !! t = Some l → lvc !! t = None;
  apart_frame v e : pte_of s pr v = Some e → lvc !! pte_addr e = None }.

(** Work that keeps the pages in use outside the child's tables leaves the
    parent as it was. *)
Lemma kept_other s lvc s' lvc' pr lvp : owned s pr lvp → apart s pr lvp lvc → kept s lvc s' lvc' → Pmm.pmm_inv (mpmm s') →
  owned s' pr lvp ∧ apart s' pr lvp lvc' ∧ (∀ v, pte_of s' pr v = pte_of s pr v) ∧
  ∀ v e i, pte_of s pr v = Some e → 0 ≤ i < 4096 → mem s' (pte_addr e + i) = mem s (pte_addr e + i).
Proof.
  intros [Ht Of Oi] [At Af] [Ku Kt Km] Hp.
  assert (∀ p l, lvp !! (p * 4096) = Some l → 0 ≤ p ∧ Pmm.page_used (mpmm s) p = true) as Htab.
  { intros p l Hl. destruct (tree_page _ _ _ Ht _ _ Hl) as (q & E & Hq & Hu). assert (q = p) as -> by lia. split; [apply Hq|done]. }
  assert (∀ x, in_table lvp x → mem s' x = mem s x) as Hmem.
  { intros x (t & l & Hl & Hx). destruct (tree_page _ _ _ Ht _ _ Hl) as (q & -> & Hq & Hu).
    apply (Km q); [apply Hq|done|by eapply At|done]. }
  assert (tree s' pr lvp) as Ht'.
  { destruct s' as [p f]. apply (tree_frame p f s); [done|done| |done]. intros q H0 [l Hl]. apply Ku; [done|by eapply Htab]. }
  assert (∀ v, pte_of s' pr v = pte_of s pr v) as Hpte by (intros v; destruct s'; by eapply pte_of_ext).
  split; [constructor|split; [constructor|split; [done|]]].
  - done.
  - intros v e. rewrite Hpte. intros (q & E & Hq & Hu & Hn)%Of. exists q. do 2 (split; [done|]). split; [|done].
    apply Ku; [apply Hq|done].
  - intros v v' e e'. rewrite !Hpte. apply Oi.
  - intros t l Hl. destruct (tree_page _ _ _ Ht _ _ Hl) as (q & -> & Hq & Hu). apply Kt; [apply Hq|done|by eapply At].
  - intros v e. rewrite Hpte. intros He. destruct (Of v e He) as (q & E & Hq & Hu & Hn). rewrite E.
    apply Kt; [apply Hq|done|]. rewrite <- E. by eapply Af.
  - intros v e i He Hi. destruct (Of v e He) as (q & E & Hq & Hu & Hn). rewrite E.
    apply (Km q); [apply Hq|done| |lia]. rewrite <- E. by eapply Af.
Qed.

Lemma pte_of_vpage s root v v' : vpage v = vpage v' → pte_of s root v = pte_of s root v'.
Proof. intros [E1 E2]%vpage_indices. unfold pte_of. by rewrite E1, E2. Qed.

Section Fork.
Context (pr cr : Z) (lvp : gmap Z nat).

(** The child has its own copy of the frame behind [v], with attributes [a]. *)
Definition copied (s : Mach) (a : Z) (v : Z) : Prop := ∃ e q,
  pte_of s pr v = Some e ∧ pte_of s cr v = Some (leaf_entry (q * 4096) (to_pte (prot_to_page_attr a))) ∧ Pmm.page_ok q ∧
  (∀ i, 0 ≤ i < 4096 → mem s (q * 4096 + i) = mem s (pte_addr e + i)) ∧
  ∀ v' e', pte_of s pr v' = Some e' → pte_addr e' ≠ q * 4096.

(** What a part of the copy has done: [ps] are its pages with their protection. *)
Record progress (s : Mach) (lvc : gmap Z nat) (s' : Mach) (lvc' : gmap Z nat) (ps : list (Z * Z)) : Prop := {
  pg_owned : owned s' cr lvc';
  pg_parent : owned s' pr lvp;
  pg_apart : apart s' pr lvp lvc';
  pg_kept : kept s lvc s' lvc';
  pg_free : Pmm.free_pages (mpmm s) - 4 * Z.of_nat (length ps) ≤ Pmm.free_pages (mpmm s');
  pg_same v : pte_of s' pr v = pte_of s pr v;
  pg_skip v : pte_of s pr v = None ∨ (∀ e, e ∈ ps → vpage v ≠ vpage e.1) → pte_of s' cr v = pte_of s cr v;
  pg_copy v : is_Some (pte_of s pr v) → (∃ e, e ∈ ps ∧ vpage v = vpage e.1) →
    ∃ e, e ∈ ps ∧ vpage v = vpage e.1 ∧ copied s' e.2 v }.

(** A copied page stays copied while its descriptor stays. *)
Lemma copied_kept s lvc s' lvc' a v : owned s cr lvc → owned s pr lvp → apart s pr lvp lvc → kept s lvc s' lvc' →
  Pmm.pmm_inv (mpmm s') → pte_of s' cr v = pte_of s cr v → copied s a v → copied s' a v.
Proof.
  intros Hc Hp Ha Hk Hi E (e & q & Hpe & Hce & Hq & Hm & Hd).
  destruct (kept_other s lvc s' lvc' pr lvp Hp Ha Hk Hi) as (_ & _ & Hsame & Hmem).
  destruct (own_frame _ _ _ Hc v _ Hce) as (q' & Ea & _ & Hu & Hn).
  assert (0 ≤ q < Pmm.MAX_PAGES) as Hqr by exact Hq. unfold Pmm.MAX_PAGES in Hqr.
  rewrite leaf_entry_addr in Ea. change (Z.land (q * 4096) ADDR_MASK) with (pte_addr (q * 4096)) in Ea.
  rewrite pte_addr_page in Ea by lia. assert (q' = q) as -> by lia.
  exists e, q. rewrite Hsame, E. do 3 (split; [done|]). split.
  - intros i Hi'. rewrite (kept_mem _ _ _ _ Hk q) by (done || lia). rewrite (Hmem v e i) by done. by apply Hm.
  - intros v' e'. rewrite Hsame. apply Hd.
Qed.

Lemma progress_trans s lvc s1 lvc1 s2 lvc2 ps1 ps2 :
  progress s lvc s1 lvc1 ps1 → progress s1 lvc1 s2 lvc2 ps2 → progress s lvc s2 lvc2 (ps1 ++ ps2).
Proof.
  intros [O1 P1 A1 K1 F1 S1 N1 C1] [O2 P2 A2 K2 F2 S2 N2 C2]. constructor; auto.
  - by eapply kept_trans.
  - rewrite length_app. lia.
  - intros v. by rewrite S2.
  - intros v H. rewrite N2, N1; [done| |].
    + destruct H as [H|H]; [by left|]. right. intros e He. apply H, elem_of_app. by left.
    + rewrite S1. destruct H as [H|H]; [by left|]. right. intros e He. apply H, elem_of_app. by right.
  - intros v Hv (e & He & Ev). destruct (decide (Exists (λ e, vpage v = vpage e.1) ps2)) as [(e2 & H2 & E2)%Exists_exists|Hno].
    + destruct (C2 v) as (e' & He' & Ev' & Hc); [by rewrite S1|by exists e2|]. exists e'. split; [apply elem_of_app; by right|done].
    + apply elem_of_app in He as [He|He]; [|exfalso; apply Hno, Exists_exists; by exists e].
      destruct (C1 v Hv) as (e' & He' & Ev' & Hc); [by exists e|]. exists e'. split; [apply elem_of_app; by left|].
      split; [done|]. eapply (copied_kept s1 lvc1); [done..|apply (tree_pmm _ _ _ (own_tree _ _ _ O2))| |done].
      apply N2. right. intros e2 H2 E2. apply Hno, Exists_exists. by exists e2.
Qed.

Lemma progress_nil s lvc : owned s cr lvc → owned s pr lvp → apart s pr lvp lvc → progress s lvc s lvc [].
Proof.
  intros. constructor; auto.
  - apply kept_refl.
  - cbn. lia.
  - intros v _ (e & ?%not_elem_of_nil & _). done.
Qed.

Lemma page_offset va : va mod 4096 = 0 → Z.land va 0xFFF = 0.
Proof. intros H. change 0xFFF with (Z.ones 12). by rewrite Z.land_ones by lia. Qed.

Lemma translate_page s va : va mod 4096 = 0 → translate (mem s) pr va = pte_addr <$> pte_of s pr va.
Proof using All.
  intros H. rewrite (translate_pte (mem s) (mpmm s)), page_offset by done.
  change (pte_of (mkMach (mpmm s) (mem s)) pr va) with (pte_of s pr va).
  destruct (pte_of s pr va); cbn; [|done]. by rewrite Z.lor_0_r.
Qed.

(** Copying one mapped page. *)
Lemma clone_one s lvc va prot_ e : owned s cr lvc → owned s pr lvp → apart s pr lvp lvc → va mod 4096 = 0 →
  4 ≤ Pmm.free_pages (mpmm s) → pte_of s pr va = Some e →
  ∃ q p' s' lvc', Pmm.alloc_page (mpmm s) = (Ok (Some (q * 4096)), p') ∧
    map_user_page cr va (q * 4096) (prot_to_page_attr prot_) (mkMach p' (copy_page (mem s) (pte_addr e) (q * 4096))) = (Ok tt, s') ∧
    progress s lvc s' lvc' [(va, prot_)].
Proof.
  intros Hc Hp Ha Hva Hfree He.
  destruct (map_filled s cr lvc va (prot_to_page_attr prot_) Hc Hfree) as (q & p' & Ealloc & Hq & Huf & H).
  destruct (H (copy_page (mem s) (pte_addr e) (q * 4096))) as (s' & lvc' & Em & Ho' & Hk & Hf & Hu & Hl & Hm & Hpte).
  { intros x Hx. unfold copy_page. by rewrite bool_decide_eq_false_2. }
  destruct (kept_other s lvc s' lvc' pr lvp Hp Ha Hk (tree_pmm _ _ _ (own_tree _ _ _ Ho'))) as (Hp' & Ha' & Hsame & Hmem).
  exists q, p', s', lvc'. do 2 (split; [done|]). constructor; try done.
  - intros v Hv. rewrite Hpte, bool_decide_eq_false_2; [done|]. intros Ev. destruct Hv as [Hv|Hv].
    + rewrite (pte_of_vpage _ _ _ _ Ev), He in Hv. done.
    + apply (Hv (va, prot_)); [by left|done].
  - intros v _ (x & ->%list_elem_of_singleton & Ev). exists (va, prot_). split; [by left|]. split; [done|].
    exists e, q. rewrite Hsame, (pte_of_vpage _ pr _ _ Ev). split; [done|].
    split; [by rewrite Hpte, bool_decide_eq_true_2|]. split; [done|]. split.
    + intros i Hi. rewrite Hm, (Hmem va e i) by (done || lia). unfold copy_page.
      rewrite bool_decide_eq_true_2 by lia. f_equal. lia.
    + intros v' e'. rewrite Hsame. intros He' Ea. destruct (own_frame _ _ _ Hp v' e' He') as (q' & Eq & _ & Hu' & _).
      assert (q' = q) as -> by lia. congruence.
Qed.

Fixpoint page_seq (prot_ va : Z) (n : nat) : list (Z * Z) :=
  match n with O => [] | S n' => (va, prot_) :: page_seq prot_ (va + 4096) n' end.

Lemma length_page_seq prot_ n : ∀ va, length (page_seq prot_ va n) = n.
Proof. induction n; intros; cbn; auto. Qed.

(** The loop over the pages of one area. *)
Lemma clone_area_progress prot_ n : ∀ va mapped s lvc, owned s cr lvc → owned s pr lvp → apart s pr lvp lvc →
  va mod 4096 = 0 → va + Z.of_nat n * 4096 < 2 ^ 64 → 4 * Z.of_nat n ≤ Pmm.free_pages (mpmm s) →
  ∃ mapped' s' lvc', clone_area pr cr prot_ va n mapped s = (Ok mapped', s') ∧ progress s lvc s' lvc' (page_seq prot_ va n).
Proof using All.
  induction n as [|n IH]; intros va mapped s lvc Hc Hp Ha Hva Hlim Hfree; cbn [clone_area page_seq].
  { eexists _, _, _. split; [done|]. by apply progress_nil. }
  assert (∀ s1 lvc1 m1, progress s lvc s1 lvc1 [(va, prot_)] →
    ∃ m' s' lvc', (let! va' := or_panic (add64 va 4096) in clone_area pr cr prot_ va' n m1) s1 = (Ok m', s') ∧
      progress s lvc s' lvc' ((va, prot_) :: page_seq prot_ (va + 4096) n)) as Hnext.
  { intros s1 lvc1 m1 P. rewrite add64_small by lia. kstep. pose proof P as [O1 P1 A1 _ F1 _ _ _]. cbn in F1.
    destruct (IH (va + 4096) m1 s1 lvc1 O1 P1 A1) as (m' & s' & lvc' & E & P'); [lia..|].
    exists m', s', lvc'. split; [exact E|]. exact (progress_trans _ _ _ _ _ _ [(va, prot_)] _ P P'). }
  unfold translate_user_va. kstep. rewrite translate_page by done.
  destruct (pte_of s pr va) as [e|] eqn:He; cbn [fmap option_fmap option_map].
  - destruct (clone_one s lvc va prot_ e Hc Hp Ha Hva ltac:(lia) He) as (q & p' & s1 & lvc1 & Ea & Em & P).
    kstep. unfold bind at 1, lift_pmm. rewrite Ea. kstep. cbn [mem set_mem set_pmm mpmm].
    rewrite (bind_ok _ _ _ _ _ Em). kstep. by apply (Hnext s1 lvc1).
  - kstep. apply (Hnext s lvc). pose proof (progress_nil s lvc Hc Hp Ha) as [O1 P1 A1 K1 F1 S1 N1 _].
    constructor; auto; [cbn in *; lia|].
    intros v Hv (x & ->%list_elem_of_singleton & Ev). cbn in Ev. rewrite (pte_of_vpage _ _ _ _ Ev), He in Hv. by destruct Hv.
Qed.

Definition area_ok (a : Vma) : Prop := start a mod 4096 = 0 ∧ start a ≤ end_ a ∧ end_ a + 4096 ≤ 2 ^ 64.
Definition area_seq (a : Vma) : list (Z * Z) := page_seq (prot a) (start a) (area_pages a).
Definition all_pages (areas : list Vma) : list (Z * Z) := concat (area_seq <$> areas).

Lemma clone_areas_progress areas : ∀ mapped s lvc, owned s cr lvc → owned s pr lvp → apart s pr lvp lvc →
  Forall area_ok areas → 4 * Z.of_nat (length (all_pages areas)) ≤ Pmm.free_pages (mpmm s) →
  ∃ s' lvc', clone_areas pr cr areas mapped s = (Ok tt, s') ∧ progress s lvc s' lvc' (all_pages areas).
Proof using All.
  induction areas as [|a areas IH]; intros mapped s lvc Hc Hp Ha Hok Hfree; cbn [clone_areas].
  { eexists _, _. split; [done|]. by apply progress_nil. }
  apply Forall_cons in Hok as [(H1 & H2 & H3) Hok]. unfold all_pages in *. cbn [fmap list_fmap concat] in *.
  rewrite length_app in Hfree. unfold area_seq at 1 in Hfree. rewrite length_page_seq in Hfree.
  destruct (clone_area_progress (prot a) (area_pages a) (start a) mapped s lvc Hc Hp Ha H1) as (m1 & s1 & lvc1 & E1 & P1).
  { unfold area_pages. lia. }
  { change (list_fmap Vma (list (Z * Z)) area_seq) with (fmap (M:=list) area_seq) in Hfree. lia. }
  rewrite (bind_ok _ _ _ _ _ E1). pose proof P1 as [O1 Q1 A1 _ F1 _ _ _]. rewrite length_page_seq in F1.
  change (list_fmap Vma (list (Z * Z)) area_seq) with (fmap (M:=list) area_seq) in Hfree.
  destruct (IH m1 s1 lvc1 O1 Q1 A1 Hok ltac:(lia)) as (s' & lvc' & E & P).
  exists s', lvc'. split; [exact E|]. by eapply progress_trans.
Qed.
End Fork.

(** ** Fork *)

Lemma elem_of_page_seq prot_ n : ∀ va u x,
  (u, x) ∈ page_seq prot_ va n ↔ x = prot_ ∧ ∃ i, 0 ≤ i < Z.of_nat n ∧ u = va + i * 4096.
Proof.
  induction n as [|n IH]; intros va u x; cbn [page_seq].
  - split; [by intros ?%not_elem_of_nil|]. intros (_ & i & Hi & _). lia.
  - rewrite elem_of_cons, IH. split.
    + intros [[= -> ->]|(-> & i & Hi & ->)]; (split; [done|]); [exists 0; lia|exists (i + 1); lia].
    + intros (-> & i & Hi & ->). destruct (decide (i = 0)) as [->|]; [left; f_equal; lia|]. right. split; [done|].
      exists (i - 1). lia.
Qed.

(** [v] lies in a page of area [a]. *)
Definition covers (a : Vma) (v : Z) : Prop := ∃ w, start a ≤ w < end_ a ∧ vpage v = vpage w.

Lemma covers_pages areas v : Forall area_ok areas →
  (∃ a, a ∈ areas ∧ covers a v) ↔ ∃ e, e ∈ all_pages areas ∧ vpage v = vpage e.1.
Proof.
  intros Hok. rewrite Forall_forall in Hok. unfold all_pages. setoid_rewrite list_elem_of_In at 2. setoid_rewrite in_concat.
  setoid_rewrite <- list_elem_of_In. split.
  - intros (a & Ha & w & Hw & Ev). destruct (Hok a Ha) as (H1 & H2 & H3).
    exists (start a + (w - start a) / 4096 * 4096, prot a). cbn. split.
    + exists (area_seq a). split; [apply list_elem_of_fmap; by exists a|]. apply elem_of_page_seq. split; [done|].
      exists ((w - start a) / 4096). unfold area_pages. split; [|done]. lia.
    + rewrite Ev. unfold vpage. f_equal. lia.
  - intros ([u x] & (l & (a & -> & Ha)%list_elem_of_fmap & (-> & i & Hi & ->)%elem_of_page_seq) & Ev). cbn in Ev.
    exists a. split; [done|]. destruct (Hok a Ha) as (H1 & H2 & H3). unfold area_pages in Hi. exists (start a + i * 4096).
    split; [lia|done].
Qed.

Lemma page_area areas e : Forall area_ok areas → e ∈ all_pages areas →
  ∃ a, a ∈ areas ∧ e.2 = prot a ∧ ∀ v, vpage v = vpage e.1 → covers a v.
Proof.
  intros Hok. rewrite Forall_forall in Hok. unfold all_pages. rewrite (list_elem_of_In _ e), in_concat.
  intros (l & Hl & He). apply list_elem_of_In in Hl, He. apply list_elem_of_fmap in Hl as (a & -> & Ha).
  destruct e as [u x]. apply elem_of_page_seq in He as (-> & i & Hi & ->). exists a. do 2 (split; [done|]).
  intros v Ev. destruct (Hok a Ha) as (H1 & H2 & H3). unfold area_pages in Hi. exists (start a + i * 4096). split; [lia|done].
Qed.

(** C21. The copy behind [fork]: with enough memory it never fails, and every
    page that the parent has mapped inside one of its areas is mapped in the
    child, with the protection of the area, to a frame that holds the same bytes
    and that the parent does not map; nothing else is mapped in the child; the
    parent's mappings and memory are unchanged. *)
Theorem fork_copies s pr cr lvp lvc areas : owned s pr lvp → owned s cr lvc → apart s pr lvp lvc →
  (∀ v, pte_of s cr v = None) → Forall area_ok (Vmm.snapshot areas) →
  4 * Z.of_nat (length (all_pages (Vmm.snapshot areas))) ≤ Pmm.free_pages (mpmm s) →
  ∃ s' lvc', clone_user_address_space pr cr areas s = (Ok tt, s') ∧ owned s' pr lvp ∧ owned s' cr lvc' ∧
    (∀ v, pte_of s' pr v = pte_of s pr v) ∧
    (∀ v e i, pte_of s pr v = Some e → 0 ≤ i < 4096 → mem s' (pte_addr e + i) = mem s (pte_addr e + i)) ∧
    (∀ v e, pte_of s pr v = Some e → (∃ a, a ∈ Vmm.snapshot areas ∧ covers a v) →
       ∃ a q, a ∈ Vmm.snapshot areas ∧ covers a v ∧
         pte_of s' cr v = Some (leaf_entry (q * 4096) (to_pte (prot_to_page_attr (prot a)))) ∧
         (∀ i, 0 ≤ i < 4096 → mem s' (q * 4096 + i) = mem s (pte_addr e + i)) ∧
         ∀ v' e', pte_of s' pr v' = Some e' → pte_addr e' ≠ q * 4096) ∧
    (∀ v, pte_of s pr v = None ∨ (∀ a, a ∈ Vmm.snapshot areas → ¬ covers a v) → pte_of s' cr v = None).
Proof.
  intros Hp Hc Ha H0 Hok Hfree. unfold clone_user_address_space. set (l := Vmm.snapshot areas) in *.
  destruct (clone_areas_progress pr cr lvp l [] s lvc Hc Hp Ha Hok Hfree) as (s' & lvc' & E & [O P A K _ S N C]).
  destruct (kept_other s lvc s' lvc' pr lvp Hp Ha K (tree_pmm _ _ _ (own_tree _ _ _ O))) as (_ & _ & _ & Hmem).
  exists s', lvc'. do 5 (split; [done|]). split.
  - intros v e He Hcov. apply covers_pages in Hcov; [|done].
    destruct (C v) as (x & Hx & Ev & e' & q & Hpe & Hce & Hq & Hm & Hd); [by rewrite He|done|].
    rewrite S, He in Hpe. injection Hpe as <-. destruct (page_area l x Hok Hx) as (a & Hal & Ea & Hcv).
    exists a, q. split; [done|]. split; [by apply Hcv|]. split; [by rewrite Hce, Ea|]. split; [|done].
    intros i Hi. rewrite Hm by done. by apply (Hmem v).
  - intros v Hv. rewrite N; [apply H0|]. destruct Hv as [Hv|Hv]; [by left|]. right. intros x Hx Ev.
    destruct (page_area l x Hok Hx) as (a & Hal & _ & Hcv). by apply (Hv a Hal), Hcv.
Qed.

(** ** Demonstration: a parent with one page mapped, and an empty child *)

Lemma demo_pmm n : 0 ≤ n ≤ 10000 → ∃ p, Pmm.pmm_inv p ∧ Pmm.free_pages p = n ∧
  ∀ q, 0 ≤ q → Pmm.page_used p q = negb (bool_decide (10 ≤ q < 10 + n)).
Proof.
  intros [H1 H2]. revert H2. pattern n. apply natlike_ind; [| |done].
  - intros _. exists Pmm.new. split; [apply Pmm.new_inv|]. split; [done|]. intros q Hq. rewrite Pmm.new_used by done.
    by rewrite bool_decide_eq_false_2 by lia.
  - intros m Hm IH Hlt. destruct IH as (p & Hi & Hf & Hu); [lia|].
    destruct (Pmm.mark_free_flips p (10 + m) Hi) as (p' & _ & [I _ F U]).
    { unfold Pmm.page_ok, Pmm.MAX_PAGES. lia. }
    { rewrite Hu by lia. by rewrite bool_decide_eq_false_2 by lia. }
    exists p'. split; [done|]. split; [rewrite F, Hf; lia|]. intros q Hq. rewrite U, Hu by done.
    repeat case_bool_decide; try done; lia.
Qed.

Lemma zero_owned p q : Pmm.pmm_inv p → Pmm.page_ok q → Pmm.page_used p q = true →
  owned (mkMach p (λ _, 0)) (q * 4096) {[q * 4096 := 0%nat]} ∧ ∀ v, pte_of (mkMach p (λ _, 0)) (q * 4096) v = None.
Proof.
  intros Hp Hq Hu. assert (∀ v, pte_of (mkMach p (λ _, 0)) (q * 4096) v = None) as Hn.
  { intros v. pose proof (zero_unmapped p (λ _, 0) q v Hp Hq Hu (λ _ _, eq_refl)) as E.
    rewrite (translate_pte _ p) in E. by apply fmap_None in E. }
  split; [|done]. constructor; [by apply zero_tree| |]; intros *; by rewrite Hn.
Qed.

(** The parent, at 4096, maps 0x400000; the child, at 8192, maps nothing. *)
Lemma demo_fork : ∃ s lvp, owned s 4096 lvp ∧ owned s 8192 {[8192 := 0%nat]} ∧ apart s 4096 lvp {[8192 := 0%nat]} ∧
  (∀ v, pte_of s 8192 v = None) ∧ is_Some (pte_of s 4096 0x400000) ∧ 4 ≤ Pmm.free_pages (mpmm s).
Proof.
  destruct (demo_pmm 8) as (p & Hi & Hf & Hu); [lia|]. set (s := mkMach p (λ _, 0)).
  destruct (zero_owned p 1 Hi) as [O1 N1]; [done|by rewrite Hu by lia|].
  destruct (zero_owned p 2 Hi) as [O2 N2]; [done|by rewrite Hu by lia|].
  destruct (map_filled s 4096 _ 0x400000 USER_RW O1) as (q & p' & _ & Hq & Huf & H); [cbn [mpmm s]; lia|].
  destruct (H (mem s) (λ _ _, eq_refl)) as (s' & lvp & _ & O' & K & F & _ & _ & _ & Hpte). cbn [mpmm s] in F.
  assert (apart s 8192 {[8192 := 0%nat]} {[4096 := 0%nat]}) as Ha0.
  { constructor; [|intros v e; by rewrite N2]. intros t l [<- _]%lookup_singleton_Some. done. }
  destruct (kept_other s _ s' lvp 8192 _ O2 Ha0 K (tree_pmm _ _ _ (own_tree _ _ _ O'))) as (O2' & [A1 _] & Hs & _).
  exists s', lvp. split; [done|]. split; [done|]. split; [|split; [|split; [|lia]]].
  - constructor.
    + intros t l Hl. apply lookup_singleton_None. intros <-. rewrite (A1 8192 0%nat) in Hl; [done|apply lookup_singleton_eq].
    + intros v e. rewrite Hpte, N1. case_bool_decide; [|done]. intros [= <-]. rewrite leaf_entry_addr.
      assert (0 ≤ q < Pmm.MAX_PAGES) as Hqr by exact Hq. unfold Pmm.MAX_PAGES in Hqr.
      change (Z.land (q * 4096) ADDR_MASK) with (pte_addr (q * 4096)). rewrite pte_addr_page by lia.
      apply lookup_singleton_None. intros E. assert (q = 2) as -> by lia. cbn [mpmm s] in Huf. rewrite Hu in Huf by lia. done.
  - intros v. by rewrite Hs, N2.
  - rewrite Hpte, bool_decide_eq_true_2 by done. eauto.
Qed.

Definition demo_areas : gmap Z Vma := {[0x400000 := mkVma 0x400000 0x401000 (Z.lor PROT_READ PROT_WRITE) 0x22 0 None]}.

Lemma fork_copies_witness : ∃ s s' q, clone_user_address_space 4096 8192 demo_areas s = (Ok tt, s') ∧
  is_Some (pte_of s 4096 0x400000) ∧
  pte_of s' 8192 0x400000 = Some (leaf_entry (q * 4096) (to_pte (prot_to_page_attr (Z.lor PROT_READ PROT_WRITE)))).
Proof.
  destruct demo_fork as (s & lvp & Op & Oc & Ha & Hn & [e He] & Hf).
  assert (Vmm.snapshot demo_areas = [mkVma 0x400000 0x401000 (Z.lor PROT_READ PROT_WRITE) 0x22 0 None]) as Es by reflexivity.
  destruct (fork_copies s 4096 8192 lvp {[8192 := 0%nat]} demo_areas Op Oc Ha Hn) as (s' & lvc' & E & _ & _ & _ & _ & H & _).
  - rewrite Es. repeat constructor; vm_compute; congruence.
  - rewrite Es. exact Hf.
  - destruct (H 0x400000 e He) as (a & q & Hin & _ & Hq & _).
    + rewrite Es. eexists. split; [by left|]. exists 0x400000. split; [vm_compute; split; congruence|done].
    + rewrite Es in Hin. apply list_elem_of_singleton in Hin. subst a. exists s, s', q. split; [exact E|]. split; [by exists e|exact Hq].
Defined.
