(* ===== verification/Aspace.v ===== *)
(** * User page tables behind the trait [PageTable] ([arch/mod.rs])

    The loader works on a [&dyn PageTable].  Such an object is a record of
    operations on the state [St] of the machine; [PageTableLaws] states what they
    do to the memory a user program sees, and [aspace_laws] proves it of the
    AArch64 [AddressSpace] of [Paging]. *)

From S2P Require Import Prelude.
From S2P Require Import Pmm.
From S2P Require Import Paging.
From S2P Require Import User.
From S2P Require Import Mmap.

Record PageTable (St : Type) := mkPageTable {
  root_phys : Z;
  map_anon : Z → Z → PageAttr → M St ();
  copy_to_user : Z → list Z → M St ();
  copy_from_user : Z → nat → M St (list Z) }.
Arguments root_phys {St} _.
Arguments map_anon {St} _ _ _ _.
Arguments copy_to_user {St} _ _ _.
Arguments copy_from_user {St} _ _ _.

(** User addresses have 48 bits. *)
Definition VA_END : Z := 2 ^ 48.

(** Whether [x] is one of the [n] addresses from [v] on. *)
Definition within (v n x : Z) : bool := (v <=? x) && (x <? v + n).

Lemma within_spec v n x : within v n x = true ↔ v ≤ x < v + n.
Proof. unfold within. rewrite andb_true_iff, Z.leb_le, Z.ltb_lt. done. Qed.
Lemma within_false v n x : within v n x = false ↔ ¬ (v ≤ x < v + n).
Proof. rewrite <- within_spec. by destruct (within v n x). Qed.

(** What the operations do to the byte at each user address ([None]: not mapped),
    and to its permissions to write and to execute.  [pt_room] bounds from below
    the pages that can still be taken; a mapped page may need three tables. *)
Class PageTableLaws {St} (pt : PageTable St) := {
  pt_ok : St → Prop;
  pt_byte : St → Z → option Z;
  pt_perm : St → Z → option (bool * bool);
  pt_room : St → Z;
  pt_map_ok s v n flags : pt_ok s → 0 ≤ v → v mod 4096 = 0 → 0 ≤ n → v + n * 4096 ≤ VA_END → user flags = true →
    4 * n ≤ pt_room s →
    ∃ s', map_anon pt v (n * 4096) flags s = (Ok tt, s') ∧ pt_ok s' ∧ pt_room s - 4 * n ≤ pt_room s' ∧
      ∀ x, 0 ≤ x < VA_END →
        pt_byte s' x = (if within v (n * 4096) x then Some 0 else pt_byte s x) ∧
        pt_perm s' x = (if within v (n * 4096) x then Some (writable flags, executable flags) else pt_perm s x);
  pt_copy_ok s v data : pt_ok s → 0 ≤ v → v + Z.of_nat (length data) ≤ VA_END →
    (∀ x, v ≤ x < v + Z.of_nat (length data) → is_Some (pt_byte s x)) →
    ∃ s', copy_to_user pt v data s = (Ok tt, s') ∧ pt_ok s' ∧ pt_room s' = pt_room s ∧
      ∀ x, 0 ≤ x < VA_END →
        pt_byte s' x = (if within v (Z.of_nat (length data)) x then data !! Z.to_nat (x - v) else pt_byte s x) ∧
        pt_perm s' x = pt_perm s x }.

(** [impl PageTable for AddressSpace] *)
Definition address_space (root : Z) : PageTable Mach :=
  mkPageTable _ root (Paging.map_anon root) (Paging.copy_to_user root) (Paging.copy_from_user root).

(** [create_user_page_table] *)
Definition create_user_page_table : M Mach (option (PageTable Mach)) :=
  let! o := aspace_new in ret (address_space <$> o).

(** The same object on a larger state. *)
Definition lift_table {St T} (lift : ∀ A, M St A → M T A) (pt : PageTable St) : PageTable T :=
  mkPageTable _ (root_phys pt) (λ v n f, lift _ (map_anon pt v n f)) (λ v d, lift _ (copy_to_user pt v d))
    (λ v n, lift _ (copy_from_user pt v n)).

(** ** The AArch64 address space keeps the laws *)

Lemma byte_pte s root x :
  user_byte (mem s) root x = (λ e, mem s (pte_addr e + x mod 4096)) <$> pte_of s root x.
Proof.
  unfold user_byte. rewrite (translate_pte (mem s) (mpmm s)).
  change (pte_of (mkMach (mpmm s) (mem s)) root x) with (pte_of s root x).
  destruct (pte_of s root x) as [e|]; cbn; [|done]. do 2 f_equal. rewrite land_fff.
  apply lor_page_offset; [apply pte_addr_aligned|lia].
Qed.

Lemma vpage_small x y : 0 ≤ x < VA_END → 0 ≤ y < VA_END → vpage x = vpage y ↔ x / 4096 = y / 4096.
Proof.
  unfold VA_END, vpage. intros. rewrite !Z.mod_small; [done|lia..].
Qed.

Definition pte_perm (e : Z) : bool * bool := (negb (Z.testbit e 7), negb (Z.testbit e 54)).
Definition user_perm (s : Mach) (root x : Z) : option (bool * bool) := pte_perm <$> pte_of s root x.

(** The memory behind a mapping that stays is as before. *)
Lemma byte_kept s lv s' lv' root x : owned s root lv → kept s lv s' lv' → pte_of s' root x = pte_of s root x →
  user_byte (mem s') root x = user_byte (mem s) root x.
Proof.
  intros Ho Hk E. rewrite !byte_pte, E. destruct (pte_of s root x) as [e|] eqn:Ee; [|done]. cbn. f_equal.
  destruct (own_frame _ _ _ Ho x e Ee) as (q & Ea & Hq & Hu & Hn). rewrite Ea.
  apply (kept_mem _ _ _ _ Hk q); [apply Hq|done|done|lia].
Qed.

(** A fresh zeroed frame behind one page. *)
Lemma map_user_page_zero s root lv v flags : owned s root lv → 4 ≤ Pmm.free_pages (mpmm s) →
  ∃ q p' s' lv', Pmm.alloc_page (mpmm s) = (Ok (Some (q * 4096)), p') ∧ Pmm.page_ok q ∧
    map_user_page root v (q * 4096) flags (mkMach p' (zero_page (mem s) (q * 4096))) = (Ok tt, s') ∧
    owned s' root lv' ∧ kept s lv s' lv' ∧ Pmm.free_pages (mpmm s) - 4 ≤ Pmm.free_pages (mpmm s') ∧
    ∀ x, user_byte (mem s') root x = (if bool_decide (vpage x = vpage v) then Some 0 else user_byte (mem s) root x) ∧
         pte_of s' root x = (if bool_decide (vpage x = vpage v) then Some (leaf_entry (q * 4096) (to_pte flags))
                             else pte_of s root x).
Proof.
  intros Ho Hfree. destruct (map_fresh s root lv v flags Ho Hfree) as
    (q & p' & s' & lv' & Ea & Hq & Em & Ho' & Hk & Hf & Hu & Hl & H0 & Hpte).
  assert (0 ≤ q < Pmm.MAX_PAGES) as Hqr by exact Hq. unfold Pmm.MAX_PAGES in Hqr.
  exists q, p', s', lv'. do 6 (split; [done|]). intros x. split; [|apply Hpte]. case_bool_decide as Hd.
  - rewrite byte_pte, Hpte, bool_decide_eq_true_2 by done. cbn. rewrite leaf_entry_addr.
    change (Z.land (q * 4096) ADDR_MASK) with (pte_addr (q * 4096)). rewrite pte_addr_page by lia. f_equal. apply H0. lia.
  - apply (byte_kept s lv s' lv'); [done|done|]. by rewrite Hpte, bool_decide_eq_false_2.
Qed.

(** One page of [map_anon]. *)
Lemma map_anon_one s root lv v flags : owned s root lv → 4 ≤ Pmm.free_pages (mpmm s) →
  ∃ q p' s' lv', Pmm.alloc_page (mpmm s) = (Ok (Some (q * 4096)), p') ∧
    map_page root v (q * 4096) flags (mkMach p' (zero_page (mem s) (q * 4096))) = (Ok tt, s') ∧
    owned s' root lv' ∧ Pmm.free_pages (mpmm s) - 4 ≤ Pmm.free_pages (mpmm s') ∧
    ∀ x, user_byte (mem s') root x = (if bool_decide (vpage x = vpage v) then Some 0 else user_byte (mem s) root x) ∧
         pte_of s' root x = (if bool_decide (vpage x = vpage v) then Some (leaf_entry (q * 4096) (to_pte flags))
                             else pte_of s root x).
Proof.
  intros Ho Hfree. destruct (map_user_page_zero s root lv v flags Ho Hfree) as (q & p' & s' & lv' & Ea & Hq & Em & Ho' & _ & Hf & Hx).
  exists q, p', s', lv'. split; [done|].
  destruct (fresh_frame s root lv Ho ltac:(lia)) as (q2 & p2 & Ea2 & _ & _ & _ & _ & Hfp & Hfill).
  rewrite Ea in Ea2. injection Ea2 as E1 <-. assert (q2 = q) as -> by lia.
  assert (0 ≤ q < Pmm.MAX_PAGES) as Hqr by exact Hq. unfold Pmm.MAX_PAGES in Hqr.
  destruct (Hfill (zero_page (mem s) (q * 4096))) as (Ho1 & _ & _).
  { intros x Hx'. unfold zero_page. by rewrite bool_decide_eq_false_2. }
  destruct (map_page_pte (mkMach p' (zero_page (mem s) (q * 4096))) root lv v (q * 4096) flags (own_tree _ _ _ Ho1)) as
    (r & s2 & lv2 & Em2 & _ & _ & _ & _ & _ & _ & Hr); [unfold u64_ok; lia|].
  destruct Hr as [->|[_ Hr]]; [|cbn [mpmm] in Hr; lia].
  assert (s2 = s') as -> by (unfold map_user_page, ignore in Em; rewrite Em2 in Em; by injection Em). done.
Qed.

Lemma leaf_perm q flags : user flags = true → pte_perm (leaf_entry q (to_pte flags)) = (writable flags, executable flags).
Proof.
  intros Hu. unfold pte_perm. rewrite !leaf_entry_bit by (done || vm_compute; done).
  destruct flags as [[] [] [] [] []]; by try discriminate Hu.
Qed.

(** The loop of [map_anon] over the pages from [i] on. *)
Lemma map_anon_loop root v flags n : ∀ i s lv, owned s root lv → 0 ≤ v → v mod 4096 = 0 → 0 ≤ i →
  v + (i + Z.of_nat n) * 4096 ≤ VA_END → user flags = true → 4 * Z.of_nat n ≤ Pmm.free_pages (mpmm s) →
  ∃ s' lv', for_each (seqZ i (Z.of_nat n)) (λ i,
      let! o := lift_pmm Pmm.alloc_page in
      let! phys := ok_or o err_unit in
      write_zero_page phys ;;;
      let! v := or_panic (add64 v (i * Pmm.PAGE_SIZE)) in
      map_page root v phys flags) s = (Ok tt, s') ∧ owned s' root lv' ∧
    Pmm.free_pages (mpmm s) - 4 * Z.of_nat n ≤ Pmm.free_pages (mpmm s') ∧
    ∀ x, 0 ≤ x < VA_END →
      user_byte (mem s') root x = (if within (v + i * 4096) (Z.of_nat n * 4096) x then Some 0 else user_byte (mem s) root x) ∧
      user_perm s' root x = (if within (v + i * 4096) (Z.of_nat n * 4096) x then Some (writable flags, executable flags)
                             else user_perm s root x).
Proof.
  induction n as [|n IH]; intros i s lv Ho Hv Ha Hi Hend Hu Hfree.
  { exists s, lv. split; [done|]. split; [done|]. split; [lia|]. intros x Hx.
    rewrite (proj2 (within_false _ _ _)) by lia. done. }
  assert (VA_END = 2 ^ 48) as HV by done.
  replace (seqZ i (Z.of_nat (S n))) with (i :: seqZ (i + 1) (Z.of_nat n))
    by (rewrite (seqZ_cons i) by lia; f_equal; f_equal; lia). cbn [for_each].
  destruct (map_anon_one s root lv (v + i * 4096) flags Ho ltac:(lia)) as (q & p' & s1 & lv1 & Ea & Em & Ho1 & Hf1 & H1).
  rewrite !bind_assoc. unfold bind at 1, lift_pmm. rewrite Ea. unfold write_zero_page, Pmm.PAGE_SIZE in *. kstep.
  rewrite add64_small by lia. kstep. cbn [set_mem set_pmm mem mpmm]. rewrite (bind_ok _ _ _ _ _ Em).
  destruct (IH (i + 1) s1 lv1 Ho1) as (s' & lv' & E & Ho' & Hf' & H'); [done || lia..|].
  exists s', lv'. split; [exact E|]. split; [done|]. split; [lia|]. intros x Hx. destruct (H' x Hx) as [-> ->].
  unfold user_perm. destruct (H1 x) as [-> ->].
  assert (vpage x = vpage (v + i * 4096) ↔ x / 4096 = v / 4096 + i) as Hp.
  { rewrite vpage_small by lia. replace ((v + i * 4096) / 4096) with (v / 4096 + i) by lia. done. }
  destruct (within (v + (i + 1) * 4096) _ x) eqn:W1; [apply within_spec in W1|apply within_false in W1].
  - rewrite (proj2 (within_spec _ _ _)) by lia. done.
  - case_bool_decide as Hd.
    + apply Hp in Hd. rewrite (proj2 (within_spec _ _ _)) by lia. split; [done|]. cbn. by rewrite leaf_perm.
    + rewrite (proj2 (within_false _ _ _)); [done|]. intros Hw. apply Hd, Hp. lia.
Qed.

Lemma map_anon_correct root s lv v n flags : owned s root lv → 0 ≤ v → v mod 4096 = 0 → 0 ≤ n → v + n * 4096 ≤ VA_END →
  user flags = true → 4 * n ≤ Pmm.free_pages (mpmm s) →
  ∃ s' lv', Paging.map_anon root v (n * 4096) flags s = (Ok tt, s') ∧ owned s' root lv' ∧
    Pmm.free_pages (mpmm s) - 4 * n ≤ Pmm.free_pages (mpmm s') ∧
    ∀ x, 0 ≤ x < VA_END →
      user_byte (mem s') root x = (if within v (n * 4096) x then Some 0 else user_byte (mem s) root x) ∧
      user_perm s' root x = (if within v (n * 4096) x then Some (writable flags, executable flags) else user_perm s root x).
Proof.
  intros Ho Hv Ha Hn Hend Hu Hfree. assert (VA_END = 2 ^ 48) as HV by done.
  destruct (map_anon_loop root v flags (Z.to_nat n) 0 s lv) as (s' & lv' & E & H); [done|lia..|done|lia|].
  rewrite !Z2Nat.id in * by lia. rewrite Z.mul_0_l, Z.add_0_r in H. exists s', lv'. split; [|exact H].
  unfold Paging.map_anon, pages_of, Pmm.PAGE_SIZE. rewrite add64_small by lia. cbn [mbind option_bind].
  replace ((n * 4096 + 4096 - 1) / 4096) with n by lia. exact E.
Qed.

(** Writing into a mapped frame keeps the mappings. *)
Lemma write_frame s root lv v e data : owned s root lv → pte_of s root v = Some e → 0 ≤ v →
  v mod 4096 + Z.of_nat (length data) ≤ 4096 →
  let s' := set_mem (wr_bytes (mem s) (pte_addr e + v mod 4096) data) s in
  owned s' root lv ∧ (∀ x, pte_of s' root x = pte_of s root x) ∧
  ∀ x, 0 ≤ x → vpage x = vpage v → x / 4096 = v / 4096 →
    user_byte (mem s') root x =
    if within v (Z.of_nat (length data)) x then data !! Z.to_nat (x - v) else user_byte (mem s) root x.
Proof.
  intros Ho He Hv Hlen s'. destruct (own_frame _ _ _ Ho v e He) as (q & Ea & Hq & Hu & Hn).
  assert (∀ x, ¬ (q * 4096 ≤ x < q * 4096 + 4096) → mem s' x = mem s x) as Hout.
  { intros x Hx. cbn [s' mem set_mem]. unfold wr_bytes. rewrite bool_decide_eq_false_2; [done|]. rewrite Ea. lia. }
  assert (∀ x, in_table lv x → mem s' x = mem s x) as Htab.
  { intros x Hx. apply Hout. intros Hd. by eapply (in_table_page s root lv q x (own_tree _ _ _ Ho)). }
  assert (∀ x, pte_of s' root x = pte_of s root x) as Hpte.
  { intros x. unfold s', set_mem. eapply pte_of_ext; [apply Ho|exact Htab]. }
  split; [|split; [exact Hpte|]].
  - destruct Ho as [Ht Of Oi]. constructor.
    + apply (tree_frame _ _ s); [done|apply (tree_pmm _ _ _ Ht)| |exact Htab]. intros p H0 [l Hl].
      destruct (tree_page _ _ _ Ht _ _ Hl) as (q' & E' & _ & Hu'). by replace p with q' by lia.
    + intros x e'. rewrite Hpte. apply Of.
    + intros x x' e1 e2. rewrite !Hpte. apply Oi.
  - intros x Hx Hvp Hpg. rewrite !byte_pte, Hpte. replace (pte_of s root x) with (Some e).
    2:{ rewrite <- He. apply vpage_indices in Hvp as [E1 E2]. unfold pte_of. by rewrite E1, E2. }
    cbn. unfold wr_bytes. destruct (within v _ x) eqn:W; [apply within_spec in W|apply within_false in W].
    + rewrite bool_decide_eq_true_2 by lia. replace (pte_addr e + x mod 4096 - (pte_addr e + v mod 4096)) with (x - v) by lia.
      destruct (lookup_lt_is_Some_2 data (Z.to_nat (x - v))) as [b Hb]; [lia|]. by rewrite Hb.
    + rewrite bool_decide_eq_false_2 by lia. done.
Qed.

(** A frame that is not written keeps its bytes. *)
Lemma write_other s root lv v e data x : owned s root lv → pte_of s root v = Some e →
  v mod 4096 + Z.of_nat (length data) ≤ 4096 → vpage x ≠ vpage v →
  let s' := set_mem (wr_bytes (mem s) (pte_addr e + v mod 4096) data) s in
  (∀ y, pte_of s' root y = pte_of s root y) → user_byte (mem s') root x = user_byte (mem s) root x.
Proof.
  intros Ho He Hlen Hne s' Hpte. rewrite !byte_pte, Hpte. destruct (pte_of s root x) as [e'|] eqn:Ee'; [|done]. cbn. f_equal.
  destruct (own_frame _ _ _ Ho v e He) as (q & Ea & _). destruct (own_frame _ _ _ Ho x e' Ee') as (q' & Ea' & _).
  unfold wr_bytes. rewrite bool_decide_eq_false_2; [done|]. intros Hd. apply Hne. eapply (own_inj _ _ _ Ho); [done|done|].
  rewrite Ea, Ea' in *. assert (q = q') as -> by lia. done.
Qed.

Lemma copy_loop root fuel : ∀ s lv v data, owned s root lv → (length data ≤ fuel)%nat → 0 ≤ v →
  v + Z.of_nat (length data) ≤ VA_END →
  (∀ x, v ≤ x < v + Z.of_nat (length data) → is_Some (user_byte (mem s) root x)) →
  ∃ s', Paging.copy_to_user_loop fuel root v data s = (Ok tt, s') ∧ owned s' root lv ∧ mpmm s' = mpmm s ∧
    (∀ x, pte_of s' root x = pte_of s root x) ∧
    ∀ x, 0 ≤ x < VA_END → user_byte (mem s') root x =
      if within v (Z.of_nat (length data)) x then data !! Z.to_nat (x - v) else user_byte (mem s) root x.
Proof.
  induction fuel as [|fuel IH]; intros s lv v data Ho Hlen Hv Hend Hmap; assert (VA_END = 2 ^ 48) as HV by done.
  { destruct data; [|cbn in Hlen; lia]. exists s. do 4 (split; [done|]). intros x Hx.
    by rewrite (proj2 (within_false _ _ _)) by (cbn; lia). }
  destruct data as [|b data']; [|set (data := b :: data') in *].
  { exists s. do 4 (split; [done|]). intros x Hx. by rewrite (proj2 (within_false _ _ _)) by (cbn; lia). }
  assert (0 < length data)%nat as Hpos by (cbn; lia).
  change (Paging.copy_to_user_loop (S fuel) root v data) with (
    let! uaddr := or_panic (add64 v 0) in
    let page_offset := Z.land uaddr 0xFFF in
    let chunk := Z.min (Pmm.PAGE_SIZE - page_offset) (Z.of_nat (length data)) in
    let! s := get in
    let! phys := ok_or (translate (mem s) root uaddr) err_unit in
    put (set_mem (wr_bytes (mem s) phys (take (Z.to_nat chunk) data)) s) ;;;
    Paging.copy_to_user_loop fuel root (uaddr + chunk) (drop (Z.to_nat chunk) data)).
  rewrite add64_small, Z.add_0_r by lia. kstep. rewrite land_fff. unfold Pmm.PAGE_SIZE.
  set (chunk := Z.min (4096 - v mod 4096) (Z.of_nat (length data))). assert (0 < chunk ≤ Z.of_nat (length data)) as Hc by lia.
  destruct (Hmap v) as [b0 Hb0]; [lia|]. rewrite byte_pte in Hb0. apply fmap_Some in Hb0 as (e & He & _).
  assert (translate (mem s) root v = Some (pte_addr e + v mod 4096)) as ->.
  { rewrite (translate_pte (mem s) (mpmm s)). change (pte_of (mkMach _ _) root v) with (pte_of s root v). rewrite He. cbn.
    f_equal. rewrite land_fff. apply lor_page_offset; [apply pte_addr_aligned|lia]. }
  kstep. set (part := take (Z.to_nat chunk) data).
  assert (Z.of_nat (length part) = chunk) as Hpl by (unfold part; rewrite length_take; lia).
  destruct (write_frame s root lv v e part Ho He Hv) as (Ho1 & Hpte1 & Hin); [lia|].
  pose proof (λ x H, write_other s root lv v e part x Ho He ltac:(lia) H Hpte1) as Hout. cbv zeta in Hout.
  set (s1 := set_mem _ s) in *. rewrite Hpl in Hin.
  assert (∀ x, 0 ≤ x < VA_END → user_byte (mem s1) root x =
    if within v chunk x then data !! Z.to_nat (x - v) else user_byte (mem s) root x) as Hb1.
  { intros x Hx. destruct (decide (vpage x = vpage v)) as [Hp|Hp].
    - assert (x / 4096 = v / 4096) as Hpg by (apply (vpage_small x v); (done || lia)). rewrite Hin by (done || lia).
      destruct (within v chunk x) eqn:W; [|done]. apply within_spec in W. unfold part. by rewrite lookup_take_lt by lia.
    - rewrite Hout by done. rewrite (proj2 (within_false _ _ _)); [done|]. intros W. apply Hp, vpage_small; [lia|lia|].
      unfold chunk in W. lia. }
  set (rest := drop (Z.to_nat chunk) data). assert (Z.of_nat (length rest) = Z.of_nat (length data) - chunk) as Hrl
    by (unfold rest; rewrite length_drop; lia).
  destruct (IH s1 lv (v + chunk) rest Ho1) as (s' & E & Ho' & Hp' & Hpte' & H'); [lia..| |].
  { intros x Hx. rewrite Hb1 by lia. rewrite (proj2 (within_false _ _ _)) by lia. apply Hmap. lia. }
  exists s'. split; [exact E|]. split; [done|]. split; [by rewrite Hp'|]. split; [intros x; by rewrite Hpte', Hpte1|].
  intros x Hx. rewrite H', Hb1, Hrl by done.
  destruct (within (v + chunk) _ x) eqn:W1; [apply within_spec in W1|apply within_false in W1].
  - rewrite (proj2 (within_spec _ _ _)) by lia. unfold rest. rewrite lookup_drop. f_equal. lia.
  - destruct (within v chunk x) eqn:W2; [apply within_spec in W2|apply within_false in W2].
    + by rewrite (proj2 (within_spec _ _ _)) by lia.
    + by rewrite (proj2 (within_false _ _ _)) by lia.
Qed.

#[local] Obligation Tactic := idtac.
#[export] Program Instance aspace_laws (root : Z) : PageTableLaws (address_space root) := {|
  pt_ok s := ∃ lv, owned s root lv;
  pt_byte s x := user_byte (mem s) root x;
  pt_perm s x := user_perm s root x;
  pt_room s := Pmm.free_pages (mpmm s) |}.
Next Obligation.
  intros root s v n flags [lv Ho] Hv Ha Hn Hend Hu Hfree.
  destruct (map_anon_correct root s lv v n flags) as (s' & lv' & E & Ho' & H); [done..|]. exists s'. eauto.
Qed.
Next Obligation.
  intros root s v data [lv Ho] Hv Hend Hmap.
  destruct (copy_loop root (length data) s lv v data) as (s' & E & Ho' & Hp & Hpte & H); [done..|].
  exists s'. split; [exact E|]. split; [eauto|]. split; [by rewrite Hp|]. intros x Hx. split; [by apply H|].
  unfold user_perm. by rewrite Hpte.
Qed.
