(* ===== verification/Elf.v ===== *)
(** * The ELF loader ([sched/elf.rs])

    [load_elf] maps the segments of an image and its interpreter into a new
    address space; [setup_user_stack] builds the stack a program starts with.
    Both work on a [PageTable] object, and are verified against its laws.

    The structures [Header] and [ProgramHeader] and their layout belong to the
    crate goblin: they are the class [Goblin] here, with the ELF-64 layout as the
    instance the examples use.  The program header table is read through a raw
    pointer: a read outside the image is undefined, which is [Panic] here.  Error
    messages are numbers. *)

From S2P Require Import Prelude.
From S2P Require Import Path.
From S2P Require Import Pmm.
From S2P Require Import Paging.
From S2P Require Import Kernel.
From S2P Require Import Aspace.

(** ** Image structures *)

Record Header := mkHeader {
  e_ident : list Z; e_type : Z; e_machine : Z; e_entry : Z; e_phoff : Z; e_phentsize : Z; e_phnum : Z }.

Record ProgramHeader := mkPhdr {
  p_type : Z; p_flags : Z; p_offset : Z; p_vaddr : Z; p_filesz : Z; p_memsz : Z }.

Class Goblin := {
  size_of_Header : nat;
  as_Header : list Z → Header;
  size_of_ProgramHeader : nat;
  as_ProgramHeader : list Z → ProgramHeader }.

(** Constants of the ELF format. *)
Definition ET_DYN : Z := 3.
Definition PT_LOAD : Z := 1.
Definition PT_INTERP : Z := 3.
Definition PT_PHDR : Z := 6.
Definition PF_X : Z := 1.
Definition PF_W : Z := 2.
Definition PF_R : Z := 4.

Definition ELF_MAGIC : list Z := [0x7f; 69; 76; 70].
Definition ELF_MACHINE : Z := 183.
Definition USER_STACK_TOP : Z := 0x00007FFFFFFF0000.
Definition STACK_SIZE : Z := 8 * 1024 * 1024.
Definition PIE_BASE : Z := 0x400000.
Definition LD_BASE : Z := 0x0000005000000000.

Definition AT_NULL : Z := 0.
Definition AT_PHDR : Z := 3.
Definition AT_PHENT : Z := 4.
Definition AT_PHNUM : Z := 5.
Definition AT_PAGESZ : Z := 6.
Definition AT_BASE : Z := 7.
Definition AT_ENTRY : Z := 9.
Definition AT_UID : Z := 11.
Definition AT_EUID : Z := 12.
Definition AT_GID : Z := 13.
Definition AT_EGID : Z := 14.
Definition AT_RANDOM : Z := 25.

(** The messages of [Result<_, &'static str>]. *)
Definition E_TOO_SMALL : Z := 1201.
Definition E_BAD_MAGIC : Z := 1202.
Definition E_NOT_ELF64 : Z := 1203.
Definition E_WRONG_ARCH : Z := 1204.
Definition E_MAP_SEGMENT : Z := 1205.
Definition E_COPY_SEGMENT : Z := 1206.
Definition E_MAP_STACK : Z := 1207.
Definition E_STACK_WRITE : Z := 1208.

Record ElfLoadResult := mkLoad {
  entry : Z; interp_base : Z; phdr_addr : Z; phent : Z; phnum : Z; exe_entry : Z; stack_top : Z; brk_start : Z }.

(** [&data[a..a + n]] *)
Definition slice (data : list Z) (a n : Z) : option (list Z) :=
  if (0 <=? a) && (0 <=? n) && (a + n <=? Z.of_nat (length data)) then Some (take (Z.to_nat n) (drop (Z.to_nat a) data)) else None.

Definition phdr_to_pageflags (f : Z) : PageAttr := mkAttr (has f PF_R) (has f PF_W) (has f PF_X) true false.

Definition page_down (v : Z) : Z := Z.land v (not64 (4096 - 1)).

Section Parse.
Context `{Goblin}.

Definition header_of (data : list Z) : Header := as_Header (take size_of_Header data).

(** [from_raw_parts(data.as_ptr().add(e_phoff), e_phnum)] *)
Definition phdr_at (data : list Z) (off i : Z) : option ProgramHeader :=
  as_ProgramHeader <$> slice data (off + i * Z.of_nat size_of_ProgramHeader) (Z.of_nat size_of_ProgramHeader).
Definition phdrs_of (data : list Z) (h : Header) : option (list ProgramHeader) :=
  mapM (phdr_at data (e_phoff h)) (seqZ 0 (e_phnum h)).
End Parse.

(** The interpreter's path: the last usable PT_INTERP; [None] is the overflow of
    [start + p_filesz]. *)
Fixpoint find_interp (data : list Z) (l : list ProgramHeader) (acc : option (list Z)) : option (option (list Z)) :=
  match l with
  | [] => Some acc
  | ph :: l' =>
      if p_type ph =? PT_INTERP then
        _ ← add64 (p_offset ph) (p_filesz ph);
        find_interp data l'
          (match slice data (p_offset ph) (p_filesz ph) with
           | Some bytes => if utf8_valid (until_nul bytes) then Some (until_nul bytes) else acc
           | None => acc
           end)
      else find_interp data l' acc
  end.

Definition min_vaddr (l : list ProgramHeader) : Z :=
  foldl (λ m ph, if (p_type ph =? PT_LOAD) && (p_vaddr ph <? m) then p_vaddr ph else m) u64_max l.

(** ** Loading *)

Section Load.
Context `{Goblin} {St : Type} (pt : PageTable St).

(** One PT_LOAD segment; its end address. *)
Definition load_segment (data : list Z) (bias : Z) (ph : ProgramHeader) : M St Z :=
  let! vaddr := or_panic (add64 (p_vaddr ph) bias) in
  let aligned_start := page_down vaddr in
  let! seg_end := or_panic (add64 vaddr (p_memsz ph)) in
  let! aligned_end := or_panic (align_up seg_end) in
  map_err (map_anon pt aligned_start (aligned_end - aligned_start) (phdr_to_pageflags (p_flags ph))) E_MAP_SEGMENT ;;;
  when (0 <? p_filesz ph)
    (let! _ := or_panic (add64 (p_offset ph) (p_filesz ph)) in
     let! file_data := or_panic (slice data (p_offset ph) (p_filesz ph)) in
     map_err (copy_to_user pt vaddr file_data) E_COPY_SEGMENT) ;;;
  ret seg_end.

(** The loop over the program headers, with [brk_end] and [phdr_addr]. *)
Fixpoint load_segments (data : list Z) (bias : Z) (l : list ProgramHeader) (brk_end phdr_addr : Z) : M St (Z * Z) :=
  match l with
  | [] => ret (brk_end, phdr_addr)
  | ph :: l' =>
      let! brk_end :=
        (if p_type ph =? PT_LOAD
         then let! seg_end := load_segment data bias ph in ret (if brk_end <? seg_end then seg_end else brk_end)
         else ret brk_end) in
      let! phdr_addr := (if p_type ph =? PT_PHDR then or_panic (add64 (p_vaddr ph) bias) else ret phdr_addr) in
      load_segments data bias l' brk_end phdr_addr
  end.

Definition load_interp (data : list Z) (base : Z) : M St Z :=
  if bool_decide (length data < size_of_Header)%nat then fail E_TOO_SMALL else
  let ehdr := header_of data in
  if negb (bool_decide (take 4 (e_ident ehdr) = ELF_MAGIC)) then fail E_BAD_MAGIC else
  let! phdrs := or_panic (phdrs_of data ehdr) in
  let! bias := or_panic (sub64 base (page_down (min_vaddr phdrs))) in
  for_each phdrs (λ ph, when (p_type ph =? PT_LOAD) (let! _ := load_segment data bias ph in ret tt)) ;;;
  or_panic (add64 (e_entry ehdr) bias).

(** [vfs_data] is the contents of the file [vfs::resolve_path] finds, [ext4_data]
    is [ext4::read_file]. *)
Definition load_elf (vfs_data ext4_data : list Z → M St (list Z)) (data : list Z) : M St ElfLoadResult :=
  if bool_decide (length data < size_of_Header)%nat then fail E_TOO_SMALL else
  let ehdr := header_of data in
  if negb (bool_decide (take 4 (e_ident ehdr) = ELF_MAGIC)) then fail E_BAD_MAGIC else
  if negb (bool_decide (e_ident ehdr !! 4%nat = Some 2)) then fail E_NOT_ELF64 else
  if negb (e_machine ehdr =? ELF_MACHINE) then fail E_WRONG_ARCH else
  let load_bias := if e_type ehdr =? ET_DYN then PIE_BASE else 0 in
  let! phdrs := or_panic (phdrs_of data ehdr) in
  let! interp_path := or_panic (find_interp data phdrs None) in
  let! (brk_end, phdr_addr) := load_segments data load_bias phdrs 0 0 in
  let! phdr_addr := (if phdr_addr =? 0 then or_panic (add64 load_bias (e_phoff ehdr)) else ret phdr_addr) in
  let! brk_start := or_panic (align_up brk_end) in
  map_err (map_anon pt (USER_STACK_TOP - STACK_SIZE) STACK_SIZE USER_RW) E_MAP_STACK ;;;
  let! exe_entry := or_panic (add64 (e_entry ehdr) load_bias) in
  let! (interp_base, final_entry) :=
    match interp_path with
    | None => ret (0, exe_entry)
    | Some path =>
        let! r := try (vfs_data path) in
        match r with
        | inl [] => ret (0, exe_entry)
        | inl d => let! e := load_interp d LD_BASE in ret (LD_BASE, e)
        | inr _ =>
            let! r := try (ext4_data path) in
            match r with
            | inl d => let! e := load_interp d LD_BASE in ret (LD_BASE, e)
            | inr _ => ret (0, exe_entry)
            end
        end
    end in
  ret (mkLoad final_entry interp_base phdr_addr (e_phentsize ehdr) (e_phnum ehdr) exe_entry USER_STACK_TOP brk_start).

(** ** The initial stack *)

(** The sixteen bytes of AT_RANDOM from the counter. *)
Fixpoint random_bytes (n : nat) (seed : Z) : list Z :=
  match n with
  | O => []
  | S n' => let seed := wrapping_add (wrapping_mul seed 6364136223846793005) 1 in
            Z.shiftr seed 33 mod 256 :: random_bytes n' seed
  end.

Definition push_u64 (sp v : Z) : M St Z :=
  let! sp := or_panic (sub64 sp 8) in
  map_err (copy_to_user pt sp (to_le 8 v)) E_STACK_WRITE ;;; ret sp.

Fixpoint push_all (sp : Z) (vs : list Z) : M St Z :=
  match vs with [] => ret sp | v :: vs' => let! sp := push_u64 sp v in push_all sp vs' end.

(** The strings of [l] below [sp], the first one highest: their addresses. *)
Fixpoint push_strings (sp : Z) (l : list (list Z)) : M St (list Z * Z) :=
  match l with
  | [] => ret ([], sp)
  | s :: l' =>
      let! sp := or_panic (sub64 sp (Z.of_nat (length s) + 1)) in
      let sp := Z.land sp (not64 0x7) in
      map_err (copy_to_user pt sp (s ++ [0])) E_STACK_WRITE ;;;
      let! (ptrs, sp') := push_strings sp l' in ret (sp :: ptrs, sp')
  end.

(** The auxiliary vector in the order of the pushes; [creds] are the ids of
    [current_creds]. *)
Definition auxv (r : ElfLoadResult) (random_addr : Z) (creds : Z * Z * Z * Z) : list (Z * Z) :=
  let '(uid, gid, euid, egid) := creds in
  [(AT_NULL, 0); (AT_RANDOM, random_addr); (AT_PAGESZ, 4096); (AT_PHDR, phdr_addr r); (AT_PHENT, phent r); (AT_PHNUM, phnum r);
   (AT_ENTRY, exe_entry r); (AT_BASE, interp_base r); (AT_UID, uid); (AT_EUID, euid); (AT_GID, gid); (AT_EGID, egid)].

Definition push_order (l : list (Z * Z)) : list Z := concat ((λ e, [e.2; e.1]) <$> l).

Definition setup_user_stack (counter : Z) (creds : Z * Z * Z * Z) (top : Z) (argv envp : list (list Z)) (r : ElfLoadResult) : M St Z :=
  let sp := Z.land top (not64 0xF) in
  let! random_addr := or_panic (sub64 sp 16) in
  map_err (copy_to_user pt random_addr (random_bytes 16 counter)) E_STACK_WRITE ;;;
  let! (env_ptrs, sp) := push_strings random_addr (reverse envp) in
  let env_ptrs := reverse env_ptrs in
  let! (arg_ptrs, sp) := push_strings sp (reverse argv) in
  let arg_ptrs := reverse arg_ptrs in
  let sp := Z.land sp (not64 0xF) in
  let total_items := (1 + length arg_ptrs + 1 + length env_ptrs + 1 + 2 * 12 + 2)%nat in
  let! sp := (if Nat.even total_items then ret sp else or_panic (sub64 sp 8)) in
  let! sp := push_all sp (push_order (auxv r random_addr creds)) in
  let! sp := push_u64 sp 0 in
  let! sp := push_all sp (reverse env_ptrs) in
  let! sp := push_u64 sp 0 in
  let! sp := push_all sp (reverse arg_ptrs) in
  push_u64 sp (Z.of_nat (length argv)).
End Load.

(** ** What loading does *)

Lemma page_down_spec v : u64_ok v → page_down v = v - v mod 4096.
Proof. intros Hv. apply (land_align_down v 12); [done|lia]. Qed.

Lemma align_up_value v : 0 ≤ v → v + 4096 < 2 ^ 64 → align_up v = Some ((v + 4095) / 4096 * 4096).
Proof.
  intros Hv Hb. unfold align_up. rewrite add64_small by done. cbn. f_equal.
  change 4095 with (2 ^ 12 - 1) at 1. rewrite land_align_down by (unfold u64_ok; lia). change (2 ^ 12) with 4096. lia.
Qed.

Lemma slice_Some data a n : 0 ≤ a → 0 ≤ n → a + n ≤ Z.of_nat (length data) →
  slice data a n = Some (take (Z.to_nat n) (drop (Z.to_nat a) data)).
Proof. intros. unfold slice. by rewrite !(proj2 (Z.leb_le _ _)) by lia. Qed.

Lemma map_err_ok {S A} (m : M S A) e s a s' : m s = (Ok a, s') → map_err m e s = (Ok a, s').
Proof. intros E. unfold map_err. by rewrite E. Qed.

(** The pages of a segment and what is in them. *)
Section Segment.
Context (data : list Z) (bias : Z).

Definition seg_start (ph : ProgramHeader) : Z := p_vaddr ph + bias.
Definition seg_end (ph : ProgramHeader) : Z := p_vaddr ph + bias + p_memsz ph.
Definition seg_lo (ph : ProgramHeader) : Z := seg_start ph / 4096 * 4096.
Definition seg_hi (ph : ProgramHeader) : Z := (seg_end ph + 4095) / 4096 * 4096.
Definition seg_pages (ph : ProgramHeader) : Z := (seg_hi ph - seg_lo ph) / 4096.
Definition in_seg (ph : ProgramHeader) (x : Z) : bool := within (seg_lo ph) (seg_hi ph - seg_lo ph) x.

Definition seg_byte (ph : ProgramHeader) (x : Z) : Z :=
  if within (seg_start ph) (p_filesz ph) x then default 0 (data !! Z.to_nat (p_offset ph + (x - seg_start ph))) else 0.
Definition seg_perm (ph : ProgramHeader) : bool * bool := (has (p_flags ph) PF_W, has (p_flags ph) PF_X).

Record seg_ok (ph : ProgramHeader) : Prop := {
  ok_vaddr : 0 ≤ p_vaddr ph; ok_offset : 0 ≤ p_offset ph; ok_filesz : 0 ≤ p_filesz ph ≤ p_memsz ph;
  ok_file : p_offset ph + p_filesz ph ≤ Z.of_nat (length data); ok_end : seg_end ph + 4096 ≤ VA_END }.

Definition is_load (ph : ProgramHeader) : bool := p_type ph =? PT_LOAD.

(** Segments in increasing order that share no page. *)
Fixpoint layout (lo : Z) (l : list ProgramHeader) : Prop :=
  match l with
  | [] => True
  | ph :: l' => if is_load ph then lo ≤ seg_lo ph ∧ layout (seg_hi ph) l' else layout lo l'
  end.

Fixpoint total_pages (l : list ProgramHeader) : Z :=
  match l with [] => 0 | ph :: l' => (if is_load ph then seg_pages ph else 0) + total_pages l' end.

Definition brk_of (l : list ProgramHeader) (b : Z) : Z :=
  foldl (λ b ph, if is_load ph then Z.max b (seg_end ph) else b) b l.
Definition phdr_of (l : list ProgramHeader) (a : Z) : Z :=
  foldl (λ a ph, if p_type ph =? PT_PHDR then p_vaddr ph + bias else a) a l.

Lemma seg_pages_range ph : seg_lo ph + seg_pages ph * 4096 = seg_hi ph.
Proof. unfold seg_pages, seg_hi, seg_lo. lia. Qed.
End Segment.

Section LoadSpec.
Context `{Goblin} {St : Type} (pt : PageTable St) {laws : PageTableLaws pt}.
Context (data : list Z) (bias : Z) (Hbias : 0 ≤ bias) (Hdata : Z.of_nat (length data) < 2 ^ 63).

Lemma load_segment_spec s ph : pt_ok s → seg_ok data bias ph → 4 * seg_pages bias ph ≤ pt_room s →
  ∃ s', load_segment pt data bias ph s = (Ok (seg_end bias ph), s') ∧ pt_ok s' ∧ pt_room s - 4 * seg_pages bias ph ≤ pt_room s' ∧
    ∀ x, 0 ≤ x < VA_END →
      pt_byte s' x = (if in_seg bias ph x then Some (seg_byte data bias ph x) else pt_byte s x) ∧
      pt_perm s' x = (if in_seg bias ph x then Some (seg_perm ph) else pt_perm s x).
Proof using Hbias Hdata.
  intros Hok [Hv Ho Hf Hfile Hend] Hroom. unfold seg_end in Hend. assert (VA_END = 2 ^ 48) as HV by done.
  pose proof (seg_pages_range bias ph) as Hpg. unfold load_segment.
  rewrite add64_small by lia. kstep. rewrite add64_small by lia. kstep. rewrite align_up_value by lia. kstep.
  rewrite page_down_spec by (unfold u64_ok; lia). fold (seg_end bias ph) (seg_hi bias ph).
  replace (p_vaddr ph + bias - (p_vaddr ph + bias) mod 4096) with (seg_lo bias ph) by (unfold seg_lo, seg_start; lia).
  assert (0 ≤ seg_pages bias ph) as Hn by (unfold seg_pages, seg_hi, seg_lo, seg_end, seg_start; lia).
  assert (seg_lo bias ph ≤ seg_start bias ph ∧ seg_end bias ph ≤ seg_hi bias ph < seg_end bias ph + 4096) as Hr
    by (unfold seg_hi, seg_lo; lia). unfold seg_start in Hr.
  destruct (pt_map_ok s (seg_lo bias ph) (seg_pages bias ph) (phdr_to_pageflags (p_flags ph))) as (s1 & E1 & Hok1 & Hr1 & H1);
    [done|unfold seg_lo, seg_start; lia|unfold seg_lo; lia|done|unfold seg_end in *; lia|done|done|].
  replace (seg_pages bias ph * 4096) with (seg_hi bias ph - seg_lo bias ph) in * by lia.
  rewrite (bind_ok _ _ _ _ _ (map_err_ok _ _ _ _ _ E1)).
  destruct (Z.ltb_spec 0 (p_filesz ph)) as [Hpos|Hzero]; kstep.
  - rewrite add64_small by lia. kstep. rewrite slice_Some by lia. kstep.
    set (part := take _ _). assert (Z.of_nat (length part) = p_filesz ph) as Hpl
      by (unfold part; rewrite length_take, length_drop; lia).
    destruct (pt_copy_ok s1 (p_vaddr ph + bias) part) as (s2 & E2 & Hok2 & Hr2 & H2); [done|lia|lia| |].
    { intros x Hx. destruct (H1 x) as [-> _]; [lia|]. rewrite (proj2 (within_spec _ _ _)) by (unfold seg_end in *; lia). done. }
    rewrite (bind_ok _ _ _ _ _ (map_err_ok _ _ _ _ _ E2)). exists s2. split; [done|]. split; [done|]. split; [lia|].
    intros x Hx. destruct (H2 x Hx) as [-> ->]. destruct (H1 x Hx) as [-> ->]. split; [|done].
    rewrite Hpl. unfold seg_byte, in_seg. fold (seg_start bias ph).
    destruct (within (seg_start bias ph) (p_filesz ph) x) eqn:W; [|done]. apply within_spec in W.
    rewrite (proj2 (within_spec (seg_lo bias ph) _ _)) by (unfold seg_start, seg_end in *; lia).
    unfold part. rewrite lookup_take_lt, lookup_drop by lia.
    replace (Z.to_nat (p_offset ph) + Z.to_nat (x - seg_start bias ph))%nat
      with (Z.to_nat (p_offset ph + (x - seg_start bias ph))) by lia.
    destruct (lookup_lt_is_Some_2 data (Z.to_nat (p_offset ph + (x - seg_start bias ph)))) as [b Hb]; [lia|]. by rewrite Hb.
  - exists s1. split; [done|]. split; [done|]. split; [lia|]. intros x Hx. destruct (H1 x Hx) as [-> ->]. split; [|done].
    unfold seg_byte, in_seg. by rewrite (proj2 (within_false (seg_start bias ph) _ _)) by lia.
Qed.

Lemma layout_above lo l ph : layout bias lo l → Forall (seg_ok data bias) (filter (λ ph, is_load ph = true) l) →
  ph ∈ l → is_load ph = true → lo ≤ seg_lo bias ph.
Proof using Hbias.
  revert lo. induction l as [|p l IH]; intros lo Hl Hok Hin Hld; [by apply not_elem_of_nil in Hin|]. cbn [layout] in Hl.
  destruct (is_load p) eqn:Ep.
  - rewrite filter_cons_True in Hok by done. apply Forall_cons in Hok as [Hp Hok]. destruct Hl as [Hlo Hl].
    apply elem_of_cons in Hin as [->|Hin]; [done|]. pose proof (IH _ Hl Hok Hin Hld).
    destruct Hp as [? ? ? ? ?]. unfold seg_hi, seg_lo, seg_end, seg_start in *. lia.
  - rewrite filter_cons_False in Hok by (by rewrite Ep). apply elem_of_cons in Hin as [->|Hin]; [congruence|]. by apply IH.
Qed.

Lemma seg_pages_nonneg ph : seg_ok data bias ph → 0 ≤ seg_pages bias ph.
Proof using Hbias. intros [? ? ? ? ?]. unfold seg_pages, seg_hi, seg_lo, seg_end, seg_start in *. lia. Qed.

Lemma total_pages_nonneg l : Forall (seg_ok data bias) (filter (λ ph, is_load ph = true) l) → 0 ≤ total_pages bias l.
Proof using Hbias.
  induction l as [|p l IH]; cbn [total_pages]; [done|]. destruct (is_load p) eqn:E.
  - rewrite filter_cons_True by done. intros [Hp Hl]%Forall_cons. pose proof (seg_pages_nonneg p Hp). specialize (IH Hl). lia.
  - rewrite filter_cons_False by (by rewrite E). intros Hl. specialize (IH Hl). lia.
Qed.

Lemma load_segments_spec l : ∀ lo b a s, pt_ok s → Forall (seg_ok data bias) (filter (λ ph, is_load ph = true) l) → layout bias lo l →
  Forall (λ ph, p_type ph = PT_PHDR → p_vaddr ph + bias < 2 ^ 64) l → 4 * total_pages bias l ≤ pt_room s →
  ∃ s', load_segments pt data bias l b a s = (Ok (brk_of bias l b, phdr_of bias l a), s') ∧ pt_ok s' ∧
    pt_room s - 4 * total_pages bias l ≤ pt_room s' ∧
    (∀ x, 0 ≤ x < VA_END → (∀ ph, ph ∈ l → is_load ph = true → in_seg bias ph x = false) →
       pt_byte s' x = pt_byte s x ∧ pt_perm s' x = pt_perm s x) ∧
    (∀ ph x, ph ∈ l → is_load ph = true → 0 ≤ x < VA_END → in_seg bias ph x = true →
       pt_byte s' x = Some (seg_byte data bias ph x) ∧ pt_perm s' x = Some (seg_perm ph)).
Proof using Hbias Hdata.
  induction l as [|ph l IH]; intros lo b a s Hok Hseg Hlay Hphdr Hroom; cbn [load_segments total_pages layout] in *.
  { exists s. split; [done|]. split; [done|]. split; [lia|]. split; [done|]. by intros ph x ?%not_elem_of_nil. }
  apply Forall_cons in Hphdr as [Hp Hphdr]. unfold brk_of, phdr_of. cbn [foldl]. fold (is_load ph).
  destruct (p_type ph =? PT_PHDR) eqn:Et.
  - apply Z.eqb_eq in Et. assert (is_load ph = false) as El by (unfold is_load; by rewrite Et). rewrite El in *.
    rewrite filter_cons_False in Hseg by (by rewrite El). kstep. rewrite add64_small by auto. kstep.
    destruct (IH lo b (p_vaddr ph + bias) s) as (s' & E & Hok' & Hr' & Hout & Hin); [done..|].
    exists s'. do 3 (split; [done|]). split.
    + intros x Hx Hn. apply Hout; [done|]. intros. apply Hn; [by right|done].
    + intros p x [->|Hp']%elem_of_cons Hl; [congruence|]. by apply Hin.
  - destruct (is_load ph) eqn:El.
    + rewrite filter_cons_True in Hseg by done. apply Forall_cons in Hseg as [Hs Hseg]. destruct Hlay as [Hlo Hlay].
      pose proof (total_pages_nonneg l Hseg) as Htl. pose proof (seg_pages_nonneg ph Hs) as Hph.
      destruct (load_segment_spec s ph Hok Hs ltac:(lia)) as (s1 & E1 & Hok1 & Hr1 & H1).
      rewrite !bind_assoc, (bind_ok _ _ _ _ _ E1). kstep.
      replace (if b <? seg_end bias ph then seg_end bias ph else b) with (Z.max b (seg_end bias ph))
        by (destruct (Z.ltb_spec b (seg_end bias ph)); lia).
      destruct (IH (seg_hi bias ph) (Z.max b (seg_end bias ph)) a s1) as (s' & E & Hok' & Hr' & Hout & Hin); [done..|lia|].
      exists s'. do 2 (split; [done|]). split; [lia|]. split.
      * intros x Hx Hn. destruct (Hout x Hx) as [-> ->]; [intros; apply Hn; [by right|done]|].
        destruct (H1 x Hx) as [-> ->]. by rewrite (Hn ph) by (done || left).
      * intros p x [->|Hp']%elem_of_cons Hl Hx Hi; [|by apply Hin].
        destruct (Hout x Hx) as [-> ->]; [|destruct (H1 x Hx) as [-> ->]; by rewrite Hi].
        intros p' Hp' Hl'. pose proof (layout_above _ _ _ Hlay Hseg Hp' Hl'). apply within_false.
        apply within_spec in Hi. lia.
    + rewrite filter_cons_False in Hseg by (by rewrite El). kstep.
      destruct (IH lo b a s) as (s' & E & Hok' & Hr' & Hout & Hin); [done..|].
      exists s'. do 3 (split; [done|]). split.
      * intros x Hx Hn. apply Hout; [done|]. intros. apply Hn; [by right|done].
      * intros p x [->|Hp']%elem_of_cons Hl; [congruence|]. by apply Hin.
Qed.
End LoadSpec.

Lemma find_interp_none data l acc : Forall (λ ph, p_type ph ≠ PT_INTERP) l → find_interp data l acc = Some acc.
Proof. induction 1 as [|ph l Hp _ IH]; cbn [find_interp]; [done|]. by rewrite (proj2 (Z.eqb_neq _ _) Hp). Qed.

Lemma brk_of_max bias l b : b ≤ brk_of bias l b ∧ ∀ ph, ph ∈ l → is_load ph = true → seg_end bias ph ≤ brk_of bias l b.
Proof.
  unfold brk_of. revert b. induction l as [|p l IH]; intros b; cbn [foldl]; [split; [lia|by intros ph ?%not_elem_of_nil]|].
  set (b' := if is_load p then Z.max b (seg_end bias p) else b). destruct (IH b') as [H1 H2].
  assert (b ≤ b') by (unfold b'; destruct (is_load p); lia). split; [lia|].
  intros ph [->|Hin]%elem_of_cons Hl; [|by apply H2]. unfold b' in H1. rewrite Hl in H1. unfold b'. rewrite Hl. lia.
Qed.

Lemma brk_of_bound bias l b m : b ≤ m → (∀ ph, ph ∈ l → is_load ph = true → seg_end bias ph ≤ m) → brk_of bias l b ≤ m.
Proof.
  unfold brk_of. revert b. induction l as [|p l IH]; intros b Hb Hm; cbn [foldl]; [done|]. apply IH.
  - destruct (is_load p) eqn:E; [|done]. pose proof (Hm p ltac:(left) E). lia.
  - intros ph Hp. apply Hm. by right.
Qed.

Lemma phdr_of_ok bias l a : 0 ≤ bias → Forall (λ ph, p_type ph = PT_PHDR → 0 ≤ p_vaddr ph ∧ p_vaddr ph + bias < 2 ^ 64) l →
  u64_ok a → u64_ok (phdr_of bias l a).
Proof.
  intros Hb Hl. revert a. unfold phdr_of. induction Hl as [|ph l Hp _ IH]; intros a Ha; cbn [foldl]; [done|]. apply IH.
  destruct (Z.eqb_spec (p_type ph) PT_PHDR) as [E|]; [|done]. specialize (Hp E). unfold u64_ok. lia.
Qed.

Definition bias_of (h : Header) : Z := if e_type h =? ET_DYN then PIE_BASE else 0.

(** A complete image without interpreter whose segments share no page and end
    below the stack. *)
Record static_image `{Goblin} (data : list Z) (h : Header) (l : list ProgramHeader) : Prop := {
  im_size : (size_of_Header ≤ length data)%nat;
  im_len : Z.of_nat (length data) < 2 ^ 63;
  im_header : header_of data = h;
  im_magic : take 4 (e_ident h) = ELF_MAGIC;
  im_class : e_ident h !! 4%nat = Some 2;
  im_machine : e_machine h = ELF_MACHINE;
  im_phdrs : phdrs_of data h = Some l;
  im_static : Forall (λ ph, p_type ph ≠ PT_INTERP) l;
  im_segs : Forall (seg_ok data (bias_of h)) (filter (λ ph, is_load ph = true) l);
  im_layout : layout (bias_of h) 0 l;
  im_stack : ∀ ph, ph ∈ l → is_load ph = true → seg_hi (bias_of h) ph ≤ USER_STACK_TOP - STACK_SIZE;
  im_phdr : Forall (λ ph, p_type ph = PT_PHDR → 0 ≤ p_vaddr ph ∧ p_vaddr ph + bias_of h < 2 ^ 64) l;
  im_entry : 0 ≤ e_entry h < 2 ^ 63;
  im_phoff : 0 ≤ e_phoff h < 2 ^ 63 }.

(** Where a program finds its headers: at the last PT_PHDR entry, or else at their
    offset in the file. *)
Definition phdr_table (h : Header) (l : list ProgramHeader) : Z :=
  match last (filter (λ ph, p_type ph = PT_PHDR) l) with
  | Some ph => if p_vaddr ph + bias_of h =? 0 then bias_of h + e_phoff h else p_vaddr ph + bias_of h
  | None => bias_of h + e_phoff h
  end.

(** The program break: the first page boundary behind all segments. *)
Definition is_break (bias : Z) (l : list ProgramHeader) (b : Z) : Prop :=
  let above b := 0 ≤ b ∧ b mod 4096 = 0 ∧ ∀ ph, ph ∈ l → p_type ph = PT_LOAD → p_vaddr ph + bias + p_memsz ph ≤ b in
  above b ∧ ∀ b', above b' → b ≤ b'.

(** The auxiliary vector of a program without interpreter, by number. *)
Definition image_auxv (h : Header) (l : list ProgramHeader) (random u g eu eg : Z) : list (Z * Z) :=
  [(14, eg); (13, g); (12, eu); (11, u); (7, 0); (9, e_entry h + bias_of h); (5, e_phnum h); (4, e_phentsize h);
   (3, phdr_table h l); (6, 4096); (25, random); (0, 0)].

Lemma phdr_of_last bias l a : phdr_of bias l a =
  match last (filter (λ ph, p_type ph = PT_PHDR) l) with Some ph => p_vaddr ph + bias | None => a end.
Proof.
  unfold phdr_of. revert a. induction l as [|ph l IH]; intros a; cbn [foldl]; [done|]. rewrite IH. destruct (Z.eqb_spec (p_type ph) PT_PHDR) as [E|E].
  - rewrite filter_cons_True by done. rewrite last_cons. by destruct (last _).
  - by rewrite filter_cons_False.
Qed.

Lemma brk_of_break bias l : is_break bias l ((brk_of bias l 0 + 4095) / 4096 * 4096).
Proof.
  destruct (brk_of_max bias l 0) as [H0 Hm]. split.
  - split; [lia|]. split; [lia|]. intros ph Hp Hl. pose proof (Hm ph Hp (proj2 (Z.eqb_eq _ _) Hl)). unfold seg_end in *. lia.
  - intros b' (Hb & Hal & Hab). assert (brk_of bias l 0 ≤ b'); [|lia]. apply brk_of_bound; [done|].
    intros ph Hp Hl. apply (Hab ph Hp). by apply Z.eqb_eq.
Qed.

(** What a loaded program finds: its segments, zeros after the file part, and an
    empty stack; nothing else has changed. *)
Record loaded {St} {pt : PageTable St} {laws : PageTableLaws pt} (data : list Z) (bias : Z) (l : list ProgramHeader) (s s' : St) : Prop := {
  ld_seg ph x : ph ∈ l → is_load ph = true → 0 ≤ x < VA_END → in_seg bias ph x = true →
    pt_byte s' x = Some (seg_byte data bias ph x) ∧ pt_perm s' x = Some (seg_perm ph);
  ld_stack x : within (USER_STACK_TOP - STACK_SIZE) STACK_SIZE x = true → pt_byte s' x = Some 0 ∧ pt_perm s' x = Some (true, false);
  ld_other x : 0 ≤ x < VA_END → (∀ ph, ph ∈ l → is_load ph = true → in_seg bias ph x = false) →
    within (USER_STACK_TOP - STACK_SIZE) STACK_SIZE x = false → pt_byte s' x = pt_byte s x ∧ pt_perm s' x = pt_perm s x }.

(** The image, for the callers of the loader. *)
Lemma load_elf_spec `{Goblin} {St} (pt : PageTable St) {laws : PageTableLaws pt} vfs_data ext4_data data h l s :
  static_image data h l → pt_ok s → 4 * (total_pages (bias_of h) l + 2048) ≤ pt_room s →
  ∃ r s', load_elf pt vfs_data ext4_data data s = (Ok r, s') ∧ pt_ok s' ∧
    pt_room s - 4 * (total_pages (bias_of h) l + 2048) ≤ pt_room s' ∧ loaded data (bias_of h) l s s' ∧
    entry r = e_entry h + bias_of h ∧ exe_entry r = entry r ∧ interp_base r = 0 ∧ stack_top r = USER_STACK_TOP ∧
    phent r = e_phentsize h ∧ phnum r = e_phnum h ∧ phdr_addr r = phdr_table h l ∧ u64_ok (phdr_addr r) ∧
    is_break (bias_of h) l (brk_start r).
Proof.
  intros [Hsz Hlen Hh Hm Hc Hmach Hph Hst Hseg Hlay Hstk Hphd He Ho] Hok Hroom.
  assert (0 ≤ bias_of h ≤ PIE_BASE) as Hb by (unfold bias_of, PIE_BASE; case_match; lia).
  assert (VA_END = 2 ^ 48) as HV by done. unfold PIE_BASE in Hb.
  assert (Forall (λ ph, p_type ph = PT_PHDR → p_vaddr ph + bias_of h < 2 ^ 64) l) as Hphd'
    by (eapply Forall_impl; [exact Hphd|]; cbn; naive_solver).
  destruct (load_segments_spec pt data (bias_of h) (proj1 Hb) Hlen l 0 0 0 s Hok Hseg Hlay Hphd' ltac:(lia)) as
    (s1 & E1 & Hok1 & Hr1 & Hout & Hin).
  destruct (pt_map_ok s1 (USER_STACK_TOP - STACK_SIZE) 2048 USER_RW) as (s2 & E2 & Hok2 & Hr2 & H2);
    [done|unfold USER_STACK_TOP, STACK_SIZE; lia|reflexivity|lia|unfold USER_STACK_TOP, STACK_SIZE; lia|done|lia|].
  change (2048 * 4096) with STACK_SIZE in *.
  destruct (brk_of_max (bias_of h) l 0) as [Hb0 Hbm].
  assert (brk_of (bias_of h) l 0 ≤ USER_STACK_TOP) as Hbt.
  { apply brk_of_bound; [done|]. intros ph Hp Hl. pose proof (Hstk ph Hp Hl). unfold seg_hi, STACK_SIZE in *. lia. }
  unfold USER_STACK_TOP in Hbt.
  unfold load_elf. rewrite bool_decide_eq_false_2 by lia. rewrite Hh, Hm, Hc, Hmach. rewrite !bool_decide_eq_true_2 by done.
  rewrite Z.eqb_refl. cbn [negb]. fold (bias_of h). rewrite Hph. kstep. rewrite find_interp_none by done. kstep.
  rewrite (bind_ok _ _ _ _ _ E1). cbv beta iota.
  set (pa := phdr_of (bias_of h) l 0).
  assert (∃ pa', (if pa =? 0 then or_panic (add64 (bias_of h) (e_phoff h)) else ret pa) s1 = (Ok pa', s1) ∧ pa' = phdr_table h l ∧ u64_ok pa') as (pa' & Epa & Etab & Hpa).
  { pose proof (phdr_of_ok (bias_of h) l 0 (proj1 Hb) Hphd ltac:(done)) as Hpa.
    assert (phdr_table h l = if pa =? 0 then bias_of h + e_phoff h else pa) as ->.
    { unfold phdr_table, pa. rewrite phdr_of_last. by destruct (last _). }
    destruct (pa =? 0); [|by exists pa]. rewrite add64_small by lia. eexists. split; [done|]. unfold u64_ok. split; [done|lia]. }
  rewrite (bind_ok _ _ _ _ _ Epa). rewrite align_up_value by lia. kstep.
  rewrite (bind_ok _ _ _ _ _ (map_err_ok _ _ _ _ _ E2)). rewrite add64_small by lia. kstep.
  eexists _, s2. split; [reflexivity|]. split; [done|]. split; [lia|]. cbn [entry exe_entry interp_base stack_top brk_start phent phnum phdr_addr].
  split; [|do 8 (split; [done|]); apply brk_of_break].
  constructor.
  - intros ph x Hp Hl Hx Hi. destruct (H2 x Hx) as [-> ->]. rewrite (proj2 (within_false _ _ _)); [by apply Hin|].
    apply within_spec in Hi. pose proof (Hstk ph Hp Hl). lia.
  - intros x W. assert (0 ≤ x < VA_END) as Hx by (apply within_spec in W; unfold USER_STACK_TOP, STACK_SIZE in W; lia).
    destruct (H2 x Hx) as [-> ->]. by rewrite W.
  - intros x Hx Hn W. destruct (H2 x Hx) as [-> ->]. rewrite W. by apply Hout.
Qed.

(** C16. Loading a static executable whose segments are listed in increasing order, no
    two of them in one page, and end below the stack ([static_image]) succeeds when
    memory lasts, and builds the process image the file describes: every byte of
    every segment is the file's (zero beyond its file part) with the segment's
    permissions, the stack is 8 MiB of zeros, writable and not executable, and no
    other address changes; the entry point and the address of the program headers
    are the file's, moved by the load bias, and the program break is the first page
    boundary behind all segments. *)
Theorem load_elf_image `{Goblin} {St} (pt : PageTable St) {laws : PageTableLaws pt} vfs_data ext4_data data h l s :
  static_image data h l → pt_ok s → 4 * (total_pages (bias_of h) l + 2048) ≤ pt_room s →
  ∃ r s', load_elf pt vfs_data ext4_data data s = (Ok r, s') ∧ pt_ok s' ∧
    pt_room s - 4 * (total_pages (bias_of h) l + 2048) ≤ pt_room s' ∧ loaded data (bias_of h) l s s' ∧
    entry r = e_entry h + bias_of h ∧ exe_entry r = entry r ∧ interp_base r = 0 ∧ stack_top r = USER_STACK_TOP ∧
    phent r = e_phentsize h ∧ phnum r = e_phnum h ∧ phdr_addr r = phdr_table h l ∧ u64_ok (phdr_addr r) ∧
    is_break (bias_of h) l (brk_start r).
Proof. apply load_elf_spec. Qed.

(** Two segments that meet inside a page: loading the second maps the page anew,
    and what the first had put there is zero, outside the second's own file
    part. *)
Theorem shared_page_wiped `{Goblin} {St} (pt : PageTable St) {laws : PageTableLaws pt} data bias a b x s :
  0 ≤ bias → Z.of_nat (length data) < 2 ^ 63 → seg_ok data bias a → seg_ok data bias b → pt_ok s →
  4 * (seg_pages bias a + seg_pages bias b) ≤ pt_room s →
  within (seg_start bias a) (p_filesz a) x = true → in_seg bias b x = true → within (seg_start bias b) (p_filesz b) x = false →
  ∃ s', (load_segment pt data bias a ;;; load_segment pt data bias b) s = (Ok (seg_end bias b), s') ∧ pt_byte s' x = Some 0.
Proof.
  intros Hb Hlen Ha Hbs Hok Hroom Hx Hi Hn.
  assert (0 ≤ seg_pages bias a ∧ 0 ≤ seg_pages bias b) as [Hpa Hpb].
  { destruct Ha as [? ? ? ? ?], Hbs as [? ? ? ? ?]. unfold seg_pages, seg_hi, seg_lo, seg_end, seg_start in *. lia. }
  destruct (load_segment_spec pt data bias Hb Hlen s a Hok Ha ltac:(lia)) as (s1 & E1 & Hok1 & Hr1 & _).
  destruct (load_segment_spec pt data bias Hb Hlen s1 b Hok1 Hbs ltac:(lia)) as (s2 & E2 & _ & _ & H2).
  exists s2. split; [by rewrite (bind_ok _ _ _ _ _ E1)|].
  destruct Ha as [? ? ? ? ?]. apply within_spec in Hx. unfold seg_end, seg_start in *.
  destruct (H2 x) as [-> _]; [lia|]. rewrite Hi. unfold seg_byte, seg_start. by rewrite Hn.
Qed.

(** ** The initial stack, as the program reads it *)

Section Stack.
Context {St : Type} (pt : PageTable St) {laws : PageTableLaws pt}.

(** A 64-bit word and a C string in user memory. *)
Definition word (s : St) (a : Z) : option Z := from_le <$> mapM (pt_byte s) (seqZ a 8).
Definition holds (s : St) (a : Z) (l : list Z) : Prop := ∀ i b, l !! i = Some b → pt_byte s (a + Z.of_nat i) = Some b.
Definition cstr (s : St) (a : Z) (str : list Z) : Prop := holds s a (str ++ [0]).

(** From [s] to [s'] only bytes of [lo, hi) were written. *)
Record pushed (s s' : St) (lo hi : Z) : Prop := {
  pu_ok : pt_ok s';
  pu_same x : 0 ≤ x < VA_END → ¬ (lo ≤ x < hi) → pt_byte s' x = pt_byte s x;
  pu_map x : 0 ≤ x < VA_END → is_Some (pt_byte s x) → is_Some (pt_byte s' x);
  pu_perm x : 0 ≤ x < VA_END → pt_perm s' x = pt_perm s x }.

Lemma pushed_trans s s1 s2 lo mid hi : pushed s s1 mid hi → pushed s1 s2 lo mid → lo ≤ mid ≤ hi → pushed s s2 lo hi.
Proof.
  intros [O1 S1 M1 P1] [O2 S2 M2 P2] Hm. constructor; [done| | |].
  - intros x Hx Hn. rewrite S2 by lia. apply S1; lia.
  - intros x Hx Hs. apply M2; [done|]. by apply M1.
  - intros x Hx. rewrite P2 by done. by apply P1.
Qed.

Lemma holds_pushed s s' lo hi a l : pushed s s' lo hi → hi ≤ a → 0 ≤ a → a + Z.of_nat (length l) ≤ VA_END →
  holds s a l → holds s' a l.
Proof.
  intros Hp Ha H0 Hend Hh i b Hi. pose proof (lookup_lt_Some _ _ _ Hi). rewrite (pu_same _ _ _ _ Hp) by lia. by apply Hh.
Qed.

Lemma word_holds s a v : 0 ≤ v < 2 ^ 64 → holds s a (to_le 8 v) → word s a = Some v.
Proof.
  intros Hv Hh. unfold word. rewrite (User.mapM_all_Some _ (λ x, default 0 (to_le 8 v !! Z.to_nat (x - a)))).
  - cbn [fmap option_fmap option_map]. f_equal. transitivity (from_le (to_le 8 v)).
    2:{ rewrite from_to_le. change (256 ^ Z.of_nat 8) with (2 ^ 64). by apply Z.mod_small. }
    f_equal. apply list_eq. intros i. rewrite list_lookup_fmap. destruct (decide (i < 8)%nat) as [Hi|Hi].
    + rewrite lookup_seqZ_lt by lia. cbn [fmap option_fmap option_map]. replace (Z.to_nat (a + Z.of_nat i - a)) with i by lia.
      destruct (lookup_lt_is_Some_2 (to_le 8 v) i) as [b Hb]; [by rewrite length_to_le|]. by rewrite Hb.
    + rewrite lookup_seqZ_ge by lia. symmetry. apply lookup_ge_None_2. rewrite length_to_le. lia.
  - intros x [H1 H2]%elem_of_seqZ. destruct (lookup_lt_is_Some_2 (to_le 8 v) (Z.to_nat (x - a))) as [b Hb]; [rewrite length_to_le; lia|].
    rewrite Hb. cbn [from_option id]. replace x with (a + Z.of_nat (Z.to_nat (x - a))) at 1 by lia. by apply Hh.
Qed.

Lemma push_bytes s a l hi : pt_ok s → 0 ≤ a → a + Z.of_nat (length l) ≤ hi → hi ≤ VA_END →
  (∀ x, a ≤ x < hi → is_Some (pt_byte s x)) →
  ∃ s', copy_to_user pt a l s = (Ok tt, s') ∧ pushed s s' a hi ∧ holds s' a l.
Proof.
  intros Hok Ha Hl Hhi Hmap. destruct (pt_copy_ok s a l) as (s' & E & Hok' & _ & H'); [done|done|lia| |].
  { intros x Hx. apply Hmap. lia. }
  exists s'. split; [done|]. split; [constructor|].
  - done.
  - intros x Hx Hn. destruct (H' x Hx) as [-> _]. by rewrite (proj2 (within_false _ _ _)) by lia.
  - intros x Hx Hs. destruct (H' x Hx) as [-> _]. destruct (within a _ x) eqn:W; [|done]. apply within_spec in W.
    apply lookup_lt_is_Some_2. lia.
  - intros x Hx. by destruct (H' x Hx) as [_ ->].
  - intros i b Hi. pose proof (lookup_lt_Some _ _ _ Hi). destruct (H' (a + Z.of_nat i)) as [-> _]; [lia|].
    rewrite (proj2 (within_spec _ _ _)) by lia. rewrite <- Hi. f_equal. lia.
Qed.

(** The stack below [sp] is mapped down to [lo]. *)
Definition room_below (s : St) (lo sp : Z) : Prop := 0 ≤ lo ∧ sp ≤ VA_END ∧ pt_ok s ∧ ∀ x, lo ≤ x < sp → is_Some (pt_byte s x).

Lemma room_pushed s s' lo mid sp : room_below s lo sp → pushed s s' mid sp → mid ≤ sp → room_below s' lo mid.
Proof.
  intros (H0 & Hend & Hok & Hm) Hp Hle. split_and!; [done|lia|apply Hp|].
  intros x Hx. apply (pu_map _ _ _ _ Hp); [lia|]. apply Hm. lia.
Qed.

Lemma push_u64_spec s lo sp v : room_below s lo sp → lo + 8 ≤ sp →
  ∃ s', push_u64 pt sp v s = (Ok (sp - 8), s') ∧ pushed s s' (sp - 8) sp ∧ holds s' (sp - 8) (to_le 8 v).
Proof.
  intros (H0 & Hend & Hok & Hm) Hsp. destruct (push_bytes s (sp - 8) (to_le 8 v) sp Hok) as (s' & E & Hp & Hh);
    [lia|rewrite length_to_le; lia|done|intros; apply Hm; lia|].
  exists s'. split; [|done]. unfold push_u64. rewrite sub64_small by lia. kstep.
  by rewrite (bind_ok _ _ _ _ _ (map_err_ok _ _ _ _ _ E)).
Qed.

Lemma push_all_spec vs : ∀ s lo sp, room_below s lo sp → lo + 8 * Z.of_nat (length vs) ≤ sp →
  ∃ s', push_all pt sp vs s = (Ok (sp - 8 * Z.of_nat (length vs)), s') ∧ pushed s s' (sp - 8 * Z.of_nat (length vs)) sp ∧
    ∀ i v, vs !! i = Some v → holds s' (sp - 8 * (Z.of_nat i + 1)) (to_le 8 v).
Proof.
  induction vs as [|v vs IH]; intros s lo sp Hr Hsp; cbn [push_all length] in *.
  { exists s. rewrite Z.mul_0_r, Z.sub_0_r. split; [done|]. split; [|done]. destruct Hr as (_ & _ & Hok & _). by constructor. }
  destruct (push_u64_spec s lo sp v Hr) as (s1 & E1 & Hp1 & Hh1); [lia|]. rewrite (bind_ok _ _ _ _ _ E1).
  pose proof Hr as (H0 & Hend & _ & _).
  destruct (IH s1 lo (sp - 8)) as (s' & E & Hp & Hh); [by eapply room_pushed; [done|done|lia]|lia|].
  exists s'. replace (sp - 8 * Z.of_nat (S (length vs))) with (sp - 8 - 8 * Z.of_nat (length vs)) by lia.
  split; [done|]. split; [eapply pushed_trans; [done|done|lia]|].
  intros [|i] w Hi; cbn in Hi.
  - injection Hi as ->. apply (holds_pushed s1 s' _ _ _ _ Hp); [lia|lia|rewrite length_to_le; lia|].
    by replace (sp - 8 * (Z.of_nat 0 + 1)) with (sp - 8) by lia.
  - replace (sp - 8 * (Z.of_nat (S i) + 1)) with (sp - 8 - 8 * (Z.of_nat i + 1)) by lia. by apply Hh.
Qed.

Lemma align8 x : u64_ok x → Z.land x (not64 0x7) = x - x mod 8.
Proof. intros Hx. apply (land_align_down x 3); [done|lia]. Qed.
Lemma align16 x : u64_ok x → Z.land x (not64 0xF) = x - x mod 16.
Proof. intros Hx. apply (land_align_down x 4); [done|lia]. Qed.

(** An upper bound of the space strings take. *)
Definition strings_size (l : list (list Z)) : Z := foldr (λ s n, Z.of_nat (length s) + 8 + n) 0 l.

Lemma strings_size_nonneg l : 0 ≤ strings_size l.
Proof. induction l; cbn [strings_size foldr] in *; fold strings_size in *; [lia|]. unfold strings_size in IHl. lia. Qed.

Lemma strings_size_app l k : strings_size (l ++ k) = strings_size l + strings_size k.
Proof. unfold strings_size. induction l as [|a l IH]; cbn [app foldr]; [lia|]. rewrite IH. lia. Qed.

Lemma strings_size_reverse l : strings_size (reverse l) = strings_size l.
Proof.
  induction l as [|a l IH]; [done|]. rewrite reverse_cons, strings_size_app, IH. unfold strings_size. cbn. lia.
Qed.

Lemma push_strings_spec l : ∀ s lo sp, room_below s lo sp → lo + strings_size l ≤ sp →
  ∃ ptrs sp' s', push_strings pt sp l s = (Ok (ptrs, sp'), s') ∧ pushed s s' sp' sp ∧ sp - strings_size l ≤ sp' ≤ sp ∧
    length ptrs = length l ∧
    ∀ i p str, ptrs !! i = Some p → l !! i = Some str → cstr s' p str ∧ sp' ≤ p ∧ p + Z.of_nat (length str) < sp.
Proof.
  induction l as [|str l IH]; intros s lo sp Hr Hsp; cbn [push_strings].
  { exists [], sp, s. split; [done|]. destruct Hr as (_ & _ & Hok & _). split; [by constructor|]. unfold strings_size. cbn.
    split; [lia|]. by split. }
  change (strings_size (str :: l)) with (Z.of_nat (length str) + 8 + strings_size l) in *.
  pose proof (strings_size_nonneg l). pose proof Hr as (H0 & Hend & Hok & Hm). unfold VA_END in Hend.
  rewrite sub64_small by lia. kstep. rewrite align8 by (unfold u64_ok; lia).
  set (a := sp - (Z.of_nat (length str) + 1) - (sp - (Z.of_nat (length str) + 1)) mod 8).
  assert (sp - (Z.of_nat (length str) + 8) ≤ a ≤ sp - (Z.of_nat (length str) + 1)) as Ha by lia.
  destruct (push_bytes s a (str ++ [0]) sp Hok) as (s1 & E1 & Hp1 & Hh1);
    [lia|rewrite length_app; cbn; lia|unfold VA_END; lia|intros; apply Hm; lia|].
  rewrite (bind_ok _ _ _ _ _ (map_err_ok _ _ _ _ _ E1)).
  destruct (IH s1 lo a) as (ptrs & sp' & s' & E & Hp & Hle & Hlen & Hs); [eapply room_pushed; [done|done|lia]|lia|].
  rewrite (bind_ok _ _ _ _ _ E). cbv beta iota. exists (a :: ptrs), sp', s'. split; [done|].
  split; [eapply pushed_trans; [done|done|lia]|]. split; [lia|]. split; [cbn; by rewrite Hlen|].
  intros [|i] p str' Hi Hl; cbn in Hi, Hl.
  - injection Hi as ->. injection Hl as ->. split; [|lia].
    apply (holds_pushed s1 s' _ _ _ _ Hp); [lia|lia|rewrite length_app; cbn; unfold VA_END; lia|done].
  - destruct (Hs i p str' Hi Hl) as (? & ? & ?). split; [done|lia].
Qed.

Lemma push_order_lookup l k e : l !! k = Some e →
  push_order l !! (2 * k)%nat = Some e.2 ∧ push_order l !! (2 * k + 1)%nat = Some e.1.
Proof.
  revert k. induction l as [|[t v] l IH]; intros k Hk; [done|]. unfold push_order in *. cbn [fmap list_fmap concat app fst snd].
  destruct k as [|k]; [by injection Hk as <-|]. replace (2 * S k)%nat with (S (S (2 * k))) by lia. cbn. by apply IH.
Qed.

Lemma length_push_order l : length (push_order l) = (2 * length l)%nat.
Proof. unfold push_order. induction l as [|e l IH]; [done|]. cbn [fmap list_fmap concat app length] in *. rewrite IH. lia. Qed.

(** The stack the System V ABI prescribes: [argc], the argument pointers, NULL,
    the environment pointers, NULL, the auxiliary vector. *)
Record start_stack (s : St) (sp : Z) (argv envp : list (list Z)) (aux : list (Z * Z)) : Prop := {
  st_align : sp mod 16 = 0;
  st_argc : word s sp = Some (Z.of_nat (length argv));
  st_argv i a : argv !! i = Some a → ∃ p, word s (sp + 8 * (1 + Z.of_nat i)) = Some p ∧ cstr s p a;
  st_argv_end : word s (sp + 8 * (1 + Z.of_nat (length argv))) = Some 0;
  st_envp i e : envp !! i = Some e → ∃ p, word s (sp + 8 * (2 + Z.of_nat (length argv) + Z.of_nat i)) = Some p ∧ cstr s p e;
  st_envp_end : word s (sp + 8 * (2 + Z.of_nat (length argv) + Z.of_nat (length envp))) = Some 0;
  st_aux i t v : aux !! i = Some (t, v) →
    let a := sp + 8 * (3 + Z.of_nat (length argv) + Z.of_nat (length envp) + 2 * Z.of_nat i) in
    word s a = Some t ∧ word s (a + 8) = Some v }.

Definition result_ok (r : ElfLoadResult) (creds : Z * Z * Z * Z) : Prop :=
  let '(uid, gid, euid, egid) := creds in
  Forall u64_ok [phdr_addr r; phent r; phnum r; exe_entry r; interp_base r; uid; gid; euid; egid].

Lemma auxv_ok r creds a i t v : result_ok r creds → u64_ok a → auxv r a creds !! i = Some (t, v) → u64_ok t ∧ u64_ok v.
Proof.
  destruct creds as [[[uid gid] euid] egid]. unfold result_ok. intros Hr Ha Hi.
  repeat (apply Forall_cons in Hr as [? Hr]). unfold auxv in Hi.
  do 12 (destruct i as [|i]; [injection Hi as <- <-; split; [done|assumption || (unfold u64_ok; lia)]|]). done.
Qed.

(** The words of the vector part: below [base], in the order of the pushes. *)
Lemma push_vector s lo base aux envs args n : room_below s lo base →
  lo + 8 * (3 + Z.of_nat (length aux) + Z.of_nat (length envs) + Z.of_nat (length args)) ≤ base →
  let sp := base - 8 * (3 + Z.of_nat (length aux) + Z.of_nat (length envs) + Z.of_nat (length args)) in
  ∃ s', (let! sp := push_all pt base aux in let! sp := push_u64 pt sp 0 in let! sp := push_all pt sp envs in
         let! sp := push_u64 pt sp 0 in let! sp := push_all pt sp args in push_u64 pt sp n) s = (Ok sp, s') ∧
    pushed s s' sp base ∧
    ∀ i v, (aux ++ [0] ++ envs ++ [0] ++ args ++ [n]) !! i = Some v → holds s' (base - 8 * (Z.of_nat i + 1)) (to_le 8 v).
Proof.
  intros Hr Hb sp.
  assert (∀ l1 l2 (k : Z → M St Z) b t, bind (push_all pt b (l1 ++ l2)) k t = bind (push_all pt b l1) (λ b, bind (push_all pt b l2) k) t) as Happ.
  { induction l1 as [|x l1 IH]; intros l2 k b t; cbn [push_all app]; [done|]. rewrite !bind_assoc. unfold bind at 1 3.
    destruct (push_u64 pt b x t) as [[] t']; [apply IH|done..]. }
  assert (∀ x (k : Z → M St Z) b t, bind (push_u64 pt b x) k t = bind (push_all pt b [x]) k t) as Hone.
  { intros x k b t. cbn [push_all]. rewrite bind_assoc. unfold bind. by destruct (push_u64 pt b x t) as [[]]. }
  destruct (push_all_spec (aux ++ [0] ++ envs ++ [0] ++ args ++ [n]) s lo base Hr) as (s' & E & Hp & Hh).
  { rewrite !length_app. cbn. lia. }
  replace (base - 8 * Z.of_nat (length (aux ++ [0] ++ envs ++ [0] ++ args ++ [n]))) with sp in *
    by (rewrite !length_app; cbn; lia).
  exists s'. split; [|done]. rewrite <- E.
  assert (∀ (m : M St Z) t, m t = bind m ret t) as Hret by (intros m t; unfold bind; by destruct (m t) as [[]]).
  rewrite (Hret (push_all pt base _)). rewrite Happ. unfold bind at 1 6. destruct (push_all pt base aux s) as [[b1| |] s1]; [|done..].
  rewrite Happ, Hone. unfold bind at 1 5. destruct (push_all pt b1 [0] s1) as [[b2| |] s2]; [|done..].
  rewrite Happ. unfold bind at 1 4. destruct (push_all pt b2 envs s2) as [[b3| |] s3]; [|done..].
  rewrite Happ, Hone. unfold bind at 1 3. destruct (push_all pt b3 [0] s3) as [[b4| |] s4]; [|done..].
  rewrite Happ. unfold bind at 1 2. destruct (push_all pt b4 args s4) as [[b5| |] s5]; [|done..].
  rewrite (Hret (push_u64 pt b5 n)). apply Hone.
Qed.
End Stack.

(** The pieces of the vector, counted from its lower end. *)
Lemma lookup_vector aux envs args n i v :
  reverse (aux ++ [0] ++ envs ++ [0] ++ args ++ [n]) !! i = Some v →
  (aux ++ [0] ++ envs ++ [0] ++ args ++ [n]) !! (2 + length aux + length envs + length args - i)%nat = Some v ∧
  (i < 3 + length aux + length envs + length args)%nat.
Proof.
  intros Hi. pose proof (lookup_lt_Some _ _ _ Hi) as Hlt. rewrite length_reverse, !length_app in Hlt. cbn in Hlt.
  split; [|lia]. rewrite reverse_lookup in Hi by (rewrite !length_app; cbn; lia). rewrite <- Hi. f_equal.
  rewrite !length_app. cbn. lia.
Qed.

Lemma reverse_vector aux envs args n :
  reverse (aux ++ [0] ++ reverse envs ++ [0] ++ reverse args ++ [n]) = n :: args ++ 0 :: envs ++ 0 :: reverse aux.
Proof. rewrite !reverse_app, !reverse_singleton, !reverse_involutive, <- !app_assoc. done. Qed.

(** The vector, counted from its lower end, and its parts. *)
Definition vector (n : Z) (args envs aux : list Z) : list Z := n :: args ++ 0 :: envs ++ 0 :: aux.

Lemma vector_args n args envs aux i : vector n args envs aux !! (1 + i)%nat = (args ++ 0 :: envs ++ 0 :: aux) !! i.
Proof. done. Qed.
Lemma vector_envs n args envs aux i : vector n args envs aux !! (1 + length args + i)%nat = (0 :: envs ++ 0 :: aux) !! i.
Proof. rewrite <- Nat.add_assoc, vector_args, lookup_app_r by lia. f_equal. lia. Qed.
Lemma vector_aux n args envs aux i : vector n args envs aux !! (2 + length args + length envs + i)%nat = (0 :: aux) !! i.
Proof.
  replace (2 + length args + length envs + i)%nat with (1 + length args + S (length envs + i))%nat by lia.
  rewrite vector_envs. change ((0 :: envs ++ 0 :: aux) !! S (length envs + i)) with ((envs ++ 0 :: aux) !! (length envs + i)%nat).
  rewrite lookup_app_r by lia. f_equal. lia.
Qed.

Lemma vector_aux_S n args envs aux i : vector n args envs aux !! (3 + length args + length envs + i)%nat = aux !! i.
Proof.
  replace (3 + length args + length envs + i)%nat with (2 + length args + length envs + S i)%nat by lia. by rewrite vector_aux.
Qed.

Lemma reversed_pairs {A B} (Q : A → B → Prop) (l : list A) (k : list B) : length l = length k →
  (∀ i x y, l !! i = Some x → reverse k !! i = Some y → Q x y) →
  ∀ i x y, reverse l !! i = Some x → k !! i = Some y → Q x y.
Proof.
  intros Hl HQ i x y Hx Hy. pose proof (lookup_lt_Some _ _ _ Hy). rewrite reverse_lookup in Hx by lia.
  apply (HQ (length l - S i)%nat); [done|]. rewrite reverse_lookup by lia. rewrite <- Hy. f_equal. lia.
Qed.

(** From the words of the vector to the layout. *)
Lemma vector_layout {St} (pt : PageTable St) {laws : PageTableLaws pt} s sp argv envp args envs r ra creds :
  sp mod 16 = 0 → result_ok r creds → u64_ok ra → Z.of_nat (length argv) < 2 ^ 64 → length args = length argv → length envs = length envp →
  (∀ i v, vector (Z.of_nat (length argv)) args envs (reverse (push_order (auxv r ra creds))) !! i = Some v → u64_ok v →
    word pt s (sp + 8 * Z.of_nat i) = Some v) →
  (∀ i p str, args !! i = Some p → argv !! i = Some str → u64_ok p ∧ cstr pt s p str) →
  (∀ i p str, envs !! i = Some p → envp !! i = Some str → u64_ok p ∧ cstr pt s p str) →
  start_stack pt s sp argv envp (reverse (auxv r ra creds)).
Proof.
  intros Hal Hres Hra Hn Hla Hle Hvec Hargs Henvs. constructor.
  - exact Hal.
  - rewrite <- (Z.add_0_r sp) at 1. apply (Hvec 0%nat); [done|]. unfold u64_ok. lia.
  - intros i a Hi. pose proof (lookup_lt_Some _ _ _ Hi). destruct (lookup_lt_is_Some_2 args i) as [p Hp]; [lia|].
    destruct (Hargs i p a Hp Hi) as [Hu Hc]. exists p. split; [|done].
    replace (1 + Z.of_nat i) with (Z.of_nat (1 + i)) by lia. apply Hvec; [|done]. rewrite vector_args. by apply lookup_app_l_Some.
  - replace (1 + Z.of_nat (length argv)) with (Z.of_nat (1 + length args + 0)) by lia. apply Hvec; [by rewrite vector_envs|done].
  - intros i e Hi. pose proof (lookup_lt_Some _ _ _ Hi). destruct (lookup_lt_is_Some_2 envs i) as [p Hp]; [lia|].
    destruct (Henvs i p e Hp Hi) as [Hu Hc]. exists p. split; [|done].
    replace (2 + Z.of_nat (length argv) + Z.of_nat i) with (Z.of_nat (1 + length args + S i)) by lia.
    apply Hvec; [|done]. rewrite vector_envs. by apply lookup_app_l_Some.
  - replace (2 + Z.of_nat (length argv) + Z.of_nat (length envp)) with (Z.of_nat (2 + length args + length envs + 0)) by lia.
    apply Hvec; [by rewrite vector_aux|done].
  - intros i t v Hi. pose proof (lookup_lt_Some _ _ _ Hi) as Hlt. rewrite length_reverse in Hlt.
    assert (length (auxv r ra creds) = 12%nat) as Hl12 by (by destruct creds as [[[]]]). rewrite Hl12 in Hlt.
    rewrite reverse_lookup, Hl12 in Hi by lia. destruct (auxv_ok r creds ra _ t v Hres Hra Hi) as [Ht Hv].
    apply push_order_lookup in Hi as [Hi2 Hi1]. pose proof (length_push_order (auxv r ra creds)) as Hlp. rewrite Hl12 in Hlp.
    cbn [fst snd] in Hi1, Hi2. split.
    + replace (3 + Z.of_nat (length argv) + Z.of_nat (length envp) + 2 * Z.of_nat i)
        with (Z.of_nat (3 + length args + length envs + 2 * i)) by lia.
      apply Hvec; [|done]. rewrite vector_aux_S, reverse_lookup by lia. rewrite <- Hi1. f_equal. lia.
    + replace (sp + 8 * (3 + Z.of_nat (length argv) + Z.of_nat (length envp) + 2 * Z.of_nat i) + 8)
        with (sp + 8 * Z.of_nat (3 + length args + length envs + (2 * i + 1))) by lia.
      apply Hvec; [|done]. rewrite vector_aux_S, reverse_lookup by lia. rewrite <- Hi2. f_equal. lia.
Qed.

(** The first stack, for its callers. *)
Lemma setup_stack_spec {St} (pt : PageTable St) {laws : PageTableLaws pt} counter creds top lo argv envp r s :
  room_below pt s lo top → result_ok r creds →
  lo + strings_size argv + strings_size envp + 8 * (27 + Z.of_nat (length argv) + Z.of_nat (length envp)) + 64 ≤ top →
  ∃ sp random_addr s', setup_user_stack pt counter creds top argv envp r s = (Ok sp, s') ∧ pushed pt s s' sp top ∧
    lo ≤ sp ≤ random_addr ∧ start_stack pt s' sp argv envp (reverse (auxv r random_addr creds)) ∧
    holds pt s' random_addr (random_bytes 16 counter).
Proof.
  intros Hr Hres Hsize. pose proof Hr as (H0 & Hend & Hok & Hm). assert (VA_END = 2 ^ 48) as HV by done.
  pose proof (strings_size_nonneg argv) as Ha0. pose proof (strings_size_nonneg envp) as He0.
  unfold setup_user_stack. rewrite align16 by (unfold u64_ok; lia).
  set (ra := top - top mod 16 - 16). rewrite sub64_small by lia. kstep. fold ra. assert (top - 31 ≤ ra ≤ top - 16) as Hra by lia.
  destruct (push_bytes pt s ra (random_bytes 16 counter) top Hok) as (s1 & E1 & Hp1 & Hh1); [lia|cbn; lia|lia|intros; apply Hm; lia|].
  rewrite (bind_ok _ _ _ _ _ (map_err_ok _ _ _ _ _ E1)).
  assert (room_below pt s1 lo ra) as Hr1 by (eapply room_pushed; [done|done|lia]).
  destruct (push_strings_spec pt (reverse envp) s1 lo ra Hr1) as (eps & sp2 & s2 & E2 & Hp2 & Hle2 & Hl2 & Hs2);
    [rewrite strings_size_reverse; lia|]. rewrite strings_size_reverse in Hle2. rewrite length_reverse in Hl2.
  rewrite (bind_ok _ _ _ _ _ E2). cbv beta iota zeta.
  assert (room_below pt s2 lo sp2) as Hr2 by (eapply room_pushed; [done|done|lia]).
  destruct (push_strings_spec pt (reverse argv) s2 lo sp2 Hr2) as (aps & sp3 & s3 & E3 & Hp3 & Hle3 & Hl3 & Hs3);
    [rewrite strings_size_reverse; lia|]. rewrite strings_size_reverse in Hle3. rewrite length_reverse in Hl3.
  rewrite (bind_ok _ _ _ _ _ E3). cbv beta iota zeta.
  assert (room_below pt s3 lo sp3) as Hr3 by (eapply room_pushed; [done|done|lia]).
  rewrite align16 by (unfold u64_ok; lia). rewrite !length_reverse, Hl2, Hl3.
  set (words := 27 + Z.of_nat (length argv) + Z.of_nat (length envp)).
  set (base := sp3 - sp3 mod 16 - (if Nat.even (1 + length argv + 1 + length envp + 1 + 2 * 12 + 2) then 0 else 8)).
  assert ((if Nat.even (1 + length argv + 1 + length envp + 1 + 2 * 12 + 2) then ret (sp3 - sp3 mod 16)
           else or_panic (sub64 (sp3 - sp3 mod 16) 8)) s3 = (Ok base, s3)) as Eb.
  { unfold base. destruct (Nat.even _); [by rewrite Z.sub_0_r|]. by rewrite sub64_small by lia. }
  rewrite (bind_ok _ _ _ _ _ Eb).
  assert (sp3 - 23 ≤ base ≤ sp3 ∧ (base - 8 * words) mod 16 = 0) as [Hbase Halign].
  { unfold base, words. destruct (Nat.even _) eqn:Ev.
    - apply Nat.even_spec in Ev as [k Hk]. lia.
    - apply not_true_iff_false in Ev. rewrite Nat.even_spec, <- Nat.odd_spec, <- Nat.negb_even in Ev || idtac.
      destruct (Nat.Even_or_Odd (1 + length argv + 1 + length envp + 1 + 2 * 12 + 2)) as [He|[k Hk]]; [|lia].
      apply Nat.even_spec in He. congruence. }
  set (aux := push_order (auxv r ra creds)).
  assert (length aux = 24%nat) as Hla by (unfold aux; rewrite length_push_order; by destruct creds as [[[]]]).
  assert (room_below pt s3 lo base) as Hr3'.
  { destruct Hr3 as (? & ? & ? & Hm3). split_and!; [done|lia|done|]. intros x Hx. apply Hm3. lia. }
  destruct (push_vector pt s3 lo base aux (reverse (reverse eps)) (reverse (reverse aps)) (Z.of_nat (length argv)) Hr3') as (s4 & E4 & Hp4 & Hh4).
  { rewrite Hla, !reverse_involutive, Hl2, Hl3. lia. }
  rewrite E4. clear E4. rewrite Hla, !reverse_involutive, Hl2, Hl3 in *.
  replace (base - 8 * (3 + Z.of_nat 24 + Z.of_nat (length envp) + Z.of_nat (length argv))) with (base - 8 * words) in * by lia.
  set (sp := base - 8 * words) in *. exists sp, ra, s4. split; [done|].
  assert (pushed pt s3 s4 sp sp3) as Hp4'.
  { destruct Hp4 as [O S Mp P]. constructor; [done| |done|done]. intros x Hx Hn. apply S; [done|]. lia. }
  assert (pushed pt s1 s4 sp ra) as Hp14 by (eapply pushed_trans; [exact Hp2|eapply pushed_trans; [exact Hp3|exact Hp4'|lia]|lia]).
  split; [by eapply pushed_trans; [exact Hp1|exact Hp14|lia]|]. split; [lia|].
  split; [|apply (holds_pushed pt s1 s4 _ _ _ _ Hp14); [lia|lia|cbn; lia|done]].
  eapply (vector_layout pt s4 sp argv envp (reverse aps) (reverse eps)); [exact Halign|done|unfold u64_ok; lia|lia|rewrite length_reverse; lia..| | |].
  - intros i v Hi Hv. unfold vector in Hi. fold aux in Hi. rewrite <- reverse_vector, !reverse_involutive in Hi.
    apply lookup_vector in Hi as [Hi Hlt]. rewrite Hla, Hl2, Hl3 in *. apply word_holds; [exact Hv|].
    apply Hh4 in Hi. replace (sp + 8 * Z.of_nat i) with (base - 8 * (Z.of_nat (2 + 24 + length envp + length argv - i) + 1));
      [done|]. unfold sp, words. lia.
  - apply (reversed_pairs (λ p str, u64_ok p ∧ cstr pt s4 p str)); [done|]. intros i p str Hi Hstr.
    destruct (Hs3 i p str Hi Hstr) as (Hc & Hp & Hpe). split; [unfold u64_ok; lia|].
    apply (holds_pushed pt s3 s4 _ _ _ _ Hp4'); [lia|lia|rewrite length_app; cbn; lia|done].
  - apply (reversed_pairs (λ p str, u64_ok p ∧ cstr pt s4 p str)); [done|]. intros i p str Hi Hstr.
    destruct (Hs2 i p str Hi Hstr) as (Hc & Hp & Hpe). split; [unfold u64_ok; lia|].
    apply (holds_pushed pt s2 s4 sp sp2); [by eapply pushed_trans; [exact Hp3|exact Hp4'|lia]|lia|lia| |done].
    rewrite length_app. cbn. lia.
Qed.

(** C15. The first stack of a program is the one the ABI prescribes: on a mapped
    stack that is large enough, [setup_user_stack] succeeds with a stack pointer
    that is a multiple of 16, from which the program reads its argument count,
    its arguments and environment as C strings, each vector closed by NULL, and
    the auxiliary vector from AT_EGID down to AT_NULL; only the stack is written. *)
Theorem setup_stack_layout {St} (pt : PageTable St) {laws : PageTableLaws pt} counter creds top lo argv envp r s :
  room_below pt s lo top → result_ok r creds →
  lo + strings_size argv + strings_size envp + 8 * (27 + Z.of_nat (length argv) + Z.of_nat (length envp)) + 64 ≤ top →
  ∃ sp random_addr s', setup_user_stack pt counter creds top argv envp r s = (Ok sp, s') ∧ pushed pt s s' sp top ∧
    lo ≤ sp ≤ random_addr ∧ start_stack pt s' sp argv envp (reverse (auxv r random_addr creds)) ∧
    holds pt s' random_addr (random_bytes 16 counter).
Proof. apply setup_stack_spec. Qed.

(** ** Examples: the ELF-64 layout and a flat memory *)

Definition field (off n : nat) (l : list Z) : Z := from_le (take n (drop off l)).

#[export] Instance elf64 : Goblin := {|
  size_of_Header := 64;
  as_Header l := mkHeader (take 16 l) (field 16 2 l) (field 18 2 l) (field 24 8 l) (field 32 8 l) (field 54 2 l) (field 56 2 l);
  size_of_ProgramHeader := 56;
  as_ProgramHeader l := mkPhdr (field 0 4 l) (field 4 4 l) (field 8 8 l) (field 16 8 l) (field 32 8 l) (field 40 8 l) |}.

(** Memory without page tables: a byte and its permissions per address. *)
Module Flat.
Definition Memory : Type := Z → option (Z * (bool * bool)).

Definition map (v n : Z) (f : PageAttr) : M Memory () :=
  modify (λ s x, if within v n x then Some (0, (writable f, executable f)) else s x).
Definition write (v : Z) (data : list Z) : M Memory () :=
  let! s := get in
  if forallb (λ x, bool_decide (is_Some (s x))) (seqZ v (Z.of_nat (length data)))
  then put (λ x, if within v (Z.of_nat (length data)) x
                 then (λ p, (default 0 (data !! Z.to_nat (x - v)), p.2)) <$> s x else s x)
  else fail err_unit.
Definition read (v : Z) (n : nat) : M Memory (list Z) :=
  let! s := get in ok_or (mapM (λ x, fst <$> s x) (seqZ v (Z.of_nat n))) err_unit.

Definition flat : PageTable Memory := mkPageTable _ 0 map write read.

#[local] Obligation Tactic := idtac.
#[global] Program Instance flat_laws : PageTableLaws flat := {|
  pt_ok _ := True; pt_byte s x := fst <$> s x; pt_perm s x := snd <$> s x; pt_room _ := 2 ^ 40 |}.
Next Obligation.
  intros s v n flags _ _ _ Hn _ _ _. eexists. split; [reflexivity|]. split; [done|]. split; [lia|]. intros x _. cbn. by destruct (within v (n * 4096) x).
Qed.
Next Obligation.
  intros s v data _ _ _ Hm. cbn. unfold write. kstep.
  rewrite (proj2 (forallb_forall _ _)).
  2:{ intros x Hx%list_elem_of_In%elem_of_seqZ. apply bool_decide_eq_true_2. destruct (Hm x) as [b Hb]; [lia|].
      apply fmap_Some in Hb as (p & Hp & _). by rewrite Hp. }
  eexists. split; [reflexivity|]. split; [done|]. split; [done|]. intros x _. destruct (within v _ x) eqn:W; [|done].
  apply within_spec in W. destruct (Hm x W) as [b Hb]. apply fmap_Some in Hb as (p & Hp & _). rewrite Hp. cbn. split; [|done].
  destruct (lookup_lt_is_Some_2 data (Z.to_nat (x - v))) as [c Hc]; [lia|]. by rewrite Hc.
Qed.
End Flat.

(** A static executable: four bytes of code at 0x400078, sixteen in memory. *)
Definition demo_phdr : ProgramHeader := mkPhdr PT_LOAD 5 120 0x400078 4 16.
Definition demo_header : Header := mkHeader ([0x7f; 69; 76; 70; 2; 1; 1] ++ replicate 9 0) 2 183 0x400078 64 56 1.
Definition demo_image : list Z :=
  e_ident demo_header ++ to_le 2 2 ++ to_le 2 183 ++ to_le 4 1 ++ to_le 8 0x400078 ++ to_le 8 64 ++ to_le 8 0 ++ to_le 4 0 ++
  to_le 2 64 ++ to_le 2 56 ++ to_le 2 1 ++ to_le 2 0 ++ to_le 2 0 ++ to_le 2 0 ++
  to_le 4 1 ++ to_le 4 5 ++ to_le 8 120 ++ to_le 8 0x400078 ++ to_le 8 0 ++ to_le 8 4 ++ to_le 8 16 ++ to_le 8 4096 ++ [1; 2; 3; 4].

Lemma demo_static : static_image demo_image demo_header [demo_phdr].
Proof.
  constructor.
  - apply Nat.leb_le. reflexivity.
  - reflexivity.
  - vm_compute. reflexivity.
  - reflexivity.
  - reflexivity.
  - reflexivity.
  - vm_compute. reflexivity.
  - by repeat constructor.
  - cbn. apply Forall_singleton. constructor; vm_compute; (reflexivity || (split; congruence) || congruence).
  - cbn. split; [vm_compute; congruence|done].
  - intros ph ->%list_elem_of_singleton _. vm_compute. congruence.
  - by repeat constructor.
  - by split.
  - by split.
Qed.

Lemma load_elf_image_witness : ∃ r s', load_elf Flat.flat (λ _, fail ENOENT) (λ _, fail ENOENT) demo_image (λ _, None) = (Ok r, s') ∧
  pt_byte (pt:=Flat.flat) s' 0x40007B = Some 4 ∧ pt_byte (pt:=Flat.flat) s' 0x40007C = Some 0 ∧ pt_perm (pt:=Flat.flat) s' 0x400078 = Some (false, true) ∧ entry r = 0x400078 ∧
  phdr_addr r = 64 ∧ is_break 0 [demo_phdr] (brk_start r).
Proof.
  destruct (load_elf_image Flat.flat (λ _, fail ENOENT) (λ _, fail ENOENT) demo_image demo_header [demo_phdr] (λ _, None) demo_static)
    as (r & s' & E & _ & _ & Hl & He & _ & _ & _ & _ & _ & Hp & _ & Hb); [exact I|vm_compute; congruence|].
  exists r, s'. split; [exact E|].
  assert (∀ x, in_seg 0 demo_phdr x = true → 0 ≤ x < VA_END → pt_byte (pt:=Flat.flat) s' x = Some (seg_byte demo_image 0 demo_phdr x) ∧ pt_perm (pt:=Flat.flat) s' x = Some (seg_perm demo_phdr)) as H.
  { intros x Hx Hr. by apply (ld_seg _ _ _ _ _ Hl); [left| | |]. }
  destruct (H 0x40007B) as [-> _]; [reflexivity|by split|]. destruct (H 0x40007C) as [-> _]; [reflexivity|by split|].
  destruct (H 0x400078) as [_ ->]; [reflexivity|by split|]. split_and!; [reflexivity..|exact He|exact Hp|exact Hb].
Defined.

(** The first page of the second segment is the page in which the first ends. *)
Lemma shared_page_wiped_witness :
  let a := mkPhdr PT_LOAD 5 120 0x400078 4 16 in let b := mkPhdr PT_LOAD 6 120 0x400800 4 16 in
  ∃ s', (load_segment Flat.flat demo_image 0 a ;;; load_segment Flat.flat demo_image 0 b) (λ _, None) = (Ok (seg_end 0 b), s') ∧
    pt_byte (pt:=Flat.flat) s' 0x400078 = Some 0.
Proof.
  intros a b. apply (shared_page_wiped Flat.flat demo_image 0 a b 0x400078 (λ _, None));
    (done || (constructor; vm_compute; (done || congruence)) || (vm_compute; (done || congruence))).
Defined.

Definition demo_result : ElfLoadResult := mkLoad 0x400078 0 0x400040 56 1 0x400078 USER_STACK_TOP 0x401000.
Definition demo_stack : Flat.Memory := λ x, if within (USER_STACK_TOP - STACK_SIZE) STACK_SIZE x then Some (0, (true, false)) else None.

Lemma setup_stack_layout_witness : ∃ sp s', setup_user_stack Flat.flat 7 (0, 0, 0, 0) USER_STACK_TOP [[97]; [98; 99]] [[65; 61; 49]] demo_result demo_stack = (Ok sp, s') ∧
  sp mod 16 = 0 ∧ word Flat.flat s' sp = Some 2 ∧ ∃ p, word Flat.flat s' (sp + 16) = Some p ∧ cstr Flat.flat s' p [98; 99].
Proof.
  destruct (setup_stack_layout Flat.flat 7 (0, 0, 0, 0) USER_STACK_TOP (USER_STACK_TOP - STACK_SIZE) [[97]; [98; 99]] [[65; 61; 49]] demo_result demo_stack)
    as (sp & ra & s' & E & _ & _ & H & _).
  - split_and!; [vm_compute; congruence..|exact I|]. intros x Hx. cbn. unfold demo_stack.
    rewrite (proj2 (within_spec _ _ _)) by (unfold STACK_SIZE in *; lia). by eexists.
  - repeat constructor; vm_compute; congruence.
  - vm_compute. congruence.
  - exists sp, s'. split; [exact E|]. split; [apply H|]. split; [apply H|]. apply (st_argv _ _ _ _ _ _ H 1%nat [98; 99]). reflexivity.
Defined.
