(* ===== verification/Signal.v ===== *)
(** * Signals ([ipc/signal.rs], and the return path of [syscall/mod.rs])

    The per-process signal tables next to the kernel state.  The trap frame, of
    any type that implements [CpuContext], is passed to and returned by the
    functions that take it as [&mut].  [cpu] is the
    calling CPU, [root] its page-table root. *)

From S2P Require Import Prelude.
From S2P Require Import Pmm.
From S2P Require Import Paging.
From S2P Require Import User.
From S2P Require Import Sched.
From S2P Require Import Vmm.
From S2P Require Import Kernel.
From S2P Require Import Shm.
From S2P Require Import Proc.
From S2P Require Import Frame.

(** ** State *)

Record KernelSigAction := mkAct { handler : Z; act_flags : Z; restorer : Z; mask : Z }.
Definition default_act : KernelSigAction := mkAct 0 0 0 0.

Record SavedUserContext := mkSaved { s_regs : list Z; s_sp : Z; s_pc : Z; used_altstack : bool }.

Definition SS_ONSTACK : Z := 1.
Definition SS_DISABLE : Z := 2.
Definition MINSIGSTKSZ : Z := 2048.
Definition SA_ONSTACK : Z := 0x08000000.

Record AltStackState := mkAlt { alt_sp : Z; alt_size : Z; alt_flags : Z }.
Definition default_alt : AltStackState := mkAlt 0 0 SS_DISABLE.
Definition set_alt_flags (x : Z) (a : AltStackState) : AltStackState := mkAlt (alt_sp a) (alt_size a) x.

Record Sig := mkSig {
  kern : K;
  PENDING_SIGNALS : gmap Z Z;
  BLOCKED_SIGNALS : gmap Z Z;
  IN_SIGNAL_HANDLER : gset Z;
  SIGACTIONS : gmap Z (gmap Z KernelSigAction);
  SAVED_CONTEXT : gmap Z SavedUserContext;
  ALTSTACKS : gmap Z AltStackState }.

Definition set_kern (x : K) (s : Sig) : Sig :=
  mkSig x (PENDING_SIGNALS s) (BLOCKED_SIGNALS s) (IN_SIGNAL_HANDLER s) (SIGACTIONS s) (SAVED_CONTEXT s) (ALTSTACKS s).
Definition set_pending (x : gmap Z Z) (s : Sig) : Sig :=
  mkSig (kern s) x (BLOCKED_SIGNALS s) (IN_SIGNAL_HANDLER s) (SIGACTIONS s) (SAVED_CONTEXT s) (ALTSTACKS s).
Definition set_blocked (x : gmap Z Z) (s : Sig) : Sig :=
  mkSig (kern s) (PENDING_SIGNALS s) x (IN_SIGNAL_HANDLER s) (SIGACTIONS s) (SAVED_CONTEXT s) (ALTSTACKS s).
Definition set_inh (x : gset Z) (s : Sig) : Sig :=
  mkSig (kern s) (PENDING_SIGNALS s) (BLOCKED_SIGNALS s) x (SIGACTIONS s) (SAVED_CONTEXT s) (ALTSTACKS s).
Definition set_actions (x : gmap Z (gmap Z KernelSigAction)) (s : Sig) : Sig :=
  mkSig (kern s) (PENDING_SIGNALS s) (BLOCKED_SIGNALS s) (IN_SIGNAL_HANDLER s) x (SAVED_CONTEXT s) (ALTSTACKS s).
Definition set_saved (x : gmap Z SavedUserContext) (s : Sig) : Sig :=
  mkSig (kern s) (PENDING_SIGNALS s) (BLOCKED_SIGNALS s) (IN_SIGNAL_HANDLER s) (SIGACTIONS s) x (ALTSTACKS s).
Definition set_stacks (x : gmap Z AltStackState) (s : Sig) : Sig :=
  mkSig (kern s) (PENDING_SIGNALS s) (BLOCKED_SIGNALS s) (IN_SIGNAL_HANDLER s) (SIGACTIONS s) (SAVED_CONTEXT s) x.

Definition on_kern {A} (m : M K A) : M Sig A := λ s, let '(r, k) := m (kern s) in (r, set_kern k s).

(** [x as i32] and [-x] of an [i32] (checked). *)
Definition to_i32 (x : Z) : Z := let y := x mod 2 ^ 32 in if y <? 2 ^ 31 then y else y - 2 ^ 32.
Definition neg32 (x : Z) : option Z := if x =? - 2 ^ 31 then None else Some (- x).

(** ** Sending *)

Definition valid_signal (sig : Z) : bool := (0 <=? sig) && (sig <=? 64).
Definition is_fatal_signal (sig : Z) : bool := bool_decide (sig ∈ [2; 3; 6; 9; 15]).

Definition sig_bit (sig : Z) : Z := Z.shiftl 1 (sig - 1).

Definition queue_signal (pid sig : Z) (s : Sig) : Sig :=
  if (sig <=? 0) || (64 <? sig) then s
  else set_pending (<[pid := Z.lor (default 0 (PENDING_SIGNALS s !! pid)) (sig_bit sig)]> (PENDING_SIGNALS s)) s.

Definition kill_thread_group (g sig : Z) : M Sig () :=
  let! members := gets (λ s, group_members g (kern s)) in
  if bool_decide (members = []) then fail ESRCH else
  modify (λ s, foldl (λ s pid, queue_signal pid sig s) s members) ;;;
  when (is_fatal_signal sig)
    (modify (λ s, set_kern (note_thread_group_exit g (128 + sig) (kern s)) s) ;;;
     modify (λ s, set_kern (Kernel.set_sched (mark_threads_dead members (sched (kern s))) (kern s)) s)).

(** The ids a [BTreeSet] collects, in increasing order. *)
Definition btree_set (l : list Z) : list Z := merge_sort Z.le (remove_dups l).

Definition kill_process_group (pg sig : Z) : M Sig () :=
  let! tgids := gets (λ s, btree_set (tgid <$> filter (λ p, pgid p = pg ∧ p_pid p = tgid p) (bvalues (PROCESS_TABLE (kern s))))) in
  if bool_decide (tgids = []) then fail ESRCH else
  for_each tgids (λ g, ignore (kill_thread_group g sig)).

Definition kill_single_thread (tid sig : Z) : M Sig () :=
  let! exists_ := gets (λ s, bool_decide (is_Some (PROCESS_TABLE (kern s) !! tid))) in
  if negb exists_ then fail ESRCH else
  modify (queue_signal tid sig) ;;;
  when (is_fatal_signal sig)
    (modify (λ s, set_kern (note_process_exit tid (128 + sig) (kern s)) s) ;;;
     modify (λ s, set_kern (Kernel.set_sched (mark_threads_dead [tid] (sched (kern s))) (kern s)) s)).

Definition deliver_signal_to_pgrp (pgrp signum : Z) : M Sig () :=
  if (pgrp <=? 0) || negb (valid_signal signum) then ret tt else ignore (kill_process_group pgrp signum).

Section Signal.
Context (cpu : nat) (root : Z).

Definition cur_pid (s : Sig) : Z := current_pid cpu (kern s).

(** The caller's process group, its own pid without an entry. *)
Definition caller_pgrp (s : Sig) : Z :=
  match PROCESS_TABLE (kern s) !! cur_pid s with Some p => pgid p | None => cur_pid s end.

Definition do_kill (pid sig : Z) : M Sig Z :=
  if negb (valid_signal sig) then fail EINVAL else
  if sig =? 0 then
    if 0 <? pid then
      let! ex := gets (λ s, existsb (λ p, tgid p =? pid) (bvalues (PROCESS_TABLE (kern s)))) in
      if (ex : bool) then ret 0 else fail ESRCH
    else if pid =? 0 then
      let! pgrp := gets caller_pgrp in kill_process_group pgrp sig ;;; ret 0
    else if pid <? -1 then
      let! n := or_panic (neg32 pid) in kill_process_group n sig ;;; ret 0
    else ret 0
  else
    (if 0 <? pid then kill_thread_group pid sig
     else if pid =? 0 then let! pgrp := gets caller_pgrp in deliver_signal_to_pgrp (to_i32 pgrp) sig
     else if pid =? -1 then
       let! tgids := gets (λ s, btree_set (tgid <$> filter (λ p, tgid p ≠ 0) (bvalues (PROCESS_TABLE (kern s))))) in
       for_each tgids (λ g, ignore (kill_thread_group g sig))
     else let! n := or_panic (neg32 pid) in deliver_signal_to_pgrp n sig) ;;;
    ret 0.

Definition do_tgkill (g tid sig : Z) : M Sig Z :=
  if negb (valid_signal sig) || (g <=? 0) || (tid <=? 0) then fail EINVAL else
  let! o := gets (λ s, PROCESS_TABLE (kern s) !! tid) in
  let '(exists_, is_leader) := match o with Some p => (tgid p =? g, p_pid p =? tgid p) | None => (false, false) end in
  if negb exists_ then fail ESRCH else
  if sig =? 0 then ret 0 else
  (if (is_leader : bool) then kill_thread_group g sig else kill_single_thread tid sig) ;;; ret 0.

(** ** Masks, actions and the alternate stack *)

Definition uread (ptr : Z) (n : nat) : M Sig (list Z) := map_err (on_kern (on_mach (User.copy_from_user root ptr n))) EFAULT.
Definition uwrite (ptr : Z) (data : list Z) : M Sig () := map_err (on_kern (on_mach (User.copy_to_user root ptr data))) EFAULT.

Definition sigset_ptr_read (mask_ptr sigsetsize : Z) : M Sig Z :=
  if mask_ptr =? 0 then ret 0 else
  if sigsetsize <? 8 then fail EINVAL else
  let! raw := uread mask_ptr 8 in ret (from_le raw).

Definition sigset_ptr_write (mask_ptr m sigsetsize : Z) : M Sig () :=
  if mask_ptr =? 0 then ret tt else
  if sigsetsize <? 8 then fail EINVAL else
  uwrite mask_ptr (to_le 8 m).

Definition encode_act (a : KernelSigAction) : list Z :=
  to_le 8 (handler a) ++ to_le 8 (act_flags a) ++ to_le 8 (restorer a) ++ to_le 8 (mask a).

Definition decode_act (b : list Z) : KernelSigAction :=
  mkAct (from_le (take 8 b)) (from_le (take 8 (drop 8 b))) (from_le (take 8 (drop 16 b))) (from_le (take 8 (drop 24 b))).

Definition action_of (pid sig : Z) (s : Sig) : KernelSigAction :=
  default default_act (SIGACTIONS s !! pid ≫= lookup sig).

Definition do_sigaction (signum act oldact sigsetsize : Z) : M Sig Z :=
  if (signum <=? 0) || (64 <? signum) then fail EINVAL else
  let! pid := gets cur_pid in
  modify (λ s, set_actions (<[pid := default ∅ (SIGACTIONS s !! pid)]> (SIGACTIONS s)) s) ;;;
  let! prev := gets (action_of pid signum) in
  when (negb (oldact =? 0)) (uwrite oldact (encode_act prev)) ;;;
  when (negb (act =? 0))
    (let! inb := uread act 32 in
     modify (λ s, set_actions (<[pid := <[signum := decode_act inb]> (default ∅ (SIGACTIONS s !! pid))]> (SIGACTIONS s)) s)) ;;;
  ret 0.

Definition SIG_BLOCK : Z := 0.
Definition SIG_UNBLOCK : Z := 1.
Definition SIG_SETMASK : Z := 2.

Definition next_mask (how cur newmask : Z) : option Z :=
  if how =? SIG_BLOCK then Some (Z.lor cur newmask)
  else if how =? SIG_UNBLOCK then Some (Z.land cur (not64 newmask))
  else if how =? SIG_SETMASK then Some newmask
  else None.

Definition do_sigprocmask (how set oldset sigsetsize : Z) : M Sig Z :=
  let! pid := gets cur_pid in
  let! cur := gets (λ s, default 0 (BLOCKED_SIGNALS s !! pid)) in
  sigset_ptr_write oldset cur sigsetsize ;;;
  when (negb (set =? 0))
    (let! newmask := sigset_ptr_read set sigsetsize in
     let! next := ok_or (next_mask how cur newmask) EINVAL in
     modify (λ s, set_blocked (<[pid := next]> (BLOCKED_SIGNALS s)) s)) ;;;
  ret 0.

Definition replace_current_sigmask (new_mask : Z) : M Sig Z :=
  let! pid := gets cur_pid in
  let! old := gets (λ s, default 0 (BLOCKED_SIGNALS s !! pid)) in
  modify (λ s, set_blocked (<[pid := new_mask]> (BLOCKED_SIGNALS s)) s) ;;;
  ret old.

Definition signalfd_ready (m : Z) (s : Sig) : bool := has (default 0 (PENDING_SIGNALS s !! cur_pid s)) m.

(** The loop [for s in 1..=64]: the first signal whose bit is set. *)
Definition first_signal (bits : Z) : option Z := head (filter (λ s, has bits (sig_bit s) = true) (seqZ 1 64)).

(** [*ent &= !bit] on the caller's pending word, if it has one. *)
Definition clear_pending (pid sig : Z) (s : Sig) : Sig :=
  set_pending (alter (λ b, Z.land b (not64 (sig_bit sig))) pid (PENDING_SIGNALS s)) s.

Definition signalfd_consume (m : Z) : M Sig (option Z) :=
  let! pid := gets cur_pid in
  let! bits := gets (λ s, default 0 (PENDING_SIGNALS s !! pid)) in
  let masked := Z.land bits m in
  if masked =? 0 then ret None else
  match first_signal masked with
  | Some sig => modify (clear_pending pid sig) ;;; ret (Some sig)
  | None => ret None
  end.

Definition encode_alt (a : AltStackState) : list Z :=
  to_le 8 (alt_sp a) ++ to_le 4 (alt_flags a mod 2 ^ 32) ++ [0; 0; 0; 0] ++ to_le 8 (alt_size a).

Definition do_sigaltstack (ss old_ss : Z) : M Sig Z :=
  let! pid := gets cur_pid in
  let! cur := gets (λ s, default default_alt (ALTSTACKS s !! pid)) in
  when (negb (old_ss =? 0)) (uwrite old_ss (encode_alt cur)) ;;;
  when (negb (ss =? 0))
    (let! inb := uread ss 24 in
     let new_sp := from_le (take 8 inb) in
     let flags := to_i32 (from_le (take 4 (drop 8 inb))) in
     let size := from_le (take 8 (drop 16 inb)) in
     if has flags (Z.lnot SS_DISABLE) then fail EINVAL else
     if has (alt_flags cur) SS_ONSTACK then fail EINVAL else
     let! next :=
       (if has flags SS_DISABLE then ret default_alt
        else if (new_sp =? 0) || (size <? MINSIGSTKSZ) then fail EINVAL
        else ret (mkAlt new_sp size 0)) in
     modify (λ s, set_stacks (<[pid := next]> (ALTSTACKS s)) s)) ;;;
  ret 0.

(** ** Delivery *)

Context `{CpuContext F}.

Definition do_sigreturn (f : F) : M Sig (F * Z) :=
  let! pid := gets cur_pid in
  let! o := gets (λ s, SAVED_CONTEXT s !! pid) in
  let! saved := ok_or o EINVAL in
  modify (λ s, set_saved (delete pid (SAVED_CONTEXT s)) s) ;;;
  let f := write_regs (s_regs saved) f in
  let f := set_pc (s_pc saved) (set_sp (s_sp saved) f) in
  when (used_altstack saved)
    (modify (λ s, set_stacks (alter (λ a, set_alt_flags (Z.land (alt_flags a) (Z.lnot SS_ONSTACK)) a) pid (ALTSTACKS s)) s)) ;;;
  modify (λ s, set_inh (IN_SIGNAL_HANDLER s ∖ {[pid]}) s) ;;;
  ret (f, default 0 (s_regs saved !! 0%nat)).

(** Registers at the entry of a user handler. *)
Definition enter_handler (sig : Z) (a : KernelSigAction) (f : F) : F :=
  let f := set_reg 2 0 (set_reg 1 0 (set_reg 0 sig f)) in
  let f := if negb (restorer a =? 0) then set_reg 30 (restorer a) f else f in
  set_pc (handler a) f.

(** The alternate stack, when the action asks for it and there is one:
    the new stack pointer. *)
Definition take_altstack (pid : Z) (a : KernelSigAction) : M Sig (option Z) :=
  if has (act_flags a) SA_ONSTACK then
    let! st := gets (λ s, default default_alt (ALTSTACKS s !! pid)) in
    if negb (has (alt_flags st) SS_DISABLE) && (0 <? alt_size st) then
      modify (λ s, set_stacks (<[pid := set_alt_flags (Z.lor (alt_flags st) SS_ONSTACK) st]> (ALTSTACKS s)) s) ;;;
      ret (Some (saturating_add (alt_sp st) (alt_size st)))
    else modify (λ s, set_stacks (<[pid := st]> (ALTSTACKS s)) s) ;;; ret None
  else ret None.

Definition dispatch_pending (f : F) : M Sig (F * option Switch) :=
  let! s := get in
  let pid := cur_pid s in
  if bool_decide (pid ∈ IN_SIGNAL_HANDLER s) then ret (f, None) else
  let deliverable := Z.land (default 0 (PENDING_SIGNALS s !! pid)) (not64 (default 0 (BLOCKED_SIGNALS s !! pid))) in
  if deliverable =? 0 then ret (f, None) else
  match first_signal deliverable with
  | None => ret (f, None)
  | Some sig =>
      modify (clear_pending pid sig) ;;;
      let a := action_of pid sig s in
      if handler a =? 1 then ret (f, None) else
      if handler a =? 0 then
        if is_fatal_signal sig then
          modify (λ s, set_kern (note_process_exit pid (128 + sig) (kern s)) s) ;;;
          modify (λ s, set_kern (Kernel.set_sched (mark_threads_dead [pid] (sched (kern s))) (kern s)) s) ;;;
          let! w := on_kern (on_sched (schedule cpu)) in
          ret (f, w)
        else ret (f, None)
      else
        let! alt := take_altstack pid a in
        let saved := mkSaved (read_regs f) (sp f) (pc f) (bool_decide (is_Some alt)) in
        let f := match alt with Some top => set_sp top f | None => f end in
        modify (λ s, set_saved (<[pid := saved]> (SAVED_CONTEXT s)) s) ;;;
        modify (λ s, set_inh (IN_SIGNAL_HANDLER s ∪ {[pid]}) s) ;;;
        ret (enter_handler sig a f, None)
  end.

(** The end of a system call: its result goes to x0, then a pending signal is delivered. *)
Definition finish_syscall (f : F) (result : Z + Z) : M Sig (F * option Switch) :=
  dispatch_pending (set_reg 0 (match result with inl v => v | inr e => (- e) mod 2 ^ 64 end) f).

(** [handle] for [rt_sigreturn]. *)
Definition handle_sigreturn (f : F) : M Sig (F * option Switch) :=
  let! r := try (do_sigreturn f) in
  match r with
  | inl (f', v) => finish_syscall f' (inl v)
  | inr e => finish_syscall f (inr e)
  end.
End Signal.

(** ** Which signal *)

Lemma has_sig_bit w sig : 1 ≤ sig → has w (sig_bit sig) = Z.testbit w (sig - 1).
Proof. intros. unfold sig_bit. apply has_shl1. lia. Qed.

Lemma seqZ_split_lookup l1 x l2 a n : seqZ a n = l1 ++ x :: l2 → x = a + Z.of_nat (length l1) ∧
  ∀ y, a ≤ y < x → y ∈ l1.
Proof.
  intros E. assert (seqZ a n !! length l1 = Some x) as Hx by (rewrite E; apply list_lookup_middle; done).
  apply lookup_seqZ in Hx as [-> Hn]. split; [done|]. intros y Hy. apply list_elem_of_lookup_2 with (Z.to_nat (y - a)).
  assert (seqZ a n !! Z.to_nat (y - a) = Some y) as Hl by (apply lookup_seqZ; lia).
  rewrite E, lookup_app_l in Hl by lia. done.
Qed.

(** [first_signal] is the lowest signal of a non-empty set. *)
Lemma first_signal_Some bits sig : first_signal bits = Some sig →
  1 ≤ sig ≤ 64 ∧ Z.testbit bits (sig - 1) = true ∧ ∀ j, 1 ≤ j < sig → Z.testbit bits (j - 1) = false.
Proof.
  unfold first_signal. destruct (filter _ _) as [|x l] eqn:E; [done|]. intros [= ->].
  apply filter_cons_inv in E as (l1 & l2 & El & Hl1 & Hp & _).
  assert (sig ∈ seqZ 1 64) as Hin%elem_of_seqZ by (rewrite El; apply elem_of_app; right; by left).
  rewrite has_sig_bit in Hp by lia. split; [lia|]. split; [done|]. intros j Hj.
  destruct (seqZ_split_lookup _ _ _ _ _ El) as [_ Hlow]. rewrite Forall_forall in Hl1.
  specialize (Hl1 j (Hlow j Hj)). rewrite has_sig_bit in Hl1 by lia. by apply not_true_is_false.
Qed.

Lemma first_signal_lowest bits sig : 1 ≤ sig ≤ 64 → Z.testbit bits (sig - 1) = true →
  (∀ j, 1 ≤ j ≤ 64 → Z.testbit bits (j - 1) = true → sig ≤ j) → first_signal bits = Some sig.
Proof.
  intros Hs Hb Hlow. destruct (first_signal bits) as [x|] eqn:E.
  - apply first_signal_Some in E as (H1 & H2 & H3). f_equal. specialize (Hlow x H1 H2).
    destruct (decide (sig = x)); [done|]. rewrite H3 in Hb by lia. done.
  - unfold first_signal in E. destruct (filter _ _) as [|y l] eqn:El; [|done].
    assert (sig ∈ filter (λ s, has bits (sig_bit s) = true) (seqZ 1 64)) as Hin.
    { apply list_elem_of_filter. rewrite has_sig_bit by lia. split; [done|]. apply elem_of_seqZ. lia. }
    rewrite El in Hin. by apply not_elem_of_nil in Hin.
Qed.

(** A signal is deliverable to [pid]: pending and not blocked. *)
Definition pending_of (s : Sig) (pid : Z) : Z := default 0 (PENDING_SIGNALS s !! pid).
Definition blocked_of (s : Sig) (pid : Z) : Z := default 0 (BLOCKED_SIGNALS s !! pid).
Definition deliverable (s : Sig) (pid sig : Z) : Prop :=
  1 ≤ sig ≤ 64 ∧ Z.testbit (pending_of s pid) (sig - 1) = true ∧ Z.testbit (blocked_of s pid) (sig - 1) = false.
Definition lowest_deliverable (s : Sig) (pid sig : Z) : Prop :=
  deliverable s pid sig ∧ ∀ j, deliverable s pid j → sig ≤ j.

(** The words the kernel keeps are 64-bit. *)
Definition words_ok (s : Sig) (pid : Z) : Prop := u64_ok (pending_of s pid) ∧ u64_ok (blocked_of s pid).

Definition deliverable_bits (s : Sig) (pid : Z) : Z := Z.land (pending_of s pid) (not64 (blocked_of s pid)).

Lemma deliverable_testbit s pid sig : words_ok s pid → 1 ≤ sig ≤ 64 →
  Z.testbit (deliverable_bits s pid) (sig - 1) = true ↔ deliverable s pid sig.
Proof.
  intros [H1 H2] Hs. unfold deliverable_bits, deliverable.
  rewrite Z.land_spec, testbit_not64, bool_decide_eq_true_2 by (done || lia). cbn.
  rewrite andb_true_iff, negb_true_iff. tauto.
Qed.

Lemma deliverable_bits_none s pid : words_ok s pid → (∀ sig, ¬ deliverable s pid sig) → deliverable_bits s pid = 0.
Proof.
  intros Hw Hn. apply u64_bits_inj.
  - destruct Hw as [H1 H2]. apply u64_land_l; [done|]. apply not64_ok in H2. unfold u64_ok in *. lia.
  - unfold u64_ok. lia.
  - intros i Hi. rewrite Z.testbit_0_l. apply not_true_is_false. intros Hb. apply (Hn (i + 1)).
    apply deliverable_testbit; [done|lia|]. by replace (i + 1 - 1) with i by lia.
Qed.

Lemma first_deliverable s pid sig : words_ok s pid → lowest_deliverable s pid sig →
  (deliverable_bits s pid =? 0) = false ∧ first_signal (deliverable_bits s pid) = Some sig.
Proof.
  intros Hw [Hd Hlow]. pose proof Hd as [Hs _]. pose proof (proj2 (deliverable_testbit s pid sig Hw Hs) Hd) as Hb. split.
  - apply Z.eqb_neq. intros E. rewrite E, Z.testbit_0_l in Hb. done.
  - apply first_signal_lowest; [done|done|]. intros j Hj Hjb. apply Hlow. by apply deliverable_testbit.
Qed.

(** ** Delivery *)

Section Delivery.
Context `{ContextLaws F} (cpu : nat) (s : Sig) (f : F).
Abbreviation pid := (cur_pid cpu s).

Lemma dispatch_nothing : words_ok s pid → pid ∈ IN_SIGNAL_HANDLER s ∨ (∀ sig, ¬ deliverable s pid sig) →
  dispatch_pending cpu f s = (Ok (f, None), s).
Proof using All.
  intros Hw Hn. unfold dispatch_pending. kstep. case_bool_decide as Hin; [done|].
  destruct Hn as [Hn|Hn]; [done|]. change (Z.land _ _) with (deliverable_bits s pid). by rewrite deliverable_bits_none.
Qed.

(** The alternate stack of the caller, and whether a handler with action [a] starts on it. *)
Definition alt_of : AltStackState := default default_alt (ALTSTACKS s !! pid).
Definition uses_alt (a : KernelSigAction) : bool :=
  has (act_flags a) SA_ONSTACK && negb (has (alt_flags alt_of) SS_DISABLE) && (0 <? alt_size alt_of).
Definition alt_top : Z := saturating_add (alt_sp alt_of) (alt_size alt_of).
Definition stacks_after (a : KernelSigAction) : gmap Z AltStackState :=
  if has (act_flags a) SA_ONSTACK then
    <[pid := if uses_alt a then set_alt_flags (Z.lor (alt_flags alt_of) SS_ONSTACK) alt_of else alt_of]> (ALTSTACKS s)
  else ALTSTACKS s.

Definition delivered (sig : Z) (a : KernelSigAction) : Sig :=
  mkSig (kern s) (PENDING_SIGNALS (clear_pending pid sig s)) (BLOCKED_SIGNALS s) (IN_SIGNAL_HANDLER s ∪ {[pid]})
    (SIGACTIONS s) (<[pid := mkSaved (read_regs f) (sp f) (pc f) (uses_alt a)]> (SAVED_CONTEXT s)) (stacks_after a).

Lemma dispatch_handler sig : words_ok s pid → pid ∉ IN_SIGNAL_HANDLER s → lowest_deliverable s pid sig →
  let a := action_of pid sig s in 1 < handler a →
  dispatch_pending cpu f s =
    (Ok (enter_handler sig a (if uses_alt a then set_sp alt_top f else f), None), delivered sig a).
Proof using All.
  intros Hw Hn Hl a Ha. unfold dispatch_pending. kstep. rewrite bool_decide_eq_false_2 by done.
  destruct (first_deliverable s pid sig Hw Hl) as [E1 E2].
  change (Z.land _ _) with (deliverable_bits s pid). rewrite E1, E2. kstep. fold a.
  rewrite (proj2 (Z.eqb_neq (handler a) 1)), (proj2 (Z.eqb_neq (handler a) 0)) by lia.
  unfold take_altstack, delivered, stacks_after, uses_alt, alt_top.
  change (default default_alt (ALTSTACKS s !! pid)) with alt_of.
  destruct (has (act_flags a) SA_ONSTACK); cbn [andb]; kstep; [|done].
  change (default default_alt (ALTSTACKS (clear_pending pid sig s) !! pid)) with alt_of.
  destruct (negb _ && _); by kstep.
Qed.
End Delivery.

Ltac read_reg := rewrite !reg_set_reg by first [unfold NREGS; lia | auto 10 with frame].

Lemma enter_handler_ok `{ContextLaws F} sig a (f : F) : ctx_ok f → let f' := enter_handler sig a f in
  ctx_ok f' ∧ pc f' = handler a ∧ sp f' = sp f ∧ reg f' 0 = sig ∧ reg f' 1 = 0 ∧ reg f' 2 = 0 ∧
  reg f' 30 = (if restorer a =? 0 then reg f 30 else restorer a) ∧ ∀ i, (3 ≤ i < 30)%nat → reg f' i = reg f i.
Proof.
  intros Hf f'. unfold f', enter_handler.
  destruct (Z.eqb_spec (restorer a) 0); cbn [negb]; (split; [auto 10 with frame|]); autorewrite with frame;
    do 2 (split; [done|]); do 4 (split; [by read_reg|]); intros i Hi;
    autorewrite with frame; read_reg; by rewrite !decide_False by lia.
Qed.

Lemma clear_pending_bits s pid sig i : u64_ok (pending_of s pid) → 1 ≤ sig ≤ 64 →
  Z.testbit (pending_of (clear_pending pid sig s) pid) i =
    negb (bool_decide (i = sig - 1)) && Z.testbit (pending_of s pid) i.
Proof.
  intros Hw Hs. unfold pending_of, clear_pending. cbn [PENDING_SIGNALS set_pending]. rewrite lookup_alter_eq.
  unfold pending_of in Hw. destruct (PENDING_SIGNALS s !! pid) as [b|]; cbn [fmap option_fmap option_map default from_option id] in *.
  - apply testbit_clear_bit; [done|lia].
  - by rewrite Z.testbit_0_l, andb_false_r.
Qed.

(** A signal that is ignored, or whose default is to do nothing. *)
Lemma dispatch_ignored `{ContextLaws F} cpu s (f : F) sig : let pid := cur_pid cpu s in let a := action_of pid sig s in
  words_ok s pid → pid ∉ IN_SIGNAL_HANDLER s → lowest_deliverable s pid sig → handler a = 1 ∨ handler a = 0 ∧ is_fatal_signal sig = false →
  dispatch_pending cpu f s = (Ok (f, None), clear_pending pid sig s).
Proof.
  intros pid a Hw Hn Hl Ha. unfold dispatch_pending. kstep. fold pid. rewrite bool_decide_eq_false_2 by done.
  destruct (first_deliverable s pid sig Hw Hl) as [E1 E2].
  change (Z.land _ _) with (deliverable_bits s pid). rewrite E1, E2. kstep. fold a. by destruct Ha as [->|[-> ->]].
Qed.

Lemma stacks_after_used cpu s a : uses_alt cpu s a = true →
  stacks_after cpu s a !! cur_pid cpu s = Some (set_alt_flags (Z.lor (alt_flags (alt_of cpu s)) SS_ONSTACK) (alt_of cpu s)).
Proof. intros Hu. unfold stacks_after. pose proof Hu as [[-> _]%andb_true_iff _]%andb_true_iff. by rewrite Hu, lookup_insert_eq. Qed.

Lemma onstack_set x : has (Z.lor x SS_ONSTACK) SS_ONSTACK = true.
Proof.
  unfold has. apply negb_true_iff, Z.eqb_neq. intros E. assert (Z.testbit (Z.land (Z.lor x SS_ONSTACK) SS_ONSTACK) 0 = true) as Hb.
  { rewrite Z.land_spec, Z.lor_spec. cbn. by rewrite orb_true_r. }
  by rewrite E in Hb.
Qed.

(** C13. Signal delivery at the end of a system call, on any architecture: nothing
    happens while a handler runs or when no pending signal is unblocked; otherwise the
    lowest pending unblocked signal is taken and its bit alone is cleared.  When it is
    ignored, or has no action and is none of the five fatal signals, that is all.  When
    a handler is installed (an address above 1), the frame is set to enter it: the
    signal number in register 0, zero in registers 1 and 2, the restorer (if any) in
    the link register, the handler's address as program counter, and in the stack
    pointer field the top of the alternate stack if one is asked for and enabled (a
    field the exception return does not load, [Trap.frame_sp_ignored]); all other
    registers are kept, and the interrupted registers, stack pointer field and program
    counter are saved.  Fatal defaults, which end the process, are not covered. *)
Theorem dispatch_lowest `{ContextLaws F} cpu s (f : F) : let pid := cur_pid cpu s in words_ok s pid → ctx_ok f →
  (pid ∈ IN_SIGNAL_HANDLER s ∨ (∀ sig, ¬ deliverable s pid sig) → dispatch_pending cpu f s = (Ok (f, None), s)) ∧
  (∀ sig, pid ∉ IN_SIGNAL_HANDLER s → lowest_deliverable s pid sig → let a := action_of pid sig s in
   let taken s' := kern s' = kern s ∧ BLOCKED_SIGNALS s' = BLOCKED_SIGNALS s ∧ SIGACTIONS s' = SIGACTIONS s ∧
     (∀ i, Z.testbit (pending_of s' pid) i = negb (bool_decide (i = sig - 1)) && Z.testbit (pending_of s pid) i) ∧
     (∀ q, q ≠ pid → PENDING_SIGNALS s' !! q = PENDING_SIGNALS s !! q) in
   (handler a = 1 ∨ handler a = 0 ∧ sig ∉ [2; 3; 6; 9; 15] →
    ∃ s', dispatch_pending cpu f s = (Ok (f, None), s') ∧ taken s' ∧
      IN_SIGNAL_HANDLER s' = IN_SIGNAL_HANDLER s ∧ SAVED_CONTEXT s' = SAVED_CONTEXT s ∧ ALTSTACKS s' = ALTSTACKS s) ∧
   (1 < handler a →
    ∃ f' s' c, dispatch_pending cpu f s = (Ok (f', None), s') ∧ taken s' ∧
     pid ∈ IN_SIGNAL_HANDLER s' ∧
     SAVED_CONTEXT s' !! pid = Some c ∧ (∀ i, (i < 31)%nat → s_regs c !! i = Some (reg f i)) ∧ s_sp c = sp f ∧ s_pc c = pc f ∧
     used_altstack c = uses_alt cpu s a ∧
     (uses_alt cpu s a = true → ∃ st, ALTSTACKS s' !! pid = Some st ∧ has (alt_flags st) SS_ONSTACK = true) ∧
     pc f' = handler a ∧ sp f' = (if uses_alt cpu s a then alt_top cpu s else sp f) ∧
     reg f' 0 = sig ∧ reg f' 1 = 0 ∧ reg f' 2 = 0 ∧ reg f' 30 = (if restorer a =? 0 then reg f 30 else restorer a) ∧
     ∀ i, (3 ≤ i < 30)%nat → reg f' i = reg f i)).
Proof.
  intros pid Hw Hf. split; [by apply dispatch_nothing|]. intros sig Hn Hl a taken.
  assert (∀ s', kern s' = kern s → BLOCKED_SIGNALS s' = BLOCKED_SIGNALS s → SIGACTIONS s' = SIGACTIONS s →
    PENDING_SIGNALS s' = PENDING_SIGNALS (clear_pending pid sig s) → taken s') as Ht.
  { intros s' Hk Hb Ha Hp. split_and!; [done..| |].
    - intros i. unfold pending_of at 1. rewrite Hp. apply (clear_pending_bits s pid sig i); [apply Hw|apply Hl].
    - intros q Hq. rewrite Hp. cbn. by rewrite lookup_alter_ne. }
  split.
  - intros Ha. exists (clear_pending pid sig s). split; [|split; [by apply Ht|done]]. apply dispatch_ignored; [done..|].
    destruct Ha as [|[? Hs]]; [by left|right]. split; [done|]. unfold is_fatal_signal. by apply bool_decide_eq_false.
  - intros Ha. pose proof (dispatch_handler cpu s f sig Hw Hn Hl Ha) as E. fold pid a in E.
    set (g := if uses_alt cpu s a then set_sp (alt_top cpu s) f else f) in E.
    assert (ctx_ok g ∧ sp g = (if uses_alt cpu s a then alt_top cpu s else sp f) ∧ ∀ i, reg g i = reg f i) as (Hg & Eg & Rg).
    { unfold g. destruct (uses_alt cpu s a); [|done]. split; [auto with frame|]. split; [apply sp_set_sp|intros i; apply reg_set_sp]. }
    destruct (enter_handler_ok sig a g Hg) as (_ & Epc & Esp & E0 & E1 & E2 & E30 & Er).
    eexists _, _, _. split; [exact E|]. split; [by apply Ht|]. split; [cbn; set_solver|].
    split; [cbn [delivered SAVED_CONTEXT]; by rewrite lookup_insert_eq|]. cbn [s_regs s_sp s_pc].
    split; [intros i Hi; by apply read_regs_lookup|]. do 3 (split; [done|]).
    split; [intros Hu; eexists; split; [by apply stacks_after_used|apply onstack_set]|].
    rewrite E0, E1, E2, E30, Epc, Esp, Rg. do 6 (split; [done|]). intros i Hi. by rewrite Er, Rg.
Qed.

(** ** Return *)

Definition returned (pid : Z) (saved : SavedUserContext) (s : Sig) : Sig :=
  mkSig (kern s) (PENDING_SIGNALS s) (BLOCKED_SIGNALS s) (IN_SIGNAL_HANDLER s ∖ {[pid]}) (SIGACTIONS s)
    (delete pid (SAVED_CONTEXT s))
    (if used_altstack saved
     then alter (λ a, set_alt_flags (Z.land (alt_flags a) (Z.lnot SS_ONSTACK)) a) pid (ALTSTACKS s) else ALTSTACKS s).

Section Return.
Context `{ContextLaws F}.

Lemma sigreturn_spec cpu s (f : F) saved : let pid := cur_pid cpu s in SAVED_CONTEXT s !! pid = Some saved →
  do_sigreturn cpu f s =
    (Ok (set_pc (s_pc saved) (set_sp (s_sp saved) (write_regs (s_regs saved) f)), default 0 (s_regs saved !! 0%nat)),
     returned pid saved s).
Proof using All.
  intros pid Hs. unfold do_sigreturn. kstep. fold pid. rewrite Hs. kstep.
  unfold returned. destruct (used_altstack saved); by kstep.
Qed.

(** The return puts the saved context back and then looks for the next signal. *)
Lemma handle_sigreturn_spec cpu s (f g : F) b : let pid := cur_pid cpu s in
  SAVED_CONTEXT s !! pid = Some (mkSaved (read_regs g) (sp g) (pc g) b) → ctx_ok f →
  ∃ f', handle_sigreturn cpu f s = dispatch_pending cpu f' (returned pid (mkSaved (read_regs g) (sp g) (pc g) b) s) ∧
    same_context f' g.
Proof using All.
  intros pid Hs Hf. unfold handle_sigreturn.
  erewrite bind_ok by (unfold try; by rewrite (sigreturn_spec cpu s f _ Hs)). unfold finish_syscall.
  eexists. split; [done|]. cbn [s_regs s_sp s_pc].
  destruct (write_regs_spec (read_regs g) f Hf) as (H1 & H2 & H3 & H4); [by rewrite length_read_regs|].
  assert (∀ i, (i < NREGS)%nat → reg (write_regs (read_regs g) f) i = reg g i) as Hr
    by (intros i Hi; by rewrite H4, read_regs_lookup).
  rewrite set_reg_same.
  - split; [|by autorewrite with frame]. intros i Hi. autorewrite with frame. auto.
  - auto with frame.
  - unfold NREGS. lia.
  - autorewrite with frame. rewrite Hr by (unfold NREGS; lia). by rewrite read_regs_lookup by (unfold NREGS; lia).
Qed.

Lemma onstack_cleared x : has (Z.land x (Z.lnot SS_ONSTACK)) SS_ONSTACK = false.
Proof. unfold has. rewrite <- Z.land_assoc. change (Z.land (Z.lnot SS_ONSTACK) SS_ONSTACK) with 0. by rewrite Z.land_0_r. Qed.

(** C24. The frame survives a handler, on any architecture: after a delivery to a
    handler, whatever the handler does to the registers, its [rt_sigreturn] (made while
    the saved context is still there) leaves handler mode, frees the alternate stack
    and puts all general registers, the result register included, the program counter
    and the stack pointer field of the interrupted frame back.  This frame is what the
    delivery of the next signal then finds; when no pending signal is unblocked at that
    moment, the call returns with it.  (The theorem is about the frame: the exception
    return loads its registers and program counter but not its stack pointer field,
    [Trap.frame_sp_ignored].) *)
Theorem signal_roundtrip cpu s (f : F) sig : let pid := cur_pid cpu s in words_ok s pid →
  pid ∉ IN_SIGNAL_HANDLER s → lowest_deliverable s pid sig → 1 < handler (action_of pid sig s) →
  ∃ f1 s1, dispatch_pending cpu f s = (Ok (f1, None), s1) ∧
  ∀ f2 s2, ctx_ok f2 → cur_pid cpu s2 = pid → SAVED_CONTEXT s2 !! pid = SAVED_CONTEXT s1 !! pid →
    ∃ f3 s3, (∀ i, (i < 31)%nat → reg f3 i = reg f i) ∧ pc f3 = pc f ∧ sp f3 = sp f ∧
      handle_sigreturn cpu f2 s2 = dispatch_pending cpu f3 s3 ∧
      (words_ok s2 pid → (∀ j, ¬ deliverable s2 pid j) → handle_sigreturn cpu f2 s2 = (Ok (f3, None), s3)) ∧
      kern s3 = kern s2 ∧ PENDING_SIGNALS s3 = PENDING_SIGNALS s2 ∧ BLOCKED_SIGNALS s3 = BLOCKED_SIGNALS s2 ∧
      (pid ∉ IN_SIGNAL_HANDLER s3) ∧ SAVED_CONTEXT s3 !! pid = None ∧
      (uses_alt cpu s (action_of pid sig s) = true → ∀ st, ALTSTACKS s3 !! pid = Some st → has (alt_flags st) SS_ONSTACK = false).
Proof using All.
  intros pid Hw Hn Hl Ha. eexists _, _. split; [by apply (dispatch_handler cpu s f sig)|].
  intros f2 s2 Hf2 Hp2 Hs2. cbn [delivered SAVED_CONTEXT] in Hs2. fold pid in Hs2.
  rewrite lookup_insert_eq in Hs2. rewrite <- Hp2 in Hs2.
  destruct (handle_sigreturn_spec cpu s2 f2 f _ Hs2 Hf2) as (f3 & E & Hr & Hsp & Hpc). exists f3.
  eexists. split; [exact Hr|]. split; [done|]. split; [done|]. split; [exact E|]. rewrite Hp2.
  split; [intros Hw2 Hn2; rewrite E, Hp2; apply dispatch_nothing; change (cur_pid cpu (returned _ _ _)) with (cur_pid cpu s2); rewrite Hp2; [done|by right]|].
  cbn [returned kern PENDING_SIGNALS BLOCKED_SIGNALS IN_SIGNAL_HANDLER SAVED_CONTEXT ALTSTACKS used_altstack].
  do 3 (split; [done|]). split; [set_solver|]. split; [by apply lookup_delete_eq|].
  intros Hu st. fold pid. rewrite Hu, lookup_alter_eq. intros (a & _ & ->)%fmap_Some. cbn. apply onstack_cleared.
Qed.
End Return.

(** ** Termination of a thread group *)

Lemma note_process_exit_table pid code k :
  ∃ g, PROCESS_TABLE (note_process_exit pid code k) = remove_process pid g (PROCESS_TABLE k).
Proof.
  unfold note_process_exit. cbv zeta. set (k1 := on_shm _ _).
  assert (PROCESS_TABLE k1 = PROCESS_TABLE k) as E by done. clearbody k1. rewrite E.
  destruct (match PROCESS_TABLE k !! pid with Some p => _ | None => _ end) as [parent g]. exists g.
  destruct (negb _ && _); cbn; by rewrite ?E.
Qed.

Lemma note_process_exit_lookup pid code k i :
  (i = pid → PROCESS_TABLE (note_process_exit pid code k) !! i = None) ∧
  (i ≠ pid → is_Some (PROCESS_TABLE (note_process_exit pid code k) !! i) ↔ is_Some (PROCESS_TABLE k !! i)).
Proof.
  destruct (note_process_exit_table pid code k) as [g ->]. unfold remove_process. split.
  - intros ->. apply lookup_delete_eq.
  - intros Hne. rewrite lookup_delete_ne by done. apply lookup_alter_is_Some.
Qed.

Lemma exits_lookup code l : ∀ k i,
  (i ∈ l → PROCESS_TABLE (foldl (λ k pid, note_process_exit pid code k) k l) !! i = None) ∧
  (i ∉ l → is_Some (PROCESS_TABLE (foldl (λ k pid, note_process_exit pid code k) k l) !! i) ↔ is_Some (PROCESS_TABLE k !! i)).
Proof.
  induction l as [|x l IH]; intros k i; cbn [foldl]; [split; [by intros ?%not_elem_of_nil|done]|].
  destruct (IH (note_process_exit x code k) i) as [H1 H2]. destruct (note_process_exit_lookup x code k i) as [N1 N2].
  split.
  - intros [->|Hi]%elem_of_cons; [|by apply H1]. destruct (decide (x ∈ l)) as [Hx|Hx]; [by apply H1|].
    apply eq_None_not_Some. rewrite H2 by done. rewrite N1 by done. by intros [? ?].
  - intros [Hne Hi]%not_elem_of_cons. rewrite H2, N2 by done. done.
Qed.

Lemma elem_of_group_members g k i : keyed (PROCESS_TABLE k) →
  i ∈ group_members g k ↔ ∃ p, PROCESS_TABLE k !! i = Some p ∧ tgid p = g.
Proof.
  intros Hk. unfold group_members. rewrite list_elem_of_fmap. split.
  - intros (p & -> & [Hg [j Hj]%elem_of_bvalues]%list_elem_of_filter). rewrite (Hk _ _ Hj). eauto.
  - intros (p & Hp & Hg). exists p. split; [by rewrite (Hk _ _ Hp)|]. apply list_elem_of_filter. split; [done|].
    apply elem_of_bvalues. eauto.
Qed.

Lemma queue_signals_kern sig l : ∀ s, kern (foldl (λ s pid, queue_signal pid sig s) s l) = kern s ∧
  SIGACTIONS (foldl (λ s pid, queue_signal pid sig s) s l) = SIGACTIONS s ∧
  BLOCKED_SIGNALS (foldl (λ s pid, queue_signal pid sig s) s l) = BLOCKED_SIGNALS s.
Proof.
  induction l as [|x l IH]; intros s; cbn [foldl]; [done|]. destruct (IH (queue_signal x sig s)) as (-> & -> & ->).
  unfold queue_signal. by case_match.
Qed.

Lemma exits_sched code l : ∀ k, sched (foldl (λ k pid, note_process_exit pid code k) k l) = sched k.
Proof.
  induction l as [|x l IH]; intros k; cbn [foldl]; [done|]. rewrite IH. apply note_process_exit_same.
Qed.

Lemma mark_threads_dead_Dead pids s t : t ∈ threads (SCHEDULER (mark_threads_dead pids s)) →
  Sched.pid t ∈ pids → Sched.state t = Dead.
Proof.
  assert (∀ x, Sched.pid (kill_if pids x) ∈ pids → Sched.state (kill_if pids x) = Dead) as HK.
  { intros x. unfold kill_if. by case_bool_decide. }
  unfold threads, mark_threads_dead. cbn [SCHEDULER Sched.set_sched run_queues current]. intros [H|H]%elem_of_app.
  - apply list_elem_of_In, in_concat in H as (q & Hq & Ht). apply in_map_iff in Hq as (q0 & <- & _).
    apply in_map_iff in Ht as (x & <- & _). apply HK.
  - apply list_elem_of_omap in H as (o & Ho & ->). apply list_elem_of_In, in_map_iff in Ho as ([x|] & [= <-] & _). apply HK.
Qed.

(** [kill] with a terminating signal ends the whole thread group at once:
    every member leaves the process table, every thread of a member is Dead,
    and no other process is removed.  This holds whatever handlers the group has
    installed and whatever it blocks: neither is consulted, so a handler for
    SIGINT, SIGQUIT, SIGABRT or SIGTERM never runs on [kill]. *)
Theorem kill_fatal_unconditional cpu pid sig s : is_fatal_signal sig = true → 0 < pid →
  keyed (PROCESS_TABLE (kern s)) → (∃ i p, PROCESS_TABLE (kern s) !! i = Some p ∧ tgid p = pid) →
  ∃ s', do_kill cpu pid sig s = (Ok 0, s') ∧
    (∀ i p, PROCESS_TABLE (kern s) !! i = Some p → tgid p = pid →
       PROCESS_TABLE (kern s') !! i = None ∧
       ∀ t, t ∈ threads (SCHEDULER (sched (kern s'))) → Sched.pid t = i → Sched.state t = Dead) ∧
    (∀ i p, PROCESS_TABLE (kern s) !! i = Some p → tgid p ≠ pid → is_Some (PROCESS_TABLE (kern s') !! i)) ∧
    SIGACTIONS s' = SIGACTIONS s ∧ BLOCKED_SIGNALS s' = BLOCKED_SIGNALS s.
Proof.
  intros Hfatal H0 Hk (i0 & p0 & Hi0 & Hg0).
  assert (valid_signal sig = true ∧ sig ≠ 0) as [Hv Hz].
  { unfold is_fatal_signal in Hfatal. apply bool_decide_eq_true in Hfatal. unfold valid_signal. set_solver by lia. }
  unfold do_kill. rewrite Hv, (proj2 (Z.eqb_neq _ _) Hz), (proj2 (Z.ltb_lt _ _) H0). cbn [negb].
  unfold kill_thread_group. kstep. set (members := group_members pid (kern s)).
  assert (∀ i, i ∈ members ↔ ∃ p, PROCESS_TABLE (kern s) !! i = Some p ∧ tgid p = pid) as Hm
    by (intros; by apply elem_of_group_members).
  rewrite bool_decide_eq_false_2.
  2:{ intros E. assert (i0 ∈ members) as Hin by (apply Hm; eauto). rewrite E in Hin. by apply not_elem_of_nil in Hin. }
  kstep. rewrite Hfatal. kstep. eexists. split; [reflexivity|].
  destruct (queue_signals_kern sig members s) as (Ek & Ea & Eb).
  set (s1 := foldl _ s members) in *. cbn [kern set_kern Kernel.set_sched sched PROCESS_TABLE SIGACTIONS BLOCKED_SIGNALS].
  rewrite Ek, Ea, Eb. unfold note_thread_group_exit. fold members. split; [|split; [|done]].
  - intros i p Hp Hg. assert (i ∈ members) as Hin by (apply Hm; eauto).
    destruct (exits_lookup (128 + sig) members (kern s) i) as [H1 _]. split; [by apply H1|].
    intros t Ht Hti. eapply mark_threads_dead_Dead; [exact Ht|]. by rewrite Hti.
  - intros i p Hp Hg. destruct (exits_lookup (128 + sig) members (kern s) i) as [_ H2]. apply H2; [|eauto].
    intros (p' & Hp' & Hg')%Hm. congruence.
Qed.

(** [kill] of the least [i32] negates its argument without a check: for
    every valid signal number, the null signal included, a user program's
    [kill(INT_MIN, sig)] aborts the kernel by arithmetic overflow. *)
Theorem kill_int_min_panics cpu sig s : 0 ≤ sig ≤ 64 → do_kill cpu (- 2 ^ 31) sig s = (Panic, s).
Proof.
  intros Hs. unfold do_kill, valid_signal. rewrite (proj2 (Z.leb_le 0 sig)), (proj2 (Z.leb_le sig 64)) by lia.
  cbn [andb negb]. destruct (sig =? 0); reflexivity.
Qed.

(** ** Demonstration: process 7 on CPU 0 has SIGUSR1 (10) and SIGUSR2 (12)
    pending, SIGINT (2) pending and blocked, and a handler for 10 and 15 *)

Definition demo_frame : AArch64.TrapFrame := AArch64.mkFrame ((λ i, 100 + i) <$> seqZ 0 31) 0x7000 0x400000 0.

Definition demo_sig : Sig :=
  mkSig demo_k {[7 := 2562]} {[7 := 2]} ∅
    {[7 := {[10 := mkAct 0x401000 0 0x402000 0; 15 := mkAct 0x401000 0 0x402000 0]}]} ∅ ∅.

Lemma demo_sig_words : words_ok demo_sig 7.
Proof. split; (split; [vm_compute; discriminate|reflexivity]). Qed.

(** Checking the 64 signals one by one. *)
Lemma deliverable_in (s : Sig) pid (l : list Z) :
  filter (λ j, Z.testbit (pending_of s pid) (j - 1) && negb (Z.testbit (blocked_of s pid) (j - 1)) = true) (seqZ 1 64) = l →
  ∀ j, deliverable s pid j ↔ j ∈ l.
Proof.
  intros <- j. unfold deliverable. rewrite list_elem_of_filter, elem_of_seqZ, andb_true_iff, negb_true_iff. intuition lia.
Qed.

Lemma demo_sig_lowest : lowest_deliverable demo_sig 7 10.
Proof.
  assert (∀ j, deliverable demo_sig 7 j ↔ j ∈ [10; 12]) as H by (apply deliverable_in; reflexivity). split.
  - apply H. by left.
  - intros j [->|[->|?%not_elem_of_nil]%elem_of_cons]%H%elem_of_cons; [lia|lia|done].
Qed.

Lemma dispatch_lowest_witness :
  ∃ f' s', dispatch_pending 0 demo_frame demo_sig = (Ok (f', None), s') ∧ reg f' 0 = 10 ∧ pc f' = 0x401000 ∧
    reg f' 30 = 0x402000.
Proof.
  destruct (dispatch_lowest 0 demo_sig demo_frame) as [_ H]; [exact demo_sig_words|reflexivity|].
  destruct (H 10) as [_ Hh].
  - exact (not_elem_of_empty (C := gset Z) 7).
  - exact demo_sig_lowest.
  - destruct Hh as (f' & s' & c & E & _ & _ & _ & _ & _ & _ & _ & _ & Epc & _ & E0 & _ & _ & E30 & _); [reflexivity|].
    exists f', s'. split; [exact E|]. split; [exact E0|]. split; [exact Epc|exact E30].
Defined.

(** The state in which the handler of 10 returns: 12 has been blocked meanwhile. *)
Definition demo_return : Sig :=
  mkSig demo_k {[7 := 2050]} {[7 := 2050]} {[7]} (SIGACTIONS demo_sig)
    {[7 := mkSaved (AArch64.regs demo_frame) 0x7000 0x400000 false]} ∅.

Lemma demo_return_none : ∀ j, ¬ deliverable demo_return 7 j.
Proof. intros j. rewrite (deliverable_in demo_return 7 []); [apply not_elem_of_nil|reflexivity]. Qed.

Lemma signal_roundtrip_witness :
  ∃ f3 s3, handle_sigreturn 0 (AArch64.mkFrame (replicate 31 9) 0x6000 0x402008 0) demo_return = (Ok (f3, None), s3) ∧
    pc f3 = pc demo_frame ∧ reg f3 0 = reg demo_frame 0.
Proof.
  destruct (signal_roundtrip 0 demo_sig demo_frame 10) as (f1 & s1 & E & H).
  - exact demo_sig_words.
  - exact (not_elem_of_empty (C := gset Z) 7).
  - exact demo_sig_lowest.
  - reflexivity.
  - destruct (H (AArch64.mkFrame (replicate 31 9) 0x6000 0x402008 0) demo_return) as (f3 & s3 & Hr & Hpc & _ & _ & E3 & _).
    + reflexivity.
    + reflexivity.
    + rewrite (dispatch_handler 0 demo_sig demo_frame 10 demo_sig_words (not_elem_of_empty (C := gset Z) 7)
        demo_sig_lowest eq_refl) in E. injection E as _ <-. reflexivity.
    + exists f3, s3. split; [|split; [exact Hpc|apply Hr; lia]]. apply E3; [|exact demo_return_none].
      split; (split; [vm_compute; discriminate|reflexivity]).
Defined.

(** SIGTERM (15) to process 7, which has a handler for it. *)
Lemma kill_fatal_unconditional_witness :
  handler (action_of 7 15 demo_sig) = 0x401000 ∧
  ∃ s', do_kill 1 7 15 demo_sig = (Ok 0, s') ∧ PROCESS_TABLE (kern s') !! 7 = None.
Proof.
  split; [reflexivity|].
  destruct (kill_fatal_unconditional 1 7 15 demo_sig) as (s' & E & H & _).
  - reflexivity.
  - lia.
  - exact demo_k_keyed.
  - exists 7, (demo_proc 7 3). split; reflexivity.
  - exists s'. split; [exact E|]. apply (H 7 (demo_proc 7 3)); reflexivity.
Defined.

Lemma kill_int_min_panics_witness : do_kill 1 (-2147483648) 0 demo_sig = (Panic, demo_sig).
Proof. apply (kill_int_min_panics 1 0 demo_sig). lia. Defined.
