(* ===== verification/Sock.v ===== *)
(** * Sockets: the tables of [net/mod.rs]

    Sockets are keyed by the descriptor they were created under, their owner; a
    duplicated descriptor is an alias of the owner.  This file has the tables and
    the operations that touch nothing else, among them the two the descriptor table
    calls ([cleanup_socket_fd], [clone_socket_fd]).  The system calls are in
    [NetSys]. *)

From S2P Require Import Prelude.
From S2P Require Import Path.

Record SocketState := mkSock {
  domain : Z; sock_type : Z; protocol : Z; bound : bool; connected : bool; listening : bool; backlog : Z;
  local_addr : Z; local_port : Z; peer_addr : Z; peer_port : Z; peer_owner : Z; last_error : Z;
  creator_pid : Z; creator_uid : Z; creator_gid : Z }.

(** [SOCKET_RIGHTS] holds handles of open files. *)
Record Net := mkNet {
  SOCKET_STATE : gmap Z SocketState; SOCKET_PENDING : gmap Z (list Z); SOCKET_RX : gmap Z (list Z);
  SOCKET_ALIAS : gmap Z Z; UNIX_PATH_OWNER : gmap (list Z) Z; OWNER_UNIX_PATH : gmap Z (list Z);
  SOCKET_RIGHTS : gmap Z (list Z) }.

Definition no_sockets : Net := mkNet ∅ ∅ ∅ ∅ ∅ ∅ ∅.

Definition AF_UNIX : Z := 1.
Definition AF_INET : Z := 2.
Definition POLLIN : Z := 0x1.
Definition POLLOUT : Z := 0x4.
Definition POLLERR : Z := 0x8.
Definition POLLHUP : Z := 0x10.

Definition set_state (x : gmap Z SocketState) (n : Net) : Net :=
  mkNet x (SOCKET_PENDING n) (SOCKET_RX n) (SOCKET_ALIAS n) (UNIX_PATH_OWNER n) (OWNER_UNIX_PATH n) (SOCKET_RIGHTS n).
Definition set_pending (x : gmap Z (list Z)) (n : Net) : Net :=
  mkNet (SOCKET_STATE n) x (SOCKET_RX n) (SOCKET_ALIAS n) (UNIX_PATH_OWNER n) (OWNER_UNIX_PATH n) (SOCKET_RIGHTS n).
Definition set_rx (x : gmap Z (list Z)) (n : Net) : Net :=
  mkNet (SOCKET_STATE n) (SOCKET_PENDING n) x (SOCKET_ALIAS n) (UNIX_PATH_OWNER n) (OWNER_UNIX_PATH n) (SOCKET_RIGHTS n).
Definition set_alias (x : gmap Z Z) (n : Net) : Net :=
  mkNet (SOCKET_STATE n) (SOCKET_PENDING n) (SOCKET_RX n) x (UNIX_PATH_OWNER n) (OWNER_UNIX_PATH n) (SOCKET_RIGHTS n).
Definition set_paths (x : gmap (list Z) Z) (y : gmap Z (list Z)) (n : Net) : Net :=
  mkNet (SOCKET_STATE n) (SOCKET_PENDING n) (SOCKET_RX n) (SOCKET_ALIAS n) x y (SOCKET_RIGHTS n).
Definition set_rights (x : gmap Z (list Z)) (n : Net) : Net :=
  mkNet (SOCKET_STATE n) (SOCKET_PENDING n) (SOCKET_RX n) (SOCKET_ALIAS n) (UNIX_PATH_OWNER n) (OWNER_UNIX_PATH n) x.

(** Updates of one socket's record. *)
Definition with_error (e : Z) (s : SocketState) : SocketState :=
  mkSock (domain s) (sock_type s) (protocol s) (bound s) (connected s) (listening s) (backlog s) (local_addr s) (local_port s)
    (peer_addr s) (peer_port s) (peer_owner s) e (creator_pid s) (creator_uid s) (creator_gid s).
Definition with_local (addr port : Z) (s : SocketState) : SocketState :=
  mkSock (domain s) (sock_type s) (protocol s) true (connected s) (listening s) (backlog s) addr port
    (peer_addr s) (peer_port s) (peer_owner s) (last_error s) (creator_pid s) (creator_uid s) (creator_gid s).
Definition with_listening (n : Z) (s : SocketState) : SocketState :=
  mkSock (domain s) (sock_type s) (protocol s) (bound s) (connected s) true n (local_addr s) (local_port s)
    (peer_addr s) (peer_port s) (peer_owner s) (last_error s) (creator_pid s) (creator_uid s) (creator_gid s).
Definition with_connected (b : bool) (s : SocketState) : SocketState :=
  mkSock (domain s) (sock_type s) (protocol s) (bound s) b (listening s) (backlog s) (local_addr s) (local_port s)
    (peer_addr s) (peer_port s) (peer_owner s) (last_error s) (creator_pid s) (creator_uid s) (creator_gid s).
Definition with_peer (addr port : Z) (s : SocketState) : SocketState :=
  mkSock (domain s) (sock_type s) (protocol s) (bound s) (connected s) (listening s) (backlog s) (local_addr s) (local_port s)
    addr port (peer_owner s) (last_error s) (creator_pid s) (creator_uid s) (creator_gid s).
Definition with_peer_owner (o : Z) (s : SocketState) : SocketState :=
  mkSock (domain s) (sock_type s) (protocol s) (bound s) (connected s) (listening s) (backlog s) (local_addr s) (local_port s)
    (peer_addr s) (peer_port s) o (last_error s) (creator_pid s) (creator_uid s) (creator_gid s).

Definition on_state (o : Z) (f : SocketState → SocketState) (n : Net) : Net := set_state (alter f o (SOCKET_STATE n)) n.

Definition owner_of (fd : Z) (n : Net) : Z := default fd (SOCKET_ALIAS n !! fd).

Definition set_socket_error (fd err : Z) (n : Net) : Net := on_state (owner_of fd n) (with_error err) n.

(** [entry(k).or_default()] *)
Definition or_default {A} (k : Z) (m : gmap Z (list A)) : gmap Z (list A) := <[k := default [] (m !! k)]> m.

(** The records [alloc_socket_fd] adds for its new descriptor. *)
Definition new_state (dom typ proto pid uid gid : Z) : SocketState :=
  mkSock dom typ proto false false false 0 0 0 0 0 (-1) 0 pid uid gid.
Definition register_socket (fd : Z) (s : SocketState) (n : Net) : Net :=
  let n := set_alias (<[fd := fd]> (SOCKET_ALIAS n)) n in
  let n := set_state (<[fd := s]> (SOCKET_STATE n)) n in
  let n := set_pending (or_default fd (SOCKET_PENDING n)) n in
  set_rx (or_default fd (SOCKET_RX n)) n.

(** [values().any(|&v| v == owner)] *)
Definition has_alias (owner : Z) (n : Net) : bool := existsb (Z.eqb owner) (bvalues (SOCKET_ALIAS n)).

Definition drop_path (owner : Z) (n : Net) : Net :=
  match OWNER_UNIX_PATH n !! owner with
  | Some path => set_paths (delete path (UNIX_PATH_OWNER n)) (delete owner (OWNER_UNIX_PATH n)) n
  | None => n
  end.

Definition hang_up (owner : Z) (s : SocketState) : SocketState :=
  if peer_owner s =? owner then with_connected false (with_peer_owner (-1) s) else s.

Definition forget_owner (owner : Z) (n : Net) : Net :=
  let n := set_state (delete owner (SOCKET_STATE n)) n in
  let n := set_pending (delete owner (SOCKET_PENDING n)) n in
  let n := set_rx (delete owner (SOCKET_RX n)) n in
  let n := set_rights (delete owner (SOCKET_RIGHTS n)) n in
  let n := drop_path owner n in
  let n := set_state (hang_up owner <$> SOCKET_STATE n) n in
  set_pending (filter (λ p, p ≠ owner) <$> SOCKET_PENDING n) n.

Definition cleanup_socket_fd (fd : Z) (n : Net) : Net :=
  let owner := owner_of fd n in
  let n := set_alias (delete fd (SOCKET_ALIAS n)) n in
  if has_alias owner n then n else forget_owner owner n.

Definition clone_socket_fd (oldfd newfd : Z) (n : Net) : Net :=
  set_alias (<[newfd := owner_of oldfd n]> (SOCKET_ALIAS n)) n.

Definition nonempty {A} (o : option (list A)) : bool := match o with Some (_ :: _) => true | _ => false end.

(** [socket_poll_mask] for a descriptor that is a socket. *)
Definition socket_poll_mask (fd : Z) (n : Net) : Z :=
  let owner := owner_of fd n in
  let m := POLLOUT in
  let m := if nonempty (SOCKET_RX n !! owner) then Z.lor m POLLIN else m in
  let m := if nonempty (SOCKET_PENDING n !! owner) then Z.lor m POLLIN else m in
  if match SOCKET_STATE n !! owner with Some s => negb (listening s) && (peer_owner s <? 0) && negb (connected s) | None => false end
  then Z.lor m POLLHUP else m.

(** Appending to a receive queue. *)
Definition push_rx (owner : Z) (data : list Z) (n : Net) : Net :=
  set_rx (<[owner := default [] (SOCKET_RX n !! owner) ++ data]> (SOCKET_RX n)) n.

(** The two ends of [do_socketpair], and of an accepted connection. *)
Definition join_end (peer : Z) (s : SocketState) : SocketState :=
  with_peer_owner peer (with_connected true (with_local (local_addr s) (local_port s) s)).
Definition join_pair (o0 o1 : Z) (n : Net) : Net := on_state o1 (join_end o0) (on_state o0 (join_end o1) n).

Definition link_accepted (listener client : SocketState) (acc cli : Z) (n : Net) : Net :=
  let n := on_state acc (λ s, with_peer_owner cli (with_peer (local_addr client) (local_port client)
             (with_connected true (with_local (local_addr listener) (local_port listener) s)))) n in
  on_state cli (λ s, with_peer_owner acc (with_peer (local_addr listener) (local_port listener) (with_connected true s))) n.

(** ** The invariant *)

(** Aliases and owners agree; peers point at each other and are connected; a
    client waits in at most one queue, once, connected to nobody yet; only live
    sockets have queues. *)
Record net_inv (n : Net) : Prop := {
  inv_alias : ∀ fd o, SOCKET_ALIAS n !! fd = Some o → is_Some (SOCKET_STATE n !! o);
  inv_owner : ∀ o, is_Some (SOCKET_STATE n !! o) → 0 ≤ o ∧ ∃ fd, SOCKET_ALIAS n !! fd = Some o;
  inv_peer : ∀ o s, SOCKET_STATE n !! o = Some s → 0 ≤ peer_owner s →
    connected s = true ∧ ∃ s', SOCKET_STATE n !! peer_owner s = Some s' ∧ peer_owner s' = o;
  inv_queued : ∀ o q c, SOCKET_PENDING n !! o = Some q → c ∈ q →
    ∃ s, SOCKET_STATE n !! c = Some s ∧ peer_owner s < 0 ∧ connected s = true;
  inv_once : ∀ o q o' q' c, SOCKET_PENDING n !! o = Some q → SOCKET_PENDING n !! o' = Some q' → c ∈ q → c ∈ q' → o = o';
  inv_nodup : ∀ o q, SOCKET_PENDING n !! o = Some q → NoDup q;
  inv_pending : ∀ o, is_Some (SOCKET_PENDING n !! o) → is_Some (SOCKET_STATE n !! o);
  inv_rx : ∀ o, is_Some (SOCKET_RX n !! o) → is_Some (SOCKET_STATE n !! o) }.

(** Nothing in the tables mentions [o]. *)
Definition forgotten (o : Z) (n : Net) : Prop :=
  SOCKET_STATE n !! o = None ∧ SOCKET_PENDING n !! o = None ∧ SOCKET_RX n !! o = None ∧ SOCKET_RIGHTS n !! o = None ∧
  OWNER_UNIX_PATH n !! o = None ∧ (∀ fd, SOCKET_ALIAS n !! fd ≠ Some o) ∧
  (∀ p s, SOCKET_STATE n !! p = Some s → peer_owner s ≠ o) ∧ (∀ p q, SOCKET_PENDING n !! p = Some q → o ∉ q).

Lemma has_alias_spec o n : has_alias o n = true ↔ ∃ fd, SOCKET_ALIAS n !! fd = Some o.
Proof.
  unfold has_alias. rewrite existsb_exists. split.
  - intros (v & Hv & ->%Z.eqb_eq). apply list_elem_of_In, elem_of_bvalues in Hv. exact Hv.
  - intros Hx. exists o. rewrite Z.eqb_refl. split; [|done]. by apply list_elem_of_In, elem_of_bvalues.
Qed.

Lemma drop_path_other o n : SOCKET_STATE (drop_path o n) = SOCKET_STATE n ∧ SOCKET_PENDING (drop_path o n) = SOCKET_PENDING n ∧
  SOCKET_RX (drop_path o n) = SOCKET_RX n ∧ SOCKET_ALIAS (drop_path o n) = SOCKET_ALIAS n ∧
  SOCKET_RIGHTS (drop_path o n) = SOCKET_RIGHTS n ∧ OWNER_UNIX_PATH (drop_path o n) !! o = None.
Proof. unfold drop_path. destruct (OWNER_UNIX_PATH n !! o) eqn:E; [|done]. cbn. split_and!; try done. by rewrite lookup_delete, decide_True. Qed.

Lemma forget_state o n p : SOCKET_STATE (forget_owner o n) !! p = if bool_decide (p = o) then None else hang_up o <$> SOCKET_STATE n !! p.
Proof.
  unfold forget_owner. cbv zeta. cbn [SOCKET_STATE set_pending set_state].
  destruct (drop_path_other o (set_rights (delete o (SOCKET_RIGHTS n)) (set_rx (delete o (SOCKET_RX n))
    (set_pending (delete o (SOCKET_PENDING n)) (set_state (delete o (SOCKET_STATE n)) n))))) as (E & _).
  cbn in E |- *. rewrite E, lookup_fmap. case_bool_decide; [subst; by rewrite lookup_delete, decide_True|by rewrite lookup_delete_ne].
Qed.

Lemma forget_pending o n p : SOCKET_PENDING (forget_owner o n) !! p =
  if bool_decide (p = o) then None else filter (λ c, c ≠ o) <$> SOCKET_PENDING n !! p.
Proof.
  unfold forget_owner. cbv zeta. cbn [SOCKET_PENDING set_pending set_state].
  destruct (drop_path_other o (set_rights (delete o (SOCKET_RIGHTS n)) (set_rx (delete o (SOCKET_RX n))
    (set_pending (delete o (SOCKET_PENDING n)) (set_state (delete o (SOCKET_STATE n)) n))))) as (_ & E & _).
  cbn in E |- *. rewrite E, lookup_fmap. case_bool_decide; [subst; by rewrite lookup_delete, decide_True|by rewrite lookup_delete_ne].
Qed.

Lemma forget_other o n : SOCKET_RX (forget_owner o n) = delete o (SOCKET_RX n) ∧ SOCKET_ALIAS (forget_owner o n) = SOCKET_ALIAS n ∧
  SOCKET_RIGHTS (forget_owner o n) = delete o (SOCKET_RIGHTS n) ∧ OWNER_UNIX_PATH (forget_owner o n) !! o = None.
Proof.
  unfold forget_owner. cbv zeta.
  destruct (drop_path_other o (set_rights (delete o (SOCKET_RIGHTS n)) (set_rx (delete o (SOCKET_RX n))
    (set_pending (delete o (SOCKET_PENDING n)) (set_state (delete o (SOCKET_STATE n)) n))))) as (_ & _ & E3 & E4 & E5 & E6).
  cbn in *. done.
Qed.

Lemma hang_up_peer o s : 0 ≤ peer_owner (hang_up o s) → hang_up o s = s ∧ peer_owner s ≠ o.
Proof. unfold hang_up. destruct (Z.eqb_spec (peer_owner s) o); [cbn; lia|done]. Qed.

Lemma hang_up_other o s : peer_owner s ≠ o → hang_up o s = s.
Proof. intros. unfold hang_up. by rewrite (proj2 (Z.eqb_neq _ _)). Qed.

Lemma forget_forgotten o n : 0 ≤ o → (∀ fd, SOCKET_ALIAS n !! fd ≠ Some o) → forgotten o (forget_owner o n).
Proof.
  intros Ho Hno. destruct (forget_other o n) as (Erx & Eal & Eri & Epa).
  unfold forgotten. rewrite Erx, Eri, Eal, Epa, !lookup_delete, !decide_True, forget_state, forget_pending, bool_decide_eq_true_2 by done.
  split_and!; try done.
  - intros p s. rewrite forget_state. case_bool_decide; [done|]. destruct (SOCKET_STATE n !! p) as [s0|]; [|done]. intros [= <-].
    unfold hang_up. destruct (Z.eqb_spec (peer_owner s0) o); cbn; lia.
  - intros p q. rewrite forget_pending. case_bool_decide; [done|]. destruct (SOCKET_PENDING n !! p) as [q0|]; [|done]. intros [= <-].
    by intros [? _]%list_elem_of_filter.
Qed.

(** What survives [forget_owner]. *)
Lemma forget_inv o n : 0 ≤ o → (∀ fd, SOCKET_ALIAS n !! fd ≠ Some o) →
  (∀ fd o', SOCKET_ALIAS n !! fd = Some o' → is_Some (SOCKET_STATE n !! o')) →
  (∀ o', is_Some (SOCKET_STATE n !! o') → 0 ≤ o' ∧ (o' ≠ o → ∃ fd, SOCKET_ALIAS n !! fd = Some o')) →
  (∀ o s, SOCKET_STATE n !! o = Some s → 0 ≤ peer_owner s →
    connected s = true ∧ ∃ s', SOCKET_STATE n !! peer_owner s = Some s' ∧ peer_owner s' = o) →
  (∀ o q c, SOCKET_PENDING n !! o = Some q → c ∈ q → ∃ s, SOCKET_STATE n !! c = Some s ∧ peer_owner s < 0 ∧ connected s = true) →
  (∀ o q o' q' c, SOCKET_PENDING n !! o = Some q → SOCKET_PENDING n !! o' = Some q' → c ∈ q → c ∈ q' → o = o') →
  (∀ o q, SOCKET_PENDING n !! o = Some q → NoDup q) →
  (∀ o, is_Some (SOCKET_PENDING n !! o) → is_Some (SOCKET_STATE n !! o)) →
  (∀ o, is_Some (SOCKET_RX n !! o) → is_Some (SOCKET_STATE n !! o)) →
  net_inv (forget_owner o n) ∧ forgotten o (forget_owner o n).
Proof.
  intros Ho Hno H1 H2 H3 H4 H5 H6 H7 H8. destruct (forget_other o n) as (Erx & Eal & Eri & Epa).
  assert (∀ p s, SOCKET_STATE (forget_owner o n) !! p = Some s → p ≠ o ∧ ∃ s0, SOCKET_STATE n !! p = Some s0 ∧ s = hang_up o s0) as Hst.
  { intros p s. rewrite forget_state. case_bool_decide; [done|]. destruct (SOCKET_STATE n !! p) as [s0|]; [|done]. intros [= <-]. eauto. }
  assert (∀ p, p ≠ o → is_Some (SOCKET_STATE n !! p) → is_Some (SOCKET_STATE (forget_owner o n) !! p)) as Hlive.
  { intros p Hp [s Hs]. rewrite forget_state, bool_decide_eq_false_2, Hs by done. eauto. }
  assert (∀ p q, SOCKET_PENDING (forget_owner o n) !! p = Some q →
    p ≠ o ∧ ∃ q0, SOCKET_PENDING n !! p = Some q0 ∧ q = filter (λ c, c ≠ o) q0) as Hpe.
  { intros p q. rewrite forget_pending. case_bool_decide; [done|]. destruct (SOCKET_PENDING n !! p) as [q0|]; [|done]. intros [= <-]. eauto. }
  split.
  - split.
    + intros fd o' Hal. rewrite Eal in Hal. apply Hlive; [intros ->; by eapply Hno|by eapply H1].
    + intros o' [s Hs]. destruct (Hst _ _ Hs) as (Hne & s0 & Hs0 & _). rewrite Eal.
      destruct (H2 o' ltac:(eauto)) as [? Hf]. auto.
    + intros p s Hs Hpo. destruct (Hst _ _ Hs) as (Hne & s0 & Hs0 & ->). destruct (hang_up_peer _ _ Hpo) as [E Hpn]. rewrite E in *.
      destruct (H3 _ _ Hs0 Hpo) as [Hc (s' & Hs' & Hp')]. split; [done|].
      exists s'. rewrite forget_state, bool_decide_eq_false_2, Hs' by done. cbn. rewrite hang_up_other by congruence. done.
    + intros p q c Hq Hc. destruct (Hpe _ _ Hq) as (_ & q0 & Hq0 & ->). apply list_elem_of_filter in Hc as [Hco Hc].
      destruct (H4 _ _ _ Hq0 Hc) as (s & Hs & Hp & Hcn). exists s. rewrite forget_state, bool_decide_eq_false_2, Hs by done. cbn.
      rewrite hang_up_other by lia. done.
    + intros p q p' q' c Hq Hq'. destruct (Hpe _ _ Hq) as (_ & q0 & Hq0 & ->). destruct (Hpe _ _ Hq') as (_ & q1 & Hq1 & ->).
      intros [_ Hc]%list_elem_of_filter [_ Hc']%list_elem_of_filter. eauto.
    + intros p q Hq. destruct (Hpe _ _ Hq) as (_ & q0 & Hq0 & ->). apply NoDup_filter. eauto.
    + intros p [q Hq]. destruct (Hpe _ _ Hq) as (Hne & q0 & Hq0 & _). apply Hlive; [done|]. eauto.
    + intros p. rewrite Erx. intros [x Hx]. apply lookup_delete_Some in Hx as [Hne Hx]. apply Hlive; [congruence|]. eauto.
  - by apply forget_forgotten.
Qed.

(** Closing a descriptor keeps the invariant; with the last descriptor of a socket
    goes everything the tables say about it. *)
Lemma cleanup_inv fd n o : net_inv n → SOCKET_ALIAS n !! fd = Some o →
  net_inv (cleanup_socket_fd fd n) ∧
  ((∀ fd', fd' ≠ fd → SOCKET_ALIAS n !! fd' ≠ Some o) → forgotten o (cleanup_socket_fd fd n)).
Proof.
  intros [H1 H2 H3 H4 H5 H6 H7 H8] Hfd. unfold cleanup_socket_fd, owner_of. rewrite Hfd. cbn [default].
  set (n1 := set_alias _ n). assert (∀ fd' o', SOCKET_ALIAS n1 !! fd' = Some o' ↔ fd' ≠ fd ∧ SOCKET_ALIAS n !! fd' = Some o') as Hal.
  { intros. cbn. rewrite lookup_delete_Some. naive_solver. }
  assert (∀ o', o' ≠ o → is_Some (SOCKET_STATE n !! o') → ∃ fd', SOCKET_ALIAS n1 !! fd' = Some o') as Hown.
  { intros o' Hne Ho'. destruct (H2 _ Ho') as [_ [fd' Hf]]. exists fd'. apply Hal. split; [congruence|done]. }
  cbn [id from_option]. destruct (has_alias o n1) eqn:Ha.
  - apply has_alias_spec in Ha. split.
    + split; try done.
      * intros fd' o' Hf%Hal. naive_solver.
      * intros o' Ho'. split; [by apply H2|]. destruct (decide (o' = o)) as [->|]; auto.
    + intros Hlast. destruct Ha as [fd' [Hne Hf]%Hal]. exfalso. exact (Hlast fd' Hne Hf).
  - assert (∀ fd', SOCKET_ALIAS n1 !! fd' ≠ Some o) as Hno.
    { intros fd' Hf. assert (has_alias o n1 = true) by (apply has_alias_spec; eauto). congruence. }
    pose proof (H2 o (H1 _ _ Hfd)) as [Hpos _]. apply (forget_inv o n1) in Hno as [? ?]; try done.
    + intros fd' o' Hf%Hal. naive_solver.
    + intros o' Ho'. split; [by apply H2|]. auto.
Qed.

(** ** The other updates *)

Lemma on_state_lookup o f n p : SOCKET_STATE (on_state o f n) !! p = if bool_decide (p = o) then f <$> SOCKET_STATE n !! p else SOCKET_STATE n !! p.
Proof. cbn. case_bool_decide; [subst; by rewrite lookup_alter, decide_True|by rewrite lookup_alter_ne]. Qed.

Lemma on_state_live o f n p : is_Some (SOCKET_STATE (on_state o f n) !! p) ↔ is_Some (SOCKET_STATE n !! p).
Proof. rewrite on_state_lookup. case_bool_decide; [apply fmap_is_Some|done]. Qed.

(** An update that leaves the connection alone. *)
Definition benign (f : SocketState → SocketState) : Prop := ∀ s, peer_owner (f s) = peer_owner s ∧ connected (f s) = connected s.

Lemma on_state_benign o f n p s : benign f → SOCKET_STATE (on_state o f n) !! p = Some s →
  ∃ s0, SOCKET_STATE n !! p = Some s0 ∧ peer_owner s = peer_owner s0 ∧ connected s = connected s0.
Proof.
  intros Hf. rewrite on_state_lookup. case_bool_decide; [|eauto]. destruct (SOCKET_STATE n !! p) as [s0|]; [|done].
  intros [= <-]. exists s0. destruct (Hf s0). auto.
Qed.

Lemma benign_inv o f n : benign f → net_inv n → net_inv (on_state o f n).
Proof.
  intros Hf [H1 H2 H3 H4 H5 H6 H7 H8].
  assert (∀ p s, SOCKET_STATE n !! p = Some s →
    ∃ s', SOCKET_STATE (on_state o f n) !! p = Some s' ∧ peer_owner s' = peer_owner s ∧ connected s' = connected s) as Hfw.
  { intros p s Hs. rewrite on_state_lookup, Hs. case_bool_decide; [|eauto]. cbn. destruct (Hf s). eauto. }
  split; try done.
  - intros fd p Hp. apply on_state_live. eauto.
  - intros p Hp%on_state_live. eauto.
  - intros p s Hs Hpo. destruct (on_state_benign _ _ _ _ _ Hf Hs) as (s0 & Hs0 & Ep & Ec). rewrite Ep in *. rewrite Ec.
    destruct (H3 _ _ Hs0 Hpo) as [Hc (s' & Hs' & Hp')]. split; [done|]. destruct (Hfw _ _ Hs') as (s'' & ? & E & _). exists s''. by rewrite E.
  - intros p q c Hq Hc. destruct (H4 _ _ _ Hq Hc) as (s & Hs & Hp & Hcn). destruct (Hfw _ _ Hs) as (s' & ? & Ep & Ec).
    exists s'. by rewrite Ep, Ec.
  - intros p Hp. apply on_state_live. auto.
  - intros p Hp. apply on_state_live. auto.
Qed.

Lemma or_default_lookup {A} k (m : gmap Z (list A)) p x : or_default k m !! p = Some x →
  (p = k ∧ m !! k = None ∧ x = []) ∨ m !! p = Some x.
Proof.
  unfold or_default. destruct (decide (p = k)) as [->|]; [rewrite lookup_insert, decide_True by done|rewrite lookup_insert_ne by done; auto].
  destruct (m !! k); cbn; intros [= <-]; auto.
Qed.

Lemma pending_default_inv o n : net_inv n → is_Some (SOCKET_STATE n !! o) → net_inv (set_pending (or_default o (SOCKET_PENDING n)) n).
Proof.
  intros [H1 H2 H3 H4 H5 H6 H7 H8] Ho. split; try done.
  - intros p q c [(_ & _ & ->)|Hq]%or_default_lookup Hc; [by apply elem_of_nil in Hc|eauto].
  - intros p q p' q' c [(_ & _ & ->)|Hq]%or_default_lookup; [by rewrite elem_of_nil|].
    intros [(_ & _ & ->)|Hq']%or_default_lookup; [by rewrite elem_of_nil|eauto].
  - intros p q [(_ & _ & ->)|Hq]%or_default_lookup; [constructor|eauto].
  - intros p [q [(-> & _)|Hq]%or_default_lookup]; [done|]. apply H7. eauto.
Qed.

Lemma set_rx_inv n o x : net_inv n → is_Some (SOCKET_STATE n !! o) → net_inv (set_rx (<[o := x]> (SOCKET_RX n)) n).
Proof.
  intros [H1 H2 H3 H4 H5 H6 H7 H8] Ho. split; try done. intros p [y Hy]. cbn in Hy.
  apply lookup_insert_Some in Hy as [[<- _]|[_ Hy]]; [done|]. apply H8. eauto.
Qed.

(** A new socket under a descriptor no socket uses. *)
Lemma register_inv fd s n : net_inv n → 0 ≤ fd → SOCKET_STATE n !! fd = None → SOCKET_ALIAS n !! fd = None → peer_owner s < 0 →
  net_inv (register_socket fd s n).
Proof.
  intros [H1 H2 H3 H4 H5 H6 H7 H8] Hfd Hst Hal Hs. unfold register_socket. cbv zeta.
  set (n1 := set_state _ _). assert (∀ p, p ≠ fd → SOCKET_STATE n1 !! p = SOCKET_STATE n !! p) as Hne by (intros; cbn; by rewrite lookup_insert_ne).
  assert (SOCKET_STATE n1 !! fd = Some s) as Hfd1 by (cbn; by rewrite lookup_insert, decide_True).
  assert (∀ p, is_Some (SOCKET_STATE n !! p) → p ≠ fd) as Hl by (intros p [? ?] ->; congruence).
  assert (∀ p, is_Some (SOCKET_STATE n !! p) → is_Some (SOCKET_STATE n1 !! p)) as Hgo by (intros p Hp; rewrite Hne by auto; done).
  assert (net_inv n1) as Hn1.
  { split; try done.
    - intros f o. cbn. rewrite lookup_insert_Some. intros [[<- <-]|[_ Hf]]; [by rewrite lookup_insert, decide_True|]. apply Hgo. eauto.
    - intros o Ho. destruct (decide (o = fd)) as [->|Hn]; [split; [done|]; exists fd; cbn; by rewrite lookup_insert, decide_True|].
      rewrite Hne in Ho by done. destruct (H2 _ Ho) as [? [f Hf]]. split; [done|]. exists f. cbn. rewrite lookup_insert_ne; [done|congruence].
    - intros o t. destruct (decide (o = fd)) as [->|Hn]; [rewrite Hfd1; intros [= <-]; lia|]. rewrite Hne by done. intros Ht Hp.
      destruct (H3 _ _ Ht Hp) as [Hc (s' & Hs' & Hp')]. split; [done|]. exists s'. rewrite Hne; [done|]. apply Hl. eauto.
    - intros o q c Hq Hc. destruct (H4 _ _ _ Hq Hc) as (s' & Hs' & Hr). exists s'. rewrite Hne; [done|]. apply Hl. eauto.
    - intros o Ho. apply Hgo. by apply H7.
    - intros o Ho. apply Hgo. by apply H8. }
  apply (set_rx_inv _ fd); [|cbn; rewrite lookup_insert, decide_True; eauto].
  apply (pending_default_inv fd n1); [done|]. rewrite Hfd1. eauto.
Qed.

Lemma clone_inv old new n o : net_inv n → SOCKET_ALIAS n !! old = Some o → SOCKET_ALIAS n !! new = None →
  net_inv (clone_socket_fd old new n).
Proof.
  intros [H1 H2 H3 H4 H5 H6 H7 H8] Hold Hnew. unfold clone_socket_fd, owner_of. rewrite Hold. split; try done.
  - intros fd p. cbn. rewrite lookup_insert_Some. intros [[<- <-]|[_ Hf]]; eauto.
  - intros p Hp. destruct (H2 _ Hp) as [? [f Hf]]. split; [done|]. exists f. cbn. rewrite lookup_insert_ne; [done|congruence].
Qed.

(** Two sockets that are connected to nobody become peers. *)
Lemma peers_inv o0 o1 f0 f1 n s0 s1 : net_inv n → o0 ≠ o1 → SOCKET_STATE n !! o0 = Some s0 → SOCKET_STATE n !! o1 = Some s1 →
  peer_owner s0 < 0 → peer_owner s1 < 0 → (∀ o q, SOCKET_PENDING n !! o = Some q → (o0 ∉ q) ∧ (o1 ∉ q)) →
  peer_owner (f0 s0) = o1 → connected (f0 s0) = true → peer_owner (f1 s1) = o0 → connected (f1 s1) = true →
  net_inv (on_state o1 f1 (on_state o0 f0 n)).
Proof.
  intros [H1 H2 H3 H4 H5 H6 H7 H8] Hne Hs0 Hs1 Hp0 Hp1 Hq P0 C0 P1 C1. set (n' := on_state o1 f1 _).
  assert (∀ p, SOCKET_STATE n' !! p = if bool_decide (p = o1) then Some (f1 s1) else if bool_decide (p = o0) then Some (f0 s0) else SOCKET_STATE n !! p) as Hl.
  { intros p. unfold n'. rewrite !on_state_lookup. repeat case_bool_decide; subst; try done; [by rewrite Hs1|by rewrite Hs0]. }
  assert (∀ p, is_Some (SOCKET_STATE n' !! p) ↔ is_Some (SOCKET_STATE n !! p)) as Hlive by (intros p; unfold n'; by rewrite !on_state_live).
  split; try done.
  - intros fd p Hp. apply Hlive. eauto.
  - intros p Hp%Hlive. eauto.
  - intros p s. rewrite Hl. case_bool_decide as E1; [|case_bool_decide as E0].
    + intros [= <-] _. subst p. rewrite P1, C1. split; [done|]. exists (f0 s0).
      rewrite Hl, bool_decide_eq_false_2, bool_decide_eq_true_2 by done. done.
    + intros [= <-] _. subst p. rewrite P0, C0. split; [done|]. exists (f1 s1). by rewrite Hl, bool_decide_eq_true_2.
    + intros Hs Hp. destruct (H3 _ _ Hs Hp) as [Hc (s' & Hs' & Hp')]. split; [done|]. exists s'. pose proof (H2 p ltac:(eauto)) as [? _].
      rewrite Hl, !bool_decide_eq_false_2; [done| |]; intros E; rewrite E in Hs'; [assert (s' = s0)|assert (s' = s1)]; try congruence; subst; lia.
  - intros p q c Hpq Hc. destruct (H4 _ _ _ Hpq Hc) as (s & Hs & Hp & Hcn). exists s. destruct (Hq _ _ Hpq).
    rewrite Hl, !bool_decide_eq_false_2 by (intros ->; done). done.
  - intros p Hp. apply Hlive. auto.
  - intros p Hp. apply Hlive. auto.
Qed.

(** A client that is connected to nobody joins a queue. *)
Lemma enqueue_inv o c f q n s : net_inv n → SOCKET_PENDING n !! o = Some q → SOCKET_STATE n !! c = Some s → peer_owner s < 0 →
  connected s = false → peer_owner (f s) = peer_owner s → connected (f s) = true →
  net_inv (on_state c f (set_pending (<[o := q ++ [c]]> (SOCKET_PENDING n)) n)).
Proof.
  intros [H1 H2 H3 H4 H5 H6 H7 H8] Hq Hs Hp Hc P C. set (n1 := set_pending _ n).
  assert (∀ p q', SOCKET_PENDING n1 !! p = Some q' → (p = o ∧ q' = q ++ [c]) ∨ (p ≠ o ∧ SOCKET_PENDING n !! p = Some q')) as Hpe.
  { intros p q'. cbn. rewrite lookup_insert_Some. naive_solver. }
  assert (∀ p q', SOCKET_PENDING n !! p = Some q' → c ∉ q') as Hcq.
  { intros p q' Hq' Hin. destruct (H4 _ _ _ Hq' Hin) as (s' & Hs' & _ & ?). congruence. }
  assert (∀ p, SOCKET_STATE (on_state c f n1) !! p = if bool_decide (p = c) then Some (f s) else SOCKET_STATE n !! p) as Hl.
  { intros p. rewrite on_state_lookup. case_bool_decide; [subst; cbn; by rewrite Hs|done]. }
  assert (∀ p, is_Some (SOCKET_STATE n !! p) → is_Some (SOCKET_STATE (on_state c f n1) !! p)) as Hlive by (intros p Hx; by apply on_state_live).
  assert (∀ c' p q', SOCKET_PENDING n1 !! p = Some q' → c' ∈ q' → (c' = c ∧ p = o) ∨ (c' ≠ c ∧ ∃ q0, SOCKET_PENDING n !! p = Some q0 ∧ c' ∈ q0)) as Hin.
  { intros c' p q' [[-> ->]|[Hne Hq']]%Hpe Hc'.
    - apply elem_of_app in Hc' as [Hc'| ->%list_elem_of_singleton]; [|auto]. right. split; [intros ->; by eapply Hcq|eauto].
    - right. split; [intros ->; by eapply Hcq|eauto]. }
  split.
  - intros fd p Hx. apply Hlive. eauto.
  - intros p Hx%on_state_live. by apply H2.
  - intros p s'. rewrite Hl. case_bool_decide; [intros [= <-]; lia|]. intros Hs' Hp'. destruct (H3 _ _ Hs' Hp') as [Hc' (s2 & Hs2 & Hp2)].
    split; [done|]. exists s2. rewrite Hl, bool_decide_eq_false_2; [done|]. intros E.
    pose proof (H2 p ltac:(eauto)) as [? _]. rewrite E in Hs2. assert (s2 = s) by congruence. subst. lia.
  - intros p q' c' Hq' Hc'. rewrite Hl. destruct (Hin _ _ _ Hq' Hc') as [[-> _]|(Hne & q0 & Hq0 & Hc0)].
    + rewrite bool_decide_eq_true_2 by done. exists (f s). split_and!; [done|lia|done].
    + rewrite bool_decide_eq_false_2 by done. eauto.
  - intros p q1 p' q2 c' G1 G2 I1 I2. destruct (Hin _ _ _ G1 I1) as [[? ->]|(? & q3 & Hq3 & Hc3)], (Hin _ _ _ G2 I2) as [[? ->]|(? & q4 & Hq4 & Hc4)];
      [done..|]. eauto.
  - intros p q' [[-> ->]|[_ Hq']]%Hpe; [|eauto]. apply NoDup_app. split_and!; [eauto| |apply NoDup_singleton].
    intros x Hx ->%list_elem_of_singleton. by eapply Hcq.
  - intros p [q' [[-> ->]|[_ Hq']]%Hpe]; apply Hlive, H7; eauto.
  - intros p Hx. apply Hlive. by apply H8.
Qed.

Lemma dequeue_inv o q q' n : net_inv n → SOCKET_PENDING n !! o = Some q → sublist q' q →
  net_inv (set_pending (<[o := q']> (SOCKET_PENDING n)) n).
Proof.
  intros [H1 H2 H3 H4 H5 H6 H7 H8] Hq Hsub.
  assert (∀ p x, SOCKET_PENDING (set_pending (<[o := q']> (SOCKET_PENDING n)) n) !! p = Some x →
    ∃ x0, SOCKET_PENDING n !! p = Some x0 ∧ sublist x x0) as Hpe.
  { intros p x. cbn. rewrite lookup_insert_Some. intros [[<- <-]|[_ Hx]]; eauto. }
  split; try done.
  - intros p x c (x0 & Hx0 & Hs)%Hpe Hc. exact (H4 _ _ _ Hx0 (elem_of_sublist _ _ _ Hc Hs)).
  - intros p x p' x' c (x0 & Hx0 & Hs)%Hpe (x0' & Hx0' & Hs')%Hpe Hc Hc'.
    exact (H5 _ _ _ _ _ Hx0 Hx0' (elem_of_sublist _ _ _ Hc Hs) (elem_of_sublist _ _ _ Hc' Hs')).
  - intros p x (x0 & Hx0 & Hs)%Hpe. eapply sublist_NoDup; [by eapply H6|done].
  - intros p [x (x0 & Hx0 & _)%Hpe]. eauto.
Qed.

(** ** The life of sockets *)

(** The updates the calls make, each under what the call has checked or just made
    so: the descriptor of a new socket and of a duplicate was closed, so it is no
    alias; a pair joins two fresh sockets; a client that connects is not connected;
    an accepted client is the head of its listener's queue.  The label says whether
    the update is regular.  Three kinds are not: a new socket under a number whose
    earlier socket still lives behind a duplicate, which takes that socket's place;
    a UNIX socket bound to a second path; closing, duplicating or reading a socket
    descriptor that came in a message and so is no alias. *)
Inductive net_step (n : Net) : bool → Net → Prop :=
| step_new fd s : 0 ≤ fd → SOCKET_ALIAS n !! fd = None → peer_owner s = -1 → connected s = false →
    net_step n (bool_decide (SOCKET_STATE n !! fd = None)) (register_socket fd s n)
| step_dup old new : 0 ≤ old → SOCKET_ALIAS n !! new = None →
    net_step n (bool_decide (is_Some (SOCKET_ALIAS n !! old))) (clone_socket_fd old new n)
| step_close fd : 0 ≤ fd → net_step n (bool_decide (is_Some (SOCKET_ALIAS n !! fd))) (cleanup_socket_fd fd n)
| step_error fd e : net_step n true (set_socket_error fd e n)
| step_bind o a p : net_step n true (on_state o (λ s, with_error 0 (with_local a p s)) n)
| step_bind_path o path : is_Some (SOCKET_STATE n !! o) → (UNIX_PATH_OWNER n !! path = None ∨ UNIX_PATH_OWNER n !! path = Some o) →
    net_step n (bool_decide (OWNER_UNIX_PATH n !! o = None ∨ OWNER_UNIX_PATH n !! o = Some path))
      (set_paths (<[path := o]> (UNIX_PATH_OWNER n)) (<[o := path]> (OWNER_UNIX_PATH n)) n)
| step_bound o : net_step n true (on_state o (λ s, with_error 0 (with_local (local_addr s) (local_port s) s)) n)
| step_listen o k : net_step n true (on_state o (λ s, with_error 0 (with_listening k s)) n)
| step_queue o : is_Some (SOCKET_STATE n !! o) → net_step n true (set_pending (or_default o (SOCKET_PENDING n)) n)
| step_pair o0 o1 s0 s1 : o0 ≠ o1 → SOCKET_STATE n !! o0 = Some s0 → SOCKET_STATE n !! o1 = Some s1 →
    peer_owner s0 = -1 → peer_owner s1 = -1 → connected s0 = false → connected s1 = false → net_step n true (join_pair o0 o1 n)
| step_connect o c q s f : SOCKET_PENDING n !! o = Some q → SOCKET_STATE n !! c = Some s → connected s = false →
    peer_owner (f s) = peer_owner s → connected (f s) = true →
    net_step n true (on_state c f (set_pending (<[o := q ++ [c]]> (SOCKET_PENDING n)) n))
| step_accept l c q listener client acc sa : SOCKET_PENDING n !! l = Some (c :: q) → SOCKET_STATE n !! c = Some client →
    SOCKET_STATE n !! acc = Some sa → peer_owner sa = -1 → connected sa = false →
    net_step n true (link_accepted listener client acc c (set_pending (<[l := q]> (SOCKET_PENDING n)) n))
| step_send o s data : SOCKET_STATE n !! o = Some s → connected s = true → 0 ≤ peer_owner s → net_step n true (push_rx (peer_owner s) data n)
| step_rights o hs : net_step n true (set_rights (<[o := hs]> (SOCKET_RIGHTS n)) n)
| step_recv o q : net_step n (bool_decide (is_Some (SOCKET_STATE n !! o))) (set_rx (<[o := q]> (SOCKET_RX n)) n).

Definition any_step (n n' : Net) : Prop := ∃ b, net_step n b n'.
Definition regular_step (n n' : Net) : Prop := net_step n true n'.

(** ** What holds after every step *)

Record net_wf (n : Net) : Prop := {
  wf_alias : ∀ fd o, SOCKET_ALIAS n !! fd = Some o → 0 ≤ o;
  wf_owner : ∀ o, is_Some (SOCKET_STATE n !! o) → 0 ≤ o ∧ ∃ fd, SOCKET_ALIAS n !! fd = Some o;
  wf_peer : ∀ o s, SOCKET_STATE n !! o = Some s → 0 ≤ peer_owner s → connected s = true ∧ is_Some (SOCKET_STATE n !! peer_owner s);
  wf_queued : ∀ o q c, SOCKET_PENDING n !! o = Some q → c ∈ q → is_Some (SOCKET_STATE n !! c);
  wf_pending : ∀ o, is_Some (SOCKET_PENDING n !! o) → is_Some (SOCKET_STATE n !! o) }.

(** An update of one socket that points it at nobody new but live sockets. *)
Lemma on_state_wf o f n : net_wf n →
  (∀ s, SOCKET_STATE n !! o = Some s → 0 ≤ peer_owner (f s) → connected (f s) = true ∧ is_Some (SOCKET_STATE n !! peer_owner (f s))) →
  net_wf (on_state o f n).
Proof.
  intros [H1 H2 H3 H4 H5] Hf. split; [done| | | |].
  - intros p Hp%on_state_live. by apply H2.
  - intros p s Hs Hp. rewrite on_state_live. rewrite on_state_lookup in Hs. case_bool_decide as E; [|by eapply H3].
    subst p. destruct (SOCKET_STATE n !! o) as [s0|] eqn:E; [|done]. injection Hs as <-. by apply Hf.
  - intros p q c Hq Hc. apply on_state_live. by eapply H4.
  - intros p Hp. apply on_state_live. by apply H5.
Qed.

Lemma benign_wf o f n : benign f → net_wf n → net_wf (on_state o f n).
Proof. intros Hf Hw. apply on_state_wf; [done|]. intros s Hs. destruct (Hf s) as [-> ->]. by apply (wf_peer _ Hw _ _ Hs). Qed.

Lemma pending_wf o q n : net_wf n → is_Some (SOCKET_STATE n !! o) → (∀ c, c ∈ q → is_Some (SOCKET_STATE n !! c)) →
  net_wf (set_pending (<[o := q]> (SOCKET_PENDING n)) n).
Proof.
  intros [H1 H2 H3 H4 H5] Ho Hq. split; [done..| |].
  - intros p q' c Hp Hc. cbn in Hp. apply lookup_insert_Some in Hp as [[<- <-]|[_ Hp]]; [by apply Hq|by eapply H4].
  - intros p [q' Hp]. cbn in Hp. apply lookup_insert_Some in Hp as [[<- _]|[_ Hp]]; [done|]. apply H5. eauto.
Qed.

Lemma register_wf fd s n : net_wf n → 0 ≤ fd → SOCKET_ALIAS n !! fd = None → peer_owner s = -1 → net_wf (register_socket fd s n).
Proof.
  intros [H1 H2 H3 H4 H5] Hfd Hal Hs. unfold register_socket. cbv zeta. set (n1 := set_state _ _).
  assert (∀ p, is_Some (SOCKET_STATE n !! p) → is_Some (SOCKET_STATE n1 !! p)) as Hgo
    by (intros p Hp; cbn; destruct (decide (p = fd)) as [->|]; [rewrite lookup_insert_eq; eauto|by rewrite lookup_insert_ne]).
  assert (is_Some (SOCKET_STATE n1 !! fd)) as Hn by (cbn; rewrite lookup_insert_eq; eauto).
  assert (net_wf n1) as Hw.
  { split.
    - intros f o. cbn. rewrite lookup_insert_Some. intros [[_ <-]|[_ Hf]]; [done|by eapply H1].
    - intros o Ho. destruct (decide (o = fd)) as [->|Hne]; [split; [done|]; exists fd; apply lookup_insert_eq|].
      cbn in Ho. rewrite lookup_insert_ne in Ho by done. destruct (H2 _ Ho) as [? [f Hf]]. split; [done|]. exists f. cbn. rewrite lookup_insert_ne; [done|congruence].
    - intros o s' Hs' Hp. cbn in Hs'. apply lookup_insert_Some in Hs' as [[<- <-]|[_ Hs']]; [lia|]. destruct (H3 _ _ Hs' Hp). auto.
    - intros o q c Hq Hc. apply Hgo. by eapply H4.
    - intros o Ho. apply Hgo. by apply H5. }
  destruct (pending_wf fd (default [] (SOCKET_PENDING n !! fd)) n1 Hw Hn) as [W1 W2 W3 W4 W5]; [|by split].
  intros c Hc. destruct (SOCKET_PENDING n !! fd) as [q|] eqn:E; [|by apply elem_of_nil in Hc]. apply Hgo. by eapply H4.
Qed.

Lemma forget_wf o n : (∀ fd p, SOCKET_ALIAS n !! fd = Some p → 0 ≤ p) →
  (∀ p, is_Some (SOCKET_STATE n !! p) → 0 ≤ p ∧ (p ≠ o → ∃ fd, SOCKET_ALIAS n !! fd = Some p)) →
  (∀ p s, SOCKET_STATE n !! p = Some s → 0 ≤ peer_owner s → connected s = true ∧ is_Some (SOCKET_STATE n !! peer_owner s)) →
  (∀ p q c, SOCKET_PENDING n !! p = Some q → c ∈ q → is_Some (SOCKET_STATE n !! c)) →
  (∀ p, is_Some (SOCKET_PENDING n !! p) → is_Some (SOCKET_STATE n !! p)) → net_wf (forget_owner o n).
Proof.
  intros H1 H2 H3 H4 H5. destruct (forget_other o n) as (_ & Eal & _).
  assert (∀ p, p ≠ o → is_Some (SOCKET_STATE n !! p) → is_Some (SOCKET_STATE (forget_owner o n) !! p)) as Hlive
    by (intros p Hp [s Hs]; rewrite forget_state, bool_decide_eq_false_2, Hs by done; eauto).
  assert (∀ p s, SOCKET_STATE (forget_owner o n) !! p = Some s → p ≠ o ∧ ∃ s0, SOCKET_STATE n !! p = Some s0 ∧ s = hang_up o s0) as Hst.
  { intros p s. rewrite forget_state. case_bool_decide; [done|]. destruct (SOCKET_STATE n !! p) as [s0|]; [|done]. intros [= <-]. eauto. }
  split.
  - intros fd p. rewrite Eal. apply H1.
  - intros p [s Hs]. destruct (Hst _ _ Hs) as (Hne & s0 & Hs0 & _). rewrite Eal. destruct (H2 p ltac:(eauto)). auto.
  - intros p s Hs Hp. destruct (Hst _ _ Hs) as (Hne & s0 & Hs0 & ->). destruct (hang_up_peer _ _ Hp) as [E Hpn]. rewrite E in *.
    destruct (H3 _ _ Hs0 Hp). auto.
  - intros p q c. rewrite forget_pending. case_bool_decide; [done|]. destruct (SOCKET_PENDING n !! p) as [q0|] eqn:Eq; [|done]. intros [= <-].
    intros [Hc Hin]%list_elem_of_filter. apply Hlive; [done|]. by eapply H4.
  - intros p. rewrite forget_pending. case_bool_decide; [by intros [? ?]|]. intros Hp%fmap_is_Some. by apply Hlive, H5.
Qed.

(** An owner whose last alias goes is the only one that loses its descriptor. *)
Lemma cleanup_wf fd n : net_wf n → net_wf (cleanup_socket_fd fd n).
Proof.
  intros Hw. unfold cleanup_socket_fd. set (o := owner_of fd n). set (n1 := set_alias _ n).
  assert (∀ fd' p, SOCKET_ALIAS n1 !! fd' = Some p ↔ fd' ≠ fd ∧ SOCKET_ALIAS n !! fd' = Some p) as Hal by (intros; cbn; rewrite lookup_delete_Some; naive_solver).
  assert (∀ p, p ≠ o → (∃ f, SOCKET_ALIAS n !! f = Some p) → ∃ f, SOCKET_ALIAS n1 !! f = Some p) as Hkeep.
  { intros p Hne [f Hf]. exists f. apply Hal. split; [|done]. intros ->. apply Hne. unfold o, owner_of. by rewrite Hf. }
  pose proof Hw as [H1 H2 H3 H4 H5]. destruct (has_alias o n1) eqn:Ha.
  - apply has_alias_spec in Ha. split; [|..|done|done|done].
    + intros f p [_ Hf]%Hal. by eapply H1.
    + intros p Hp. destruct (H2 p Hp) as [? Hf]. split; [done|]. destruct (decide (p = o)) as [->|]; auto.
  - apply forget_wf; [|..|done|done|done].
    + intros f p [_ Hf]%Hal. by eapply H1.
    + intros p Hp. destruct (H2 p Hp). auto.
Qed.

Lemma net_step_wf n b n' : net_step n b n' → net_wf n → net_wf n'.
Proof.
  intros Hst Hw. destruct Hst as [fd s ? ? ? ?|old new Ho Hn| | | |o path Ho Hp| | |o Ho|o0 o1 s0 s1 Hne Hs0 Hs1 ? ? ? ?|o c q s f Hq Hs Hc Ep Ec|
    l c q listener client acc sa Hq Hc Ha ? ?|o s data Hs Hc Hp| |].
  - by apply register_wf.
  - destruct Hw as [H1 H2 H3 H4 H5]. split; [|..|done|done|done].
    + intros fd p. cbn. rewrite lookup_insert_Some. intros [[_ <-]|[_ Hf]]; [|by eapply H1]. unfold owner_of.
      destruct (SOCKET_ALIAS n !! old) eqn:E; [by eapply H1|done].
    + intros p Hp. destruct (H2 p Hp) as [? [f Hf]]. split; [done|]. exists f. cbn. rewrite lookup_insert_ne; [done|congruence].
  - by apply cleanup_wf.
  - apply benign_wf; [by intros s|done].
  - apply benign_wf; [by intros s|done].
  - by destruct Hw.
  - apply benign_wf; [by intros s|done].
  - apply benign_wf; [by intros s|done].
  - apply pending_wf; [done|done|]. intros c Hc. destruct (SOCKET_PENDING n !! o) as [q|] eqn:E; [by eapply Hw|by apply elem_of_nil in Hc].
  - unfold join_pair. apply on_state_wf; [apply on_state_wf; [done|]|]; intros s _ _; (split; [done|]); rewrite ?on_state_live; cbn; eauto.
  - apply on_state_wf.
    + apply pending_wf; [done|apply (wf_pending _ Hw); eauto|]. intros x [Hx| ->%list_elem_of_singleton]%elem_of_app; [by eapply Hw|eauto].
    + cbn. intros s' Hs'. simplify_eq. rewrite Ep, Ec. intros Hp. split; [done|]. by apply (wf_peer _ Hw _ _ Hs).
  - assert (net_wf (set_pending (<[l := q]> (SOCKET_PENDING n)) n)) as Hw1.
    { apply pending_wf; [done|apply (wf_pending _ Hw); eauto|]. intros x Hx. eapply (wf_queued _ Hw); [done|by right]. }
    unfold link_accepted. cbv zeta. apply on_state_wf; [apply on_state_wf; [done|]|]; intros s _ _; (split; [done|]); rewrite ?on_state_live; cbn; eauto.
  - by destruct Hw.
  - by destruct Hw.
  - by destruct Hw.
Qed.

(** A bound path names its owner and the owner the path. *)
Definition paths_inv (n : Net) : Prop := ∀ path o, UNIX_PATH_OWNER n !! path = Some o → OWNER_UNIX_PATH n !! o = Some path.

Lemma forget_paths o n : paths_inv n → paths_inv (forget_owner o n) ∧ ∀ path, UNIX_PATH_OWNER (forget_owner o n) !! path ≠ Some o.
Proof.
  intros Hp. unfold forget_owner, drop_path. cbv zeta. cbn [OWNER_UNIX_PATH set_rights set_rx set_pending set_state].
  destruct (OWNER_UNIX_PATH n !! o) as [path0|] eqn:E; cbn; split.
  - intros path o' Hu. cbn in Hu. apply lookup_delete_Some in Hu as [Hne Hu]. pose proof (Hp _ _ Hu). cbn. rewrite lookup_delete_ne; [done|congruence].
  - intros path Hu. cbn in Hu. apply lookup_delete_Some in Hu as [Hne Hu]. apply Hp in Hu. congruence.
  - exact Hp.
  - intros path Hu. apply Hp in Hu. congruence.
Qed.

Lemma cleanup_paths fd n o : paths_inv n → SOCKET_ALIAS n !! fd = Some o → paths_inv (cleanup_socket_fd fd n) ∧
  ((∀ fd', fd' ≠ fd → SOCKET_ALIAS n !! fd' ≠ Some o) → ∀ path, UNIX_PATH_OWNER (cleanup_socket_fd fd n) !! path ≠ Some o).
Proof.
  intros Hp Hfd. unfold cleanup_socket_fd, owner_of. rewrite Hfd. cbn [from_option id]. set (n1 := set_alias _ n).
  destruct (forget_paths o n1 Hp) as [F1 F2]. destruct (has_alias o n1) eqn:Ha; [|done].
  split; [exact Hp|]. intros Hlast. apply has_alias_spec in Ha as [f Hf]. cbn in Hf. apply lookup_delete_Some in Hf as [Hne Hf].
  by destruct (Hlast f).
Qed.

Lemma not_connected_no_peer n o s : net_inv n → SOCKET_STATE n !! o = Some s → connected s = false → peer_owner s < 0.
Proof. intros Hi Hs Hc. destruct (decide (0 ≤ peer_owner s)) as [Hp|]; [|lia]. destruct (inv_peer _ Hi _ _ Hs Hp). congruence. Qed.

Lemma not_queued n o s : net_inv n → SOCKET_STATE n !! o = Some s → connected s = false → ∀ p q, SOCKET_PENDING n !! p = Some q → o ∉ q.
Proof. intros Hi Hs Hc p q Hq Hin. destruct (inv_queued _ Hi _ _ _ Hq Hin) as (s' & Hs' & _ & ?). congruence. Qed.

Lemma accept_inv n l c q listener client acc sa : net_inv n → SOCKET_PENDING n !! l = Some (c :: q) → SOCKET_STATE n !! c = Some client →
  SOCKET_STATE n !! acc = Some sa → peer_owner sa < 0 → connected sa = false →
  net_inv (link_accepted listener client acc c (set_pending (<[l := q]> (SOCKET_PENDING n)) n)).
Proof.
  intros Hi Hq Hc Ha Hp Hn. set (n1 := set_pending _ n).
  assert (net_inv n1) as Hi1 by (apply (dequeue_inv l (c :: q) q n); [done|done|by constructor]).
  destruct (inv_queued _ Hi _ _ _ Hq (list_elem_of_here _ _)) as (s & Hs & Hps & Hcs). simplify_eq.
  assert (acc ≠ c) as Hne by congruence. unfold link_accepted. cbv zeta.
  eapply (peers_inv acc c _ _ n1 sa client); try done. intros p q' Hq'. split.
  - by apply (not_queued n1 acc sa) with p.
  - cbn in Hq'. apply lookup_insert_Some in Hq' as [[<- <-]|[Hlp Hq']].
    + pose proof (inv_nodup _ Hi _ _ Hq) as Hd. by apply NoDup_cons in Hd as [? _].
    + intros Hin. apply Hlp. by apply (inv_once _ Hi _ _ _ _ c Hq Hq'); [left|].
Qed.

(** Regular steps keep the whole invariant. *)
Lemma net_step_inv n n' : regular_step n n' → net_inv n → net_inv n'.
Proof.
  intros Hst Hi. unfold regular_step in Hst. inversion Hst as [fd s ? ? ? ? Eb|old new Ho Hn Eb|fd Hfd Eb| | |o path Ho Hp Eb| | |o Ho|o0 o1 s0 s1 Hne Hs0 Hs1 ? ? ? ?|
    o c q s f Hq Hs Hc Ep Ec|l c q listener client acc sa Hq Hc Ha ? ?|o s data Hs Hc Hp| |o q Eb]; try apply bool_decide_eq_true in Eb.
  - apply register_inv; [done..|lia].
  - destruct Eb as [o Ea]. by eapply clone_inv.
  - destruct Eb as [o Ea]. by eapply cleanup_inv.
  - apply benign_inv; [by intros s|done].
  - apply benign_inv; [by intros s|done].
  - by destruct Hi.
  - apply benign_inv; [by intros s|done].
  - apply benign_inv; [by intros s|done].
  - by apply pending_default_inv.
  - apply (peers_inv o0 o1 _ _ n s0 s1); try (done || lia). intros p q Hq. split; eapply not_queued; eauto.
  - apply (enqueue_inv o c f q n s); try done. eapply not_connected_no_peer; eauto.
  - eapply accept_inv; (done || lia).
  - apply set_rx_inv; [done|]. destruct (inv_peer _ Hi _ _ Hs Hp) as [_ (s' & ? & _)]. eauto.
  - by destruct Hi.
  - by apply set_rx_inv.
Qed.

Lemma net_step_paths n n' : regular_step n n' → paths_inv n → paths_inv n'.
Proof.
  intros Hst Hi. unfold regular_step in Hst. inversion Hst as [| |fd Hfd Eb| | |o path Ho Hp Eb| | | | | | | | |]; try exact Hi;
    apply bool_decide_eq_true in Eb.
  - destruct Eb as [o Ea]. by eapply cleanup_paths.
  - intros path' o'. cbn. rewrite lookup_insert_Some. intros [[<- <-]|[Hne Hu]]; [apply lookup_insert_eq|].
    apply Hi in Hu. rewrite lookup_insert_ne; [done|]. intros ->. destruct Eb; congruence.
Qed.

Lemma rtc_keeps {A} (R : relation A) (P : A → Prop) : (∀ x y, R x y → P x → P y) → ∀ x y, rtc R x y → P x → P y.
Proof. intros Hst x y Hr. induction Hr as [|x y z Hxy _ IH]; [done|]. eauto. Qed.


(** Bound to a second path, a socket leaves the first one taken for good. *)
Theorem second_bind_leaks n fd path path' : path ≠ path' → SOCKET_ALIAS n !! fd = Some fd →
  UNIX_PATH_OWNER n !! path = Some fd → OWNER_UNIX_PATH n !! fd = Some path →
  let n1 := set_paths (<[path' := fd]> (UNIX_PATH_OWNER n)) (<[fd := path']> (OWNER_UNIX_PATH n)) n in
  UNIX_PATH_OWNER (cleanup_socket_fd fd n1) !! path = Some fd.
Proof.
  intros Hne Hal Hu Ho n1. unfold cleanup_socket_fd, owner_of. cbn [SOCKET_ALIAS set_paths n1]. rewrite Hal. cbn [from_option id].
  destruct (has_alias _ _); [cbn; by rewrite lookup_insert_ne|]. unfold forget_owner, drop_path. cbv zeta. cbn.
  rewrite lookup_insert_eq. cbn. by rewrite lookup_delete_ne, lookup_insert_ne.
Qed.

Definition demo_net : Net := join_pair 3 4 (register_socket 4 (new_state 1 1 0 1 0 0) (register_socket 3 (new_state 1 1 0 1 0 0) no_sockets)).

Lemma demo_net_steps : rtc regular_step no_sockets demo_net.
Proof.
  eapply rtc_l; [apply (step_new no_sockets 3 (new_state 1 1 0 1 0 0)); [lia|reflexivity|reflexivity|reflexivity]|].
  eapply rtc_l; [apply (step_new (register_socket 3 (new_state 1 1 0 1 0 0) no_sockets) 4 (new_state 1 1 0 1 0 0)); [lia|reflexivity|reflexivity|reflexivity]|].
  apply rtc_once. eapply step_pair; [done|reflexivity..].
Qed.


Lemma second_bind_leaks_witness :
  let n := set_paths {[ [97] := 3 ]} {[ 3 := [97] ]} demo_net in
  UNIX_PATH_OWNER (cleanup_socket_fd 3 (set_paths (<[[98] := 3]> (UNIX_PATH_OWNER n)) (<[3 := [98]]> (OWNER_UNIX_PATH n)) n)) !! [97] = Some 3.
Proof. apply (second_bind_leaks _ 3 [97] [98]); [done|reflexivity..]. Defined.
