(* ===== verification/Input.v ===== *)
(** * Input events ([drivers/input.rs])

    Three queues of events: keyboard (minor 64), mouse (minor 65) and a combined
    one.  The value of [arch::ticks()] is an argument.  A read and an ioctl store
    through the user's pointer; they return the stores in order, as pairs of an
    address and bytes. *)

From S2P Require Import Prelude.

Record InputEvent := mkEvent { time_sec : Z; time_usec : Z; ev_type : Z; code : Z; value : Z }.

Definition EV_SYN : Z := 0.
Definition EV_KEY : Z := 1.
Definition EV_REL : Z := 2.
Definition EV_ABS : Z := 3.
Definition REL_X : Z := 0.
Definition REL_Y : Z := 1.

Record Input := mkInput { KBD_QUEUE : list InputEvent; MOUSE_QUEUE : list InputEvent; EVENT_QUEUE : list InputEvent }.

Definition set_kbd (x : list InputEvent) (s : Input) : Input := mkInput x (MOUSE_QUEUE s) (EVENT_QUEUE s).
Definition set_mouse (x : list InputEvent) (s : Input) : Input := mkInput (KBD_QUEUE s) x (EVENT_QUEUE s).
Definition set_events (x : list InputEvent) (s : Input) : Input := mkInput (KBD_QUEUE s) (MOUSE_QUEUE s) x.

(** [ticks_to_timeval] *)
Definition stamp (ticks ty c v : Z) : InputEvent := mkEvent (ticks / 100) (ticks mod 100 * 10000) ty c v.
Definition syn (ticks : Z) : InputEvent := stamp ticks EV_SYN 0 0.

(** [push_back]s, then [if q.len() > limit { q.pop_front(); }] *)
Definition push_capped (limit : nat) (evs q : list InputEvent) : list InputEvent :=
  let q := q ++ evs in if bool_decide (limit < length q)%nat then tail q else q.

Definition key_events (ticks keycode : Z) (pressed : bool) : list InputEvent :=
  [stamp ticks EV_KEY keycode (if pressed then 1 else 0); syn ticks].

Definition push_key (ticks keycode : Z) (pressed : bool) (s : Input) : Input :=
  let s := set_kbd (push_capped 256 (key_events ticks keycode pressed) (KBD_QUEUE s)) s in
  set_events (push_capped 256 (key_events ticks keycode pressed) (EVENT_QUEUE s)) s.

Definition rel_events (ticks dx dy : Z) : list InputEvent :=
  (if dx =? 0 then [] else [stamp ticks EV_REL REL_X dx]) ++
  (if dy =? 0 then [] else [stamp ticks EV_REL REL_Y dy]) ++ [syn ticks].

Definition push_mouse_rel (ticks dx dy : Z) (s : Input) : Input :=
  let s := set_mouse (push_capped 256 (rel_events ticks dx dy) (MOUSE_QUEUE s)) s in
  set_events (push_capped 256 (rel_events ticks dx dy) (EVENT_QUEUE s)) s.

(** [x as i32] of a [u32] *)
Definition as_i32 (x : Z) : Z := if x <? 2 ^ 31 then x else x - 2 ^ 32.

(** [ticks2] is the second reading of the clock. *)
Definition push_virtio_event (ticks ticks2 ty c v : Z) (s : Input) : Input :=
  if ty =? EV_SYN then s else
  let evs := [stamp ticks ty c (as_i32 v); syn ticks] in
  let s :=
    if ty =? EV_KEY then set_kbd (push_capped 512 evs (KBD_QUEUE s)) s
    else if (ty =? EV_REL) || (ty =? EV_ABS) then set_mouse (push_capped 512 evs (MOUSE_QUEUE s)) s
    else set_events (push_capped 512 evs (EVENT_QUEUE s)) s in
  set_events (push_capped 512 [stamp ticks2 ty c (as_i32 v); syn ticks2] (EVENT_QUEUE s)) s.

(** The 24 bytes of [struct input_event]. *)
Definition encode_event (e : InputEvent) : list Z :=
  to_le 8 (time_sec e) ++ to_le 8 (time_usec e) ++ to_le 2 (ev_type e) ++ to_le 2 (code e) ++ to_le 4 (value e mod 2 ^ 32).

(** The events taken, the rest, and the stores. *)
Definition drain_queue (q : list InputEvent) (buf max_bytes : Z) : Z * list (Z * list Z) * list InputEvent :=
  let max_events := Z.to_nat (max_bytes / 24) in
  let count := Nat.min max_events (length q) in
  (Z.of_nat count * 24, imap (λ i e, (buf + Z.of_nat i * 24, encode_event e)) (take count q), drop count q).

Definition read_events_for_minor (minor buf max_bytes : Z) (s : Input) : Z * list (Z * list Z) * Input :=
  if minor =? 64 then let '(n, w, q) := drain_queue (KBD_QUEUE s) buf max_bytes in (n, w, set_kbd q s)
  else if minor =? 65 then let '(n, w, q) := drain_queue (MOUSE_QUEUE s) buf max_bytes in (n, w, set_mouse q s)
  else let '(n, w, q) := drain_queue (EVENT_QUEUE s) buf max_bytes in (n, w, set_events q s).

Definition is_nil {A} (l : list A) : bool := match l with [] => true | _ => false end.
Definition has_events (s : Input) : bool :=
  negb (is_nil (EVENT_QUEUE s)) || negb (is_nil (KBD_QUEUE s)) || negb (is_nil (MOUSE_QUEUE s)).
Definition has_events_for_minor (minor : Z) (s : Input) : bool :=
  if minor =? 64 then negb (is_nil (KBD_QUEUE s))
  else if minor =? 65 then negb (is_nil (MOUSE_QUEUE s)) else negb (is_nil (EVENT_QUEUE s)).

(** ** Ioctls *)

Definition ENOTTY : Z := 25.

Definition ascii_z (s : string) : list Z := (λ a, Z.of_nat (nat_of_ascii a)) <$> String.list_ascii_of_string s.

Definition buf_size (r : Z) : Z := Z.land (Z.shiftr r 16) 0xFF.

(** [EVIOCGNAME] and [EVIOCGPHYS]: copy a NUL-terminated name. *)
Definition copy_name (name : list Z) (r arg : Z) : outcome Z * list (Z * list Z) :=
  if arg =? 0 then (Ok 0, [])
  else let n := Nat.min (length name) (Z.to_nat (buf_size r)) in (Ok (Z.of_nat n), [(arg, take n name)]).

(** [EVIOCGBIT] *)
Definition event_bits (is_mouse : bool) (r arg : Z) : outcome Z * list (Z * list Z) :=
  let ty := Z.land r 0xFF in
  if (ty <? 0x20) || (0x3F <? ty) then (Ok 0, []) else
  let ev := ty - 0x20 in
  if arg =? 0 then (Ok 0, []) else
  let clear := (arg, replicate (Z.to_nat (Z.min (buf_size r) 128)) 0) in
  let bits :=
    if ev =? 0 then [(arg, [if is_mouse then 0x07 else 0x03])]
    else if ev =? 1 then
      if is_mouse then (if 34 <? buf_size r then [(arg + 34, [0x07])] else [])
      else (λ i, (arg + i, [0xFF])) <$> filter (λ i, i < buf_size r) (seqZ 0 16)
    else if ev =? 2 then (if is_mouse then [(arg, [0x03])] else [])
    else [] in
  (Ok 0, clear :: bits).

(** [EVIOCGABS] *)
Definition abs_info (r arg : Z) : outcome Z * list (Z * list Z) :=
  let axis := Z.land r 0xFF in
  if axis <? 0x40 then (Ok 0, []) else
  if arg =? 0 then (Ok 0, []) else
  let clear := (arg, replicate 24 0) in
  if (axis - 0x40 =? 0) || (axis - 0x40 =? 1)
  then (Ok 0, [clear; (arg, to_le 4 0); (arg + 4, to_le 4 0); (arg + 8, to_le 4 32767); (arg + 12, to_le 4 0); (arg + 16, to_le 4 0); (arg + 20, to_le 4 0)])
  else (Ok 0, [clear]).

(** The guards of the match, in order. *)
Definition is_name_request (r : Z) : bool := Z.land r 0xFFFF00FF =? 0x80004506.
Definition is_phys_request (r : Z) : bool := Z.land r 0xFFFF00FF =? 0x80004507.
Definition is_bits_request (r : Z) : bool :=
  (Z.land r 0xFFFF0000 =? 0x80004500) || (Z.land r 0xFFFF0000 =? 0x80404500) ||
  (Z.land r 0xFFFF0000 =? 0x80604500) || (Z.land r 0xFFFF0000 =? 0x80804500).
Definition is_prop_request (r : Z) : bool := (Z.land r 0xFFFF00FF =? 0x80000009) || (Z.land r 0xFFFF00FF =? 0x80004509).

Definition handle_ioctl_with_minor (minor request arg : Z) : outcome Z * list (Z * list Z) :=
  let is_mouse := minor =? 65 in
  if request =? 0x80084502 then (Ok 0, if arg =? 0 then [] else [(arg, to_le 4 0x010001)])
  else if request =? 0x80044501 then
    (Ok 0, if arg =? 0 then []
           else [(arg, replicate 8 0); (arg, to_le 2 0x06); (arg + 2, to_le 2 1); (arg + 4, to_le 2 (if is_mouse then 2 else 1)); (arg + 6, to_le 2 1)])
  else if is_name_request request then copy_name (ascii_z (if is_mouse then "Cyllor Virtual Mouse" else "Cyllor Virtual Keyboard") ++ [0]) request arg
  else if is_phys_request request then copy_name (ascii_z (if is_mouse then "virtual/input1" else "virtual/input0") ++ [0]) request arg
  else if is_bits_request request then event_bits is_mouse request arg
  else if Z.land request 0xFFFFFF00 =? 0x80184500 then abs_info request arg
  else if is_prop_request request then
    (Ok 0, if arg =? 0 then [] else [(arg, replicate (Z.to_nat (Z.min (buf_size request) 64)) 0)])
  else (Err ENOTTY, []).

(** ** Reading *)

Lemma length_encode_event e : length (encode_event e) = 24%nat.
Proof. unfold encode_event. by rewrite !length_app, !length_to_le. Qed.

(** The bytes a list of adjacent stores leaves, from its first address on. *)
Definition stored (w : list (Z * list Z)) : list Z := concat w.*2.

Lemma imap_addrs {A B} (f : nat → A → Z * B) (g : A → B) l : (∀ i x, (f i x).2 = g x) → (imap f l).*2 = g <$> l.
Proof.
  revert f. induction l as [|x l IH]; intros f Hf; cbn; [done|]. rewrite Hf. f_equal. apply IH. intros i y. apply (Hf (S i)).
Qed.

(** The queue a minor number reads. *)
Definition queue_for (minor : Z) (s : Input) : list InputEvent :=
  if minor =? 64 then KBD_QUEUE s else if minor =? 65 then MOUSE_QUEUE s else EVENT_QUEUE s.

(** A read takes whole events from the front of the device's queue, as many
    as fit, in order: the bytes delivered are the encodings of the events taken
    and the rest stays queued. *)
Theorem read_events_fifo minor buf max_bytes s n w s' : 0 ≤ max_bytes →
  read_events_for_minor minor buf max_bytes s = (n, w, s') →
  ∃ taken, queue_for minor s = taken ++ queue_for minor s' ∧ stored w = concat (encode_event <$> taken) ∧
    n = 24 * Z.of_nat (length taken) ∧ n = Z.of_nat (length (stored w)) ∧ n ≤ max_bytes ∧
    (queue_for minor s' = [] ∨ max_bytes < n + 24).
Proof.
  intros Hm E. assert (drain_queue (queue_for minor s) buf max_bytes = (n, w, queue_for minor s')) as Ed.
  { unfold read_events_for_minor, queue_for in *. destruct (minor =? 64); [|destruct (minor =? 65)];
      destruct (drain_queue _ _ _) as [[? ?] ?]; by injection E as <- <- <-. }
  clear E. generalize dependent (queue_for minor s). generalize dependent (queue_for minor s'). intros q' q Ed. unfold drain_queue in Ed.
  set (c := Nat.min _ _) in Ed. injection Ed as <- <- <-. exists (take c q).
  assert (length (take c q) = c) as Hl by (rewrite length_take; unfold c; lia).
  assert (stored (imap (λ i e, (buf + Z.of_nat i * 24, encode_event e)) (take c q)) = concat (encode_event <$> take c q)) as Es.
  { unfold stored. f_equal. by apply imap_addrs. }
  rewrite Es. split_and!; [by rewrite take_drop|done|rewrite Hl; lia| | |].
  - assert (∀ l, length (concat (encode_event <$> l)) = (24 * length l)%nat) as Hlen.
    { intros l. induction l as [|e l IH]; [done|]. rewrite fmap_cons. cbn [concat length]. rewrite length_app, length_encode_event, IH. lia. }
    rewrite Hlen, Hl. lia.
  - unfold c. lia.
  - destruct (decide (length q ≤ Z.to_nat (max_bytes / 24))%nat) as [Hle|]; [left; apply drop_ge; unfold c; lia|]. right. unfold c. lia.
Qed.

Definition demo_input : Input := push_mouse_rel 7 1 (-1) (push_key 5 30 true (mkInput [] [] [])).

Lemma read_events_fifo_witness : ∃ w s', read_events_for_minor 66 4096 50 demo_input = (48, w, s') ∧
  length (stored w) = 48%nat ∧ length (EVENT_QUEUE s') = 3%nat.
Proof.
  destruct (read_events_for_minor 66 4096 50 demo_input) as [[n w] s'] eqn:E.
  destruct (read_events_fifo 66 4096 50 demo_input n w s' ltac:(lia) E) as (taken & Hq & Hs & Hn & Hl & _).
  vm_compute in E. injection E as <- <- <-. do 2 eexists. split; [reflexivity|]. split; [apply Nat2Z.inj; rewrite <- Hl; reflexivity|reflexivity].
Defined.

(** The limit of 256 events is not a bound: every key press adds two events
    and drops one at most, so without a reader the keyboard queue grows by one
    event per key for ever; a queue at the limit loses the key event and keeps the
    following synchronisation event at its front. *)
Theorem key_queue_unbounded ticks keycode pressed s (n : nat) : (255 ≤ length (KBD_QUEUE s))%nat →
  length (KBD_QUEUE (Nat.iter n (push_key ticks keycode pressed) s)) = (length (KBD_QUEUE s) + n)%nat.
Proof.
  intros Hl. induction n as [|n IH]; [cbn; lia|]. rewrite Nat.iter_succ. generalize dependent (Nat.iter n (push_key ticks keycode pressed) s). intros t IH.
  unfold push_key. cbn [KBD_QUEUE set_kbd set_events]. unfold push_capped. rewrite length_app. cbn [length].
  assert (256 < length (KBD_QUEUE t) + 2)%nat as Hb by (rewrite IH; lia).
  rewrite bool_decide_eq_true_2 by done. destruct (KBD_QUEUE t) as [|e q]; cbn [length app tail] in *; [lia|].
  rewrite length_app. cbn. lia.
Qed.

Lemma key_queue_unbounded_witness :
  length (KBD_QUEUE (Nat.iter 1000 (push_key 5 30 true) (mkInput (replicate 256 (syn 0)) [] []))) = 1256%nat.
Proof. rewrite (key_queue_unbounded 5 30 true (mkInput (replicate 256 (syn 0)) [] []) 1000); [reflexivity|]. apply Nat.leb_le. vm_compute. reflexivity. Defined.

(** A masked value has none of the bits the mask clears. *)
Lemma land_mask_neq r m v i : Z.testbit m i = false → Z.testbit v i = true → Z.land r m ≠ v.
Proof. intros Hm Hv E. apply (f_equal (λ z, Z.testbit z i)) in E. rewrite Z.land_spec, Hm, Hv, andb_false_r in E. done. Qed.

(** The requests for a device's name, location and event bits are never
    recognised: the masks of those three match arms clear bits the constants they
    are compared with have set, so no request number selects them, and every
    request of the [E] family for them ends in another arm or in ENOTTY. *)
Theorem name_requests_dead r : is_name_request r = false ∧ is_phys_request r = false ∧ is_bits_request r = false.
Proof.
  unfold is_name_request, is_phys_request, is_bits_request. rewrite !orb_false_iff. split_and!; apply Z.eqb_neq.
  1,2: by apply (land_mask_neq _ _ _ 8).
  all: by apply (land_mask_neq _ _ _ 8).
Qed.

(** [EVIOCGNAME(256)], [EVIOCGPHYS(64)] and [EVIOCGBIT(0, 96)] as user programs issue them. *)
Example name_request_enotty : handle_ioctl_with_minor 64 0x81004506 4096 = (Err ENOTTY, []) ∧
  handle_ioctl_with_minor 64 0x80404507 4096 = (Err ENOTTY, []) ∧ handle_ioctl_with_minor 65 0x80604520 4096 = (Err ENOTTY, []).
Proof. vm_compute. done. Qed.
