(* ===== verification/File.v ===== *)
(** * Open files and the descriptor table ([fs/vfs.rs], [fs/fdtable.rs], [fs/pipe.rs])

    The state of the whole kernel above processes and signals: the file tree, the
    open files, terminals, sockets, input queues and epoll interest lists.  An
    open file is behind an [Arc<Mutex<FileObject>>] shared by duplicated
    descriptors, so files are a store indexed by handles, like the pipe buffers.

    The outcome [Panic] also stands for a CPU that spins for ever on a lock it
    holds itself. *)

From S2P Require Import Prelude.
From S2P Require Import Path.
From S2P Require Import Pty.
From S2P Require Import Kernel.
From S2P Require Import Signal.
From S2P Require Import Vfs.
From S2P Require Import Sock.
From S2P Require Import Input.

Inductive FileType :=
| Regular | Directory | CharDevice | Pipe | Epoll | EventFd | TimerFd | SignalFd | MemFd | PidFd | Socket | PtyMaster | PtySlave.

#[export] Instance FileType_eq_dec : EqDecision FileType.
Proof. solve_decision. Defined.

(** A pipe end holds the handle of the shared buffer. *)
Inductive SpecialData :=
| EventFdVal (v : Z)
| TimerFdState (next_deadline interval_ticks pending_expirations : Z)
| SignalFdMask (m : Z)
| PipeBuffer (buf : Z)
| MemFdData (data : list Z)
| PidFdOf (pid : Z)
| PtyMasterOf (i : Z)
| PtySlaveOf (i : Z).

Record FileObject := mkFile {
  inode : option Z; offset : Z; flags : Z; ftype : FileType; special_data : option SpecialData }.

Definition set_offset (x : Z) (f : FileObject) : FileObject := mkFile (inode f) x (flags f) (ftype f) (special_data f).
Definition set_flags (x : Z) (f : FileObject) : FileObject := mkFile (inode f) (offset f) x (ftype f) (special_data f).
Definition set_special (x : SpecialData) (f : FileObject) : FileObject := mkFile (inode f) (offset f) (flags f) (ftype f) (Some x).

Record EpollWatch := mkWatch { w_events : Z; w_data : Z }.

Record Os := mkOs {
  sig : Sig; tree : Fs; ptys : Pty.Sys; net : Net; input : Input;
  FILES : gmap Z FileObject; NEXT_FILE : Z; PIPES : gmap Z (list Z); NEXT_PIPE : Z;
  fd_files : list (option Z); fd_cloexec : list bool;
  EPOLL_TABLE : gmap Z (gmap Z EpollWatch) }.

Definition set_sig (x : Sig) (s : Os) : Os :=
  mkOs x (tree s) (ptys s) (net s) (input s) (FILES s) (NEXT_FILE s) (PIPES s) (NEXT_PIPE s) (fd_files s) (fd_cloexec s) (EPOLL_TABLE s).
Definition set_tree (x : Fs) (s : Os) : Os :=
  mkOs (sig s) x (ptys s) (net s) (input s) (FILES s) (NEXT_FILE s) (PIPES s) (NEXT_PIPE s) (fd_files s) (fd_cloexec s) (EPOLL_TABLE s).
Definition set_ptys (x : Pty.Sys) (s : Os) : Os :=
  mkOs (sig s) (tree s) x (net s) (input s) (FILES s) (NEXT_FILE s) (PIPES s) (NEXT_PIPE s) (fd_files s) (fd_cloexec s) (EPOLL_TABLE s).
Definition set_net (x : Net) (s : Os) : Os :=
  mkOs (sig s) (tree s) (ptys s) x (input s) (FILES s) (NEXT_FILE s) (PIPES s) (NEXT_PIPE s) (fd_files s) (fd_cloexec s) (EPOLL_TABLE s).
Definition set_input (x : Input) (s : Os) : Os :=
  mkOs (sig s) (tree s) (ptys s) (net s) x (FILES s) (NEXT_FILE s) (PIPES s) (NEXT_PIPE s) (fd_files s) (fd_cloexec s) (EPOLL_TABLE s).
Definition set_objs (x : gmap Z FileObject) (n : Z) (s : Os) : Os :=
  mkOs (sig s) (tree s) (ptys s) (net s) (input s) x n (PIPES s) (NEXT_PIPE s) (fd_files s) (fd_cloexec s) (EPOLL_TABLE s).
Definition set_pipes (x : gmap Z (list Z)) (n : Z) (s : Os) : Os :=
  mkOs (sig s) (tree s) (ptys s) (net s) (input s) (FILES s) (NEXT_FILE s) x n (fd_files s) (fd_cloexec s) (EPOLL_TABLE s).
Definition set_fds (x : list (option Z)) (c : list bool) (s : Os) : Os :=
  mkOs (sig s) (tree s) (ptys s) (net s) (input s) (FILES s) (NEXT_FILE s) (PIPES s) (NEXT_PIPE s) x c (EPOLL_TABLE s).
Definition set_epolls (x : gmap Z (gmap Z EpollWatch)) (s : Os) : Os :=
  mkOs (sig s) (tree s) (ptys s) (net s) (input s) (FILES s) (NEXT_FILE s) (PIPES s) (NEXT_PIPE s) (fd_files s) (fd_cloexec s) x.

Definition on_tree {A} (m : M Fs A) : M Os A := λ s, let '(r, x) := m (tree s) in (r, set_tree x s).
Definition on_sig {A} (m : M Sig A) : M Os A := λ s, let '(r, x) := m (sig s) in (r, set_sig x s).
Definition on_net (f : Net → Net) (s : Os) : Os := set_net (f (net s)) s.

(** The file behind a handle; handles never dangle. *)
Definition no_file : FileObject := mkFile None 0 0 Regular None.
Definition file (s : Os) (h : Z) : FileObject := default no_file (FILES s !! h).
Definition on_file (h : Z) (f : FileObject → FileObject) (s : Os) : Os := set_objs (alter f h (FILES s)) (NEXT_FILE s) s.

(** [Arc::new(Mutex::new(f))] *)
Definition alloc_file (f : FileObject) : M Os Z := λ s,
  (Ok (NEXT_FILE s), set_objs (<[NEXT_FILE s := f]> (FILES s)) (NEXT_FILE s + 1) s).

(** ** Constructors of [FileObject] *)

Definition file_type_of (ty : InodeType) : FileType :=
  match ty with IFile => Regular | IDirectory => Directory | ICharDevice => CharDevice | _ => Regular end.
Definition new (t : Fs) (h fl : Z) : FileObject := mkFile (Some h) 0 fl (file_type_of (itype (node t h))) None.
Definition new_epoll : FileObject := mkFile None 0 0 Epoll None.
Definition new_eventfd (initval : Z) : FileObject := mkFile None 0 0 EventFd (Some (EventFdVal initval)).
Definition new_timerfd : FileObject := mkFile None 0 0 TimerFd (Some (TimerFdState 0 0 0)).
Definition new_signalfd (m : Z) : FileObject := mkFile None 0 0 SignalFd (Some (SignalFdMask m)).
Definition new_memfd : FileObject := mkFile None 0 0 MemFd (Some (MemFdData [])).
Definition new_pidfd (pid : Z) : FileObject := mkFile None 0 0 PidFd (Some (PidFdOf pid)).
Definition new_pipe (buf : Z) (is_read : bool) : FileObject := mkFile None 0 (if is_read then 0 else 1) Pipe (Some (PipeBuffer buf)).
Definition pty_slave_file (i fl : Z) : FileObject := mkFile None 0 fl PtySlave (Some (PtySlaveOf i)).

(** [pipe::create_pipe] *)
Definition create_pipe : M Os (Z * Z) :=
  let! s := get in
  let b := NEXT_PIPE s in
  put (set_pipes (<[b := []]> (PIPES s)) (b + 1) s) ;;;
  let! r := alloc_file (new_pipe b true) in
  let! w := alloc_file (new_pipe b false) in
  ret (r, w).

(** ** The descriptor table *)

Definition MAX_FDS : Z := 1024.

(** The first use fills the table: standard streams on the console terminal, or
    bare character devices before it exists. *)
Definition ensure_init : M Os () :=
  let! s := get in
  match fd_files s with
  | _ :: _ => ret tt
  | [] =>
      let i := console_pty_id (ptys s) in
      let std := if negb (i =? u32_max) then pty_slave_file i 0 else mkFile None 0 0 CharDevice None in
      let! h0 := alloc_file std in
      let! h1 := alloc_file std in
      let! h2 := alloc_file std in
      modify (set_fds ([Some h0; Some h1; Some h2] ++ replicate 1021 None) (replicate 1024 false))
  end.

(** [table.files[fd]]: an index out of range panics. *)
Definition slot (fd : Z) : M Os (option Z) := let! s := get in or_panic (fd_files s !! Z.to_nat fd).

Definition get_file (fd : Z) : M Os Z :=
  ensure_init ;;;
  if MAX_FDS <=? fd then fail EBADF else
  let! o := slot fd in ok_or o EBADF.

Definition set_slot (fd : Z) (h : option Z) (c : bool) (s : Os) : Os :=
  set_fds (<[Z.to_nat fd := h]> (fd_files s)) (<[Z.to_nat fd := c]> (fd_cloexec s)) s.

(** The loop [for i in begin..MAX_FDS]. *)
Fixpoint scan_free (fuel i : nat) (t : list (option Z)) : outcome (option nat) :=
  match fuel with
  | O => Ok None
  | S fuel' =>
      match t !! i with
      | None => Panic
      | Some None => Ok (Some i)
      | Some (Some _) => scan_free fuel' (S i) t
      end
  end.

Definition find_free (start : Z) : M Os (option nat) := λ s,
  let begin := Z.to_nat (Z.min start MAX_FDS) in (scan_free (1024 - begin) begin (fd_files s), s).

Definition alloc_fd_from_cloexec (start h : Z) (c : bool) : M Os Z :=
  ensure_init ;;;
  let! o := find_free start in
  match o with
  | Some i => modify (set_slot (Z.of_nat i) (Some h) c) ;;; ret (Z.of_nat i)
  | None => fail EMFILE
  end.

Definition alloc_fd_from (start h : Z) : M Os Z := alloc_fd_from_cloexec start h false.
Definition alloc_fd (h : Z) : M Os Z := alloc_fd_from 3 h.

Definition is_socket (h : Z) (s : Os) : bool := bool_decide (ftype (file s h) = Socket).

Definition close_fd (fd : Z) : M Os Z :=
  ensure_init ;;;
  if MAX_FDS <=? fd then fail EBADF else
  let! o := slot fd in
  match o with
  | Some h =>
      let! b := gets (is_socket h) in
      when b (modify (on_net (cleanup_socket_fd fd))) ;;;
      modify (set_slot fd None false) ;;; ret 0
  | None => fail EBADF
  end.

Definition dup_fd (oldfd : Z) : M Os Z :=
  ensure_init ;;;
  if MAX_FDS <=? oldfd then fail EBADF else
  let! o := slot oldfd in
  let! h := ok_or o EBADF in
  let! o := find_free 3 in
  match o with
  | Some i =>
      let! b := gets (is_socket h) in
      when b (modify (on_net (clone_socket_fd oldfd (Z.of_nat i)))) ;;;
      modify (set_slot (Z.of_nat i) (Some h) false) ;;; ret (Z.of_nat i)
  | None => fail EMFILE
  end.

Definition dup3_fd (oldfd newfd fl : Z) : M Os Z :=
  if oldfd =? newfd then fail EINVAL else
  if negb (fl =? 0) then fail EINVAL else
  let! h := get_file oldfd in
  ensure_init ;;;
  if MAX_FDS <=? newfd then fail EBADF else
  let! o := slot newfd in
  match o with
  | Some old_target =>
      let! b := gets (is_socket old_target) in
      when b (modify (on_net (cleanup_socket_fd newfd)))
  | None => ret tt
  end ;;;
  let! b := gets (is_socket h) in
  when b (modify (on_net (clone_socket_fd oldfd newfd))) ;;;
  modify (set_slot newfd (Some h) false) ;;; ret newfd.

Definition cloexec_at (fd : Z) : M Os bool := let! s := get in or_panic (fd_cloexec s !! Z.to_nat fd).

Definition get_cloexec (fd : Z) : M Os bool :=
  ensure_init ;;;
  if MAX_FDS <=? fd then fail EBADF else
  let! o := slot fd in
  match o with None => fail EBADF | Some _ => cloexec_at fd end.

Definition set_cloexec (fd : Z) (v : bool) : M Os Z :=
  ensure_init ;;;
  if MAX_FDS <=? fd then fail EBADF else
  let! o := slot fd in
  match o with
  | None => fail EBADF
  | Some _ => cloexec_at fd ;;; modify (λ s, set_fds (fd_files s) (<[Z.to_nat fd := v]> (fd_cloexec s)) s) ;;; ret 0
  end.

Definition is_open (s : Os) (fd : Z) : bool := match fd_files s !! Z.to_nat fd with Some (Some _) => true | _ => false end.
Definition open_fds (s : Os) : list Z := filter (λ fd, is_open s fd = true) (seqZ 0 (Z.of_nat (length (fd_files s)))).

Definition list_open_fds : M Os (list Z) := ensure_init ;;; gets open_fds.

Definition close_cloexec_fds : M Os () :=
  ensure_init ;;;
  let! fds := gets (λ s, filter (λ fd, default false (fd_cloexec s !! Z.to_nat fd) = true) (open_fds s)) in
  for_each fds (λ fd, ignore (close_fd fd)).

(** ** Facts about the table *)

(** The table after its first use. *)
Definition ready (s : Os) : Prop := length (fd_files s) = 1024%nat ∧ length (fd_cloexec s) = 1024%nat.

Lemma ensure_init_ready s : ready s → ensure_init s = (Ok tt, s).
Proof. intros [H _]. unfold ensure_init. kstep. by destruct (fd_files s). Qed.

Lemma ensure_init_spec s : fd_files s = [] → ∃ s', ensure_init s = (Ok tt, s') ∧ ready s'.
Proof. intros E. unfold ensure_init. kstep. rewrite E. eexists. split; [reflexivity|]. split; reflexivity. Qed.

Lemma bind_init {A} (k : () → M Os A) s : ready s → bind ensure_init k s = k tt s.
Proof. intros H. by rewrite (bind_ok _ _ _ tt s) by (by apply ensure_init_ready). Qed.

Lemma slot_ready s fd : ready s → 0 ≤ fd < 1024 → ∃ o, fd_files s !! Z.to_nat fd = Some o ∧ slot fd s = (Ok o, s).
Proof.
  intros [H _] Hfd. destruct (lookup_lt_is_Some_2 (fd_files s) (Z.to_nat fd)) as [o Ho]; [lia|]. exists o. split; [done|].
  unfold slot. kstep. by rewrite Ho.
Qed.

Lemma scan_free_spec t fuel : ∀ i, (i + fuel = length t)%nat →
  (∃ j, scan_free fuel i t = Ok (Some j) ∧ (i ≤ j)%nat ∧ t !! j = Some None ∧ (∀ k, (i ≤ k < j)%nat → ∃ h, t !! k = Some (Some h))) ∨
  (scan_free fuel i t = Ok None ∧ ∀ k, (i ≤ k < length t)%nat → ∃ h, t !! k = Some (Some h)).
Proof.
  induction fuel as [|fuel IH]; intros i Hi; cbn [scan_free]; [right; split; [done|]; intros; lia|].
  destruct (lookup_lt_is_Some_2 t i) as [[h|] Ho]; [lia|..]; rewrite Ho.
  - destruct (IH (S i)) as [(j & E & Hj & Hn & Hk)|[E Hk]]; [lia| |].
    + left. exists j. split_and!; [done|lia|done|]. intros k Hk'. destruct (decide (k = i)) as [->|]; [eauto|]. apply Hk. lia.
    + right. split; [done|]. intros k Hk'. destruct (decide (k = i)) as [->|]; [eauto|]. apply Hk. lia.
  - left. exists i. split_and!; [done|lia|done|]. intros. lia.
Qed.

(** The lowest free descriptor from [start] on. *)
Definition lowest_free (s : Os) (start fd : Z) : Prop :=
  start ≤ fd < 1024 ∧ fd_files s !! Z.to_nat fd = Some None ∧ ∀ k, start ≤ k < fd → is_open s k = true.
Definition none_free (s : Os) (start : Z) : Prop := ∀ k, start ≤ k < 1024 → is_open s k = true.

Lemma find_free_spec s start : ready s → 0 ≤ start →
  (∃ fd, find_free start s = (Ok (Some (Z.to_nat fd)), s) ∧ lowest_free s start fd) ∨
  (find_free start s = (Ok None, s) ∧ none_free s start).
Proof.
  intros [Hl _] Hs. unfold find_free, MAX_FDS. set (b := Z.to_nat (Z.min start 1024)).
  destruct (scan_free_spec (fd_files s) (1024 - b) b) as [(j & E & Hj & Hn & Hk)|[E Hk]]; [lia|left|right]; rewrite E.
  - pose proof (lookup_lt_Some _ _ _ Hn). exists (Z.of_nat j). rewrite Nat2Z.id. split; [done|]. split_and!; [lia|lia|by rewrite Nat2Z.id|].
    intros k Hk'. destruct (Hk (Z.to_nat k)) as [h Hh]; [lia|]. unfold is_open. by rewrite Hh.
  - split; [done|]. intros k Hk'. destruct (Hk (Z.to_nat k)) as [h Hh]; [lia|]. unfold is_open. by rewrite Hh.
Qed.

Lemma set_slot_ready s fd h c : ready s → ready (set_slot fd h c s).
Proof. intros [? ?]. split; cbn; by rewrite length_insert. Qed.

Lemma set_slot_lookup s fd h c k : ready s → 0 ≤ fd < 1024 → 0 ≤ k →
  fd_files (set_slot fd h c s) !! Z.to_nat k = if bool_decide (k = fd) then Some h else fd_files s !! Z.to_nat k.
Proof.
  intros [? ?] Hfd Hk. cbn. case_bool_decide; [subst; rewrite list_lookup_insert_eq by lia; done|]. by rewrite list_lookup_insert_ne by lia.
Qed.

(** ** Theorems *)

Lemma get_file_ready s fd h : ready s → 0 ≤ fd < 1024 → fd_files s !! Z.to_nat fd = Some (Some h) → get_file fd s = (Ok h, s).
Proof.
  intros Hr Hfd Hh. unfold get_file. rewrite bind_init by done. unfold MAX_FDS. rewrite (proj2 (Z.leb_gt 1024 fd)) by lia.
  unfold slot. kstep. by rewrite Hh.
Qed.

Lemma get_cloexec_ready s fd h c : ready s → 0 ≤ fd < 1024 → fd_files s !! Z.to_nat fd = Some (Some h) →
  fd_cloexec s !! Z.to_nat fd = Some c → get_cloexec fd s = (Ok c, s).
Proof.
  intros Hr Hfd Hh Hc. unfold get_cloexec. rewrite bind_init by done. unfold MAX_FDS. rewrite (proj2 (Z.leb_gt 1024 fd)) by lia.
  unfold slot. kstep. rewrite Hh. kstep. unfold cloexec_at. kstep. by rewrite Hc.
Qed.

(** What a new descriptor gives: the file, its flag, and nothing else changed. *)
Lemma alloc_fd_at s start fd h c : ready s → 0 ≤ start → lowest_free s start fd →
  alloc_fd_from_cloexec start h c s = (Ok fd, set_slot fd (Some h) c s).
Proof.
  intros Hr Hs (Hfd & Hn & Hk). unfold alloc_fd_from_cloexec. rewrite bind_init by done.
  destruct (find_free_spec s start Hr Hs) as [(fd' & E & Hfd' & Hn' & Hk')|[_ Hf]].
  - rewrite (bind_ok _ _ _ _ _ E). kstep. rewrite Z2Nat.id by lia. assert (fd' = fd) as ->; [|done].
    destruct (Z.lt_trichotomy fd' fd) as [Hlt|[?|Hlt]]; [|done|];
      [specialize (Hk fd' ltac:(lia))|specialize (Hk' fd ltac:(lia))]; unfold is_open in *; simplify_option_eq.
  - specialize (Hf fd Hfd). unfold is_open in Hf. by rewrite Hn in Hf.
Qed.

Definition installed (s s' : Os) (fd h : Z) (c : bool) : Prop :=
  get_file fd s' = (Ok h, s') ∧ get_cloexec fd s' = (Ok c, s') ∧ FILES s' = FILES s ∧ ready s' ∧
  ∀ k, 0 ≤ k → k ≠ fd → fd_files s' !! Z.to_nat k = fd_files s !! Z.to_nat k ∧ fd_cloexec s' !! Z.to_nat k = fd_cloexec s !! Z.to_nat k.

Lemma set_slot_installed s fd h c : ready s → 0 ≤ fd < 1024 → installed s (set_slot fd (Some h) c s) fd h c.
Proof.
  intros Hr Hfd. pose proof (set_slot_ready s fd (Some h) c Hr) as Hr'. destruct Hr as [Hl Hc].
  assert (fd_files (set_slot fd (Some h) c s) !! Z.to_nat fd = Some (Some h)) as E by (cbn; apply list_lookup_insert_eq; lia).
  assert (fd_cloexec (set_slot fd (Some h) c s) !! Z.to_nat fd = Some c) as E' by (cbn; apply list_lookup_insert_eq; lia).
  split_and!; [by apply get_file_ready|by eapply get_cloexec_ready|done|done|].
  intros k Hk Hne. cbn. by rewrite !list_lookup_insert_ne by lia.
Qed.

(** C11. A descriptor is allocated at the lowest free number from [start] on: the
    new descriptor names the file with the requested close-on-exec flag and no
    other descriptor changes; the call fails with EMFILE, changing nothing,
    exactly when no number below 1024 is free. *)
Theorem alloc_fd_lowest s start h c : ready s → 0 ≤ start →
  (∃ fd s', lowest_free s start fd ∧ alloc_fd_from_cloexec start h c s = (Ok fd, s') ∧ installed s s' fd h c) ∨
  (none_free s start ∧ alloc_fd_from_cloexec start h c s = (Err EMFILE, s)).
Proof.
  intros Hr Hs. unfold alloc_fd_from_cloexec. rewrite bind_init by done.
  destruct (find_free_spec s start Hr Hs) as [(fd & E & Hf)|[E Hf]]; rewrite (bind_ok _ _ _ _ _ E); [left|right; done].
  kstep. exists fd, (set_slot fd (Some h) c s). destruct Hf as (Hfd & Hn & Hk). rewrite Z2Nat.id by lia.
  split_and!; [done..|by apply set_slot_installed; [|lia]].
Qed.

Definition demo_os : Os :=
  mkOs (mkSig (mkK (Paging.mkMach (Pmm.mkPmm [] 0 0) (λ _, 0)) Sched.boot ∅ ∅ 0 ∅ ∅ ∅ ∅ (mkShm ∅ ∅ 1)) ∅ ∅ ∅ ∅ ∅ ∅)
    empty_fs Pty.boot no_sockets (mkInput [] [] []) ∅ 0 ∅ 0 [] [] ∅.
Definition demo_ready : Os := (ensure_init demo_os).2.

Lemma demo_is_ready : ready demo_ready.
Proof. split; reflexivity. Qed.

Lemma alloc_fd_lowest_witness : ∃ s', alloc_fd 2 demo_ready = (Ok 3, s') ∧ get_file 3 s' = (Ok 2, s').
Proof.
  destruct (alloc_fd_lowest demo_ready 3 2 false demo_is_ready ltac:(lia)) as [(fd & s' & Hf & E & Hi & _)|[_ E]].
  - assert (fd = 3) as -> by (vm_compute in E; congruence). exists s'. split; [exact E|exact Hi].
  - vm_compute in E. discriminate.
Defined.

(** A duplicated descriptor shares the open file: [dup] returns the lowest
    free descriptor from 3 on, which names the same file object (so offset and
    flags are common) with close-on-exec clear; for a socket it becomes an alias of
    the same owner. *)
Theorem dup_shares s old h : ready s → 0 ≤ old < 1024 → fd_files s !! Z.to_nat old = Some (Some h) →
  (∃ fd s', lowest_free s 3 fd ∧ dup_fd old s = (Ok fd, s') ∧ fd ≠ old ∧
    get_file fd s' = (Ok h, s') ∧ get_file old s' = (Ok h, s') ∧ get_cloexec fd s' = (Ok false, s') ∧ FILES s' = FILES s ∧
    (ftype (file s h) = Socket → owner_of fd (net s') = owner_of old (net s)) ∧ (ftype (file s h) ≠ Socket → net s' = net s)) ∨
  (none_free s 3 ∧ dup_fd old s = (Err EMFILE, s)).
Proof.
  intros Hr Hold Hh. unfold dup_fd. rewrite bind_init by done. unfold MAX_FDS. rewrite (proj2 (Z.leb_gt 1024 old)) by lia.
  unfold slot. kstep. rewrite Hh. kstep.
  destruct (find_free_spec s 3 Hr ltac:(lia)) as [(fd & E & Hf)|[E Hf]]; rewrite (bind_ok _ _ _ _ _ E); [left|right; done].
  destruct Hf as (Hfd & Hn & Hk). assert (fd ≠ old) as Hne by (intros ->; congruence). rewrite Z2Nat.id by lia. kstep.
  set (s1 := if is_socket h s then on_net (clone_socket_fd old fd) s else s).
  exists fd, (set_slot fd (Some h) false s1). split; [done|]. split; [unfold s1; destruct (is_socket h s); reflexivity|].
  assert (ready s1) as Hr1 by (unfold s1; by destruct (is_socket h s)).
  assert (fd_files s1 = fd_files s ∧ FILES s1 = FILES s) as [E1 E2] by (unfold s1; by destruct (is_socket h s)).
  destruct (set_slot_installed s1 fd h false Hr1 ltac:(lia)) as (I1 & I2 & I3 & I4 & I5).
  split_and!; [done|done| |done|by rewrite I3|..].
  - apply get_file_ready; [done|done|]. destruct (I5 old ltac:(lia) ltac:(congruence)) as [-> _]. by rewrite E1.
  - intros Hs. cbn. unfold s1, is_socket. rewrite bool_decide_eq_true_2 by done. cbn. unfold owner_of at 1. cbn.
    by rewrite lookup_insert, decide_True.
  - intros Hs. cbn. unfold s1, is_socket. by rewrite bool_decide_eq_false_2.
Qed.

Lemma dup_shares_witness : ∃ s', dup_fd 1 demo_ready = (Ok 3, s') ∧ get_file 3 s' = (Ok 1, s').
Proof.
  destruct (dup_shares demo_ready 1 1 demo_is_ready ltac:(lia) eq_refl) as [(fd & s' & Hf & E & _ & Hi & _)|[_ E]].
  - assert (fd = 3) as -> by (vm_compute in E; congruence). exists s'. split; [exact E|exact Hi].
  - vm_compute in E. discriminate.
Defined.

(** ** Close-on-exec *)

Lemma close_fd_ready s fd h : ready s → 0 ≤ fd < 1024 → fd_files s !! Z.to_nat fd = Some (Some h) →
  ∃ s', close_fd fd s = (Ok 0, s') ∧ ready s' ∧ FILES s' = FILES s ∧
    ∀ k, 0 ≤ k → fd_files s' !! Z.to_nat k = if bool_decide (k = fd) then Some None else fd_files s !! Z.to_nat k.
Proof.
  intros Hr Hfd Hh. unfold close_fd. rewrite bind_init by done. unfold MAX_FDS. rewrite (proj2 (Z.leb_gt 1024 fd)) by lia.
  unfold slot. kstep. rewrite Hh. kstep. set (s1 := if is_socket h s then on_net (cleanup_socket_fd fd) s else s).
  exists (set_slot fd None false s1). assert (ready s1) as Hr1 by (unfold s1; by destruct (is_socket h s)).
  assert (fd_files s1 = fd_files s ∧ FILES s1 = FILES s) as [E1 E2] by (unfold s1; by destruct (is_socket h s)).
  split_and!; [unfold s1; by destruct (is_socket h s)|by apply set_slot_ready|done|].
  intros k Hk. rewrite set_slot_lookup by done. by rewrite E1.
Qed.

Lemma close_list s l : NoDup l → ready s → (∀ fd, fd ∈ l → 0 ≤ fd < 1024 ∧ is_open s fd = true) →
  ∃ s', for_each l (λ fd, ignore (close_fd fd)) s = (Ok tt, s') ∧ ready s' ∧
    ∀ k, 0 ≤ k → fd_files s' !! Z.to_nat k = if bool_decide (k ∈ l) then Some None else fd_files s !! Z.to_nat k.
Proof.
  intros Hn. revert s. induction Hn as [|fd l Hni Hn IH]; intros s Hr Hl; cbn [for_each].
  { exists s. split_and!; [done..|]. intros k _. by rewrite bool_decide_eq_false_2 by apply not_elem_of_nil. }
  destruct (Hl fd) as [Hfd Ho]; [left|]. unfold is_open in Ho.
  destruct (fd_files s !! Z.to_nat fd) as [[h|]|] eqn:Eh; [|done..].
  destruct (close_fd_ready s fd h Hr Hfd Eh) as (s1 & Ec & Hr1 & _ & Hk1).
  rewrite (bind_ok _ _ _ tt s1) by (unfold ignore; by rewrite Ec).
  destruct (IH s1 Hr1) as (s2 & E2 & Hr2 & Hk2).
  { intros k Hk. destruct (Hl k) as [? Hok]; [by right|]. split; [done|]. unfold is_open in *. rewrite Hk1 by lia.
    rewrite bool_decide_eq_false_2 by (intros ->; done). done. }
  exists s2. split_and!; [done..|]. intros k Hk. rewrite Hk2, Hk1 by done.
  destruct (decide (k = fd)) as [->|Hne].
  - rewrite (bool_decide_eq_true_2 (fd = fd)), (bool_decide_eq_true_2 (fd ∈ fd :: l)) by (done || left). by case_bool_decide.
  - rewrite (bool_decide_eq_false_2 (k = fd)) by done. rewrite (bool_decide_ext (k ∈ fd :: l) (k ∈ l)); [done|].
    rewrite elem_of_cons. naive_solver.
Qed.

(** [exec] closes exactly the descriptors marked close-on-exec: after
    [close_cloexec_fds] a descriptor is closed if its flag was set and otherwise
    is what it was. *)
Theorem close_cloexec_exact s : ready s → ∃ s', close_cloexec_fds s = (Ok tt, s') ∧ ready s' ∧
  ∀ fd, 0 ≤ fd < 1024 → fd_files s' !! Z.to_nat fd =
    if default false (fd_cloexec s !! Z.to_nat fd) then Some None else fd_files s !! Z.to_nat fd.
Proof.
  intros Hr. unfold close_cloexec_fds. rewrite bind_init by done. kstep. set (l := filter _ _).
  assert (∀ fd, fd ∈ l ↔ 0 ≤ fd < 1024 ∧ is_open s fd = true ∧ default false (fd_cloexec s !! Z.to_nat fd) = true) as Hl.
  { intros fd. unfold l, open_fds. rewrite !list_elem_of_filter, elem_of_seqZ. destruct Hr as [-> _].
    change (Z.of_nat 1024) with 1024. rewrite Z.add_0_l. tauto. }
  destruct (close_list s l) as (s' & E & Hr' & Hk); [|done|by intros fd (? & ? & _)%Hl|].
  { unfold l, open_fds. apply NoDup_filter, NoDup_filter, NoDup_seqZ. }
  exists s'. split_and!; [done..|]. intros fd Hfd. rewrite Hk by lia. case_bool_decide as Hin.
  - apply Hl in Hin as (_ & _ & ->). done.
  - destruct (default false (fd_cloexec s !! Z.to_nat fd)) eqn:Ed; [|done].
    destruct (is_open s fd) eqn:Eo; [exfalso; apply Hin, Hl; done|]. unfold is_open in Eo.
    destruct (slot_ready s fd Hr Hfd) as (o & Ho & _). rewrite Ho in *. by destruct o.
Qed.

Definition demo_flagged : Os := (set_cloexec 1 true demo_ready).2.

Lemma close_cloexec_exact_witness : ∃ s', close_cloexec_fds demo_flagged = (Ok tt, s') ∧
  fd_files s' !! 1%nat = Some None ∧ fd_files s' !! 2%nat = Some (Some 2).
Proof.
  destruct (close_cloexec_exact demo_flagged) as (s' & E & _ & H); [split; reflexivity|]. exists s'. split; [exact E|].
  split; [exact (H 1 ltac:(lia))|exact (H 2 ltac:(lia))].
Defined.
