(* ===== verification/FileOps.v ===== *)
(** * Operations on open files ([FileObject] of [fs/vfs.rs])

    Arguments that come from the environment: the calling CPU [cpu], its page-table
    root [root], the counter [now] ([arch::read_counter]) and the tick count
    [ticks] ([arch::ticks]).

    Several operations access user memory through the raw pointer instead of
    [copy_to_user].  What the MMU and the abort handler make of such an access is
    the interface [RawAccess].  [write] is called with the kernel address of the
    bytes, so it takes the bytes themselves.  The DRM device is the interface
    [Drm].

    A read that finds nothing sleeps one tick and looks again: one look returns
    [None] in that case. *)

From S2P Require Import Prelude.
From S2P Require Import Path.
From S2P Require Import Paging.
From S2P Require Import User.
From S2P Require Import Pty.
From S2P Require Import Kernel.
From S2P Require Import Signal.
From S2P Require Import Vfs.
From S2P Require Import Sock.
From S2P Require Import Input.
From S2P Require Import File.

Class RawAccess := {
  raw_load : Z → nat → M Mach (list Z);
  raw_store : Z → list Z → M Mach () }.

Class Drm := {
  drm_read_events : Z → Z → M Os Z;
  drm_handle_ioctl : Z → Z → M Os Z }.

Definition on_machine {A} (m : M Mach A) : M Os A := on_sig (on_kern (on_mach m)).

(** [O_NONBLOCK] as this kernel tests it. *)
Definition NONBLOCK : Z := 0x800.

(** [len.saturating_sub(offset)], [count.min(avail)] *)
Definition to_read (len off count : Z) : Z := Z.min count (saturating_sub len off).
Definition slice_at (off n : Z) (l : list Z) : list Z := take (Z.to_nat n) (drop (Z.to_nat off) l).

(** The contents after a [resize] to the end of the write and the copy. *)
Definition splice (off : Z) (bytes data : list Z) : list Z :=
  let end_ := (Z.to_nat off + length bytes)%nat in
  let data := if bool_decide (length data < end_)%nat then data ++ replicate (end_ - length data) 0 else data in
  take (Z.to_nat off) data ++ bytes ++ drop end_ data.

(** [Vec::resize] beyond [isize::MAX] bytes is a capacity overflow. *)
Definition end_of_write (off count : Z) : M Os Z :=
  let! e := or_panic (add64 off count) in
  if 2 ^ 63 <=? e then panic else ret e.

(** The generator behind [/dev/urandom]. *)
Definition lcg (seed : Z) : Z := wrapping_add (wrapping_mul seed 6364136223846793005) 1442695040888963407.
Fixpoint random_bytes (n : nat) (seed : Z) : list Z :=
  match n with
  | O => []
  | S n' => let seed := lcg seed in Z.shiftr seed 33 mod 256 :: random_bytes n' seed
  end.

Definition pty_of (i : Z) (s : Os) : option Pty.Pty := get_pty (ptys s) i.
Definition on_pty_of (i : Z) (f : Pty.Pty → Pty.Pty) (s : Os) : Os :=
  let y := ptys s in set_ptys (Pty.mkSys (alter f i (PTYS y)) (NEXT_PTY y) (CONSOLE_PTY y) (sys_uart y) (sys_signals y)) s.

(** Signals of the line discipline reach the process groups. *)
Definition deliver_pty_signals : M Os () :=
  let! s := get in
  let y := ptys s in
  modify (set_ptys (Pty.mkSys (PTYS y) (NEXT_PTY y) (CONSOLE_PTY y) (sys_uart y) [])) ;;;
  for_each (sys_signals y) (λ e, on_sig (deliver_signal_to_pgrp e.1 e.2)).

(** A timer at counter value [now]: the expirations that have come due are
    counted and the deadline moves on. *)
Definition timer_expire (now nd it pe : Z) : option (Z * Z) :=
  if negb (nd =? 0) && (nd <=? now) then
    if it =? 0 then Some (0, saturating_add pe 1)
    else
      let delta := saturating_sub now nd in
      periods ← add64 (delta / it) 1;
      Some (saturating_add nd (saturating_mul periods it), saturating_add pe periods)
  else Some (nd, pe).

Section Ops.
Context (cpu : nat) (root now ticks : Z) `{RawAccess, Drm}.

Definition copy_to_user (addr : Z) (data : list Z) : M Os () := on_machine (User.copy_to_user root addr data).
Definition copy_from_user (addr : Z) (n : nat) : M Os (list Z) := on_machine (User.copy_from_user root addr n).
Definition store_user (addr : Z) (data : list Z) : M Os () := on_machine (raw_store addr data).
Definition load_user (addr : Z) (n : nat) : M Os (list Z) := on_machine (raw_load addr n).

(** ** Reading *)

(** A read from a buffer of bytes at the file's offset. *)
Definition read_bytes (h : Z) (data : list Z) (count : Z) (deliver : list Z → M Os ()) : M Os Z :=
  let! off := gets (λ s, offset (file s h)) in
  let n := to_read (Z.of_nat (length data)) off count in
  when (0 <? n) (deliver (slice_at off n data)) ;;;
  modify (on_file h (λ f, set_offset (offset f + n) f)) ;;;
  ret n.

(** One look at a terminal's queue. *)
Definition read_pty (master : bool) (i fl buf count : Z) : M Os (option Z) :=
  let! o := gets (pty_of i) in
  let rb := match o with Some p => if master then master_rx p else slave_rx p | None => [] end in
  match rb with
  | _ :: _ =>
      let n := Z.min count (Z.of_nat (length rb)) in
      ignore (copy_to_user buf (take (Z.to_nat n) rb)) ;;;
      modify (on_pty_of i ((if master then set_master_rx else set_slave_rx) (drop (Z.to_nat n) rb))) ;;;
      ret (Some n)
  | [] => if has fl NONBLOCK then fail EAGAIN else ret None
  end.

Definition read_chardev (f : FileObject) (buf count : Z) : M Os (option Z) :=
  match inode f with
  | None => ret (Some 0)
  | Some n =>
      let! i := gets (λ s, node (tree s) n) in
      let major := dev_major i in let minor := dev_minor i in
      if (major =? 1) && (minor =? 3) then ret (Some 0)
      else if (major =? 1) && (minor =? 5) then
        when (0 <? count) (store_user buf (replicate (Z.to_nat count) 0)) ;;; ret (Some count)
      else if (major =? 1) && (minor =? 9) then
        store_user buf (random_bytes (Z.to_nat count) ticks) ;;; ret (Some count)
      else if (major =? 13) && (64 <=? minor) && (minor <=? 127) then
        let! s := get in
        let '(n, w, inp) := read_events_for_minor minor buf count (input s) in
        put (set_input inp s) ;;;
        for_each w (λ e, store_user e.1 e.2) ;;; ret (Some n)
      else if major =? 226 then let! n := drm_read_events buf count in ret (Some n)
      else if major =? 5 then
        let! i := gets (λ s, console_pty_id (ptys s)) in read_pty false i (flags f) buf count
      else ret (Some 0)
  end.

Definition read_timer (h : Z) (f : FileObject) (buf : Z) : M Os (option Z) :=
  match special_data f with
  | Some (TimerFdState nd it pe) =>
      let! r := or_panic (timer_expire now nd it pe) in
      let '(nd, pe) := r in
      if 0 <? pe then
        modify (on_file h (set_special (TimerFdState nd it 0))) ;;;
        ignore (copy_to_user buf (to_le 8 pe)) ;;; ret (Some 8)
      else
        modify (on_file h (set_special (TimerFdState nd it pe))) ;;;
        if has (flags f) NONBLOCK then fail EAGAIN else ret None
  | _ => if has (flags f) NONBLOCK then fail EAGAIN else ret None
  end.

(** [f] is the file at [h]. *)
Definition read_as (h : Z) (f : FileObject) (buf count : Z) : M Os (option Z) :=
  match ftype f with
  | Regular | MemFd =>
      match inode f, special_data f with
      | Some n, _ =>
          let! data := gets (λ s, idata (node (tree s) n)) in
          let! r := read_bytes h data count (λ b, ignore (copy_to_user buf b)) in ret (Some r)
      | None, Some (MemFdData data) => let! r := read_bytes h data count (store_user buf) in ret (Some r)
      | None, _ => ret (Some 0)
      end
  | CharDevice => read_chardev f buf count
  | Pipe =>
      match special_data f with
      | Some (PipeBuffer b) =>
          let! pb := gets (λ s, default [] (PIPES s !! b)) in
          let n := Z.min count (Z.of_nat (length pb)) in
          when (0 <? n)
            (store_user buf (take (Z.to_nat n) pb) ;;;
             modify (λ s, set_pipes (<[b := drop (Z.to_nat n) pb]> (PIPES s)) (NEXT_PIPE s) s)) ;;;
          ret (Some n)
      | _ => ret (Some 0)
      end
  | EventFd =>
      if count <? 8 then fail EINVAL else
      match special_data f with
      | Some (EventFdVal v) =>
          store_user buf (to_le 8 v) ;;; modify (on_file h (set_special (EventFdVal 0))) ;;; ret (Some 8)
      | _ => ret (Some 0)
      end
  | TimerFd => if count <? 8 then fail EINVAL else read_timer h f buf
  | SignalFd =>
      if count <? 128 then fail EINVAL else
      let m := match special_data f with Some (SignalFdMask m) => m | _ => 0 end in
      let! o := on_sig (signalfd_consume cpu m) in
      match o with
      | Some sg => map_err (copy_to_user buf (to_le 4 sg ++ replicate 124 0)) EINVAL ;;; ret (Some 128)
      | None => if has (flags f) NONBLOCK then fail EAGAIN else ret None
      end
  | PtyMaster => match special_data f with Some (PtyMasterOf i) => read_pty true i (flags f) buf count | _ => ret (Some 0) end
  | PtySlave => match special_data f with Some (PtySlaveOf i) => read_pty false i (flags f) buf count | _ => ret (Some 0) end
  | _ => ret (Some 0)
  end.

Definition read (h buf count : Z) : M Os (option Z) := let! f := gets (λ s, file s h) in read_as h f buf count.

(** ** Writing *)

Definition write_as (h : Z) (f : FileObject) (data : list Z) : M Os Z :=
  let count := Z.of_nat (length data) in
  match ftype f with
  | Regular | MemFd =>
      match inode f, special_data f with
      | Some n, _ =>
          let! e := end_of_write (offset f) count in
          modify (λ s, set_tree (on_node n (λ i, set_data (splice (offset f) data (idata i)) i) (tree s)) s) ;;;
          modify (on_file h (set_offset e)) ;;; ret count
      | None, Some (MemFdData old) =>
          let! e := end_of_write (offset f) count in
          modify (on_file h (λ f, set_special (MemFdData (splice (offset f) data old)) f)) ;;;
          modify (on_file h (set_offset e)) ;;; ret count
      | None, _ => ret count
      end
  | CharDevice => ret count
  | Pipe =>
      match special_data f with
      | Some (PipeBuffer b) =>
          modify (λ s, set_pipes (<[b := default [] (PIPES s !! b) ++ data]> (PIPES s)) (NEXT_PIPE s) s) ;;; ret count
      | _ => ret 0
      end
  | EventFd =>
      if count <? 8 then fail EINVAL else
      match special_data f with
      | Some (EventFdVal v) => modify (on_file h (set_special (EventFdVal (wrapping_add v (from_le (take 8 data)))))) ;;; ret 8
      | _ => ret 8
      end
  | TimerFd | SignalFd => fail EINVAL
  | PtyMaster =>
      match special_data f with
      | Some (PtyMasterOf i) => modify (λ s, set_ptys (master_write i data (ptys s)) s) ;;; deliver_pty_signals
      | _ => ret tt
      end ;;; ret count
  | PtySlave =>
      match special_data f with
      | Some (PtySlaveOf i) =>
          modify (λ s, set_ptys (slave_write i data (ptys s)) s) ;;;
          let! s := get in
          when (i =? console_pty_id (ptys s))
            (match pty_of i s with
             | Some p => let y := ptys s in
                 put (set_ptys (Pty.mkSys (PTYS y) (NEXT_PTY y) (CONSOLE_PTY y) (sys_uart y ++ process_output p data) (sys_signals y)) s)
             | None => ret tt
             end)
      | _ => ret tt
      end ;;; ret count
  | _ => ret count
  end.

Definition write (h : Z) (data : list Z) : M Os Z := let! f := gets (λ s, file s h) in write_as h f data.

(** ** Position and status *)

(** [x as i64], [x as usize], and a checked addition of [i64]s. *)
Definition as_i64 (x : Z) : Z := if x <? 2 ^ 63 then x else x - 2 ^ 64.
Definition as_usize (x : Z) : Z := x mod 2 ^ 64.
Definition add_i64 (a b : Z) : option Z := let c := a + b in if bool_decide (- 2 ^ 63 ≤ c < 2 ^ 63) then Some c else None.

Definition lseek (h off whence : Z) : M Os Z :=
  let! f := gets (λ s, file s h) in
  let! size := gets (λ s, match inode f with Some n => Z.of_nat (length (idata (node (tree s) n))) | None => 0 end) in
  let! new_offset :=
    (if whence =? 0 then ret (as_usize off)
     else if whence =? 1 then let! x := or_panic (add_i64 (as_i64 (offset f)) off) in ret (as_usize x)
     else if whence =? 2 then let! x := or_panic (add_i64 (as_i64 size) off) in ret (as_usize x)
     else fail EINVAL) in
  modify (on_file h (set_offset new_offset)) ;;;
  ret new_offset.

Definition file_mode (f : FileObject) (s : Os) : Z :=
  match inode f with
  | Some n => let i := node (tree s) n in Z.lor (type_bits (itype i)) (imode i)
  | None => if bool_decide (ftype f = Pipe) then Z.lor 0x1000 0x180 else Z.lor 0x8000 0x1A4
  end.

Definition stat (h statbuf : Z) : M Os Z :=
  let! f := gets (λ s, file s h) in
  let! mode := gets (file_mode f) in
  let! size := gets (λ s, match inode f with Some n => isize (node (tree s) n) | None => 0 end) in
  map_err (copy_to_user statbuf (stat_record mode size)) EINVAL ;;; ret 0.
End Ops.

(** ** Files have the data their type needs *)

Definition file_wf (f : FileObject) : Prop :=
  match ftype f with
  | Regular | Directory => is_Some (inode f) ∧ special_data f = None
  | CharDevice | Epoll | Socket => special_data f = None
  | Pipe => ∃ b, special_data f = Some (PipeBuffer b)
  | EventFd => ∃ v, special_data f = Some (EventFdVal v) ∧ u64_ok v
  | TimerFd => ∃ nd it pe, special_data f = Some (TimerFdState nd it pe)
  | SignalFd => ∃ m, special_data f = Some (SignalFdMask m)
  | MemFd => inode f = None ∧ ∃ d, special_data f = Some (MemFdData d)
  | PidFd => ∃ p, special_data f = Some (PidFdOf p)
  | PtyMaster => ∃ i, special_data f = Some (PtyMasterOf i)
  | PtySlave => ∃ i, special_data f = Some (PtySlaveOf i)
  end.

Definition files_wf (s : Os) : Prop := ∀ h f, FILES s !! h = Some f → file_wf f.

Lemma files_wf_file s h : files_wf s → is_Some (FILES s !! h) → file_wf (file s h).
Proof. intros H [f Hf]. unfold file. rewrite Hf. eauto. Qed.

Lemma on_file_wf h g s : files_wf s → (∀ f, FILES s !! h = Some f → file_wf f → file_wf (g f)) → files_wf (on_file h g s).
Proof.
  intros Hs Hg h' f. cbn. rewrite lookup_alter_Some. intros [(-> & f0 & Hf & ->)|[_ Hf]]; [|eauto]. eauto.
Qed.

Lemma offset_wf h s x : files_wf s → files_wf (on_file h (set_offset x) s).
Proof. intros Hs. by apply on_file_wf. Qed.

Lemma wf_same_files s s' : FILES s' = FILES s → files_wf s → files_wf s'.
Proof. unfold files_wf. by intros ->. Qed.

Lemma preserves_alloc_file f : file_wf f → preserves files_wf (alloc_file f).
Proof. intros Hf s Hs h g. cbn. rewrite lookup_insert_Some. intros [[_ <-]|[_ Hg]]; eauto. Qed.

Lemma preserves_on_sig {A} (m : M Sig A) : preserves files_wf (on_sig m).
Proof. intros s. unfold on_sig. by destruct (m (sig s)). Qed.

Lemma preserves_on_tree {A} (m : M Fs A) : preserves files_wf (on_tree m).
Proof. intros s. unfold on_tree. by destruct (m (tree s)). Qed.

Lemma preserves_quiet f : (∀ s, FILES (f s) = FILES s) → preserves files_wf (modify f).
Proof. intros Hf. apply preserves_modify. intros s. by apply wf_same_files. Qed.

Lemma preserves_ensure_init : preserves files_wf ensure_init.
Proof.
  unfold ensure_init. apply preserves_bind_get. intros s Hs. destruct (fd_files s); [|done].
  set (f := if negb _ then _ else _). assert (file_wf f) as Hf by (unfold f; destruct (negb _); [by eexists|done]).
  enough (preserves files_wf (let! h0 := alloc_file f in let! h1 := alloc_file f in let! h2 := alloc_file f in
    modify (set_fds ([Some h0; Some h1; Some h2] ++ replicate 1021 None) (replicate 1024 false)))) as Hp by exact (Hp s Hs).
  clearbody f. repeat preserves_step; first [by apply preserves_alloc_file|by apply preserves_quiet].
Qed.

#[export] Hint Resolve preserves_on_sig preserves_on_tree preserves_ensure_init : preserves.

Lemma preserves_find_free start : preserves files_wf (find_free start).
Proof. by intros s. Qed.

Lemma preserves_alloc_fd h : preserves files_wf (alloc_fd h).
Proof.
  unfold alloc_fd, alloc_fd_from, alloc_fd_from_cloexec. repeat preserves_step; first [apply preserves_find_free|by apply preserves_quiet].
Qed.

#[export] Hint Resolve preserves_alloc_fd : preserves.

(** What the DRM device may not do: change the open files. *)
Class DrmLaws `{Drm} : Prop := {
  drm_read_files : ∀ buf count s, FILES (drm_read_events buf count s).2 = FILES s;
  drm_ioctl_files : ∀ request arg s, FILES (drm_handle_ioctl request arg s).2 = FILES s }.

(** Well-formed files, the one at [h] of type [T]. *)
Definition typed (h : Z) (T : FileType) (s : Os) : Prop := files_wf s ∧ ∀ f, FILES s !! h = Some f → ftype f = T.

Lemma typed_start s h : files_wf s → typed h (ftype (file s h)) s.
Proof. intros Hs. split; [done|]. intros f Hf. unfold file. by rewrite Hf. Qed.

Lemma typed_same h T s s' : FILES s' = FILES s → typed h T s → typed h T s'.
Proof. unfold typed, files_wf. by intros ->. Qed.

Lemma typed_quiet h T f : (∀ s, FILES (f s) = FILES s) → preserves (typed h T) (modify f).
Proof. intros Hf. apply preserves_modify. intros s. by apply typed_same. Qed.

Lemma typed_on_sig h T {A} (m : M Sig A) : preserves (typed h T) (on_sig m).
Proof. intros s. unfold on_sig. by destruct (m (sig s)). Qed.

Lemma typed_on_file h T g : (∀ f, ftype f = T → file_wf f → file_wf (g f) ∧ ftype (g f) = T) → preserves (typed h T) (modify (on_file h g)).
Proof.
  intros Hg. apply preserves_modify. intros s [Hs Ht]. split.
  - apply on_file_wf; [done|]. intros f Hf. apply Hg. by apply Ht.
  - intros f. cbn. rewrite lookup_alter_Some. intros [(_ & f0 & Hf & ->)|[? _]]; [|done]. apply Hg; eauto.
Qed.

Lemma typed_offset h T n : preserves (typed h T) (modify (on_file h (λ f, set_offset (n f) f))).
Proof. apply typed_on_file. by intros f. Qed.

Lemma typed_put_input h T s inp : typed h T s → typed h T (set_input inp s).
Proof. done. Qed.

#[export] Hint Resolve typed_on_sig typed_offset : preserves.

Section Typing.
Context (cpu : nat) (root now ticks : Z) `{RawAccess, DrmLaws}.

Lemma typed_read_bytes h T data count deliver : (∀ b, preserves (typed h T) (deliver b)) → preserves (typed h T) (read_bytes h data count deliver).
Proof. intros Hd. unfold read_bytes. by repeat preserves_step. Qed.

Lemma typed_read_pty h T master i fl buf count : preserves (typed h T) (read_pty root master i fl buf count).
Proof.
  unfold read_pty. apply preserves_bind; [apply preserves_gets|]. intros o. by destruct (match o with Some _ => _ | None => _ end);
    repeat preserves_step.
Qed.

Lemma typed_drm_read h T buf count : preserves (typed h T) (drm_read_events buf count).
Proof using All. intros s. apply typed_same, drm_read_files. Qed.

Hint Resolve typed_read_pty typed_drm_read : preserves.

Lemma typed_chardev h T f buf count : preserves (typed h T) (read_chardev root ticks f buf count).
Proof using All.
  unfold read_chardev. destruct (inode f) as [n|]; [|apply preserves_ret]. apply preserves_bind; [apply preserves_gets|]. intros i.
  cbv zeta. repeat case_match; try (repeat preserves_step; fail).
  intros s Hs. rewrite bind_get. destruct (read_events_for_minor _ _ _ _) as [[n' w] inp].
  rewrite bind_put. revert Hs. change (typed h T s) with (typed h T (set_input inp s)). generalize (set_input inp s).
  apply (preserves_bind (typed h T)); [|intros; apply preserves_ret]. apply preserves_for_each. intros. apply typed_on_sig.
Qed.

Lemma typed_special h T x : (∀ f, ftype f = T → file_wf f → file_wf (set_special x f)) → preserves (typed h T) (modify (on_file h (set_special x))).
Proof. intros Hx. apply typed_on_file. intros f Hf Hw. auto. Qed.

Lemma typed_timer h f buf : preserves (typed h TimerFd) (read_timer root now h f buf).
Proof.
  assert (∀ nd it pe, preserves (typed h TimerFd) (modify (on_file h (set_special (TimerFdState nd it pe))))) as Hm.
  { intros. apply typed_special. intros g Hg _. unfold file_wf. cbn. rewrite Hg. eauto. }
  unfold read_timer. destruct (special_data f) as [[]|]; repeat preserves_step.
Qed.

Lemma typed_event h v : u64_ok v → preserves (typed h EventFd) (modify (on_file h (set_special (EventFdVal v)))).
Proof. intros Hv. apply typed_special. intros g Hg _. unfold file_wf. cbn. rewrite Hg. eauto. Qed.

Hint Resolve typed_chardev typed_timer typed_read_bytes : preserves.

Lemma typed_read_as h f buf count : preserves (typed h (ftype f)) (read_as cpu root now ticks h f buf count).
Proof using All.
  unfold read_as. destruct (ftype f) eqn:ET; try (repeat preserves_step; fail).
  repeat preserves_step. apply typed_event. unfold u64_ok. lia.
Qed.

Lemma typed_deliver h T : preserves (typed h T) deliver_pty_signals.
Proof. unfold deliver_pty_signals. repeat preserves_step. Qed.

Lemma typed_end_of_write h T off count : preserves (typed h T) (end_of_write off count).
Proof. unfold end_of_write. repeat preserves_step. Qed.

Hint Resolve typed_deliver typed_end_of_write : preserves.

Lemma typed_write_as h f data : file_wf f ∨ f = no_file → preserves (typed h (ftype f)) (write_as h f data).
Proof using All.
  intros Hf. unfold write_as. destruct (ftype f) eqn:ET; try (repeat preserves_step; fail).
  - assert (inode f = None → special_data f = None) as Hn.
    { intros E. destruct Hf as [Hf| ->]; [|done]. unfold file_wf in Hf. rewrite ET, E in Hf. destruct Hf as [[? ?] _]. done. }
    destruct (inode f) as [n|]; [|rewrite Hn by done]; repeat preserves_step.
  - repeat preserves_step. apply typed_event. unfold u64_ok, wrapping_add. lia.
  - destruct (inode f) as [n|]; [repeat preserves_step|].
    destruct (special_data f) as [[]|]; try (repeat preserves_step; fail). repeat preserves_step.
    apply typed_on_file. intros g Hg Hw. unfold file_wf in *. cbn. rewrite Hg in *. split; [|done]. split; [apply Hw|eauto].
  - destruct (special_data f) as [[]|]; try (repeat preserves_step; fail).
    apply preserves_bind; [|intros; apply preserves_ret]. apply preserves_bind; [by apply typed_quiet|]. intros _.
    apply preserves_bind_get. intros s Hs. destruct (i =? _); [|done]. cbn [when]. by destruct (pty_of i s).
Qed.

(** Every open file has the data its type needs, and keeps it: reading,
    writing, seeking and querying a file, whatever its type and the outcome, leave
    every file object well formed, so the arms for a file without its data are
    never taken. *)
Theorem file_ops_typed h buf count data off whence statbuf :
  preserves files_wf (read cpu root now ticks h buf count) ∧ preserves files_wf (write h data) ∧
  preserves files_wf (lseek h off whence) ∧ preserves files_wf (stat root h statbuf).
Proof using All.
  split_and!; [intros s Hs|intros s Hs|idtac|idtac].
  - unfold read. rewrite bind_gets. eapply proj1, (typed_read_as h), typed_start, Hs.
  - unfold write. rewrite bind_gets. eapply proj1, (typed_write_as h); [|by apply typed_start].
    destruct (FILES s !! h) eqn:E; [left; apply files_wf_file; [done|by rewrite E]|right; unfold file; by rewrite E].
  - unfold lseek. repeat preserves_step; apply preserves_modify; intros; by apply offset_wf.
  - unfold stat. repeat preserves_step.
Qed.
End Typing.

(** A device that does nothing. *)
Definition idle_drm : Drm := {| drm_read_events _ _ := ret 0; drm_handle_ioctl _ _ := fail ENOTTY |}.
Definition plain_access : RawAccess := {|
  raw_load a n := gets (λ s, rd_bytes (mem s) a n); raw_store a b := modify (λ s, set_mem (wr_bytes (mem s) a b) s) |}.

Lemma idle_laws : @DrmLaws idle_drm.
Proof. by split. Qed.

Lemma demo_files_wf : files_wf demo_ready.
Proof.
  assert (files_wf demo_os) as H by (intros h f; cbn; by rewrite lookup_empty). exact (preserves_ensure_init demo_os H).
Qed.

Lemma file_ops_typed_witness : ∃ s', write 0 [1; 2] demo_ready = (Ok 2, s') ∧ files_wf s'.
Proof.
  eexists. split; [reflexivity|].
  exact (proj1 (proj2 (@file_ops_typed 0 0 0 0 plain_access idle_drm idle_laws 0 0 0 [1; 2] 0 0 0)) demo_ready demo_files_wf).
Defined.

(** ** User memory *)

Definition ram (s : Os) : Z → Z := mem (mach (kern (sig s))).

Lemma on_machine_pure {A} (m : M Mach A) r s : m (mach (kern (sig s))) = (r, mach (kern (sig s))) → on_machine m s = (r, s).
Proof. unfold on_machine, on_sig, on_kern, on_mach. intros ->. by destruct s as [[[] ] ]. Qed.

Lemma copy_in_ok root addr n l s : 0 ≤ addr → addr + Z.of_nat n ≤ 2 ^ 64 → user_bytes (ram s) root addr n = Some l →
  copy_from_user root addr n s = (Ok l, s).
Proof.
  intros Ha Hb Hl. apply on_machine_pure. unfold User.copy_from_user. rewrite copy_from_user_loop_spec by done.
  unfold ram in Hl. by rewrite Hl.
Qed.

(** ** Reading back *)

Lemma length_splice off bytes data : 0 ≤ off →
  length (splice off bytes data) = Nat.max (Z.to_nat off + length bytes) (length data).
Proof.
  intros Ho. unfold splice. case_bool_decide; rewrite !length_app, length_take, length_drop; [rewrite length_app, length_replicate|]; lia.
Qed.

Lemma splice_here off bytes data : 0 ≤ off → slice_at off (Z.of_nat (length bytes)) (splice off bytes data) = bytes.
Proof.
  intros Ho. unfold slice_at, splice. set (d := if bool_decide _ then _ else _).
  assert (Z.to_nat off + length bytes ≤ length d)%nat as Hd.
  { unfold d. case_bool_decide; [rewrite length_app, length_replicate; lia|lia]. }
  rewrite drop_app_length' by (rewrite length_take; lia). rewrite Nat2Z.id. by rewrite take_app_length.
Qed.

(** Bytes outside the written range stay; a gap before it is filled with zeros. *)
Lemma splice_else off bytes data i : 0 ≤ off → (i < length (splice off bytes data))%nat →
  ¬ (Z.to_nat off ≤ i < Z.to_nat off + length bytes)%nat → splice off bytes data !! i = Some (default 0 (data !! i)).
Proof.
  intros Ho Hi Hn. rewrite length_splice in Hi by done. unfold splice. set (d := if bool_decide _ then _ else _).
  assert (Z.to_nat off + length bytes ≤ length d)%nat as Hd.
  { unfold d. case_bool_decide; [rewrite length_app, length_replicate; lia|lia]. }
  assert (∀ j, (j < length d)%nat → d !! j = Some (default 0 (data !! j))) as Hdj.
  { intros j Hj. unfold d in *. case_bool_decide.
    - destruct (decide (j < length data)%nat) as [Hl|Hl].
      + rewrite lookup_app_l by done. destruct (lookup_lt_is_Some_2 data j Hl) as [x ->]. done.
      + rewrite lookup_app_r, (lookup_ge_None_2 data) by lia. rewrite length_app, length_replicate in Hj. by apply lookup_replicate_2; lia.
    - destruct (lookup_lt_is_Some_2 data j Hj) as [x ->]. done. }
  assert (i < length d)%nat as Hid. { unfold d. case_bool_decide; [rewrite length_app, length_replicate|]; lia. }
  destruct (decide (i < Z.to_nat off)%nat).
  - rewrite lookup_app_l by (rewrite length_take; lia). rewrite lookup_take_lt by lia. by apply Hdj.
  - rewrite lookup_app_r by (rewrite length_take; lia). rewrite length_take, Nat.min_l by lia.
    rewrite lookup_app_r by lia. rewrite lookup_drop. replace (_ + _)%nat with i by lia. by apply Hdj.
Qed.

Lemma splice_in off bytes data i : 0 ≤ off → (Z.to_nat off ≤ i < Z.to_nat off + length bytes)%nat → splice off bytes data !! i = bytes !! (i - Z.to_nat off)%nat.
Proof.
  intros Ho Hi. unfold splice. set (d := if bool_decide _ then _ else _).
  assert (Z.to_nat off + length bytes ≤ length d)%nat as Hd by (unfold d; case_bool_decide; [rewrite length_app, length_replicate; lia|lia]).
  rewrite lookup_app_r by (rewrite length_take; lia). rewrite length_take, Nat.min_l by lia. by rewrite lookup_app_l by lia.
Qed.

Lemma file_on h g s f : FILES s !! h = Some f → file (on_file h g s) h = g f.
Proof. intros Hf. unfold file. cbn. by rewrite lookup_alter, decide_True, Hf by done. Qed.

Section ReadBack.
Context (cpu : nat) (root now ticks : Z) `{RawAccess, Drm}.

(** C19. What is written to a regular file is read back.  A write of [data] at the
    file's offset returns its length and moves the offset behind it; it replaces
    exactly that range of the contents, which grow if needed, with zeros in a gap
    before the range; every other inode and open file stays as it is.  After seeking
    back, a read of the same length is a copy of exactly [data] to the user's buffer
    that moves the offset on and returns the length. *)
Theorem write_read_back h f n data buf s : FILES s !! h = Some f → ftype f = Regular → inode f = Some n →
  is_Some (inodes (tree s) !! n) → 0 ≤ offset f → offset f + Z.of_nat (length data) < 2 ^ 63 → data ≠ [] →
  let len := Z.of_nat (length data) in let from := Z.to_nat (offset f) in let old := idata (node (tree s) n) in
  ∃ s1 s2, write h data s = (Ok len, s1) ∧ offset (file s1 h) = offset f + len ∧ lseek h (offset f) 0 s1 = (Ok (offset f), s2) ∧
    let new := idata (node (tree s2) n) in
    length new = Nat.max (length old) (from + length data) ∧
    (∀ i, (i < length new)%nat → new !! i = if decide (from ≤ i < from + length data)%nat then data !! (i - from)%nat else Some (default 0 (old !! i))) ∧
    (∀ m, m ≠ n → inodes (tree s2) !! m = inodes (tree s) !! m) ∧ (∀ h', h' ≠ h → FILES s2 !! h' = FILES s !! h') ∧
    read cpu root now ticks h buf len s2 =
      (ignore (copy_to_user root buf data) ;;;
       modify (on_file h (λ f, set_offset (offset f + len) f)) ;;; ret (Some len)) s2.
Proof.
  intros Hf Ht Hn [i Hi] Ho Hb Hne len from old.
  assert (file s h = f) as Ef by (unfold file; by rewrite Hf).
  assert (1 ≤ len) as Hlen by (unfold len; destruct data; [done|cbn; lia]).
  set (s0 := set_tree (on_node n (λ i, set_data (splice (offset f) data (idata i)) i) (tree s)) s).
  set (s1 := on_file h (set_offset (offset f + len)) s0). set (s2 := on_file h (set_offset (offset f)) s1).
  assert (file s1 h = set_offset (offset f + len) f) as E1 by (by apply file_on).
  assert (file s2 h = set_offset (offset f) (set_offset (offset f + len) f)) as E2.
  { apply file_on. cbn. by rewrite lookup_alter, decide_True, Hf by done. }
  assert (idata (node (tree s2) n) = splice (offset f) data (idata (node (tree s) n))) as Ed.
  { unfold node. cbn. by rewrite lookup_alter, decide_True, Hi by done. }
  exists s1, s2. cbv zeta. rewrite Ed, length_splice by done. fold from old. split_and!.
  - unfold write. rewrite bind_gets, Ef. unfold write_as. rewrite Ht, Hn. unfold end_of_write. fold len.
    rewrite add64_small by lia. kstep. rewrite (proj2 (Z.leb_gt _ _)) by lia. reflexivity.
  - by rewrite E1.
  - unfold lseek. kstep. rewrite E1. cbn [inode set_offset]. kstep. cbn [Z.eqb]. rewrite bind_ret.
    unfold as_usize. rewrite Z.mod_small by lia. reflexivity.
  - unfold from. lia.
  - intros j Hj. case_decide; [by apply splice_in|]. apply splice_else; [done|rewrite length_splice by done; fold from; lia|done].
  - intros m Hm. cbn. by rewrite lookup_alter_ne.
  - intros h' Hh. cbn. by rewrite !lookup_alter_ne.
  - unfold read. rewrite bind_gets, E2. unfold read_as. cbn [ftype inode set_offset]. rewrite Ht, Hn. kstep.
    unfold read_bytes. kstep. rewrite E2, Ed. cbn [offset set_offset].
    assert (to_read (Z.of_nat (length (splice (offset f) data (idata (node (tree s) n))))) (offset f) len = len) as Er.
    { unfold to_read, saturating_sub. rewrite length_splice by done. unfold len. lia. }
    assert (slice_at (offset f) len (splice (offset f) data (idata (node (tree s) n))) = data) as Es by (by apply splice_here).
    rewrite Er, Es, (proj2 (Z.ltb_lt 0 len)) by lia. kstep. reflexivity.
Qed.
End ReadBack.

(** A file with three bytes, open at offset 1. *)
Definition demo_file : Os :=
  set_objs {[0 := mkFile (Some 3) 1 0 Regular None]} 1
    (set_tree (mkFs {[3 := set_data [7; 8; 9] (new_file 0x1A4)]} 4 None []) demo_os).

Lemma write_read_back_witness : ∃ s1 s2, write 0 [1; 2; 3] demo_file = (Ok 3, s1) ∧ lseek 0 1 0 s1 = (Ok 1, s2) ∧
  length (idata (node (tree s2) 3)) = 4%nat ∧ idata (node (tree s2) 3) !! 0%nat = Some 7 ∧ idata (node (tree s2) 3) !! 3%nat = Some 3.
Proof.
  destruct (@write_read_back 0 0 0 0 plain_access idle_drm 0 (mkFile (Some 3) 1 0 Regular None) 3 [1; 2; 3] 4096 demo_file)
    as (s1 & s2 & H1 & _ & H2 & H3 & H4 & _); [reflexivity|reflexivity|reflexivity|eexists; reflexivity|cbn; lia|cbn; lia|discriminate|].
  exists s1, s2. split; [exact H1|]. split; [exact H2|]. split; [exact H3|]. rewrite !H4 by (rewrite H3; cbn; lia). split; reflexivity.
Defined.

(** [lseek] accepts a negative position: [SEEK_SET] to [-1] succeeds on every
    file and moves the offset to the largest [usize]; the next write to a regular
    file, of any length but zero, then overflows the addition of offset and
    length, which panics the kernel. *)
Theorem lseek_negative_panics h f n data s : FILES s !! h = Some f → ftype f = Regular → inode f = Some n → data ≠ [] →
  ∃ s1, lseek h (-1) 0 s = (Ok (2 ^ 64 - 1), s1) ∧ (write h data s1).1 = Panic.
Proof.
  intros Hf Ht Hn Hne. exists (on_file h (set_offset (2 ^ 64 - 1)) s). split.
  - unfold lseek. kstep. cbn [Z.eqb]. rewrite bind_ret. reflexivity.
  - unfold write. rewrite bind_gets, (file_on _ _ _ f) by done. unfold write_as. cbn [ftype inode offset set_offset]. rewrite Ht, Hn.
    unfold end_of_write. destruct data as [|x data]; [done|]. unfold add64. rewrite bool_decide_eq_false_2 by (cbn [length]; lia). done.
Qed.

Lemma lseek_negative_panics_witness : ∃ s1, lseek 0 (-1) 0 demo_file = (Ok (2 ^ 64 - 1), s1) ∧ (write 0 [65] s1).1 = Panic.
Proof. apply (lseek_negative_panics 0 (mkFile (Some 3) 1 0 Regular None) 3 [65] demo_file); [reflexivity..|discriminate]. Defined.

(** ** Timers *)

Lemma periods_spec now nd it : 0 < it → nd ≤ now → let k := (now - nd) / it + 1 in nd + (k - 1) * it ≤ now < nd + k * it.
Proof. intros Hi Hn. cbv zeta. pose proof (Z.div_mod (now - nd) it). pose proof (Z.mod_pos_bound (now - nd) it). nia. Qed.

(** C31. A timer never fires early and misses no expiration: an armed periodic
    timer whose deadline has passed counts exactly the deadlines reached by [now]
    and its next deadline is the first one after [now]; a one-shot timer counts
    one expiration and is disarmed; before the deadline nothing changes.  (No
    value saturates: deadlines and counts fit in 64 bits.) *)
Theorem timer_expirations now nd it pe : 0 < nd → 0 ≤ it → 0 ≤ pe → now + it < 2 ^ 64 → pe + now < 2 ^ 64 - 1 →
  timer_expire now nd it pe =
    (if nd <=? now then
      if it =? 0 then Some (0, pe + 1)
      else let k := (now - nd) / it + 1 in Some (nd + k * it, pe + k)
     else Some (nd, pe)) ∧
  (nd ≤ now → 0 < it → let k := (now - nd) / it + 1 in nd + (k - 1) * it ≤ now < nd + k * it).
Proof.
  intros Hnd Hit Hpe Hb Hb'. split; [|intros; by apply periods_spec]. unfold timer_expire.
  rewrite (proj2 (Z.eqb_neq nd 0)) by lia. cbn [negb andb]. destruct (Z.leb_spec nd now) as [Hle|]; [|done].
  destruct (Z.eqb_spec it 0); [unfold saturating_add, u64_max; by rewrite Z.min_l by lia|]. cbv zeta.
  pose proof (periods_spec now nd it ltac:(lia) Hle) as Hp. cbv zeta in Hp.
  unfold saturating_sub. rewrite Z.max_l by lia. set (q := (now - nd) / it) in *.
  assert (0 ≤ q) as Hq by (apply Z.div_pos; lia). assert (q ≤ now - nd) as Hq'. { apply Z.div_le_upper_bound; nia. }
  rewrite add64_small by lia. cbn [mbind option_bind]. unfold saturating_add, saturating_mul, u64_max.
  rewrite !Z.min_l by nia. done.
Qed.

Lemma timer_expirations_witness : timer_expire 107 50 10 2 = Some (110, 8).
Proof. rewrite (proj1 (timer_expirations 107 50 10 2 ltac:(lia) ltac:(lia) ltac:(lia) ltac:(lia) ltac:(lia))). reflexivity. Defined.
