(* ===== verification/Ioctl.v ===== *)
(** * Device control ([FileObject::ioctl] of [fs/vfs.rs])

    Terminal requests on a pseudo-terminal act on it; on any other file they act
    on the console terminal, after the DRM and input devices have had their turn. *)

From S2P Require Import Prelude.
From S2P Require Import Paging.
From S2P Require Import Pty.
From S2P Require Import Kernel.
From S2P Require Import Signal.
From S2P Require Import Vfs.
From S2P Require Import Input.
From S2P Require Import File.
From S2P Require Import FileOps.

Definition set_termios (x : Termios) (p : Pty.Pty) : Pty.Pty :=
  mkPty (Pty.id p) (master_rx p) (slave_rx p) x (winsize p) (fg_pgrp p) (session p) (Pty.locked p) (line_buf p).
Definition set_winsize (x : Winsize) (p : Pty.Pty) : Pty.Pty :=
  mkPty (Pty.id p) (master_rx p) (slave_rx p) (termios p) x (fg_pgrp p) (session p) (Pty.locked p) (line_buf p).
Definition set_fg (x : Z) (p : Pty.Pty) : Pty.Pty :=
  mkPty (Pty.id p) (master_rx p) (slave_rx p) (termios p) (winsize p) x (session p) (Pty.locked p) (line_buf p).
Definition set_session (sid pg : Z) (p : Pty.Pty) : Pty.Pty :=
  mkPty (Pty.id p) (master_rx p) (slave_rx p) (termios p) (winsize p) pg sid (Pty.locked p) (line_buf p).

Definition TCGETS : Z := 0x5401.
Definition TIOCSCTTY : Z := 0x540E.
Definition TIOCGPGRP : Z := 0x540F.
Definition TIOCSPGRP : Z := 0x5410.
Definition TIOCGWINSZ : Z := 0x5413.
Definition TIOCSWINSZ : Z := 0x5414.
Definition FIONREAD : Z := 0x541B.
Definition TIOCGSID : Z := 0x5429.
Definition TIOCGPTPEER : Z := 0x5441.
Definition TIOCGPTN : Z := 0x80045430.
Definition TIOCSPTLCK : Z := 0x40045431.
(** [TCSETS | TCSETSW | TCSETSF], and [TCSETAF | TCFLSH]. *)
Definition is_tcsets (r : Z) : bool := bool_decide (r ∈ [0x5402; 0x5403; 0x5404]).
Definition is_flush (r : Z) : bool := bool_decide (r ∈ [0x5407; 0x540B]).

Section Ioctl.
Context (cpu : nat) `{RawAccess, Drm}.

(** A field of the structure at [arg]. *)
Definition put_field (arg k : Z) (bytes : list Z) : M Os () := let! a := or_panic (add64 arg k) in store_user a bytes.
Definition get_field (arg k : Z) (n : nat) : M Os Z := let! a := or_panic (add64 arg k) in let! b := load_user a n in ret (from_le b).

(** [if arg != 0 { if let Some(pty) = get_pty(i) { .. } else { .. } }] *)
Definition with_arg (i arg : Z) (k : Pty.Pty → M Os ()) (other : M Os ()) : M Os () :=
  when (negb (arg =? 0)) (let! o := gets (pty_of i) in match o with Some p => k p | None => other end).

Definition put_winsize (arg : Z) (w : Winsize) : M Os () :=
  put_field arg 0 (to_le 2 (ws_row w)) ;;; put_field arg 2 (to_le 2 (ws_col w)) ;;;
  put_field arg 4 (to_le 2 (ws_xpixel w)) ;;; put_field arg 6 (to_le 2 (ws_ypixel w)).

(** The caller's session and process group as [i32]s. *)
Definition caller_session (s : Os) : Z * Z :=
  let k := kern (sig s) in let caller := current_pid cpu k in
  match PROCESS_TABLE k !! caller with
  | Some p => (to_i32 (sid p), to_i32 (pgid p))
  | None => (to_i32 caller, to_i32 caller)
  end.

Definition tcgets (i arg : Z) (other : M Os ()) : M Os () := with_arg i arg (λ p, store_user arg (to_bytes (termios p))) other.
Definition tcsets (i arg : Z) : M Os () :=
  with_arg i arg (λ _, let! b := load_user arg 60 in modify (on_pty_of i (set_termios (from_bytes b)))) (ret tt).
Definition set_ctty (i : Z) : M Os () :=
  let! o := gets (pty_of i) in
  match o with
  | Some _ => let! x := gets caller_session in modify (on_pty_of i (set_session x.1 x.2))
  | None => ret tt
  end.
Definition put_i32 (arg v : Z) : M Os () := store_user arg (to_le 4 (v mod 2 ^ 32)).
Definition get_i32 (arg : Z) : M Os Z := let! b := load_user arg 4 in ret (to_i32 (from_le b)).
Definition set_pgrp (i arg : Z) : M Os () :=
  with_arg i arg (λ _, let! v := get_i32 arg in modify (on_pty_of i (set_fg v))) (ret tt).

(** The requests of a pseudo-terminal; [None] falls through. *)
Definition pty_ioctl (master : bool) (i request arg : Z) : M Os (option Z) :=
  let done (m : M Os ()) : M Os (option Z) := m ;;; ret (Some 0) in
  if request =? TCGETS then done (tcgets i arg (ret tt))
  else if is_tcsets request then done (tcsets i arg)
  else if is_flush request then ret (Some 0)
  else if request =? TIOCGWINSZ then done (with_arg i arg (λ p, put_winsize arg (winsize p)) (ret tt))
  else if request =? TIOCSWINSZ then
    done (with_arg i arg (λ _,
      let! r := get_field arg 0 2 in let! c := get_field arg 2 2 in
      let! x := get_field arg 4 2 in let! y := get_field arg 6 2 in
      modify (on_pty_of i (set_winsize (mkWinsize r c x y)))) (ret tt))
  else if request =? TIOCSCTTY then done (set_ctty i)
  else if request =? TIOCGPGRP then done (with_arg i arg (λ p, put_i32 arg (fg_pgrp p)) (ret tt))
  else if request =? TIOCSPGRP then done (set_pgrp i arg)
  else if request =? TIOCGPTN then done (when (negb (arg =? 0)) (store_user arg (to_le 4 i)))
  else if request =? TIOCSPTLCK then
    done (with_arg i arg (λ _, let! v := get_i32 arg in modify (on_pty_of i (set_locked (negb (v =? 0))))) (ret tt))
  else if request =? TIOCGPTPEER then
    let! h := alloc_file (pty_slave_file i 0) in let! fd := alloc_fd h in ret (Some fd)
  else if request =? FIONREAD then
    done (with_arg i arg (λ p, put_i32 arg (Z.of_nat (length (if master then master_rx p else slave_rx p)))) (ret tt))
  else if request =? TIOCGSID then done (with_arg i arg (λ p, put_i32 arg (session p)) (ret tt))
  else ret None.

(** The requests of other files, on the console terminal. *)
Definition common_ioctl (request arg : Z) : M Os Z :=
  let! i := gets (λ s, console_pty_id (ptys s)) in
  let done (m : M Os ()) : M Os Z := m ;;; ret 0 in
  if request =? TCGETS then done (tcgets i arg (store_user arg (to_bytes default_cooked)))
  else if is_tcsets request then done (tcsets i arg)
  else if is_flush request then ret 0
  else if request =? TIOCSCTTY then done (set_ctty i)
  else if request =? TIOCGPGRP then done (with_arg i arg (λ p, put_i32 arg (fg_pgrp p)) (put_i32 arg 1))
  else if request =? TIOCSPGRP then done (set_pgrp i arg)
  else if request =? TIOCGWINSZ then done (with_arg i arg (λ p, put_winsize arg (winsize p)) (put_winsize arg default_80x24))
  else if request =? TIOCSWINSZ then
    done (with_arg i arg (λ _,
      let! r := get_field arg 0 2 in let! c := get_field arg 2 2 in
      modify (on_pty_of i (λ p, set_winsize (mkWinsize r c (ws_xpixel (winsize p)) (ws_ypixel (winsize p))) p))) (ret tt))
  else if (request =? 0x5405) || (request =? 0x5406) then done (when (negb (arg =? 0)) (put_i32 arg 1))
  else if request =? FIONREAD then done (when (negb (arg =? 0)) (put_i32 arg 0))
  else fail ENOTTY.

(** The terminal a file is an end of. *)
Definition pty_end (f : FileObject) : option Z :=
  match special_data f with Some (PtyMasterOf i) | Some (PtySlaveOf i) => Some i | _ => None end.
Definition is_pty (f : FileObject) : bool := bool_decide (ftype f = PtyMaster) || bool_decide (ftype f = PtySlave).

Definition device_ioctl (f : FileObject) (request arg : Z) : M Os Z :=
  match inode f with
  | Some n =>
      let! i := gets (λ s, node (tree s) n) in
      if dev_major i =? 226 then drm_handle_ioctl request arg
      else if (dev_major i =? 13) && (64 <=? dev_minor i) then
        let '(r, w) := handle_ioctl_with_minor (dev_minor i) request arg in
        for_each w (λ e, store_user e.1 e.2) ;;;
        match r with Ok v => ret v | Err e => fail e | Panic => panic end
      else common_ioctl request arg
  | None => common_ioctl request arg
  end.

Definition ioctl (h request arg : Z) : M Os Z :=
  let! f := gets (λ s, file s h) in
  if is_pty f then
    match pty_end f with
    | None => ret 0
    | Some i =>
        let! o := pty_ioctl (bool_decide (ftype f = PtyMaster)) i request arg in
        match o with Some v => ret v | None => device_ioctl f request arg end
    end
  else device_ioctl f request arg.
End Ioctl.
