(* ===== verification/FsSys.v ===== *)
(** * File system calls ([fs/mod.rs], [syscall/fs.rs])

    The calls that work on paths and descriptors.  [depth] bounds the nesting of
    [resolve_path] (see [Vfs]) and [fuel] the rounds of [path_of_inode]; the ext4
    driver is the function [ext4], which reads a file by its path.  The other
    arguments are those of [FileOps]. *)

From S2P Require Import Prelude.
From S2P Require Import Path.
From S2P Require Import Paging.
From S2P Require Import User.
From S2P Require Import Pty.
From S2P Require Import Kernel.
From S2P Require Import Proc.
From S2P Require Import Signal.
From S2P Require Import Vfs.
From S2P Require Import Sock.
From S2P Require Import Input.
From S2P Require Import File.
From S2P Require Import FileOps.
From S2P Require Import Ioctl.

Definition EACCES : Z := 13.
Definition ERANGE : Z := 34.
Definition AT_FDCWD : Z := -100.
Definition AT_SYMLINK_NOFOLLOW : Z := 0x100.
Definition AT_EACCESS : Z := 0x200.
Definition AT_NO_AUTOMOUNT : Z := 0x800.
Definition AT_EMPTY_PATH : Z := 0x1000.
Definition AT_STATX_FORCE_SYNC : Z := 0x2000.
Definition AT_STATX_DONT_SYNC : Z := 0x4000.

(** [s.parse::<u32>()]: decimal digits with an optional plus sign, in range. *)
Definition digit (b : Z) : option Z := if (48 <=? b) && (b <=? 57) then Some (b - 48) else None.
Fixpoint parse_digits (acc : Z) (l : list Z) : option Z :=
  match l with
  | [] => Some acc
  | b :: l' => d ← digit b; let v := acc * 10 + d in if v <? 2 ^ 32 then parse_digits v l' else None
  end.
Definition parse_u32 (l : list Z) : option Z :=
  match l with
  | [] => None
  | 43 :: [] => None
  | 43 :: l' => parse_digits 0 l'
  | _ => parse_digits 0 l
  end.

Section Calls.
Context (cpu : nat) (root hhdm now ticks : Z) (depth fuel : nat) (ext4 : list Z → option (list Z)) `{RawAccess, Drm}.

Definition resolve_os (path : list Z) : M Os Z := on_tree (resolve depth path).

(** ** Paths relative to a descriptor *)

(** [format!("{}/{}", base.trim_end_matches('/'), path)], without a second slash
    after the root. *)
Definition under (base path : list Z) : list Z :=
  if bool_decide (base = [slash]) then slash :: path else trim_end slash base ++ slash :: path.

Definition resolve_at_path (dirfd : Z) (path : list Z) : M Os (list Z) :=
  if starts_with [slash] path then ret path else
  if dirfd =? AT_FDCWD then let! cwd := gets (λ s, current_dir (tree s)) in ret (under cwd path) else
  if dirfd <? 0 then fail EBADF else
  let! h := get_file dirfd in
  let! o := gets (λ s, inode (file s h)) in
  let! n := ok_or o EBADF in
  let! ty := gets (λ s, itype (node (tree s) n)) in
  if negb (bool_decide (ty = IDirectory)) then fail ENOTDIR else
  let! b := on_tree (path_of_inode fuel n) in
  let! base := ok_or b ENOENT in
  ret (under base path).

(** The node [fstatat], [faccessat] and [statx] work on. *)
Definition node_at (dirfd : Z) (path : list Z) (fl : Z) : M Os Z :=
  if bool_decide (path = []) then
    if Z.land fl AT_EMPTY_PATH =? 0 then fail EINVAL else
    if dirfd =? AT_FDCWD then let! cwd := gets (λ s, current_dir (tree s)) in resolve_os cwd else
    if dirfd <? 0 then fail EBADF else
    let! h := get_file dirfd in
    let! o := gets (λ s, inode (file s h)) in
    ok_or o EINVAL
  else
    let! full_path := resolve_at_path dirfd path in
    if has fl AT_SYMLINK_NOFOLLOW then on_tree (resolve_path_lstat depth full_path) else resolve_os full_path.

(** ** Opening *)

Definition dev_ptmx : list Z := bytes_of "/dev/ptmx".
Definition dev_pts_ptmx : list Z := bytes_of "/dev/pts/ptmx".
Definition dev_pts : list Z := bytes_of "/dev/pts/".

(** A new terminal, unlocked, with its master end. *)
Definition open_ptmx (n : option Z) (fl : Z) : M Os Z :=
  let! s := get in
  let '(i, y) := alloc_pty (ptys s) in
  put (set_ptys y s) ;;;
  modify (on_pty_of i (set_locked false)) ;;;
  let! h := alloc_file (mkFile n 0 fl PtyMaster (Some (PtyMasterOf i))) in
  alloc_fd h.

Definition open_node (n fl : Z) : M Os Z := let! t := gets tree in alloc_file (File.new t n fl).

Definition ensure_vfs_parents (path : list Z) : M Fs () :=
  (fix go (current : list Z) (parts : list (list Z)) : M Fs () :=
     match parts with
     | [] => ret tt
     | part :: parts' =>
         let current := current ++ slash :: part in
         let! r := try (resolve depth current) in
         match r with
         | inl _ => ret tt
         | inr _ =>
             match rsplit_once slash current with
             | Some (a, dirname) =>
                 let! p := try (resolve depth (if bool_decide (a = []) then [slash] else a)) in
                 match p with
                 | inl parent => let! h := alloc_inode (new_dir 0x1ED) in modify (add_child parent dirname h)
                 | inr _ => ret tt
                 end
             | None => ret tt
             end
         end ;;;
         go current parts'
     end) [] (filter (λ p, p ≠ []) (split slash path)).

Definition materialize_ext4_file_to_vfs (path data : list Z) : M Fs () :=
  if negb (starts_with [slash] path) || bool_decide (path = [slash]) then fail EINVAL else
  ensure_vfs_parents path ;;;
  let! sp := ok_or (rsplit_once slash path) EINVAL in
  let '(parent_path, name) := sp in
  let! parent := resolve depth (if bool_decide (parent_path = []) then [slash] else parent_path) in
  let! h := alloc_inode (set_data data (new_file 0x1ED)) in
  modify (add_child parent name h).

Definition openat (dirfd : Z) (path : list Z) (fl mode : Z) : M Os Z :=
  let! full_path := resolve_at_path dirfd path in
  if bool_decide (full_path = dev_ptmx) || bool_decide (full_path = dev_pts_ptmx) then open_ptmx None fl else
  if starts_with dev_pts full_path then
    match parse_u32 (drop 9 full_path) with
    | Some i =>
        let! o := gets (pty_of i) in
        match o with
        | Some _ => let! h := alloc_file (pty_slave_file i fl) in alloc_fd h
        | None => fail ENOENT
        end
    | None => fail ENOENT
    end
  else
  let! r := try (resolve_os full_path) in
  match r with
  | inl n =>
      let! i := gets (λ s, node (tree s) n) in
      if bool_decide (itype i = ICharDevice) && (dev_major i =? 5) && (dev_minor i =? 2) then open_ptmx (Some n) fl
      else let! h := open_node n fl in alloc_fd h
  | inr _ =>
      match ext4 full_path with
      | Some data =>
          ignore (on_tree (materialize_ext4_file_to_vfs full_path data)) ;;;
          let! r := try (resolve_os full_path) in
          match r with
          | inl n => let! h := open_node n fl in alloc_fd h
          | inr _ => fail ENOENT
          end
      | None => fail ENOENT
      end
  end.

(** ** Descriptors *)

Definition fd_write (fd : Z) (data : list Z) : M Os Z := let! h := get_file fd in write h data.
Definition fd_read (fd buf count : Z) : M Os (option Z) := let! h := get_file fd in read cpu root now ticks h buf count.
Definition alloc_pidfd (pid : Z) : M Os Z := let! h := alloc_file (new_pidfd pid) in alloc_fd h.
Definition fs_lseek (fd off whence : Z) : M Os Z := let! h := get_file fd in lseek h off whence.
Definition fstat (fd statbuf : Z) : M Os Z := let! h := get_file fd in stat root h statbuf.
Definition do_ioctl (fd request arg : Z) : M Os Z := let! h := get_file fd in ioctl cpu h request arg.
Definition eventfd2 (initval : Z) : M Os Z := let! h := alloc_file (new_eventfd initval) in alloc_fd h.
Definition memfd_create : M Os Z := let! h := alloc_file new_memfd in alloc_fd h.

(** Closing removes an epoll descriptor from the interest lists; other descriptors
    stay in them. *)
Definition close (fd : Z) : M Os Z :=
  let! r := try (get_file fd) in
  match r with
  | inl h =>
      let! b := gets (λ s, bool_decide (ftype (file s h) = Epoll)) in
      when b (modify (λ s, set_epolls (delete fd <$> delete fd (EPOLL_TABLE s)) s))
  | inr _ => ret tt
  end ;;;
  close_fd fd.

Definition pipe2 (pipefd : Z) : M Os Z :=
  let! ends := create_pipe in
  let! rfd := alloc_fd ends.1 in
  let! wfd := alloc_fd ends.2 in
  store_user pipefd (to_le 4 rfd) ;;;
  put_field pipefd 4 (to_le 4 wfd) ;;; ret 0.

Definition dup_from (fd arg : Z) (c : bool) : M Os Z :=
  let! h := get_file fd in
  let! newfd := alloc_fd_from_cloexec (Z.max arg 3) h c in
  let! b := gets (is_socket h) in
  when b (modify (on_net (clone_socket_fd fd newfd))) ;;; ret newfd.

Definition fcntl (fd cmd arg : Z) : M Os Z :=
  if cmd =? 0 then dup_from fd arg false
  else if cmd =? 1030 then dup_from fd arg true
  else if cmd =? 1 then let! c := get_cloexec fd in ret (if (c : bool) then 1 else 0)
  else if cmd =? 2 then set_cloexec fd (has arg 1)
  else if cmd =? 3 then let! h := get_file fd in gets (λ s, flags (file s h))
  else if cmd =? 4 then let! h := get_file fd in modify (on_file h (set_flags (arg mod 2 ^ 32))) ;;; ret 0
  else fail EINVAL.

(** ** Names *)

Definition fstatat (dirfd : Z) (path : list Z) (statbuf fl : Z) : M Os Z :=
  if has fl (not32 (Z.lor (Z.lor AT_SYMLINK_NOFOLLOW AT_EMPTY_PATH) AT_NO_AUTOMOUNT)) then fail EINVAL else
  let! n := node_at dirfd path fl in
  let! i := gets (λ s, node (tree s) n) in
  map_err (FileOps.copy_to_user root statbuf (stat_node i)) EINVAL ;;; ret 0.

Definition getcwd (buf size : Z) : M Os Z :=
  let! cwd := gets (λ s, current_dir (tree s)) in
  let n := Z.of_nat (length cwd) in
  if size <? n + 1 then fail ERANGE else
  store_user buf cwd ;;; put_field buf n [0] ;;; ret buf.

Definition chdir (path : list Z) : M Os Z := on_tree (set_current_dir depth path).
Definition mkdirat (dirfd : Z) (path : list Z) (mode : Z) : M Os Z :=
  let! full_path := resolve_at_path dirfd path in on_tree (mkdir depth full_path mode).
Definition unlinkat (dirfd : Z) (path : list Z) (fl : Z) : M Os Z :=
  let! full_path := resolve_at_path dirfd path in on_tree (unlink depth full_path fl).
Definition renameat2 (olddirfd : Z) (oldpath : list Z) (newdirfd : Z) (newpath : list Z) (fl : Z) : M Os Z :=
  let! old_full := resolve_at_path olddirfd oldpath in
  let! new_full := resolve_at_path newdirfd newpath in
  on_tree (rename depth old_full new_full fl).

Definition R_OK : Z := 4.
Definition W_OK : Z := 2.
Definition X_OK : Z := 1.

(** Root needs an execute bit for execution and nothing else; other users need the
    permission in any of the three classes. *)
Definition may_access (is_root : bool) (want mode : Z) : bool :=
  if is_root then negb (has want X_OK && negb (has mode 0x49))
  else negb ((has want R_OK && negb (has mode 0x124)) || (has want W_OK && negb (has mode 0x92)) || (has want X_OK && negb (has mode 0x49))).

Definition faccessat (dirfd : Z) (path : list Z) (mode fl : Z) : M Os Z :=
  if has fl (not32 (Z.lor (Z.lor AT_SYMLINK_NOFOLLOW AT_EACCESS) AT_EMPTY_PATH)) then fail EINVAL else
  if has mode (not32 (Z.lor (Z.lor R_OK W_OK) X_OK)) then fail EINVAL else
  let! n := node_at dirfd path fl in
  if mode =? 0 then ret 0 else
  let! creds := gets (λ s, current_creds cpu (kern (sig s))) in
  let '(uid, _, euid, _) := creds in
  let chosen := if has fl AT_EACCESS then euid else uid in
  let! i := gets (λ s, node (tree s) n) in
  if may_access (chosen =? 0) mode (imode i) then ret 0 else fail EACCES.

(** ** [statx] *)

Definition statx_type (ty : InodeType) : Z :=
  match ty with
  | IFile => 0x8000 | IDirectory => 0x4000 | ICharDevice => 0x2000 | IBlockDevice => 0x6000
  | IPipe => 0x1000 | ISocket => 0xC000 | ISymlink => 0xA000
  end.

Definition STATX_BASIC_STATS : Z := 0x7FF.

(** [out[a..b].copy_from_slice(..)] *)
Definition fill (b : bool) (a : nat) (bytes out : list Z) : list Z := if b then copy_at a bytes out else out.

Definition statx_record (out_mask : Z) (i : Inode) : list Z :=
  let mode := Z.lor (statx_type (itype i)) (imode i mod 2 ^ 16) in
  let out := replicate 256 0 in
  let out := copy_at 0 (to_le 4 out_mask) out in
  let out := fill (has out_mask STATX_BASIC_STATS) 4 (to_le 4 4096) out in
  let out := fill (has out_mask 0x3) 28 (to_le 2 mode) out in
  let out := fill (has out_mask 0x8) 20 (to_le 4 (iuid i)) out in
  let out := fill (has out_mask 0x10) 24 (to_le 4 (igid i)) out in
  let out := fill (has out_mask 0x100) 32 (to_le 8 1) out in
  let out := fill (has out_mask 0x200) 40 (to_le 8 (isize i)) out in
  fill (has out_mask 0x400) 48 (to_le 8 1) out.

Definition statx (dirfd : Z) (path : list Z) (fl mask statxbuf : Z) : M Os Z :=
  if has fl (not32 (Z.lor (Z.lor AT_SYMLINK_NOFOLLOW AT_EMPTY_PATH) (Z.lor AT_STATX_FORCE_SYNC AT_STATX_DONT_SYNC))) then fail EINVAL else
  let requested := if mask =? 0 then STATX_BASIC_STATS else mask in
  let out_mask := Z.land requested STATX_BASIC_STATS in
  let! n := node_at dirfd path fl in
  let! i := gets (λ s, node (tree s) n) in
  map_err (FileOps.copy_to_user root statxbuf (statx_record out_mask i)) EFAULT ;;; ret 0.

(** ** Strings and buffers of the caller *)

(** [read_user_string]: up to 255 bytes, stopping at a NUL or an unmapped page. *)
Fixpoint read_user_string (n : nat) (uaddr : Z) : M Os (list Z) :=
  match n with
  | O => ret []
  | S n' =>
      let! o := on_machine (translate_user_va root uaddr) in
      match o with
      | None => ret []
      | Some pa =>
          let! b := gets (λ s, mem (mach (kern (sig s))) pa) in
          if b =? 0 then ret [] else
          let! a := or_panic (add64 uaddr 1) in
          let! rest := read_user_string n' a in ret (b :: rest)
      end
  end.

(** [from_utf8(..).unwrap_or("")] *)
Definition user_path (pathname : Z) : M Os (list Z) :=
  let! b := read_user_string 255 pathname in ret (default [] (from_utf8 b)).

(** [cstr_from_user]: at most 4096 bytes, through the raw pointer. *)
Fixpoint cstr_bytes (n : nat) (addr : Z) : M Os (list Z) :=
  let! b := load_user addr 1 in
  if from_le b =? 0 then ret [] else
  match n with
  | O => fail EINVAL
  | S n' => let! a := or_panic (add64 addr 1) in let! rest := cstr_bytes n' a in ret (from_le b :: rest)
  end.
Definition cstr_from_user (ptr : Z) : M Os (list Z) :=
  if ptr =? 0 then fail EINVAL else let! b := cstr_bytes 4096 ptr in ok_or (from_utf8 b) EINVAL.

(** One chunk per page; [n] bytes are left. *)
Fixpoint sys_write_loop (rounds : nat) (fd uaddr : Z) (n : Z) (written : Z) : M Os Z :=
  match rounds with
  | O => ret written
  | S rounds' =>
      if n <=? 0 then ret written else
      let! o := on_machine (translate_user_va root uaddr) in
      match o with
      | None => if 0 <? written then ret written else fail EFAULT
      | Some pa =>
          let page_remaining := 4096 - Z.land (pa + hhdm) 0xFFF in
          let chunk := Z.min page_remaining n in
          let! data := gets (λ s, rd_bytes (mem (mach (kern (sig s)))) pa (Z.to_nat chunk)) in
          let! r := try (fd_write fd data) in
          match r with
          | inr e => if 0 <? written then ret written else fail e
          | inl m =>
              let! a := or_panic (add64 uaddr m) in
              if m <? chunk then ret (written + m) else sys_write_loop rounds' fd a (n - m) (written + m)
          end
      end
  end.

(** A round that does not end the loop writes a byte at least. *)
Definition sys_write (fd buf count : Z) : M Os Z := sys_write_loop (Z.to_nat count) (fd mod 2 ^ 32) buf count 0.
Definition sys_read (fd buf count : Z) : M Os (option Z) := fd_read (fd mod 2 ^ 32) buf count.

Definition read_iovec (iov index : Z) : M Os (Z * Z) :=
  let! a := or_panic (add64 iov (index * 16)) in
  let! raw := FileOps.copy_from_user root a 16 in
  ret (from_le (take 8 raw), from_le (drop 8 raw)).

Fixpoint sys_writev_loop (l : list Z) (fd iov total : Z) : M Os Z :=
  match l with
  | [] => ret total
  | i :: l' =>
      let! ent := read_iovec iov i in
      if 0 <? ent.2 then
        let! n := sys_write fd ent.1 ent.2 in
        let! t := or_panic (add64 total n) in sys_writev_loop l' fd iov t
      else sys_writev_loop l' fd iov total
  end.
Definition sys_writev (fd iov iovcnt : Z) : M Os Z := sys_writev_loop (seqZ 0 iovcnt) fd iov 0.

(** One entry after another; [None] when a read would sleep. *)
Fixpoint sys_readv_loop (l : list Z) (fd iov total : Z) : M Os (option Z) :=
  match l with
  | [] => ret (Some total)
  | i :: l' =>
      let! ent := read_iovec iov i in
      if 0 <? ent.2 then
        let! r := sys_read fd ent.1 ent.2 in
        match r with
        | Some n => let! t := or_panic (add64 total n) in sys_readv_loop l' fd iov t
        | None => ret None
        end
      else sys_readv_loop l' fd iov total
  end.
Definition sys_readv (fd iov iovcnt : Z) : M Os (option Z) := sys_readv_loop (seqZ 0 iovcnt) fd iov 0.

Definition sys_openat (dirfd pathname fl mode : Z) : M Os Z := let! p := user_path pathname in openat dirfd p fl mode.
Definition sys_newfstatat (dirfd pathname statbuf fl : Z) : M Os Z := let! p := user_path pathname in fstatat dirfd p statbuf fl.
Definition sys_chdir (path : Z) : M Os Z := let! p := cstr_from_user path in chdir p.
Definition sys_mkdirat (dirfd pathname mode : Z) : M Os Z := let! p := cstr_from_user pathname in mkdirat dirfd p mode.
Definition sys_unlinkat (dirfd pathname fl : Z) : M Os Z := let! p := cstr_from_user pathname in unlinkat dirfd p fl.
Definition sys_renameat2 (olddirfd oldpath newdirfd newpath fl : Z) : M Os Z :=
  let! o := cstr_from_user oldpath in let! n := cstr_from_user newpath in renameat2 olddirfd o newdirfd n fl.
Definition sys_faccessat (dirfd pathname mode fl : Z) : M Os Z := let! p := cstr_from_user pathname in faccessat dirfd p mode fl.
Definition sys_access (pathname mode : Z) : M Os Z := let! p := cstr_from_user pathname in faccessat AT_FDCWD p mode 0.
Definition sys_statx (dirfd pathname fl mask statxbuf : Z) : M Os Z :=
  let! p := cstr_from_user pathname in statx dirfd p fl mask statxbuf.

(** The path is taken from the root, not from [dirfd]. *)
Definition sys_readlinkat (dirfd pathname buf bufsiz : Z) : M Os Z :=
  let! path := user_path pathname in
  let! n := on_tree (resolve_path_lstat depth path) in
  let! i := gets (λ s, node (tree s) n) in
  if bool_decide (itype i = ISymlink) then
    let len := Z.min (Z.of_nat (length (idata i))) bufsiz in
    store_user buf (take (Z.to_nat len) (idata i)) ;;; ret len
  else fail EINVAL.

(** ** Directory listings *)

Definition dtype (ty : InodeType) : Z :=
  match ty with
  | IDirectory => 4 | IFile => 8 | ICharDevice => 2 | IBlockDevice => 6 | IPipe => 1 | ISocket => 12 | ISymlink => 10
  end.

Definition dir_entries (t : Fs) (n : Z) : list (list Z * Z) :=
  [(dot, 4); (dotdot, 4)] ++ ((λ e, (e.1, dtype (itype (node t e.2)))) <$> sentries (children (node t n))).

Definition align8 (v : Z) : Z := Z.land (v + 7) (not64 7).
Definition reclen (name : list Z) : Z := align8 (19 + Z.of_nat (length name) + 1).

(** [linux_dirent64] of entry number [idx]. *)
Definition dirent (idx : Z) (e : list Z * Z) : list Z :=
  let r := reclen e.1 in
  to_le 8 (idx + 1) ++ to_le 8 (idx + 1) ++ to_le 2 (r mod 2 ^ 16) ++ [e.2] ++ e.1 ++
  replicate (Z.to_nat (r - 19 - Z.of_nat (length e.1))) 0.

Fixpoint getdents_loop (l : list (list Z * Z)) (idx dirp max written : Z) : M Os (Z * Z) :=
  match l with
  | [] => ret (idx, written)
  | e :: l' =>
      if max <? written + reclen e.1 then ret (idx, written) else
      let! a := or_panic (add64 dirp written) in
      FileOps.copy_to_user root a (dirent idx e) ;;;
      getdents_loop l' (idx + 1) dirp max (written + reclen e.1)
  end.

Definition sys_getdents64 (fd dirp count : Z) : M Os Z :=
  if (dirp =? 0) || (count =? 0) then fail EINVAL else
  let! h := get_file fd in
  let! f := gets (λ s, file s h) in
  if negb (bool_decide (ftype f = Directory)) then fail ENOTDIR else
  let! n := ok_or (inode f) EINVAL in
  let! entries := gets (λ s, dir_entries (tree s) n) in
  let! r := getdents_loop (drop (Z.to_nat (offset f)) entries) (offset f) dirp count 0 in
  modify (on_file h (set_offset r.1)) ;;; ret r.2.
End Calls.

(** ** Paths relative to an open directory *)

Lemma comps_under base path : comps (under base path) = comps base ++ comps path.
Proof. unfold under. case_bool_decide; [subst; by rewrite comps_slash|]. by rewrite comps_app_slash, comps_trim_end. Qed.

(** A relative path is looked up from the directory the descriptor has open:
    when that directory can be reached from the root, [resolve_at_path] turns the
    pair into an absolute path, and resolving that path is the walk along the
    components of the relative path starting at the open directory. *)
Theorem relative_lookup s fd h n r rk cs path : ready s → 0 ≤ fd < 1024 → fd_files s !! Z.to_nat fd = Some (Some h) →
  inode (file s h) = Some n → itype (node (tree s) n) = IDirectory →
  ROOT (tree s) = Some r → names_ok (tree s) → acyclic (tree s) rk → goto (tree s) r cs = Some n → starts_with [slash] path = false →
  ∃ k, ∀ fuel, (k ≤ fuel)%nat → ∃ full, resolve_at_path fuel fd path s = (Ok full, s) ∧
    ∀ d, resolve_path (S d) (tree s) full = walk (resolve_path d (tree s)) (tree s) n (comps path).
Proof.
  intros Hrd Hfd Hh Hn Hd Hr Hnm Ha Hg Hp. destruct (path_of_inode_spec (tree s) r rk n Hr Hnm Ha) as [k Hk]. exists k.
  intros fuel Hf. destruct (Hk fuel Hf) as (o & Eo & Ho). destruct o as [base|]; [|by destruct (Ho cs)].
  destruct Ho as [(cs' & Hg' & -> & Hgo) _]. exists (under (path_str cs') path). split.
  - unfold resolve_at_path. rewrite Hp, (proj2 (Z.eqb_neq fd AT_FDCWD)) by (unfold AT_FDCWD; lia).
    rewrite (proj2 (Z.ltb_ge fd 0)) by lia. rewrite (bind_ok _ _ _ h s) by (by apply get_file_ready). kstep. rewrite Hn. kstep.
    rewrite Hd. cbn [negb bool_decide]. rewrite bool_decide_eq_true_2 by done. cbn [negb].
    rewrite (bind_ok _ _ _ (Some (path_str cs')) s); [reflexivity|]. unfold on_tree. rewrite Eo. by destruct s.
  - intros d. rewrite resolve_comps, Hr, comps_under, comps_path_str by done. rewrite walk_app.
    by rewrite (goto_walk _ _ _ n) by (done || congruence).
Qed.

Definition demo_dir_os : Os :=
  set_fds (<[3%nat := Some 9]> (fd_files demo_ready)) (fd_cloexec demo_ready)
    (set_objs (<[9 := mkFile (Some 7) 0 0 Directory None]> (FILES demo_ready)) 10 (set_tree demo_tree demo_ready)).

(** [/usr] is open as descriptor 3; [lib] from there. *)
Lemma relative_lookup_witness : ∃ fuel full, resolve_at_path fuel 3 (bytes_of "lib") demo_dir_os = (Ok full, demo_dir_os) ∧
  resolve_path 1 (tree demo_dir_os) full = Ok 14.
Proof.
  destruct (relative_lookup demo_dir_os 3 9 7 0 (λ h, Z.to_nat (20 - h)) [bytes_of "usr"] (bytes_of "lib")) as [k Hk];
    [split; reflexivity|lia|reflexivity|reflexivity|vm_compute; reflexivity|vm_compute; reflexivity|exact demo_names_ok
    |exact demo_acyclic|vm_compute; reflexivity|reflexivity|].
  destruct (Hk k (le_n k)) as (full & E & H). exists k, full. split; [exact E|].
  rewrite (H 0%nat). vm_compute. reflexivity.
Defined.

(** ** Writing user memory to a pipe *)

Definition pipe_data (b : Z) (s : Os) : list Z := default [] (PIPES s !! b).
Definition push_pipe (b : Z) (data : list Z) (s : Os) : Os := set_pipes (<[b := pipe_data b s ++ data]> (PIPES s)) (NEXT_PIPE s) s.

Lemma push_pipe_data b data s : pipe_data b (push_pipe b data s) = pipe_data b s ++ data.
Proof. unfold push_pipe, pipe_data at 1. cbn. by rewrite lookup_insert, decide_True. Qed.

Section WritePipe.
Context (root hhdm fd h b : Z) (f : FileObject).
Context (Hfd : 0 ≤ fd < 1024) (Hhh : hhdm mod 4096 = 0).
Context (Ht : ftype f = Pipe) (Hsp : special_data f = Some (PipeBuffer b)).

(** The descriptor names the pipe. *)
Definition pipe_at (s : Os) : Prop := ready s ∧ fd_files s !! Z.to_nat fd = Some (Some h) ∧ FILES s !! h = Some f.

Lemma fd_write_pipe data s : pipe_at s → fd_write fd data s = (Ok (Z.of_nat (length data)), push_pipe b data s).
Proof using All.
  intros (Hr & Hs & Hf). unfold fd_write. rewrite (bind_ok _ _ _ h s) by (by apply get_file_ready).
  unfold write. rewrite bind_gets. assert (file s h = f) as -> by (unfold file; by rewrite Hf).
  unfold write_as. rewrite Ht, Hsp. reflexivity.
Qed.

Lemma translate_offset m v pa : 0 ≤ v → translate m root v = Some pa → pa mod 4096 = v mod 4096.
Proof.
  intros Hv. rewrite translate_leaf. destruct (leaf _ _ _ _) as [e|]; [|done]. intros [= <-].
  rewrite land_fff, lor_page_offset by (apply pte_addr_aligned || lia). pose proof (pte_addr_aligned e). lia.
Qed.

Lemma sys_write_loop_pipe rounds : ∀ uaddr n written data s, pipe_at s → (n ≤ rounds)%nat → 0 ≤ uaddr → uaddr + Z.of_nat n < 2 ^ 64 → 0 ≤ written →
  user_bytes (ram s) root uaddr n = Some data →
  ∃ s', sys_write_loop root hhdm rounds fd uaddr (Z.of_nat n) written s = (Ok (written + Z.of_nat n), s') ∧
    pipe_data b s' = pipe_data b s ++ data ∧ ram s' = ram s ∧ pipe_at s'.
Proof using All.
  induction rounds as [|rounds IH]; intros uaddr n written data s Hp Hn Hu Hb Hw Hd.
  { destruct n; [|lia]. injection Hd as <-. exists s. cbn [sys_write_loop Z.of_nat Z.leb Z.compare]. rewrite Z.add_0_r, app_nil_r. split_and!; done. }
  destruct n as [|n].
  { injection Hd as <-. exists s. cbn [sys_write_loop Z.of_nat Z.leb Z.compare]. rewrite Z.add_0_r, app_nil_r. split_and!; done. }
  cbn [sys_write_loop]. rewrite (proj2 (Z.leb_gt _ 0)) by lia.
  assert (∃ pa, translate (ram s) root uaddr = Some pa) as [pa Et].
  { destruct (translate (ram s) root uaddr) as [pa|] eqn:Et; [eauto|].
    assert (user_bytes (ram s) root uaddr 1 = None) as E1.
    { unfold user_bytes. change (seqZ uaddr (Z.of_nat 1)) with [0 + uaddr]. rewrite Z.add_0_l. cbn. unfold user_byte. by rewrite Et. }
    change (S n) with (1 + n)%nat in Hd. by rewrite user_bytes_app, E1 in Hd. }
  rewrite (bind_ok _ _ _ (Some pa) s).
  2:{ unfold on_machine, on_sig, on_kern, on_mach, translate_user_va, gets. fold (ram s). rewrite Et. by destruct s as [[[] ] ]. }
  assert (Z.land (pa + hhdm) 0xFFF = uaddr mod 4096) as ->.
  { rewrite land_fff, Z.add_mod, Hhh, Z.add_0_r, Z.mod_mod by lia. by apply (translate_offset (ram s)). }
  set (chunk := Z.min _ _). assert (1 ≤ chunk ≤ Z.of_nat (S n)) as Hc by (unfold chunk; lia).
  assert (uaddr mod 4096 + chunk ≤ 4096) as Hpg by (unfold chunk; lia). set (c := Z.to_nat chunk).
  rewrite bind_gets. fold (ram s). replace (S n) with (c + (S n - c))%nat in Hd by (unfold c; lia).
  assert (Z.of_nat c = chunk) as Hcc by (unfold c; lia). assert (uaddr mod 4096 + Z.of_nat c ≤ 4096) as Hpc by (rewrite Hcc; exact Hpg).
  rewrite user_bytes_app, (user_bytes_page _ _ _ pa c Hu Et Hpc) in Hd. cbn [mbind option_bind] in Hd.
  destruct (user_bytes (ram s) root (uaddr + Z.of_nat c) (S n - c)) as [rest|] eqn:Er; [|done]. injection Hd as <-.
  set (bytes := rd_bytes (ram s) pa c). assert (length bytes = c) as Hlen by (unfold bytes, rd_bytes; by rewrite length_fmap, length_seqZ, Nat2Z.id).
  rewrite (bind_ok _ _ _ (inl (Z.of_nat c)) (push_pipe b bytes s)).
  2:{ unfold try. rewrite fd_write_pipe by done. by rewrite Hlen. }
  rewrite add64_small by (unfold c; lia). kstep. rewrite (proj2 (Z.ltb_ge _ _)) by (unfold c; lia).
  destruct (IH (uaddr + Z.of_nat c) (S n - c)%nat (written + Z.of_nat c) rest (push_pipe b bytes s)) as (s' & E & Hd' & Hm & Hp');
    [done|unfold c; lia|lia|unfold c; lia|lia|done|].
  exists s'. replace (Z.of_nat (S n) - Z.of_nat c) with (Z.of_nat (S n - c)) by (unfold c; lia). rewrite E.
  split; [f_equal; f_equal; unfold c; lia|]. split; [rewrite Hd', push_pipe_data; by rewrite app_assoc|]. done.
Qed.
End WritePipe.

(** [write] to a pipe moves the caller's memory into it: when every byte of
    the buffer is mapped, the call, which works page by page through the
    descriptor table, returns the full count and appends exactly the bytes the
    page tables map the buffer to, leaving memory as it was. *)
Theorem sys_write_pipe root hhdm fd h b f buf n data s : 0 ≤ fd < 1024 → hhdm mod 4096 = 0 → ftype f = Pipe →
  special_data f = Some (PipeBuffer b) → pipe_at fd h f s → 0 ≤ buf → buf + Z.of_nat n < 2 ^ 64 →
  user_bytes (ram s) root buf n = Some data →
  ∃ s', sys_write root hhdm fd buf (Z.of_nat n) s = (Ok (Z.of_nat n), s') ∧ pipe_data b s' = pipe_data b s ++ data ∧ ram s' = ram s.
Proof.
  intros Hfd Hh Ht Hsp Hp Hb Hlt Hd. unfold sys_write. rewrite Nat2Z.id, Z.mod_small by lia.
  destruct (sys_write_loop_pipe root hhdm fd h b f Hfd Hh Ht Hsp n buf n 0 data s) as (s' & E & H1 & H2 & _); [done..|].
  exists s'. split; [exact E|done].
Qed.

(** A pipe with one byte in it behind descriptor 4, over the memory of [User]. *)
Definition demo_pipe_os : Os :=
  set_fds (<[4%nat := Some 5]> (fd_files demo_ready)) (fd_cloexec demo_ready)
    (set_objs {[5 := new_pipe 0 false]} 6 (set_pipes {[0 := [1]]} 1
      (set_sig (set_kern (set_mach (mkMach (Pmm.mkPmm [] 0 0) User.demo_mem) (kern (sig demo_ready))) (sig demo_ready)) demo_ready))).

Lemma sys_write_pipe_witness : ∃ s', sys_write 4096 0 4 0x400FFF 2 demo_pipe_os = (Ok 2, s') ∧ pipe_data 0 s' = [1; 7; 7].
Proof.
  destruct (sys_write_pipe 4096 0 4 5 0 (new_pipe 0 false) 0x400FFF 2 [7; 7] demo_pipe_os) as (s' & E & H & _);
    [lia|reflexivity|reflexivity|reflexivity|split; [split; reflexivity|split; reflexivity]|lia|cbn; lia|exact User.demo_bytes|].
  exists s'. split; [exact E|]. rewrite H. reflexivity.
Defined.
