(* ===== verification/Exec.v ===== *)
(** * Starting programs ([sched/mod.rs]): [execve] and [spawn_user_process]

    The caller's strings are read from user memory, the image is found (through
    a [#!] line if it has one), loaded into a new address space, and given a
    stack; only then are the thread, the process entry and the descriptors
    changed.  [root] is the caller's page table; the new one is part of the result
    ([activate_user_page_table]).  [depth] and [ext4] are as in [FsSys];
    [counter] is the value of the cycle counter. *)

From S2P Require Import Prelude.
From S2P Require Import Path.
From S2P Require Import Pmm.
From S2P Require Import Paging.
From S2P Require Import User.
From S2P Require Import Sched.
From S2P Require Import Vmm.
From S2P Require Import Kernel.
From S2P Require Import Mmap.
From S2P Require Import Frame.
From S2P Require Import Proc.
From S2P Require Import Clone.
From S2P Require Import Aspace.
From S2P Require Import Elf.
From S2P Require Import Signal.
From S2P Require Import Vfs.
From S2P Require Import File.
From S2P Require Import FileOps.
From S2P Require Import FsSys.

(** A path as the name of a thread or process. *)
Definition string_of (l : list Z) : string :=
  String.string_of_list_ascii ((λ b, ascii_of_nat (Z.to_nat b)) <$> l).

(** ** Script headers *)

(** The length of the white space character [l] starts with, 0 if none:
    [char::is_whitespace] on UTF-8. *)
Definition space_len (l : list Z) : nat :=
  match l with
  | b :: l' =>
      if in_range 9 13 b || (b =? 32) then 1%nat
      else match l' with
           | c :: l'' =>
               if (b =? 0xC2) && ((c =? 0x85) || (c =? 0xA0)) then 2%nat
               else match l'' with
                    | d :: _ =>
                        if ((b =? 0xE1) && (c =? 0x9A) && (d =? 0x80)) ||
                           ((b =? 0xE2) && (c =? 0x80) && (in_range 0x80 0x8A d || (d =? 0xA8) || (d =? 0xA9) || (d =? 0xAF))) ||
                           ((b =? 0xE2) && (c =? 0x81) && (d =? 0x9F)) || ((b =? 0xE3) && (c =? 0x80) && (d =? 0x80))
                        then 3%nat else O
                    | [] => O
                    end
           | [] => O
           end
  | [] => O
  end.

(** [split_whitespace]: the words, with [cur] the word being read. *)
Fixpoint split_words (fuel : nat) (cur l : list Z) : list (list Z) :=
  let flush := match cur with [] => [] | _ => [cur] end in
  match fuel with
  | O => flush
  | S fuel' =>
      match l with
      | [] => flush
      | b :: l' =>
          match space_len l with
          | O => split_words fuel' (cur ++ [b]) l'
          | n => flush ++ split_words fuel' [] (drop n l)
          end
      end
  end.
Definition split_whitespace (l : list Z) : list (list Z) := split_words (length l) [] l.

(** The bytes before the first newline. *)
Fixpoint first_line (l : list Z) : list Z :=
  match l with [] => [] | b :: l' => if b =? 10 then [] else b :: first_line l' end.

(** The interpreter and its argument; a line of white space has no word. *)
Definition parse_shebang (data : list Z) : option (list Z * option (list Z)) :=
  match data with
  | 35 :: 33 :: rest =>
      line ← from_utf8 (first_line rest);
      match split_whitespace line with
      | [] => None
      | interp :: more => Some (interp, head more)
      end
  | _ => None
  end.

Definition pack_envp (envp : list (list Z)) : list Z := concat ((λ e, e ++ [0]) <$> envp).

(** ** The process after a successful [execve] *)

Definition exec_process (name : list Z) (env : list Z) (brk vmm_handle : Z) (p : Process) : Process :=
  mkProcess (p_pid p) (tgid p) (pgid p) (sid p) (ppid p) (uid p) (gid p) (euid p) (egid p) (suid p) (sgid p)
    (no_new_privs p) (string_of name) env (p_threads p) brk brk USER_MMAP_BASE vmm_handle.

Definition exec_context (pc usp root : Z) (c : Context) : Context :=
  mkContext (x19 c) (x20 c) (x21 c) (x22 c) (x23 c) (x24 c) (x25 c) (x26 c) (x27 c) (x28 c) (x29 c) (x30 c)
    (Sched.sp c) pc (user_flags c) usp root 0.

Definition exec_thread (name : list Z) (pc usp root : Z) (t : Thread) : Thread :=
  mkThread (Sched.pid t) (string_of name) (Sched.state t) (exec_context pc usp root (context t)) (kernel_stack t) (vruntime t)
    true false (Some root).

Definition on_k {A} (m : M K A) : M Os A := on_sig (on_kern m).
Definition the_k (s : Os) : K := kern (sig s).

Section Exec.
Context (cpu : nat) (root : Z) (depth : nat) (ext4 : list Z → option (list Z)) (counter : Z) `{Goblin}.

(** ** Reading the caller's strings *)

(** The loop reads up to [n] bytes; [len] of them are read. *)
Fixpoint read_cstr_loop (n : nat) (ptr len : Z) : M Os (list Z) :=
  match n with
  | O => ret []
  | S n' =>
      let! a := or_panic (add64 ptr len) in
      let! one := map_err (FileOps.copy_from_user root a 1) EFAULT in
      let b := default 0 (head one) in
      if b =? 0 then ret [] else
      let! rest := read_cstr_loop n' ptr (len + 1) in ret (b :: rest)
  end.

Definition read_user_cstr (ptr max_len : Z) : M Os (list Z) :=
  if ptr =? 0 then fail EINVAL else
  let! l := read_cstr_loop (Z.to_nat (max_len - 1)) ptr 0 in
  ok_or (from_utf8 l) EINVAL.

Fixpoint read_ptrs (l : list Z) (ptr max_str_len : Z) : M Os (list (list Z)) :=
  match l with
  | [] => ret []
  | i :: l' =>
      let! a := or_panic (add64 ptr (i * 8)) in
      let! raw := map_err (FileOps.copy_from_user root a 8) EFAULT in
      if from_le raw =? 0 then ret [] else
      let! s := read_user_cstr (from_le raw) max_str_len in
      let! rest := read_ptrs l' ptr max_str_len in ret (s :: rest)
  end.

Definition read_user_ptr_array (ptr max_items max_str_len : Z) : M Os (list (list Z)) :=
  if ptr =? 0 then ret [] else read_ptrs (seqZ 0 max_items) ptr max_str_len.

(** ** Finding the image *)

(** The contents of the file a path resolves to. *)
Definition vfs_data (path : list Z) : M Os (list Z) :=
  let! h := resolve_os depth path in gets (λ s, idata (node (tree s) h)).
Definition ext4_data (path : list Z) : M Os (list Z) := ok_or (ext4 path) ENOENT.

Definition load_program_data (path : list Z) : M Os (list Z) :=
  let! r := try (vfs_data path) in
  match r with
  | inl (b :: d) => ret (b :: d)
  | _ => map_err (ext4_data path) ENOENT
  end.

Definition resolve_exec_image (path : list Z) (argv : list (list Z)) : M Os (list Z * list (list Z) * list Z) :=
  let! data := load_program_data path in
  match parse_shebang data with
  | Some (interp, optarg) =>
      let! interp_data := load_program_data interp in
      ret (interp, [interp] ++ match optarg with Some a => [a] | None => [] end ++ [path] ++ drop 1 argv, interp_data)
  | None => ret (path, argv, data)
  end.

(** ** The new address space *)

Definition os_table (pt : PageTable Mach) : PageTable Os := lift_table (@on_machine) pt.

Definition new_table (e : Z) : M Os (PageTable Os) :=
  let! o := on_machine create_user_page_table in
  let! pt := ok_or o e in ret (os_table pt).

(** ** [execve] *)

(** Everything up to the point of no return. *)
Definition prepare (pathname argv envp : Z) : M Os (list Z * list Z * ElfLoadResult * Z * Z) :=
  let! path := read_user_cstr pathname 512 in
  let! argv_vec := read_user_ptr_array argv 64 256 in
  let! envp_vec := read_user_ptr_array envp 128 512 in
  let! (exec_path, exec_argv, data) := resolve_exec_image path argv_vec in
  let env_blob := pack_envp envp_vec in
  let! aspace := new_table ENOMEM in
  let! result := map_err (load_elf aspace vfs_data ext4_data data) ENOENT in
  let! creds := gets (λ s, current_creds cpu (the_k s)) in
  let! usp := map_err (setup_user_stack aspace counter creds (stack_top result) exec_argv envp_vec result) ENOMEM in
  let! cur := gets (λ s, current (SCHEDULER (sched (the_k s))) !! cpu) in
  let! cur := or_panic cur in
  let! _ := ok_or cur ESRCH in
  ret (exec_path, env_blob, result, usp, root_phys aspace).

(** The changes to the thread, the process and its descriptors. *)
Definition commit (name env : list Z) (result : ElfLoadResult) (usp new_root : Z) : M Os () :=
  on_k (on_sched (modify (λ s, set_currents (alter (fmap (exec_thread name (entry result) usp new_root)) cpu (current (SCHEDULER s))) s))) ;;;
  let! k := gets the_k in
  on_k (match PROCESS_TABLE k !! current_pid cpu k with
        | Some p =>
            modify (λ k, set_vmms (<[NEXT_VMM k := ∅]> (VMMS k)) (NEXT_VMM k + 1)
                           (set_table (<[current_pid cpu k := exec_process name env (brk_start result) (NEXT_VMM k) p]> (PROCESS_TABLE k)) k))
        | None => ret tt
        end) ;;;
  close_cloexec_fds.

Definition do_execve `{CpuContext F} (frame : F) (pathname argv envp : Z) : M Os (Z * F * Z) :=
  let! (name, env, result, usp, new_root) := prepare pathname argv envp in
  commit name env result usp new_root ;;;
  ret (0, Frame.set_sp usp (Frame.set_pc (entry result) frame), new_root).

(** ** [spawn_user_process] *)

Definition E_FILE_NOT_FOUND : Z := 1301.
Definition E_NO_ASPACE : Z := 1302.
Definition E_NO_SCHEDULER : Z := 1303.

(** The ids of the parent, zeros without one. *)
Definition parent_creds (k : K) : Z * Z * Z * Z * Z * Z :=
  match PROCESS_TABLE k !! current_pid cpu k with
  | Some p => (uid p, gid p, euid p, egid p, suid p, sgid p)
  | None => (0, 0, 0, 0, 0, 0)
  end.

Definition new_process (pid parent : Z) (ids : Z * Z * Z * Z * Z * Z) (name env : list Z) (brk vmm_handle : Z) : Process :=
  let '(u, g, eu, eg, su, sg) := ids in
  mkProcess pid pid pid pid parent u g eu eg su sg false (string_of name) env [pid] brk brk USER_MMAP_BASE vmm_handle.

(** [trampoline] and [kstack_top] are those of [Thread::new_user]; the interrupt
    that wakes a remote processor has no effect on the state. *)
Definition spawn_user_process (trampoline kstack_top : Z) (path : list Z) (argv envp : list (list Z)) : M Os Z :=
  let! (exec_path, exec_argv, data) := map_err (resolve_exec_image path argv) E_FILE_NOT_FOUND in
  let! aspace := new_table E_NO_ASPACE in
  let! result := load_elf aspace vfs_data ext4_data data in
  let! creds := gets (λ s, current_creds cpu (the_k s)) in
  let! usp := setup_user_stack aspace counter creds (stack_top result) exec_argv envp result in
  let! pid := on_k (on_sched alloc_pid) in
  let! parent := gets (λ s, current_pid cpu (the_k s)) in
  let! ids := gets (λ s, parent_creds (the_k s)) in
  let thread := new_user (string_of exec_path) pid (entry result) usp (root_phys aspace) trampoline kstack_top in
  on_k (modify (λ k, set_vmms (<[NEXT_VMM k := ∅]> (VMMS k)) (NEXT_VMM k + 1)
          (set_table (<[pid := new_process pid parent ids exec_path (pack_envp envp) (brk_start result) (NEXT_VMM k)]> (PROCESS_TABLE k)) k))) ;;;
  let! qs := gets (λ s, run_queues (SCHEDULER (sched (the_k s)))) in
  match qs with
  | [] => fail E_NO_SCHEDULER
  | _ =>
      let! target := gets (λ s, least_loaded_cpu (SCHEDULER (sched (the_k s)))) in
      let! q := or_panic (qs !! target) in
      on_k (on_sched (modify (set_queues (<[target := q ++ [thread]]> qs)))) ;;;
      ret pid
  end.
End Exec.

(** ** A failed [execve] *)

(** The state with another machine. *)
Definition mach_of (s : Os) : Mach := mach (the_k s).
Definition with_mach (m : Mach) (s : Os) : Os := set_sig (set_kern (Kernel.set_mach m (the_k s)) (sig s)) s.

Lemma on_machine_spec {A} (m : M Mach A) s : on_machine m s = ((m (mach_of s)).1, with_mach (m (mach_of s)).2 s).
Proof. unfold on_machine, on_sig, on_kern, on_mach, with_mach, mach_of, the_k. by destruct (m _) as [r x]. Qed.

Lemma with_mach_same s : with_mach (mach_of s) s = s.
Proof. by destruct s as [[[] ] ]. Qed.
Lemma with_mach_twice m m' s : with_mach m (with_mach m' s) = with_mach m s.
Proof. done. Qed.
Lemma mach_of_with m s : mach_of (with_mach m s) = m.
Proof. done. Qed.

(** Only memory may differ. *)
Definition memory_only (s0 s : Os) : Prop := ∃ m, s = with_mach m s0.

Lemma memory_only_refl s : memory_only s s.
Proof. exists (mach_of s). by rewrite with_mach_same. Qed.

Section Failure.
Context (s0 : Os).
Abbreviation P := (memory_only s0).

Lemma on_machine_memory {A} (m : M Mach A) : preserves P (on_machine m).
Proof. intros s [x ->]. rewrite on_machine_spec. cbn [snd]. rewrite with_mach_twice. by eexists. Qed.
#[local] Hint Resolve on_machine_memory : preserves.

Lemma resolve_os_memory depth path : preserves P (resolve_os depth path).
Proof.
  intros s Hs. unfold resolve_os, on_tree, resolve. cbn [snd]. by replace (set_tree (tree s) s) with s by (by destruct s).
Qed.
#[local] Hint Resolve resolve_os_memory : preserves.

Lemma vfs_data_memory depth path : preserves P (vfs_data depth path).
Proof. unfold vfs_data. repeat preserves_step. Qed.
Lemma ext4_data_memory ext4 path : preserves P (ext4_data ext4 path).
Proof. unfold ext4_data. repeat preserves_step. Qed.
#[local] Hint Resolve vfs_data_memory ext4_data_memory : preserves.

Lemma load_program_data_memory depth ext4 path : preserves P (load_program_data depth ext4 path).
Proof. unfold load_program_data. repeat preserves_step. Qed.
#[local] Hint Resolve load_program_data_memory : preserves.

Lemma resolve_exec_image_memory depth ext4 path argv : preserves P (resolve_exec_image depth ext4 path argv).
Proof. unfold resolve_exec_image. repeat preserves_step. Qed.

Lemma read_user_cstr_memory root ptr n : preserves P (read_user_cstr root ptr n).
Proof.
  unfold read_user_cstr. assert (∀ k p l, preserves P (read_cstr_loop root k p l)) as Hl.
  { unfold FileOps.copy_from_user. induction k as [|k IH]; intros; cbn [read_cstr_loop]; repeat preserves_step; apply IH. }
  repeat preserves_step; apply Hl.
Qed.
#[local] Hint Resolve resolve_exec_image_memory read_user_cstr_memory : preserves.

Lemma read_user_ptr_array_memory root ptr n k : preserves P (read_user_ptr_array root ptr n k).
Proof.
  unfold read_user_ptr_array. assert (∀ l, preserves P (read_ptrs root l ptr k)) as Hl.
  { unfold FileOps.copy_from_user. induction l as [|i l IH]; cbn [read_ptrs]; repeat preserves_step; apply IH. }
  repeat preserves_step; apply Hl.
Qed.

Section Loader.
Context `{Goblin} (pt : PageTable Mach).

Lemma os_table_memory v n f d : preserves P (map_anon (os_table pt) v n f) ∧ preserves P (Aspace.copy_to_user (os_table pt) v d).
Proof. split; apply on_machine_memory. Qed.
#[local] Hint Extern 1 (preserves _ (map_anon _ _ _ _)) => apply (os_table_memory _ _ _ []) : preserves.
#[local] Hint Extern 1 (preserves _ (Aspace.copy_to_user _ _ _)) => apply (os_table_memory _ 0 USER_RW _) : preserves.

Lemma load_segment_memory data bias ph : preserves P (load_segment (os_table pt) data bias ph).
Proof. unfold load_segment. repeat preserves_step. Qed.
#[local] Hint Resolve load_segment_memory : preserves.

Lemma load_segments_memory data bias l : ∀ b a, preserves P (load_segments (os_table pt) data bias l b a).
Proof. induction l as [|ph l IH]; intros b a; cbn [load_segments]; repeat preserves_step; apply IH. Qed.
Lemma load_interp_memory data base : preserves P (load_interp (os_table pt) data base).
Proof. unfold load_interp. repeat preserves_step. Qed.
#[local] Hint Resolve load_segments_memory load_interp_memory : preserves.

Lemma load_elf_memory depth ext4 data : preserves P (load_elf (os_table pt) (vfs_data depth) (ext4_data ext4) data).
Proof. unfold load_elf. repeat preserves_step. Qed.

Lemma push_u64_memory sp v : preserves P (push_u64 (os_table pt) sp v).
Proof. unfold push_u64. repeat preserves_step. Qed.
#[local] Hint Resolve push_u64_memory : preserves.
Lemma push_all_memory vs : ∀ sp, preserves P (push_all (os_table pt) sp vs).
Proof. induction vs as [|v vs IH]; intros sp; cbn [push_all]; repeat preserves_step; apply IH. Qed.
Lemma push_strings_memory l : ∀ sp, preserves P (push_strings (os_table pt) sp l).
Proof. induction l as [|v l IH]; intros sp; cbn [push_strings]; repeat preserves_step; apply IH. Qed.
#[local] Hint Resolve push_all_memory push_strings_memory : preserves.

Lemma setup_user_stack_memory counter creds top argv envp r : preserves P (setup_user_stack (os_table pt) counter creds top argv envp r).
Proof. unfold setup_user_stack. repeat preserves_step. Qed.
End Loader.
#[local] Hint Resolve load_elf_memory setup_user_stack_memory read_user_ptr_array_memory : preserves.

Lemma new_table_memory e {B} (k : PageTable Os → M Os B) :
  (∀ pt, preserves P (k (os_table pt))) → preserves P (bind (new_table e) k).
Proof.
  intros Hk s Hs. unfold new_table. rewrite bind_assoc. apply (on_machine_memory create_user_page_table) in Hs. unfold bind at 1.
  destruct (on_machine create_user_page_table s) as [[[pt|]| |] s']; [|done..]. by apply Hk.
Qed.

Lemma prepare_memory `{Goblin} cpu root depth ext4 counter p a e : preserves P (prepare cpu root depth ext4 counter p a e).
Proof.
  unfold prepare. do 3 preserves_step. 2: do 3 preserves_step. 2: apply new_table_memory.
  all: repeat preserves_step.
Qed.
End Failure.

(** Computations that never end with an error. *)
Definition no_error {A} (m : M Os A) : Prop := ∀ s e s', m s ≠ (Err e, s').

Lemma no_error_bind {A B} (m : M Os A) (k : A → M Os B) : no_error m → (∀ a, no_error (k a)) → no_error (bind m k).
Proof.
  intros Hm Hk s e s'. unfold bind. specialize (Hm s). destruct (m s) as [[a|e'|] s1]; [apply Hk| |done]. by edestruct Hm.
Qed.

Lemma commit_no_error cpu name env r usp rt : no_error (commit cpu name env r usp rt).
Proof.
  apply no_error_bind; [done|intros _]. apply no_error_bind; [done|intros k]. apply no_error_bind; [|intros _].
  - intros s e s'. by destruct (_ !! _).
  - unfold close_cloexec_fds. apply no_error_bind.
    + intros s e s'. unfold ensure_init. kstep. by destruct (fd_files s).
    + intros _. apply no_error_bind; [done|]. intros l. induction l as [|fd l IH]; [done|]. apply no_error_bind; [|done].
      intros s e s'. unfold ignore. by destruct (close_fd fd s) as [[]].
Qed.

(** C40. A failed [execve] changes nothing but memory: whatever the error, the
    threads, the process table, the descriptors, the signal tables, the file tree
    and the sockets are as before the call. *)
Theorem execve_failure_atomic `{CpuContext F} `{Goblin} cpu root depth ext4 counter (frame : F) pathname argv envp s e s' :
  do_execve cpu root depth ext4 counter frame pathname argv envp s = (Err e, s') → ∃ m, s' = with_mach m s.
Proof.
  unfold do_execve. pose proof (prepare_memory s cpu root depth ext4 counter pathname argv envp s (memory_only_refl s)) as Hp.
  unfold bind at 1. destruct (prepare _ _ _ _ _ _ _ _ s) as [[[[[[name env] r] usp] rt]| |] s1]; [|by intros [= <- <-]|done].
  intros E. exfalso. unfold bind in E. destruct (commit _ _ _ _ _ _ s1) as [[[]|e'|] s2] eqn:Ec; [done| |done].
  by apply commit_no_error in Ec.
Qed.

(** ** A successful [execve] *)

#[local] Obligation Tactic := idtac.
#[export] Program Instance os_table_laws (pt : PageTable Mach) {laws : PageTableLaws pt} : PageTableLaws (os_table pt) := {|
  pt_ok s := pt_ok (mach_of s); pt_byte s := pt_byte (mach_of s); pt_perm s := pt_perm (mach_of s); pt_room s := pt_room (mach_of s) |}.
Next Obligation.
  intros pt laws s v n flags H1 H2 H3 H4 H5 H6 H7. destruct (pt_map_ok (mach_of s) v n flags H1 H2 H3 H4 H5 H6 H7) as (m & E & H).
  exists (with_mach m s). rewrite mach_of_with. split; [|exact H]. cbn. by rewrite on_machine_spec, E.
Qed.
Next Obligation.
  intros pt laws s v data H1 H2 H3 H4. destruct (pt_copy_ok (mach_of s) v data H1 H2 H3 H4) as (m & E & H).
  exists (with_mach m s). rewrite mach_of_with. split; [|exact H]. cbn. by rewrite on_machine_spec, E.
Qed.

(** A new address space owns its (absent) mappings. *)
Lemma new_table_spec s e : Pmm.pmm_inv (mpmm (mach_of s)) → 0 < Pmm.free_pages (mpmm (mach_of s)) →
  ∃ rt m lv, new_table e s = (Ok (os_table (address_space rt)), with_mach m s) ∧ owned m rt lv ∧
    Pmm.free_pages (mpmm m) = Pmm.free_pages (mpmm (mach_of s)) - 1.
Proof.
  intros Hp Hf. destruct (aspace_new_empty (mach_of s) Hp) as ([rt|] & m & E & H); [|destruct H as [_ H]; lia].
  destruct H as [Ht Hn]. exists rt, m, {[rt := 0%nat]}.
  assert (∀ v, pte_of m rt v = None) as Hpte.
  { intros v. specialize (Hn v). rewrite (translate_pte (mem m) (mpmm m)) in Hn.
    destruct m as [p f]. by destruct (pte_of _ rt v). }
  split; [|split].
  - unfold new_table, create_user_page_table. rewrite (bind_ok _ _ s (Some (address_space rt)) (with_mach m s)); [done|].
    rewrite on_machine_spec. unfold bind. by rewrite E.
  - constructor; [done|intros v e'; by rewrite Hpte|intros v v' e1 e2; by rewrite Hpte].
  - unfold aspace_new, alloc_table_page, lift_pmm, bind at 1 in E.
    destruct (Pmm.alloc_page_cases (mpmm (mach_of s)) Hp) as [(q & p' & Ea & _ & _ & _ & [_ _ F _])|(_ & _ & H0)]; [|lia].
    rewrite Ea in E. cbn in E. injection E as _ <-. cbn. lia.
Qed.

Lemma current_creds_with cpu m s : current_creds cpu (the_k (with_mach m s)) = current_creds cpu (the_k s).
Proof. done. Qed.

Lemma close_fd_keeps_k fd k : preserves (λ s, the_k s = k) (close_fd fd).
Proof.
  unfold close_fd, ensure_init. apply preserves_bind; [|intros _].
  - apply preserves_bind_get. intros s Hs. by destruct (fd_files s).
  - repeat preserves_step; (apply preserves_modify; intros s <-; done) || (unfold slot; repeat preserves_step).
Qed.

Lemma close_cloexec_fds_keeps_k k : preserves (λ s, the_k s = k) close_cloexec_fds.
Proof.
  unfold close_cloexec_fds, ensure_init. apply preserves_bind; [|intros _].
  - apply preserves_bind_get. intros s Hs. by destruct (fd_files s).
  - repeat preserves_step. apply close_fd_keeps_k.
Qed.

Lemma commit_spec cpu name env r usp rt s t p :
  current (SCHEDULER (sched (the_k s))) !! cpu = Some (Some t) → PROCESS_TABLE (the_k s) !! current_pid cpu (the_k s) = Some p → ready s →
  ∃ s', commit cpu name env r usp rt s = (Ok tt, s') ∧ mach_of s' = mach_of s ∧
    current (SCHEDULER (sched (the_k s'))) !! cpu = Some (Some (exec_thread name (entry r) usp rt t)) ∧
    PROCESS_TABLE (the_k s') !! current_pid cpu (the_k s) = Some (exec_process name env (brk_start r) (NEXT_VMM (the_k s)) p) ∧
    VMMS (the_k s') !! NEXT_VMM (the_k s) = Some ∅ ∧
    ∀ fd, 0 ≤ fd < 1024 → fd_files s' !! Z.to_nat fd =
      if default false (fd_cloexec s !! Z.to_nat fd) then Some None else fd_files s !! Z.to_nat fd.
Proof.
  intros Ht Hp Hr. unfold commit. erewrite bind_ok by reflexivity.
  match goal with |- context [bind (gets the_k) _ ?x] => set (s1 := x) end. kstep.
  assert (PROCESS_TABLE (the_k s1) !! current_pid cpu (the_k s1) = Some p) as -> by exact Hp.
  erewrite bind_ok by reflexivity. match goal with |- context [close_cloexec_fds ?x] => set (s2 := x) end.
  destruct (close_cloexec_exact s2) as (s' & E & _ & Hfd); [exact Hr|]. exists s'. split; [exact E|].
  assert (the_k s' = the_k s2) as Hk.
  { pose proof (close_cloexec_fds_keeps_k (the_k s2) s2 eq_refl) as Hk. by rewrite E in Hk. }
  unfold mach_of. rewrite Hk. split; [done|]. split.
  - change (alter (fmap (exec_thread name (entry r) usp rt)) cpu (current (SCHEDULER (sched (the_k s)))) !! cpu =
            Some (Some (exec_thread name (entry r) usp rt t))). by rewrite list_lookup_alter_eq, Ht.
  - split; [cbn; by rewrite lookup_insert_eq|]. split; [cbn; by rewrite lookup_insert_eq|exact Hfd].
Qed.

(** Loading followed by the stack, on any page table that keeps the laws. *)
Lemma image_and_stack `{Goblin} {St} (pt : PageTable St) {laws : PageTableLaws pt} vd ed data h l counter argv envp u g eu eg s :
  static_image data h l → pt_ok s → 4 * (total_pages (bias_of h) l + 2048) ≤ pt_room s →
  Forall u64_ok [e_phentsize h; e_phnum h; u; g; eu; eg] →
  strings_size argv + strings_size envp + 8 * (27 + Z.of_nat (length argv) + Z.of_nat (length envp)) + 64 ≤ STACK_SIZE →
  ∃ r s1 usp ra s2, load_elf pt vd ed data s = (Ok r, s1) ∧
    setup_user_stack pt counter (u, g, eu, eg) (stack_top r) argv envp r s1 = (Ok usp, s2) ∧
    entry r = e_entry h + bias_of h ∧ is_break (bias_of h) l (brk_start r) ∧
    start_stack pt s2 usp argv envp (image_auxv h l ra u g eu eg) ∧
    ∀ ph x, ph ∈ l → is_load ph = true → 0 ≤ x < VA_END → in_seg (bias_of h) ph x = true →
      pt_byte s2 x = Some (seg_byte data (bias_of h) ph x) ∧ pt_perm s2 x = Some (seg_perm ph).
Proof.
  intros Him Hok Hroom Hids Hsize.
  destruct (load_elf_spec pt vd ed data h l s Him Hok Hroom) as
    (r & s1 & E1 & Hok1 & _ & Hl & He & Hx & Hi & Ht & Hpe & Hpn & Htab & Hpa & Hbrk).
  repeat (apply Forall_cons in Hids as [? Hids]).
  assert (u64_ok (e_entry h + bias_of h)) as Hent.
  { destruct Him. unfold bias_of, PIE_BASE, u64_ok. case_match; lia. }
  destruct (setup_stack_spec pt counter (u, g, eu, eg) (stack_top r) (USER_STACK_TOP - STACK_SIZE) argv envp r s1) as
    (usp & ra & s2 & E2 & Hp & Hle & Hst & _).
  - rewrite Ht. split_and!; [done..|]. intros x Hx'. destruct (ld_stack _ _ _ _ _ Hl x) as [-> _]; [|done].
    apply within_spec. lia.
  - unfold result_ok. rewrite Hx, He, Hi, Hpe, Hpn. repeat (apply Forall_cons; split; [done || (unfold u64_ok; lia)|]). by apply Forall_nil.
  - rewrite Ht. lia.
  - assert (reverse (auxv r ra (u, g, eu, eg)) = image_auxv h l ra u g eu eg) as Eaux
      by (unfold auxv, image_auxv; rewrite Htab, Hx, He, Hi, Hpe, Hpn; reflexivity).
    rewrite Eaux in Hst. exists r, s1, usp, ra, s2. do 5 (split; [done|]). intros ph x Hin Hld Hxr Hseg.
    rewrite (pu_same _ _ _ _ _ Hp), (pu_perm _ _ _ _ _ Hp) by (done || (rewrite Ht; destruct Him as [_ _ _ _ _ _ _ _ _ _ Hs _ _ _];
      specialize (Hs ph Hin Hld); apply within_spec in Hseg; lia)).
    by apply (ld_seg _ _ _ _ _ Hl).
Qed.

Lemma start_stack_mach (pt : PageTable Mach) {laws : PageTableLaws pt} s sp argv envp aux :
  start_stack (os_table pt) s sp argv envp aux → start_stack pt (mach_of s) sp argv envp aux.
Proof. intros [H1 H2 H3 H4 H5 H6 H7]. constructor; assumption. Qed.

(** C2. [execve] of a static executable whose segments are listed in increasing order,
    no two of them in one page, and end below the stack ([static_image]): the call's
    frame is left at the entry point of the image with the new stack pointer, and
    the thread has a new page table in which every segment has the file's bytes and
    permissions and the stack holds the arguments, the environment and the auxiliary
    vector (entry point, program headers, the caller's ids); the process keeps its
    ids, relations, credentials and threads, takes the new name and environment, an
    empty area map, and a break at the first page boundary behind the image; exactly
    the descriptors marked close-on-exec are closed. *)
Theorem execve_runs_image `{CpuContext F} `{Goblin} cpu root depth ext4 counter (frame : F) pathname argvp envp s path args env
    name argv data h l t p :
  read_user_cstr root pathname 512 s = (Ok path, s) →
  read_user_ptr_array root argvp 64 256 s = (Ok args, s) →
  read_user_ptr_array root envp 128 512 s = (Ok env, s) →
  resolve_exec_image depth ext4 path args s = (Ok (name, argv, data), s) →
  static_image data h l →
  Pmm.pmm_inv (mpmm (mach_of s)) → 4 * (total_pages (bias_of h) l + 2048) + 1 ≤ Pmm.free_pages (mpmm (mach_of s)) →
  strings_size argv + strings_size env + 8 * (27 + Z.of_nat (length argv) + Z.of_nat (length env)) + 64 ≤ STACK_SIZE →
  current (SCHEDULER (sched (the_k s))) !! cpu = Some (Some t) →
  PROCESS_TABLE (the_k s) !! current_pid cpu (the_k s) = Some p →
  Forall u64_ok [e_phentsize h; e_phnum h; uid p; gid p; euid p; egid p] → ready s →
  ∃ rt usp s' random t' p', do_execve cpu root depth ext4 counter frame pathname argvp envp s =
      (Ok (0, Frame.set_sp usp (Frame.set_pc (e_entry h + bias_of h) frame), rt), s') ∧
    (∀ ph x, ph ∈ l → is_load ph = true → 0 ≤ x < VA_END → in_seg (bias_of h) ph x = true →
       user_byte (mem (mach_of s')) rt x = Some (seg_byte data (bias_of h) ph x) ∧ user_perm (mach_of s') rt x = Some (seg_perm ph)) ∧
    start_stack (address_space rt) (mach_of s') usp argv env (image_auxv h l random (uid p) (gid p) (euid p) (egid p)) ∧
    current (SCHEDULER (sched (the_k s'))) !! cpu = Some (Some t') ∧
    Sched.pid t' = Sched.pid t ∧ Sched.name t' = string_of name ∧ Sched.state t' = Sched.state t ∧ is_user t' = true ∧
    user_pc (context t') = e_entry h + bias_of h ∧ user_sp (context t') = usp ∧ page_table_root (context t') = rt ∧
    PROCESS_TABLE (the_k s') !! current_pid cpu (the_k s) = Some p' ∧
    [p_pid p'; tgid p'; pgid p'; sid p'; ppid p'] = [p_pid p; tgid p; pgid p; sid p; ppid p] ∧
    [uid p'; gid p'; euid p'; egid p'; suid p'; sgid p'] = [uid p; gid p; euid p; egid p; suid p; sgid p] ∧
    no_new_privs p' = no_new_privs p ∧ p_threads p' = p_threads p ∧
    p_name p' = string_of name ∧ environ p' = concat ((λ e, e ++ [0]) <$> env) ∧
    is_break (bias_of h) l (brk_base p') ∧ brk_current p' = brk_base p' ∧ mmap_next p' = USER_MMAP_BASE ∧
    VMMS (the_k s') !! vmm p' = Some ∅ ∧
    ∀ fd, 0 ≤ fd < 1024 → fd_files s' !! Z.to_nat fd =
      if default false (fd_cloexec s !! Z.to_nat fd) then Some None else fd_files s !! Z.to_nat fd.
Proof.
  intros Hpath Hargs Henv Himg Him Hpmm Hfree Hsize Ht Hp Hids Hready.
  assert (0 ≤ total_pages (bias_of h) l) as Htot by (eapply total_pages_nonneg; [|apply Him]; unfold bias_of, PIE_BASE; case_match; lia).
  destruct (new_table_spec s ENOMEM Hpmm ltac:(lia)) as (rt & m & lv & En & Ho & Hf).
  set (pt := os_table (address_space rt)) in *.
  assert (current_creds cpu (the_k s) = (uid p, gid p, euid p, egid p)) as Hcr by (unfold current_creds, cur_proc; by rewrite Hp).
  destruct (image_and_stack pt (vfs_data depth) (ext4_data ext4) data h l counter argv env (uid p) (gid p) (euid p) (egid p) (with_mach m s))
    as (r & s1 & usp & ra & s2 & E1 & E2 & He & Hbrk & Hst & Hseg); [done|by exists lv|change (4 * (total_pages (bias_of h) l + 2048) ≤ Pmm.free_pages (mpmm m)); lia|done|done|].
  assert (memory_only s s1) as [m1 ->].
  { replace s1 with (load_elf pt (vfs_data depth) (ext4_data ext4) data (with_mach m s)).2 by (by rewrite E1).
    apply load_elf_memory. by exists m. }
  assert (memory_only s s2) as [m2 ->].
  { replace s2 with (setup_user_stack pt counter (uid p, gid p, euid p, egid p) (stack_top r) argv env r (with_mach m1 s)).2 by (by rewrite E2).
    apply setup_user_stack_memory. by exists m1. }
  assert (prepare cpu root depth ext4 counter pathname argvp envp s = (Ok (name, pack_envp env, r, usp, rt), with_mach m2 s)) as Eprep.
  { unfold prepare. rewrite (bind_ok _ _ _ _ _ Hpath), (bind_ok _ _ _ _ _ Hargs), (bind_ok _ _ _ _ _ Henv), (bind_ok _ _ _ _ _ Himg).
    cbv beta iota zeta. rewrite (bind_ok _ _ _ _ _ En). rewrite (bind_ok _ _ _ _ _ (map_err_ok _ _ _ _ _ E1)). kstep.
    rewrite current_creds_with, Hcr. rewrite (bind_ok _ _ _ _ _ (map_err_ok _ _ _ _ _ E2)). kstep.
    change (current (SCHEDULER (sched (the_k (with_mach m2 s)))) !! cpu) with (current (SCHEDULER (sched (the_k s))) !! cpu).
    rewrite Ht. by kstep. }
  destruct (commit_spec cpu name (pack_envp env) r usp rt (with_mach m2 s) t p Ht Hp Hready) as (s' & Ec & Hm & Hcur & Hproc & Hvm & Hfd).
  rewrite He in Hcur. eexists rt, usp, s', ra, _, _. split.
  { unfold do_execve. rewrite (bind_ok _ _ _ _ _ Eprep). cbv beta iota. rewrite (bind_ok _ _ _ _ _ Ec). by rewrite He. }
  rewrite Hm, mach_of_with. split; [exact Hseg|]. split; [exact (start_stack_mach _ _ _ _ _ _ Hst)|].
  split; [exact Hcur|]. do 7 (split; [reflexivity|]). split; [exact Hproc|]. do 6 (split; [reflexivity|]). split; [exact Hbrk|].
  do 2 (split; [reflexivity|]). split; [exact Hvm|exact Hfd].
Qed.

(** ** Strings in user memory *)

(** A NUL-terminated string of the caller is read whole. *)
Lemma read_cstr_loop_spec root s ptr l : ∀ n k, 0 ≤ ptr → 0 ≤ k → ptr + k + Z.of_nat (length l) < 2 ^ 64 →
  user_bytes (ram s) root (ptr + k) (length l + 1) = Some (l ++ [0]) → Forall (λ b, b ≠ 0) l → (length l < n)%nat →
  read_cstr_loop root n ptr k s = (Ok l, s).
Proof.
  induction l as [|b l IH]; intros [|n] k Hp Hk Hr Hu Hz Hn; cbn [length] in *; try lia; cbn [read_cstr_loop].
  all: rewrite add64_small by lia; kstep.
  - rewrite (bind_ok _ _ s [0] s); [done|]. apply map_err_ok, copy_in_ok; [lia|lia|exact Hu].
  - apply Forall_cons in Hz as [Hb Hz]. change (S (length l) + 1)%nat with (1 + (length l + 1))%nat in Hu. rewrite user_bytes_app in Hu.
    destruct (user_bytes (ram s) root (ptr + k) 1) as [one|] eqn:E1; [|done]. cbn [mbind option_bind] in Hu.
    destruct (user_bytes _ _ _ (length l + 1)) as [more|] eqn:E2; [|done]. cbn [mbind option_bind] in Hu. injection Hu as Hu.
    assert (length one = 1%nat) as Hl1 by (apply length_mapM in E1; by rewrite length_seqZ in E1).
    destruct one as [|c [|]]; [done| |done]. cbn in Hu. injection Hu as -> ->.
    rewrite (bind_ok _ _ s [b] s) by (apply map_err_ok, copy_in_ok; [lia|lia|exact E1]).
    cbv beta zeta. change (default 0 (head [b])) with b.
    destruct (Z.eqb_spec b 0); [done|]. rewrite (bind_ok _ _ s l s); [done|]. apply IH; try lia; [|done].
    rewrite <- E2. f_equal. lia.
Qed.

Lemma read_user_cstr_spec root ptr max l s : 0 < ptr → ptr + Z.of_nat (length l) < 2 ^ 64 →
  user_bytes (ram s) root ptr (length l + 1) = Some (l ++ [0]) → Forall (λ b, b ≠ 0) l → Z.of_nat (length l) + 1 < max → utf8_valid l = true →
  read_user_cstr root ptr max s = (Ok l, s).
Proof.
  intros Hp Hr Hu Hz Hn Hv. unfold read_user_cstr. destruct (Z.eqb_spec ptr 0); [lia|].
  rewrite (bind_ok _ _ s l s); [unfold from_utf8; by rewrite Hv|].
  apply read_cstr_loop_spec; try lia; [|done]. by rewrite Z.add_0_r.
Qed.

(** Looking for the image does not change the state. *)
Lemma vfs_data_spec depth path s : vfs_data depth path s =
  (match resolve_path depth (tree s) path with Ok h => Ok (idata (node (tree s) h)) | Err e => Err e | Panic => Panic end, s).
Proof.
  unfold vfs_data, bind, resolve_os, on_tree, resolve. assert (set_tree (tree s) s = s) as -> by (by destruct s).
  by destruct (resolve_path _ _ _).
Qed.

(** A program of the file tree that is not a script is its own image. *)
Lemma resolve_plain_image depth ext4 path argv h s : resolve_path depth (tree s) path = Ok h → idata (node (tree s) h) ≠ [] →
  parse_shebang (idata (node (tree s) h)) = None →
  resolve_exec_image depth ext4 path argv s = (Ok (path, argv, idata (node (tree s) h)), s).
Proof.
  intros Hr Hd Hs. unfold resolve_exec_image, load_program_data. rewrite bind_assoc.
  rewrite (bind_ok _ _ s (inl (idata (node (tree s) h))) s); [|unfold try; by rewrite vfs_data_spec, Hr].
  destruct (idata (node (tree s) h)) as [|b d] eqn:E; [done|]. kstep. by rewrite Hs.
Qed.

Lemma load_missing depth ext4 path e s : resolve_path depth (tree s) path = Err e → ext4 path = None →
  load_program_data depth ext4 path s = (Err ENOENT, s).
Proof.
  intros Hr He. unfold load_program_data. rewrite (bind_ok _ _ s (inr e) s); [|unfold try; by rewrite vfs_data_spec, Hr].
  unfold ext4_data. by rewrite He.
Qed.

(** ** Demonstration *)

(** A kernel whose current process 7, running in the address space at 4096, asks
    for [/init]; the file holds the image of [Elf]. *)
Definition demo_path : list Z := bytes_of "/init".
Definition demo_exec_mem : Z → Z := wr_bytes User.demo_mem 0x9000 (demo_path ++ [0]).
Definition demo_exec_os (p : Pmm.BitmapAllocator) : Os :=
  set_tree ((init ;;; put_new 0 "init" (set_data demo_image (new_file 0x1ED))) empty_fs).2
    (set_sig (set_kern (Kernel.set_mach (mkMach p demo_exec_mem) Proc.demo_k) (sig demo_ready)) demo_ready).

Lemma demo_reads_path p k : (k < 3)%nat →
  read_user_cstr 4096 (0x400000 + Z.of_nat k) 512 (demo_exec_os p) = (Ok (drop k demo_path), demo_exec_os p).
Proof.
  intros Hk. apply read_user_cstr_spec; [lia| | | | |]; destruct k as [|[|[|k]]]; try lia; vm_compute; (reflexivity || by repeat constructor).
Qed.

Definition demo_frame : AArch64.TrapFrame := AArch64.mkFrame (replicate 31 0) 0 0 0.

Lemma demo_exec_missing : let s := demo_exec_os (Pmm.mkPmm [] 0 0) in
  do_execve 0 4096 9 (λ _, None) 0 demo_frame 0x400002 0 0 s = (Err ENOENT, s).
Proof.
  intros s. unfold do_execve, prepare. rewrite bind_assoc, (bind_ok _ _ _ _ _ (demo_reads_path (Pmm.mkPmm [] 0 0) 2 ltac:(lia))).
  rewrite bind_assoc, (bind_ok (read_user_ptr_array 4096 0 64 256) _ _ [] _ eq_refl).
  rewrite bind_assoc, (bind_ok (read_user_ptr_array 4096 0 128 512) _ _ [] _ eq_refl), bind_assoc. unfold resolve_exec_image. rewrite bind_assoc.
  unfold bind at 1. rewrite (load_missing _ _ _ ENOENT); [reflexivity|vm_compute; reflexivity|reflexivity].
Qed.

Lemma execve_failure_atomic_witness : let s := demo_exec_os (Pmm.mkPmm [] 0 0) in
  ∃ s' m, do_execve 0 4096 9 (λ _, None) 0 demo_frame 0x400002 0 0 s = (Err ENOENT, s') ∧ s' = with_mach m s.
Proof.
  intros s. exists s. destruct (execve_failure_atomic 0 4096 9 (λ _, None) 0 demo_frame 0x400002 0 0 s ENOENT s demo_exec_missing) as [m E].
  exists m. exact (conj demo_exec_missing E).
Defined.

Lemma demo_finds_image p : resolve_exec_image 9 (λ _, None) demo_path [] (demo_exec_os p) = (Ok (demo_path, [], demo_image), demo_exec_os p).
Proof.
  assert (idata (node (tree (demo_exec_os p)) 16) = demo_image) as E by (vm_compute; reflexivity).
  assert (resolve_path 9 (tree (demo_exec_os p)) demo_path = Ok 16) as Er by (vm_compute; reflexivity).
  rewrite <- E. by apply resolve_plain_image; [exact Er|rewrite E..].
Qed.

Lemma execve_runs_image_witness : ∃ p rt usp s',
  do_execve 0 4096 9 (λ _, None) 0 demo_frame 0x400000 0 0 (demo_exec_os p) =
    (Ok (0, Frame.set_sp usp (Frame.set_pc 0x400078 demo_frame), rt), s') ∧
  user_byte (mem (mach_of s')) rt 0x40007B = Some 4 ∧
  uid <$> PROCESS_TABLE (the_k s') !! current_pid 0 (the_k (demo_exec_os p)) = Some (uid (demo_proc 7 3)).
Proof.
  destruct (demo_pmm 9000) as (p & Hi & Hf & _); [lia|]. exists p.
  destruct (execve_runs_image 0 4096 9 (λ _, None) 0 demo_frame 0x400000 0 0 (demo_exec_os p) demo_path [] []
    demo_path [] demo_image demo_header [demo_phdr] (demo_thread 7 Running 4) (demo_proc 7 3)) as (rt & usp & s' & random & t' & p' & E & H & _ & _ & _ & _ & _ & _ & _ & _ & _ & Hp & _ & Hids & _).
  - exact (demo_reads_path p 0 ltac:(lia)).
  - reflexivity.
  - reflexivity.
  - exact (demo_finds_image p).
  - exact demo_static.
  - exact Hi.
  - change (mpmm (mach_of (demo_exec_os p))) with p. rewrite Hf. vm_compute. congruence.
  - vm_compute. congruence.
  - reflexivity.
  - reflexivity.
  - repeat constructor; vm_compute; congruence.
  - split; reflexivity.
  - exists rt, usp, s'. split; [exact E|]. rewrite Hp. injection Hids as Hu _ _ _ _ _. cbn [fmap option_fmap option_map]. rewrite Hu.
    destruct (H demo_phdr 0x40007B) as [-> _]; [by left|reflexivity|by split|reflexivity|split; reflexivity].
Defined.

(** ** Scripts *)

(** A byte of a word: ASCII, neither space nor control. *)
Definition graphic (b : Z) : Prop := 33 ≤ b ≤ 126.

Lemma ascii_valid l : Forall (λ b, 0 ≤ b < 128) l → utf8_valid l = true.
Proof.
  intros H. unfold utf8_valid. induction H as [|b l Hb Hl IH]; [done|]. cbn [length utf8_valid_loop].
  assert (utf8_step (b :: l) = (true, 1%nat)) as ->; [|exact IH].
  unfold utf8_step. cbn [lookup list_lookup from_option id default]. destruct (Z.ltb_spec b 0x80); [done|lia].
Qed.

Lemma split_words_word w rest : Forall graphic w → ∀ fuel cur, (length w + length rest ≤ fuel)%nat →
  split_words fuel cur (w ++ rest) = split_words (fuel - length w) (cur ++ w) rest.
Proof.
  induction 1 as [|b w Hb Hw IH]; intros fuel cur Hf; cbn [length app] in *.
  { by rewrite Nat.sub_0_r, app_nil_r. }
  destruct fuel as [|fuel]; [lia|]. cbn [split_words].
  assert (space_len (b :: w ++ rest) = 0%nat) as ->.
  { unfold graphic in Hb. unfold space_len, in_range. repeat (case_match; try lia). }
  by rewrite IH, <- app_assoc by lia.
Qed.

Lemma first_line_nl l rest : Forall (λ b, b ≠ 10) l → first_line (l ++ 10 :: rest) = l.
Proof. induction 1 as [|b l Hb _ IH]; [done|]. cbn. destruct (Z.eqb_spec b 10); [done|]. by rewrite IH. Qed.

(** A script with the header [#!interp arg] is run by its interpreter: the
    image is the interpreter's, and its arguments are the interpreter's name, the
    argument of the header, the path of the script, and the caller's arguments
    without the first. *)
Theorem script_runs_interpreter depth ext4 path argv interp arg text h hi s :
  Forall graphic interp → Forall graphic arg → interp ≠ [] → arg ≠ [] →
  resolve_path depth (tree s) path = Ok h → idata (node (tree s) h) = bytes_of "#!" ++ interp ++ [32] ++ arg ++ [10] ++ text →
  resolve_path depth (tree s) interp = Ok hi → idata (node (tree s) hi) ≠ [] →
  resolve_exec_image depth ext4 path argv s = (Ok (interp, [interp; arg; path] ++ drop 1 argv, idata (node (tree s) hi)), s).
Proof.
  intros Hi Ha Hin Han Hp Hd Hip Hid.
  assert (parse_shebang (idata (node (tree s) h)) = Some (interp, Some arg)) as Hs.
  { rewrite Hd. change (bytes_of "#!") with [35; 33]. cbn [app parse_shebang].
    replace (interp ++ 32 :: arg ++ 10 :: text) with ((interp ++ 32 :: arg) ++ 10 :: text) by (by rewrite <- app_assoc).
    assert (Forall (λ b, 0 ≤ b < 128 ∧ b ≠ 10) (interp ++ 32 :: arg)) as Hall.
    { apply Forall_app; split; [|constructor; [lia|]]; (eapply Forall_impl; [eassumption|]); unfold graphic; intros; lia. }
    rewrite first_line_nl by (eapply Forall_impl; [exact Hall|]; intros ? [? ?]; assumption).
    unfold from_utf8. rewrite ascii_valid by (eapply Forall_impl; [exact Hall|]; intros ? [? ?]; assumption). cbn [mbind option_bind].
    unfold split_whitespace. rewrite split_words_word by (done || (rewrite length_app; lia)).
    rewrite length_app. cbn [length app]. replace (length interp + S (length arg) - length interp)%nat with (S (length arg)) by lia.
    change (split_words (S (length arg)) interp (32 :: arg)) with
      ((match interp with [] => [] | _ => [interp] end) ++ split_words (length arg) [] arg).
    rewrite <- (app_nil_r arg) at 2. rewrite split_words_word by (done || (cbn; lia)).
    rewrite Nat.sub_diag. cbn [split_words app]. by destruct interp, arg. }
  unfold resolve_exec_image, load_program_data. rewrite bind_assoc.
  rewrite (bind_ok _ _ s (inl (idata (node (tree s) h))) s); [|unfold try; by rewrite vfs_data_spec, Hp].
  destruct (idata (node (tree s) h)) as [|b d]; [done|]. kstep. rewrite Hs. rewrite bind_assoc.
  rewrite (bind_ok _ _ s (inl (idata (node (tree s) hi))) s); [|unfold try; by rewrite vfs_data_spec, Hip].
  destruct (idata (node (tree s) hi)) as [|b' d']; [done|]. by kstep.
Qed.

Definition demo_script_tree : Fs :=
  ((init ;;; put_new 0 "init" (set_data demo_image (new_file 0x1ED)) ;;;
    put_new 0 "run" (set_data (bytes_of "#!/init -x" ++ [10; 35]) (new_file 0x1ED))) empty_fs).2.

Lemma script_runs_interpreter_witness : let s := set_tree demo_script_tree demo_ready in
  resolve_exec_image 9 (λ _, None) (bytes_of "/run") [bytes_of "run"; bytes_of "a"] s =
    (Ok (bytes_of "/init", [bytes_of "/init"; bytes_of "-x"; bytes_of "/run"; bytes_of "a"], demo_image), s).
Proof.
  intros s. assert (idata (node (tree s) 16) = demo_image) as E by (vm_compute; reflexivity). rewrite <- E.
  apply (script_runs_interpreter 9 (λ _, None) (bytes_of "/run") [bytes_of "run"; bytes_of "a"] (bytes_of "/init") (bytes_of "-x") [35] 17 16 s);
    [by repeat constructor|by repeat constructor|done|done|vm_compute; reflexivity..|by rewrite E].
Defined.
