(* ===== verification/NetSys.v ===== *)
(** * Socket system calls ([net/mod.rs])

    The calls on the tables of [Sock], with descriptors and user memory.  A call
    that waits sleeps a tick and looks again; one look returns [None] when it would
    sleep.  [Panic] stands for a panic of the kernel and for a CPU that spins on a
    lock it holds ([deadlock]). *)

From S2P Require Import Prelude.
From S2P Require Import Path.
From S2P Require Import Paging.
From S2P Require Import User.
From S2P Require Import Pty.
From S2P Require Import Kernel.
From S2P Require Import Proc.
From S2P Require Import Signal.
From S2P Require Import Vfs.
From S2P Require Import Sock.
From S2P Require Import File.
From S2P Require Import FileOps.

Definition SOL_SOCKET : Z := 1.
Definition SO_TYPE : Z := 3.
Definition SO_ERROR : Z := 4.
Definition SO_PEERCRED : Z := 17.
Definition SO_ACCEPTCONN : Z := 30.
Definition SCM_RIGHTS : Z := 1.
Definition MSG_CTRUNC : Z := 0x8.
Definition MSG_PEEK : Z := 0x2.

(** [from_be_bytes], [to_be_bytes] *)
Definition from_be (l : list Z) : Z := from_le (reverse l).
Definition to_be (n : nat) (v : Z) : list Z := reverse (to_le n v).

(** A second [lock()] of a spin lock by its holder. *)
Definition deadlock {A} : M Os A := panic.

(** [vec![0u8; n]] beyond [isize::MAX] bytes is a capacity overflow. *)
Definition vec_len (n : Z) : M Os nat := if n <? 2 ^ 63 then ret (Z.to_nat n) else panic.

(** A function on the tables. *)
Definition upd (f : Net → Net) : M Os () := modify (on_net f).
Definition sock (f : Net → option SocketState) (e : Z) : M Os SocketState := let! o := gets (λ s, f (net s)) in ok_or o e.
Definition state_of (o : Z) (n : Net) : option SocketState := SOCKET_STATE n !! o.
Definition owner (fd : Z) : M Os Z := gets (λ s, owner_of fd (net s)).
Definition sock_error {A} (fd e : Z) : M Os A := upd (set_socket_error fd e) ;;; fail e.

(** The file whose lock the caller holds, if any, is [held]. *)
Definition ensure_socket_fd (held : option Z) (fd : Z) : M Os () :=
  if fd <? 0 then fail EBADF else
  let! h := get_file fd in
  if bool_decide (held = Some h) then deadlock else
  let! b := gets (is_socket h) in
  if (b : bool) then ret tt else fail ENOTSOCK.

Definition is_nonblocking_fd (fd : Z) : M Os bool :=
  if fd <? 0 then ret true else
  let! r := try (get_file fd) in
  match r with inl h => gets (λ s, has (flags (file s h)) NONBLOCK) | inr _ => ret true end.

(** [socket_poll_mask] *)
Definition poll_mask (held : option Z) (fd : Z) : M Os Z :=
  let! r := try (ensure_socket_fd held fd) in
  match r with
  | inl _ => gets (λ s, socket_poll_mask fd (net s))
  | inr _ => ret (Z.lor POLLERR POLLHUP)
  end.

Section Net.
Context (cpu : nat) (root : Z).

Definition ucopy_in (addr : Z) (n : nat) : M Os (list Z) := map_err (FileOps.copy_from_user root addr n) EFAULT.
Definition ucopy_out (addr : Z) (data : list Z) : M Os () := map_err (FileOps.copy_to_user root addr data) EFAULT.

(** ** Addresses *)

Definition read_sockaddr_in (addr addrlen : Z) : M Os (Z * Z) :=
  if (addr =? 0) || (addrlen <? 8) then fail EINVAL else
  let! raw := ucopy_in addr 16 in
  if negb (from_le (take 2 raw) =? AF_INET) then fail EAFNOSUPPORT else
  ret (from_be (slice 2 4 raw), from_be (slice 4 8 raw)).

Definition read_sockaddr_un_path (addr addrlen : Z) : M Os (list Z) :=
  if (addr =? 0) || (addrlen <? 3) then fail EINVAL else
  let! raw := ucopy_in addr (Z.to_nat addrlen) in
  if negb (from_le (take 2 raw) =? AF_UNIX) then fail EAFNOSUPPORT else
  match drop 2 raw with
  | [] => fail EINVAL
  | b :: p => if b =? 0 then ret (b :: p) else ret (until_nul (b :: p))
  end.

Definition sockaddr_in (port ip : Z) : list Z := to_le 2 AF_INET ++ to_be 2 port ++ to_be 4 ip ++ replicate 8 0.

Definition write_sockaddr_in (addr addrlen_ptr port ip : Z) : M Os () :=
  if addrlen_ptr =? 0 then fail EFAULT else
  let! len_raw := ucopy_in addrlen_ptr 4 in
  let user_len := from_le len_raw in
  when (negb (addr =? 0) && (0 <? user_len)) (ucopy_out addr (take (Z.to_nat (Z.min user_len 16)) (sockaddr_in port ip))) ;;;
  ucopy_out addrlen_ptr (to_le 4 16).

(** ** Creation *)

Definition alloc_socket_fd (dom typ proto : Z) : M Os Z :=
  let! k := gets (λ s, kern (sig s)) in
  let '(uid, gid, euid, egid) := current_creds cpu k in
  let creator_uid := if negb (euid =? 0) then euid else uid in
  let creator_gid := if negb (egid =? 0) then egid else gid in
  let! h := alloc_file (mkFile None 0 0 Socket None) in
  let! fd := alloc_fd h in
  upd (register_socket fd (new_state dom typ proto (current_pid cpu k) creator_uid creator_gid)) ;;;
  ret fd.

Definition do_socket (dom typ proto : Z) : M Os Z :=
  if negb (dom =? AF_INET) && negb (dom =? AF_UNIX) then fail EAFNOSUPPORT else alloc_socket_fd dom typ proto.

Definition do_socketpair (dom typ proto sv : Z) : M Os Z :=
  if negb (dom =? AF_UNIX) then fail EAFNOSUPPORT else
  if sv =? 0 then fail EFAULT else
  let! fd0 := alloc_socket_fd dom typ proto in
  let! fd1 := alloc_socket_fd dom typ proto in
  let! o0 := owner fd0 in
  let! o1 := owner fd1 in
  upd (join_pair o0 o1) ;;;
  ucopy_out sv (to_le 4 fd0 ++ to_le 4 fd1) ;;; ret 0.

(** ** Binding and listening *)

(** A bound socket at the same port whose address clashes. *)
Definition clashes (port ip : Z) (s : SocketState) : bool :=
  bound s && (local_port s =? port) && ((local_addr s =? ip) || (local_addr s =? 0) || (ip =? 0)).

Definition do_bind (fd addr addrlen : Z) : M Os Z :=
  ensure_socket_fd None fd ;;;
  let! o := owner fd in
  let! st := sock (state_of o) EBADF in
  if domain st =? AF_UNIX then
    let! path := read_sockaddr_un_path addr addrlen in
    let! taken := gets (λ s, match UNIX_PATH_OWNER (net s) !! path with Some v => negb (v =? o) | None => false end) in
    if (taken : bool) then sock_error fd EADDRINUSE else
    upd (λ n, set_paths (<[path := o]> (UNIX_PATH_OWNER n)) (<[o := path]> (OWNER_UNIX_PATH n)) n) ;;;
    let! st := sock (state_of o) EBADF in
    upd (on_state o (λ s, with_error 0 (with_local (local_addr s) (local_port s) s))) ;;; ret 0
  else
    let! a := read_sockaddr_in addr addrlen in
    let '(port, ip) := a in
    let! in_use := gets (λ s, existsb (λ e, negb (e.1 =? o) && clashes port ip e.2) (bentries (SOCKET_STATE (net s)))) in
    if (in_use : bool) then sock_error fd EADDRINUSE else
    let! st := sock (state_of o) EBADF in
    upd (on_state o (λ s, with_error 0 (with_local ip port s))) ;;; ret 0.

Definition do_listen (fd n : Z) : M Os Z :=
  ensure_socket_fd None fd ;;;
  let! o := owner fd in
  let! st := sock (state_of o) EBADF in
  if negb (bound st) then fail EINVAL else
  upd (on_state o (λ s, with_error 0 (with_listening (Z.max n 1) s))) ;;;
  upd (λ n, set_pending (or_default o (SOCKET_PENDING n)) n) ;;; ret 0.

(** ** Connecting *)

(** Joining a listener's queue: already queued, full, or queued now. *)
Inductive Queued := Already | Full | Now.
Definition enqueue (listener o limit : Z) : M Os Queued :=
  upd (λ n, set_pending (or_default listener (SOCKET_PENDING n)) n) ;;;
  let! q := gets (λ s, default [] (SOCKET_PENDING (net s) !! listener)) in
  if existsb (Z.eqb o) q then ret Already else
  if limit <=? Z.of_nat (length q) then ret Full else
  upd (λ n, set_pending (<[listener := q ++ [o]]> (SOCKET_PENDING n)) n) ;;; ret Now.

(** [49152u16.saturating_add((owner as u16) & 0x0fff)] *)
Definition ephemeral_port (o : Z) : Z := Z.min (49152 + Z.land (o mod 2 ^ 16) 0xFFF) 65535.

Definition connect_to (port ip o : Z) (s : SocketState) : SocketState :=
  let s := with_peer ip port (with_connected true s) in
  let s := if negb (bound s) then with_local 0 (ephemeral_port o) s else s in
  with_error 0 s.

Definition do_connect (fd addr addrlen : Z) : M Os Z :=
  ensure_socket_fd None fd ;;;
  let! o := owner fd in
  let! st := sock (state_of o) EBADF in
  if connected st then sock_error fd EISCONN else
  if domain st =? AF_UNIX then
    let! path := read_sockaddr_un_path addr addrlen in
    let! l := gets (λ s, UNIX_PATH_OWNER (net s) !! path) in
    let! listener_owner := ok_or l ECONNREFUSED in
    if listener_owner =? o then sock_error fd EINVAL else
    let! listener := sock (state_of listener_owner) EBADF in
    if negb (listening listener) then sock_error fd ECONNREFUSED else
    let! r := enqueue listener_owner o (Z.max (backlog listener) 1) in
    match r with
    | Already => ret 0
    | Full => sock_error fd EAGAIN
    | Now =>
        let! st := sock (state_of o) EBADF in
        upd (on_state o (λ s, with_error 0 (with_connected true s))) ;;; ret 0
    end
  else
    let! a := read_sockaddr_in addr addrlen in
    let '(peer_port, peer_ip) := a in
    let! found := gets (λ s, head (filter (λ e, listening e.2 && clashes peer_port peer_ip e.2 = true) (bentries (SOCKET_STATE (net s))))) in
    match found with
    | None => deadlock
    | Some (listener_owner, _) =>
        if listener_owner =? o then sock_error fd EINVAL else
        let! n := gets (λ s, match SOCKET_STATE (net s) !! listener_owner with Some l => backlog l | None => 1 end) in
        let! r := enqueue listener_owner o n in
        match r with
        | Already => ret 0
        | Full => sock_error fd EAGAIN
        | Now =>
            let! st := sock (state_of o) EBADF in
            upd (on_state o (connect_to peer_port peer_ip o)) ;;; ret 0
        end
    end.

Fixpoint remove_first (x : Z) (l : list Z) : option (list Z) :=
  match l with
  | [] => None
  | y :: l' => if y =? x then Some l' else cons y <$> remove_first x l'
  end.

Definition do_accept4 (fd addr addrlen fl : Z) : M Os (option Z) :=
  ensure_socket_fd None fd ;;;
  let! l := owner fd in
  let! listener := sock (state_of l) EBADF in
  if negb (listening listener) then fail EINVAL else
  let! nb := is_nonblocking_fd fd in
  let nonblock := nb || has fl 0x800 in
  let! oq := gets (λ s, SOCKET_PENDING (net s) !! l) in
  let! q := ok_or oq EBADF in
  match q with
  | [] => if nonblock then sock_error fd EAGAIN else ret None
  | c :: _ =>
      let! accepted := alloc_socket_fd (domain listener) (sock_type listener) (protocol listener) in
      when (has fl 0x800)
        (let! r := try (get_file accepted) in
         match r with inl h => modify (on_file h (λ f, set_flags (Z.lor (flags f) NONBLOCK) f)) | inr _ => ret tt end) ;;;
      let! acc := owner accepted in
      let! oq := gets (λ s, SOCKET_PENDING (net s) !! l) in
      match oq with
      | Some q =>
          match remove_first c q with
          | Some q' => upd (λ n, set_pending (<[l := q']> (SOCKET_PENDING n)) n)
          | None => deadlock
          end
      | None => ret tt
      end ;;;
      let! client := sock (state_of c) EBADF in
      upd (link_accepted listener client acc c) ;;;
      when (negb (addr =? 0) && negb (addrlen =? 0))
        (let! client := sock (state_of c) EBADF in write_sockaddr_in addr addrlen (local_port client) (local_addr client)) ;;;
      upd (set_socket_error fd 0) ;;; ret (Some accepted)
  end.

(** ** Data *)

Definition connected_peer (fd : Z) : M Os SocketState :=
  ensure_socket_fd None fd ;;;
  let! o := owner fd in
  let! st := sock (state_of o) EBADF in
  if negb (connected st) || (peer_owner st <? 0) then sock_error fd ENOTCONN else ret st.

Definition do_sendto (fd buf len : Z) : M Os Z :=
  let! st := connected_peer fd in
  let n := Z.min len 65536 in
  when (0 <? n) (let! data := ucopy_in buf (Z.to_nat n) in upd (push_rx (peer_owner st) data)) ;;;
  upd (set_socket_error fd 0) ;;; ret n.

(** One look at the receive queue: its contents, [None] to sleep. *)
Definition look_rx (fd o : Z) : M Os (option (list Z)) :=
  upd (λ n, set_rx (or_default o (SOCKET_RX n)) n) ;;;
  let! q := gets (λ s, default [] (SOCKET_RX (net s) !! o)) in
  match q with
  | _ :: _ => ret (Some q)
  | [] => let! nb := is_nonblocking_fd fd in if (nb : bool) then sock_error fd EAGAIN else ret None
  end.

Definition do_recvfrom (fd buf len fl src_addr addrlen : Z) : M Os (option Z) :=
  ensure_socket_fd None fd ;;;
  let! o := owner fd in
  let! r := look_rx fd o in
  match r with
  | None => ret None
  | Some q =>
      let n := Z.to_nat (Z.min len (Z.of_nat (length q))) in
      let out := take n q in
      when (negb (has fl MSG_PEEK)) (upd (λ x, set_rx (<[o := drop n q]> (SOCKET_RX x)) x)) ;;;
      ucopy_out buf out ;;;
      when (negb (src_addr =? 0) && negb (addrlen =? 0))
        (let! st := sock (state_of o) EBADF in
         when (connected st) (write_sockaddr_in src_addr addrlen (peer_port st) (peer_addr st))) ;;;
      upd (set_socket_error fd 0) ;;; ret (Some (Z.of_nat (length out)))
  end.

(** ** Messages *)

Record MsgHdr := mkMsg { msg_iov : Z; msg_iovlen : Z; msg_control : Z; msg_controllen : Z }.

Definition read_msghdr (msghdr : Z) : M Os MsgHdr :=
  if msghdr =? 0 then fail EFAULT else
  let! raw := ucopy_in msghdr 56 in
  ret (mkMsg (from_le (slice 16 24 raw)) (from_le (slice 24 32 raw)) (from_le (slice 32 40 raw)) (from_le (slice 40 48 raw))).

Definition iovec_at (iov i : Z) : M Os (Z * Z) :=
  let! a := or_panic (add64 iov (i * 16)) in
  let! raw := ucopy_in a 16 in ret (from_le (slice 0 8 raw), from_le (slice 8 16 raw)).

Definition capped (iovlen : Z) : list Z := seqZ 0 (Z.min iovlen 128).

Fixpoint collect_loop (l : list Z) (iov max_total total : Z) : M Os (list (list Z)) :=
  match l with
  | [] => ret []
  | i :: l' =>
      let! e := iovec_at iov i in
      if e.2 =? 0 then let! rest := collect_loop l' iov max_total total in ret ([] :: rest)
      else
        let take_ := Z.min e.2 (saturating_sub max_total total) in
        let! buf := ucopy_in e.1 (Z.to_nat take_) in
        let total := saturating_add total take_ in
        if max_total <=? total then ret [buf]
        else let! rest := collect_loop l' iov max_total total in ret (buf :: rest)
  end.
Definition collect_iovecs (iov iovlen max_total : Z) : M Os (list (list Z)) :=
  if iovlen =? 0 then ret [] else collect_loop (capped iovlen) iov max_total 0.

Fixpoint scatter_loop (l : list Z) (iov : Z) (data : list Z) (copied : Z) : M Os Z :=
  match l with
  | [] => ret copied
  | i :: l' =>
      match data with
      | [] => ret copied
      | _ =>
          let! e := iovec_at iov i in
          if e.2 =? 0 then scatter_loop l' iov data copied
          else
            let n := Z.min e.2 (Z.of_nat (length data)) in
            ucopy_out e.1 (take (Z.to_nat n) data) ;;;
            scatter_loop l' iov (drop (Z.to_nat n) data) (copied + n)
      end
  end.
Definition scatter_to_iovecs (iov iovlen : Z) (data : list Z) : M Os Z := scatter_loop (capped iovlen) iov data 0.

Definition cmsg_align (len : Z) : Z := Z.land (len + 7) (not64 7).

(** The files named by a block of descriptors. *)
Fixpoint pass_files (l : list Z) (n : nat) : M Os (list Z) :=
  match n with
  | O => ret []
  | S n' =>
      let fd := to_i32 (from_le (take 4 l)) in
      let! hs := (if fd <? 0 then ret []
                  else let! r := try (get_file fd) in ret (match r with inl h => [h] | inr _ => [] end)) in
      let! rest := pass_files (drop 4 l) n' in ret (hs ++ rest)
  end.

(** The control messages; each takes 16 bytes at least. *)
Fixpoint send_control (rounds : nat) (cmsg : list Z) (off peer : Z) : M Os () :=
  match rounds with
  | O => ret tt
  | S rounds' =>
      let size := Z.of_nat (length cmsg) in
      if size <? off + 16 then ret tt else
      let at_ (a n : nat) := take n (drop (Z.to_nat off + a) cmsg) in
      let cmsg_len := from_le (at_ 0%nat 8%nat) in
      if cmsg_len <? 16 then ret tt else
      let! e := or_panic (add64 off cmsg_len) in
      if size <? e then ret tt else
      let level := to_i32 (from_le (at_ 8%nat 4%nat)) in
      let type := to_i32 (from_le (at_ 12%nat 4%nat)) in
      let nfd := Z.to_nat ((cmsg_len - 16) / 4) in
      when ((level =? SOL_SOCKET) && (type =? SCM_RIGHTS) && bool_decide (0 < nfd)%nat)
        (upd (λ n, set_rights (or_default peer (SOCKET_RIGHTS n)) n) ;;;
         let! hs := pass_files (at_ 16%nat (Z.to_nat (cmsg_len - 16))) nfd in
         upd (λ n, set_rights (<[peer := default [] (SOCKET_RIGHTS n !! peer) ++ hs]> (SOCKET_RIGHTS n)) n)) ;;;
      send_control rounds' cmsg (off + cmsg_align cmsg_len) peer
  end.

Definition do_sendmsg (fd msg : Z) : M Os Z :=
  let! st := connected_peer fd in
  let! m := read_msghdr msg in
  let! iovs := collect_iovecs (msg_iov m) (msg_iovlen m) (2 ^ 20) in
  let payload := concat iovs in
  when (bool_decide (payload ≠ [])) (upd (push_rx (peer_owner st) payload)) ;;;
  when (negb (msg_control m =? 0) && (16 <=? msg_controllen m))
    (let! n := vec_len (msg_controllen m) in
     let! cmsg := ucopy_in (msg_control m) n in
     send_control (length cmsg) cmsg 0 (peer_owner st)) ;;;
  upd (set_socket_error fd 0) ;;; ret (Z.of_nat (length payload)).

(** New descriptors for received files; [-1] when none is free. *)
Fixpoint install_files (l : list Z) : M Os (list Z) :=
  match l with
  | [] => ret []
  | h :: l' =>
      let! r := try (alloc_fd h) in
      let fd := match r with inl fd => fd | inr _ => -1 end in
      let! rest := install_files l' in ret (fd :: rest)
  end.

Definition recv_control (o : Z) (m : MsgHdr) : M Os (Z * Z) :=
  if negb (msg_control m =? 0) && (16 <=? msg_controllen m) then
    upd (λ n, set_rights (or_default o (SOCKET_RIGHTS n)) n) ;;;
    let! pending := gets (λ s, default [] (SOCKET_RIGHTS (net s) !! o)) in
    match pending with
    | [] => ret (0, 0)
    | _ =>
        let max_fd := saturating_sub (msg_controllen m) 16 / 4 in
        let n := Z.to_nat (Z.min max_fd (Z.of_nat (length pending))) in
        let! used :=
          (if bool_decide (0 < n)%nat then
             let cmsg_len := 16 + Z.of_nat n * 4 in
             let! fds := install_files (take n pending) in
             ucopy_out (msg_control m) (to_le 8 cmsg_len ++ to_le 4 SOL_SOCKET ++ to_le 4 SCM_RIGHTS ++
               concat ((λ fd, to_le 4 (fd mod 2 ^ 32)) <$> fds)) ;;;
             upd (λ x, set_rights (<[o := drop n pending]> (SOCKET_RIGHTS x)) x) ;;; ret cmsg_len
           else ret 0) in
        ret (used, if bool_decide (drop n pending = []) then 0 else MSG_CTRUNC)
    end
  else ret (0, 0).

Definition do_recvmsg (fd msg : Z) : M Os (option Z) :=
  ensure_socket_fd None fd ;;;
  let! o := owner fd in
  let! m := read_msghdr msg in
  let! r := look_rx fd o in
  match r with
  | None => ret None
  | Some out =>
      upd (λ n, set_rx (<[o := []]> (SOCKET_RX n)) n) ;;;
      let! copied := scatter_to_iovecs (msg_iov m) (msg_iovlen m) out in
      let! c := recv_control o m in
      let! raw := ucopy_in msg 56 in
      let raw := copy_at 8 (to_le 4 0) raw in
      let raw := copy_at 40 (to_le 8 c.1) raw in
      let raw := copy_at 48 (to_le 4 c.2) raw in
      ucopy_out msg raw ;;;
      upd (set_socket_error fd 0) ;;; ret (Some copied)
  end.

(** ** Names and options *)

Definition do_getsockname (fd addr addrlen_ptr : Z) : M Os Z :=
  ensure_socket_fd None fd ;;;
  if addr =? 0 then fail EFAULT else
  let! o := owner fd in
  let! st := sock (state_of o) EBADF in
  write_sockaddr_in addr addrlen_ptr (local_port st) (local_addr st) ;;; ret 0.

Definition do_getpeername (fd addr addrlen_ptr : Z) : M Os Z :=
  ensure_socket_fd None fd ;;;
  let! o := owner fd in
  let! st := sock (state_of o) EBADF in
  if negb (connected st) then sock_error fd ENOTCONN else
  if addr =? 0 then fail EFAULT else
  write_sockaddr_in addr addrlen_ptr (peer_port st) (peer_addr st) ;;; ret 0.

Definition do_setsockopt (fd level optval optlen : Z) : M Os Z :=
  ensure_socket_fd None fd ;;;
  if negb (level =? SOL_SOCKET) then fail EOPNOTSUPP else
  when (negb (optval =? 0) && (0 <? optlen)) (ignore (FileOps.copy_from_user root optval (Z.to_nat (Z.min optlen 16)))) ;;; ret 0.

(** The value, and its length, to the caller's buffers. *)
Definition put_option (optval optlen : Z) (out : list Z) : M Os Z :=
  let! len_raw := ucopy_in optlen 4 in
  let n := Z.to_nat (Z.min (from_le len_raw) (Z.of_nat (length out))) in
  when (negb (optval =? 0) && bool_decide (0 < n)%nat) (ucopy_out optval (take n out)) ;;;
  ucopy_out optlen (to_le 4 (Z.of_nat (length out))) ;;; ret 0.

Definition do_getsockopt (fd level optname optval optlen : Z) : M Os Z :=
  ensure_socket_fd None fd ;;;
  if optlen =? 0 then fail EFAULT else
  let! o := owner fd in
  if (level =? SOL_SOCKET) && (optname =? SO_PEERCRED) then
    let! st := sock (state_of o) EBADF in
    if peer_owner st <? 0 then fail ENOTCONN else
    let! p := sock (state_of (peer_owner st)) ENOTCONN in
    put_option optval optlen (to_le 4 (creator_pid p mod 2 ^ 32) ++ to_le 4 (creator_uid p) ++ to_le 4 (creator_gid p))
  else if level =? SOL_SOCKET then
    let! value :=
      (if optname =? SO_TYPE then let! st := sock (state_of o) EBADF in ret (sock_type st)
       else if optname =? SO_ERROR then
         let! st := sock (state_of o) EBADF in upd (on_state o (with_error 0)) ;;; ret (last_error st)
       else if optname =? SO_ACCEPTCONN then let! st := sock (state_of o) EBADF in ret (if listening st then 1 else 0)
       else ret 0) in
    put_option optval optlen (to_le 4 (value mod 2 ^ 32))
  else fail EOPNOTSUPP.
End Net.

(** ** Streams *)

Definition rx (o : Z) (s : Os) : list Z := default [] (SOCKET_RX (net s) !! o).

(** [fd] is an open socket. *)
Definition socket_at (fd : Z) (s : Os) : Prop :=
  ready s ∧ 0 ≤ fd < 1024 ∧ ∃ h, fd_files s !! Z.to_nat fd = Some (Some h) ∧ ftype (file s h) = Socket.

Lemma ensure_socket_ok fd s : socket_at fd s → ensure_socket_fd None fd s = (Ok tt, s).
Proof.
  intros (Hr & Hfd & h & Hh & Ht). unfold ensure_socket_fd. rewrite (proj2 (Z.ltb_ge fd 0)) by lia.
  rewrite (bind_ok _ _ _ h s) by (by apply get_file_ready). cbn [bool_decide]. rewrite bool_decide_eq_false_2 by done.
  kstep. unfold is_socket. by rewrite bool_decide_eq_true_2.
Qed.

Lemma bind_ensure {A} fd (k : () → M Os A) s : socket_at fd s → bind (ensure_socket_fd None fd) k s = k tt s.
Proof. intros H. by rewrite (bind_ok _ _ _ tt s) by (by apply ensure_socket_ok). Qed.

Lemma ucopy_in_ok root addr n l s : 0 ≤ addr → addr + Z.of_nat n ≤ 2 ^ 64 → user_bytes (ram s) root addr n = Some l →
  ucopy_in root addr n s = (Ok l, s).
Proof. intros Ha Hb Hl. unfold ucopy_in, map_err. by rewrite (copy_in_ok _ _ _ l). Qed.

Lemma connected_peer_ok fd st s : socket_at fd s → SOCKET_STATE (net s) !! owner_of fd (net s) = Some st →
  connected st = true → 0 ≤ peer_owner st → connected_peer fd s = (Ok st, s).
Proof.
  intros Hs Hst Hc Hp. unfold connected_peer. rewrite bind_ensure by done. unfold owner, sock. kstep.
  unfold state_of. rewrite Hst. kstep. rewrite Hc, (proj2 (Z.ltb_ge _ 0)) by lia. done.
Qed.

(** C38. A connected socket is a byte stream: sending appends exactly the caller's
    bytes (at most 64 KiB of them) to the peer's queue, and a receive on the peer
    then removes the oldest bytes of its queue, as many as fit, and copies exactly
    those to the receiver: bytes arrive in order, each once. *)
Theorem stream_fifo root fd0 fd1 st buf n data s rbuf len : socket_at fd0 s → socket_at fd1 s →
  SOCKET_STATE (net s) !! owner_of fd0 (net s) = Some st → connected st = true → peer_owner st = owner_of fd1 (net s) → 0 ≤ peer_owner st →
  0 ≤ buf → buf + Z.of_nat n ≤ 2 ^ 64 → (0 < n ≤ Z.to_nat 65536)%nat → user_bytes (ram s) root buf n = Some data → length data = n → 0 ≤ len →
  ∃ s1, do_sendto root fd0 buf (Z.of_nat n) s = (Ok (Z.of_nat n), s1) ∧
    let q := rx (peer_owner st) s ++ data in
    let k := Z.to_nat (Z.min len (Z.of_nat (length q))) in
    rx (peer_owner st) s1 = q ∧
    do_recvfrom root fd1 rbuf len 0 0 0 s1 =
      (ucopy_out root rbuf (take k q) ;;; upd (set_socket_error fd1 0) ;;; ret (Some (Z.of_nat (length (take k q)))))
        (on_net (λ x, set_rx (<[peer_owner st := drop k q]> (SOCKET_RX x)) x)
          (on_net (λ x, set_rx (or_default (peer_owner st) (SOCKET_RX x)) x) s1)).
Proof.
  intros Hs0 Hs1 Hst Hc Hpo Hp Hb Hbn Hn Hd Hl Hlen.
  set (s1 := on_net (set_socket_error fd0 0) (on_net (push_rx (peer_owner st) data) s)). exists s1. split.
  - unfold do_sendto. rewrite (bind_ok _ _ _ st s) by (by apply connected_peer_ok).
    rewrite Z.min_l, (proj2 (Z.ltb_lt 0 _)) by lia. kstep. rewrite Nat2Z.id, (bind_ok _ _ _ data s) by (by apply ucopy_in_ok). reflexivity.
  - cbv zeta. set (q := rx (peer_owner st) s ++ data). set (k := Z.to_nat _). set (p := peer_owner st) in *.
    assert (rx p s1 = q) as Erx by (unfold rx, s1; cbn; by rewrite lookup_insert, decide_True). split; [done|].
    assert (socket_at fd1 s1) as Hs1' by exact Hs1. assert (owner_of fd1 (net s1) = p) as Eo by (unfold s1; cbn; done).
    unfold do_recvfrom. rewrite bind_ensure by done. unfold owner. rewrite bind_gets, Eo.
    set (s2 := on_net (λ x, set_rx (or_default p (SOCKET_RX x)) x) s1).
    assert (rx p s2 = q) as Erx2. { unfold rx, s2. cbn -[s1]. unfold or_default. rewrite lookup_insert, decide_True by done. exact Erx. }
    assert (q ≠ []) as Hq by (unfold q; destruct data; [cbn in Hl; lia|by destruct (rx p s)]).
    rewrite (bind_ok _ _ _ (Some q) s2).
    2:{ unfold look_rx, upd. rewrite bind_modify, bind_gets. fold s2. unfold rx in Erx2. rewrite Erx2. by destruct q. }
    fold k. change (has 0 MSG_PEEK) with false. unfold upd. kstep. reflexivity.
Qed.

(** A connected pair behind descriptors 3 and 4, over the memory of [User]. *)
Definition socket_file : FileObject := mkFile None 0 0 Socket None.
Definition demo_pair : Os :=
  on_net (λ _, demo_net)
    (set_fds (<[3%nat := Some 5]> (<[4%nat := Some 6]> (fd_files demo_ready))) (fd_cloexec demo_ready)
      (set_objs {[5 := socket_file; 6 := socket_file]} 7
        (set_sig (set_kern (set_mach (mkMach (Pmm.mkPmm [] 0 0) User.demo_mem) (kern (sig demo_ready))) (sig demo_ready)) demo_ready))).

Lemma demo_pair_socket fd : fd = 3 ∨ fd = 4 → socket_at fd demo_pair.
Proof. intros [-> | ->]; (split; [split; reflexivity|split; [lia|]]); [exists 5|exists 6]; split; reflexivity. Qed.

Lemma stream_fifo_witness : ∃ s1, do_sendto 4096 3 0x400FFF 2 demo_pair = (Ok 2, s1) ∧ rx 4 s1 = [7; 7].
Proof.
  destruct (stream_fifo 4096 3 4 (join_end 4 (new_state 1 1 0 1 0 0)) 0x400FFF 2 [7; 7] demo_pair 0x400000 1)
    as (s1 & E & H & _);
    [by apply demo_pair_socket; auto|by apply demo_pair_socket; auto|vm_compute; reflexivity|reflexivity|vm_compute; reflexivity|cbn; lia|lia|lia|lia
    |exact User.demo_bytes|reflexivity|lia|].
  exists s1. split; [exact E|]. exact H.
Defined.

(** ** Descriptors that share a socket *)

Lemma close_socket fd s : socket_at fd s → close_fd fd s = (Ok 0, set_slot fd None false (on_net (cleanup_socket_fd fd) s)).
Proof.
  intros (Hr & Hfd & h & Hh & Ht). unfold close_fd. rewrite bind_init by done. unfold MAX_FDS. rewrite (proj2 (Z.leb_gt 1024 fd)) by lia.
  unfold slot. kstep. rewrite Hh. kstep. unfold is_socket. by rewrite bool_decide_eq_true_2.
Qed.

Lemma cleanup_shared fd fd2 o n : fd ≠ fd2 → SOCKET_ALIAS n !! fd = Some o → SOCKET_ALIAS n !! fd2 = Some o →
  cleanup_socket_fd fd n = set_alias (delete fd (SOCKET_ALIAS n)) n.
Proof.
  intros Hne H1 H2. unfold cleanup_socket_fd, owner_of. rewrite H1. cbn [default].
  rewrite (proj2 (has_alias_spec o _)); [done|]. exists fd2. cbn. by rewrite lookup_delete_ne.
Qed.

Lemma alloc_socket_at cpu dom typ proto fd s : ready s → lowest_free s 3 fd →
  ∃ st s', alloc_socket_fd cpu dom typ proto s = (Ok fd, s') ∧ net s' = register_socket fd st (net s) ∧ connected st = false ∧ domain st = dom.
Proof.
  intros Hr Hf. unfold alloc_socket_fd. kstep. destruct (current_creds _ _) as [[[uid gid] euid] egid].
  set (f := mkFile None 0 0 Socket None). set (s0 := set_objs (<[NEXT_FILE s := f]> (FILES s)) (NEXT_FILE s + 1) s).
  rewrite (bind_ok _ _ _ (NEXT_FILE s) s0) by done. assert (ready s0) as Hr0 by exact Hr. assert (lowest_free s0 3 fd) as Hf0 by exact Hf.
  rewrite (bind_ok _ _ _ fd (set_slot fd (Some (NEXT_FILE s)) false s0)) by (by apply alloc_fd_at).
  eexists _, _. split; [unfold upd; kstep; reflexivity|done].
Qed.

(** Sockets are keyed by the number of the descriptor that created them, and
    that number can be reused while the socket lives on behind a duplicate: when
    [fd] is closed while [fd2] shares its socket, [socket] hands [fd] out again and
    the two descriptors then name one socket, whose state (a connection of [fd2]
    included) has been replaced by a fresh unconnected one. *)
Theorem reused_fd_replaces_socket cpu typ proto fd fd2 s : socket_at fd s → fd ≠ fd2 →
  SOCKET_ALIAS (net s) !! fd = Some fd → SOCKET_ALIAS (net s) !! fd2 = Some fd → 3 ≤ fd → (∀ k, 3 ≤ k < fd → is_open s k = true) →
  ∃ s1 s2 st, close_fd fd s = (Ok 0, s1) ∧ SOCKET_STATE (net s1) = SOCKET_STATE (net s) ∧
    do_socket cpu AF_UNIX typ proto s1 = (Ok fd, s2) ∧
    owner_of fd (net s2) = owner_of fd2 (net s2) ∧ SOCKET_STATE (net s2) !! owner_of fd2 (net s2) = Some st ∧ connected st = false.
Proof.
  intros Hs Hne H1 H2 H3 Hlow. pose proof Hs as (Hr & Hfd & _).
  set (s1 := set_slot fd None false (on_net (cleanup_socket_fd fd) s)).
  assert (ready s1) as Hr1 by (by apply set_slot_ready).
  assert (net s1 = set_alias (delete fd (SOCKET_ALIAS (net s))) (net s)) as En1 by (apply (cleanup_shared fd fd2 fd); done).
  assert (lowest_free s1 3 fd) as Hf1.
  { split; [lia|]. unfold s1. split.
    - by rewrite set_slot_lookup, bool_decide_eq_true_2 by (done || lia).
    - intros k Hk. specialize (Hlow k Hk). unfold is_open in *. rewrite set_slot_lookup, bool_decide_eq_false_2 by (done || lia). done. }
  destruct (alloc_socket_at cpu AF_UNIX typ proto fd s1 Hr1 Hf1) as (st & s2 & E & En & Hc & _).
  exists s1, s2, st. split; [by apply close_socket|]. rewrite En1. split; [done|]. split; [exact E|].
  assert (owner_of fd2 (net s2) = fd) as Eo.
  { rewrite En, En1. unfold owner_of. cbn. by rewrite lookup_insert_ne, lookup_delete_ne, H2. }
  rewrite Eo, En. unfold owner_of. cbn. split; [by rewrite lookup_insert, decide_True|]. split; [|done]. by rewrite lookup_insert, decide_True.
Qed.

(** Descriptor 3 of the pair duplicated as 5. *)
Definition demo_dup : Os := on_net (clone_socket_fd 3 5) demo_pair.

Lemma reused_fd_replaces_socket_witness : ∃ s1 s2 st, close_fd 3 demo_dup = (Ok 0, s1) ∧ do_socket 0 AF_UNIX 1 0 s1 = (Ok 3, s2) ∧
  (connected <$> SOCKET_STATE (net demo_dup) !! owner_of 5 (net demo_dup)) = Some true ∧
  SOCKET_STATE (net s2) !! owner_of 5 (net s2) = Some st ∧ connected st = false.
Proof.
  destruct (reused_fd_replaces_socket 0 1 0 3 5 demo_dup) as (s1 & s2 & st & E1 & _ & E2 & _ & E3 & E4);
    [exact (demo_pair_socket 3 (or_introl eq_refl))|done|vm_compute; reflexivity|vm_compute; reflexivity|lia|intros; lia|].
  exists s1, s2, st. split; [exact E1|]. split; [exact E2|]. split; [vm_compute; reflexivity|]. split; [exact E3|exact E4].
Defined.

(** A refused connection on an internet socket hangs the kernel: with no
    listener at the address, [connect] records the error on the socket while it
    still holds the lock of the socket table, which recording the error takes
    again. *)
Theorem connect_refused_hangs root fd addr addrlen st port ip s : socket_at fd s →
  SOCKET_STATE (net s) !! owner_of fd (net s) = Some st → connected st = false → domain st = AF_INET →
  read_sockaddr_in root addr addrlen s = (Ok (port, ip), s) →
  (∀ o l, SOCKET_STATE (net s) !! o = Some l → listening l = true → clashes port ip l = false) →
  do_connect root fd addr addrlen s = (Panic, s).
Proof.
  intros Hs Hst Hc Hd Ha Hno. unfold do_connect. rewrite bind_ensure by done. unfold owner, sock. kstep. unfold state_of. rewrite Hst.
  kstep. rewrite Hc, Hd. change (AF_INET =? AF_UNIX) with false. cbv iota. rewrite (bind_ok _ _ _ _ _ Ha). kstep.
  destruct (filter _ _) as [|[o l] ?] eqn:E; [done|]. exfalso.
  assert ((o, l) ∈ filter (λ e : Z * SocketState, listening e.2 && clashes port ip e.2 = true) (bentries (SOCKET_STATE (net s)))) as Hin
    by (rewrite E; left).
  apply list_elem_of_filter in Hin as [Hl Hin]. apply andb_true_iff in Hl as [Hl Hcl]. apply elem_of_bentries in Hin.
  cbn in Hcl, Hl. by rewrite (Hno _ _ Hin Hl) in Hcl.
Qed.

(** The address of port 80 on the local host at 0x400000, and an internet socket. *)
Definition demo_inet : Os :=
  on_net (register_socket 3 (new_state AF_INET 1 0 1 0 0))
    (on_net (λ _, no_sockets)
      (set_sig (set_kern (set_mach (mkMach (Pmm.mkPmm [] 0 0) (wr64 User.demo_mem 0x9000 0x0100007F50000002)) (kern (sig demo_pair))) (sig demo_pair)) demo_pair)).

Lemma demo_inet_addr : user_bytes (ram demo_inet) 4096 0x400000 16 = Some ([2; 0; 0; 80; 127; 0; 0; 1] ++ replicate 8 7).
Proof. vm_compute. reflexivity. Qed.

Lemma connect_refused_hangs_witness : do_connect 4096 3 0x400000 16 demo_inet = (Panic, demo_inet).
Proof.
  apply (connect_refused_hangs 4096 3 0x400000 16 (new_state AF_INET 1 0 1 0 0) 80 0x7F000001 demo_inet).
  - exact (demo_pair_socket 3 (or_introl eq_refl)).
  - vm_compute. reflexivity.
  - reflexivity.
  - reflexivity.
  - unfold read_sockaddr_in. change ((0x400000 =? 0) || (16 <? 8)) with false. cbv iota.
    rewrite (bind_ok _ _ _ _ demo_inet (ucopy_in_ok 4096 0x400000 16 _ demo_inet ltac:(lia) ltac:(lia) demo_inet_addr)). reflexivity.
  - intros o l Hl Hls. assert (SOCKET_STATE (net demo_inet) = {[3 := new_state AF_INET 1 0 1 0 0]}) as E by (vm_compute; reflexivity).
    rewrite E in Hl. apply lookup_singleton_Some in Hl as [_ <-]. discriminate Hls.
Defined.
