(* ===== verification/Poll.v ===== *)
(** * Waiting for descriptors ([fs/mod.rs], [syscall/io.rs])

    Interest lists (epoll), [ppoll], and the descriptors made to be waited for:
    event counters, timers, signal descriptors.

    A waiting call looks, sleeps one tick and looks again.  The counter at the
    [i]th look is [clock i]; what the rest of the system does while the caller
    sleeps for the [i]th time is [between i], any function on states.  [wait_loop]
    takes as fuel the number of looks; its result [None] is a call that is still
    waiting. *)

From S2P Require Import Prelude.
From S2P Require Import Paging.
From S2P Require Import User.
From S2P Require Import Pty.
From S2P Require Import Kernel.
From S2P Require Import Signal.
From S2P Require Import Vfs.
From S2P Require Import Sock.
From S2P Require Import Input.
From S2P Require Import File.
From S2P Require Import FileOps.
From S2P Require Import FsSys.
From S2P Require Import NetSys.

Definition EPOLL_CLOEXEC : Z := 0x80000.
Definition EPOLL_CTL_ADD : Z := 1.
Definition EPOLL_CTL_DEL : Z := 2.
Definition EPOLL_CTL_MOD : Z := 3.
Definition EPOLLIN : Z := 0x1.
Definition EPOLLOUT : Z := 0x4.
Definition EPOLLERR : Z := 0x8.
Definition EPOLLHUP : Z := 0x10.
Definition POLLNVAL : Z := 0x20.

(** [ready |= EPOLLIN] under a condition. *)
Definition in_if (b : bool) : Z := if b then POLLIN else 0.

(** A terminal has input for one of its sides. *)
Definition pty_has_input (sd : option SpecialData) (y : Pty.Sys) : bool :=
  match sd with
  | Some (PtyMasterOf i) => negb (i =? 0xFFFFFFFF) && nonempty (master_rx <$> get_pty y i)
  | Some (PtySlaveOf i) => negb (i =? 0xFFFFFFFF) && nonempty (slave_rx <$> get_pty y i)
  | _ => false
  end.

Section Poll.
Context (cpu : nat) (root freq : Z).

(** The counter frequency as the conversions use it. *)
Definition hz : Z := Z.max freq 1.

(** What a file is ready for, by its type; [h] is locked meanwhile. *)
Definition file_ready (now fd h : Z) : M Os Z :=
  let! s := get in
  let f := file s h in
  let sd := special_data f in
  match ftype f with
  | Regular | Directory | CharDevice | MemFd | PidFd => ret (Z.lor POLLIN POLLOUT)
  | Pipe => ret (Z.lor (in_if match sd with Some (PipeBuffer b) => nonempty (PIPES s !! b) | _ => false end) POLLOUT)
  | EventFd => ret (Z.lor (in_if match sd with Some (EventFdVal v) => 0 <? v | _ => false end) POLLOUT)
  | TimerFd =>
      ret (in_if match sd with
        | Some (TimerFdState nd _ pe) => (0 <? pe) || (negb (nd =? 0) && (nd <=? now))
        | _ => false
        end)
  | SignalFd => ret (in_if match sd with Some (SignalFdMask m) => signalfd_ready cpu m (sig s) | _ => false end)
  | Socket => poll_mask (Some h) fd
  | PtyMaster | PtySlave => ret (Z.lor (in_if (pty_has_input sd (ptys s))) POLLOUT)
  | Epoll => ret 0
  end.

(** ** Interest lists *)

Definition epoll_create1 (fl : Z) : M Os Z :=
  if has fl (not64 EPOLL_CLOEXEC) then fail EINVAL else
  let! h := alloc_file new_epoll in
  let! epfd := alloc_fd h in
  modify (λ s, set_epolls (match EPOLL_TABLE s !! epfd with Some _ => EPOLL_TABLE s | None => <[epfd := ∅]> (EPOLL_TABLE s) end) s) ;;;
  ret epfd.

(** The open file behind an epoll descriptor. *)
Definition epoll_file (epfd : Z) : M Os () :=
  let! h := get_file epfd in
  let! b := gets (λ s, bool_decide (ftype (file s h) = Epoll)) in
  if (b : bool) then ret tt else fail EINVAL.

Definition set_watches (epfd : Z) (w : gmap Z EpollWatch) (s : Os) : Os := set_epolls (<[epfd := w]> (EPOLL_TABLE s)) s.

Definition read_watch (event : Z) : M Os EpollWatch :=
  let! raw := ucopy_in root event 16 in
  ret (mkWatch (from_le (slice 0 4 raw)) (from_le (slice 8 16 raw))).

Definition epoll_ctl (epfd op fd event : Z) : M Os Z :=
  if (epfd <? 0) || (fd <? 0) || (epfd =? fd) then fail EINVAL else
  epoll_file epfd ;;;
  get_file fd ;;;
  let! o := gets (λ s, EPOLL_TABLE s !! epfd) in
  let! watches := ok_or o EBADF in
  if (op =? EPOLL_CTL_ADD) || (op =? EPOLL_CTL_MOD) then
    if event =? 0 then fail EINVAL else
    let! w := read_watch event in
    match op =? EPOLL_CTL_ADD, watches !! fd with
    | true, Some _ => fail EEXIST
    | false, None => fail ENOENT
    | _, _ => modify (set_watches epfd (<[fd := w]> watches)) ;;; ret 0
    end
  else if op =? EPOLL_CTL_DEL then
    match watches !! fd with
    | None => fail ENOENT
    | Some _ => modify (set_watches epfd (delete fd watches)) ;;; ret 0
    end
  else fail EINVAL.

Definition ready_mask_for_fd (now fd interest : Z) : M Os Z :=
  let! r := try (get_file fd) in
  match r with
  | inr _ => ret EPOLLHUP
  | inl h => let! m := file_ready now fd h in ret (Z.land m (Z.lor interest (Z.lor EPOLLERR EPOLLHUP)))
  end.

(** The records of one look, at most [max] of them. *)
Definition event_record (mask data : Z) : list Z := to_le 4 mask ++ replicate 4 0 ++ to_le 8 data.
Fixpoint epoll_scan (now : Z) (max : nat) (l : list (Z * EpollWatch)) (acc : list (list Z)) : M Os (list (list Z)) :=
  match l with
  | [] => ret acc
  | (fd, w) :: l' =>
      let! mask := ready_mask_for_fd now fd (w_events w) in
      if mask =? 0 then epoll_scan now max l' acc
      else
        let acc := acc ++ [event_record mask (w_data w)] in
        if bool_decide (max ≤ length acc)%nat then ret acc else epoll_scan now max l' acc
  end.

Definition expired (deadline : option Z) (now : Z) : bool :=
  match deadline with Some dl => dl <=? now | None => false end.

(** One look: the records, none of them at the end of the wait. *)
Definition epoll_look (epfd maxevents timeout : Z) (deadline : option Z) (now : Z) : M Os (option (list (list Z))) :=
  let! snapshot := gets (λ s, default ∅ (EPOLL_TABLE s !! epfd)) in
  let! ready_list := epoll_scan now (Z.to_nat maxevents) (bentries snapshot) [] in
  match ready_list with
  | _ :: _ => ret (Some ready_list)
  | [] => if (timeout =? 0) || expired deadline now then ret (Some []) else ret None
  end.

(** Record [i] goes to [events + i * 16]. *)
Fixpoint copy_records (events i : Z) (l : list (list Z)) : M Os () :=
  match l with
  | [] => ret tt
  | rec :: l' => let! dst := or_panic (add64 events (i * 16)) in ucopy_out root dst rec ;;; copy_records events (i + 1) l'
  end.

Section Wait.
Context (clock : nat → Z) (between : nat → Os → Os).

Fixpoint wait_loop {A} (look : Z → M Os (option A)) (fuel i : nat) : M Os (option A) :=
  match fuel with
  | O => ret None
  | S fuel' =>
      let! r := look (clock i) in
      match r with
      | Some a => ret (Some a)
      | None => modify (between i) ;;; wait_loop look fuel' (S i)
      end
  end.

Definition epoll_deadline (start timeout : Z) : option Z :=
  if 0 <? timeout then Some (saturating_add start (saturating_mul timeout hz / 1000)) else None.

Definition epoll_pwait (looks : nat) (start epfd events maxevents timeout : Z) : M Os (option Z) :=
  if (epfd <? 0) || (maxevents <=? 0) || (events =? 0) then fail EINVAL else
  if timeout <? -1 then fail EINVAL else
  epoll_file epfd ;;;
  let! r := wait_loop (epoll_look epfd maxevents timeout (epoll_deadline start timeout)) looks 0 in
  match r with
  | None => ret None
  | Some l => copy_records events 0 l ;;; ret (Some (Z.of_nat (length l)))
  end.

(** [SigmaskGuard]: the mask is put back when the call returns, with a result or
    an error. *)
Definition with_sigmask (sigmask : Z) (m : M Os (option Z)) : M Os (option Z) :=
  if sigmask =? 0 then m else
  let! raw := ucopy_in root sigmask 8 in
  let! old := on_sig (replace_current_sigmask cpu (from_le raw)) in
  let! r := try m in
  match r with
  | inl None => ret None
  | inl (Some n) => on_sig (replace_current_sigmask cpu old) ;;; ret (Some n)
  | inr e => on_sig (replace_current_sigmask cpu old) ;;; fail e
  end.

Definition sys_epoll_pwait (looks : nat) (start epfd events maxevents timeout sigmask : Z) : M Os (option Z) :=
  with_sigmask sigmask (epoll_pwait looks start epfd events maxevents timeout).

(** ** [ppoll] *)

(** [events] and [revents] as the sixteen bits in memory. *)
Record PollFd := mkPoll { p_fd : Z; p_events : Z; p_revents : Z }.

Definition fd_ready_mask (now fd interest : Z) : M Os Z :=
  let! r := try (get_file (fd mod 2 ^ 32)) in
  match r with
  | inr _ => ret POLLNVAL
  | inl h => let! m := file_ready now fd h in ret (Z.land m (Z.lor interest (Z.lor POLLERR (Z.lor POLLHUP POLLNVAL))))
  end.

Definition read_pollfd (raw : list Z) : PollFd := mkPoll (as_i32 (from_le (slice 0 4 raw))) (from_le (slice 4 6 raw)) (from_le (slice 6 8 raw)).
Definition pollfd_bytes (p : PollFd) : list Z := to_le 4 (p_fd p mod 2 ^ 32) ++ to_le 2 (p_events p) ++ to_le 2 (p_revents p).

Fixpoint read_pollfds (n : nat) (raw : list Z) : list PollFd :=
  match n with
  | O => []
  | S n' => read_pollfd (take 8 raw) :: read_pollfds n' (drop 8 raw)
  end.

Definition with_revents (m : Z) (p : PollFd) : PollFd := mkPoll (p_fd p) (p_events p) m.

Fixpoint poll_scan (now : Z) (l : list PollFd) : M Os (list PollFd * Z) :=
  match l with
  | [] => ret ([], 0)
  | p :: l' =>
      let! mask := (if p_fd p <? 0 then ret 0 else fd_ready_mask now (p_fd p) (p_events p)) in
      let! r := poll_scan now l' in
      ret (with_revents mask p :: r.1, r.2 + if mask =? 0 then 0 else 1)
  end.

Definition poll_look (pollfds : list PollFd) (immediate : bool) (deadline : option Z) (now : Z) : M Os (option (list PollFd * Z)) :=
  let! r := poll_scan now pollfds in
  if (0 <? r.2) || immediate || expired deadline now then ret (Some r) else ret None.

(** [timespec_to_ticks], which [sys_ppoll] repeats. *)
Definition timespec_to_ticks (sec nsec : Z) : M Os Z :=
  if 1000000000 <=? nsec then fail EINVAL else
  ret (saturating_add (saturating_mul sec hz) (saturating_mul nsec hz / 1000000000)).

Definition poll_timeout (start timeout : Z) : M Os (bool * option Z) :=
  if timeout =? 0 then ret (false, None) else
  let! raw := ucopy_in root timeout 16 in
  let sec := from_le (slice 0 8 raw) in
  let nsec := from_le (slice 8 16 raw) in
  let! ticks := timespec_to_ticks sec nsec in
  ret ((sec =? 0) && (nsec =? 0), Some (saturating_add start ticks)).

Definition sys_ppoll (looks : nat) (start fds nfds timeout sigmask : Z) : M Os (option Z) :=
  if fds =? 0 then fail EFAULT else
  if nfds =? 0 then ret (Some 0) else
  if 4096 <? nfds then fail EINVAL else
  with_sigmask sigmask
    (let! raw := ucopy_in root fds (8 * Z.to_nat nfds) in
     let pollfds := read_pollfds (Z.to_nat nfds) raw in
     let! t := poll_timeout start timeout in
     let! r := wait_loop (poll_look pollfds t.1 t.2) looks 0 in
     match r with
     | None => ret None
     | Some (l, n) => ucopy_out root fds (concat (pollfd_bytes <$> l)) ;;; ret (Some n)
     end).
End Wait.

(** ** Descriptors to wait for *)

Definition ticks_to_timespec (ticks : Z) : Z * Z :=
  (ticks / hz, saturating_mul (ticks mod hz) 1000000000 / hz).

Definition with_flags (f : FileObject) (nonblock : bool) : FileObject := if nonblock then set_flags (Z.lor (flags f) NONBLOCK) f else f.

Definition timerfd_create (fl : Z) : M Os Z :=
  if has fl (not64 (Z.lor 0x80000 0x800)) then fail EINVAL else
  let! h := alloc_file (with_flags new_timerfd (has fl 0x800)) in
  let! fd := alloc_fd h in
  when (has fl 0x80000) (ignore (set_cloexec fd true)) ;;; ret fd.

(** The state of a timer that is set at counter value [now]. *)
Definition arm_timer (now value interval : Z) (abstime : bool) : option SpecialData :=
  if value =? 0 then Some (TimerFdState 0 interval 0)
  else if abstime then
    if value <=? now then
      if 0 <? interval then
        periods ← add64 (saturating_sub now value / interval) 1;
        Some (TimerFdState (saturating_add value (saturating_mul periods interval)) interval 1)
      else Some (TimerFdState value interval 1)
    else Some (TimerFdState value interval 0)
  else Some (TimerFdState (saturating_add now value) interval 0).

Definition timer_report (now : Z) (sd : option SpecialData) : list Z :=
  match sd with
  | Some (TimerFdState nd it _) =>
      let r := ticks_to_timespec (if now <? nd then nd - now else 0) in
      let i := ticks_to_timespec it in
      to_le 8 i.1 ++ to_le 8 i.2 ++ to_le 8 r.1 ++ to_le 8 r.2
  | _ => replicate 32 0
  end.

Definition timerfd_settime (now fd fl new_value old_value : Z) : M Os Z :=
  if (fd <? 0) || (new_value =? 0) then fail EINVAL else
  if has fl (not64 1) then fail EINVAL else
  let! h := get_file fd in
  let! f := gets (λ s, file s h) in
  if negb (bool_decide (ftype f = TimerFd)) then fail EBADF else
  let! raw := ucopy_in root new_value 32 in
  let! interval := timespec_to_ticks (from_le (slice 0 8 raw)) (from_le (slice 8 16 raw)) in
  let! value := timespec_to_ticks (from_le (slice 16 24 raw)) (from_le (slice 24 32 raw)) in
  when (negb (old_value =? 0)) (ucopy_out root old_value (timer_report now (special_data f))) ;;;
  match special_data f with
  | Some (TimerFdState _ _ _) => let! sd := or_panic (arm_timer now value interval (has fl 1)) in modify (on_file h (set_special sd))
  | _ => ret tt
  end ;;; ret 0.

Definition signalfd4 (fd mask sizemask fl : Z) : M Os Z :=
  if negb (sizemask =? 8) then fail EINVAL else
  if has fl (not64 (Z.lor 0x80000 0x800)) then fail EINVAL else
  let! raw := ucopy_in root mask 8 in
  let sigmask := from_le raw in
  if 0 <=? fd then
    let! h := get_file fd in
    let! f := gets (λ s, file s h) in
    if negb (bool_decide (ftype f = SignalFd)) then fail EBADF else
    modify (on_file h (set_special (SignalFdMask sigmask))) ;;;
    modify (on_file h (λ f, set_flags (if has fl 0x800 then Z.lor (flags f) NONBLOCK else Z.land (flags f) (not64 NONBLOCK)) f)) ;;;
    ignore (set_cloexec fd (has fl 0x80000)) ;;; ret fd
  else
    let! h := alloc_file (with_flags (new_signalfd sigmask) (has fl 0x800)) in
    let! newfd := alloc_fd h in
    when (has fl 0x80000) (ignore (set_cloexec newfd true)) ;;; ret newfd.
End Poll.

(** ** One look *)

Section Look.
Context (cpu : nat) (now : Z).

(** [fd] does not name an open socket. *)
Definition no_socket (s : Os) (fd : Z) : Prop :=
  0 ≤ fd ∧ ∀ h, fd_files s !! Z.to_nat fd = Some (Some h) → ftype (file s h) ≠ Socket.

(** The mask of a watched descriptor. *)
Definition mask_at (s : Os) (e : Z * EpollWatch) : Z :=
  match ready_mask_for_fd cpu now e.1 (w_events e.2) s with (Ok m, _) => m | _ => 0 end.

(** The records of the ready descriptors of a list. *)
Definition records (s : Os) (l : list (Z * EpollWatch)) : list (list Z) :=
  omap (λ e, if mask_at s e =? 0 then None else Some (event_record (mask_at s e) (w_data e.2))) l.

Lemma get_file_total s fd : ready s → 0 ≤ fd → (∃ h, get_file fd s = (Ok h, s) ∧ fd_files s !! Z.to_nat fd = Some (Some h)) ∨
  (get_file fd s = (Err EBADF, s) ∧ (fd < 1024 → fd_files s !! Z.to_nat fd = Some None)).
Proof.
  intros Hr Hfd. destruct (decide (fd < 1024)) as [Hlt|Hge].
  - destruct (slot_ready s fd Hr ltac:(lia)) as ([h|] & Hs & E).
    + left. exists h. split; [by apply get_file_ready|done].
    + right. split; [|done]. unfold get_file. rewrite bind_init by done. unfold MAX_FDS. rewrite (proj2 (Z.leb_gt 1024 fd)) by lia.
      by rewrite (bind_ok _ _ _ _ _ E).
  - right. split; [|lia]. unfold get_file. rewrite bind_init by done. unfold MAX_FDS. by rewrite (proj2 (Z.leb_le 1024 fd)) by lia.
Qed.

Lemma try_ok {S A B} (m : M S A) (k : A + Z → M S B) s a s' : m s = (Ok a, s') → bind (try m) k s = k (inl a) s'.
Proof. intros E. unfold bind, try. by rewrite E. Qed.
Lemma try_err {S A B} (m : M S A) (k : A + Z → M S B) s e s' : m s = (Err e, s') → bind (try m) k s = k (inr e) s'.
Proof. intros E. unfold bind, try. by rewrite E. Qed.

Lemma file_ready_total s fd h : ftype (file s h) ≠ Socket → ∃ m, file_ready cpu now fd h s = (Ok m, s).
Proof. intros Hn. unfold file_ready. kstep. destruct (ftype (file s h)); try done; eexists; reflexivity. Qed.

Lemma ready_mask_total s fd i : ready s → no_socket s fd → ∃ m, ready_mask_for_fd cpu now fd i s = (Ok m, s).
Proof.
  intros Hr [Hfd Hns]. unfold ready_mask_for_fd. destruct (get_file_total s fd Hr Hfd) as [(h & E & Hh)|[E _]].
  - rewrite (try_ok _ _ _ _ _ E). destruct (file_ready_total s fd h (Hns h Hh)) as [m Em]. rewrite (bind_ok _ _ _ _ _ Em). by eexists.
  - rewrite (try_err _ _ _ _ _ E). by eexists.
Qed.

Lemma epoll_scan_take s max l : ∀ acc, ready s → Forall (no_socket s) l.*1 → (length acc < max)%nat →
  epoll_scan cpu now max l acc s = (Ok (acc ++ take (max - length acc) (records s l)), s).
Proof.
  induction l as [|[fd w] l IH]; intros acc Hr Hl Hm; cbn [epoll_scan].
  { cbn. by rewrite take_nil, app_nil_r. }
  cbn in Hl. apply Forall_cons in Hl as [Hfd Hl]. destruct (ready_mask_total s fd (w_events w) Hr Hfd) as [m Em].
  assert (mask_at s (fd, w) = m) as Emask by (unfold mask_at; cbn; by rewrite Em).
  rewrite (bind_ok _ _ _ _ _ Em). change (records s ((fd, w) :: l)) with
    (match (if mask_at s (fd, w) =? 0 then None else Some (event_record (mask_at s (fd, w)) (w_data w))) with
     | Some r => r :: records s l | None => records s l end).
  rewrite Emask. destruct (m =? 0); [by apply IH|].
  set (r := event_record m (w_data w)). destruct (bool_decide _) eqn:Eb.
  - apply bool_decide_eq_true in Eb. rewrite length_app in Eb. cbn in Eb. replace (max - length acc)%nat with 1%nat by lia. done.
  - apply bool_decide_eq_false in Eb. rewrite length_app in Eb. cbn in Eb. rewrite IH by (rewrite ?length_app; done || (cbn; lia)).
    rewrite length_app, <- app_assoc. cbn [length]. replace (max - length acc)%nat with (S (max - (length acc + 1)))%nat by lia. done.
Qed.
End Look.

(** The watches of an epoll descriptor, in increasing order. *)
Definition watches (epfd : Z) (s : Os) : list (Z * EpollWatch) := bentries (default ∅ (EPOLL_TABLE s !! epfd)).
(** Every look can run: the table is set up and no watch is on a socket. *)
Definition lookable (epfd : Z) (s : Os) : Prop := ready s ∧ Forall (no_socket s) (watches epfd s).*1.

Lemma epoll_look_spec cpu epfd maxevents timeout dl now s : lookable epfd s → 0 < maxevents →
  epoll_look cpu epfd maxevents timeout dl now s =
    (Ok (match take (Z.to_nat maxevents) (records cpu now s (watches epfd s)) with
         | [] => if (timeout =? 0) || expired dl now then Some [] else None
         | l => Some l
         end), s).
Proof.
  intros [Hr Hl] Hm. unfold epoll_look. rewrite bind_gets. change (bentries _) with (watches epfd s).
  rewrite (bind_ok _ _ _ _ _ (epoll_scan_take cpu now s (Z.to_nat maxevents) _ [] Hr Hl ltac:(cbn; lia))). cbn [length app]. rewrite Nat.sub_0_r.
  destruct (take _ _); [|done]. by destruct (_ || _).
Qed.

(** A poll of an interest list ([epoll_pwait] with timeout zero) reports exactly
    the watched descriptors that are ready, in increasing order and at most
    [maxevents] of them, one record each. *)
Theorem epoll_reports_ready cpu root freq clock between looks start epfd events maxevents s :
  lookable epfd s → 0 ≤ epfd → 0 < maxevents → events ≠ 0 → (0 < looks)%nat → epoll_file epfd s = (Ok tt, s) →
  let l := take (Z.to_nat maxevents) (records cpu (clock 0%nat) s (watches epfd s)) in
  epoll_pwait cpu root freq clock between looks start epfd events maxevents 0 s =
    (copy_records root events 0 l ;;; ret (Some (Z.of_nat (length l)))) s.
Proof.
  intros Hl He Hm Hev Hlk Hf l. unfold epoll_pwait.
  rewrite (proj2 (Z.ltb_ge epfd 0)), (proj2 (Z.leb_gt maxevents 0)), (proj2 (Z.eqb_neq events 0)) by lia. cbn [orb Z.ltb Z.compare].
  rewrite (bind_ok _ _ _ _ _ Hf). destruct looks as [|looks]; [lia|]. cbn [wait_loop]. unfold bind at 1 2.
  rewrite epoll_look_spec by done. fold l. by destruct l.
Qed.

(** A watch on an event counter of 1 at descriptor 3, in an interest list at 4. *)
Definition demo_watch : Os :=
  set_watches 4 {[3 := mkWatch EPOLLIN 9]}
    (set_fds (<[3%nat := Some 5]> (<[4%nat := Some 6]> (fd_files demo_ready))) (fd_cloexec demo_ready)
      (set_objs {[5 := new_eventfd 1; 6 := new_epoll]} 7 demo_ready)).

Lemma demo_lookable : lookable 4 demo_watch.
Proof.
  split; [split; reflexivity|]. assert (watches 4 demo_watch = [(3, mkWatch EPOLLIN 9)]) as -> by (vm_compute; reflexivity).
  constructor; [|constructor]. split; [done|]. intros h Hh. vm_compute in Hh. simplify_eq. by vm_compute.
Qed.

Lemma epoll_reports_ready_witness : ∃ l, l = [event_record EPOLLIN 9] ∧
  epoll_pwait 0 4096 0 (λ _, 0) (λ _ s, s) 1 0 4 0x400000 8 0 demo_watch = (copy_records 4096 0x400000 0 l ;;; ret (Some 1)) demo_watch.
Proof.
  exists [event_record EPOLLIN 9]. split; [reflexivity|].
  rewrite (epoll_reports_ready 0 4096 0 (λ _, 0) (λ _ s, s) 1 0 4 0x400000 8 demo_watch demo_lookable); [|lia|lia|lia|lia|vm_compute; reflexivity].
  assert (take (Z.to_nat 8) (records 0 0 demo_watch (watches 4 demo_watch)) = [event_record EPOLLIN 9]) as -> by (vm_compute; reflexivity).
  reflexivity.
Defined.

(** ** The wait *)

(** The state at look [k]: the rest of the system has run [k] times in between. *)
Definition at_look (between : nat → Os → Os) (s : Os) (k : nat) : Os := foldl (λ s j, between j s) s (seq 0 k).

Lemma at_look_S between s k : at_look between s (S k) = between k (at_look between s k).
Proof. unfold at_look. by rewrite seq_S, foldl_app. Qed.

(** Looks that change nothing: the wait ends with the first that finds something. *)
Lemma wait_first {A} clock between (look : Z → M Os (option A)) s (r : nat → option A) n :
  (∀ k, (k ≤ n)%nat → look (clock k) (at_look between s k) = (Ok (r k), at_look between s k)) →
  ∀ m i a, (i + m = n)%nat → r n = Some a → ∃ k b, (i ≤ k ≤ n)%nat ∧ r k = Some b ∧ (∀ j, (i ≤ j < k)%nat → r j = None) ∧
    wait_loop clock between look (S m) i (at_look between s i) = (Ok (Some b), at_look between s k).
Proof.
  intros Hl m. induction m as [|m IH]; intros i a Hi Ha; cbn [wait_loop]; rewrite (bind_ok _ _ _ _ _ (Hl i ltac:(lia)));
    (destruct (r i) as [b|] eqn:Er; [exists i, b; split_and!; [lia|lia|done|intros; lia|done]|]).
  - replace n with i in Ha by lia. congruence.
  - rewrite bind_modify, <- at_look_S. destruct (IH (S i) a ltac:(lia) Ha) as (k & b & Hk & Eb & Hn & E).
    exists k, b. split; [lia|]. split; [done|]. split; [|exact E]. intros j Hj. destruct (decide (j = i)) as [->|]; [done|]. apply Hn. lia.
Qed.

(** C28. A wait on an interest list with a timeout ends, provided the list has no
    socket in it at any of the looks, whatever else the rest of the system does in
    between (on a socket a look does not return): when the counter has passed the deadline at look
    [n], the wait ends at a look [k] no later than that: with the records, in order
    and at most [maxevents], of the descriptors that are ready at look [k], and
    with none only if the deadline has passed then.  No descriptor was ready at an
    earlier look, and the wait itself changes nothing. *)
Theorem epoll_wait_ends cpu freq clock between start epfd maxevents timeout n s : 0 < timeout → 0 < maxevents →
  let deadline := Z.min (start + Z.min (timeout * hz freq) (2 ^ 64 - 1) / 1000) (2 ^ 64 - 1) in
  let state k := foldl (λ s j, between j s) s (seq 0 k) in
  let found k := records cpu (clock k) (state k) (watches epfd (state k)) in
  (∀ k, (k ≤ n)%nat → lookable epfd (state k)) → deadline ≤ clock n →
  ∃ k l, (k ≤ n)%nat ∧ l = take (Z.to_nat maxevents) (found k) ∧ (l = [] → deadline ≤ clock k) ∧
    (∀ j, (j < k)%nat → found j = [] ∧ clock j < deadline) ∧
    wait_loop clock between (epoll_look cpu epfd maxevents timeout (epoll_deadline freq start timeout)) (S n) 0 s = (Ok (Some l), state k).
Proof.
  intros Ht Hm deadline state found Hs Hn. set (dl := epoll_deadline freq start timeout).
  assert (∀ t, expired dl t = (deadline <=? t)) as Hdl by (intros t; unfold dl, epoll_deadline; by rewrite (proj2 (Z.ltb_lt 0 timeout)) by lia).
  set (r k := match take (Z.to_nat maxevents) (found k) with [] => if deadline <=? clock k then Some [] else None | l => Some l end).
  destruct (wait_first clock between (epoll_look cpu epfd maxevents timeout dl) s r n) with (m := n) (i := 0%nat) (a := take (Z.to_nat maxevents) (found n))
    as (k & l & Hk & El & Hj & E).
  - intros k Hk. rewrite epoll_look_spec by (done || by apply Hs). fold (state k) (found k). rewrite (proj2 (Z.eqb_neq timeout 0)), Hdl by lia. done.
  - done.
  - unfold r. rewrite (proj2 (Z.leb_le _ _) Hn). by destruct (take _ (found n)).
  - exists k, l. split; [lia|]. unfold r in El, Hj. assert (∀ {A} (l : list A), take (Z.to_nat maxevents) l = [] → l = []) as Htake
      by (intros A [|x l']; [done|]; destruct (Z.to_nat maxevents) eqn:Em; [lia|done]).
    split; [|split; [|split; [|exact E]]].
    + destruct (take _ (found k)); [|by simplify_eq]. by destruct (deadline <=? clock k); simplify_eq.
    + intros ->. destruct (take _ (found k)); [|done]. by destruct (Z.leb_spec deadline (clock k)).
    + intros j Hjk. specialize (Hj j ltac:(lia)). destruct (take _ (found j)) eqn:Et; [|done]. split; [by apply Htake|].
      by destruct (Z.leb_spec deadline (clock j)).
Qed.

(** Nothing is ready on the watched counter at 0; the counter is raised after the
    second look, and found at the third. *)
Definition demo_idle : Os := set_objs {[5 := new_eventfd 0; 6 := new_epoll]} 7 demo_watch.
Definition demo_raise (j : nat) (s : Os) : Os := if decide (j = 1%nat) then demo_watch else s.

Lemma demo_raise_lookable k : lookable 4 (foldl (λ s j, demo_raise j s) demo_idle (seq 0 k)).
Proof.
  change (lookable 4 (at_look demo_raise demo_idle k)). induction k as [|k IH].
  2:{ rewrite at_look_S. unfold demo_raise at 1. destruct (decide _); [exact demo_lookable|exact IH]. }
  change (lookable 4 demo_idle).
  split; [split; reflexivity|]. assert (watches 4 demo_idle = [(3, mkWatch EPOLLIN 9)]) as -> by (vm_compute; reflexivity).
  constructor; [|constructor]. split; [done|]. intros h Hh. vm_compute in Hh. simplify_eq. by vm_compute.
Qed.

Lemma epoll_wait_ends_witness : ∃ k l,
  wait_loop (λ i, Z.of_nat i * 1000) demo_raise (epoll_look 0 4 8 5 (epoll_deadline 1000000 0 5)) 6 0 demo_idle =
    (Ok (Some l), foldl (λ s j, demo_raise j s) demo_idle (seq 0 k)) ∧ (k = 2)%nat ∧ l = [event_record EPOLLIN 9].
Proof.
  destruct (epoll_wait_ends 0 1000000 (λ i, Z.of_nat i * 1000) demo_raise 0 4 8 5 5 demo_idle) as (k & l & Hk & Hl & _ & Hj & E);
    [lia|lia|intros k _; apply demo_raise_lookable|vm_compute; discriminate|].
  exists k, l. split; [exact E|]. assert (k = 2)%nat as ->; [|split; [done|rewrite Hl; vm_compute; reflexivity]].
  assert (¬ 2 < k)%nat by (intros H2; destruct (Hj 2%nat H2) as [Hf _]; vm_compute in Hf; discriminate).
  destruct k as [|[|k]]; [| |lia]; vm_compute in Hl; subst l; vm_compute in E; discriminate.
Defined.

(** ** Sockets *)

Lemma file_ready_socket cpu now fd h s : socket_at fd s → fd_files s !! Z.to_nat fd = Some (Some h) → file_ready cpu now fd h s = (Panic, s).
Proof.
  intros (Hr & Hfd & h' & Hh' & Ht) Hh. rewrite Hh in Hh'. simplify_eq. unfold file_ready. kstep. rewrite Ht. unfold poll_mask, ensure_socket_fd.
  rewrite (proj2 (Z.ltb_ge fd 0)) by lia. unfold bind at 1, try.
  rewrite (bind_ok _ _ _ _ _ (get_file_ready _ _ _ Hr Hfd Hh)). by rewrite bool_decide_eq_true_2.
Qed.

(** Waiting for a socket hangs the kernel, with [epoll_pwait] and with [ppoll]:
    the look holds the lock of the socket's file when the mask of the socket takes
    it again. *)
Theorem poll_socket_hangs cpu now fd interest epfd maxevents timeout dl w s : socket_at fd s →
  EPOLL_TABLE s !! epfd = Some {[fd := w]} →
  epoll_look cpu epfd maxevents timeout dl now s = (Panic, s) ∧
  poll_look cpu [mkPoll fd interest 0] false dl now s = (Panic, s).
Proof.
  intros Hs Hw. pose proof Hs as (Hr & Hfd & h & Hh & _). pose proof (get_file_ready _ _ _ Hr Hfd Hh) as Eg. split.
  - unfold epoll_look. rewrite bind_gets, Hw. cbn [default from_option Datatypes.id]. assert (bentries ({[fd := w]} : gmap Z EpollWatch) = [(fd, w)]) as ->.
    { unfold bentries. by rewrite map_to_list_singleton. }
    cbn [epoll_scan]. unfold ready_mask_for_fd. unfold bind at 1 2. rewrite (try_ok _ _ _ _ _ Eg). unfold bind at 1.
    by rewrite (file_ready_socket _ _ _ h).
  - unfold poll_look. cbn [poll_scan p_fd p_events]. rewrite (proj2 (Z.ltb_ge fd 0)) by lia. unfold fd_ready_mask.
    rewrite Z.mod_small by lia. unfold bind at 1 2. rewrite (try_ok _ _ _ _ _ Eg). unfold bind at 1. by rewrite (file_ready_socket _ _ _ h).
Qed.

Lemma poll_socket_hangs_witness : epoll_look 0 9 1 0 None 0 (set_watches 9 {[3 := mkWatch EPOLLIN 0]} demo_pair) =
  (Panic, set_watches 9 {[3 := mkWatch EPOLLIN 0]} demo_pair).
Proof.
  apply (poll_socket_hangs 0 0 3 0 9 1 0 None (mkWatch EPOLLIN 0) (set_watches 9 {[3 := mkWatch EPOLLIN 0]} demo_pair));
    [exact (demo_pair_socket 3 (or_introl eq_refl))|reflexivity].
Defined.

(** Closing a watched descriptor leaves its watch in the interest list: the
    list is unchanged and the closed descriptor is reported as hung up for as long
    as its number stays free. *)
Theorem closed_watch_stays cpu now fd h interest s : ready s → 0 ≤ fd < 1024 → fd_files s !! Z.to_nat fd = Some (Some h) →
  ftype (file s h) ≠ Epoll →
  ∃ s', close fd s = (Ok 0, s') ∧ EPOLL_TABLE s' = EPOLL_TABLE s ∧ ready_mask_for_fd cpu now fd interest s' = (Ok EPOLLHUP, s').
Proof.
  intros Hr Hfd Hh Hn. unfold close. rewrite (try_ok _ _ _ _ _ (get_file_ready _ _ _ Hr Hfd Hh)). kstep.
  rewrite bool_decide_eq_false_2 by done. kstep. destruct (close_fd_ready s fd h Hr Hfd Hh) as (s' & E & Hr' & _ & Hk).
  exists s'. split; [exact E|]. split.
  - revert E. unfold close_fd. rewrite bind_init by done. unfold MAX_FDS. rewrite (proj2 (Z.leb_gt 1024 fd)) by lia.
    unfold slot. kstep. rewrite Hh. kstep. by destruct (is_socket h s); intros [= <-].
  - unfold ready_mask_for_fd. destruct (get_file_total s' fd Hr' ltac:(lia)) as [(h' & _ & Hh')|[E' _]].
    + rewrite Hk, bool_decide_eq_true_2 in Hh' by lia. done.
    + by rewrite (try_err _ _ _ _ _ E').
Qed.

Lemma closed_watch_stays_witness : ∃ s', close 3 demo_watch = (Ok 0, s') ∧ EPOLL_TABLE s' = EPOLL_TABLE demo_watch ∧
  ready_mask_for_fd 0 0 3 EPOLLIN s' = (Ok EPOLLHUP, s').
Proof. apply (closed_watch_stays 0 0 3 5 EPOLLIN demo_watch); [split; reflexivity|lia|reflexivity|vm_compute; discriminate]. Defined.

(** ** Timers *)

(** A duration survives the conversion to seconds and nanoseconds and back to
    within one tick, and never grows, for a counter of at most 1 GHz: the
    truncating divisions lose less than a tick. *)
Theorem timespec_roundtrip freq t s : 0 < freq ≤ 1000000000 → 0 ≤ t < 2 ^ 64 →
  ∃ t', timespec_to_ticks freq (ticks_to_timespec freq t).1 (ticks_to_timespec freq t).2 s = (Ok t', s) ∧ t - 1 ≤ t' ≤ t ∧
    0 ≤ (ticks_to_timespec freq t).2 < 1000000000.
Proof.
  intros Hf Ht. unfold timespec_to_ticks, ticks_to_timespec, hz, saturating_add, saturating_mul, u64_max. cbn [fst snd].
  rewrite (Z.max_l freq 1) by lia. pose proof (Z.mod_pos_bound t freq ltac:(lia)) as Hm. pose proof (Z.div_mod t freq ltac:(lia)) as Hd.
  set (r := t mod freq) in *. set (q := t / freq) in *. assert (0 ≤ q) as Hq by (apply Z.div_pos; lia).
  rewrite (Z.min_l (r * 1000000000)) by nia. set (ns := r * 1000000000 / freq).
  assert (ns * freq ≤ r * 1000000000 < ns * freq + freq) as Hns by (pose proof (Z.div_mod (r * 1000000000) freq ltac:(lia)); pose proof (Z.mod_pos_bound (r * 1000000000) freq ltac:(lia)); unfold ns; lia).
  assert (0 ≤ ns < 1000000000) as Hnb by (split; [apply Z.div_pos; lia|nia]).
  rewrite (proj2 (Z.leb_gt 1000000000 ns)) by lia. eexists. split; [reflexivity|]. split; [|done].
  rewrite (Z.min_l (ns * freq)) by nia. rewrite (Z.min_l (q * freq)) by nia.
  assert (r - 1 ≤ ns * freq / 1000000000 ≤ r) as Hb by (split; [apply Z.div_le_lower_bound; lia|apply Z.div_le_upper_bound; lia]). nia.
Qed.

Lemma timespec_roundtrip_witness : ∃ t', timespec_to_ticks 62500000 3 141592640 demo_ready = (Ok t', demo_ready) ∧ 196349539 ≤ t' ≤ 196349540.
Proof.
  destruct (timespec_roundtrip 62500000 196349540 demo_ready) as (t' & E & H & _); [lia|lia|]. exists t'. split; [exact E|lia].
Defined.

(** A one-shot timer set to an absolute time that has already passed is counted
    twice: setting it records one expiration and leaves the deadline in place, so
    the next read finds it due once more and reports two. *)
Theorem past_timer_counts_twice now now' value : 0 < value ≤ now → now ≤ now' →
  ∃ nd pe, arm_timer now value 0 true = Some (TimerFdState nd 0 pe) ∧ timer_expire now' nd 0 pe = Some (0, 2).
Proof.
  intros Hv Hn. exists value, 1. unfold arm_timer, timer_expire.
  rewrite (proj2 (Z.eqb_neq value 0)), (proj2 (Z.leb_le value now)), (proj2 (Z.leb_le value now')) by lia. done.
Qed.

Lemma past_timer_counts_twice_witness : ∃ nd pe, arm_timer 100 50 0 true = Some (TimerFdState nd 0 pe) ∧ timer_expire 101 nd 0 pe = Some (0, 2).
Proof. apply (past_timer_counts_twice 100 101 50); lia. Defined.

(** ** The temporary signal mask *)

(** A wait under a temporary signal mask puts the caller's mask back on every
    return, with a result or an error: whatever the wait [m] does (it runs on the
    thread that called), the caller's blocked signals are those from before the
    call, with no entry becoming the empty mask. *)
Theorem sigmask_restored cpu root sigmask m s r s' raw : sigmask ≠ 0 → ucopy_in root sigmask 8 s = (Ok raw, s) →
  (∀ s1 r1 s2, m s1 = (r1, s2) → cur_pid cpu (sig s2) = cur_pid cpu (sig s1)) →
  with_sigmask cpu root sigmask m s = (r, s') → r ≠ Panic → r ≠ Ok None →
  BLOCKED_SIGNALS (sig s') !! cur_pid cpu (sig s) = Some (default 0 (BLOCKED_SIGNALS (sig s) !! cur_pid cpu (sig s))).
Proof.
  intros Hsm Hraw Hm E Hnp Hnn. revert E. unfold with_sigmask. rewrite (proj2 (Z.eqb_neq sigmask 0)) by lia. rewrite (bind_ok _ _ _ _ _ Hraw).
  set (s0 := set_sig (set_blocked (<[cur_pid cpu (sig s) := from_le raw]> (BLOCKED_SIGNALS (sig s))) (sig s)) s).
  rewrite (bind_ok _ _ _ (default 0 (BLOCKED_SIGNALS (sig s) !! cur_pid cpu (sig s))) s0) by done. set (old := default 0 _).
  destruct (m s0) as [r1 s1] eqn:Em. pose proof (Hm _ _ _ Em) as Hp.
  assert (BLOCKED_SIGNALS (sig (on_sig (replace_current_sigmask cpu old) s1).2) !! cur_pid cpu (sig s) = Some old) as Hold.
  { cbn. rewrite Hp. by rewrite lookup_insert, decide_True. }
  unfold bind, try. rewrite Em. destruct r1 as [[n|]|e|]; intros [= <- <-]; done.
Qed.

(** The memory of [User]; a wait that fails. *)
Definition demo_masked : Os :=
  set_sig (set_kern (set_mach (mkMach (Pmm.mkPmm [] 0 0) User.demo_mem) (kern (sig demo_watch))) (sig demo_watch)) demo_watch.

Lemma sigmask_restored_witness : ∃ s', sys_epoll_pwait 0 4096 0 (λ _, 0) (λ _ s, s) 1 0 (-1) 0 0 0 0x400000 demo_masked = (Err EINVAL, s') ∧
  BLOCKED_SIGNALS (sig s') !! cur_pid 0 (sig demo_masked) = Some 0.
Proof.
  assert (ucopy_in 4096 0x400000 8 demo_masked = (Ok (replicate 8 7), demo_masked)) as Hraw
    by (apply ucopy_in_ok; [lia|lia|vm_compute; reflexivity]).
  destruct (sys_epoll_pwait 0 4096 0 (λ _, 0) (λ _ s, s) 1 0 (-1) 0 0 0 0x400000 demo_masked) as [r s'] eqn:E.
  assert (r = Err EINVAL) as ->.
  { revert E. unfold sys_epoll_pwait, with_sigmask. change (0x400000 =? 0) with false. cbv iota.
    rewrite (bind_ok _ _ _ _ _ Hraw). intros [= <- _]. reflexivity. }
  exists s'. split; [reflexivity|].
  apply (sigmask_restored 0 4096 0x400000 (epoll_pwait 0 4096 0 (λ _, 0) (λ _ s, s) 1 0 (-1) 0 0 0) demo_masked (Err EINVAL) s' (replicate 8 7));
    [lia|exact Hraw|intros s1 r1 s2 [= _ <-]; reflexivity|exact E|discriminate|discriminate].
Defined.
