(* ===== verification/Trap.v ===== *)
(** * Exception entry and context switches ([arch/aarch64/exceptions.rs], [context.rs])

    The assembly of the kernel, instruction by instruction, over a processor with
    its general and system registers and a memory of bytes: the vector table, the
    macros [SAVE_REGS] and [RESTORE_REGS] around every handler, the switch between
    two kernel contexts and the first entry to user mode.  The meaning of the
    instructions is that of the AArch64 architecture, for the ones that occur. *)

From S2P Require Import Prelude.
From S2P Require Import Paging.
From S2P Require Import Frame.
From S2P Require Import Sched.

(** ** The processor *)

(** [PSTATE] keeps its exception level in bits 3:2 and its stack choice in bit 0. *)
Record Cpu := mkCpu {
  xs : list Z; sp_el0 : Z; sp_el1 : Z; elr_el1 : Z; spsr_el1 : Z; ttbr0 : Z; tpidr : Z; pstate : Z; next_pc : Z; ram : Z → Z }.

Definition set_xs (x : list Z) (c : Cpu) : Cpu :=
  mkCpu x (sp_el0 c) (sp_el1 c) (elr_el1 c) (spsr_el1 c) (ttbr0 c) (tpidr c) (pstate c) (next_pc c) (ram c).
Definition set_ram (m : Z → Z) (c : Cpu) : Cpu :=
  mkCpu (xs c) (sp_el0 c) (sp_el1 c) (elr_el1 c) (spsr_el1 c) (ttbr0 c) (tpidr c) (pstate c) (next_pc c) m.
Definition set_sys (elr spsr t0 tp : Z) (c : Cpu) : Cpu :=
  mkCpu (xs c) (sp_el0 c) (sp_el1 c) elr spsr t0 tp (pstate c) (next_pc c) (ram c).
Definition jump (ps pc : Z) (c : Cpu) : Cpu :=
  mkCpu (xs c) (sp_el0 c) (sp_el1 c) (elr_el1 c) (spsr_el1 c) (ttbr0 c) (tpidr c) ps pc (ram c).
Definition set_sps (a b : Z) (c : Cpu) : Cpu :=
  mkCpu (xs c) a b (elr_el1 c) (spsr_el1 c) (ttbr0 c) (tpidr c) (pstate c) (next_pc c) (ram c).

Definition x_of (c : Cpu) (r : nat) : Z := default 0 (xs c !! r).
Definition set_x (r : nat) (v : Z) (c : Cpu) : Cpu := set_xs (<[r := v]> (xs c)) c.

(** The stack pointer in use. *)
Definition el_of (ps : Z) : Z := Z.land (Z.shiftr ps 2) 3.
Definition uses_sp1 (ps : Z) : bool := negb (el_of ps =? 0) && Z.testbit ps 0.
Definition cur_sp (c : Cpu) : Z := if uses_sp1 (pstate c) then sp_el1 c else sp_el0 c.
Definition set_cur_sp (v : Z) (c : Cpu) : Cpu :=
  if uses_sp1 (pstate c) then set_sps (sp_el0 c) v c else set_sps v (sp_el1 c) c.

(** ** Instructions *)

Inductive Base := SP | X (r : nat).
Definition base_of (b : Base) (c : Cpu) : Z := match b with SP => cur_sp c | X r => x_of c r end.

Inductive Insn :=
  | STP (a b : nat) (base : Base) (off : Z) | STR (a : nat) (base : Base) (off : Z)
  | LDP (a b : nat) (base : Base) (off : Z) | LDR (a : nat) (base : Base) (off : Z)
  | ADD_SP (n : Z) | SUB_SP (n : Z) | MOV_SP (a : nat) | MOV_X_SP (a : nat) | MOV_0 (a : nat)
  | MRS_ELR (a : nat) | MRS_SPSR (a : nat) | MSR_ELR (a : nat) | MSR_SPSR (a : nat) | MSR_TTBR0 (a : nat) | MSR_TPIDR (a : nat)
  | MSR_SPSel (b : bool) | ISB | ERET | RET.

Definition step (i : Insn) (c : Cpu) : Cpu :=
  match i with
  | STP a b p off => set_ram (wr64 (wr64 (ram c) (base_of p c + off) (x_of c a)) (base_of p c + off + 8) (x_of c b)) c
  | STR a p off => set_ram (wr64 (ram c) (base_of p c + off) (x_of c a)) c
  | LDP a b p off => set_x b (rd64 (ram c) (base_of p c + off + 8)) (set_x a (rd64 (ram c) (base_of p c + off)) c)
  | LDR a p off => set_x a (rd64 (ram c) (base_of p c + off)) c
  | ADD_SP n => set_cur_sp ((cur_sp c + n) mod 2 ^ 64) c
  | SUB_SP n => set_cur_sp ((cur_sp c - n) mod 2 ^ 64) c
  | MOV_SP a => set_cur_sp (x_of c a) c
  | MOV_X_SP a => set_x a (cur_sp c) c
  | MOV_0 a => set_x a 0 c
  | MRS_ELR a => set_x a (elr_el1 c) c
  | MRS_SPSR a => set_x a (spsr_el1 c) c
  | MSR_ELR a => set_sys (x_of c a) (spsr_el1 c) (ttbr0 c) (tpidr c) c
  | MSR_SPSR a => set_sys (elr_el1 c) (x_of c a) (ttbr0 c) (tpidr c) c
  | MSR_TTBR0 a => set_sys (elr_el1 c) (spsr_el1 c) (x_of c a) (tpidr c) c
  | MSR_TPIDR a => set_sys (elr_el1 c) (spsr_el1 c) (ttbr0 c) (x_of c a) c
  | MSR_SPSel b => jump (if b then Z.lor (pstate c) 1 else Z.land (pstate c) (not64 1)) (next_pc c) c
  | ISB => c
  | ERET => jump (spsr_el1 c) (elr_el1 c) c
  | RET => jump (pstate c) (x_of c 30) c
  end.

Definition exec (l : list Insn) (c : Cpu) : Cpu := foldl (flip step) c l.

(** ** Exception entry *)

Inductive Vector := sync_handler | irq_handler | lower_sync_handler | lower_irq_handler | unhandled_exception.

Definition exception_vector_table : list Vector :=
  [sync_handler; irq_handler; unhandled_exception; unhandled_exception;
   sync_handler; irq_handler; unhandled_exception; unhandled_exception;
   lower_sync_handler; lower_irq_handler; unhandled_exception; unhandled_exception;
   unhandled_exception; unhandled_exception; unhandled_exception; unhandled_exception].

(** What the processor does: the row by the state it comes from (bit 4 of
    [PSTATE] marks AArch32), the column by the kind (synchronous, IRQ, FIQ, SError);
    the state is saved and interrupts are masked. *)
Definition vector_index (ps : Z) (kind : nat) : nat :=
  ((if (el_of ps =? 0)%Z then (if Z.testbit ps 4 then 3 else 2) else if Z.testbit ps 0 then 1 else 0) * 4 + kind)%nat.
Definition EL1H_MASKED : Z := 0x3C5.
Definition take_exception (c : Cpu) : Cpu :=
  jump (Z.lor (Z.land (pstate c) 0xF0000000) EL1H_MASKED) (next_pc c) (set_sys (next_pc c) (pstate c) (ttbr0 c) (tpidr c) c).

(** ** The handlers' frame *)

Definition SAVE_REGS : list Insn :=
  [SUB_SP 272;
   STP 0 1 SP 0; STP 2 3 SP 16; STP 4 5 SP 32; STP 6 7 SP 48; STP 8 9 SP 64; STP 10 11 SP 80; STP 12 13 SP 96;
   STP 14 15 SP 112; STP 16 17 SP 128; STP 18 19 SP 144; STP 20 21 SP 160; STP 22 23 SP 176; STP 24 25 SP 192;
   STP 26 27 SP 208; STP 28 29 SP 224; STR 30 SP 240;
   MRS_ELR 0; MRS_SPSR 1; STP 0 1 SP 256].

Definition RESTORE_REGS : list Insn :=
  [LDP 0 1 SP 256; MSR_ELR 0; MSR_SPSR 1;
   LDP 0 1 SP 0; LDP 2 3 SP 16; LDP 4 5 SP 32; LDP 6 7 SP 48; LDP 8 9 SP 64; LDP 10 11 SP 80; LDP 12 13 SP 96;
   LDP 14 15 SP 112; LDP 16 17 SP 128; LDP 18 19 SP 144; LDP 20 21 SP 160; LDP 22 23 SP 176; LDP 24 25 SP 192;
   LDP 26 27 SP 208; LDP 28 29 SP 224; LDR 30 SP 240;
   ADD_SP 272].

(** Every handler: [rust] is the function called, the frame's address in [x0]. *)
Definition handler_entry : list Insn := SAVE_REGS ++ [MOV_X_SP 0].
Definition handler_exit : list Insn := RESTORE_REGS ++ [ERET].
Definition handler (rust : Cpu → Cpu) (c : Cpu) : Cpu := exec handler_exit (rust (exec handler_entry c)).

(** The structure [TrapFrame] in memory. *)
Definition frame_at (m : Z → Z) (a : Z) : AArch64.TrapFrame :=
  AArch64.mkFrame ((λ i, rd64 m (a + 8 * Z.of_nat i)) <$> seq 0 31) (rd64 m (a + 248)) (rd64 m (a + 256)) (rd64 m (a + 264)).

(** ** Context switches *)

Definition context_switch_asm : list Insn :=
  [STP 19 20 (X 0) 0; STP 21 22 (X 0) 16; STP 23 24 (X 0) 32; STP 25 26 (X 0) 48; STP 27 28 (X 0) 64; STP 29 30 (X 0) 80;
   MOV_X_SP 2; STR 2 (X 0) 96;
   LDP 19 20 (X 1) 0; LDP 21 22 (X 1) 16; LDP 23 24 (X 1) 32; LDP 25 26 (X 1) 48; LDP 27 28 (X 1) 64; LDP 29 30 (X 1) 80;
   LDR 2 (X 1) 96; MOV_SP 2; RET].

Definition switch_to_new_asm : list Insn :=
  [LDP 19 20 (X 0) 0; LDP 21 22 (X 0) 16; LDP 23 24 (X 0) 32; LDP 25 26 (X 0) 48; LDP 27 28 (X 0) 64; LDP 29 30 (X 0) 80;
   LDR 1 (X 0) 96; MOV_SP 1; RET].

(** The calls with their arguments in [x0] and [x1]. *)
Definition context_switch (old new : Z) (c : Cpu) : Cpu := exec context_switch_asm (set_x 1 new (set_x 0 old c)).
Definition switch_to_new (new : Z) (c : Cpu) : Cpu := exec switch_to_new_asm (set_x 0 new c).

Definition return_to_user_trampoline : list Insn :=
  [MSR_TTBR0 22; ISB; MSR_ELR 19; MSR_SPSR 20; MSR_SPSel false; MOV_SP 21; MSR_SPSel true; MSR_TPIDR 23] ++
  (MOV_0 <$> seq 0 31) ++ [ERET].

(** The structure [Context] in memory. *)
Definition context_at (m : Z → Z) (a : Z) : Context :=
  let w i := rd64 m (a + 8 * i) in
  mkContext (w 0) (w 1) (w 2) (w 3) (w 4) (w 5) (w 6) (w 7) (w 8) (w 9) (w 10) (w 11) (w 12) (w 13) (w 14) (w 15) (w 16) (w 17).

(** ** Blocks of stores and loads *)

Lemma exec_app l k c : exec (l ++ k) c = exec k (exec l c).
Proof. apply foldl_app. Qed.
Lemma exec_cons i l c : exec (i :: l) c = exec l (step i c).
Proof. done. Qed.

Definition store_pairs (p : Base) (r n : nat) : list Insn := (λ i, STP (r + 2 * i) (r + 2 * i + 1) p (16 * Z.of_nat i)) <$> seq 0 n.
Definition load_pairs (p : Base) (r n : nat) : list Insn := (λ i, LDP (r + 2 * i) (r + 2 * i + 1) p (16 * Z.of_nat i)) <$> seq 0 n.

Lemma pairs_S (f : nat → Insn) n : f <$> seq 0 (S n) = (f <$> seq 0 n) ++ [f n].
Proof. by rewrite seq_S, fmap_app. Qed.

(** A register holds 64 bits. *)
Definition regs_ok (c : Cpu) : Prop := length (xs c) = NREGS ∧ Forall u64_ok (xs c).

Lemma x_of_ok c r : regs_ok c → u64_ok (x_of c r).
Proof.
  intros [_ H]. unfold x_of. destruct (xs c !! r) as [v|] eqn:E; [|done]. by eapply Forall_lookup_1 in H.
Qed.

(** [m'] holds the registers from [r] on, [n] of them, at [a]. *)
Record stored (c : Cpu) (a : Z) (r n : nat) (m' : Z → Z) : Prop := {
  st_in j : (j < n)%nat → rd64 m' (a + 8 * Z.of_nat j) = x_of c (r + j);
  st_out y : y < a ∨ a + 8 * Z.of_nat n ≤ y → m' y = ram c y }.

Lemma stored_one c a r n m : regs_ok c → stored c a r n m → stored c a r (S n) (wr64 m (a + 8 * Z.of_nat n) (x_of c (r + n))).
Proof.
  intros Hc [Hi Ho]. constructor.
  - intros j Hj. destruct (decide (j = n)) as [->|].
    + by apply rd64_wr64_same, x_of_ok.
    + rewrite rd64_wr64_other by lia. apply Hi. lia.
  - intros y Hy. unfold wr64. rewrite bool_decide_eq_false_2 by lia. apply Ho. lia.
Qed.

Lemma exec_stores p r n c : regs_ok c →
  ∃ m', exec (store_pairs p r n) c = set_ram m' c ∧ stored c (base_of p c) r (2 * n) m'.
Proof.
  intros Hc. induction n as [|n (m & E & Hm)].
  - exists (ram c). split; [by destruct c|]. by constructor; [lia|].
  - eexists. split.
    + unfold store_pairs in *. rewrite pairs_S, exec_app, E, exec_cons. cbn. reflexivity.
    + replace (2 * S n)%nat with (S (S (2 * n))) by lia. pose proof (stored_one _ _ _ _ _ Hc (stored_one _ _ _ _ _ Hc Hm)) as H.
      assert (∀ k, base_of p (set_ram k c) = base_of p c) as -> by (intros k; by destruct p). cbn.
      replace (r + (n + (n + 0)) + 1)%nat with (r + S (2 * n))%nat by lia.
      replace (base_of p c + 16 * Z.of_nat n) with (base_of p c + 8 * Z.of_nat (2 * n)) by lia.
      replace (base_of p c + 8 * Z.of_nat (2 * n) + 8) with (base_of p c + 8 * Z.of_nat (S (2 * n))) by lia. exact H.
Qed.

(** [x'] are the registers with [n] of them, from [r] on, loaded from [a]. *)
Record from_memory (c : Cpu) (a : Z) (r n : nat) (x' : list Z) : Prop := {
  fm_length : length x' = length (xs c);
  fm_in j : (r ≤ j < r + n)%nat → (j < length (xs c))%nat → x' !! j = Some (rd64 (ram c) (a + 8 * Z.of_nat (j - r)));
  fm_out j : (j < r)%nat ∨ (r + n ≤ j)%nat → x' !! j = xs c !! j }.

Lemma from_memory_one c a r n x' : from_memory c a r n x' →
  from_memory c a r (S n) (<[(r + n)%nat := rd64 (ram c) (a + 8 * Z.of_nat n)]> x').
Proof.
  intros [Hl Hi Ho]. constructor.
  - by rewrite length_insert.
  - intros j Hj Hlt. destruct (decide (j = (r + n)%nat)) as [->|].
    + rewrite list_lookup_insert_eq by lia. do 3 f_equal. lia.
    + rewrite list_lookup_insert_ne by done. apply Hi; lia.
  - intros j Hj. rewrite list_lookup_insert_ne by lia. apply Ho. lia.
Qed.

(** The base is not among the registers loaded. *)
Definition base_below (p : Base) (r : nat) : Prop := match p with SP => True | X b => (b < r)%nat end.

Lemma base_of_from p r a n c x' : base_below p r → from_memory c a r n x' → base_of p (set_xs x' c) = base_of p c.
Proof. intros Hb [_ _ Ho]. destruct p as [|b]; [done|]. cbn in *. unfold x_of. cbn. by rewrite Ho by lia. Qed.

Lemma exec_loads p r n c : base_below p r →
  ∃ x', exec (load_pairs p r n) c = set_xs x' c ∧ from_memory c (base_of p c) r (2 * n) x'.
Proof.
  intros Hb. induction n as [|n (x' & E & Hx)].
  - exists (xs c). split; [by destruct c|]. by constructor; [|lia|].
  - eexists. split.
    + unfold load_pairs in *. rewrite pairs_S, exec_app, E, exec_cons. cbn. reflexivity.
    + replace (2 * S n)%nat with (S (S (2 * n))) by lia. pose proof (from_memory_one _ _ _ _ _ (from_memory_one _ _ _ _ _ Hx)) as H.
      rewrite (base_of_from _ _ _ _ _ _ Hb Hx). cbn.
      replace (r + (n + (n + 0)) + 1)%nat with (r + S (2 * n))%nat by lia.
      replace (base_of p c + 16 * Z.of_nat n) with (base_of p c + 8 * Z.of_nat (2 * n)) by lia.
      replace (base_of p c + 8 * Z.of_nat (2 * n) + 8) with (base_of p c + 8 * Z.of_nat (S (2 * n))) by lia. exact H.
Qed.

(** ** Handlers *)

Lemma save_regs_blocks : SAVE_REGS = [SUB_SP 272] ++ store_pairs SP 0 15 ++ [STR 30 SP 240; MRS_ELR 0; MRS_SPSR 1; STP 0 1 SP 256].
Proof. reflexivity. Qed.
Lemma restore_regs_blocks : RESTORE_REGS = [LDP 0 1 SP 256; MSR_ELR 0; MSR_SPSR 1] ++ load_pairs SP 0 15 ++ [LDR 30 SP 240; ADD_SP 272].
Proof. reflexivity. Qed.

(** In the kernel, with room for a frame below the stack pointer. *)
Record in_kernel (c : Cpu) : Prop := {
  ik_regs : regs_ok c;
  ik_sp1 : uses_sp1 (pstate c) = true;
  ik_room : 272 ≤ sp_el1 c < 2 ^ 64;
  ik_elr : u64_ok (elr_el1 c);
  ik_spsr : u64_ok (spsr_el1 c) }.

(** The registers as a list, from their values. *)
Lemma regs_list (l : list Z) (f : nat → Z) n : length l = n → (∀ j, (j < n)%nat → l !! j = Some (f j)) → l = f <$> seq 0 n.
Proof.
  intros Hl Hf. apply list_eq_same_length with n; [by rewrite length_fmap, length_seq|done|].
  intros j x y Hj. rewrite Hf, list_lookup_fmap, lookup_seq_lt by done. cbn. by intros [= <-] [= <-].
Qed.

Lemma xs_list c : length (xs c) = NREGS → xs c = x_of c <$> seq 0 31.
Proof.
  intros Hl. apply regs_list; [done|]. intros j Hj. unfold x_of. destruct (xs c !! j) as [v|] eqn:E; [done|].
  apply lookup_ge_None in E. unfold NREGS in Hl. lia.
Qed.

Lemma entry_spec c : in_kernel c → let fp := sp_el1 c - 272 in
  ∃ m, exec handler_entry c = set_sps (sp_el0 c) fp (set_ram m (set_xs (<[0%nat := fp]> (<[1%nat := spsr_el1 c]> (<[0%nat := elr_el1 c]> (xs c)))) c)) ∧
    frame_at m fp = AArch64.mkFrame (xs c) (rd64 (ram c) (fp + 248)) (elr_el1 c) (spsr_el1 c) ∧
    ∀ y, y < fp ∨ fp + 272 ≤ y → m y = ram c y.
Proof.
  intros [Hr Hs Hroom He Hp] fp. unfold handler_entry. rewrite save_regs_blocks. rewrite !exec_app.
  set (c0 := exec [SUB_SP 272] c).
  assert (c0 = set_sps (sp_el0 c) fp c) as Hc0.
  { unfold c0. cbn. unfold set_cur_sp, cur_sp. rewrite Hs. by rewrite Z.mod_small by lia. }
  assert (base_of SP c0 = fp) as Hb by (rewrite Hc0; cbn; unfold cur_sp; cbn; by rewrite Hs).
  destruct (exec_stores SP 0 15 c0) as (m & -> & [Hi Ho]); [by rewrite Hc0|]. rewrite Hb in Hi, Ho. rewrite Hc0 in *.
  assert (Hl : length (xs c) = 31%nat) by apply Hr.
  exists (wr64 (wr64 (wr64 m (fp + 240) (x_of c 30)) (fp + 256) (elr_el1 c)) (fp + 256 + 8) (spsr_el1 c)). split; [|split].
  - cbn [exec foldl flip step base_of]. unfold cur_sp. cbn [pstate set_ram set_sps set_x set_xs]. rewrite Hs.
    unfold x_of. cbn [xs set_ram set_sps set_x set_xs sp_el1 sp_el0 elr_el1 spsr_el1].
    rewrite (list_lookup_insert_ne _ 1 0) by done. by rewrite !list_lookup_insert_eq by (rewrite ?length_insert; lia).
  - unfold frame_at. f_equal.
    + transitivity (x_of c <$> seq 0 31); [|symmetry; exact (xs_list c Hl)]. apply list_fmap_ext. intros i j Hj. apply lookup_seq in Hj as [-> Hj]. rewrite Nat.add_0_l in *.
      rewrite !rd64_wr64_other by lia. destruct (decide (i = 30)%nat) as [->|].
      * replace (fp + 8 * Z.of_nat 30) with (fp + 240) by lia. by apply rd64_wr64_same, (x_of_ok c).
      * rewrite rd64_wr64_other by lia. rewrite Hi by lia. done.
    + rewrite !rd64_wr64_other by lia. apply rd64_ext. intros x Hx. cbn in Ho. apply Ho. lia.
    + rewrite rd64_wr64_other by lia. by apply rd64_wr64_same.
    + replace (fp + 256 + 8) with (fp + 264) by lia. by apply rd64_wr64_same.
  - intros y Hy. unfold wr64. rewrite !bool_decide_eq_false_2 by lia. cbn in Ho. apply Ho. lia.
Qed.

Lemma exit_spec c : length (xs c) = NREGS → uses_sp1 (pstate c) = true → let fr := frame_at (ram c) (sp_el1 c) in
  exec handler_exit c = mkCpu (AArch64.regs fr) (sp_el0 c) ((sp_el1 c + 272) mod 2 ^ 64) (AArch64.elr fr) (AArch64.spsr fr)
    (ttbr0 c) (tpidr c) (AArch64.spsr fr) (AArch64.elr fr) (ram c).
Proof.
  intros Hl Hs fr. unfold handler_exit. rewrite restore_regs_blocks, !exec_app.
  set (c0 := exec [LDP 0 1 SP 256; MSR_ELR 0; MSR_SPSR 1] c).
  assert (c0 = set_sys (AArch64.elr fr) (AArch64.spsr fr) (ttbr0 c) (tpidr c)
                 (set_xs (<[1%nat := AArch64.spsr fr]> (<[0%nat := AArch64.elr fr]> (xs c))) c)) as Hc0.
  { unfold c0. cbn [exec foldl flip step base_of]. unfold cur_sp. rewrite Hs. unfold x_of. cbn [xs set_xs set_x set_sys].
    rewrite (list_lookup_insert_ne _ 1 0) by done. rewrite !list_lookup_insert_eq by (rewrite ?length_insert; unfold NREGS in Hl; lia).
    cbn. by replace (sp_el1 c + 256 + 8) with (sp_el1 c + 264) by lia. }
  assert (base_of SP c0 = sp_el1 c) as Hb by (rewrite Hc0; cbn; unfold cur_sp; cbn; by rewrite Hs).
  destruct (exec_loads SP 0 15 c0 I) as (x' & -> & [Hxl Hi Ho]). rewrite Hb in Hi. rewrite Hc0 in *. cbn in Hxl. rewrite !length_insert in Hxl.
  assert (<[30%nat := rd64 (ram c) (sp_el1 c + 240)]> x' = AArch64.regs fr) as Hregs.
  { apply regs_list; [by rewrite length_insert, Hxl|]. unfold NREGS in Hl.
    intros j Hj. destruct (decide (j = 30)%nat) as [->|]; [by rewrite list_lookup_insert_eq by lia|].
    rewrite list_lookup_insert_ne by done. rewrite Hi by (cbn; rewrite ?length_insert; lia). by rewrite Nat.sub_0_r. }
  rewrite <- Hregs. cbn [exec foldl flip step base_of]. unfold set_cur_sp, cur_sp. cbn [pstate set_xs set_sys set_x]. by rewrite Hs.
Qed.

Lemma masked_uses_sp1 ps : uses_sp1 (Z.lor (Z.land ps 0xF0000000) EL1H_MASKED) = true.
Proof.
  unfold uses_sp1, el_of. rewrite Z.lor_spec. change (Z.testbit EL1H_MASKED 0) with true. rewrite orb_true_r, andb_true_r.
  rewrite Z.shiftr_lor, Z.land_lor_distr_l, Z.shiftr_land, <- Z.land_assoc. change (Z.land (Z.shiftr 0xF0000000 2) 3) with 0.
  by rewrite Z.land_0_r.
Qed.

(** The whole passage, for the theorems about handlers. *)
Lemma trap_spec rust c : regs_ok c → 272 ≤ sp_el1 c < 2 ^ 64 → u64_ok (next_pc c) → u64_ok (pstate c) →
  let fp := sp_el1 c - 272 in let c1 := exec handler_entry (take_exception c) in let c2 := rust c1 in
  length (xs c2) = NREGS → sp_el1 c2 = sp_el1 c1 → pstate c2 = pstate c1 → let fr := frame_at (ram c2) fp in
  x_of c1 0 = fp ∧ frame_at (ram c1) fp = AArch64.mkFrame (xs c) (rd64 (ram c) (fp + 248)) (next_pc c) (pstate c) ∧
  (∀ y, y < fp ∨ fp + 272 ≤ y → ram c1 y = ram c y) ∧
  handler rust (take_exception c) =
    mkCpu (AArch64.regs fr) (sp_el0 c2) (sp_el1 c) (AArch64.elr fr) (AArch64.spsr fr) (ttbr0 c2) (tpidr c2)
      (AArch64.spsr fr) (AArch64.elr fr) (ram c2).
Proof.
  intros Hr Hroom Hpc Hps fp c1 c2 Hl Hsp Hp.
  pose proof (masked_uses_sp1 (pstate c)) as Hs1.
  destruct (entry_spec (take_exception c)) as (m & E & Hf & Ho); [by constructor|]. cbn [sp_el1 take_exception jump set_sys] in E, Hf, Ho.
  assert (c1 = set_sps (sp_el0 c) fp (set_ram m (set_xs (<[0%nat := fp]> (<[1%nat := pstate c]> (<[0%nat := next_pc c]> (xs c)))) (take_exception c)))) as E1 by exact E.
  split; [|split; [|split]].
  - rewrite E1. unfold x_of. cbn. rewrite list_lookup_insert_eq; [done|]. rewrite !length_insert. destruct Hr as [-> _]. unfold NREGS. lia.
  - rewrite E1. exact Hf.
  - rewrite E1. exact Ho.
  - unfold handler. fold c1. fold c2. rewrite exit_spec; [|done|by rewrite Hp, E1].
    rewrite Hsp, E1. cbn [sp_el1 set_sps]. f_equal. unfold fp. rewrite Z.mod_small; lia.
Qed.

(** C3. An exception interrupts a program without its noticing: the handler finds
    the registers, the program counter and the status of the program in its frame,
    in memory below the kernel's stack pointer and nowhere else, and when it
    returns the program runs on with the registers, counter and status the frame
    then has, the kernel's stack as before. *)
Theorem trap_roundtrip rust c : regs_ok c → 272 ≤ sp_el1 c < 2 ^ 64 → u64_ok (next_pc c) → u64_ok (pstate c) →
  let fp := sp_el1 c - 272 in let c1 := exec handler_entry (take_exception c) in let c2 := rust c1 in
  length (xs c2) = NREGS → sp_el1 c2 = sp_el1 c1 → pstate c2 = pstate c1 → let fr := frame_at (ram c2) fp in
  x_of c1 0 = fp ∧ frame_at (ram c1) fp = AArch64.mkFrame (xs c) (rd64 (ram c) (fp + 248)) (next_pc c) (pstate c) ∧
  (∀ y, y < fp ∨ fp + 272 ≤ y → ram c1 y = ram c y) ∧
  handler rust (take_exception c) =
    mkCpu (AArch64.regs fr) (sp_el0 c2) (sp_el1 c) (AArch64.elr fr) (AArch64.spsr fr) (ttbr0 c2) (tpidr c2)
      (AArch64.spsr fr) (AArch64.elr fr) (ram c2).
Proof. apply trap_spec. Qed.

(** The field [sp] of the frame, as [Frame.set_sp] writes it. *)
Definition write_frame_sp (fp v : Z) (c : Cpu) : Cpu := set_ram (wr64 (ram c) (fp + 248) v) c.

Lemma frame_at_write_sp m fp v : u64_ok v → frame_at (wr64 m (fp + 248) v) fp = Frame.set_sp v (frame_at m fp).
Proof.
  intros Hv. unfold frame_at. cbn [Frame.set_sp AArch64.TrapFrame_context AArch64.regs AArch64.elr AArch64.spsr]. f_equal.
  - apply list_fmap_ext. intros i j Hj. apply lookup_seq in Hj as [-> Hj]. apply rd64_wr64_other. lia.
  - by apply rd64_wr64_same.
  - apply rd64_wr64_other. lia.
  - apply rd64_wr64_other. lia.
Qed.

(** The stack pointer in a frame has no effect: whatever a handler stores
    there, as [execve] and the delivery of a signal do, the program resumes with
    the same registers and with the stack pointer it had. *)
Theorem frame_sp_ignored rust v c : regs_ok c → 272 ≤ sp_el1 c < 2 ^ 64 → u64_ok (next_pc c) → u64_ok (pstate c) → u64_ok v →
  let fp := sp_el1 c - 272 in let c1 := exec handler_entry (take_exception c) in let c2 := rust c1 in
  length (xs c2) = NREGS → sp_el1 c2 = sp_el1 c1 → pstate c2 = pstate c1 →
  frame_at (ram (write_frame_sp fp v c2)) fp = Frame.set_sp v (frame_at (ram c2) fp) ∧
  let done_ := handler rust (take_exception c) in let moved := handler (λ x, write_frame_sp fp v (rust x)) (take_exception c) in
  sp_el0 moved = sp_el0 c2 ∧ moved = set_ram (ram (write_frame_sp fp v c2)) done_.
Proof.
  intros Hr Hroom Hpc Hps Hv fp c1 c2 Hl Hsp Hp. split; [by apply frame_at_write_sp|]. intros done_ moved.
  destruct (trap_spec rust c Hr Hroom Hpc Hps Hl Hsp Hp) as (_ & _ & _ & E).
  destruct (trap_spec (λ x, write_frame_sp fp v (rust x)) c Hr Hroom Hpc Hps Hl Hsp Hp) as (_ & _ & _ & E').
  cbv beta zeta in E'. fold fp c1 c2 in E'. assert (frame_at (ram (write_frame_sp fp v c2)) fp = Frame.set_sp v (frame_at (ram c2) fp)) as F by (by apply frame_at_write_sp).
  rewrite F in E'. unfold moved, done_. rewrite E, E'. by split.
Qed.

(** ** Switches *)

Lemma context_switch_blocks : context_switch_asm =
  store_pairs (X 0) 19 6 ++ [MOV_X_SP 2; STR 2 (X 0) 96] ++ load_pairs (X 1) 19 6 ++ [LDR 2 (X 1) 96; MOV_SP 2; RET].
Proof. reflexivity. Qed.
Lemma switch_to_new_blocks : switch_to_new_asm = load_pairs (X 0) 19 6 ++ [LDR 1 (X 0) 96; MOV_SP 1; RET].
Proof. reflexivity. Qed.

(** The registers a context keeps, [u] having the other fields. *)
Definition live_context (c : Cpu) (u : Context) : Context :=
  mkContext (x_of c 19) (x_of c 20) (x_of c 21) (x_of c 22) (x_of c 23) (x_of c 24) (x_of c 25) (x_of c 26) (x_of c 27) (x_of c 28)
    (x_of c 29) (x_of c 30) (cur_sp c) (user_pc u) (user_flags u) (user_sp u) (page_table_root u) (user_tls u).

(** After the loads, the stack pointer and the return. *)
Lemma resume_spec p t c : base_below p 19 → (t < 19)%nat → p ≠ X t → length (xs c) = NREGS → uses_sp1 (pstate c) = true →
  let ctx := context_at (ram c) (base_of p c) in
  ∃ x', exec (load_pairs p 19 6 ++ [LDR t p 96; MOV_SP t; RET]) c = jump (pstate c) (x30 ctx) (set_sps (sp_el0 c) (Sched.sp ctx) (set_xs x' c)) ∧
    length x' = NREGS ∧ ∀ y u, xs y = x' → cur_sp y = Sched.sp ctx → u = ctx → live_context y u = ctx.
Proof.
  intros Hb Ht Hne Hl Hs ctx. destruct (exec_loads p 19 6 c Hb) as (x' & E & Hx). rewrite exec_app, E.
  destruct Hx as [Hxl Hi Ho] eqn:HX. clear HX.
  exists (<[t := rd64 (ram c) (base_of p c + 96)]> x'). unfold NREGS in *.
  assert (∀ j, (19 ≤ j < 31)%nat → default 0 (<[t := rd64 (ram c) (base_of p c + 96)]> x' !! j) =
            rd64 (ram c) (base_of p c + 8 * Z.of_nat (j - 19))) as Hj.
  { intros j Hj. rewrite list_lookup_insert_ne by lia. by rewrite Hi by lia. }
  split; [|split; [by rewrite length_insert, Hxl|]].
  - cbn [exec foldl flip step]. rewrite (base_of_from p 19 (base_of p c) 12 c x') by (done || by constructor).
    unfold set_cur_sp. cbn [pstate set_x set_xs]. rewrite Hs. unfold x_of. cbn [xs set_x set_xs set_sps ram sp_el0 pstate].
    rewrite list_lookup_insert_eq by lia. rewrite (Hj 30%nat) by lia. reflexivity.
  - intros y u Hy Hsp ->. unfold live_context, x_of. rewrite Hy, Hsp, !Hj by lia. reflexivity.
Qed.

(** Two contexts do not overlap. *)
Definition contexts_apart (a b : Z) : Prop := a + 144 ≤ b ∨ b + 144 ≤ a.

Lemma context_at_ext m m' a : (∀ y, a ≤ y < a + 144 → m y = m' y) → context_at m a = context_at m' a.
Proof. intros H. unfold context_at. f_equal; apply rd64_ext; intros; apply H; lia. Qed.

Lemma context_switch_spec old new c : regs_ok c → uses_sp1 (pstate c) = true → u64_ok (sp_el1 c) → u64_ok old → u64_ok new → contexts_apart old new →
  let c1 := context_switch old new c in let ctx := context_at (ram c) new in
  context_at (ram c1) old = live_context c (context_at (ram c) old) ∧ (∀ y, y < old ∨ old + 104 ≤ y → ram c1 y = ram c y) ∧
  length (xs c1) = NREGS ∧ live_context c1 ctx = ctx ∧ next_pc c1 = x30 ctx ∧ pstate c1 = pstate c ∧
  sp_el0 c1 = sp_el0 c ∧ tpidr c1 = tpidr c ∧ ttbr0 c1 = ttbr0 c.
Proof.
  intros Hr Hs Hsp Ho Hn Hap c1 ctx. unfold c1, context_switch. rewrite context_switch_blocks, exec_app.
  set (c0 := set_x 1 new (set_x 0 old c)). assert (Hl : length (xs c) = 31%nat) by apply Hr.
  assert (regs_ok c0) as Hr0.
  { split; [by unfold c0; cbn; rewrite !length_insert|]. unfold c0. cbn. by apply Forall_insert; [apply Forall_insert; [apply Hr|]|]. }
  assert (∀ j, (2 ≤ j)%nat → x_of c0 j = x_of c j) as Hx0.
  { intros j Hj. unfold x_of, c0. cbn. by rewrite !list_lookup_insert_ne by lia. }
  assert (x_of c0 0 = old) as H0 by (unfold x_of, c0; cbn; rewrite list_lookup_insert_ne, list_lookup_insert_eq by (done || lia); done).
  assert (x_of c0 1 = new) as H1 by (unfold x_of, c0; cbn; rewrite list_lookup_insert_eq by (rewrite length_insert; lia); done).
  destruct (exec_stores (X 0) 19 6 c0 Hr0) as (m & -> & [Hi Hout]). cbn [base_of] in Hi, Hout. rewrite H0 in Hi, Hout.
  rewrite exec_app. set (m' := wr64 m (old + 96) (sp_el1 c)).
  set (c2 := exec [MOV_X_SP 2; STR 2 (X 0) 96] (set_ram m c0)).
  assert (c2 = set_ram m' (set_x 2 (sp_el1 c) c0)) as Hc2.
  { unfold c2. cbn [exec foldl flip step base_of]. unfold cur_sp. cbn [pstate set_ram]. change (pstate c0) with (pstate c). rewrite Hs.
    unfold x_of in H0 |- *. cbn [xs set_x set_xs set_ram]. change (sp_el1 (set_ram m c0)) with (sp_el1 c).
    rewrite (list_lookup_insert_ne _ 2 0), list_lookup_insert_eq by (done || (unfold c0; cbn; rewrite !length_insert; lia)).
    rewrite H0. reflexivity. }
  assert (x_of c2 1 = new) as H2 by (rewrite Hc2; unfold x_of in H1 |- *; cbn; by rewrite list_lookup_insert_ne by done).
  assert (∀ y, y < old ∨ old + 104 ≤ y → m' y = ram c y) as Hm'.
  { intros y Hy. unfold m', wr64. rewrite bool_decide_eq_false_2 by lia. apply Hout. lia. }
  destruct (resume_spec (X 1) 2 c2) as (x' & E & Hxl & Hlive); [cbn; lia|lia|done|by rewrite Hc2; cbn; rewrite !length_insert|by rewrite Hc2|].
  cbn [base_of] in E, Hlive. rewrite H2 in E, Hlive.
  assert (context_at (ram c2) new = ctx) as Hctx.
  { rewrite Hc2. apply context_at_ext. intros y Hy. apply Hm'. destruct Hap; lia. }
  rewrite Hctx in E, Hlive. rewrite E, Hc2. cbn [ram jump set_sps set_xs next_pc pstate sp_el0 tpidr ttbr0 set_ram set_x xs]. split_and!; try done.
  - assert (∀ k, (k < 12)%nat → rd64 m' (old + 8 * Z.of_nat k) = x_of c (19 + k)) as Hf.
    { intros k Hk. unfold m'. rewrite rd64_wr64_other by lia. rewrite Hi by lia. apply Hx0. lia. }
    assert (∀ k, 13 ≤ k → rd64 m' (old + 8 * k) = rd64 (ram c) (old + 8 * k)) as Hg.
    { intros k Hk. apply rd64_ext. intros y Hy. apply Hm'. lia. }
    unfold context_at, live_context.
    f_equal; [exact (Hf 0%nat ltac:(lia))|exact (Hf 1%nat ltac:(lia))|exact (Hf 2%nat ltac:(lia))|exact (Hf 3%nat ltac:(lia))
      |exact (Hf 4%nat ltac:(lia))|exact (Hf 5%nat ltac:(lia))|exact (Hf 6%nat ltac:(lia))|exact (Hf 7%nat ltac:(lia))
      |exact (Hf 8%nat ltac:(lia))|exact (Hf 9%nat ltac:(lia))|exact (Hf 10%nat ltac:(lia))|exact (Hf 11%nat ltac:(lia))
      |unfold cur_sp; rewrite Hs; by apply rd64_wr64_same|exact (Hg 13 ltac:(lia))|exact (Hg 14 ltac:(lia))
      |exact (Hg 15 ltac:(lia))|exact (Hg 16 ltac:(lia))|exact (Hg 17 ltac:(lia))].
  - apply Hlive; [done| |done]. unfold cur_sp. cbn. by rewrite Hs.
Qed.

(** C10. A thread that is switched out comes back where it was: when its saved
    context has not been touched, the switch to it, from whatever thread and
    processor state, returns to the address its own switch was called from, with
    its callee-saved registers and its kernel stack pointer. *)
Theorem switch_resumes old new c other c' : regs_ok c → uses_sp1 (pstate c) = true → u64_ok (sp_el1 c) → u64_ok old → u64_ok new →
  contexts_apart old new → let c1 := context_switch old new c in
  regs_ok c' → uses_sp1 (pstate c') = true → u64_ok (sp_el1 c') → u64_ok other → contexts_apart other old →
  context_at (ram c') old = context_at (ram c1) old → let c2 := context_switch other old c' in
  next_pc c2 = x_of c 30 ∧ cur_sp c2 = cur_sp c ∧ ∀ j, (19 ≤ j ≤ 30)%nat → x_of c2 j = x_of c j.
Proof.
  intros Hr Hs Hsp Ho Hn Hap c1 Hr' Hs' Hsp' Hot Hap' Hkept c2.
  destruct (context_switch_spec old new c Hr Hs Hsp Ho Hn Hap) as (Hold & _).
  destruct (context_switch_spec other old c' Hr' Hs' Hsp' Hot Ho Hap') as (_ & _ & _ & Hlive & Hpc & _).
  fold c1 in Hold. fold c2 in Hlive, Hpc. rewrite Hkept, Hold in Hlive, Hpc. unfold live_context in Hlive. injection Hlive as E1 E2 E3 E4 E5 E6 E7 E8 E9 E10 E11 E12 E13.
  split; [exact Hpc|]. split; [exact E13|]. intros j Hj.
  do 31 (destruct j as [|j]; [first [lia|assumption]|]). lia.
Qed.

(** The user stack pointer and the thread pointer are not switched: a thread
    that comes back, and then returns from the exception it was in, runs in user
    mode on the stack, and with the thread pointer, of the thread that ran before. *)
Theorem user_stack_not_switched other old c' (ret_path : Cpu → Cpu) : regs_ok c' → uses_sp1 (pstate c') = true → u64_ok (sp_el1 c') →
  u64_ok other → u64_ok old → contexts_apart other old →
  let c2 := ret_path (context_switch other old c') in
  sp_el0 c2 = sp_el0 (context_switch other old c') → tpidr c2 = tpidr (context_switch other old c') →
  length (xs c2) = NREGS → uses_sp1 (pstate c2) = true → let fr := frame_at (ram c2) (sp_el1 c2) in
  let user := exec handler_exit c2 in
  xs user = AArch64.regs fr ∧ next_pc user = AArch64.elr fr ∧ sp_el0 user = sp_el0 c' ∧ tpidr user = tpidr c'.
Proof.
  intros Hr Hs Hsp Hot Ho Hap c2 E0 Et Hl Hs2 fr user.
  destruct (context_switch_spec other old c' Hr Hs Hsp Hot Ho Hap) as (_ & _ & _ & _ & _ & _ & H0 & Ht & _).
  unfold user. rewrite exit_spec by done. cbn. by rewrite E0, Et, H0, Ht.
Qed.

(** ** The first entry to user mode *)

Lemma zero_all c : length (xs c) = NREGS → exec (MOV_0 <$> seq 0 31) c = set_xs (replicate 31 0) c.
Proof.
  destruct c as [l s0 s1 e p t0 tp ps pc m]. cbn [xs]. intros Hl.
  do 31 (destruct l as [|? l]; [done|]). by destruct l.
Qed.

Lemma spsel_0 ps : uses_sp1 (Z.land ps (not64 1)) = false.
Proof. unfold uses_sp1. rewrite Z.land_spec. change (Z.testbit (not64 1) 0) with false. by rewrite !andb_false_r. Qed.

Lemma trampoline_spec c : length (xs c) = NREGS → exec return_to_user_trampoline c =
  mkCpu (replicate 31 0) (x_of c 21) (sp_el1 c) (x_of c 19) (x_of c 20) (x_of c 22) (x_of c 23) (x_of c 20) (x_of c 19) (ram c).
Proof.
  destruct c as [l s0 s1 e p t0 tp ps pc m]. intros Hl. unfold return_to_user_trampoline, x_of. rewrite !exec_app. cbn in Hl.
  assert (exec [MSR_TTBR0 22; ISB; MSR_ELR 19; MSR_SPSR 20; MSR_SPSel false; MOV_SP 21; MSR_SPSel true; MSR_TPIDR 23] (mkCpu l s0 s1 e p t0 tp ps pc m) =
    mkCpu l (default 0 (l !! 21%nat)) s1 (default 0 (l !! 19%nat)) (default 0 (l !! 20%nat)) (default 0 (l !! 22%nat)) (default 0 (l !! 23%nat))
      (Z.lor (Z.land ps (not64 1)) 1) pc m) as ->.
  { cbn [exec foldl flip step]. unfold set_cur_sp. cbn [pstate jump set_sys]. by rewrite spsel_0. }
  by rewrite zero_all.
Qed.

(** C30. The first run of a user thread: the switch to its prepared context goes to
    the trampoline on the thread's kernel stack, and the trampoline to user mode,
    at the entry point and on the stack of the thread, with its page table, thread
    pointer and status and all general registers zero. *)
Theorem first_run_enters_user t a c : length (xs c) = NREGS → uses_sp1 (pstate c) = true → let ctx := context t in
  context_at (ram c) a = context (start_user t) → let c1 := switch_to_new a c in let user := exec return_to_user_trampoline c1 in
  next_pc c1 = x30 ctx ∧ sp_el1 c1 = Sched.sp ctx ∧ ram user = ram c ∧
  user = mkCpu (replicate 31 0) (user_sp ctx) (Sched.sp ctx) (user_pc ctx) (user_flags ctx) (page_table_root ctx) (user_tls ctx)
    (user_flags ctx) (user_pc ctx) (ram c).
Proof.
  intros Hl Hs ctx Hctx c1 user. set (c0 := set_x 0 a c).
  assert (x_of c0 0 = a) as H0 by (unfold x_of, c0; cbn; rewrite list_lookup_insert_eq by (rewrite Hl; unfold NREGS; lia); done).
  destruct (resume_spec (X 0) 1 c0) as (x' & E & Hxl & Hlive); [cbn; lia|lia|done|by unfold c0; cbn; rewrite length_insert|done|].
  cbn [base_of] in E, Hlive. rewrite H0 in E, Hlive. change (ram c0) with (ram c) in *. rewrite Hctx in E, Hlive.
  assert (c1 = jump (pstate c) (x30 ctx) (set_sps (sp_el0 c) (Sched.sp ctx) (set_xs x' c0))) as E1.
  { unfold c1, switch_to_new. rewrite switch_to_new_blocks. exact E. }
  pose proof (Hlive c1 (context (start_user t))) as Hx. rewrite E1 in Hx. specialize (Hx eq_refl). unfold cur_sp in Hx. cbn in Hx. rewrite Hs in Hx.
  specialize (Hx eq_refl eq_refl). unfold live_context in Hx. cbn in Hx. injection Hx as Ex19 Ex20 Ex21 Ex22 Ex23 _ _ _ _ _ _ _ _.
  split; [by rewrite E1|]. split; [by rewrite E1|].
  unfold user. rewrite trampoline_spec by (by rewrite E1). unfold x_of in *. rewrite E1. rewrite Ex19, Ex20, Ex21, Ex22, Ex23. by split.
Qed.

(** ** Demonstration: a program at 0x400000 with the stack 0x7000, trapped on the kernel stack 0x9000 *)

Definition demo_cpu : Cpu := mkCpu (Z.of_nat <$> seq 0 31) 0x7000 0x9000 0 0 0 0 0 0x400000 (λ _, 0).

Lemma demo_regs : regs_ok demo_cpu.
Proof. split; [done|]. unfold demo_cpu. cbn [xs]. apply Forall_fmap, Forall_seq. intros j Hj. unfold u64_ok. cbn. lia. Qed.

(** A handler that skips the trapping instruction. *)
Definition demo_skip (c : Cpu) : Cpu := set_ram (wr64 (ram c) (x_of c 0 + 256) 0x400004) c.

Lemma trap_roundtrip_witness : next_pc (handler demo_skip (take_exception demo_cpu)) = 0x400004 ∧
  sp_el0 (handler demo_skip (take_exception demo_cpu)) = 0x7000.
Proof.
  destruct (trap_roundtrip demo_skip demo_cpu demo_regs) as (_ & _ & _ & ->); [done|done|done|vm_compute; reflexivity..|].
  split; vm_compute; reflexivity.
Defined.

Lemma frame_sp_ignored_witness :
  sp_el0 (handler (λ x, write_frame_sp (0x9000 - 272) 0x5000 (demo_skip x)) (take_exception demo_cpu)) = 0x7000.
Proof.
  destruct (frame_sp_ignored demo_skip 0x5000 demo_cpu demo_regs) as (_ & E & _); [done|done|done|done|vm_compute; reflexivity..|].
  exact E.
Defined.

(** Two kernel threads with their contexts at 0x1000 and 0x2000. *)
Definition demo_kernel : Cpu := jump EL1H_MASKED 0x400000 demo_cpu.
Definition demo_other : Cpu := set_sps 0x6000 0x8000 (set_ram (ram (context_switch 0x1000 0x2000 demo_kernel)) demo_kernel).

Lemma switch_resumes_witness :
  next_pc (context_switch 0x2000 0x1000 demo_other) = 30 ∧ cur_sp (context_switch 0x2000 0x1000 demo_other) = 0x9000.
Proof.
  destruct (switch_resumes 0x1000 0x2000 demo_kernel 0x2000 demo_other) as (E & E' & _);
    [exact demo_regs|reflexivity|done|done|done|left; lia|exact demo_regs|reflexivity|done|done|right; lia|vm_compute; reflexivity|].
  rewrite E, E'. by split.
Defined.

Lemma user_stack_not_switched_witness :
  sp_el0 (exec handler_exit (context_switch 0x2000 0x1000 demo_other)) = 0x6000 ∧ sp_el0 demo_kernel = 0x7000.
Proof.
  destruct (user_stack_not_switched 0x2000 0x1000 demo_other (λ c, c)) as (_ & _ & E & _);
    [exact demo_regs|reflexivity|done|done|done|right; lia|vm_compute; reflexivity..|].
  split; [exact E|reflexivity].
Defined.

(** A new user thread with its context at 0. *)
Definition demo_user : Thread := new_user "init" 5 0x400000 0x7000 0x3000 0x123 0x9000.
Definition demo_first : Cpu :=
  set_ram (foldr (λ '(i, v) m, wr64 m (8 * i) v) (λ _, 0) [(0, 0x400000); (2, 0x7000); (3, 0x3000); (11, 0x123); (12, 0x9000); (13, 0x400000); (15, 0x7000); (16, 0x3000)])
    demo_kernel.

Lemma first_run_enters_user_witness :
  let user := exec return_to_user_trampoline (switch_to_new 0 demo_first) in
  next_pc user = 0x400000 ∧ sp_el0 user = 0x7000 ∧ ttbr0 user = 0x3000 ∧ el_of (pstate user) = 0.
Proof.
  intros user. destruct (first_run_enters_user demo_user 0 demo_first) as (_ & _ & _ & E);
    [reflexivity|reflexivity|vm_compute; reflexivity|].
  unfold user. rewrite E. by split_and!.
Defined.
