(* ===== verification/Gic.v ===== *)
(** * Interrupt controller, timer and serial port
      ([arch/aarch64/gic.rs], [timer.rs], [arch/aarch64/mod.rs], [drivers/uart.rs])

    The drivers as the register writes they make.  [Hw] is the hardware as they
    see it: the writes so far, the values that reads of configuration registers
    will return, the interrupts waiting to be acknowledged and those acknowledged
    and not yet ended, and the FIFOs of the serial port (a PL011).  Addresses are
    physical; the kernel reaches them through the direct map. *)

From S2P Require Import Prelude.
From S2P Require Import Path.
From S2P Require Pty.

Inductive SysReg := ICC_SRE | ICC_PMR | ICC_BPR1 | ICC_IGRPEN1 | ICC_EOIR1 | ICC_SGI1R | CNTP_TVAL | CNTP_CTL.
Inductive Io := Write32 (a v : Z) | Write64 (a v : Z) | Msr (r : SysReg) (v : Z).

Record Hw := mkHw {
  writes : list Io; answers : list Z; pending : list Z; active : list Z; rx : list Z; tx : list Z; frequency : Z }.

Definition emit (i : Io) (s : Hw) : Hw := mkHw (writes s ++ [i]) (answers s) (pending s) (active s) (rx s) (tx s) (frequency s).
Definition set_answers (l : list Z) (s : Hw) : Hw := mkHw (writes s) l (pending s) (active s) (rx s) (tx s) (frequency s).
Definition set_interrupts (p a : list Z) (s : Hw) : Hw := mkHw (writes s) (answers s) p a (rx s) (tx s) (frequency s).
Definition set_fifos (r t : list Z) (s : Hw) : Hw := mkHw (writes s) (answers s) (pending s) (active s) r t (frequency s).

(** ** Register access *)

Definition write32 (a v : Z) : M Hw () := modify (emit (Write32 a v)).
Definition write64 (a v : Z) : M Hw () := modify (emit (Write64 a v)).
Definition msr (r : SysReg) (v : Z) : M Hw () := modify (emit (Msr r v)).
(** A read whose value the hardware chooses. *)
Definition read32 (a : Z) : M Hw Z := λ s, (Ok (default 0 (head (answers s))), set_answers (drop 1 (answers s)) s).
Definition mrs (r : SysReg) : M Hw Z := λ s, (Ok (default 0 (head (answers s))), set_answers (drop 1 (answers s)) s).

(** ** The interrupt controller *)

Definition GICD_PHYS : Z := 0x08000000.
Definition GICR_PHYS : Z := 0x080A0000.
Definition GICR_STRIDE : Z := 0x20000.

Definition gicd_base : Z := GICD_PHYS.
Definition gicr_rd_base (cpu_id : Z) : Z := GICR_PHYS + cpu_id * GICR_STRIDE.
Definition gicr_sgi_base (cpu_id : Z) : Z := gicr_rd_base cpu_id + 0x10000.

Definition GICD_CTLR : Z := 0x0000.
Definition GICD_ISENABLER : Z := 0x0100.
Definition GICD_ICENABLER : Z := 0x0180.
Definition GICD_IPRIORITYR : Z := 0x0400.
Definition GICD_IROUTER : Z := 0x6100.
Definition GICR_WAKER : Z := 0x0014.
Definition GICR_ISENABLER0 : Z := 0x0100.
Definition GICR_ICENABLER0 : Z := 0x0180.
Definition GICR_IPRIORITYR0 : Z := 0x0400.

Definition TIMER_IRQ : Z := 30.
Definition UART0_IRQ : Z := 33.
Definition SGI_RESCHEDULE : Z := 1.

Definition init_distributor : M Hw () :=
  let base := gicd_base in
  write32 (base + GICD_CTLR) 0 ;;;
  for_each (seqZ 8 24) (λ i, write32 (base + GICD_IPRIORITYR + i * 4) 0xA0A0A0A0) ;;;
  for_each (seqZ 0 64) (λ spi, write64 (base + GICD_IROUTER + spi * 8) 0) ;;;
  write32 (base + GICD_CTLR) (Z.lor (Z.lor (Z.shiftl 1 4) (Z.shiftl 1 1)) (Z.shiftl 1 0)).

(** The wait for the redistributor, at most [timeout] times round. *)
Fixpoint wait_awake (timeout : nat) (rd : Z) : M Hw () :=
  let! w := read32 (rd + GICR_WAKER) in
  if Z.land w (Z.shiftl 1 2) =? 0 then ret tt else
  match timeout with O => ret tt | S n => wait_awake n rd end.

Definition private_priorities (sgi : Z) : M Hw () :=
  for_each (seqZ 0 8) (λ i, write32 (sgi + GICR_IPRIORITYR0 + i * 4) 0xA0A0A0A0) ;;;
  write32 (sgi + GICR_ISENABLER0) (Z.lor (Z.shiftl 1 TIMER_IRQ) (Z.shiftl 1 SGI_RESCHEDULE)).

Definition init_redistributor (cpu_id : Z) : M Hw () :=
  let rd := gicr_rd_base cpu_id in
  let sgi := gicr_sgi_base cpu_id in
  let! waker := read32 (rd + GICR_WAKER) in
  when (negb (Z.land waker (Z.shiftl 1 1) =? 0))
    (write32 (rd + GICR_WAKER) (Z.land waker (not32 (Z.shiftl 1 1))) ;;;
     wait_awake (Z.to_nat 1000000) rd) ;;;
  private_priorities sgi.

Definition init_redistributor_ap (cpu_id : Z) : M Hw () := private_priorities (gicr_sgi_base cpu_id).

Definition init_cpu_interface : M Hw () :=
  let! sre := mrs ICC_SRE in
  msr ICC_SRE (Z.lor sre 7) ;;;
  msr ICC_PMR 0xFF ;;;
  msr ICC_BPR1 0 ;;;
  msr ICC_IGRPEN1 1.

(** The next interrupt, 1023 when there is none; from now on it is active. *)
Definition ack_interrupt : M Hw Z := λ s,
  let intid := Z.land (default 1023 (head (pending s))) 0xFFFFFF in
  (Ok intid, set_interrupts (drop 1 (pending s)) (if intid <? 1020 then intid :: active s else active s) s).

Definition end_interrupt (intid : Z) : M Hw () :=
  msr ICC_EOIR1 intid ;;;
  modify (λ s, set_interrupts (pending s) (filter (λ i, i ≠ intid) (active s)) s).

Definition send_sgi (target_cpu sgi_id : Z) : M Hw () :=
  msr ICC_SGI1R (Z.lor (Z.shiftl (Z.land sgi_id 0xF) 24) (Z.shiftl 1 (Z.land target_cpu 0xF))).

Definition send_resched_ipi (target_cpu : Z) : M Hw () := send_sgi target_cpu SGI_RESCHEDULE.

Definition enable_irq (cpu_id intid : Z) : M Hw () :=
  if intid <? 32 then write32 (gicr_sgi_base cpu_id + GICR_ISENABLER0) (Z.shiftl 1 intid)
  else write32 (gicd_base + GICD_ISENABLER + intid / 32 * 4) (Z.shiftl 1 (intid mod 32)).

Definition disable_irq (cpu_id intid : Z) : M Hw () :=
  if intid <? 32 then write32 (gicr_sgi_base cpu_id + GICR_ICENABLER0) (Z.shiftl 1 intid)
  else write32 (gicd_base + GICD_ICENABLER + intid / 32 * 4) (Z.shiftl 1 (intid mod 32)).

(** ** The timer *)

Definition TIMER_FREQ_HZ : Z := 10.
Definition cntfrq : M Hw Z := gets frequency.

Definition timer_init : M Hw () :=
  let! freq := cntfrq in
  msr CNTP_TVAL (freq / TIMER_FREQ_HZ) ;;;
  msr CNTP_CTL 1.

Definition timer_reset : M Hw () :=
  let! freq := cntfrq in
  msr CNTP_TVAL (freq / TIMER_FREQ_HZ).

(** ** The serial port *)

Definition PL011_BASE : Z := 0x09000000.
Definition PL011_DR : Z := 0x000.
Definition PL011_FR : Z := 0x018.
Definition PL011_IMSC : Z := 0x038.
Definition PL011_ICR : Z := 0x044.

Definition uart_write_byte (byte : Z) : M Hw () := modify (λ s, set_fifos (rx s) (tx s ++ [byte]) s).
Definition write_byte (byte : Z) : M Hw () := uart_write_byte byte.

Definition write_str (s : list Z) : M Hw () :=
  for_each s (λ byte, when (byte =? 10) (uart_write_byte 13) ;;; uart_write_byte byte).

Definition early_print (s : list Z) : M Hw () := for_each s uart_write_byte.

(** The flag register has bit 4 set when the receive FIFO is empty; reading the
    data register takes a byte from it. *)
Definition pl011_read (off : Z) : M Hw Z := λ s,
  if off =? PL011_FR then (Ok (if bool_decide (rx s = []) then Z.shiftl 1 4 else 0), s)
  else if off =? PL011_DR then (Ok (default 0 (head (rx s))), set_fifos (drop 1 (rx s)) (tx s) s)
  else (Ok 0, s).
Definition pl011_write (off v : Z) : M Hw () := write32 (PL011_BASE + off) v.

Definition uart_enable_rx_interrupt : M Hw () := pl011_write PL011_IMSC (Z.lor (Z.shiftl 1 4) (Z.shiftl 1 6)).

Section Receive.
(** [push_byte] acts on the rest of the kernel. *)
Context {T : Type} (push_byte : Z → T → T).

Definition on_hw {A} (m : M Hw A) : M (Hw * T) A := λ s, let '(r, x) := m s.1 in (r, (x, s.2)).

(** Each round takes one byte. *)
Fixpoint uart_handle_rx_loop (fuel : nat) : M (Hw * T) () :=
  match fuel with
  | O => panic
  | S fuel' =>
      let! fr := on_hw (pl011_read PL011_FR) in
      if negb (Z.land fr (Z.shiftl 1 4) =? 0) then ret tt else
      let! d := on_hw (pl011_read PL011_DR) in
      on_hw (pl011_write PL011_ICR (Z.lor (Z.shiftl 1 4) (Z.shiftl 1 6))) ;;;
      modify (λ s, (s.1, push_byte (Z.land d 0xFF) s.2)) ;;;
      uart_handle_rx_loop fuel'
  end.
Definition uart_handle_rx_interrupt : M (Hw * T) () := λ s, uart_handle_rx_loop (S (length (rx s.1))) s.
End Receive.

Definition handle_rx_interrupt : M (Hw * Pty.Sys) () := uart_handle_rx_interrupt Pty.push_uart_byte.

(** ** Bringing the processors up ([arch/aarch64/mod.rs]) *)

Definition enable_uart_irq (cpu_id : Z) : M Hw () := enable_irq cpu_id UART0_IRQ.

(** After [exceptions::init], which sets the vector table; interrupts are unmasked
    last. *)
Definition init_interrupts (cpu_id : Z) : M Hw () :=
  init_distributor ;;;
  init_redistributor cpu_id ;;;
  init_cpu_interface ;;;
  timer_init.

(** The part of [ap_entry] that sets a secondary processor up; its interrupts are
    unmasked last and it then waits for them. *)
Definition ap_entry (cpu_id : Z) : M Hw () :=
  init_redistributor cpu_id ;;;
  init_cpu_interface ;;;
  timer_init.

Definition AP_STACK_SIZE : Z := 64 * 1024.

(** [heap i] is the address of the i-th stack the allocator returns. *)
Definition alloc_ap_stacks (heap : nat → Z) (num_cpus : nat) : list Z :=
  (λ i, if bool_decide (i < num_cpus `min` 4)%nat then heap i + AP_STACK_SIZE else 0) <$> seq 0 4.

(** The processors started, by their number in the list of the boot loader, each
    with the top of its stack. *)
Definition start_secondary_cpus (heap : nat → Z) (cpus : list Z) (bsp_mpidr : Z) : list (nat * Z) :=
  let stacks := alloc_ap_stacks heap (length cpus) in
  omap (λ '(i, mpidr), if mpidr =? bsp_mpidr then None else Some (i, default 0 (stacks !! (i `min` 3)%nat)))
    (zip (seq 0 (length cpus)) cpus).

(** ** The interrupts that are enabled *)

(** What the writes mean to a GICv3: a bit written to [ISENABLER] enables an
    interrupt, a bit written to [ICENABLER] disables it, zeros do nothing.  The
    set holds the shared interrupts and the private ones of one processor. *)
Definition bits32 (v : Z) : list Z := filter (λ b, Z.testbit v b = true) (seqZ 0 32).
Definition ids_at (base a v : Z) : option (list Z) :=
  if (base <=? a) && (a <? base + 0x80) && ((a - base) mod 4 =? 0) then Some ((λ b, (a - base) / 4 * 32 + b) <$> bits32 v) else None.

Definition gic_step (cpu : Z) (i : Io) (on : gset Z) : gset Z :=
  match i with
  | Write32 a v =>
      match ids_at (gicd_base + GICD_ISENABLER) a v, ids_at (gicd_base + GICD_ICENABLER) a v with
      | Some l, _ => list_to_set l ∪ on
      | _, Some l => on ∖ list_to_set l
      | _, _ =>
          if a =? gicr_sgi_base cpu + GICR_ISENABLER0 then list_to_set (bits32 v) ∪ on
          else if a =? gicr_sgi_base cpu + GICR_ICENABLER0 then on ∖ list_to_set (bits32 v)
          else on
      end
  | _ => on
  end.
Definition enabled (cpu : Z) (l : list Io) : gset Z := foldl (λ on i, gic_step cpu i on) ∅ l.

Lemma bits32_one b : 0 ≤ b < 32 → bits32 (Z.shiftl 1 b) = [b].
Proof.
  intros Hb. assert (Forall (λ b, bits32 (Z.shiftl 1 b) = [b]) (seqZ 0 32)) as H
    by (apply (bool_decide_unpack _); vm_compute; exact I).
  rewrite Forall_forall in H. apply H, elem_of_seqZ. lia.
Qed.

Lemma enabled_emit cpu l i : enabled cpu (l ++ [i]) = gic_step cpu i (enabled cpu l).
Proof. unfold enabled. by rewrite foldl_app. Qed.

Lemma ids_at_in base k v : 0 ≤ k < 32 → ids_at base (base + k * 4) v = Some ((λ b, k * 32 + b) <$> bits32 v).
Proof.
  intros Hk. unfold ids_at. replace (base + k * 4 - base) with (k * 4) by lia. rewrite Z.mod_mul, Z.div_mul by lia.
  assert ((base <=? base + k * 4) = true) as -> by lia. by assert ((base + k * 4 <? base + 0x80) = true) as -> by lia.
Qed.

Lemma ids_at_out base a v : a < base ∨ base + 0x80 ≤ a → ids_at base a v = None.
Proof. intros H. unfold ids_at. destruct (Z.leb_spec base a), (Z.ltb_spec a (base + 0x80)); try done; lia. Qed.

Lemma ids_at_one base intid : 32 ≤ intid < 1020 →
  ids_at base (base + intid / 32 * 4) (Z.shiftl 1 (intid mod 32)) = Some [intid].
Proof. intros H. rewrite ids_at_in, bits32_one by lia. cbn. do 2 f_equal. lia. Qed.

(** Enabling an interrupt enables it and no other, and disabling it undoes
    this: under the controller's own reading of the writes the set of enabled
    interrupts gains, or loses, just the number given, be it private to the
    processor or shared. *)
Theorem irq_enable_exact cpu intid s : 0 ≤ cpu < 8 → 0 ≤ intid < 1020 →
  ∃ s1 s2, enable_irq cpu intid s = (Ok tt, s1) ∧ enabled cpu (writes s1) = {[intid]} ∪ enabled cpu (writes s) ∧
    disable_irq cpu intid s = (Ok tt, s2) ∧ enabled cpu (writes s2) = enabled cpu (writes s) ∖ {[intid]}.
Proof.
  intros Hc Hi. unfold enable_irq, disable_irq, write32. destruct (Z.ltb_spec intid 32).
  - do 2 eexists. split; [reflexivity|]. split; [|split; [reflexivity|]].
    all: cbn [emit writes]; rewrite enabled_emit; unfold gic_step.
    all: rewrite !ids_at_out by (right; unfold gicr_sgi_base, gicr_rd_base, GICR_PHYS, GICR_STRIDE, gicd_base, GICD_PHYS, GICD_ISENABLER, GICD_ICENABLER, GICR_ISENABLER0, GICR_ICENABLER0; lia).
    + rewrite Z.eqb_refl, bits32_one by lia. set_solver.
    + replace (gicr_sgi_base cpu + GICR_ICENABLER0 =? gicr_sgi_base cpu + GICR_ISENABLER0) with false by (unfold GICR_ICENABLER0, GICR_ISENABLER0; lia).
      rewrite Z.eqb_refl, bits32_one by lia. set_solver.
  - do 2 eexists. split; [reflexivity|]. split; [|split; [reflexivity|]].
    all: cbn [emit writes]; rewrite enabled_emit; unfold gic_step.
    + rewrite ids_at_one by lia. set_solver.
    + rewrite (ids_at_out (gicd_base + GICD_ISENABLER)) by (right; unfold GICD_ISENABLER, GICD_ICENABLER; lia).
      rewrite ids_at_one by lia. set_solver.
Qed.

Definition demo_hw : Hw := mkHw [] [] [33] [] [104; 105] [] 62500000.

Lemma irq_enable_exact_witness : ∃ s1, enable_irq 0 UART0_IRQ demo_hw = (Ok tt, s1) ∧ enabled 0 (writes s1) = {[33]}.
Proof.
  destruct (irq_enable_exact 0 UART0_IRQ demo_hw) as (s1 & s2 & E & H & _); [lia|done|].
  exists s1. split; [exact E|]. rewrite H. set_solver.
Defined.

(** ** Initialisation *)

Lemma for_each_emit {A} (f : A → Io) l s :
  for_each l (λ a, modify (emit (f a))) s = (Ok tt, mkHw (writes s ++ (f <$> l)) (answers s) (pending s) (active s) (rx s) (tx s) (frequency s)).
Proof.
  revert s. induction l as [|a l IH]; intros s; [by destruct s; cbn; rewrite app_nil_r|].
  cbn. unfold bind, modify. rewrite IH. cbn. by rewrite <- app_assoc.
Qed.

(** The priority and the route of a shared interrupt are written. *)
Definition priority_set (intid : Z) (l : list Io) : Prop :=
  ∃ v, Write32 (gicd_base + GICD_IPRIORITYR + intid / 4 * 4) v ∈ l.
Definition routed (intid : Z) (l : list Io) : Prop := Write64 (gicd_base + GICD_IROUTER + (intid - 32) * 8) 0 ∈ l.

Lemma init_distributor_spec s : ∃ s', init_distributor s = (Ok tt, s') ∧
  writes s' = writes s ++ [Write32 (gicd_base + GICD_CTLR) 0] ++
    ((λ i, Write32 (gicd_base + GICD_IPRIORITYR + i * 4) 0xA0A0A0A0) <$> seqZ 8 24) ++
    ((λ spi, Write64 (gicd_base + GICD_IROUTER + spi * 8) 0) <$> seqZ 0 64) ++ [Write32 (gicd_base + GICD_CTLR) 19].
Proof.
  unfold init_distributor, write32, write64. kstep. unfold bind at 1. rewrite (for_each_emit (λ i, Write32 _ _)).
  unfold bind at 1. rewrite (for_each_emit (λ spi, Write64 _ _)). kstep. eexists. split; [reflexivity|]. cbn [emit writes].
  by rewrite <- !app_assoc.
Qed.

(** The distributor is set up for the first shared interrupts only: those below
    128 get a priority and those below 96 a route to processor 0; the rest, up to
    1020, get neither. *)
Theorem distributor_covers s : writes s = [] → ∃ s', init_distributor s = (Ok tt, s') ∧
  ∀ intid, 32 ≤ intid < 1020 → (priority_set intid (writes s') ↔ intid < 128) ∧ (routed intid (writes s') ↔ intid < 96).
Proof.
  intros Hs. destruct (init_distributor_spec s) as (s' & E & Hw). rewrite Hs in Hw. exists s'. split; [exact E|].
  intros intid Hi. unfold priority_set, routed. rewrite Hw. setoid_rewrite elem_of_app. setoid_rewrite elem_of_app. setoid_rewrite elem_of_app. setoid_rewrite elem_of_app.
  setoid_rewrite list_elem_of_singleton. setoid_rewrite list_elem_of_fmap.
  unfold GICD_IPRIORITYR, GICD_IROUTER, GICD_CTLR. split; split.
  - intros (v & [H|[H|[H|[H|H]]]]); [by apply not_elem_of_nil in H|injection H; lia| |destruct H as (? & ? & _); done|injection H; lia].
    destruct H as (i & [= H _] & Hr%elem_of_seqZ). lia.
  - intros Hlt. eexists. right. right. left. exists (intid / 4). split; [reflexivity|]. apply elem_of_seqZ. lia.
  - intros [H|[H|[H|[H|H]]]]; [by apply not_elem_of_nil in H|done|destruct H as (? & ? & _); done| |done].
    destruct H as (i & [= H] & Hr%elem_of_seqZ). lia.
  - intros Hlt. right. right. right. left. exists (intid - 32). split; [done|]. apply elem_of_seqZ. lia.
Qed.

Lemma distributor_covers_witness : ∃ s', init_distributor demo_hw = (Ok tt, s') ∧ routed UART0_IRQ (writes s') ∧ ~ priority_set 128 (writes s').
Proof.
  destruct (distributor_covers demo_hw eq_refl) as (s' & E & H). exists s'. split; [exact E|]. split.
  - apply (H UART0_IRQ); [by split|reflexivity].
  - intros Hp. apply (H 128) in Hp; [|lia]. lia.
Defined.

(** ** Receiving *)

(** The receive interrupt of the serial port empties the FIFO: every byte
    received is handed on, in order, and the loop ends. *)
Theorem uart_rx_drains {T} (push_byte : Z → T → T) s t : Forall byte_ok (rx s) →
  ∃ s', uart_handle_rx_interrupt push_byte (s, t) = (Ok tt, (s', foldl (λ t b, push_byte b t) t (rx s))) ∧ rx s' = [] ∧ tx s' = tx s.
Proof.
  unfold uart_handle_rx_interrupt. cbn [fst]. remember (rx s) as l eqn:El. revert s t El.
  induction l as [|b l IH]; intros s t El Hb; cbn [length uart_handle_rx_loop].
  - unfold bind, on_hw, pl011_read. cbn. rewrite <- El. cbn. exists s. by split.
  - apply Forall_cons in Hb as [Hb Hl]. unfold bind at 1, on_hw at 1, pl011_read. cbn [fst snd]. rewrite Z.eqb_refl, <- El. cbn [negb].
    rewrite bool_decide_eq_false_2 by done. rewrite Z.land_0_l, Z.eqb_refl. cbn [negb].
    unfold bind at 1, on_hw at 1, pl011_read. cbn [fst snd]. rewrite <- El. change (PL011_DR =? PL011_FR) with false. rewrite Z.eqb_refl.
    erewrite bind_ok by reflexivity. kstep.
    change 0xFF with (Z.ones 8). rewrite Z.land_ones by lia. rewrite Z.mod_small by exact Hb.
    apply (IH (emit _ (set_fifos l (tx s) s))); [|done]. reflexivity.
Qed.

Lemma uart_rx_drains_witness : ∃ s', uart_handle_rx_interrupt (λ b l, l ++ [b]) (demo_hw, [] : list Z) = (Ok tt, (s', [104; 105])) ∧ rx s' = [].
Proof.
  destruct (uart_rx_drains (λ b l, l ++ [b]) demo_hw []) as (s' & E & H & _); [by repeat constructor|]. exists s'. by split.
Defined.

(** ** Stacks of the secondary processors *)

Lemma started_stack heap cpus bsp i top : (i, top) ∈ start_secondary_cpus heap cpus bsp →
  (i < length cpus)%nat ∧ top = heap (i `min` 3)%nat + AP_STACK_SIZE.
Proof.
  unfold start_secondary_cpus. intros ([j m] & Hin & Hs)%list_elem_of_omap. destruct (m =? bsp); [done|]. injection Hs as <- <-.
  apply elem_of_zip_l, elem_of_seq in Hin. split; [lia|]. unfold alloc_ap_stacks. rewrite list_lookup_fmap, lookup_seq_lt by lia. cbn.
  by rewrite bool_decide_eq_true_2 by lia.
Qed.

(** Up to four processors each get a stack of their own; from the fifth on, a
    processor is started on the stack of the fourth. *)
Theorem ap_stacks_shared heap cpus bsp : (∀ i j, i ≠ j → heap i + AP_STACK_SIZE ≤ heap j ∨ heap j + AP_STACK_SIZE ≤ heap i) →
  ∀ (i j : nat) (top top' : Z), (i, top) ∈ start_secondary_cpus heap cpus bsp → (j, top') ∈ start_secondary_cpus heap cpus bsp → i ≠ j →
    ((i < 4)%nat ∧ (j < 4)%nat → top' ≤ top - AP_STACK_SIZE ∨ top ≤ top' - AP_STACK_SIZE) ∧
    ((3 ≤ i)%nat ∧ (3 ≤ j)%nat → top = top').
Proof.
  intros Hh i j top top' [_ ->]%started_stack [_ ->]%started_stack Hij. split.
  - intros [Hi Hj]. destruct (Hh (i `min` 3) (j `min` 3))%nat; lia.
  - intros [Hi Hj]. by replace (j `min` 3)%nat with (i `min` 3)%nat by lia.
Qed.

Lemma ap_stacks_shared_witness : ∃ top top', (3%nat, top) ∈ start_secondary_cpus (λ i, 0x100000 * Z.of_nat i) [0; 1; 2; 3; 4] 0 ∧
  (4%nat, top') ∈ start_secondary_cpus (λ i, 0x100000 * Z.of_nat i) [0; 1; 2; 3; 4] 0 ∧ top = top'.
Proof.
  eexists _, _. split; [|split]; [..|eapply (ap_stacks_shared (λ i, 0x100000 * Z.of_nat i) [0; 1; 2; 3; 4] 0 ltac:(unfold AP_STACK_SIZE; lia) 3 4)].
  all: try lia; vm_compute; by repeat constructor.
Defined.
