(* ===== verification/Smp.v ===== *)
(** * Starting the secondary processors ([arch/aarch64/mod.rs])

    The boot processor starts the others and waits for them; each of them runs
    [ap_entry], which announces its progress in shared counters.  A processor is a
    position in the list of actions of [ap_entry]; the system takes one action of
    one processor at a time, in any order, and the boot processor reads the counter
    of finished processors in between.  The answers of the boot loader (processors
    with their MPIDR) and the system registers that are only compared in log output
    are parameters; a processor stores its registers in one action here, and the boot
    processor reads the counters for its report in one look. *)

From stdpp Require Import relations.
From S2P Require Import Prelude.
#[local] Open Scope Z_scope.
From S2P Require Import Path.
From S2P Require Import Gic.

(** ** Processors *)

(** [current_cpu_id]: the lowest affinity field of MPIDR_EL1. *)
Definition current_cpu_id (mpidr : Z) : Z := Z.land mpidr 0xFF.

(** [read_user_page_table_root]: TTBR0_EL1 without the ASID. *)
Definition read_user_page_table_root (ttbr0 : Z) : Z := Z.land ttbr0 0x0000FFFFFFFFF000.

(** What [ap_entry] does after it has switched to its stack, in order. *)
Inductive Act :=
| CountEntered | SetVectors | SetStep (n : Z) | SaveRegisters | PutUart (b : Z) | CountPhysMmio | CountMmio
| InitRedistributor | InitCpuInterface | InitTimer | Unmask | CountOnline.

#[export] Instance Act_eq_dec : EqDecision Act.
Proof. solve_decision. Defined.

Definition ap_program : list Act :=
  [CountEntered; SetVectors; SetStep 1; SaveRegisters; PutUart 64; CountPhysMmio; PutUart 33; CountMmio;
   InitRedistributor; SetStep 2; InitCpuInterface; SetStep 3; InitTimer; SetStep 4; Unmask; SetStep 5; CountOnline].

(** A secondary processor: its identification, its system registers TTBR1, SCTLR,
    TCR, MAIR and TTBR0, the actions it has done, its private hardware, and whether
    its vector table is set and its interrupts are unmasked. *)
Record Ap := mkAp { mpidr : Z; regs : list Z; pos : nat; ap_hw : Hw; vectors : bool; unmasked : bool }.

Definition fresh (m : Z) (r : list Z) (h : Hw) : Ap := mkAp m r 0 h false false.

(** The statics. *)
Record Shared := mkShared {
  AP_ENTERED : Z; AP_ONLINE : Z; AP_MMIO_OK : Z; AP_PHYS_MMIO_OK : Z; AP_STEP : list Z; AP_VALS : list Z; uart_out : list Z }.

Definition quiet : Shared := mkShared 0 0 0 0 (replicate 4 0) [0; 0; 0; 0; 0xDEAD] [].

Definition index_of (a : Ap) : nat := Z.to_nat (current_cpu_id (mpidr a)) `min` 3.

(** [fetch_add] on an [AtomicU32] wraps around. *)
Definition fetch_add (x : Z) : Z := (x + 1) mod 2 ^ 32.

Definition act_shared (a : Ap) (x : Act) (s : Shared) : Shared :=
  match x with
  | CountEntered => mkShared (fetch_add (AP_ENTERED s)) (AP_ONLINE s) (AP_MMIO_OK s) (AP_PHYS_MMIO_OK s) (AP_STEP s) (AP_VALS s) (uart_out s)
  | SetStep n => mkShared (AP_ENTERED s) (AP_ONLINE s) (AP_MMIO_OK s) (AP_PHYS_MMIO_OK s) (<[index_of a := n]> (AP_STEP s)) (AP_VALS s) (uart_out s)
  | SaveRegisters => mkShared (AP_ENTERED s) (AP_ONLINE s) (AP_MMIO_OK s) (AP_PHYS_MMIO_OK s) (AP_STEP s) (regs a) (uart_out s)
  | PutUart b => mkShared (AP_ENTERED s) (AP_ONLINE s) (AP_MMIO_OK s) (AP_PHYS_MMIO_OK s) (AP_STEP s) (AP_VALS s) (uart_out s ++ [b])
  | CountPhysMmio => mkShared (AP_ENTERED s) (AP_ONLINE s) (AP_MMIO_OK s) (fetch_add (AP_PHYS_MMIO_OK s)) (AP_STEP s) (AP_VALS s) (uart_out s)
  | CountMmio => mkShared (AP_ENTERED s) (AP_ONLINE s) (fetch_add (AP_MMIO_OK s)) (AP_PHYS_MMIO_OK s) (AP_STEP s) (AP_VALS s) (uart_out s)
  | CountOnline => mkShared (AP_ENTERED s) (fetch_add (AP_ONLINE s)) (AP_MMIO_OK s) (AP_PHYS_MMIO_OK s) (AP_STEP s) (AP_VALS s) (uart_out s)
  | _ => s
  end.

Definition act_private (x : Act) (a : Ap) : Ap :=
  let run (m : M Hw ()) := (m (ap_hw a)).2 in
  let next h v u := mkAp (mpidr a) (regs a) (S (pos a)) h v u in
  match x with
  | SetVectors => next (ap_hw a) true (unmasked a)
  | InitRedistributor => next (run (init_redistributor (current_cpu_id (mpidr a)))) (vectors a) (unmasked a)
  | InitCpuInterface => next (run init_cpu_interface) (vectors a) (unmasked a)
  | InitTimer => next (run timer_init) (vectors a) (unmasked a)
  | Unmask => next (ap_hw a) (vectors a) true
  | _ => next (ap_hw a) (vectors a) (unmasked a)
  end.

(** ** The system *)

Record Smp := mkSmp { shared : Shared; aps : list Ap }.

(** Processor [i] takes its next action. *)
Definition advance (i : nat) (s : Smp) : Smp :=
  match aps s !! i with
  | Some a =>
      match ap_program !! pos a with
      | Some x => mkSmp (act_shared a x (shared s)) (<[i := act_private x a]> (aps s))
      | None => s
      end
  | None => s
  end.

Inductive smp_step (s : Smp) : Smp → Prop :=
| smp_advance i a x : aps s !! i = Some a → ap_program !! pos a = Some x → smp_step s (advance i s).

(** The boot processor's wait: [env n] is what the others do before its [n]-th look,
    counted down. *)
Fixpoint wait_online (expected : Z) (env : nat → list nat) (timeout : nat) (s : Smp) : Smp :=
  if AP_ONLINE (shared s) <? expected then
    match timeout with
    | O => s
    | S t => wait_online expected env t (foldl (λ s i, advance i s) s (env t))
    end
  else s.

Definition TIMEOUT : Z := 100000000.

(** The numbers it reports. *)
Record Report := mkReport { r_entered : Z; r_expected : Z; r_mmio_ok : Z; r_online : Z; r_steps : list Z }.

Definition report (n_cpus : nat) (expected : Z) (s : Smp) : Report :=
  mkReport (AP_ENTERED (shared s)) expected (AP_MMIO_OK (shared s)) (AP_ONLINE (shared s))
    (omap (λ i, AP_STEP (shared s) !! i) (seq 1 (n_cpus `min` 4 - 1))).

(** [start_secondary_cpus] from the processors of the boot loader's answer; [None] is
    the underflow of [cpus.len() - 1].  Without an answer nothing is started. *)
Definition bring_up (cpus : list (Z * list Z)) (bsp_mpidr : Z) (h : Hw) (env : nat → list nat) : option (Smp * Report) :=
  expected ← sub64 (Z.of_nat (length cpus)) 1;
  let started := filter (λ c, c.1 ≠ bsp_mpidr) cpus in
  let s := wait_online expected env (Z.to_nat TIMEOUT) (mkSmp quiet ((λ c, fresh c.1 c.2 h) <$> started)) in
  Some (s, report (length cpus) expected s).

(** ** The invariant *)

Definition done (x : Act) (a : Ap) : bool := bool_decide (x ∈ take (pos a) ap_program).
Definition count (x : Act) (l : list Ap) : Z := Z.of_nat (length (filter (λ a, done x a = true) l)).

(** What a processor has done to its own hardware. *)
Definition private_upto (h : Hw) (a : Ap) : Prop :=
  a = foldl (λ a x, act_private x a) (fresh (mpidr a) (regs a) h) (take (pos a) ap_program).

Record smp_inv (h : Hw) (n : nat) (s : Smp) : Prop := {
  in_len : length (aps s) = n;
  in_entered : AP_ENTERED (shared s) = count CountEntered (aps s);
  in_mmio : AP_MMIO_OK (shared s) = count CountMmio (aps s);
  in_online : AP_ONLINE (shared s) = count CountOnline (aps s);
  in_private : Forall (private_upto h) (aps s) }.

Lemma program_NoDup : NoDup ap_program.
Proof. refine (bool_decide_unpack _ _). vm_compute. exact I. Qed.

Lemma private_pos x a : pos (act_private x a) = S (pos a) ∧ mpidr (act_private x a) = mpidr a ∧ regs (act_private x a) = regs a.
Proof. by destruct x. Qed.

(** An action not yet taken is taken once. *)
Lemma done_next y x a : ap_program !! pos a = Some x → done y (act_private x a) = done y a || bool_decide (y = x).
Proof.
  intros Hx. unfold done. rewrite (proj1 (private_pos x a)), (take_S_r _ _ _ Hx).
  rewrite (bool_decide_ext _ (y ∈ take (pos a) ap_program ∨ y = x)) by set_solver. by rewrite bool_decide_or.
Qed.

Lemma not_done x a : ap_program !! pos a = Some x → done x a = false.
Proof.
  intros Hx. apply bool_decide_eq_false_2. intros (j & Hj)%list_elem_of_lookup. apply lookup_take_Some in Hj as [Hj Hlt].
  pose proof (NoDup_lookup _ _ _ _ program_NoDup Hj Hx). lia.
Qed.

Lemma filter_insert (P : Ap → bool) l i a a' : l !! i = Some a →
  Z.of_nat (length (filter (λ a, P a = true) (<[i := a']> l))) =
  Z.of_nat (length (filter (λ a, P a = true) l)) - Z.b2z (P a) + Z.b2z (P a').
Proof.
  intros Hl. pose proof (lookup_lt_Some _ _ _ Hl). rewrite insert_take_drop by done. set (l1 := take i l). set (l2 := drop (S i) l).
  assert (l = l1 ++ a :: l2) as El by (symmetry; by apply take_drop_middle). clearbody l1 l2. subst l.
  rewrite !filter_app, !filter_cons, !length_app. destruct (P a) eqn:Ea, (P a') eqn:Ea'; cbn [Z.b2z];
    repeat first [rewrite decide_True by done | rewrite decide_False by congruence]; cbn [length]; lia.
Qed.

Lemma count_next y x l i a : l !! i = Some a → ap_program !! pos a = Some x →
  count y (<[i := act_private x a]> l) = count y l + Z.b2z (bool_decide (y = x)).
Proof.
  intros Hl Hx. unfold count. rewrite (filter_insert (done y) l i a) by done. rewrite (done_next y x a Hx).
  case_bool_decide as E; [subst y; rewrite not_done by done|]; cbn [Z.b2z orb]; [lia|rewrite orb_false_r; lia].
Qed.

Lemma count_bound y l : 0 ≤ count y l ≤ Z.of_nat (length l).
Proof. unfold count. pose proof (length_filter (λ a, done y a = true) l). lia. Qed.

Lemma fetch_add_small x : 0 ≤ x < 2 ^ 32 - 1 → fetch_add x = x + 1.
Proof. intros Hx. unfold fetch_add. apply Z.mod_small. lia. Qed.

(** A counter moves with its action. *)
Lemma count_step y x l i a c : l !! i = Some a → ap_program !! pos a = Some x → Z.of_nat (length l) < 2 ^ 32 → c = count y l →
  (if bool_decide (y = x) then fetch_add c else c) = count y (<[i := act_private x a]> l).
Proof.
  intros Hl Hx Hn ->. pose proof (count_next y x l i a Hl Hx) as E. pose proof (count_bound y (<[i := act_private x a]> l)) as Hb.
  rewrite length_insert in Hb. pose proof (count_bound y l). rewrite E in *. case_bool_decide; cbn [Z.b2z] in *; [rewrite fetch_add_small by lia|]; lia.
Qed.

Lemma private_next h x a : ap_program !! pos a = Some x → private_upto h a → private_upto h (act_private x a).
Proof.
  unfold private_upto. intros Hx Ha. destruct (private_pos x a) as (-> & -> & ->). rewrite (take_S_r _ _ _ Hx), foldl_app. by rewrite <- Ha.
Qed.

Lemma smp_inv_step h n s s' : Z.of_nat n < 2 ^ 32 → smp_inv h n s → smp_step s s' → smp_inv h n s'.
Proof.
  intros Hn [Hl He Hm Ho Hp] [i a x Ha Hx]. unfold advance. rewrite Ha, Hx.
  assert (Z.of_nat (length (aps s)) < 2 ^ 32) as Hn' by (by rewrite Hl).
  split; cbn [shared aps]; [by rewrite length_insert| | | |].
  - rewrite <- (count_step _ x _ i a _ Ha Hx Hn' He). by destruct x.
  - rewrite <- (count_step _ x _ i a _ Ha Hx Hn' Hm). by destruct x.
  - rewrite <- (count_step _ x _ i a _ Ha Hx Hn' Ho). by destruct x.
  - apply Forall_insert; [done|]. apply private_next; [done|]. by eapply Forall_lookup_1.
Qed.

Definition all_fresh (h : Hw) (l : list (Z * list Z)) : Smp := mkSmp quiet ((λ c, fresh c.1 c.2 h) <$> l).

Lemma smp_inv_start h l : smp_inv h (length l) (all_fresh h l).
Proof.
  assert (∀ y, count y ((λ c, fresh c.1 c.2 h) <$> l) = 0) as H.
  { intros y. unfold count. induction l as [|c l IH]; [done|]. cbn [fmap list_fmap]. rewrite filter_cons, decide_False; [exact IH|]. done. }
  split; cbn; [by rewrite length_fmap|by rewrite H..|]. apply Forall_fmap, Forall_true. done.
Qed.

Lemma smp_inv_reachable h l s : Z.of_nat (length l) < 2 ^ 32 → rtc smp_step (all_fresh h l) s → smp_inv h (length l) s.
Proof.
  intros Hn Hr. assert (∀ s1, rtc smp_step s1 s → smp_inv h (length l) s1 → smp_inv h (length l) s) as H; [|by eapply H, smp_inv_start].
  induction 1; [done|]. eauto using smp_inv_step.
Qed.

(** ** A processor that has finished *)

Create HintDb smp.

(** Register accesses do not fail. *)
Definition total {A} (m : M Hw A) : Prop := ∀ h, ∃ a h', m h = (Ok a, h').

Lemma total_bind {A B} (m : M Hw A) (k : A → M Hw B) : total m → (∀ a, total (k a)) → total (bind m k).
Proof. intros Hm Hk h. destruct (Hm h) as (a & h' & E). rewrite (bind_ok _ _ _ _ _ E). apply Hk. Qed.

Lemma total_modify f : total (modify f).
Proof. intros h. by eexists _, _. Qed.
Lemma total_read a : total (read32 a).
Proof. intros h. by eexists _, _. Qed.
Lemma total_ret {A} (a : A) : total (ret a).
Proof. intros h. by eexists _, _. Qed.
Lemma total_for_each {A} (f : A → M Hw ()) l : (∀ a, total (f a)) → total (for_each l f).
Proof. intros Hf. induction l; cbn; [apply total_ret|]. by apply total_bind. Qed.
Lemma total_when b m : total m → total (when b m).
Proof. intros Hm. destruct b; [exact Hm|apply total_ret]. Qed.
#[local] Hint Resolve total_bind total_modify total_read total_ret total_for_each total_when : smp.

Lemma total_wait_awake t rd : total (wait_awake t rd).
Proof. induction t as [|t IH]; cbn [wait_awake]; (apply total_bind; [apply total_read|intros w; destruct (_ =? 0)]); auto with smp. Qed.

Lemma total_init_redistributor c : total (init_redistributor c).
Proof.
  apply total_bind; [apply total_read|]. intros w. apply total_bind.
  - apply total_when, total_bind; [apply total_modify|]. intros _. apply total_wait_awake.
  - intros _. apply total_bind; [apply total_for_each; intros; apply total_modify|]. intros _. apply total_modify.
Qed.

Lemma init_redistributor_ok c h : init_redistributor c h = (Ok tt, (init_redistributor c h).2).
Proof. destruct (total_init_redistributor c h) as ([] & h' & E). by rewrite E. Qed.

(** All actions, together, are the set-up of [Gic.ap_entry]. *)
Lemma finished h a : private_upto h a → pos a = 17%nat →
  ap_hw a = (ap_entry (current_cpu_id (mpidr a)) h).2 ∧ vectors a = true ∧ unmasked a = true.
Proof.
  unfold private_upto. intros Ha Hp. rewrite Hp in Ha. change (take 17 ap_program) with ap_program in Ha.
  unfold ap_entry. rewrite (bind_ok _ _ _ _ _ (init_redistributor_ok _ _)).
  generalize dependent (mpidr a). generalize (regs a). intros r m ->. split; [|done].
  cbn [foldl ap_program act_private fresh mpidr ap_hw vectors unmasked]. reflexivity.
Qed.

Lemma foldl_pos l a : pos (foldl (λ a x, act_private x a) a l) = (pos a + length l)%nat.
Proof. revert a. induction l as [|x l IH]; intros a; cbn; [lia|]. rewrite IH, (proj1 (private_pos x a)). lia. Qed.

Lemma private_bound h a : private_upto h a → (pos a ≤ 17)%nat.
Proof. intros Ha. pose proof (f_equal pos Ha) as E. rewrite foldl_pos, length_take in E. cbn [fresh pos] in E. change (length ap_program) with 17%nat in E. lia. Qed.

Lemma done_at y j a : ap_program !! j = Some y → done y a = bool_decide (j < pos a)%nat.
Proof.
  intros Hj. unfold done. apply bool_decide_ext. rewrite list_elem_of_lookup. setoid_rewrite lookup_take_Some. split.
  - intros (k & Hk & Hlt). by rewrite (NoDup_lookup _ _ _ _ program_NoDup Hj Hk).
  - intros Hlt. by exists j.
Qed.

Lemma count_mono x y i j l : ap_program !! i = Some x → ap_program !! j = Some y → (i ≤ j)%nat → count y l ≤ count x l.
Proof.
  intros Hi Hj Hij. unfold count. apply inj_le. induction l as [|a l IH]; [done|]. rewrite !filter_cons.
  rewrite (done_at x i a Hi), (done_at y j a Hj). repeat case_bool_decide; repeat first [rewrite decide_True by done | rewrite decide_False by done]; cbn [length]; lia.
Qed.

(** A processor with everything set up. *)
Definition ap_ready (h : Hw) (a : Ap) : Prop :=
  ap_hw a = (ap_entry (current_cpu_id (mpidr a)) h).2 ∧ vectors a = true ∧ unmasked a = true.

Lemma all_counted y l : count y l = Z.of_nat (length l) → Forall (λ a, done y a = true) l.
Proof.
  unfold count. induction l as [|a l IH]; [done|]. rewrite filter_cons. pose proof (length_filter (λ a, done y a = true) l).
  destruct (decide (done y a = true)) as [E|E]; cbn [length]; [|lia]. intros Hl. constructor; [done|]. apply IH. lia.
Qed.

Lemma online_ready h n s : smp_inv h n s → AP_ONLINE (shared s) = Z.of_nat n → Forall (ap_ready h) (aps s).
Proof.
  intros [Hl _ _ Ho Hp] E. rewrite Ho, <- Hl in E. apply all_counted in E. rewrite Forall_forall in *. intros a Ha.
  specialize (E a Ha). specialize (Hp a Ha). rewrite (done_at CountOnline 16 a eq_refl) in E. apply bool_decide_eq_true in E.
  apply finished; [done|]. pose proof (private_bound h a Hp). lia.
Qed.

(** C39. No processor is counted as online too early: in every state the processors can
    reach, in whatever order they run, the counters are ordered as their actions
    are, and when the count of finished processors is complete every processor has
    its vector table, its interrupt controller, its interface and its timer set up
    and its interrupts unmasked. *)
Theorem smp_online_ready h l s : Z.of_nat (length l) < 2 ^ 32 → rtc smp_step (all_fresh h l) s →
  0 ≤ AP_ONLINE (shared s) ≤ AP_MMIO_OK (shared s) ∧ AP_MMIO_OK (shared s) ≤ AP_ENTERED (shared s) ≤ Z.of_nat (length l) ∧
  (AP_ONLINE (shared s) = Z.of_nat (length l) → Forall (ap_ready h) (aps s)).
Proof.
  intros Hn Hr. pose proof (smp_inv_reachable h l s Hn Hr) as I. split; [|split; [|by apply online_ready]].
  - rewrite (in_online _ _ _ I), (in_mmio _ _ _ I). pose proof (count_bound CountOnline (aps s)).
    pose proof (count_mono CountMmio CountOnline 7 16 (aps s) eq_refl eq_refl ltac:(lia)). lia.
  - rewrite (in_mmio _ _ _ I), (in_entered _ _ _ I). pose proof (count_bound CountEntered (aps s)) as Hb. rewrite (in_len _ _ _ I) in Hb.
    pose proof (count_mono CountEntered CountMmio 0 7 (aps s) eq_refl eq_refl ltac:(lia)). lia.
Qed.

(** ** The wait *)

Lemma advance_reach i s : rtc smp_step s (advance i s).
Proof.
  destruct (aps s !! i) as [a|] eqn:Ea; [|unfold advance; rewrite Ea; apply rtc_refl].
  destruct (ap_program !! pos a) as [x|] eqn:Ex; [by eapply rtc_once, smp_advance|unfold advance; rewrite Ea, Ex; apply rtc_refl].
Qed.

Definition run (sched : list nat) (s : Smp) : Smp := foldl (λ s i, advance i s) s sched.

Lemma run_reach sched s : rtc smp_step s (run sched s).
Proof. revert s. induction sched as [|i l IH]; intros s; [apply rtc_refl|]. etransitivity; [apply advance_reach|apply IH]. Qed.

Lemma wait_reach expected env t s : rtc smp_step s (wait_online expected env t s).
Proof.
  revert s. induction t as [|t IH]; intros s; cbn [wait_online]; destruct (_ <? _); try apply rtc_refl.
  etransitivity; [apply (run_reach (env t))|apply IH].
Qed.

Lemma filter_keep {A} (P : A → Prop) `{∀ x, Decision (P x)} l : Forall P l → filter P l = l.
Proof. induction 1 as [|x l Hx Hl IH]; [done|]. by rewrite filter_cons, decide_True, IH. Qed.

Lemma started_length (cpus : list (Z * list Z)) bsp : NoDup cpus.*1 → bsp ∈ cpus.*1 →
  S (length (filter (λ c, c.1 ≠ bsp) cpus)) = length cpus.
Proof.
  induction cpus as [|c l IH]; [by intros _ ?%elem_of_nil|]. cbn [fmap list_fmap]. intros [Hn Hd]%NoDup_cons Hin. rewrite filter_cons.
  destruct (decide (c.1 = bsp)) as [E|E].
  - rewrite decide_False by tauto. cbn [length]. f_equal. rewrite filter_keep; [done|]. apply Forall_forall. intros x Hx Ex.
    apply Hn. rewrite E, <- Ex. by apply list_elem_of_fmap_2.
  - rewrite decide_True by done. apply elem_of_cons in Hin as [->|Hin]; [done|]. cbn [length]. by rewrite IH.
Qed.

(** What the boot processor reports is true: however the processors run while it
    waits, the number online never exceeds the number it expects, and when the two
    are equal every secondary processor has been set up completely. *)
Theorem bring_up_reports cpus bsp h env s r : NoDup cpus.*1 → bsp ∈ cpus.*1 → Z.of_nat (length cpus) < 2 ^ 32 →
  bring_up cpus bsp h env = Some (s, r) →
  r_online r ≤ r_expected r ∧ (r_online r = r_expected r → Forall (ap_ready h) (aps s)).
Proof.
  intros Hd Hb Hn. unfold bring_up. pose proof (started_length cpus bsp Hd Hb) as Hl. rewrite sub64_small by lia. cbn [mbind option_bind].
  set (st := filter _ cpus) in *. set (s0 := wait_online _ _ _ _). assert (rtc smp_step (all_fresh h st) s0) as Hr by apply wait_reach. clearbody s0.
  intros [= <- <-]. cbn [r_online r_expected report].
  assert (Z.of_nat (length st) < 2 ^ 32) as Hst by lia. pose proof (smp_inv_reachable h st s0 Hst Hr) as I.
  replace (Z.of_nat (length cpus) - 1) with (Z.of_nat (length st)) by lia. split; [|by apply online_ready].
  rewrite (in_online _ _ _ I). pose proof (count_bound CountOnline (aps s0)) as Hc. rewrite (in_len _ _ _ I) in Hc. lia.
Qed.

(** ** Progress *)

Definition turns (i : nat) (sched : list nat) : nat := length (filter (λ j, j = i) sched).

Lemma advance_pos i j s a : aps s !! i = Some a → (pos a ≤ 17)%nat →
  ∃ a', aps (advance j s) !! i = Some a' ∧ pos a' = (if bool_decide (j = i) then 17 `min` S (pos a) else pos a)%nat.
Proof.
  intros Ha Hp. unfold advance. case_bool_decide as E; [subst j; rewrite Ha|].
  - destruct (ap_program !! pos a) as [x|] eqn:Ex.
    + exists (act_private x a). cbn [aps]. rewrite list_lookup_insert_eq by (by eapply lookup_lt_Some). split; [done|].
      apply lookup_lt_Some in Ex. change (length ap_program) with 17%nat in Ex. rewrite (proj1 (private_pos x a)). lia.
    + exists a. split; [done|]. apply lookup_ge_None in Ex. change (length ap_program) with 17%nat in Ex. lia.
  - exists a. split; [|done]. destruct (aps s !! j) as [b|]; [|done]. destruct (ap_program !! pos b); [|done].
    cbn [aps]. by rewrite list_lookup_insert_ne.
Qed.

Lemma run_pos i sched : ∀ s a, aps s !! i = Some a → (pos a ≤ 17)%nat →
  ∃ a', aps (run sched s) !! i = Some a' ∧ pos a' = (17 `min` (pos a + turns i sched))%nat.
Proof.
  induction sched as [|j l IH]; intros s a Ha Hp; [exists a; change (turns i []) with 0%nat; split; [done|lia]|].
  destruct (advance_pos i j s a Ha Hp) as (a1 & Ha1 & Hp1). destruct (IH (advance j s) a1 Ha1) as (a2 & Ha2 & Hp2); [case_bool_decide; lia|].
  exists a2. split; [exact Ha2|]. rewrite Hp2, Hp1. unfold turns. rewrite filter_cons.
  case_bool_decide; [rewrite decide_True by done|rewrite decide_False by done]; cbn [length]; lia.
Qed.

(** Every processor comes online: once each of them has had seventeen turns, in any
    order, the counter says so. *)
Theorem all_come_online h l sched : Z.of_nat (length l) < 2 ^ 32 → (∀ i, (i < length l)%nat → (17 ≤ turns i sched)%nat) →
  let s := run sched (all_fresh h l) in AP_ONLINE (shared s) = Z.of_nat (length l) ∧ Forall (ap_ready h) (aps s).
Proof.
  intros Hn Ht s. pose proof (smp_inv_reachable h l s Hn (run_reach sched _)) as I.
  assert (AP_ONLINE (shared s) = Z.of_nat (length l)) as E; [|by eauto using online_ready].
  rewrite (in_online _ _ _ I), <- (in_len _ _ _ I). unfold count. do 2 f_equal. apply filter_keep, Forall_lookup. intros i a Ha.
  assert (i < length l)%nat as Hi by (rewrite <- (in_len _ _ _ I); by eapply lookup_lt_Some).
  destruct (lookup_lt_is_Some_2 (aps (all_fresh h l)) i) as [a0 H0]; [cbn; by rewrite length_fmap|].
  assert (pos a0 = 0%nat) as P0 by (cbn in H0; rewrite list_lookup_fmap in H0; destruct (l !! i); [by injection H0 as <-|done]).
  destruct (run_pos i sched (all_fresh h l) a0 H0 ltac:(lia)) as (a1 & H1 & P1). fold s in H1. rewrite H1 in Ha. injection Ha as <-.
  rewrite (done_at CountOnline 16 a1 eq_refl). apply bool_decide_eq_true_2. specialize (Ht i Hi). lia.
Qed.

(** Three processors of a four-processor machine. *)
Definition demo_cpus : list (Z * list Z) := [(0x80000001, [1; 2; 3; 4; 5]); (0x80000002, [1; 2; 3; 4; 5]); (0x80000003, [1; 2; 3; 4; 5])].
Definition demo_sched : list nat := concat (replicate 17 [2; 0; 1]%nat).

Lemma all_come_online_witness : AP_ONLINE (shared (run demo_sched (all_fresh demo_hw demo_cpus))) = 3.
Proof.
  refine (proj1 (all_come_online demo_hw demo_cpus demo_sched _ _)); [reflexivity|]. intros i Hi. cbn in Hi.
  destruct i as [|[|[|i]]]; [apply Nat.leb_le; reflexivity..|exfalso; lia].
Defined.

Lemma smp_online_ready_witness : let s := run (take 40 demo_sched) (all_fresh demo_hw demo_cpus) in
  0 ≤ AP_ONLINE (shared s) ≤ AP_MMIO_OK (shared s) ∧ AP_MMIO_OK (shared s) ≤ AP_ENTERED (shared s) ≤ 3.
Proof.
  intros s. destruct (smp_online_ready demo_hw demo_cpus s) as (H1 & H2 & _); [reflexivity|apply run_reach|exact (conj H1 H2)].
Defined.

(** Boot processor 0; the others take their turns before its looks. *)
Lemma bring_up_reports_witness : ∃ s r, bring_up ((0x80000000, []) :: demo_cpus) 0x80000000 demo_hw (λ _, demo_sched) = Some (s, r) ∧
  r_online r ≤ r_expected r ∧ (r_online r = r_expected r → Forall (ap_ready demo_hw) (aps s)).
Proof.
  destruct (bring_up ((0x80000000, []) :: demo_cpus) 0x80000000 demo_hw (λ _, demo_sched)) as [[s r]|] eqn:E.
  - exists s, r. split; [reflexivity|].
    apply (bring_up_reports ((0x80000000, []) :: demo_cpus) 0x80000000 demo_hw (λ _, demo_sched) s r); [|left|reflexivity|exact E].
    refine (bool_decide_unpack _ _). vm_compute. exact I.
  - exfalso. unfold bring_up in E. change (sub64 (Z.of_nat (length ((0x80000000, []) :: demo_cpus))) 1) with (Some 3) in E. discriminate E.
Defined.
