(* ===== verification/Irq.v ===== *)
(** * Exception handlers ([arch/aarch64/exceptions.rs])

    Interrupts, system calls and faults after the registers are saved ([Trap]):
    the two interrupt handlers with the tick and the scheduler, the synchronous
    handlers, demand paging, and the number printer they use.  [cpu] is the number of the processor.
    A handler that spins for ever returns [None]; messages of [log] are left out.
    [depth] bounds the recursion of [print_dec], as the kernel stack does. *)

From S2P Require Import Prelude.
From S2P Require Import Path.
From S2P Require Import Paging.
From S2P Require Import User.
From S2P Require Import Sched.
From S2P Require Import Vmm.
From S2P Require Import Kernel.
From S2P Require Import Mmap.
From S2P Require Import Proc.
From S2P Require Import Clone.
From S2P Require Import Aspace.
From S2P Require Import Frame.
From S2P Require Import Signal.
From S2P Require Import File.
From S2P Require Import FileOps.
From S2P Require Import Exec.
From S2P Require Import Gic.

(** [FUTEXES] and [TOKENS] are the tables of [Futex]; [SC] counts system calls. *)
Record St := mkSt {
  hw : Hw; os : Os; TICK_COUNT : Z; PER_CPU_TICKS : list Z; PF_COUNT : Z; LSC : Z; SC : Z; FUTEXES : gmap Z (list Z); TOKENS : gmap Z Z }.

Definition set_hw (x : Hw) (s : St) : St :=
  mkSt x (os s) (TICK_COUNT s) (PER_CPU_TICKS s) (PF_COUNT s) (LSC s) (SC s) (FUTEXES s) (TOKENS s).
Definition set_os (x : Os) (s : St) : St :=
  mkSt (hw s) x (TICK_COUNT s) (PER_CPU_TICKS s) (PF_COUNT s) (LSC s) (SC s) (FUTEXES s) (TOKENS s).
Definition set_ticks (t : Z) (l : list Z) (s : St) : St := mkSt (hw s) (os s) t l (PF_COUNT s) (LSC s) (SC s) (FUTEXES s) (TOKENS s).
Definition set_counts (pf lsc sc : Z) (s : St) : St :=
  mkSt (hw s) (os s) (TICK_COUNT s) (PER_CPU_TICKS s) pf lsc sc (FUTEXES s) (TOKENS s).
Definition set_futexes (w : gmap Z (list Z)) (t : gmap Z Z) (s : St) : St :=
  mkSt (hw s) (os s) (TICK_COUNT s) (PER_CPU_TICKS s) (PF_COUNT s) (LSC s) (SC s) w t.
Definition set_faults (n : Z) (s : St) : St := set_counts n (LSC s) (SC s) s.
Definition set_lsc (n : Z) (s : St) : St := set_counts (PF_COUNT s) n (SC s) s.
Definition set_sc (n : Z) (s : St) : St := set_counts (PF_COUNT s) (LSC s) n s.

Definition hardware {A} (m : M Hw A) : M St A := λ s, let '(r, x) := m (hw s) in (r, set_hw x s).
Definition kernel {A} (m : M Os A) : M St A := λ s, let '(r, x) := m (os s) in (r, set_os x s).
Definition terminal (m : M (Hw * Pty.Sys) ()) : M St () := λ s,
  let '(r, (h, t)) := m (hw s, ptys (os s)) in (r, set_hw h (set_os (set_ptys t (os s)) s)).

(** ** Interrupts *)

Definition ticks (s : St) : Z := TICK_COUNT s.
Definition count_tick (cpu : nat) (s : St) : St :=
  set_ticks ((TICK_COUNT s + 1) mod 2 ^ 64)
    (if bool_decide (cpu < 4)%nat then alter (λ t, (t + 1) mod 2 ^ 64) cpu (PER_CPU_TICKS s) else PER_CPU_TICKS s) s.

(** The tick, then the end of the interrupt, unless the processor has gone to
    another thread: then the end is left to the interrupted thread's return. *)
Definition tick_and_end (cpu : nat) (intid : Z) : M St (option (Switch * Z)) :=
  let! w := kernel (on_k (timer_tick cpu)) in
  match w with
  | Some sw => if switches sw then ret (Some (sw, intid)) else hardware (end_interrupt intid) ;;; ret None
  | None => hardware (end_interrupt intid) ;;; ret None
  end.

Definition irq_handler_rust (cpu : nat) : M St (option (Switch * Z)) :=
  let! intid := hardware ack_interrupt in
  if intid =? TIMER_IRQ then
    hardware timer_reset ;;;
    modify (count_tick cpu) ;;;
    tick_and_end cpu intid
  else if intid =? SGI_RESCHEDULE then tick_and_end cpu intid
  else if intid =? UART0_IRQ then
    terminal handle_rx_interrupt ;;;
    hardware (end_interrupt intid) ;;; ret None
  else if (1020 <=? intid) && (intid <=? 1023) then ret None
  else hardware (end_interrupt intid) ;;; ret None.

(** The handler for interrupts from user mode has the same body. *)
Definition lower_irq_handler_rust (cpu : nat) : M St (option (Switch * Z)) := irq_handler_rust cpu.

(** ** Printing numbers *)

(** The digits of [n], at most [i] of them, before [acc]. *)
Fixpoint dec_digits (i : nat) (n : Z) (acc : list Z) : list Z :=
  match i with
  | O => acc
  | S i' =>
      let acc := 48 + n mod 10 :: acc in
      if n / 10 =? 0 then acc else dec_digits i' (n / 10) acc
  end.

Definition hex_digit (nibble : Z) : Z := if nibble <? 10 then 48 + nibble else 97 + nibble - 10.

Fixpoint print_dec (depth : nat) (val : Z) : M Hw () :=
  match depth with
  | O => panic
  | S depth' =>
      if 0x7FFFFFFFFFFF0000 <? val then
        early_print (bytes_of "-") ;;;
        if val =? 2 ^ 63 then panic else print_dec depth' (2 ^ 64 - val)
      else if 0x1000 <=? val then
        early_print (bytes_of "0x") ;;;
        for_each (reverse (seqZ 0 16)) (λ i,
          let nibble := Z.land (Z.shiftr val (i * 4)) 0xF in
          when (negb (nibble =? 0) || (i <? 8)) (write_byte (hex_digit nibble)))
      else for_each (dec_digits 20 val []) write_byte
  end.

(** ** Demand paging *)

Definition too_low (far : Z) : bool := (far <? 0x1000) || ((far <? 0x400000) && (0x1000 <=? far)).

(** The page-table walk before the count has no effect. *)
Definition handle_page_fault (depth : nat) (ttbr0 far : Z) (is_write : bool) : M St bool :=
  let page_addr := Z.land far (not64 0xFFF) in
  if too_low far then ret false else
  let l0_phys := Z.land ttbr0 ADDR_MASK in
  let! count := gets PF_COUNT in
  modify (set_faults ((count + 1) mod 2 ^ 32)) ;;;
  when (count <? 20)
    (hardware (early_print (bytes_of "pf:")) ;;; hardware (print_dec depth page_addr) ;;; hardware (early_print [10])) ;;;
  if 10000 <? count then hardware (early_print (bytes_of "Too many page faults!" ++ [10])) ;;; ret false else
  let! o := kernel (on_machine (lift_pmm Pmm.alloc_page)) in
  match o with
  | None => ret false
  | Some phys =>
      kernel (on_machine (write_zero_page phys)) ;;;
      kernel (on_machine (map_user_page l0_phys page_addr phys USER_RW)) ;;;
      ret true
  end.

(** ** Synchronous exceptions *)

Section Sync.
(** [handle] is the system-call entry; it has no frame to resume when the thread
    has ended or waits for ever. *)
Context {F : Type} `{CpuContext F} (handle : F → M St (option F)) (depth : nat) (ttbr0 : Z).

Definition ec_of (esr : Z) : Z := Z.land (Z.shiftr esr 26) 0x3F.

Definition print_fault (tag : list Z) (ec a b : Z) (name_a name_b : list Z) : M St () :=
  hardware (early_print tag) ;;; hardware (print_dec depth ec) ;;;
  hardware (early_print name_a) ;;; hardware (print_dec depth a) ;;;
  hardware (early_print name_b) ;;; hardware (print_dec depth b) ;;;
  hardware (early_print [10]).

Definition sync_handler_rust (esr far : Z) (frame : F) : M St (option F) :=
  if ec_of esr =? 0x15 then handle frame
  else print_fault (bytes_of "!KS ec=") (ec_of esr) far (Frame.pc frame) (bytes_of " far=") (bytes_of " elr=") ;;; ret None.

Definition lower_sync_handler_rust (esr far : Z) (frame : F) : M St (option F) :=
  modify (λ s, set_lsc ((LSC s + 1) mod 2 ^ 32) s) ;;;
  let ec := ec_of esr in
  when (negb (ec =? 0x15)) (print_fault (bytes_of "LE:") ec (Frame.pc frame) far (bytes_of " elr=") (bytes_of " far=")) ;;;
  if ec =? 0x15 then handle frame
  else if (ec =? 0x20) || (ec =? 0x21) then
    let! ok := handle_page_fault depth ttbr0 far false in ret (if ok then Some frame else None)
  else if (ec =? 0x24) || (ec =? 0x25) then
    let! ok := handle_page_fault depth ttbr0 far (Z.testbit esr 6) in ret (if ok then Some frame else None)
  else ret None.

(** Any other exception is fatal. *)
Definition unhandled_exception_rust (frame : F) : M St (option F) := ret None.
End Sync.

(** ** The timer interrupt *)

Lemma hardware_spec {A} (m : M Hw A) s : hardware m s = ((m (hw s)).1, set_hw (m (hw s)).2 s).
Proof. unfold hardware. by destruct (m (hw s)). Qed.
Lemma kernel_spec {A} (m : M Os A) s : kernel m s = ((m (os s)).1, set_os (m (os s)).2 s).
Proof. unfold kernel. by destruct (m (os s)). Qed.
Lemma on_k_spec {A} (m : M K A) s : on_k m s = ((m (the_k s)).1, set_sig (set_kern (m (the_k s)).2 (sig s)) s).
Proof. unfold on_k, on_sig, on_kern, the_k. by destruct (m _). Qed.

Lemma filter_all {A} (P : A → Prop) `{∀ x, Decision (P x)} (l : list A) : (∀ x, x ∈ l → P x) → filter P l = l.
Proof.
  induction l as [|x l IH]; intros Hl; [done|]. rewrite filter_cons_True by (apply Hl; by left). f_equal. apply IH. intros y Hy. apply Hl. by right.
Qed.

(** The timer interrupt counts the tick, sets the timer for the next, and lets
    the sleepers wake and the scheduler choose.  It is ended at once if the thread
    goes on; if another thread is chosen it stays active, unended, while that
    thread runs: what is left to do is the end, on the old thread's return, and a
    processor that was idle has no thread to return to. *)
Theorem timer_irq_serviced cpu s w k p : pending (hw s) = TIMER_IRQ :: p → TIMER_IRQ ∉ active (hw s) →
  timer_tick cpu (the_k (os s)) = (Ok w, k) → (cpu < length (PER_CPU_TICKS s))%nat → (cpu < 4)%nat →
  ∃ r s', irq_handler_rust cpu s = (Ok r, s') ∧ the_k (os s') = k ∧ ticks s' = (ticks s + 1) mod 2 ^ 64 ∧
    PER_CPU_TICKS s' !! cpu = (λ t, (t + 1) mod 2 ^ 64) <$> PER_CPU_TICKS s !! cpu ∧
    Msr CNTP_TVAL (frequency (hw s) / 10) ∈ writes (hw s') ∧
    if from_option switches false w then r = (λ sw, (sw, TIMER_IRQ)) <$> w ∧ active (hw s') = TIMER_IRQ :: active (hw s)
    else r = None ∧ active (hw s') = active (hw s).
Proof.
  intros Hp Ha Hk Hl Hc. unfold irq_handler_rust. unfold bind at 1. rewrite hardware_spec. unfold ack_interrupt. cbn [fst snd].
  rewrite Hp. cbn [head default from_option id drop]. change (Z.land TIMER_IRQ 0xFFFFFF) with 30. change (30 <? 1020) with true.
  change (30 =? TIMER_IRQ) with true. cbv iota.
  erewrite bind_ok by (rewrite hardware_spec; reflexivity). kstep. unfold tick_and_end.
  erewrite bind_ok by (rewrite kernel_spec, on_k_spec; cbn [os set_hw count_tick set_ticks]; rewrite Hk; reflexivity). cbn [snd].
  assert (filter (λ i, i ≠ 30) (active (hw s)) = active (hw s)) as Hf.
  { apply filter_all. intros i Hi ->. by apply Ha. }
  destruct w as [sw|]; [destruct (switches sw) eqn:Esw|]; cbn [from_option]; rewrite ?Esw.
  all: do 2 eexists; (split; [kstep; reflexivity|]); cbn; rewrite ?bool_decide_eq_true_2, ?list_lookup_alter_eq by done;
    split_and!; try done; try (rewrite ?elem_of_app; set_solver).
  all: rewrite decide_False by (intros H; by apply H); apply Hf.
Qed.

(** ** Printing *)

Lemma early_print_spec l s : early_print l s = (Ok tt, set_fifos (rx s) (tx s ++ l) s).
Proof.
  unfold early_print, uart_write_byte. revert s. induction l as [|b l IH]; intros s; [by destruct s; cbn; rewrite app_nil_r|].
  cbn. unfold bind, modify. rewrite IH. cbn. by rewrite <- app_assoc.
Qed.

Lemma for_each_when_write l (b : Z → bool) (f : Z → Z) s :
  for_each l (λ i, when (b i) (write_byte (f i))) s = (Ok tt, set_fifos (rx s) (tx s ++ (f <$> filter (λ i, b i = true) l)) s).
Proof.
  revert s. induction l as [|i l IH]; intros s; [by destruct s; cbn; rewrite app_nil_r|].
  cbn [for_each]. unfold bind. destruct (b i) eqn:Eb; cbn [when].
  - rewrite filter_cons_True by done. unfold write_byte, uart_write_byte, modify. rewrite IH. cbn. by rewrite <- app_assoc.
  - rewrite filter_cons_False by (by rewrite Eb). unfold ret. apply IH.
Qed.

(** The numbers whose negation is as far from printable. *)
Definition near_min (val : Z) : Prop := 2 ^ 63 - 0x10000 < val < 2 ^ 63 + 0x10000.

Lemma print_dec_near_min depth : ∀ val s, near_min val → ∃ s', print_dec depth val s = (Panic, s').
Proof.
  induction depth as [|depth IH]; intros val s H; [by exists s|]. cbn [print_dec].
  destruct (Z.ltb_spec 0x7FFFFFFFFFFF0000 val); [|unfold near_min in H; lia].
  unfold bind at 1. rewrite early_print_spec. destruct (Z.eqb_spec val (2 ^ 63)); [by eexists|].
  apply IH. unfold near_min in *. lia.
Qed.

Lemma print_dec_low depth val s : 0 ≤ val ≤ 0x7FFFFFFFFFFF0000 → ∃ l, print_dec (S depth) val s = (Ok tt, set_fifos (rx s) (tx s ++ l) s).
Proof.
  intros H. cbn [print_dec]. destruct (Z.ltb_spec 0x7FFFFFFFFFFF0000 val); [lia|]. case_match.
  - unfold bind. rewrite early_print_spec, for_each_when_write. cbn. rewrite <- app_assoc. by eexists.
  - eexists. apply early_print_spec.
Qed.

Lemma print_dec_ok depth val s : 0 ≤ val < 2 ^ 64 → ~ near_min val → (2 ≤ depth)%nat →
  ∃ l, print_dec depth val s = (Ok tt, set_fifos (rx s) (tx s ++ l) s).
Proof.
  intros Hv Hn Hd. destruct depth as [|[|depth]]; [lia|lia|]. destruct (decide (val ≤ 0x7FFFFFFFFFFF0000)); [apply print_dec_low; lia|].
  cbn [print_dec]. destruct (Z.ltb_spec 0x7FFFFFFFFFFF0000 val); [|lia]. unfold bind at 1. rewrite early_print_spec.
  destruct (Z.eqb_spec val (2 ^ 63)); [unfold near_min in Hn; lia|].
  destruct (print_dec_low depth (2 ^ 64 - val) (set_fifos (rx s) (tx s ++ bytes_of "-") s)) as [l El]; [unfold near_min in Hn; lia|].
  cbn [print_dec] in El. rewrite El. cbn. rewrite <- app_assoc. by eexists.
Qed.

(** The number printer of the fault messages ends for every number but the ones
    next to 2^63, for which it calls itself with the negation for ever (or
    overflows, at 2^63 itself): two levels of calls print any other number, and no
    depth is enough for those. *)
Theorem print_dec_ends val s : 0 ≤ val < 2 ^ 64 →
  (∃ s', print_dec 2 val s = (Ok tt, s')) ↔ ~ (2 ^ 63 - 0x10000 < val < 2 ^ 63 + 0x10000).
Proof.
  intros Hv. split.
  - intros [s' E] Hn. destruct (print_dec_near_min 2 val s Hn) as [s'' E']. by rewrite E in E'.
  - intros Hn. destruct (print_dec_ok 2 val s Hv Hn) as [l El]; [lia|]. by eexists.
Qed.

Lemma hardware_then {B} (m : M Hw ()) (k : () → M St B) s h : m (hw s) = (Ok tt, h) → bind (hardware m) k s = k tt (set_hw h s).
Proof. intros E. unfold bind. by rewrite hardware_spec, E. Qed.
Lemma hardware_panics {B} (m : M Hw ()) (k : () → M St B) s h : m (hw s) = (Panic, h) → bind (hardware m) k s = (Panic, set_hw h s).
Proof. intros E. unfold bind. by rewrite hardware_spec, E. Qed.

Lemma print_fault_panics depth tag ec a b na nb s : (2 ≤ depth)%nat → 0 ≤ ec < 2 ^ 62 → 0 ≤ a < 2 ^ 62 → near_min b →
  ∃ s', print_fault depth tag ec a b na nb s = (Panic, s').
Proof.
  intros Hd He Ha Hb. unfold print_fault.
  assert (∀ v h, 0 ≤ v < 2 ^ 62 → ∃ h', print_dec depth v h = (Ok tt, h')) as Hok.
  { intros v h Hv. destruct (print_dec_ok depth v h) as [l El]; [lia|unfold near_min; lia|done|by eexists]. }
  rewrite (hardware_then _ _ _ _ (early_print_spec _ _)).
  edestruct (Hok ec) as [h1 E1]; [done|]. rewrite (hardware_then _ _ _ _ E1).
  rewrite (hardware_then _ _ _ _ (early_print_spec _ _)).
  edestruct (Hok a) as [h2 E2]; [done|]. rewrite (hardware_then _ _ _ _ E2).
  rewrite (hardware_then _ _ _ _ (early_print_spec _ _)).
  edestruct (print_dec_near_min depth b) as [h3 E3]; [done|]. rewrite (hardware_panics _ _ _ _ E3). by eexists.
Qed.

(** An access of a user program to an address next to 2^63 (not canonical, so
    it always faults) takes the kernel down: the handler prints the address before
    anything else, and the printer exhausts any stack. *)
Theorem user_address_kills_kernel `{CpuContext F} handle depth ttbr0 esr far (frame : F) s :
  (2 ≤ depth)%nat → ec_of esr = 0x24 → near_min far → 0 ≤ Frame.pc frame < 2 ^ 62 →
  ∃ s', lower_sync_handler_rust handle depth ttbr0 esr far frame s = (Panic, s').
Proof.
  intros Hd Hec Hf Hpc. unfold lower_sync_handler_rust. kstep. rewrite Hec. change (negb (0x24 =? 0x15)) with true. cbn [when].
  edestruct (print_fault_panics depth (bytes_of "LE:") 0x24 (Frame.pc frame) far (bytes_of " elr=") (bytes_of " far=")) as [s' E]; [done|lia|done|done|].
  unfold bind at 1. rewrite E. by eexists.
Qed.

(** ** Faults *)

(** The message of the first faults. *)
Lemma fault_message depth va (c : bool) s : 0 ≤ va < VA_END → (2 ≤ depth)%nat →
  ∃ s2, when c (hardware (early_print (bytes_of "pf:")) ;;; hardware (print_dec depth va) ;;; hardware (early_print [10])) s = (Ok tt, s2) ∧ os s2 = os s.
Proof.
  intros Hva Hd. destruct c; cbn [when]; [|by exists s].
  rewrite (hardware_then _ _ _ _ (early_print_spec _ _)).
  edestruct (print_dec_ok depth va) as [l El]; [unfold VA_END in *; lia|unfold near_min, VA_END in *; lia|done|]. rewrite (hardware_then _ _ _ _ El).
  rewrite hardware_spec, early_print_spec. by eexists.
Qed.

(** Handling a fault puts a fresh zero page behind the address. *)
Lemma fault_spec depth ttbr0 far is_write s lv : let root := Z.land ttbr0 ADDR_MASK in let m := mach_of (os s) in
  owned m root lv → 4 ≤ Pmm.free_pages (mpmm m) → 0x400000 ≤ far < VA_END → 0 ≤ PF_COUNT s ≤ 10000 → (2 ≤ depth)%nat →
  ∃ s' lv', handle_page_fault depth ttbr0 far is_write s = (Ok true, s') ∧ let m' := mach_of (os s') in
    owned m' root lv' ∧ kept m lv m' lv' ∧ ∀ x, 0 ≤ x < VA_END →
      user_byte (mem m') root x = (if x / 4096 =? far / 4096 then Some 0 else user_byte (mem m) root x) ∧
      user_perm m' root x = (if x / 4096 =? far / 4096 then Some (true, false) else user_perm m root x).
Proof.
  intros root m Ho Hfree Hfar Hpf Hd. unfold handle_page_fault.
  assert (too_low far = false) as -> by (unfold too_low; destruct (Z.ltb_spec far 0x1000), (Z.ltb_spec far 0x400000); done || lia).
  kstep. set (va := Z.land far (not64 0xFFF)).
  assert (va = far / 4096 * 4096) as Hva.
  { unfold va. change 0xFFF with (2 ^ 12 - 1). rewrite land_align_down by (unfold u64_ok, VA_END in *; lia). lia. }
  match goal with |- context [bind (when _ _) _ ?x] => set (s1 := x) end.
  destruct (fault_message depth va (PF_COUNT s <? 20) s1) as (s2 & E2 & Hos); [unfold VA_END in *; lia|done|]. change (os s1) with (os s) in Hos.
  rewrite (bind_ok _ _ _ _ _ E2). destruct (Z.ltb_spec 10000 (PF_COUNT s)); [lia|].
  destruct (map_user_page_zero m root lv va USER_RW Ho Hfree) as (q & p' & m' & lv' & Ea & Hq & Em & Ho' & Hk & _ & Hx).
  assert (kernel (on_machine (lift_pmm Pmm.alloc_page)) s2 = (Ok (Some (q * 4096)), set_os (with_mach (mkMach p' (mem m)) (os s)) s2)) as E3.
  { rewrite kernel_spec, on_machine_spec, Hos. unfold lift_pmm. change (mach_of (os s)) with m. by rewrite Ea. }
  rewrite (bind_ok _ _ _ _ _ E3).
  assert (kernel (on_machine (write_zero_page (q * 4096))) (set_os (with_mach (mkMach p' (mem m)) (os s)) s2) =
    (Ok tt, set_os (with_mach (mkMach p' (zero_page (mem m) (q * 4096))) (os s)) s2)) as E4.
  { by rewrite kernel_spec, on_machine_spec. }
  rewrite (bind_ok _ _ _ _ _ E4).
  assert (kernel (on_machine (map_user_page root va (q * 4096) USER_RW)) (set_os (with_mach (mkMach p' (zero_page (mem m) (q * 4096))) (os s)) s2) =
    (Ok tt, set_os (with_mach m' (os s)) s2)) as E5.
  { rewrite kernel_spec, on_machine_spec. cbn [os set_os]. rewrite mach_of_with, Em. done. }
  rewrite (bind_ok _ _ _ _ _ E5). eexists _, lv'. split; [reflexivity|]. cbn [os set_os]. rewrite mach_of_with. split; [done|]. split; [done|].
  intros x Hxr. destruct (Hx x) as [Hb Hp]. unfold user_perm. rewrite Hb, Hp.
  assert (bool_decide (vpage x = vpage va) = (x / 4096 =? far / 4096)) as ->.
  { destruct (Z.eqb_spec (x / 4096) (far / 4096)) as [E|E].
    - apply bool_decide_eq_true_2, vpage_small; [done|unfold VA_END in *; lia|]. rewrite Hva, Z.div_mul by lia. done.
    - apply bool_decide_eq_false_2. rewrite vpage_small by (unfold VA_END in *; lia). rewrite Hva, Z.div_mul by lia. done. }
  destruct (_ =? _); [|done]. split; [done|]. exact (f_equal Some (leaf_perm _ USER_RW eq_refl)).
Qed.

Lemma pte_of_page m root x y : vpage x = vpage y → pte_of m root x = pte_of m root y.
Proof. intros [E1 E2]%vpage_indices. unfold pte_of. by rewrite E1, E2. Qed.

(** The regions of a program: code, and from the interpreter over heap and mappings to
    the top of the stack. *)
Definition user_region (x : Z) : Prop := 0x400000 ≤ x < 0x500000 ∨ 0x5000000000 ≤ x < 0x7FFFFFFF0000.

(** Past the ten-thousandth fault, or without a free page, the fault is refused. *)
Lemma fault_refused depth ttbr0 far is_write s : 0x400000 ≤ far < VA_END → (2 ≤ depth)%nat → Pmm.pmm_inv (mpmm (mach_of (os s))) →
  10000 < PF_COUNT s ∨ (∀ p, Pmm.page_used (mpmm (mach_of (os s))) p = true) →
  ∃ s', handle_page_fault depth ttbr0 far is_write s = (Ok false, s') ∧ os s' = os s.
Proof.
  intros Hfar Hd Hinv Hno. unfold handle_page_fault.
  assert (too_low far = false) as -> by (unfold too_low; destruct (Z.ltb_spec far 0x1000), (Z.ltb_spec far 0x400000); done || lia).
  kstep. assert (0 ≤ Z.land far (not64 0xFFF) < VA_END) as Hva.
  { change 0xFFF with (2 ^ 12 - 1). rewrite land_align_down by (unfold u64_ok, VA_END in *; lia). unfold VA_END in *. lia. }
  match goal with |- context [bind (when _ _) _ ?x] => destruct (fault_message depth _ (PF_COUNT s <? 20) x Hva Hd) as (s2 & E2 & Hos) end.
  rewrite (bind_ok _ _ _ _ _ E2). destruct (Z.ltb_spec 10000 (PF_COUNT s)).
  - rewrite (hardware_then _ _ _ _ (early_print_spec _ _)). by eexists.
  - destruct Hno as [|H0]; [lia|]. rewrite (bind_ok _ _ s2 None s2); [by eexists|].
    rewrite kernel_spec, on_machine_spec, Hos. unfold lift_pmm. change (os (set_faults _ s)) with (os s).
    destruct (Pmm.alloc_page_cases _ Hinv) as [(p & ? & _ & _ & Hu & _)|(E & _)]; [by rewrite H0 in Hu|]. rewrite E. cbn [fst snd].
    f_equal. change (os (set_faults _ s)) with (os s) in Hos. rewrite <- Hos.
    assert (set_pmm (mpmm (mach_of (os s2))) (mach_of (os s2)) = mach_of (os s2)) as -> by (by destruct (mach_of (os s2))).
    rewrite with_mach_same. by destruct s2.
Qed.

(** C17. Demand paging.  A fault below 0x400000 is refused and changes nothing.  A fault
    on an unmapped address in one of the program's regions (code, and from the
    interpreter to the top of the stack), with at most 10000 faults before it and four
    free pages, is repaired: every byte of the page is then 0, readable, writable and
    not executable, and everything else the program has mapped is as before.  After
    more than 10000 faults, or when no page is free, it is refused and the program's
    memory stays as it was. *)
Theorem fault_maps_zero_page depth ttbr0 far is_write s lv : let root := Z.land ttbr0 ADDR_MASK in let m := mach_of (os s) in
  owned m root lv → (2 ≤ depth)%nat → 0 ≤ PF_COUNT s →
  (far < 0x400000 → handle_page_fault depth ttbr0 far is_write s = (Ok false, s)) ∧
  (user_region far → user_byte (mem m) root far = None →
   (PF_COUNT s ≤ 10000 → 4 ≤ Pmm.free_pages (mpmm m) →
    ∃ s' lv', handle_page_fault depth ttbr0 far is_write s = (Ok true, s') ∧ let m' := mach_of (os s') in
      owned m' root lv' ∧
      (∀ x, x / 4096 = far / 4096 → user_byte (mem m') root x = Some 0 ∧ user_perm m' root x = Some (true, false)) ∧
      ∀ x b, 0 ≤ x < VA_END → user_byte (mem m) root x = Some b →
        user_byte (mem m') root x = Some b ∧ user_perm m' root x = user_perm m root x) ∧
   (10000 < PF_COUNT s ∨ (∀ p, Pmm.page_used (mpmm m) p = true) →
    ∃ s', handle_page_fault depth ttbr0 far is_write s = (Ok false, s') ∧ os s' = os s)).
Proof.
  cbv zeta. intros Ho Hd Hpf. split.
  { intros Hlow. unfold handle_page_fault. assert (too_low far = true) as ->; [|done].
    unfold too_low. destruct (Z.ltb_spec far 0x1000), (Z.ltb_spec far 0x400000), (Z.leb_spec 0x1000 far); done || lia. }
  intros Hreg Hn. assert (0x400000 ≤ far < VA_END) as Hfar by (unfold user_region, VA_END in *; lia). split.
  - intros Hc Hfree. destruct (fault_spec depth ttbr0 far is_write s lv Ho Hfree Hfar (conj Hpf Hc) Hd) as (s' & lv' & E & Ho' & _ & H). cbv zeta in H.
    exists s', lv'. split; [exact E|]. split; [exact Ho'|]. split.
    + intros x Ex. destruct (H x) as [-> ->]; [unfold VA_END in *; lia|]. by rewrite (proj2 (Z.eqb_eq _ _) Ex).
    + intros x b Hx Hb. destruct (H x Hx) as [-> ->]. destruct (Z.eqb_spec (x / 4096) (far / 4096)) as [Ex|]; [|done].
      exfalso. rewrite byte_pte in Hb, Hn. rewrite (pte_of_page _ _ x far) in Hb by (apply vpage_small; unfold VA_END in *; lia).
      by destruct (pte_of _ _ far).
  - apply fault_refused; [done|done|apply Ho].
Qed.

(** The same happens when the page is mapped and the access was not allowed,
    such as a write to a read-only segment: instead of an error the program gets a
    writable page of zeros, the old contents are gone from its memory, and the
    frame that held them stays allocated with no mapping. *)
Theorem fault_wipes_mapped_page depth ttbr0 far is_write s lv e : let root := Z.land ttbr0 ADDR_MASK in let m := mach_of (os s) in
  owned m root lv → 4 ≤ Pmm.free_pages (mpmm m) → 0x400000 ≤ far < VA_END → 0 ≤ PF_COUNT s ≤ 10000 → (2 ≤ depth)%nat →
  pte_of m root far = Some e →
  ∃ s', handle_page_fault depth ttbr0 far is_write s = (Ok true, s') ∧ let m' := mach_of (os s') in
    (∀ x, 0 ≤ x < VA_END → x / 4096 = far / 4096 → user_byte (mem m') root x = Some 0 ∧ user_perm m' root x = Some (true, false)) ∧
    Pmm.page_used (mpmm m') (pte_addr e / 4096) = true.
Proof.
  cbv zeta. intros Ho Hfree Hfar Hpf Hd He. destruct (fault_spec depth ttbr0 far is_write s lv Ho Hfree Hfar Hpf Hd) as (s' & lv' & E & Ho' & Hk & H). cbv zeta in H.
  exists s'. split; [exact E|]. split.
  - intros x Hx Ex. destruct (H x Hx) as [-> ->]. by rewrite Ex, Z.eqb_refl.
  - destruct (own_frame _ _ _ Ho far e He) as (q & -> & Hq & Hu & _). rewrite Z.div_mul by lia. by apply (kept_used _ _ _ _ Hk); [apply Hq|].
Qed.

(** ** Demonstration *)

Definition demo_st (m : Mach) : St := mkSt demo_hw (with_mach m demo_ready) 0 [0; 0; 0; 0] 0 0 0 ∅ ∅.

(** A processor with nothing to run. *)
Definition demo_tick_st : St :=
  set_hw (mkHw [] [] [30] [] [] [] 62500000) (set_os (set_sig (set_kern Proc.demo_k (sig demo_ready)) demo_ready) (demo_st (mkMach (Pmm.mkPmm [] 0 0) (λ _, 0)))).

Lemma timer_irq_serviced_witness : ∃ s', irq_handler_rust 0 demo_tick_st = (Ok None, s') ∧ ticks s' = 1 ∧ active (hw s') = [].
Proof.
  assert ((timer_tick 0 (the_k (os demo_tick_st))).1 = Ok None) as Hw by (vm_compute; reflexivity).
  destruct (timer_tick 0 (the_k (os demo_tick_st))) as [w k] eqn:E. cbn in Hw. subst w.
  destruct (timer_irq_serviced 0 demo_tick_st None k []) as (r & s' & Ei & _ & Ht & _ & _ & [-> Ha]);
    [reflexivity|by apply not_elem_of_nil|exact E|cbn; lia|lia|].
  exists s'. split; [exact Ei|]. split; [exact Ht|exact Ha].
Defined.

Lemma print_dec_ends_witness : (∃ s', print_dec 2 0xFFFFFFFFFFFFFFF2 demo_hw = (Ok tt, s')) ∧ ~ (∃ s', print_dec 2 0x7FFFFFFFFFFFFFFF demo_hw = (Ok tt, s')).
Proof.
  split.
  - apply (print_dec_ends 0xFFFFFFFFFFFFFFF2 demo_hw); lia.
  - intros H. apply (print_dec_ends 0x7FFFFFFFFFFFFFFF demo_hw) in H; lia.
Defined.

Lemma user_address_kills_kernel_witness : ∃ s',
  lower_sync_handler_rust (λ f, ret (Some f)) 100 4096 (Z.shiftl 0x24 26) 0x7FFFFFFFFFFFFFFF demo_frame (demo_st (mkMach (Pmm.mkPmm [] 0 0) (λ _, 0))) = (Panic, s').
Proof.
  apply (user_address_kills_kernel (λ f, ret (Some f)) 100 4096 (Z.shiftl 0x24 26) 0x7FFFFFFFFFFFFFFF demo_frame); [lia|reflexivity|unfold near_min; lia|cbn; lia].
Defined.

Lemma fault_maps_zero_page_witness : ∃ m s', handle_page_fault 2 8192 0x400123 true (demo_st m) = (Ok true, s') ∧
  user_byte (mem (mach_of (os s'))) 8192 0x400123 = Some 0.
Proof.
  destruct demo_fork as (m & lvp & _ & Oc & _ & Hn & _ & Hf). exists m.
  destruct (fault_maps_zero_page 2 8192 0x400123 true (demo_st m) {[8192 := 0%nat]}) as [_ H]; [exact Oc|lia|cbn; lia|].
  destruct H as [H _].
  - left. by split.
  - rewrite byte_pte. change (pte_of (mach_of (os (demo_st m))) (Z.land 8192 ADDR_MASK) 0x400123) with (pte_of m 8192 0x400123). by rewrite Hn.
  - destruct H as (s' & lv' & E & _ & Hb & _); [cbn; lia|exact Hf|]. exists s'. split; [exact E|]. by apply Hb.
Defined.

Lemma fault_wipes_mapped_page_witness : ∃ m s', is_Some (pte_of m 4096 0x400000) ∧
  handle_page_fault 2 4096 0x400000 true (demo_st m) = (Ok true, s') ∧ user_byte (mem (mach_of (os s'))) 4096 0x400000 = Some 0.
Proof.
  destruct demo_fork as (m & lvp & Op & _ & _ & _ & [e He] & Hf). exists m.
  destruct (fault_wipes_mapped_page 2 4096 0x400000 true (demo_st m) lvp e) as (s' & E & H & _);
    [exact Op|exact Hf|by split|cbn; lia|lia|exact He|].
  exists s'. split; [by eexists|]. split; [exact E|]. by apply (H 0x400000); [split|].
Defined.
