(* ===== verification/Procfs.v ===== *)
(** * The process directory ([fs/procfs.rs]) and the boot of the file tree ([fs/mod.rs])

    [/proc/self] is built from the process table, the area map of the process and
    the descriptor table; [init] of the file system builds it once.  Texts are byte
    lists.  The inodes [held] are locked by the caller: an open file of one of them
    makes the builder wait for ever, which is a panic. *)

From S2P Require Import Prelude.
From S2P Require Import Path.
From S2P Require Import Vfs.
From S2P Require Import Vmm.
From S2P Require Import Pty.
From S2P Require Import Kernel.
From S2P Require Import Signal.
From S2P Require Import File.
From S2P Require Import FileOps.
From S2P Require Import FsSys.
From S2P Require Irq.

(** ** Texts *)

(** A number in decimal; 20 digits are enough for 64 bits. *)
Definition dec (n : Z) : list Z := Irq.dec_digits 20 n [].

Definition tab : list Z := [9].
Definition nl : list Z := [10].

Definition current_exe_path (cpu : nat) (k : K) : list Z :=
  match PROCESS_TABLE k !! current_pid cpu k with
  | Some info =>
      let name := bytes_of (p_name info) in
      if starts_with [slash] name then name else bytes_of "/usr/bin/" ++ name
  | None => bytes_of "/usr/bin/init"
  end.

(** What the builder takes from the process table. *)
Record SelfInfo := mkInfo {
  proc_name : list Z; s_ppid : Z; s_tgid : Z; s_uid : Z; s_euid : Z; s_gid : Z; s_egid : Z; n_threads : Z;
  environ_blob : list Z }.

Definition self_info (pid : Z) (k : K) : SelfInfo :=
  match PROCESS_TABLE k !! pid with
  | Some i => mkInfo (bytes_of (p_name i)) (ppid i) (tgid i) (uid i) (euid i) (gid i) (egid i)
                (Z.of_nat (length (p_threads i))) (environ i)
  | None => mkInfo (bytes_of "init") 0 pid 0 0 0 0 1 []
  end.

Definition cmdline_text (i : SelfInfo) : list Z := proc_name i ++ [0].

Definition default_maps (exe_path : list Z) : list Z :=
  bytes_of "00400000-00401000 r-xp 00000000 00:00 0          " ++ exe_path ++ nl ++
  bytes_of "7fffffffe000-7ffffffff000 rw-p 00000000 00:00 0          [stack]" ++ nl.

Definition maps_text (pid : Z) (exe_path : list Z) (k : K) : list Z :=
  match PROCESS_TABLE k !! pid with
  | Some p =>
      let rendered := bytes_of (maps_string (vmm_of p k)) in
      if bool_decide (rendered = []) then default_maps exe_path else rendered
  | None => default_maps exe_path
  end.

Definition spaced (l : list Z) : list Z := join 32 (dec <$> l).

Definition status_text (pid : Z) (i : SelfInfo) : list Z :=
  bytes_of "Name:" ++ tab ++ proc_name i ++ nl ++ bytes_of "Pid:" ++ tab ++ dec pid ++ nl ++
  bytes_of "Tgid:" ++ tab ++ dec (s_tgid i) ++ nl ++ bytes_of "PPid:" ++ tab ++ dec (s_ppid i) ++ nl ++
  bytes_of "Uid:" ++ tab ++ spaced [s_uid i; s_euid i; s_uid i; s_euid i] ++ nl ++
  bytes_of "Gid:" ++ tab ++ spaced [s_gid i; s_egid i; s_gid i; s_egid i] ++ nl ++
  bytes_of "VmRSS:" ++ tab ++ bytes_of "4096 kB" ++ nl ++ bytes_of "Threads:" ++ tab ++ dec (n_threads i) ++ nl.

Definition stat_text (pid : Z) (i : SelfInfo) : list Z :=
  dec pid ++ bytes_of " (" ++ proc_name i ++ bytes_of ") S 0 " ++ spaced [pid; pid] ++
  bytes_of " 0 -1 0 0 0 0 0 0 0 0 0 20 0 1 0 0 4096 1" ++ nl.

(** [{:?}] of a file type. *)
Definition ftype_name (t : FileType) : list Z := bytes_of
  match t with
  | Regular => "Regular" | Directory => "Directory" | CharDevice => "CharDevice" | Pipe => "Pipe" | Epoll => "Epoll"
  | EventFd => "EventFd" | TimerFd => "TimerFd" | SignalFd => "SignalFd" | MemFd => "MemFd" | PidFd => "PidFd"
  | Socket => "Socket" | PtyMaster => "PtyMaster" | PtySlave => "PtySlave"
  end%string.

(** ** Directories *)

Definition text_file (mode : Z) (data : list Z) : Inode := set_data data (new_file mode).
Definition link_to (target : list Z) : Inode := set_data target (set_itype ISymlink (new_file 0x1FF)).

(** [dir.children.insert(name, ..)] for one new inode after another. *)
Definition put_all (dir : Z) (l : list (string * Inode)) : M Fs () := for_each l (λ e, put_new dir e.1 e.2 ;;; ret tt).

Definition self_fd (fd : Z) : list Z := bytes_of "/proc/self/fd/" ++ dec fd.

Definition fd_target (held : list Z) (fd : Z) : M Os (list Z) :=
  let! r := try (get_file fd) in
  match r with
  | inl h =>
      let! f := gets (λ s, file s h) in
      match inode f with
      | Some n =>
          if bool_decide (n ∈ held) then panic else
          let! ty := gets (λ s, itype (node (tree s) n)) in
          ret match ty with
              | ICharDevice => bytes_of "/dev/tty"
              | IDirectory => dot
              | _ => self_fd fd
              end
      | None => ret (bytes_of "anon_inode:" ++ ftype_name (ftype f))
      end
  | inr _ => ret (self_fd fd)
  end.

(** One entry of the descriptor directory. *)
Definition put_fd (held : list Z) (fd_dir fd : Z) : M Os () :=
  let! target := fd_target held fd in
  let! h := on_tree (alloc_inode (link_to target)) in
  on_tree (modify (add_child fd_dir (dec fd) h)).

(** The entries before and after the descriptor directory. *)
Definition self_first (cpu : nat) (k : K) : list (string * Inode) :=
  let pid := current_pid cpu k in let i := self_info pid k in let exe_path := current_exe_path cpu k in
  [("exe", link_to exe_path); ("cmdline", text_file 0x124 (cmdline_text i));
   ("maps", text_file 0x124 (maps_text pid exe_path k)); ("status", text_file 0x124 (status_text pid i))]%string.

Definition mounts_text : list Z :=
  bytes_of "rootfs / rootfs rw 0 0" ++ nl ++ bytes_of "proc /proc proc rw,nosuid,nodev,noexec,relatime 0 0" ++ nl ++
  bytes_of "tmpfs /tmp tmpfs rw,nosuid,nodev 0 0" ++ nl.

Definition self_rest (cpu : nat) (k : K) : list (string * Inode) :=
  let pid := current_pid cpu k in let i := self_info pid k in
  [("stat", text_file 0x124 (stat_text pid i)); ("statm", text_file 0x124 (bytes_of "1024 256 128 64 0 960 0" ++ nl));
   ("mounts", text_file 0x124 mounts_text); ("environ", text_file 0x100 (environ_blob i));
   ("cgroup", text_file 0x124 (bytes_of "0::/" ++ nl))]%string.

Definition build_self_dir (cpu : nat) (held : list Z) : M Os Z :=
  let! self_dir := on_tree (alloc_inode (new_dir 0x16D)) in
  let! k := gets (λ s, kern (sig s)) in
  on_tree (put_all self_dir (self_first cpu k)) ;;;
  let! fd_dir := on_tree (alloc_inode (new_dir 0x16D)) in
  let! fds := list_open_fds in
  for_each fds (put_fd held fd_dir) ;;;
  on_tree (modify (add_child self_dir (bytes_of "fd") fd_dir)) ;;;
  on_tree (put_all self_dir (self_rest cpu k)) ;;;
  ret self_dir.

Definition proc_first : list (string * Inode) :=
  [("meminfo", text_file 0x124 (bytes_of "MemTotal:      524288 kB" ++ nl ++ bytes_of "MemFree:       480000 kB" ++ nl ++
                                bytes_of "MemAvailable:  490000 kB" ++ nl));
   ("cpuinfo", text_file 0x124 (bytes_of "processor" ++ tab ++ bytes_of ": 0" ++ nl ++
                                bytes_of "model name" ++ tab ++ bytes_of ": Cyllor Virtual CPU" ++ nl));
   ("version", text_file 0x124 (bytes_of "Cyllor OS 0.1.0 (rustc)" ++ nl))]%string.

Definition filesystems_text : list Z :=
  bytes_of "nodev" ++ tab ++ bytes_of "tmpfs" ++ nl ++ bytes_of "nodev" ++ tab ++ bytes_of "proc" ++ nl ++
  bytes_of "nodev" ++ tab ++ bytes_of "sysfs" ++ nl ++ tab ++ bytes_of "ext4" ++ nl.

(** [/proc/sys/kernel/pid_max] and its directories. *)
Definition put_sys (proc : Z) : M Fs () :=
  let! proc_sys_dir := alloc_inode (new_dir 0x16D) in
  let! kernel_dir := alloc_inode (new_dir 0x16D) in
  put_all kernel_dir [("pid_max"%string, text_file 0x124 (bytes_of "32768" ++ nl))] ;;;
  modify (add_child proc_sys_dir (bytes_of "kernel") kernel_dir) ;;;
  modify (add_child proc (bytes_of "sys") proc_sys_dir).

(** [procfs::init]: the root and [/proc] stay locked while the directory is built. *)
Definition procfs_init (cpu : nat) : M Os () :=
  let! r := on_tree root in
  let! o := gets (λ s, child (tree s) r (bytes_of "proc")) in
  match o with
  | Some proc =>
      let! self_dir := build_self_dir cpu [r; proc] in
      on_tree (modify (add_child proc (bytes_of "self") self_dir)) ;;;
      on_tree (modify (add_child proc (bytes_of "1") self_dir)) ;;;
      on_tree (put_all proc proc_first) ;;;
      on_tree (put_sys proc) ;;;
      on_tree (put_all proc [("filesystems"%string, text_file 0x124 filesystems_text)])
  | None => ret tt
  end.

(** [fs::init]; [tmpfs::init] does nothing. *)
Definition fs_init (cpu : nat) : M Os () := on_tree Vfs.init ;;; on_tree devfs_init ;;; procfs_init cpu.

Example status_example :
  status_text 7 (mkInfo (bytes_of "sh") 1 7 0 0 10 20 1 []) =
  bytes_of "Name:	sh
Pid:	7
Tgid:	7
PPid:	1
Uid:	0 0 0 0
Gid:	10 20 10 20
VmRSS:	4096 kB
Threads:	1
".
Proof. vm_compute. reflexivity. Qed.

(** ** Numbers read back *)

Lemma parse_dec_digits l i : ∀ n, 0 ≤ n < 10 ^ Z.of_nat i → (0 < i)%nat → ∃ p, n < p ∧
  ∀ acc, 0 ≤ acc → acc * p + n < 2 ^ 32 → parse_digits acc (Irq.dec_digits i n l) = parse_digits (acc * p + n) l.
Proof.
  revert l. induction i as [|i IH]; intros l n Hn Hi; [lia|]. cbn [Irq.dec_digits].
  assert (∀ acc, 0 ≤ acc → acc * 10 + n mod 10 < 2 ^ 32 →
    parse_digits acc (48 + n mod 10 :: l) = parse_digits (acc * 10 + n mod 10) l) as Hone.
  { intros acc Ha Hb. cbn [parse_digits]. unfold digit. rewrite (proj2 (Z.leb_le 48 _)), (proj2 (Z.leb_le _ 57)) by lia. cbn.
    replace (48 + n mod 10 - 48) with (n mod 10) by lia. by rewrite (proj2 (Z.ltb_lt _ _)) by lia. }
  destruct (Z.eqb_spec (n / 10) 0) as [E|E].
  - exists 10. split; [lia|]. intros acc Ha Hb. rewrite Hone by lia. f_equal. lia.
  - assert (0 < i)%nat as Hi' by (destruct i; [cbn in Hn; lia|lia]). rewrite Nat2Z.inj_succ, Z.pow_succ_r in Hn by lia.
    destruct (IH (48 + n mod 10 :: l) (n / 10)) as (p & Hp & H); [lia|lia|]. exists (10 * p). split; [lia|].
    intros acc Ha Hb. rewrite H by nia. rewrite Hone by nia. f_equal. lia.
Qed.

Lemma dec_digits_head i n l : 0 ≤ n → (0 < i)%nat → ∃ d l', Irq.dec_digits i n l = d :: l' ∧ 48 ≤ d ≤ 57.
Proof.
  revert n l. induction i as [|i IH]; intros n l Hn Hi; [lia|]. cbn [Irq.dec_digits].
  destruct (Z.eqb_spec (n / 10) 0); [eexists _, _; split; [reflexivity|lia]|]. destruct i; [eexists _, _; split; [reflexivity|lia]|].
  apply IH; lia.
Qed.

Lemma parse_u32_digit d l : 48 ≤ d ≤ 57 → parse_u32 (d :: l) = parse_digits 0 (d :: l).
Proof.
  intros Hd. assert (d ∈ seqZ 48 10) as H by (apply elem_of_seqZ; lia). cbn in H.
  repeat (apply elem_of_cons in H as [->|H]; [reflexivity|]). by apply elem_of_nil in H.
Qed.

Lemma parse_dec n : 0 ≤ n < 2 ^ 32 → parse_u32 (dec n) = Some n.
Proof.
  intros Hn. unfold dec. destruct (dec_digits_head 20 n []) as (d & l & E & Hd); [lia..|].
  destruct (parse_dec_digits [] 20 n) as (p & Hp & H); [lia..|]. specialize (H 0). rewrite E in *.
  rewrite parse_u32_digit, H by lia. cbn. by rewrite Z.add_0_l.
Qed.

Lemma dec_inj a b : 0 ≤ a < 2 ^ 32 → 0 ≤ b < 2 ^ 32 → dec a = dec b → a = b.
Proof. intros Ha Hb E. apply parse_dec in Ha, Hb. rewrite E in Ha. congruence. Qed.

(** ** Adding inodes *)

(** [t'] is [t] with new inodes and maybe other entries in the directory [d]. *)
Record adds (d : Z) (t t' : Fs) : Prop := {
  ad_closed : closed t';
  ad_root : ROOT t' = ROOT t;
  ad_dom : ∀ h, is_Some (inodes t !! h) → is_Some (inodes t' !! h);
  ad_node : ∀ h, is_Some (inodes t !! h) → h ≠ d → node t' h = node t h }.

Lemma adds_refl d t : closed t → adds d t t.
Proof. by split. Qed.

Lemma adds_trans d t1 t2 t3 : adds d t1 t2 → adds d t2 t3 → adds d t1 t3.
Proof.
  intros H1 H2. split; [apply H2|by rewrite (ad_root _ _ _ H2), (ad_root _ _ _ H1)|intros h Hh; by eapply ad_dom, ad_dom|].
  intros h Hh Hne. rewrite (ad_node _ _ _ H2) by (done || by eapply ad_dom). by eapply ad_node.
Qed.

Lemma alloc_adds d i t : closed t → children i = ∅ → adds d t (alloc_inode i t).2.
Proof.
  intros Hc Hi. assert (∀ h, is_Some (inodes (alloc_inode i t).2 !! h) ↔ h = NEXT_INODE t ∨ is_Some (inodes t !! h)) as Hdom.
  { intros h. cbn. destruct (decide (h = NEXT_INODE t)) as [->|]; [rewrite lookup_insert, decide_True by done; split; eauto|].
    rewrite lookup_insert_ne by done. naive_solver. }
  split; [split|..].
  - intros r Hr. apply Hdom. right. by apply Hc.
  - intros d' c h. unfold child. rewrite node_alloc, Hdom. case_bool_decide; [by rewrite Hi|]. intros Hh. right. by eapply cl_child.
  - intros h [->|Hh%Hc]%Hdom; cbn; lia.
  - done.
  - intros h Hh. apply Hdom. by right.
  - intros h Hh _. rewrite node_alloc, bool_decide_eq_false_2; [done|]. pose proof (cl_next _ Hc _ Hh). lia.
Qed.

Lemma add_child_adds d n h t : closed t → is_Some (inodes t !! d) → is_Some (inodes t !! h) → adds d t (add_child d n h t).
Proof.
  intros Hc Hd Hh. pose proof (add_child_edited t d n h Hd) as He. split.
  - eapply edited_closed; [done| |done]. by intros ? [= <-].
  - done.
  - intros h'. by rewrite (ed_dom _ _ _ _ _ He).
  - intros h' _ Hne. unfold add_child. rewrite node_on, bool_decide_eq_false_2; [done|]. by intros [-> _].
Qed.

Lemma alloc_present i t : is_Some (inodes (alloc_inode i t).2 !! NEXT_INODE t).
Proof. cbn. rewrite lookup_insert, decide_True by done. eauto. Qed.

Lemma with_new_adds i d n t : closed t → is_Some (inodes t !! d) → children i = ∅ → adds d t (with_new i d n t).
Proof.
  intros Hc Hd Hi. pose proof (alloc_adds d i t Hc Hi) as Ha. eapply adds_trans; [exact Ha|].
  apply add_child_adds; [apply Ha|by eapply ad_dom|apply alloc_present].
Qed.

Lemma with_new_child i d n t c : closed t → is_Some (inodes t !! d) →
  child (with_new i d n t) d c = if bool_decide (c = n) then Some (NEXT_INODE t) else child t d c.
Proof.
  intros Hc Hd. pose proof (cl_next _ Hc _ Hd). assert (is_Some (inodes (alloc_inode i t).2 !! d)) as Hd'.
  { cbn. rewrite lookup_insert_ne by lia. done. }
  pose proof (add_child_edited _ _ n (NEXT_INODE t) Hd') as He. unfold with_new. case_bool_decide as E; [subst; apply He|].
  rewrite (ed_else _ _ _ _ _ He) by congruence. unfold child. rewrite node_alloc, bool_decide_eq_false_2 by lia. done.
Qed.

Lemma with_new_node i d n t : closed t → is_Some (inodes t !! d) → node (with_new i d n t) (NEXT_INODE t) = i.
Proof.
  intros Hc Hd. pose proof (cl_next _ Hc _ Hd). unfold with_new, add_child.
  rewrite node_on, bool_decide_eq_false_2, node_alloc, bool_decide_eq_true_2 by (done || lia). done.
Qed.

(** *** Several entries *)

Definition put_result (d : Z) (l : list (string * Inode)) (t : Fs) : Fs :=
  foldl (λ t e, with_new e.2 d (bytes_of e.1) t) t l.

Lemma put_all_run d l t : put_all d l t = (Ok tt, put_result d l t).
Proof. revert t. induction l as [|e l IH]; intros t; [done|]. apply IH. Qed.

Definition leaves (l : list (string * Inode)) : Prop := Forall (λ e, children e.2 = ∅) l.

Lemma put_result_adds d l t : closed t → is_Some (inodes t !! d) → leaves l → adds d t (put_result d l t).
Proof.
  revert t. induction l as [|e l IH]; intros t Hc Hd Hl; [by apply adds_refl|]. apply Forall_cons in Hl as [He Hl].
  pose proof (with_new_adds e.2 d (bytes_of e.1) t Hc Hd He) as Ha. eapply adds_trans; [exact Ha|].
  apply IH; [apply Ha|by eapply ad_dom|done].
Qed.

Lemma put_result_child d l t c : closed t → is_Some (inodes t !! d) → leaves l → c ∉ bytes_of <$> l.*1 →
  child (put_result d l t) d c = child t d c.
Proof.
  revert t. induction l as [|e l IH]; intros t Hc Hd Hl Hn; [done|]. apply Forall_cons in Hl as [He Hl].
  rewrite !fmap_cons, not_elem_of_cons in Hn. destruct Hn as [Hne Hn].
  pose proof (with_new_adds e.2 d (bytes_of e.1) t Hc Hd He) as Ha. cbn [put_result foldl].
  etransitivity; [apply IH; [apply Ha|by eapply ad_dom|done|done]|]. by rewrite with_new_child, bool_decide_eq_false_2.
Qed.

Lemma with_new_type i d n t : closed t → is_Some (inodes t !! d) → itype (node (with_new i d n t) d) = itype (node t d).
Proof.
  intros Hc Hd. pose proof (cl_next _ Hc _ Hd). unfold with_new, add_child. rewrite node_on. case_bool_decide; cbn [itype set_children];
    rewrite node_alloc, bool_decide_eq_false_2 by lia; done.
Qed.

Lemma put_result_type d l t : closed t → is_Some (inodes t !! d) → leaves l → itype (node (put_result d l t) d) = itype (node t d).
Proof.
  revert t. induction l as [|e l IH]; intros t Hc Hd Hl; [done|]. apply Forall_cons in Hl as [He Hl].
  pose proof (with_new_adds e.2 d (bytes_of e.1) t Hc Hd He) as Ha. cbn [put_result foldl].
  etransitivity; [apply IH; [apply Ha|by eapply ad_dom|done]|]. by apply with_new_type.
Qed.

(** ** The descriptor directory *)

(** What the link of an open descriptor says. *)
Definition fd_text (s : Os) (fd : Z) : list Z :=
  match fd_files s !! Z.to_nat fd with
  | Some (Some h) =>
      match inode (file s h) with
      | Some n =>
          match itype (node (tree s) n) with ICharDevice => bytes_of "/dev/tty" | IDirectory => dot | _ => self_fd fd end
      | None => bytes_of "anon_inode:" ++ ftype_name (ftype (file s h))
      end
  | _ => self_fd fd
  end.

(** The inodes of open files exist, and the caller holds none of their locks. *)
Definition inodes_free (held : list Z) (s : Os) : Prop :=
  ∀ fd h n, fd_files s !! fd = Some (Some h) → inode (file s h) = Some n → is_Some (inodes (tree s) !! n) ∧ n ∉ held.

Lemma on_tree_ok {A} (m : M Fs A) s a t : m (tree s) = (Ok a, t) → on_tree m s = (Ok a, set_tree t s).
Proof. intros E. unfold on_tree. by rewrite E. Qed.

Lemma put_all_at d l t s : on_tree (put_all d l) (set_tree t s) = (Ok tt, set_tree (put_result d l t) s).
Proof. exact (on_tree_ok _ (set_tree t s) tt _ (put_all_run d l t)). Qed.

Lemma open_fds_spec s fd : ready s → fd ∈ open_fds s ↔ 0 ≤ fd < 1024 ∧ is_open s fd = true.
Proof. intros [Hl _]. unfold open_fds. rewrite list_elem_of_filter, elem_of_seqZ, Hl. lia || naive_solver lia. Qed.

Lemma open_fds_NoDup s : NoDup (open_fds s).
Proof. apply NoDup_filter, NoDup_seqZ. Qed.

Section Descriptors.
Context (held : list Z) (f d : Z) (s : Os).
Context (Hd : is_Some (inodes (tree s) !! d)) (Hr : ready s) (Hfree : inodes_free held s) (Hf : ∀ fd h n, fd_files s !! fd = Some (Some h) → inode (file s h) = Some n → n ≠ f).

Lemma fd_target_run t fd : adds f (tree s) t → 0 ≤ fd < 1024 → is_open s fd = true →
  fd_target held fd (set_tree t s) = (Ok (fd_text s fd), set_tree t s).
Proof using All.
  intros Ha Hfd Ho. unfold fd_target, fd_text. unfold is_open in Ho.
  destruct (fd_files s !! Z.to_nat fd) as [[h|]|] eqn:E; [|done..].
  rewrite (bind_ok _ _ _ (inl h) (set_tree t s)).
  2:{ unfold try. by rewrite (get_file_ready (set_tree t s) fd h). }
  rewrite bind_gets. change (file (set_tree t s) h) with (file s h). destruct (inode (file s h)) as [n|] eqn:En; [|done].
  destruct (Hfree _ _ _ E En) as [Hn Hh]. rewrite bool_decide_eq_false_2 by done. rewrite bind_gets.
  cbn [tree set_tree]. rewrite (ad_node _ _ _ Ha n Hn) by (by eapply Hf). done.
Qed.

(** The directory [f] after the entries of [l]. *)
Definition lists (l : list Z) (t : Fs) : Prop :=
  (∀ c h, child t f c = Some h → ∃ fd, fd ∈ l ∧ c = dec fd) ∧
  ∀ fd, fd ∈ l → ∃ h, child t f (dec fd) = Some h ∧ is_Some (inodes t !! h) ∧ h ≠ f ∧ h ≠ d ∧ node t h = link_to (fd_text s fd).

Lemma put_fds_run l : Forall (λ fd, 0 ≤ fd < 1024 ∧ is_open s fd = true) l → NoDup l → ∀ done t,
  adds f (tree s) t → is_Some (inodes t !! f) → lists done t → (∀ fd, fd ∈ l → fd ∉ done) → Forall (λ fd, 0 ≤ fd < 1024) done →
  ∃ t', for_each l (put_fd held f) (set_tree t s) = (Ok tt, set_tree t' s) ∧ adds f t t' ∧ lists (done ++ l) t'.
Proof using All.
  induction l as [|fd l IH]; intros Hl Hnd dn t Ha Hfp Hli Hdj Hdn.
  { exists t. split; [done|]. rewrite app_nil_r. split; [apply adds_refl, Ha|done]. }
  apply Forall_cons in Hl as [[Hfd Ho] Hl]. apply NoDup_cons in Hnd as [Hni Hnd]. set (t1 := with_new (link_to (fd_text s fd)) f (dec fd) t).
  pose proof (ad_closed _ _ _ Ha) as Hc. assert (adds f t t1) as Ha1 by (by apply with_new_adds).
  pose proof (cl_next _ Hc _ Hfp) as Hlt.
  destruct (IH Hl Hnd (dn ++ [fd]) t1) as (t' & E & Ha' & Hli').
  - by eapply adds_trans.
  - by eapply ad_dom.
  - destruct Hli as [H1 H2]. split.
    + intros c h. unfold t1. rewrite with_new_child by done. case_bool_decide as Ec; [intros _; exists fd; set_solver|].
      intros (x & Hx & ->)%H1. exists x. set_solver.
    + intros x Hx. apply elem_of_app in Hx as [Hx|Hx%list_elem_of_singleton].
      * destruct (H2 x Hx) as (h & Eh & Hp & Hne & Hned & Hnode). exists h. unfold t1. rewrite with_new_child by done. rewrite bool_decide_eq_false_2.
        2:{ intros Ed. rewrite Forall_forall in Hdn. apply dec_inj in Ed; [|pose proof (Hdn x Hx); lia|lia]. subst. by apply (Hdj fd); [left|]. }
        split_and!; [done|by eapply ad_dom|done|done|]. rewrite <- Hnode. by apply (ad_node _ _ _ Ha1).
      * subst x. exists (NEXT_INODE t). unfold t1. rewrite with_new_child, bool_decide_eq_true_2 by done.
        pose proof (cl_next _ Hc _ (ad_dom _ _ _ Ha _ Hd)). split_and!; [done| |lia|lia|by apply with_new_node]. unfold with_new, add_child. apply on_node_dom, alloc_present.
  - intros x Hx Hx2. apply elem_of_app in Hx2 as [Hx2|Hx2%list_elem_of_singleton]; [|by subst]. by apply (Hdj x); [right|].
  - apply Forall_app. split; [done|]. by apply Forall_singleton.
  - exists t'. split; [|split; [by eapply adds_trans|by rewrite <- app_assoc in Hli']].
    cbn [for_each]. unfold put_fd at 1. rewrite bind_assoc, (bind_ok _ _ _ _ _ (fd_target_run t fd Ha Hfd Ho)). exact E.
Qed.
End Descriptors.

Lemma put_result_fresh d l t e : closed t → is_Some (inodes t !! d) → leaves l → NoDup (bytes_of <$> l.*1) → e ∈ l →
  ∃ h, child (put_result d l t) d (bytes_of e.1) = Some h ∧ is_Some (inodes (put_result d l t) !! h) ∧ NEXT_INODE t ≤ h ∧ node (put_result d l t) h = e.2.
Proof.
  revert t. induction l as [|x l IH]; intros t Hc Hd Hl Hnd He; [by apply elem_of_nil in He|].
  apply Forall_cons in Hl as [Hx Hl]. rewrite !fmap_cons in Hnd. apply NoDup_cons in Hnd as [Hni Hnd].
  set (t1 := with_new x.2 d (bytes_of x.1) t). assert (adds d t t1) as Ha by (by apply with_new_adds). pose proof (ad_closed _ _ _ Ha) as Hc1.
  assert (is_Some (inodes t1 !! d)) as Hd1 by (by eapply ad_dom). assert (NEXT_INODE t1 = NEXT_INODE t + 1) as Hnx by done.
  apply elem_of_cons in He as [->|He]; [|destruct (IH t1 Hc1 Hd1 Hl Hnd He) as (h & ? & ? & ? & ?); exists h; split_and!; [done|done|lia|done]].
  pose proof (put_result_adds d l t1 Hc1 Hd1 Hl) as Hal. pose proof (cl_next _ Hc _ Hd). exists (NEXT_INODE t). change (put_result d (x :: l) t) with (put_result d l t1).
  rewrite put_result_child by done. unfold t1 at 1. rewrite with_new_child, bool_decide_eq_true_2 by done.
  assert (is_Some (inodes t1 !! NEXT_INODE t)) as Hp by (unfold t1, with_new, add_child; apply on_node_dom, alloc_present).
  split_and!; [done|by eapply ad_dom|lia|]. rewrite (ad_node _ _ _ Hal) by (done || lia). by apply with_new_node.
Qed.

(** A decidable statement about names, by computation. *)
Ltac by_names := refine (bool_decide_unpack _ _); vm_compute; exact I.

Lemma first_names cpu k : NoDup (bytes_of <$> (self_first cpu k).*1).
Proof. change (NoDup (bytes_of <$> ["exe"; "cmdline"; "maps"; "status"]%string)). by_names. Qed.
Lemma rest_names cpu k : NoDup (bytes_of <$> (self_rest cpu k).*1).
Proof. change (NoDup (bytes_of <$> ["stat"; "statm"; "mounts"; "environ"; "cgroup"]%string)). by_names. Qed.
Lemma first_rest cpu k e : e ∈ self_first cpu k → bytes_of e.1 ≠ bytes_of "fd" ∧ bytes_of e.1 ∉ bytes_of <$> (self_rest cpu k).*1.
Proof.
  change ((self_rest cpu k).*1) with ["stat"; "statm"; "mounts"; "environ"; "cgroup"]%string. intros He. unfold self_first in He.
  repeat (apply elem_of_cons in He as [->|He]; [cbn [fst]; by_names|]). by apply elem_of_nil in He.
Qed.
Lemma rest_fd cpu k : bytes_of "fd" ∉ bytes_of <$> (self_rest cpu k).*1.
Proof. change ((self_rest cpu k).*1) with ["stat"; "statm"; "mounts"; "environ"; "cgroup"]%string. by_names. Qed.

Lemma first_leaves cpu k : leaves (self_first cpu k).
Proof. repeat (constructor; [done|]). constructor. Qed.
Lemma rest_leaves cpu k : leaves (self_rest cpu k).
Proof. repeat (constructor; [done|]). constructor. Qed.

(** The directory's other entries, as the source names them. *)
Definition self_entries (cpu : nat) (k : K) : list (string * Inode) := self_first cpu k ++ self_rest cpu k.

Lemma self_names cpu k : (bytes_of <$> (self_entries cpu k).*1) =
  bytes_of <$> ["exe"; "cmdline"; "maps"; "status"; "stat"; "statm"; "mounts"; "environ"; "cgroup"]%string.
Proof. done. Qed.

(** *** The stages of the directory

    In [t], which grew from the tree of [s], the directory [d] has the entries [l];
    [f] is another inode, the descriptor directory once it is allocated. *)
Record stage (s : Os) (d f : Z) (l : list (string * Inode)) (t : Fs) : Prop := {
  st_closed : closed t;
  st_root : ROOT t = ROOT (tree s);
  st_old : ∀ h, is_Some (inodes (tree s) !! h) → is_Some (inodes t !! h) ∧ node t h = node (tree s) h ∧ h ≠ d ∧ h ≠ f;
  st_dir : is_Some (inodes t !! d);
  st_type : itype (node t d) = IDirectory;
  st_has : ∀ e, e ∈ l → ∃ h, child t d (bytes_of e.1) = Some h ∧ is_Some (inodes t !! h) ∧ d < h ∧ h ≠ f ∧ node t h = e.2 }.

(** Inodes come and the directory [f] changes. *)
Lemma stage_frame s d f l t t' : f ≠ d → stage s d f l t → adds f t t' → stage s d f l t'.
Proof.
  intros Hne [Hc Hrt Ho Hd Ht Hh] Ha. split; [apply Ha|by rewrite (ad_root _ _ _ Ha)|..|by eapply ad_dom|by rewrite (ad_node _ _ _ Ha)|].
  - intros h (Hp & Hn & H1 & H2)%Ho. split_and!; [by eapply ad_dom|by rewrite (ad_node _ _ _ Ha)|done|done].
  - intros e (h & Ec & Hp & H1 & H2 & Hn)%Hh. exists h. unfold child. rewrite (ad_node _ _ _ Ha d) by done.
    split_and!; [done|by eapply ad_dom|done|done|by rewrite (ad_node _ _ _ Ha) by (done || lia)].
Qed.

(** More entries, and the link to the descriptor directory. *)
Lemma stage_put s d f l l' t : stage s d f l t → is_Some (inodes t !! f) → leaves l' → NoDup (bytes_of <$> l'.*1) →
  (∀ e, e ∈ l → bytes_of e.1 ∉ bytes_of <$> l'.*1) → stage s d f (l ++ l') (put_result d l' t).
Proof.
  intros [Hc Hrt Ho Hd Ht Hh] Hf Hl Hnd Hdj. pose proof (put_result_adds d l' t Hc Hd Hl) as Ha.
  split; [apply Ha|by rewrite (ad_root _ _ _ Ha)|..|by eapply ad_dom|by rewrite put_result_type|].
  - intros h (Hp & Hn & H1 & H2)%Ho. split_and!; [by eapply ad_dom|by rewrite (ad_node _ _ _ Ha)|done|done].
  - intros e He. apply elem_of_app in He as [He|He].
    + destruct (Hh e He) as (h & Ec & Hp & H1 & H2 & Hn). exists h. rewrite put_result_child by (done || by apply Hdj).
      split_and!; [done|by eapply ad_dom|done|done|by rewrite (ad_node _ _ _ Ha) by (done || lia)].
    + destruct (put_result_fresh d l' t e Hc Hd Hl Hnd He) as (h & Ec & Hp & H1 & Hn). exists h.
      pose proof (cl_next _ Hc _ Hf). pose proof (cl_next _ Hc _ Hd). split_and!; [done|done|lia|lia|done].
Qed.

Lemma stage_link s d f l t n : stage s d f l t → is_Some (inodes t !! f) → (∀ e, e ∈ l → bytes_of e.1 ≠ n) → stage s d f l (add_child d n f t).
Proof.
  intros [Hc Hrt Ho Hd Ht Hh] Hf Hn. pose proof (add_child_adds d n f t Hc Hd Hf) as Ha. pose proof (add_child_edited t d n f Hd) as He.
  split; [apply Ha|by rewrite (ad_root _ _ _ Ha)|..|by eapply ad_dom|by rewrite (ed_type _ _ _ _ _ He)|].
  - intros h (Hp & Hx & H1 & H2)%Ho. split_and!; [by eapply ad_dom|by rewrite (ad_node _ _ _ Ha)|done|done].
  - intros e Hin. destruct (Hh e Hin) as (h & Ec & Hp & H1 & H2 & Hx). exists h. rewrite (ed_else _ _ _ _ _ He) by (intros [=]; by eapply Hn).
    split_and!; [done|by eapply ad_dom|done|done|by rewrite (ad_node _ _ _ Ha) by (done || lia)].
Qed.

(** The listing does not change with the directory [d]. *)
Lemma lists_frame f d s l t t' : f ≠ d → is_Some (inodes t !! f) → lists f d s l t → adds d t t' → lists f d s l t'.
Proof.
  intros Hne Hf [H1 H2] Ha. unfold lists, child. rewrite (ad_node _ _ _ Ha f) by done. split; [done|].
  intros fd (h & Ec & Hp & Hnf & Hnd & Hn)%H2. exists h. split_and!; [done|by eapply ad_dom|done|done|by rewrite (ad_node _ _ _ Ha) by (done || lia)].
Qed.

Lemma stage_first cpu k s : closed (tree s) → let d := NEXT_INODE (tree s) in
  let t := put_result d (self_first cpu k) (alloc_inode (new_dir 0x16D) (tree s)).2 in
  d < NEXT_INODE t ∧ stage s d (NEXT_INODE t) (self_first cpu k) t.
Proof.
  intros Hc d t. set (t1 := (alloc_inode (new_dir 0x16D) (tree s)).2). pose proof (alloc_adds d (new_dir 0x16D) (tree s) Hc eq_refl) as A1. fold t1 in A1.
  assert (is_Some (inodes t1 !! d)) as D1 by apply alloc_present.
  assert (adds d t1 t) as A2 by (apply put_result_adds; [apply A1|done|apply first_leaves]).
  assert (is_Some (inodes t !! d)) as D2 by (by eapply ad_dom). pose proof (cl_next _ (ad_closed _ _ _ A2) d D2) as Hlt. split; [done|].
  split; [apply A2|by rewrite (ad_root _ _ _ A2), (ad_root _ _ _ A1)|..|done|unfold t; rewrite put_result_type by (done || apply A1 || apply first_leaves); unfold t1, d; by rewrite node_alloc, bool_decide_eq_true_2|].
  - intros h Hh. pose proof (cl_next _ Hc _ Hh) as Hn. fold d in Hn. assert (is_Some (inodes t1 !! h)) as H1 by (by eapply ad_dom).
    rewrite (ad_node _ _ _ A2), (ad_node _ _ _ A1) by (done || lia). split_and!; [by eapply ad_dom|done|lia|lia].
  - intros e He. destruct (put_result_fresh d (self_first cpu k) t1 e) as (h & E & Hp & Hge & Hn); [apply A1|done|apply first_leaves|apply first_names|done|].
    pose proof (cl_next _ (ad_closed _ _ _ A2) h Hp). exists h. assert (d < NEXT_INODE t1) by (cbn; unfold d; lia).
    split_and!; [done|done|lia|lia|done].
Qed.

(** The whole directory, for the state it is built from. *)
Record self_dir_ok (cpu : nat) (s : Os) (t : Fs) (d : Z) : Prop := {
  sd_stage : ∃ f, stage s d f (self_entries cpu (kern (sig s))) t ∧ child t d (bytes_of "fd") = Some f ∧ lists f d s (open_fds s) t }.

Lemma fd_text_tree s t fd : inodes_free [] s → (∀ h, is_Some (inodes (tree s) !! h) → node t h = node (tree s) h) →
  fd_text (set_tree t s) fd = fd_text s fd.
Proof.
  intros Hfree Hn. unfold fd_text. cbn [fd_files set_tree]. destruct (fd_files s !! Z.to_nat fd) as [[h|]|] eqn:E; [|done..].
  change (file (set_tree t s) h) with (file s h). destruct (inode (file s h)) as [n|] eqn:En; [|done].
  cbn [tree]. by rewrite Hn by (by eapply Hfree).
Qed.

Lemma inodes_free_nil held s : inodes_free held s → inodes_free [] s.
Proof. intros H fd h n Ho Hi. split; [by eapply H|set_solver]. Qed.

(** The loop over the descriptors, from a stage. *)
Lemma fds_stage held s d f l t : ready s → inodes_free held s → f ≠ d → is_Some (inodes t !! f) → children (node t f) = ∅ → stage s d f l t →
  ∃ t', for_each (open_fds s) (put_fd held f) (set_tree t s) = (Ok tt, set_tree t' s) ∧ adds f t t' ∧ lists f d s (open_fds s) t'.
Proof.
  intros Hr Hfree Hne Hf He Hst.
  destruct (put_fds_run held f d (set_tree t s)) with (l := open_fds s) (done := @nil Z) (t := t) as (t' & E & Ha & L).
  - exact (st_dir _ _ _ _ _ Hst).
  - done.
  - intros fd h n Ho Hi. destruct (Hfree fd h n Ho Hi) as [Hn Hh]. split; [by apply (st_old _ _ _ _ _ Hst)|done].
  - intros fd h n Ho Hi. apply (st_old _ _ _ _ _ Hst). by eapply Hfree.
  - apply Forall_forall. intros fd. by rewrite open_fds_spec.
  - apply open_fds_NoDup.
  - apply adds_refl, (st_closed _ _ _ _ _ Hst).
  - done.
  - split; [|intros ? []%elem_of_nil]. intros c h. unfold child. by rewrite He.
  - intros fd _ []%elem_of_nil.
  - by apply Forall_nil.
  - exists t'. split_and!; [done|done|]. destruct L as [L1 L2]. split; [done|]. intros fd Hfd. specialize (L2 fd Hfd).
    rewrite fd_text_tree in L2; [done|by eapply inodes_free_nil|]. intros h Hh. by apply (st_old _ _ _ _ _ Hst).
Qed.

Lemma build_self_dir_spec cpu held s : ready s → closed (tree s) → inodes_free held s →
  ∃ t, build_self_dir cpu held s = (Ok (NEXT_INODE (tree s)), set_tree t s) ∧ self_dir_ok cpu s t (NEXT_INODE (tree s)).
Proof.
  intros Hr Hc Hfree. set (k := kern (sig s)). destruct (stage_first cpu k s Hc) as [Hlt S2]. set (d := NEXT_INODE (tree s)) in *.
  set (t2 := put_result d (self_first cpu k) (alloc_inode (new_dir 0x16D) (tree s)).2) in *. set (f := NEXT_INODE t2) in *.
  set (t3 := (alloc_inode (new_dir 0x16D) t2).2). assert (f ≠ d) as Hne by lia.
  assert (stage s d f (self_first cpu k) t3) as S3 by (eapply stage_frame; [done|exact S2|apply alloc_adds; [apply S2|done]]).
  assert (is_Some (inodes t3 !! f)) as F3 by apply alloc_present.
  destruct (fds_stage held s d f (self_first cpu k) t3 Hr Hfree Hne F3) as (t4 & E4 & A4 & L4); [unfold t3, f; by rewrite node_alloc, bool_decide_eq_true_2|done|].
  assert (stage s d f (self_first cpu k) t4) as S4 by (by eapply stage_frame). assert (is_Some (inodes t4 !! f)) as F4 by (by eapply ad_dom).
  set (t5 := add_child d (bytes_of "fd") f t4).
  assert (adds d t4 t5) as A5 by (by apply add_child_adds; [apply S4|exact (st_dir _ _ _ _ _ S4)|]).
  assert (stage s d f (self_first cpu k) t5) as S5.
  { apply stage_link; [done|done|]. intros e He. by eapply first_rest. }
  assert (is_Some (inodes t5 !! f)) as F5 by (by eapply ad_dom). set (t6 := put_result d (self_rest cpu k) t5).
  assert (adds d t5 t6) as A6 by (apply put_result_adds; [apply S5|exact (st_dir _ _ _ _ _ S5)|apply rest_leaves]).
  exists t6. split.
  - unfold build_self_dir. rewrite (bind_ok _ _ _ d (set_tree (alloc_inode (new_dir 0x16D) (tree s)).2 s)) by done. rewrite bind_gets.
    cbn [sig set_tree]. fold k.
    rewrite (bind_ok _ _ _ tt (set_tree t2 s)) by (apply put_all_at).
    rewrite (bind_ok _ _ _ f (set_tree t3 s)) by done.
    rewrite (bind_ok _ _ _ (open_fds s) (set_tree t3 s)) by (unfold list_open_fds; rewrite bind_init by done; done).
    rewrite (bind_ok _ _ _ _ _ E4). rewrite (bind_ok _ _ _ tt (set_tree t5 s)) by done.
    by rewrite (bind_ok _ _ _ tt (set_tree t6 s)) by (apply put_all_at).
  - split. exists f. split_and!.
    + apply stage_put; [done|done|apply rest_leaves|apply rest_names|].
      intros e He. by apply first_rest.
    + unfold t6. rewrite put_result_child; [|apply S5|exact (st_dir _ _ _ _ _ S5)|apply rest_leaves|apply rest_fd].
      unfold t5. by rewrite (ed_here _ _ _ _ _ (add_child_edited t4 d _ f (st_dir _ _ _ _ _ S4))).
    + eapply lists_frame; [done|exact F5| |exact A6]. eapply lists_frame; [done|exact F4|exact L4|exact A5].
Qed.

(** [/proc/self/fd] lists the descriptor table: building the directory succeeds, its
    [fd] directory has one entry for each open descriptor, named by its number in
    decimal, and no other; each is a symbolic link that says what the descriptor
    refers to, and no inode that was there before changes. *)
Theorem proc_fd_exact cpu held s : ready s → closed (tree s) → inodes_free held s →
  ∃ d f t, build_self_dir cpu held s = (Ok d, set_tree t s) ∧ child t d (bytes_of "fd") = Some f ∧
    (∀ c, is_Some (child t f c) ↔ ∃ fd, 0 ≤ fd < 1024 ∧ is_open s fd = true ∧ c = dec fd) ∧
    (∀ fd, 0 ≤ fd < 1024 → is_open s fd = true →
       ∃ h, child t f (dec fd) = Some h ∧ itype (node t h) = ISymlink ∧ idata (node t h) = fd_text s fd) ∧
    ∀ h, is_Some (inodes (tree s) !! h) → node t h = node (tree s) h.
Proof.
  intros Hr Hc Hfree. destruct (build_self_dir_spec cpu held s Hr Hc Hfree) as (t & E & [(f & S & Ef & L1 & L2)]).
  exists (NEXT_INODE (tree s)), f, t. split_and!; [done|done| | |].
  - intros c. split.
    + intros [h (fd & Hfd & ->)%L1]. exists fd. apply open_fds_spec in Hfd; naive_solver.
    + intros (fd & Hfd & Ho & ->). destruct (L2 fd) as (h & -> & _); [by apply open_fds_spec|eauto].
  - intros fd Hfd Ho. destruct (L2 fd) as (h & Ec & _ & _ & _ & En); [by apply open_fds_spec|]. exists h. by rewrite En.
  - intros h Hh. by apply (st_old _ _ _ _ _ S).
Qed.

(** Names of descriptors read back: [parse] inverts the decimal form. *)
Theorem dec_parse n : 0 ≤ n < 2 ^ 32 → parse_u32 (dec n) = Some n.
Proof. apply parse_dec. Qed.

Lemma dec_parse_witness : parse_u32 (dec 4294967295) = Some 4294967295.
Proof. apply (dec_parse 4294967295). lia. Defined.

(** ** The file tree after boot *)

Lemma ensure_init_tree t s : ensure_init (set_tree t s) = (Ok tt, set_tree t (ensure_init s).2).
Proof. unfold ensure_init, bind, get. cbn [fd_files set_tree]. destruct (fd_files s) eqn:E; [reflexivity|done]. Qed.

Lemma ensure_init_kern s : kern (sig (ensure_init s).2) = kern (sig s) ∧ tree (ensure_init s).2 = tree s ∧ ptys (ensure_init s).2 = ptys s.
Proof. unfold ensure_init, bind, get. by destruct (fd_files s). Qed.

Lemma ensure_init_ok s : ensure_init s = (Ok tt, (ensure_init s).2).
Proof. unfold ensure_init, bind, get. by destruct (fd_files s). Qed.

(** The table may be filled before the directory is built. *)
Lemma build_self_dir_init cpu held s : ready (ensure_init s).2 → build_self_dir cpu held s = build_self_dir cpu held (ensure_init s).2.
Proof.
  intros Hr. set (s1 := (ensure_init s).2) in *. destruct (ensure_init_kern s) as (Hk & Ht & _). fold s1 in Hk, Ht. unfold build_self_dir.
  set (t1 := (alloc_inode (new_dir 0x16D) (tree s)).2).
  rewrite (bind_ok _ _ s (NEXT_INODE (tree s)) (set_tree t1 s)) by done.
  rewrite (bind_ok _ _ s1 (NEXT_INODE (tree s)) (set_tree t1 s1)) by (unfold t1; rewrite <- Ht; done).
  rewrite !bind_gets. cbn [sig set_tree]. rewrite Hk.
  rewrite (bind_ok _ _ (set_tree t1 s) _ _ (put_all_at _ _ _ _)), (bind_ok _ _ (set_tree t1 s1) _ _ (put_all_at _ _ _ _)).
  set (t2 := put_result _ _ t1). set (t3 := (alloc_inode (new_dir 0x16D) t2).2).
  rewrite (bind_ok _ _ (set_tree t2 s) (NEXT_INODE t2) (set_tree t3 s)), (bind_ok _ _ (set_tree t2 s1) (NEXT_INODE t2) (set_tree t3 s1)) by done.
  assert (∀ x, ensure_init x = (Ok tt, set_tree t3 s1) → list_open_fds x = (Ok (open_fds (set_tree t3 s1)), set_tree t3 s1)) as Hl.
  { intros x Ex. unfold list_open_fds. by rewrite (bind_ok _ _ _ _ _ Ex). }
  rewrite (bind_ok _ _ (set_tree t3 s) _ _ (Hl _ (ensure_init_tree t3 s))).
  by rewrite (bind_ok _ _ (set_tree t3 s1) _ _ (Hl _ (ensure_init_ready (set_tree t3 s1) Hr))).
Qed.

(** The standard streams of a new table have no inode. *)
Lemma ensure_init_files s : fd_files s = [] →
  let s1 := (ensure_init s).2 in let std := if negb (console_pty_id (ptys s) =? u32_max) then pty_slave_file (console_pty_id (ptys s)) 0 else mkFile None 0 0 CharDevice None in
  ready s1 ∧ ∀ fd h, fd_files s1 !! fd = Some (Some h) → (fd < 3)%nat ∧ file s1 h = std.
Proof.
  intros E s1 std. destruct (ensure_init_spec s E) as (s' & E' & Hr). assert (s' = s1) as -> by (unfold s1; by rewrite E'). split; [done|].
  intros fd h. unfold s1, ensure_init, bind, get. rewrite E. cbn [snd fd_files set_fds modify alloc_file]. unfold modify, alloc_file. cbn [snd fd_files set_fds].
  intros Hh. apply lookup_app_Some in Hh as [Hh|[_ Hh%lookup_replicate]]; [|by destruct Hh]. unfold file. cbn.
  destruct fd as [|[|[|]]]; [..|done]; injection Hh as <-; (split; [lia|]); fold std.
  - rewrite lookup_insert_ne, lookup_insert_ne, lookup_insert, decide_True by (done || lia). done.
  - rewrite lookup_insert_ne, lookup_insert, decide_True by (done || lia). done.
  - rewrite lookup_insert, decide_True by done. done.
Qed.

Lemma ensure_init_inodes held s : fd_files s = [] → inodes_free held (ensure_init s).2.
Proof.
  intros E fd h n Ho. destruct (ensure_init_files s E) as [_ H]. destruct (H fd h Ho) as [_ ->]. by destruct (negb _).
Qed.

(** A step that changes a directory which did not exist in [t1]. *)
Lemma adds_via d x t1 t2 t3 : adds d t1 t2 → adds x t2 t3 → ¬ is_Some (inodes t1 !! x) → adds d t1 t3.
Proof.
  intros H1 H2 Hx. split; [apply H2|by rewrite (ad_root _ _ _ H2), (ad_root _ _ _ H1)|intros h Hh; by eapply ad_dom, ad_dom|].
  intros h Hh Hne. rewrite (ad_node _ _ _ H2); [by eapply ad_node|by eapply ad_dom|]. intros ->. done.
Qed.

Lemma next_absent t : closed t → ¬ is_Some (inodes t !! NEXT_INODE t).
Proof. intros Hc Hh%Hc. lia. Qed.

Lemma put_sys_spec p t : closed t → is_Some (inodes t !! p) →
  ∃ t', put_sys p t = (Ok tt, t') ∧ adds p t t' ∧ itype (node t' p) = itype (node t p) ∧
    ∀ c, c ≠ bytes_of "sys" → child t' p c = child t p c.
Proof.
  intros Hc Hp. pose proof (cl_next _ Hc _ Hp) as Hlt. set (x := NEXT_INODE t). set (t1 := (alloc_inode (new_dir 0x16D) t).2).
  pose proof (alloc_adds p (new_dir 0x16D) t Hc eq_refl) as A1. fold t1 in A1. set (y := NEXT_INODE t1).
  set (t2 := (alloc_inode (new_dir 0x16D) t1).2). pose proof (alloc_adds p (new_dir 0x16D) t1 (ad_closed _ _ _ A1) eq_refl) as A2. fold t2 in A2.
  set (l := [("pid_max"%string, text_file 0x124 (bytes_of "32768" ++ nl))]). set (t3 := put_result y l t2).
  assert (is_Some (inodes t2 !! y)) as Y2 by apply alloc_present.
  assert (is_Some (inodes t2 !! x)) as X2 by (eapply ad_dom; [exact A2|apply alloc_present]).
  assert (adds y t2 t3) as A3 by (apply put_result_adds; [apply A2|done|by repeat constructor]).
  assert (y = x + 1) as Hy by done. assert (¬ is_Some (inodes t !! y)) as Ny by (intros ?%Hc; unfold x in Hy; lia).
  assert (adds p t t3) as T3 by (eapply adds_via; [eapply adds_trans; [exact A1|exact A2]|exact A3|done]).
  set (t4 := add_child x (bytes_of "kernel") y t3).
  assert (adds x t3 t4) as A4 by (apply add_child_adds; [apply A3|by apply (ad_dom _ _ _ A3)|by apply (ad_dom _ _ _ A3)]).
  assert (adds p t t4) as T4 by (eapply adds_via; [exact T3|exact A4|by apply next_absent]).
  assert (is_Some (inodes t4 !! p)) as P4 by (by apply (ad_dom _ _ _ T4)). assert (is_Some (inodes t4 !! x)) as X4 by (by apply (ad_dom _ _ _ A4), (ad_dom _ _ _ A3)).
  assert (node t4 p = node t p) as N4.
  { rewrite (ad_node _ _ _ A4), (ad_node _ _ _ A3); [|by apply (ad_dom _ _ _ A2), (ad_dom _ _ _ A1)|unfold x in Hy; lia|by apply (ad_dom _ _ _ T3)|unfold x; lia].
    unfold t2, t1. rewrite !node_alloc, !bool_decide_eq_false_2; [done|lia|cbn; lia]. }
  pose proof (add_child_edited t4 p (bytes_of "sys") x P4) as E5. exists (add_child p (bytes_of "sys") x t4). split_and!.
  - unfold put_sys. rewrite (bind_ok _ _ t x t1) by done. rewrite (bind_ok _ _ t1 y t2) by done. by rewrite (bind_ok _ _ t2 _ _ (put_all_run _ _ _)).
  - eapply adds_trans; [exact T4|]. by apply add_child_adds; [apply A4|..].
  - by rewrite (ed_type _ _ _ _ _ E5), N4.
  - intros c Hn. rewrite (ed_else _ _ _ _ _ E5) by congruence. unfold child. by rewrite N4.
Qed.

(** The entries of [/proc] itself. *)
Lemma proc_entries_spec p d t : closed t → is_Some (inodes t !! p) → is_Some (inodes t !! d) →
  let t1 := add_child p (bytes_of "1") d (add_child p (bytes_of "self") d t) in
  ∃ t', (put_all p proc_first ;;; put_sys p ;;; put_all p [("filesystems"%string, text_file 0x124 filesystems_text)]) t1 = (Ok tt, t') ∧
    adds p t t' ∧ itype (node t' p) = itype (node t p) ∧ child t' p (bytes_of "self") = Some d ∧ child t' p (bytes_of "1") = Some d.
Proof.
  intros Hc Hp Hd t1. set (t0 := add_child p (bytes_of "self") d t) in *.
  assert (adds p t t0) as A0 by (by apply add_child_adds). assert (is_Some (inodes t0 !! p)) as P0 by (by eapply ad_dom).
  assert (adds p t0 t1) as A1 by (apply add_child_adds; [apply A0|done|by eapply ad_dom]). assert (is_Some (inodes t1 !! p)) as P1 by (by eapply ad_dom).
  pose proof (add_child_edited t p (bytes_of "self") d Hp) as E0. pose proof (add_child_edited t0 p (bytes_of "1") d P0) as E1.
  set (t2 := put_result p proc_first t1). assert (leaves proc_first) as L2 by (by repeat constructor).
  assert (adds p t1 t2) as A2 by (apply put_result_adds; [apply A1|done|done]). assert (is_Some (inodes t2 !! p)) as P2 by (by eapply ad_dom).
  destruct (put_sys_spec p t2) as (t3 & Es & A3 & Y3 & C3); [apply A2|done|]. assert (is_Some (inodes t3 !! p)) as P3 by (by eapply ad_dom).
  set (l := [("filesystems"%string, text_file 0x124 filesystems_text)]). assert (leaves l) as L4 by (by repeat constructor).
  exists (put_result p l t3). split_and!.
  - rewrite (bind_ok _ _ _ _ _ (put_all_run _ _ _)). rewrite (bind_ok _ _ _ _ _ Es). apply put_all_run.
  - eapply adds_trans; [exact A0|]. eapply adds_trans; [exact A1|]. eapply adds_trans; [exact A2|]. eapply adds_trans; [exact A3|].
    by apply put_result_adds; [apply A3|..].
  - rewrite put_result_type by (done || apply A3). rewrite Y3. unfold t2. rewrite put_result_type by (done || apply A1).
    by rewrite (ed_type _ _ _ _ _ E1), (ed_type _ _ _ _ _ E0).
  - rewrite put_result_child; [|apply A3|done|done|by_names]. rewrite C3 by by_names. unfold t2. rewrite put_result_child; [|apply A1|done|done|by_names].
    rewrite (ed_else _ _ _ _ _ E1) by (intros [=]). apply E0.
  - rewrite put_result_child; [|apply A3|done|done|by_names]. rewrite C3 by by_names. unfold t2. rewrite put_result_child; [|apply A1|done|done|by_names].
    apply E1.
Qed.

Lemma boot_tree_run : (Vfs.init ;;; devfs_init) empty_fs = (Ok tt, boot_tree).
Proof. unfold boot_tree. assert (((Vfs.init ;;; devfs_init) empty_fs).1 = Ok tt) as <- by (vm_compute; reflexivity). apply surjective_pairing. Qed.

(** No entry of the first tree dangles. *)
Definition closed_check (t : Fs) : Prop :=
  (match ROOT t with Some r => is_Some (inodes t !! r) | None => True end) ∧
  map_Forall (λ d i, d < NEXT_INODE t ∧ map_Forall (λ _ h, is_Some (inodes t !! h)) (children i)) (inodes t).
#[export] Instance closed_check_dec t : Decision (closed_check t).
Proof. unfold closed_check. destruct (ROOT t); apply _. Defined.

Lemma closed_check_ok t : closed_check t → closed t.
Proof.
  intros [Hr Hf]. split.
  - intros r E. by rewrite E in Hr.
  - intros d c h. unfold child, node. destruct (inodes t !! d) as [i|] eqn:E; [|done]. intros Hh. by eapply (Hf d i E).
  - intros h [i E]. by eapply (Hf h i E).
Qed.

Lemma boot_tree_closed : closed boot_tree.
Proof. apply closed_check_ok. by_names. Qed.

Definition proc_h : Z := 2.

Lemma boot_tree_proc : ROOT boot_tree = Some 0 ∧ child boot_tree 0 (bytes_of "proc") = Some proc_h ∧ itype (node boot_tree 0) = IDirectory ∧
  itype (node boot_tree proc_h) = IDirectory ∧ is_Some (inodes boot_tree !! 0) ∧ is_Some (inodes boot_tree !! proc_h).
Proof. by_names. Qed.

Lemma on_tree_bind {A B} (m : M Fs A) (k : A → M Fs B) s : bind (on_tree m) (λ a, on_tree (k a)) s = on_tree (bind m k) s.
Proof. unfold bind, on_tree. destruct (m (tree s)) as [[]]; [|done..]. cbn. by destruct (k v f). Qed.

Lemma on_tree_seq3 (m1 m2 m3 : M Fs ()) t s t' : (m1 ;;; m2 ;;; m3) t = (Ok tt, t') →
  (on_tree m1 ;;; on_tree m2 ;;; on_tree m3) (set_tree t s) = (Ok tt, set_tree t' s).
Proof.
  unfold bind, on_tree. cbn [tree set_tree]. destruct (m1 t) as [[] t1]; [|done..]. cbn [tree set_tree].
  destruct (m2 t1) as [[] t2]; [|done..]. cbn [tree set_tree]. destruct (m3 t2) as [[] t3]; [|done..]. by intros [= -> <-].
Qed.

(** What [fs::init] leaves: the process directory [d] under both its names, built
    from the state at boot. *)
Record booted (cpu : nat) (k : K) (t : Fs) (d : Z) : Prop := {
  bt_root : ROOT t = Some 0 ∧ itype (node t 0) = IDirectory;
  bt_proc : child t 0 (bytes_of "proc") = Some proc_h ∧ itype (node t proc_h) = IDirectory;
  bt_self : child t proc_h (bytes_of "self") = Some d ∧ child t proc_h (bytes_of "1") = Some d ∧ itype (node t d) = IDirectory;
  bt_entry : ∀ e, e ∈ self_entries cpu k → ∃ h, child t d (bytes_of e.1) = Some h ∧ is_Some (inodes t !! h) ∧ node t h = e.2;
  bt_closed : closed t;
  bt_old : ∀ h, is_Some (inodes boot_tree !! h) → h ≠ proc_h → is_Some (inodes t !! h) ∧ node t h = node boot_tree h }.

#[local] Opaque boot_tree.

Lemma fs_init_spec cpu s : tree s = empty_fs → fd_files s = [] →
  ∃ t d, fs_init cpu s = (Ok tt, set_tree t (ensure_init s).2) ∧ booted cpu (kern (sig s)) t d.
Proof.
  intros Ht Hfd. destruct boot_tree_proc as (Br & Bp & Bt0 & Btp & B0 & Bpp). set (sb := set_tree boot_tree s). set (s1 := (ensure_init s).2).
  assert (E1 : (ensure_init sb).2 = set_tree boot_tree s1) by (unfold sb, s1; by rewrite ensure_init_tree).
  destruct (ensure_init_files s Hfd) as [Hr _]. fold s1 in Hr. assert (ready (ensure_init sb).2) as Hrb by (by rewrite E1).
  destruct (build_self_dir_spec cpu [0; proc_h] (ensure_init sb).2) as (t1 & Eb & [(f & S & Ef & L)]); [done|rewrite E1; apply boot_tree_closed|by apply ensure_init_inodes|].
  rewrite <- build_self_dir_init in Eb by done. rewrite E1 in *. set (d := NEXT_INODE boot_tree).
  change (NEXT_INODE (tree (set_tree boot_tree s1))) with d in *. change (set_tree t1 (set_tree boot_tree s1)) with (set_tree t1 s1) in Eb.
  pose proof (st_old _ _ _ _ _ S) as Ho. cbn [tree set_tree] in Ho.
  destruct (Ho 0 B0) as (P0 & N0 & D0 & F0). destruct (Ho proc_h Bpp) as (Pp & Np & Dp & Fp).
  destruct (proc_entries_spec proc_h d t1 (st_closed _ _ _ _ _ S) Pp (st_dir _ _ _ _ _ S)) as (t & Et & A & Ty & Cs & C1).
  assert (kern (sig (set_tree boot_tree s1)) = kern (sig s)) as Hk by (cbn; by destruct (ensure_init_kern s)).
  assert (0 ≠ proc_h) as Hz by (unfold proc_h; lia). exists t, d. split; [|split].
  - unfold fs_init. rewrite <- bind_assoc. rewrite (bind_ok _ _ s tt sb).
    2:{ rewrite on_tree_bind. apply on_tree_ok. rewrite Ht. apply boot_tree_run. }
    unfold procfs_init. rewrite (bind_ok _ _ sb 0 sb) by (unfold on_tree, root, bind, get; cbn [tree set_tree sb]; by rewrite Br).
    rewrite bind_gets. change (tree sb) with boot_tree. rewrite Bp, (bind_ok _ _ _ _ _ Eb).
    rewrite (bind_ok _ _ _ tt (set_tree (add_child proc_h (bytes_of "self") d t1) s1)) by done.
    rewrite (bind_ok _ _ _ tt (set_tree (add_child proc_h (bytes_of "1") d (add_child proc_h (bytes_of "self") d t1)) s1)) by done.
    exact (on_tree_seq3 _ _ _ _ _ _ Et).
  - rewrite (ad_node _ _ _ A 0 P0 Hz), N0. split; [|exact Bt0]. rewrite (ad_root _ _ _ A), (st_root _ _ _ _ _ S). exact Br.
  - unfold child. rewrite (ad_node _ _ _ A 0 P0 Hz), N0, Ty, Np. split; [exact Bp|exact Btp].
  - rewrite (ad_node _ _ _ A d (st_dir _ _ _ _ _ S)) by (intros Eq; symmetry in Eq; contradiction). split_and!; [exact Cs|exact C1|apply S].
  - intros e He. rewrite <- Hk in He. destruct (st_has _ _ _ _ _ S e He) as (h & Ec & Hp & Hd & Hf & Hn). exists h. unfold child.
    assert (h ≠ proc_h) as Hhp by (pose proof (cl_next _ boot_tree_closed _ Bpp) as Hlt; fold d in Hlt; lia).
    rewrite (ad_node _ _ _ A d (st_dir _ _ _ _ _ S)) by (intros Eq; symmetry in Eq; contradiction). split_and!; [exact Ec|by eapply ad_dom|].
    by rewrite (ad_node _ _ _ A h Hp Hhp).
  - apply A.
  - intros h Hh Hne. destruct (Ho h Hh) as (Hp & Hn & _). split; [by eapply ad_dom|]. by rewrite (ad_node _ _ _ A h Hp Hne).
Qed.

(** ** What boot leaves behind *)

(** A descriptor that names a bare character device. *)
Definition bare (s : Os) (fd : Z) : Prop :=
  ready s ∧ ∃ h, fd_files s !! Z.to_nat fd = Some (Some h) ∧ file s h = mkFile None 0 0 CharDevice None.

Lemma bare_io `{RawAccess, Drm} cpu root now ticks s fd : 0 ≤ fd < 1024 → bare s fd →
  (∀ buf count, fd_read cpu root now ticks fd buf count s = (Ok (Some 0), s)) ∧
  ∀ data, fd_write fd data s = (Ok (Z.of_nat (length data)), s).
Proof.
  intros Hfd (Hr & h & Hh & Hf). assert (get_file fd s = (Ok h, s)) as Eg by (by apply get_file_ready). split.
  - intros buf count. unfold fd_read. rewrite (bind_ok _ _ _ _ _ Eg). unfold read. rewrite bind_gets, Hf. reflexivity.
  - intros data. unfold fd_write. rewrite (bind_ok _ _ _ _ _ Eg). unfold write. rewrite bind_gets, Hf. reflexivity.
Qed.

(** Before there is a console, the table's first use makes the standard streams so. *)
Lemma ensure_init_bare s fd : fd_files s = [] → console_pty_id (ptys s) = u32_max → 0 ≤ fd < 3 → bare (ensure_init s).2 fd.
Proof.
  intros Hfd Hcon Hr. destruct (ensure_init_files s Hfd) as [Hrd Hfiles]. rewrite Hcon in Hfiles. cbn in Hfiles. set (s1 := (ensure_init s).2) in *.
  assert (∃ h, fd_files s1 !! Z.to_nat fd = Some (Some h)) as [h Hh].
  { unfold s1, ensure_init, bind, get. rewrite Hfd. unfold modify, alloc_file. cbn [snd fd_files set_fds].
    assert (fd = 0 ∨ fd = 1 ∨ fd = 2) as [->|[->| ->]] by lia; eexists; reflexivity. }
  split; [done|]. exists h. split; [done|]. by apply (Hfiles _ _ Hh).
Qed.

(** The standard streams never reach the console.  Building [/proc] fills the
    descriptor table, and it does so before the console terminal exists: descriptors
    0, 1 and 2 become bare character devices and stay so, whatever terminals [y] are
    created later.  A read from them is at the end of the file at once, and a write
    reports success while nothing changes: no byte reaches a terminal or the serial
    port. *)
Theorem streams_disconnected `{RawAccess, Drm} cpu root now ticks s :
  tree s = empty_fs → fd_files s = [] → console_pty_id (ptys s) = u32_max →
  ∃ s1, fs_init cpu s = (Ok tt, s1) ∧ ∀ y fd, 0 ≤ fd < 3 → let s2 := set_ptys y s1 in
    (∀ buf count, fd_read cpu root now ticks fd buf count s2 = (Ok (Some 0), s2)) ∧
    ∀ data, fd_write fd data s2 = (Ok (Z.of_nat (length data)), s2).
Proof.
  intros Ht Hfd Hcon. destruct (fs_init_spec cpu s Ht Hfd) as (t & d & E & _). eexists. split; [exact E|]. intros y fd Hr s2.
  apply bare_io; [lia|]. exact (ensure_init_bare s fd Hfd Hcon Hr).
Qed.

(** A console is created and a line typed on the serial port; the reader of
    descriptor 0 sees the end of the file. *)
Definition demo_typed : Pty.Sys := foldl (λ y b, push_uart_byte b y) (create_console_pty Pty.boot).2 (bytes_of "ls" ++ nl).

Lemma streams_disconnected_witness : ∃ s1, fs_init 0 demo_os = (Ok tt, s1) ∧
  (∃ p, get_pty demo_typed 0 = Some p ∧ slave_rx p = bytes_of "ls" ++ nl) ∧
  @fd_read 0 0 0 0 plain_access idle_drm 0 4096 80 (set_ptys demo_typed s1) = (Ok (Some 0), set_ptys demo_typed s1).
Proof.
  destruct (@streams_disconnected plain_access idle_drm 0 0 0 0 demo_os eq_refl eq_refl eq_refl) as (s1 & E & Hall).
  exists s1. split; [exact E|]. split; [eexists; split; vm_compute; reflexivity|]. exact (proj1 (Hall demo_typed 0 ltac:(lia)) 4096 80).
Defined.

Lemma walk_step f t cur x c cs : good_name c → itype (node t cur) = IDirectory → child t cur c = Some x → itype (node t x) ≠ ISymlink →
  walk f t cur (c :: cs) = walk f t x cs.
Proof. intros [Hc _] Ht Hx Hn. cbn [walk]. by rewrite Hc, bool_decide_eq_true_2, Hx, bool_decide_eq_false_2. Qed.

Lemma self_path_resolves cpu k t d c i : booted cpu k t d → (c, i) ∈ self_entries cpu k → good_name (bytes_of c) → itype i ≠ ISymlink →
  ∃ h, is_Some (inodes t !! h) ∧ node t h = i ∧
    ∀ e n, n ∈ ["self"; "1"]%string → resolve_path (S e) t (path_str (bytes_of <$> ["proc"%string; n; c])) = Ok h.
Proof.
  intros [[Br Bt0] [Bp Btp] (Bs & B1 & Btd) Be Bc _] Hin Hg Hi. destruct (Be _ Hin) as (h & Eh & Hp & Hnode). cbn [fst snd] in *.
  exists h. split_and!; [done|done|]. intros e n Hn. rewrite resolve_comps, Br.
  assert (child t proc_h (bytes_of n) = Some d ∧ good_name (bytes_of n)) as [Hd Hgn].
  { apply elem_of_cons in Hn as [->|Hn%list_elem_of_singleton]; [|subst n]; (split; [done|by_names]). }
  assert (good_name (bytes_of "proc")) as Hgp by by_names. cbn [fmap list_fmap].
  rewrite comps_path_str by (repeat (apply Forall_cons; split; [done|]); by apply Forall_nil).
  rewrite (walk_step _ t 0 proc_h), (walk_step _ t proc_h d), (walk_step _ t d h) by (done || congruence). done.
Qed.

(** [/proc/self] never describes the process that looks at it.  The directory is
    built once, before any process exists, and [/proc/1] is the same directory:
    whatever the tree grows to and whichever processes run, both [status] files say
    that the process is called [init] and has number 0. *)
Theorem proc_self_stale cpu s : tree s = empty_fs → fd_files s = [] →
  PROCESS_TABLE (kern (sig s)) = ∅ → current_pid cpu (kern (sig s)) = 0 →
  ∃ s1 h, fs_init cpu s = (Ok tt, s1) ∧ ∀ t e n, grows (tree s1) t → n ∈ ["/proc/self/status"; "/proc/1/status"]%string →
    resolve_path (S e) t (bytes_of n) = Ok h ∧
    idata (node t h) = status_text 0 (mkInfo (bytes_of "init") 0 0 0 0 0 0 1 []).
Proof.
  intros Ht Hfd Htab Hpid. destruct (fs_init_spec cpu s Ht Hfd) as (t1 & d & E & B). set (k := kern (sig s)) in *.
  set (i := text_file 0x124 (status_text 0 (mkInfo (bytes_of "init") 0 0 0 0 0 0 1 []))).
  assert (("status"%string, i) ∈ self_entries cpu k) as Hin.
  { unfold self_entries, self_first, self_info. rewrite Hpid, Htab, lookup_empty. do 3 right. left. }
  destruct (self_path_resolves cpu k t1 d "status" i B) as (h & Hp & Hn & Hres); [done|by_names|done|].
  eexists _, h. split; [exact E|]. intros t e n Hg Hnm. cbn [tree set_tree] in Hg.
  assert (resolve_path (S e) t1 (bytes_of n) = Ok h) as Er.
  { apply elem_of_cons in Hnm as [->|Hnm%list_elem_of_singleton]; [exact (Hres e "self"%string ltac:(by left))|].
    subst n. exact (Hres e "1"%string ltac:(right; left)). }
  split; [by eapply resolve_grows; [apply B|..]|]. destruct (gr_node _ _ Hg h Hp) as [_ ->]. by rewrite Hn.
Qed.

Lemma proc_self_stale_witness : ∃ s1 h, fs_init 0 demo_os = (Ok tt, s1) ∧ ∀ t e n, grows (tree s1) t → n ∈ ["/proc/self/status"; "/proc/1/status"]%string →
  resolve_path (S e) t (bytes_of n) = Ok h ∧ idata (node t h) = status_text 0 (mkInfo (bytes_of "init") 0 0 0 0 0 0 1 []).
Proof. exact (proc_self_stale 0 demo_os eq_refl eq_refl eq_refl eq_refl). Defined.

Lemma proc_fd_exact_witness : ∃ d f t, build_self_dir 0 [] demo_ready = (Ok d, set_tree t demo_ready) ∧
  child t d (bytes_of "fd") = Some f ∧ is_Some (child t f (bytes_of "2")) ∧ child t f (bytes_of "3") = None.
Proof.
  destruct (proc_fd_exact 0 [] demo_ready) as (d & f & t & E & Ef & Hiff & _).
  - exact demo_is_ready.
  - apply closed_check_ok. by_names.
  - exact (ensure_init_inodes [] demo_os eq_refl).
  - exists d, f, t. split_and!; [exact E|exact Ef| |].
    + apply Hiff. exists 2. split_and!; [lia|lia|reflexivity|vm_compute; reflexivity].
    + destruct (child t f (bytes_of "3")) as [x|] eqn:Ex; [|reflexivity]. exfalso.
      destruct (proj1 (Hiff (bytes_of "3"))) as (fd & Hfd & Ho & Eq); [eauto|].
      assert (fd = 3) as -> by (apply dec_inj; [lia|lia|rewrite <- Eq; reflexivity]). vm_compute in Ho. discriminate.
Defined.
