(* ===== verification/Calls.v ===== *)
(** * The remaining system calls ([syscall/process.rs], [mm.rs], [net.rs], [time.rs])

    Calls that decode arguments, answer fixed data, or combine operations of other
    components: the clocks, [prctl], [clone3], [waitid], [mremap], [getrandom] and
    the calls on several messages.  [counter] and [freq] are the cycle counter and
    its frequency, [clock] the counter at the looks of a loop that waits. *)

From S2P Require Import Prelude.
From S2P Require Import Path.
From S2P Require Import Paging.
From S2P Require Import User.
From S2P Require Import Sched.
From S2P Require Import Vmm.
From S2P Require Import Kernel.
From S2P Require Import Mmap.
From S2P Require Import Proc.
From S2P Require Import Clone.
From S2P Require Import Frame.
From S2P Require Import Pty.
From S2P Require Import Signal.
From S2P Require Import Input.
From S2P Require Import File.
From S2P Require Import FileOps.
From S2P Require Import FsSys.
From S2P Require Import NetSys.
From S2P Require Import Elf.
From S2P Require Import Exec.

Section Calls.
Context (cpu : nat) (root counter freq : Z) `{RawAccess}.

Definition ucopy_to (addr : Z) (data : list Z) : M Os () := FileOps.copy_to_user root addr data.
Definition ucopy_from (addr : Z) (n : nat) : M Os (list Z) := FileOps.copy_from_user root addr n.

(** ** Identity *)

Definition sys_getuid : M Os Z := gets (λ s, (current_creds cpu (the_k s)).1.1.1).
Definition sys_getgid : M Os Z := gets (λ s, (current_creds cpu (the_k s)).1.1.2).
Definition sys_geteuid : M Os Z := gets (λ s, (current_creds cpu (the_k s)).1.2).
Definition sys_getegid : M Os Z := gets (λ s, (current_creds cpu (the_k s)).2).

(** ** [clone] and [clone3] *)

Section Clone.
Context {F : Type} `{CpuContext F} (trampoline stack_top : Z) (frame : F).

Definition sys_clone (flags stack ptid tls ctid : Z) : M Os Z :=
  do_clone cpu root (@on_k) alloc_pidfd frame trampoline stack_top flags stack ptid tls ctid.

(** The structure of eleven words; what the caller does not give is zero. *)
Definition CLONE_ARGS_SIZE : Z := 88.
Definition clone_word (raw : list Z) (i : nat) : Z := from_le (take 8 (drop (8 * i) (copy_at 0 raw (replicate 88 0)))).

Definition sys_clone3 (clone_args size : Z) : M Os Z :=
  if clone_args =? 0 then fail EINVAL else
  let to_copy := Z.min size CLONE_ARGS_SIZE in
  if to_copy <? 64 then fail EINVAL else
  let! raw := map_err (ucopy_from clone_args (Z.to_nat to_copy)) EFAULT in
  let w := clone_word raw in
  let flags := w 0%nat in let pidfd := w 1%nat in let child_tid := w 2%nat in let parent_tid := w 3%nat in
  let exit_signal := w 4%nat in let stack := w 5%nat in let tls := w 7%nat in
  let set_tid := w 8%nat in let set_tid_size := w 9%nat in let cgroup := w 10%nat in
  if has exit_signal (not64 0xff) then fail EINVAL else
  if negb (set_tid_size =? 0) && (set_tid =? 0) then fail EINVAL else
  if negb (cgroup =? 0) then fail EINVAL else
  if 1 <? set_tid_size then fail EINVAL else
  when (set_tid_size =? 1)
    (let! req_tid := map_err (ucopy_from set_tid 4) EFAULT in
     when (negb (from_le req_tid =? 0)) (fail EINVAL)) ;;;
  let flags := Z.lor flags (Z.land exit_signal 0xff) in
  let flags := if pidfd =? 0 then flags else Z.lor flags CLONE_PIDFD in
  sys_clone flags stack (if pidfd =? 0 then parent_tid else pidfd) tls child_tid.
End Clone.

(** ** [wait4] and [waitid] *)

Definition sys_wait4 (env : list (K → K)) (pid wstatus options : Z) : M Os (option Z) :=
  on_k (do_wait4 cpu root env pid wstatus options).

Definition WEXITED : Z := 4.
Definition WAITID_FLAGS : Z := Z.lor (Z.lor 1 WEXITED) 0x01000000.

(** The [siginfo] of an exited child. *)
Definition exit_info (child status : Z) : list Z :=
  copy_at 24 (to_le 4 (status mod 2 ^ 32)) (copy_at 20 (to_le 4 0) (copy_at 16 (to_le 4 (child mod 2 ^ 32))
    (copy_at 12 (to_le 4 (child mod 2 ^ 32)) (copy_at 8 (to_le 4 1) (copy_at 0 (to_le 4 17) (replicate 128 0)))))).

Definition sys_waitid (env : list (K → K)) (idtype id infop options : Z) : M Os (option Z) :=
  if negb (has options WEXITED) then fail EINVAL else
  if has options (not32 WAITID_FLAGS) then fail EINVAL else
  let! wait_pid := (if idtype =? 0 then ret (-1) else if idtype =? 1 then ret (as_i32 id) else fail EINVAL) in
  let! o := on_k (do_wait4_with_status cpu env wait_pid options) in
  match o with
  | None => ret None
  | Some (reaped, status) =>
      when (negb (infop =? 0)) (map_err (ucopy_to infop (exit_info reaped status)) EFAULT) ;;;
      ret (Some 0)
  end.

(** ** [prctl] *)

Definition PR_SET_NAME : Z := 15.
Definition PR_GET_NAME : Z := 16.
Definition PR_SET_NO_NEW_PRIVS : Z := 38.
Definition PR_GET_NO_NEW_PRIVS : Z := 39.

Definition rename_process (n : string) (p : Process) : Process :=
  mkProcess (p_pid p) (tgid p) (pgid p) (sid p) (ppid p) (uid p) (gid p) (euid p) (egid p) (suid p) (sgid p) (no_new_privs p)
    n (environ p) (p_threads p) (brk_base p) (brk_current p) (mmap_next p) (vmm p).
Definition forbid_privs (p : Process) : Process :=
  mkProcess (p_pid p) (tgid p) (pgid p) (sid p) (ppid p) (uid p) (gid p) (euid p) (egid p) (suid p) (sgid p) true
    (p_name p) (environ p) (p_threads p) (brk_base p) (brk_current p) (mmap_next p) (vmm p).

Definition on_cur (f : Process → Process) (k : K) : K := set_table (alter f (current_pid cpu k) (PROCESS_TABLE k)) k.

Definition sys_prctl (option_ arg2 : Z) : M Os Z :=
  if option_ =? PR_SET_NAME then
    if arg2 =? 0 then fail EFAULT else
    let! raw := map_err (ucopy_from arg2 16) EFAULT in
    let! name := ok_or (from_utf8 (until_nul raw)) EINVAL in
    on_k (modify (on_cur (rename_process (string_of name)))) ;;;
    ret 0
  else if option_ =? PR_GET_NAME then
    if arg2 =? 0 then fail EFAULT else
    let! o := gets (λ s, cur_proc cpu (the_k s)) in
    let out := match o with Some p => copy_at 0 (take 15 (bytes_of (p_name p))) (replicate 16 0) | None => replicate 16 0 end in
    map_err (ucopy_to arg2 out) EFAULT ;;;
    ret 0
  else if option_ =? PR_SET_NO_NEW_PRIVS then
    if negb (arg2 =? 1) then fail EINVAL else
    let! o := gets (λ s, cur_proc cpu (the_k s)) in
    let! _ := ok_or o ESRCH in
    on_k (modify (on_cur forbid_privs)) ;;;
    ret 0
  else if option_ =? PR_GET_NO_NEW_PRIVS then
    let! o := gets (λ s, cur_proc cpu (the_k s)) in
    ret (if from_option no_new_privs false o then 1 else 0)
  else fail EINVAL.

(** ** Fixed answers *)

Definition ARCH_NAME : list Z := bytes_of "aarch64".
Definition uname_record : list Z :=
  copy_at 260 ARCH_NAME (copy_at 195 (bytes_of "Cyllor OS 0.1") (copy_at 130 (bytes_of "6.1.0")
    (copy_at 65 (bytes_of "cyllor") (copy_at 0 (bytes_of "Cyllor") (replicate 390 0))))).
Definition sys_uname (buf : Z) : M Os Z :=
  if buf =? 0 then fail EFAULT else map_err (ucopy_to buf uname_record) EFAULT ;;; ret 0.

Definition statfs_record : list Z :=
  copy_at 56 (to_le 8 255) (copy_at 32 (to_le 8 (512 * 1024)) (copy_at 24 (to_le 8 (512 * 1024)) (copy_at 16 (to_le 8 (1024 * 1024))
    (copy_at 8 (to_le 8 4096) (copy_at 0 (to_le 8 0xEF53) (replicate 120 0)))))).
Definition sys_statfs (buf : Z) : M Os Z := when (negb (buf =? 0)) (ignore (ucopy_to buf statfs_record)) ;;; ret 0.

Definition sys_prlimit64 (old_limit : Z) : M Os Z :=
  when (negb (old_limit =? 0)) (ignore (ucopy_to old_limit (to_le 8 u64_max ++ to_le 8 u64_max))) ;;; ret 0.

(** ** Memory *)

Definition sys_getrandom (buf buflen : Z) : M Os Z :=
  ignore (ucopy_to buf (random_bytes (Z.to_nat buflen) counter)) ;;; ret buflen.

Definition MREMAP_MAYMOVE : Z := 1.
Definition MREMAP_FIXED : Z := 2.

Definition sys_mremap (file_of : Z → option (option (list Z))) (old_addr old_size new_size flags new_addr : Z) : M Os Z :=
  if (old_addr =? 0) || (old_size =? 0) || (new_size =? 0) then fail EINVAL else
  if has flags MREMAP_FIXED && negb (has flags MREMAP_MAYMOVE) then fail EINVAL else
  if new_size <=? old_size then
    when (new_size <? old_size)
      (let! tail := or_panic (add64 old_addr new_size) in
       ignore (on_k (do_munmap cpu root tail (old_size - new_size)))) ;;;
    ret old_addr
  else if negb (has flags MREMAP_MAYMOVE) then fail ENOMEM else
  let target := if has flags MREMAP_FIXED then new_addr else 0 in
  let mmap_flags := if target =? 0 then 0x22 else 0x32 in
  let! new := on_k (do_mmap cpu root file_of target new_size 3 mmap_flags (-1) 0) in
  let! temp := map_err (ucopy_from old_addr (Z.to_nat old_size)) EFAULT in
  map_err (ucopy_to new temp) EFAULT ;;;
  ignore (on_k (do_munmap cpu root old_addr old_size)) ;;;
  ret new.

(** ** Several messages *)

(** [sent] messages are done; the length of each goes to the end of its header. *)
Fixpoint sendmmsg_loop (l : list Z) (fd mmsg sent : Z) : M Os Z :=
  match l with
  | [] => ret sent
  | i :: l' =>
      let! base := or_panic (add64 mmsg (i * 64)) in
      let! r := try (do_sendmsg root fd base) in
      match r with
      | inl n =>
          let! a := or_panic (add64 base 56) in
          map_err (ucopy_to a (to_le 4 (n mod 2 ^ 32))) EFAULT ;;;
          sendmmsg_loop l' fd mmsg (sent + 1)
      | inr e => if 0 <? sent then ret sent else fail e
      end
  end.
Definition sys_sendmmsg (fd mmsg vlen : Z) : M Os Z :=
  if (mmsg =? 0) || (vlen =? 0) then fail EINVAL else sendmmsg_loop (seqZ 0 (Z.min vlen 64)) fd mmsg 0.

Fixpoint recvmmsg_loop (l : list Z) (fd mmsg recvd : Z) : M Os (option Z) :=
  match l with
  | [] => ret (Some recvd)
  | i :: l' =>
      let! base := or_panic (add64 mmsg (i * 64)) in
      let! r := try (do_recvmsg root fd base) in
      match r with
      | inl None => ret None
      | inl (Some n) =>
          let! a := or_panic (add64 base 56) in
          map_err (ucopy_to a (to_le 4 (n mod 2 ^ 32))) EFAULT ;;;
          recvmmsg_loop l' fd mmsg (recvd + 1)
      | inr e => if 0 <? recvd then ret (Some recvd) else fail e
      end
  end.
Definition sys_recvmmsg (fd mmsg vlen : Z) : M Os (option Z) :=
  if (mmsg =? 0) || (vlen =? 0) then fail EINVAL else recvmmsg_loop (seqZ 0 (Z.min vlen 64)) fd mmsg 0.

(** ** Time *)

(** Seconds and nanoseconds of the counter; a frequency of zero divides by zero. *)
Definition clock_reading (c f : Z) : option (Z * Z) :=
  if f =? 0 then None else n ← mul64 (c mod f) 1000000000; Some (c / f, n / f).

Definition sys_clock_gettime (tp : Z) : M Os Z :=
  let! t := or_panic (clock_reading counter freq) in
  when (negb (tp =? 0)) (ignore (ucopy_to tp (to_le 8 t.1 ++ to_le 8 t.2))) ;;;
  ret 0.

(** The counts to wait for, in machine arithmetic. *)
Definition ticks_to_wait (secs nsecs : Z) : option Z :=
  a ← mul64 secs freq; b ← mul64 nsecs freq; add64 a (b / 1000000000).

(** The loop reads the counter until enough counts have passed; [None] when it is
    still looping after [looks] reads. *)
Fixpoint spin (clock : nat → Z) (start n : Z) (looks i : nat) : option (option nat) :=
  match looks with
  | O => Some None
  | S looks' =>
      d ← sub64 (clock i) start;
      if n <=? d then Some (Some i) else spin clock start n looks' (S i)
  end.

Definition sys_nanosleep (clock : nat → Z) (looks : nat) (req rem : Z) : M Os (option Z) :=
  if req =? 0 then fail EINVAL else
  let! a := load_user req 8 in
  let! r8 := or_panic (add64 req 8) in
  let! b := load_user r8 8 in
  let! n := or_panic (ticks_to_wait (from_le a) (from_le b)) in
  let! o := or_panic (spin clock counter n looks 0) in
  match o with
  | None => ret None
  | Some _ =>
      when (negb (rem =? 0))
        (store_user rem (to_le 8 0) ;;;
         let! m8 := or_panic (add64 rem 8) in
         store_user m8 (to_le 8 0)) ;;;
      ret (Some 0)
  end.
Definition sys_clock_nanosleep (clock : nat → Z) (looks : nat) (req rem : Z) : M Os (option Z) := sys_nanosleep clock looks req rem.
End Calls.

(** ** Clocks *)

(** The clock tells the time of the counter exactly: seconds and nanoseconds
    together are the counter's value in nanoseconds, rounded down, the nanoseconds
    always below a second; so it never runs backwards while the counter does not. *)
Theorem clock_exact c f : 0 ≤ c → 0 < f < 2 ^ 34 →
  ∃ s n, clock_reading c f = Some (s, n) ∧ 0 ≤ n < 1000000000 ∧ s * 1000000000 + n = c * 1000000000 / f.
Proof.
  intros Hc Hf. unfold clock_reading. destruct (Z.eqb_spec f 0); [lia|].
  pose proof (Z.mod_pos_bound c f ltac:(lia)). unfold mul64. rewrite bool_decide_eq_true_2 by nia. cbn [mbind option_bind].
  eexists _, _. split; [reflexivity|]. split; [split; [apply Z.div_pos; lia|apply Z.div_lt_upper_bound; nia]|].
  rewrite (Z.div_mod c f) at 3 by lia. rewrite Z.mul_add_distr_r, (Z.mul_comm f), <- Z.mul_assoc, (Z.mul_comm f), Z.mul_assoc.
  rewrite Z.div_add_l by lia. done.
Qed.

Lemma clock_exact_witness : ∃ s n, clock_reading 100000001 62500000 = Some (s, n) ∧ s * 1000000000 + n = 1600000016.
Proof.
  destruct (clock_exact 100000001 62500000) as (s & n & E & _ & H); [lia|lia|]. exists s, n. split; [exact E|exact H].
Defined.

(** Sleeping ends and is long enough: when the counter passes the wanted
    number of counts at some look, the loop has ended by then, at a look at which
    the time has passed and not before. *)
Theorem nanosleep_waits clock start n looks j : (∀ i, start ≤ clock i < 2 ^ 64) → 0 ≤ start → (j < looks)%nat → start + n ≤ clock j →
  ∃ i, spin clock start n looks 0 = Some (Some i) ∧ (i ≤ j)%nat ∧ start + n ≤ clock i ∧ ∀ k, (k < i)%nat → clock k < start + n.
Proof.
  intros Hc Hs Hj Hn.
  assert (∀ m i, (i ≤ j)%nat → (j < i + m)%nat → (∀ k, (k < i)%nat → clock k < start + n) →
    ∃ r, spin clock start n m i = Some (Some r) ∧ (r ≤ j)%nat ∧ start + n ≤ clock r ∧ ∀ k, (k < r)%nat → clock k < start + n) as H.
  { induction m as [|m IH]; intros i Hi Hm Hk; [lia|]. cbn [spin]. pose proof (Hc i) as Hci. rewrite sub64_small by lia. cbn [mbind option_bind]. destruct (Z.leb_spec n (clock i - start)).
    - exists i. split_and!; [done|done|lia|done].
    - assert (i ≠ j) by (intros ->; lia). apply IH; [lia|lia|]. intros k Hlt. destruct (decide (k = i)) as [->|]; [lia|]. apply Hk. lia. }
  apply (H looks 0%nat); lia.
Qed.

Lemma nanosleep_waits_witness : ∃ i, spin (λ i, 100 + 7 * Z.of_nat (i `min` 1000)) 100 20 50 0 = Some (Some i) ∧ (i ≤ 3)%nat.
Proof.
  destruct (nanosleep_waits (λ i, 100 + 7 * Z.of_nat (i `min` 1000)) 100 20 50 3) as (i & E & Hi & _); [intros i; lia|lia|lia|cbn; lia|].
  exists i. split; [exact E|exact Hi].
Defined.
