(* ===== verification/Dispatch.v ===== *)
(** * System-call dispatch ([syscall/mod.rs])

    The table from numbers to calls, with the conversion of the six argument
    registers to the types of each call, and [handle], which decodes the frame,
    runs the call, puts the result in [x0] and delivers a pending signal.

    What the calls depend on besides the state is fixed for the duration of one
    call: [counter], [freq], [ticks] and [clock] the times it reads; [between],
    [others] and [env] what the rest of the system does while it waits; [looks]
    how often it looks; [depth] and [fuel] bounds of path resolution;
    [trampoline], [stack_top] and [shm_buf] addresses from architecture and heap. *)

From S2P Require Import Prelude.
From S2P Require Import Path.
From S2P Require Import Paging.
From S2P Require Import Sched.
From S2P Require Futex.
From S2P Require Import Kernel.
From S2P Require Import Shm.
From S2P Require Import Mmap.
From S2P Require Import Frame.
From S2P Require Import Proc.
From S2P Require Import Clone.
From S2P Require Import Elf.
From S2P Require Import Signal.
From S2P Require Import Vfs.
From S2P Require Import Input.
From S2P Require Import File.
From S2P Require Import FileOps.
From S2P Require Import FsSys.
From S2P Require Import Exec.
From S2P Require Import Gic.
From S2P Require Import Irq.
From S2P Require Import NetSys.
From S2P Require Import Poll.
From S2P Require Import Calls.

Definition ENOSYS : Z := 38.

(** ** Numbers *)

Module nr.
Definition READ : Z := 63.
Definition WRITE : Z := 64.
Definition CLOSE : Z := 57.
Definition OPENAT : Z := 56.
Definition FSTAT : Z := 80.
Definition EXIT : Z := 93.
Definition EXIT_GROUP : Z := 94.
Definition WAITID : Z := 95.
Definition SET_TID_ADDRESS : Z := 96.
Definition CLOCK_GETTIME : Z := 113.
Definition NANOSLEEP : Z := 101.
Definition MMAP : Z := 222.
Definition MUNMAP : Z := 215.
Definition MPROTECT : Z := 226.
Definition BRK : Z := 214.
Definition CLONE : Z := 220.
Definition EXECVE : Z := 221.
Definition WAIT4 : Z := 260.
Definition GETPID : Z := 172.
Definition GETPPID : Z := 173.
Definition GETUID : Z := 174.
Definition GETGID : Z := 176.
Definition GETEUID : Z := 175.
Definition GETEGID : Z := 177.
Definition SETGID : Z := 144.
Definition SETUID : Z := 146.
Definition SETRESUID : Z := 147.
Definition GETRESUID : Z := 148.
Definition SETRESGID : Z := 149.
Definition GETRESGID : Z := 150.
Definition GETTID : Z := 178.
Definition SETPGID : Z := 154.
Definition GETPGID : Z := 155.
Definition GETSID : Z := 156.
Definition SETSID : Z := 157.
Definition GETPGRP : Z := 106.
Definition IOCTL : Z := 29.
Definition WRITEV : Z := 66.
Definition READV : Z := 65.
Definition PPOLL : Z := 73.
Definition FCNTL : Z := 25.
Definition DUP : Z := 23.
Definition DUP3 : Z := 24.
Definition PIPE2 : Z := 59.
Definition SOCKET : Z := 198.
Definition SOCKETPAIR : Z := 199.
Definition BIND : Z := 200.
Definition LISTEN : Z := 201.
Definition ACCEPT4 : Z := 242.
Definition CONNECT : Z := 203.
Definition SENDTO : Z := 206.
Definition RECVFROM : Z := 207.
Definition SENDMSG : Z := 211.
Definition RECVMSG : Z := 212.
Definition RECVMMSG : Z := 243.
Definition SENDMMSG : Z := 269.
Definition SETSOCKOPT : Z := 208.
Definition GETSOCKOPT : Z := 209.
Definition GETCWD : Z := 17.
Definition CHDIR : Z := 49.
Definition MKDIRAT : Z := 34.
Definition UNLINKAT : Z := 35.
Definition RENAMEAT2 : Z := 276.
Definition STATX : Z := 291.
Definition NEWFSTATAT : Z := 79.
Definition LSEEK : Z := 62.
Definition RT_SIGACTION : Z := 134.
Definition RT_SIGPROCMASK : Z := 135.
Definition RT_SIGRETURN : Z := 139.
Definition KILL : Z := 129.
Definition TGKILL : Z := 131.
Definition FUTEX : Z := 98.
Definition EPOLL_CREATE1 : Z := 20.
Definition EPOLL_CTL : Z := 21.
Definition EPOLL_PWAIT : Z := 22.
Definition EVENTFD2 : Z := 19.
Definition TIMERFD_CREATE : Z := 85.
Definition TIMERFD_SETTIME : Z := 86.
Definition SIGNALFD4 : Z := 74.
Definition GETRANDOM : Z := 278.
Definition MEMFD_CREATE : Z := 279.
Definition PRLIMIT64 : Z := 261.
Definition SCHED_YIELD : Z := 124.
Definition CLOCK_NANOSLEEP : Z := 115.
Definition SET_ROBUST_LIST : Z := 99.
Definition GET_ROBUST_LIST : Z := 100.
Definition RSEQ : Z := 293.
Definition CLONE3 : Z := 435.
Definition PRCTL : Z := 167.
Definition ARCH_PRCTL : Z := 167.
Definition UNAME : Z := 160.
Definition GETDENTS64 : Z := 61.
Definition READLINKAT : Z := 78.
Definition ACCESS : Z := 1039.
Definition FACCESSAT : Z := 48.
Definition FACCESSAT2 : Z := 439.
Definition FSTATFS : Z := 44.
Definition STATFS : Z := 43.
Definition MREMAP : Z := 216.
Definition MADVISE : Z := 233.
Definition SIGALTSTACK : Z := 132.
Definition GETSOCKNAME : Z := 204.
Definition GETPEERNAME : Z := 205.
Definition SHMGET : Z := 194.
Definition SHMAT : Z := 196.
Definition SHMCTL : Z := 195.
Definition SHMDT : Z := 197.
End nr.

(** ** Casts of argument registers *)

Definition u32 (a : Z) : Z := a mod 2 ^ 32.
Definition i32 (a : Z) : Z := as_i32 (a mod 2 ^ 32).
Definition i64 (a : Z) : Z := as_i64 a.

(** The contents [mmap] finds behind a descriptor. *)
Definition mmap_file (s : Os) (fd : Z) : option (option (list Z)) :=
  match (get_file fd s).1 with
  | Ok h => Some ((λ n, idata (node (tree s) n)) <$> inode (file s h))
  | _ => None
  end.

(** The futex component on its part of the state. *)
Definition futex {A} (m : M Futex.Sys A) : M St A := λ s,
  let k := the_k (os s) in
  let '(r, x) := m (Futex.mkSys (sched k) (mach k) (FUTEXES s) (TOKENS s)) in
  let k' := Kernel.set_mach (Futex.mach x) (Kernel.set_sched (Futex.sched x) k) in
  (r, set_futexes (Futex.FUTEX_WAITERS x) (Futex.FUTEX_TOKENS x) (set_os (set_sig (set_kern k' (sig (os s))) (os s)) s)).

(** ** Entry points ([syscall/mm.rs], [syscall/net.rs], [syscall/signal.rs], [syscall/io.rs])

    The functions of [syscall/] that hand their arguments on. *)

Section Entry.
Context (cpu : nat) (root hhdm counter freq : Z) `{RawAccess, Drm} {F : Type} `{CpuContext F}.

Definition sys_mmap (file_of : Z → option (option (list Z))) (addr length prot flags fd offset : Z) : M K Z :=
  do_mmap cpu root file_of addr length prot flags fd offset.
Definition sys_munmap (addr length : Z) : M K Z := do_munmap cpu root addr length.
Definition sys_mprotect (addr len prot : Z) : M K Z := do_mprotect cpu root addr len prot.
Definition sys_brk (addr : Z) : M K Z := do_brk cpu root addr.
Definition sys_memfd_create (name flags : Z) : M Os Z := memfd_create.
Definition sys_shmget (buf key size shmflg : Z) : M K Z := do_shmget hhdm key size shmflg buf.
Definition sys_shmat (shmid shmaddr shmflg : Z) : M K Z := do_shmat cpu root hhdm shmid shmaddr shmflg.
Definition sys_shmctl (shmid cmd buf : Z) : M K Z := do_shmctl root shmid cmd buf.
Definition sys_shmdt (shmaddr : Z) : M K Z := do_shmdt cpu root shmaddr.

Definition sys_socket (domain sock_type protocol : Z) : M Os Z := do_socket cpu domain sock_type protocol.
Definition sys_socketpair (domain sock_type protocol sv : Z) : M Os Z := do_socketpair cpu root domain sock_type protocol sv.
Definition sys_bind (fd addr addrlen : Z) : M Os Z := do_bind root fd addr addrlen.
Definition sys_listen (fd backlog : Z) : M Os Z := do_listen fd backlog.
Definition sys_accept4 (fd addr addrlen flags : Z) : M Os (option Z) := do_accept4 cpu root fd addr addrlen flags.
Definition sys_connect (fd addr addrlen : Z) : M Os Z := do_connect root fd addr addrlen.
Definition sys_sendto (fd buf len flags dest_addr addrlen : Z) : M Os Z := do_sendto root fd buf len.
Definition sys_recvfrom (fd buf len flags src_addr addrlen : Z) : M Os (option Z) :=
  do_recvfrom root fd buf len flags src_addr addrlen.
Definition sys_sendmsg (fd msg flags : Z) : M Os Z := do_sendmsg root fd msg.
Definition sys_recvmsg (fd msg flags : Z) : M Os (option Z) := do_recvmsg root fd msg.
Definition sys_getsockname (fd addr addrlen_ptr : Z) : M Os Z := do_getsockname root fd addr addrlen_ptr.
Definition sys_getpeername (fd addr addrlen_ptr : Z) : M Os Z := do_getpeername root fd addr addrlen_ptr.

Definition sys_rt_sigaction (signum act oldact sigsetsize : Z) : M Sig Z := do_sigaction cpu root signum act oldact sigsetsize.
Definition sys_rt_sigprocmask (how set oldset sigsetsize : Z) : M Sig Z := do_sigprocmask cpu root how set oldset sigsetsize.
Definition sys_rt_sigreturn (f : F) : M Sig (F * Z) := do_sigreturn cpu f.
Definition sys_kill (pid sig : Z) : M Sig Z := do_kill cpu pid sig.
Definition sys_tgkill (tgid tid sig : Z) : M Sig Z := do_tgkill tgid tid sig.
Definition sys_sigaltstack (ss old_ss : Z) : M Sig Z := do_sigaltstack cpu root ss old_ss.

Definition sys_ioctl (fd request arg : Z) : M Os Z := do_ioctl cpu fd request arg.
Definition sys_epoll_create1 (flags : Z) : M Os Z := epoll_create1 flags.
Definition sys_epoll_ctl (epfd op fd event : Z) : M Os Z := epoll_ctl root epfd op fd event.
Definition sys_eventfd2 (initval flags : Z) : M Os Z := eventfd2 initval.
Definition sys_futex (others : Futex.Sys → Futex.Sys) (uaddr futex_op val timeout uaddr2 val3 : Z) : M Futex.Sys Z :=
  Futex.do_futex cpu root freq others uaddr futex_op val timeout uaddr2 val3.
Definition sys_timerfd_create (clockid flags : Z) : M Os Z := timerfd_create (u32 flags).
Definition sys_timerfd_settime (fd flags new_value old_value : Z) : M Os Z :=
  timerfd_settime root freq counter fd flags new_value old_value.
Definition sys_signalfd4 (fd mask sizemask flags : Z) : M Os Z := signalfd4 root fd mask sizemask flags.
End Entry.

Section Dispatch.
Context (cpu : nat) (root hhdm counter freq ticks : Z) (depth fuel looks : nat) (ext4 : list Z → option (list Z)).
Context (clock : nat → Z) (between : nat → Os → Os) (others : Futex.Sys → Futex.Sys) (env : list (K → K)).
Context (trampoline stack_top shm_buf : Z) `{RawAccess, Drm, Goblin} {F : Type} `{CpuContext F}.

(** A call that returns gives the frame to resume and a value; one that does not
    (the thread has ended, waits, or has given the processor up) gives nothing. *)
Definition Call : Type := M St (option (F * Z)).

Definition returns (f : F) (m : M Os Z) : Call := let! v := kernel m in ret (Some (f, v)).
Definition returns_k (f : F) (m : M K Z) : Call := returns f (on_k m).
Definition returns_sig (f : F) (m : M Sig Z) : Call := returns f (on_sig m).
Definition may_wait (f : F) (m : M Os (option Z)) : Call := let! o := kernel m in ret ((λ v, (f, v)) <$> o).
(** The thread has ended. *)
Definition never (m : M K (option Switch)) : Call := kernel (on_k m) ;;; ret None.
(** The scheduler has been entered; the thread goes on at once if nothing else runs. *)
Definition yields (f : F) (m : M K (option Switch)) : Call :=
  let! w := kernel (on_k m) in
  ret (if from_option switches false w then None else Some (f, 0)).

Definition mmap_call (f : F) (m : (Z → option (option (list Z))) → M Os Z) : Call :=
  let! s := get in returns f (m (mmap_file (os s))).

Definition calls (f : F) (a : nat → Z) : list (Z * Call) :=
  let a0 := a 0%nat in let a1 := a 1%nat in let a2 := a 2%nat in let a3 := a 3%nat in let a4 := a 4%nat in let a5 := a 5%nat in
  [(nr.WRITE, returns f (sys_write root hhdm a0 a1 a2));
   (nr.READ, may_wait f (sys_read cpu root counter ticks a0 a1 a2));
   (nr.OPENAT, returns f (sys_openat root depth fuel ext4 (i32 a0) a1 (u32 a2) (u32 a3)));
   (nr.CLOSE, returns f (close (u32 a0)));
   (nr.LSEEK, returns f (fs_lseek (u32 a0) (i64 a1) (u32 a2)));
   (nr.FSTAT, returns f (fstat root (u32 a0) a1));
   (nr.NEWFSTATAT, returns f (sys_newfstatat root depth fuel (i32 a0) a1 a2 (u32 a3)));
   (nr.GETCWD, returns f (getcwd a0 a1));
   (nr.CHDIR, returns f (sys_chdir depth a0));
   (nr.MKDIRAT, returns f (sys_mkdirat depth fuel (i32 a0) a1 (u32 a2)));
   (nr.UNLINKAT, returns f (sys_unlinkat depth fuel (i32 a0) a1 (u32 a2)));
   (nr.RENAMEAT2, returns f (sys_renameat2 depth fuel (i32 a0) a1 (i32 a2) a3 (u32 a4)));
   (nr.STATX, returns f (sys_statx root depth fuel (i32 a0) a1 (u32 a2) (u32 a3) a4));
   (nr.WRITEV, returns f (sys_writev root hhdm (u32 a0) a1 (u32 a2)));
   (nr.READV, may_wait f (sys_readv cpu root counter ticks (u32 a0) a1 (u32 a2)));
   (nr.DUP, returns f (dup_fd (u32 a0)));
   (nr.DUP3, returns f (dup3_fd (u32 a0) (u32 a1) (u32 a2)));
   (nr.PIPE2, returns f (pipe2 a0));
   (nr.FCNTL, returns f (fcntl (u32 a0) (u32 a1) a2));

   (nr.EXIT, never (sys_exit cpu root (i32 a0)));
   (nr.EXIT_GROUP, never (sys_exit_group cpu (i32 a0)));
   (nr.GETPID, returns_k f (sys_getpid cpu));
   (nr.GETPPID, returns_k f (sys_getppid cpu));
   (nr.GETTID, returns_k f (sys_gettid cpu));
   (nr.GETPGRP, returns_k f (sys_getpgrp cpu));
   (nr.GETPGID, returns_k f (sys_getpgid cpu (i32 a0)));
   (nr.GETSID, returns_k f (sys_getsid cpu (i32 a0)));
   (nr.SETPGID, returns_k f (sys_setpgid cpu (i32 a0) (i32 a1)));
   (nr.SETSID, returns_k f (sys_setsid cpu));
   (nr.GETUID, returns f (sys_getuid cpu));
   (nr.GETEUID, returns f (sys_geteuid cpu));
   (nr.GETGID, returns f (sys_getgid cpu));
   (nr.GETEGID, returns f (sys_getegid cpu));
   (nr.SETUID, returns_k f (sys_setuid cpu (u32 a0)));
   (nr.SETGID, returns_k f (sys_setgid cpu (u32 a0)));
   (nr.GETRESUID, returns_k f (sys_getresuid cpu root a0 a1 a2));
   (nr.GETRESGID, returns_k f (sys_getresgid cpu root a0 a1 a2));
   (nr.SETRESUID, returns_k f (sys_setresuid cpu (i32 a0) (i32 a1) (i32 a2)));
   (nr.SETRESGID, returns_k f (sys_setresgid cpu (i32 a0) (i32 a1) (i32 a2)));
   (nr.CLONE, returns f (sys_clone cpu root trampoline stack_top f a0 a1 a2 a3 a4));
   (nr.EXECVE, let! r := kernel (do_execve cpu root depth ext4 counter f a0 a1 a2) in ret (Some (r.1.2, r.1.1)));
   (nr.WAIT4, may_wait f (sys_wait4 cpu root env (i32 a0) a1 (u32 a2)));
   (nr.WAITID, may_wait f (sys_waitid cpu root env (i32 a0) (u32 a1) a2 (u32 a3)));
   (nr.SET_TID_ADDRESS, returns_k f (sys_set_tid_address cpu a0));
   (nr.SCHED_YIELD, yields f (timer_tick cpu));

   (nr.MMAP, mmap_call f (λ file_of, on_k (sys_mmap cpu root file_of a0 a1 (u32 a2) (u32 a3) (i32 a4) (i64 a5))));
   (nr.MUNMAP, returns_k f (sys_munmap cpu root a0 a1));
   (nr.MPROTECT, returns_k f (sys_mprotect cpu root a0 a1 (u32 a2)));
   (nr.BRK, returns_k f (sys_brk cpu root a0));

   (nr.RT_SIGACTION, returns_sig f (sys_rt_sigaction cpu root (i32 a0) a1 a2 a3));
   (nr.RT_SIGPROCMASK, returns_sig f (sys_rt_sigprocmask cpu root (i32 a0) a1 a2 a3));
   (nr.RT_SIGRETURN, let! r := kernel (on_sig (sys_rt_sigreturn cpu f)) in ret (Some r));
   (nr.KILL, returns_sig f (sys_kill cpu (i32 a0) (i32 a1)));
   (nr.TGKILL, returns_sig f (sys_tgkill (i32 a0) (i32 a1) (i32 a2)));

   (nr.CLOCK_GETTIME, returns f (sys_clock_gettime root counter freq a1));
   (nr.NANOSLEEP, may_wait f (sys_nanosleep counter freq clock looks a0 a1));
   (nr.CLOCK_NANOSLEEP, may_wait f (sys_clock_nanosleep counter freq clock looks a2 a3));

   (nr.IOCTL, returns f (sys_ioctl cpu (u32 a0) a1 a2));
   (nr.PPOLL, may_wait f (sys_ppoll cpu root freq clock between looks counter a0 (u32 a1) a2 a3));
   (nr.EPOLL_CREATE1, returns f (sys_epoll_create1 (u32 a0)));
   (nr.EPOLL_CTL, returns f (sys_epoll_ctl root (i32 a0) (i32 a1) (i32 a2) a3));
   (nr.EPOLL_PWAIT, may_wait f (sys_epoll_pwait cpu root freq clock between looks counter (i32 a0) a1 (i32 a2) (i32 a3) a4));
   (nr.EVENTFD2, returns f (sys_eventfd2 (u32 a0) (u32 a1)));
   (nr.FUTEX, let! v := futex (sys_futex cpu root freq others a0 (i32 a1) (u32 a2) a3 a4 (u32 a5)) in ret (Some (f, v)));
   (nr.TIMERFD_CREATE, returns f (sys_timerfd_create (i32 a0) (i32 a1)));
   (nr.TIMERFD_SETTIME, returns f (sys_timerfd_settime root counter freq (i32 a0) (i32 a1) a2 a3));
   (nr.SIGNALFD4, returns f (sys_signalfd4 root (i32 a0) a1 a2 (i32 a3)));

   (nr.SOCKET, returns f (sys_socket cpu (i32 a0) (i32 a1) (i32 a2)));
   (nr.SOCKETPAIR, returns f (sys_socketpair cpu root (i32 a0) (i32 a1) (i32 a2) a3));
   (nr.BIND, returns f (sys_bind root (i32 a0) a1 (u32 a2)));
   (nr.LISTEN, returns f (sys_listen (i32 a0) (i32 a1)));
   (nr.ACCEPT4, may_wait f (sys_accept4 cpu root (i32 a0) a1 a2 (u32 a3)));
   (nr.CONNECT, returns f (sys_connect root (i32 a0) a1 (u32 a2)));
   (nr.SENDTO, returns f (sys_sendto root (i32 a0) a1 a2 (u32 a3) a4 (u32 a5)));
   (nr.RECVFROM, may_wait f (sys_recvfrom root (i32 a0) a1 a2 (u32 a3) a4 a5));
   (nr.SENDMSG, returns f (sys_sendmsg root (i32 a0) a1 (u32 a2)));
   (nr.RECVMSG, may_wait f (sys_recvmsg root (i32 a0) a1 (u32 a2)));
   (nr.SENDMMSG, returns f (sys_sendmmsg root (i32 a0) a1 (u32 a2)));
   (nr.RECVMMSG, may_wait f (sys_recvmmsg root (i32 a0) a1 (u32 a2)));
   (nr.SETSOCKOPT, returns f (do_setsockopt root (i32 a0) (i32 a1) a3 (u32 a4)));
   (nr.GETSOCKOPT, returns f (do_getsockopt root (i32 a0) (i32 a1) (i32 a2) a3 a4));

   (nr.GETRANDOM, returns f (sys_getrandom root counter a0 a1));
   (nr.PRLIMIT64, returns f (sys_prlimit64 root a3));
   (nr.SET_ROBUST_LIST, returns_k f (sys_set_robust_list cpu a0 a1));
   (nr.GET_ROBUST_LIST, returns_k f (sys_get_robust_list cpu root (i32 a0) a1 a2));
   (nr.MEMFD_CREATE, returns f (sys_memfd_create a0 (u32 a1)));

   (nr.RSEQ, returns_k f (sys_rseq cpu a0 a1 a2 a3));
   (nr.CLONE3, returns f (sys_clone3 cpu root trampoline stack_top f a0 a1));
   (nr.PRCTL, returns f (sys_prctl cpu root (i32 a0) a1));
   (nr.UNAME, returns f (sys_uname root a0));
   (nr.GETDENTS64, returns f (sys_getdents64 root (u32 a0) a1 (u32 a2)));
   (nr.READLINKAT, returns f (sys_readlinkat root depth (i32 a0) a1 a2 (u32 a3)));
   (nr.ACCESS, returns f (sys_access cpu depth fuel a0 (u32 a1)));
   (nr.FACCESSAT, returns f (sys_faccessat cpu depth fuel (i32 a0) a1 (u32 a2) (u32 a3)));
   (nr.FACCESSAT2, returns f (sys_faccessat cpu depth fuel (i32 a0) a1 (u32 a2) (u32 a3)));
   (nr.FSTATFS, returns f (sys_statfs root a1));
   (nr.STATFS, returns f (sys_statfs root a1));
   (nr.MREMAP, mmap_call f (λ file_of, sys_mremap cpu root file_of a0 a1 a2 (u32 a3) a4));
   (nr.MADVISE, ret (Some (f, 0)));
   (nr.SIGALTSTACK, returns_sig f (sys_sigaltstack cpu root a0 a1));
   (nr.GETSOCKNAME, returns f (sys_getsockname root (i32 a0) a1 a2));
   (nr.GETPEERNAME, returns f (sys_getpeername root (i32 a0) a1 a2));
   (nr.SHMGET, returns_k f (sys_shmget hhdm shm_buf (i32 a0) a1 (i32 a2)));
   (nr.SHMAT, returns_k f (sys_shmat cpu root hhdm (i32 a0) a1 (i32 a2)));
   (nr.SHMCTL, returns_k f (sys_shmctl root (i32 a0) (i32 a1) a2));
   (nr.SHMDT, returns_k f (sys_shmdt cpu root a0))].

(** The first entry with the number, as in a [match]. *)
Fixpoint find_call (n : Z) (l : list (Z * Call)) : Call :=
  match l with
  | [] => fail ENOSYS
  | (k, c) :: l' => if k =? n then c else find_call n l'
  end.
Definition run_call (f : F) : Call := find_call (Frame.reg f 8) (calls f (Frame.reg f)).

(** The trace of a call on the serial port. *)
Definition trace_entry (n : Z) : list Z := [91; 48 + (n / 100) mod 10; 48 + (n / 10) mod 10; 48 + n mod 10].

Definition encode (r : Z + Z) : Z := match r with inl v => v | inr e => (- e) mod 2 ^ 64 end.

Definition finish (f : F) (r : Z + Z) : M St (option F) :=
  let! p := kernel (on_sig (dispatch_pending cpu (Frame.set_reg 0 (encode r) f))) in
  if from_option switches false p.2 then ret None else
  hardware (write_byte 93) ;;; ret (Some p.1).

Definition handle (f : F) : M St (option F) :=
  modify (λ s, set_sc ((SC s + 1) mod 2 ^ 32) s) ;;;
  hardware (for_each (trace_entry (Frame.reg f 8)) write_byte) ;;;
  let! r := try (run_call f) in
  match r with
  | inl None => ret None
  | inl (Some (f', v)) => finish f' (inl v)
  | inr e => finish f (inr e)
  end.
End Dispatch.

(** ** The table *)

Section Table.
Context (cpu : nat) (root hhdm counter freq ticks : Z) (depth fuel looks : nat) (ext4 : list Z → option (list Z)).
Context (clock : nat → Z) (between : nat → Os → Os) (others : Futex.Sys → Futex.Sys) (env : list (K → K)).
Context (trampoline stack_top shm_buf : Z) `{RawAccess, Drm, Goblin} {F : Type} `{ContextLaws F}.

Abbreviation table := (calls cpu root hhdm counter freq ticks depth fuel looks ext4 clock between others env trampoline stack_top shm_buf).
Abbreviation run := (run_call cpu root hhdm counter freq ticks depth fuel looks ext4 clock between others env trampoline stack_top shm_buf).
Abbreviation handle_ := (handle cpu root hhdm counter freq ticks depth fuel looks ext4 clock between others env trampoline stack_top shm_buf).

Lemma find_call_in n c l : NoDup l.*1 → (n, c) ∈ l → find_call (F:=F) n l = c.
Proof.
  induction l as [|[k c'] l IH]; cbn; [by intros _ ?%not_elem_of_nil|]. intros [Hk Hl]%NoDup_cons [E|Hin]%elem_of_cons.
  - injection E as <- <-. by rewrite Z.eqb_refl.
  - destruct (Z.eqb_spec k n) as [->|]; [|by apply IH]. exfalso. apply Hk, list_elem_of_fmap. by exists (n, c).
Qed.

Lemma find_call_out n l : n ∉ l.*1 → find_call (F:=F) n l = fail ENOSYS.
Proof.
  induction l as [|[k c'] l IH]; cbn; [done|]. intros [Hk Hl]%not_elem_of_cons. destruct (Z.eqb_spec k n); [done|by apply IH].
Qed.

(** No number is listed twice: every call of the table is the one its number
    reaches. *)
Theorem table_unambiguous f a : NoDup (table f a).*1 ∧ ∀ n c, (n, c) ∈ table f a → find_call n (table f a) = c.
Proof.
  assert (NoDup (table f a).*1) as Hn by (apply (bool_decide_unpack _); vm_compute; exact I).
  split; [exact Hn|]. intros n c Hin. by apply find_call_in.
Qed.

(** A call that leaves the frame as it found it. *)
Definition keeps_frame (f : F) (c : Call (F:=F)) : Prop := ∀ s f' v s', c s = (Ok (Some (f', v)), s') → f' = f.

Lemma keeps_returns f m : keeps_frame f (returns f m).
Proof. intros s f' v s'. unfold returns, bind. rewrite kernel_spec. by destruct (m (os s)).1; cbn; intros [= <-]. Qed.
Lemma keeps_may_wait f m : keeps_frame f (may_wait f m).
Proof. intros s f' v s'. unfold may_wait, bind. rewrite kernel_spec. by destruct (m (os s)).1 as [[]| |]; cbn; intros [= <-]. Qed.
Lemma keeps_never f m : keeps_frame f (never m).
Proof. intros s f' v s'. unfold never, bind. rewrite kernel_spec. by destruct (on_k m (os s)).1. Qed.
Lemma keeps_yields f m : keeps_frame f (yields f m).
Proof. intros s f' v s'. unfold yields, bind. rewrite kernel_spec. destruct (on_k m (os s)).1 as [w| |]; cbn; [|done..]. by case_match; intros [= <-]. Qed.
Lemma keeps_mmap f m : keeps_frame f (mmap_call f m).
Proof. intros s f' v s'. unfold mmap_call. kstep. apply keeps_returns. Qed.
Lemma keeps_constant f v : keeps_frame f (ret (Some (f, v))).
Proof. intros s f' v' s'. by intros [= <-]. Qed.
Lemma keeps_futex f m : keeps_frame f (let! v := futex m in ret (Some (f, v))).
Proof. intros s f' v s'. unfold bind. by destruct (futex m s) as [[] ?]; intros [= <-]. Qed.

Lemma table_keeps_frame f a : Forall (λ e, e.1 ≠ nr.EXECVE → e.1 ≠ nr.RT_SIGRETURN → keeps_frame f e.2) (table f a).
Proof.
  unfold calls. cbv zeta. repeat (apply Forall_cons; split; [cbn [fst snd]; intros He Hs;
    first [by destruct (He eq_refl)|by destruct (Hs eq_refl)|apply keeps_returns|apply keeps_may_wait|apply keeps_yields|apply keeps_never|apply keeps_mmap|apply keeps_futex|apply keeps_constant]|]).
  by apply Forall_nil.
Qed.

Lemma run_keeps_frame f : Frame.reg f 8 ≠ nr.EXECVE → Frame.reg f 8 ≠ nr.RT_SIGRETURN → keeps_frame f (run f).
Proof.
  intros He Hs. unfold run_call. pose proof (table_keeps_frame f (Frame.reg f)) as Ht.
  induction Ht as [|[k c] l Hc _ IH]; [done|]. cbn [find_call]. cbn [fst snd] in Hc. destruct (Z.eqb_spec k (Frame.reg f 8)) as [->|]; [by apply Hc|exact IH].
Qed.

(** Bytes on the serial line. *)
Definition sent (l : list Z) (h : Hw) : Hw := set_fifos (Gic.rx h) (Gic.tx h ++ l) h.

(** The state in which the call runs: counted and traced. *)
Definition entered (f : F) (s : St) : St :=
  set_hw (sent (trace_entry (Frame.reg f 8)) (hw s)) (set_sc ((SC s + 1) mod 2 ^ 32) s).

(** No signal interrupts the return of the calling process. *)
Definition quiet (s : St) : Prop :=
  let g := sig (os s) in let pid := cur_pid cpu g in
  words_ok g pid ∧ (pid ∈ IN_SIGNAL_HANDLER g ∨ ∀ n, ¬ deliverable g pid n).

(** How a call that is over leaves the frame: nothing but [x0] has changed. *)
Definition resumed (f f' : F) (v : Z) : Prop :=
  Frame.reg f' 0 = v ∧ (∀ i, (0 < i)%nat → Frame.reg f' i = Frame.reg f i) ∧ pc f' = pc f ∧ sp f' = sp f.

Lemma set_reg_resumed f v : ctx_ok f → resumed f (Frame.set_reg 0 v f) v.
Proof.
  intros Hf. unfold resumed. rewrite pc_set_reg, sp_set_reg. split; [by rewrite reg_set_reg by (unfold NREGS; auto; lia)|].
  split; [|done]. intros i Hi. rewrite reg_set_reg by (unfold NREGS; auto; lia). by rewrite decide_False by lia.
Qed.

Lemma enter_spec f s : handle_ f s =
  (let! r := try (run f) in
   match r with inl None => ret None | inl (Some (f', v)) => finish cpu f' (inl v) | inr e => finish cpu f (inr e) end) (entered f s).
Proof.
  unfold handle. kstep. rewrite (hardware_then _ _ _ (sent (trace_entry (Frame.reg f 8)) (hw s))); [done|].
  apply (early_print_spec (trace_entry (Frame.reg f 8))).
Qed.

Lemma finish_quiet f r s : quiet s →
  finish cpu f r s = (Ok (Some (Frame.set_reg 0 (encode r) f)), set_hw (sent [93] (hw s)) s).
Proof.
  intros [Hw Hn]. unfold finish.
  rewrite (bind_ok _ _ _ (Frame.set_reg 0 (encode r) f, None) s); [done|].
  rewrite kernel_spec. unfold on_sig. rewrite dispatch_nothing by done. cbn [fst snd]. by destruct s as [? []].
Qed.

(** What the call gives back, and what the user program then sees in [x0]. *)
Definition x0_after (r : outcome (option (F * Z))) : option Z :=
  match r with Ok (Some (_, v)) => Some (encode (inl v)) | Err e => Some (encode (inr e)) | _ => None end.

Lemma handle_returns f s r s1 v : run f (entered f s) = (r, s1) → x0_after r = Some v → quiet s1 →
  (∀ f' w, r = Ok (Some (f', w)) → f' = f) →
  handle_ f s = (Ok (Some (Frame.set_reg 0 v f)), set_hw (sent [93] (hw s1)) s1).
Proof.
  intros E Ho Hq Hf. rewrite enter_spec. unfold bind, try. rewrite E.
  destruct r as [[[f' w]|]| |]; cbn in Ho; [|done| |done]; injection Ho as <-; [rewrite (Hf f' w) by done|]; by apply finish_quiet.
Qed.


(** A number outside the table gives [-ENOSYS] in [x0] and changes nothing but
    the call counter and the serial line. *)
Theorem unknown_syscall f s : ctx_ok f → Frame.reg f 8 ∉ (table f (Frame.reg f)).*1 → quiet s →
  ∃ f' s', handle_ f s = (Ok (Some f'), s') ∧ resumed f f' (2 ^ 64 - 38) ∧ os s' = os s ∧
    SC s' = (SC s + 1) mod 2 ^ 32 ∧ FUTEXES s' = FUTEXES s ∧
    Gic.tx (hw s') = Gic.tx (hw s) ++ trace_entry (Frame.reg f 8) ++ [93].
Proof.
  intros Hf Hn Hq. exists (Frame.set_reg 0 (2 ^ 64 - 38) f). eexists. split; [|split; [by apply set_reg_resumed|]].
  - eapply (handle_returns f s (Err ENOSYS) (entered f s)); [|reflexivity|exact Hq|done]. unfold run_call. by rewrite find_call_out.
  - do 3 (split; [done|]). cbn. by rewrite <- app_assoc.
Qed.
End Table.

(** ** Witnesses *)

Definition demo_frame_nr (n : Z) : AArch64.TrapFrame := Frame.set_reg 8 n Exec.demo_frame.

Abbreviation demo_run := (run_call (H:=plain_access) (H0:=idle_drm) 0 4096 0 0 62500000 0 10 10 10 (λ _, None) (λ _, 0) (λ _ s, s) id [] 0 0 0).
Abbreviation demo_handle := (handle (H:=plain_access) (H0:=idle_drm) 0 4096 0 0 62500000 0 10 10 10 (λ _, None) (λ _, 0) (λ _ s, s) id [] 0 0 0).

Lemma demo_quiet : quiet 0 demo_tick_st.
Proof.
  split; [split; unfold u64_ok; vm_compute; intuition discriminate|]. right. intros n (Hn & Hp & _). revert Hp.
  change (pending_of _ _) with 0. by rewrite Z.bits_0.
Qed.


Lemma unknown_syscall_witness : ∃ f' s', demo_handle (demo_frame_nr 1000) demo_tick_st = (Ok (Some f'), s') ∧
  resumed (demo_frame_nr 1000) f' (2 ^ 64 - 38).
Proof.
  destruct (unknown_syscall (H:=plain_access) (H0:=idle_drm) 0 4096 0 0 62500000 0 10 10 10 (λ _, None) (λ _, 0) (λ _ s, s) id [] 0 0 0
    (demo_frame_nr 1000) demo_tick_st) as (f' & s' & E & Hr & _);
    [reflexivity|apply (bool_decide_unpack _); vm_compute; exact I|apply demo_quiet|by exists f', s'].
Defined.
