(* ===== verification/Pci.v ===== *)
(** * PCI configuration space ([drivers/pci.rs])

    Configuration space is memory-mapped: a read of 32 bits at an address is the
    function [mmio], as configuration registers do not change while the bus is
    enumerated.  [PCI_ECAM_BASE] is that of AArch64; x86-64 has none, and its
    enumeration is empty. *)

From S2P Require Import Prelude.

Record PciDevice := mkPci {
  bus : Z; dev : Z; func : Z; vendor_id : Z; device_id : Z; class : Z; subclass : Z; header_type : Z }.

Definition MAX_BUS : Z := 1.
Definition MAX_DEV : Z := 32.
Definition MAX_FUNC : Z := 8.
Definition PCI_ECAM_BASE : Z := 0x401000000000.

Section Enumeration.
Context (mmio : Z → Z).

Definition ecam_addr (base_virt b d f offset : Z) : Z :=
  Z.lor (Z.lor (Z.lor (Z.lor base_virt (Z.shiftl b 20)) (Z.shiftl d 15)) (Z.shiftl f 12)) (Z.land offset 0xFFC).
Definition ecam_read32 (base_virt b d f offset : Z) : Z := mmio (ecam_addr base_virt b d f offset).

Definition vendor_at (base b d f : Z) : Z := Z.land (ecam_read32 base b d f 0) 0xFFFF.
Definition header_at (base b d f : Z) : Z := Z.land (Z.shiftr (ecam_read32 base b d f 0x0C) 16) 0xFF.

(** The descriptor pushed for a function. *)
Definition describe (base b d f : Z) : PciDevice :=
  let id := ecam_read32 base b d f 0 in
  let class_dword := ecam_read32 base b d f 0x08 in
  mkPci b d f (vendor_at base b d f) (Z.shiftr id 16) (Z.land (Z.shiftr class_dword 24) 0xFF)
    (Z.land (Z.shiftr class_dword 16) 0xFF) (header_at base b d f).

(** The loop over functions, with its two early ends. *)
Fixpoint scan_funcs (base b d : Z) (l : list Z) : list PciDevice :=
  match l with
  | [] => []
  | f :: l' =>
      if vendor_at base b d f =? 0xFFFF then if f =? 0 then [] else scan_funcs base b d l'
      else describe base b d f ::
           (if (f =? 0) && (Z.land (header_at base b d f) 0x80 =? 0) then [] else scan_funcs base b d l')
  end.

Definition scan_bus (base b : Z) : list PciDevice := concat ((λ d, scan_funcs base b d (seqZ 0 MAX_FUNC)) <$> seqZ 0 MAX_DEV).

(** [None] is the overflow of the base address. *)
Definition enumerate (ecam_base hhdm : Z) : option (list PciDevice) :=
  if ecam_base =? 0 then Some [] else
  ecam_virt ← add64 ecam_base hhdm;
  Some (concat (scan_bus ecam_virt <$> seqZ 0 MAX_BUS)).

(** ** What enumeration finds *)

Definition present (base b d f : Z) : Prop := vendor_at base b d f ≠ 0xFFFF.
Definition multifunction (base b d : Z) : Prop := Z.land (header_at base b d 0) 0x80 ≠ 0.

(** The functions a scan has to report: function 0, and the others of a device
    whose function 0 exists and announces them. *)
Definition reported (base b d f : Z) : Prop := present base b d f ∧ (f = 0 ∨ present base b d 0 ∧ multifunction base b d).

Lemma scan_later base b d l : Forall (λ f, 0 < f) l → scan_funcs base b d l = describe base b d <$> filter (present base b d) l.
Proof.
  induction 1 as [|f l Hf Hl IH]; [done|]. cbn [scan_funcs]. rewrite filter_cons. unfold present at 1.
  destruct (Z.eqb_spec (vendor_at base b d f) 0xFFFF) as [E|E]; rewrite (proj2 (Z.eqb_neq f 0)) by lia.
  - rewrite decide_False by (intros H; contradiction). exact IH.
  - rewrite decide_True by done. cbn. by rewrite IH.
Qed.

Lemma elem_scan_funcs base b d x : x ∈ scan_funcs base b d (seqZ 0 MAX_FUNC) ↔ ∃ f, 0 ≤ f < MAX_FUNC ∧ reported base b d f ∧ x = describe base b d f.
Proof.
  change (seqZ 0 MAX_FUNC) with (0 :: seqZ 1 7). cbn [scan_funcs]. rewrite Z.eqb_refl. cbn [andb].
  assert (scan_funcs base b d (seqZ 1 7) = describe base b d <$> filter (present base b d) (seqZ 1 7)) as ->.
  { apply scan_later, Forall_forall. intros f ?%elem_of_seqZ. lia. }
  assert (∀ f, f ∈ filter (present base b d) (seqZ 1 7) ↔ present base b d f ∧ 1 ≤ f < 8) as Hin
    by (intros f; rewrite list_elem_of_filter, elem_of_seqZ; lia || naive_solver lia).
  unfold MAX_FUNC, reported, multifunction. destruct (Z.eqb_spec (vendor_at base b d 0) 0xFFFF) as [E|E].
  - split; [by intros ?%elem_of_nil|]. intros (f & Hf & [Hp Hr] & ->). exfalso. unfold present in *. destruct Hr as [->|[? _]]; done.
  - rewrite elem_of_cons. destruct (Z.eqb_spec (Z.land (header_at base b d 0) 0x80) 0) as [Hm|Hm].
    + split; [intros [->|[]%elem_of_nil]; exists 0; repeat split; (lia || done || by left)|].
      intros (f & Hf & [Hp [->|[_ ?]]] & ->); [by left|done].
    + rewrite list_elem_of_fmap. split.
      * intros [->|(f & -> & [Hp Hf]%Hin)]; [exists 0; repeat split; (lia || done || by left)|exists f; repeat split; [lia..|done|by right]].
      * intros (f & Hf & [Hp _] & ->). destruct (decide (f = 0)) as [->|]; [by left|right]. exists f. split; [done|]. apply Hin. split; [done|lia].
Qed.
End Enumeration.

(** Enumeration finds every function there is to find: with a base address that
    does not overflow, the list holds exactly the functions of bus 0 that answer,
    those beside function 0 only for devices that announce several, each described
    by its own registers. *)
Theorem enumerate_exact mmio hhdm : PCI_ECAM_BASE + hhdm < 2 ^ 64 →
  ∃ l, enumerate mmio PCI_ECAM_BASE hhdm = Some l ∧
    (∀ x, x ∈ l ↔ ∃ d f, 0 ≤ d < MAX_DEV ∧ 0 ≤ f < MAX_FUNC ∧ reported mmio (PCI_ECAM_BASE + hhdm) 0 d f ∧
                     x = describe mmio (PCI_ECAM_BASE + hhdm) 0 d f).
Proof.
  intros Hb. eexists. unfold enumerate. cbn [Z.eqb PCI_ECAM_BASE]. rewrite add64_small by done. split; [reflexivity|].
  intros x. change (seqZ 0 MAX_BUS) with [0]. cbn [concat fmap list_fmap]. rewrite app_nil_r. unfold scan_bus.
  rewrite list_elem_of_In, in_concat. setoid_rewrite <- list_elem_of_In. split.
  - intros (l & (d & -> & Hd%elem_of_seqZ)%list_elem_of_fmap & (f & Hf & Hr & ->)%elem_scan_funcs). exists d, f. done.
  - intros (d & f & Hd & Hf & Hr & ->). eexists. split; [apply list_elem_of_fmap; exists d; split; [done|by apply elem_of_seqZ]|].
    apply elem_scan_funcs. by exists f.
Qed.

(** A device with two functions in slot 3 and a stray function in slot 5. *)
Definition demo_cfg (a : Z) : Z :=
  let r := a - (PCI_ECAM_BASE + 0xFFFF000000000000) in
  if r =? 3 * 2 ^ 15 then 0x10001AF4 else if r =? 3 * 2 ^ 15 + 0x08 then 0x02000000 else if r =? 3 * 2 ^ 15 + 0x0C then 0x00800000
  else if r =? 3 * 2 ^ 15 + 2 ^ 12 then 0x10011AF4 else if r =? 3 * 2 ^ 15 + 2 ^ 12 + 0x08 then 0x01000000
  else if r =? 5 * 2 ^ 15 + 2 ^ 12 then 0x12345678 else 0xFFFFFFFF.

Lemma enumerate_exact_witness : ∃ l, enumerate demo_cfg PCI_ECAM_BASE 0xFFFF000000000000 = Some l ∧
  mkPci 0 3 1 0x1AF4 0x1001 1 0 0xFF ∈ l ∧ ¬ mkPci 0 5 1 0x5678 0x1234 0xFF 0xFF 0xFF ∈ l.
Proof.
  destruct (enumerate_exact demo_cfg 0xFFFF000000000000) as (l & E & Hl); [reflexivity|]. exists l. split; [exact E|]. split.
  - apply Hl. exists 3, 1. unfold MAX_DEV, MAX_FUNC. split; [lia|]. split; [lia|]. split; [|vm_compute; reflexivity].
    split; [vm_compute; congruence|right]. split; vm_compute; congruence.
  - rewrite Hl. intros (d & f & _ & _ & Hr & Eq). injection Eq as Ed Ef _ _ _ _ _. subst d f.
    destruct Hr as [_ [Hf|[Hp _]]]; [discriminate|]. apply Hp. vm_compute. reflexivity.
Defined.

(** ** Addresses *)

Lemma lor_fields a b n : 0 ≤ n → a mod 2 ^ n = 0 → 0 ≤ b < 2 ^ n → Z.lor a b = a + b.
Proof.
  intros Hn Ha Hb. rewrite <- Z.lxor_lor, Z.add_nocarry_lxor; [done|..];
    (apply Z.bits_inj_iff'; intros i Hi; rewrite Z.land_spec, Z.bits_0; destruct (decide (i < n));
     [rewrite <- (Z.mod_pow2_bits_low a n i), Ha, Z.bits_0 by lia; done|
      rewrite <- (Z.mod_small b (2 ^ n)), Z.mod_pow2_bits_high by lia; apply andb_false_r]).
Qed.

(** A register's address: with a base on a 256 MiB boundary, the address of a
    register is the base plus the offsets of its bus, device, function and register,
    so no two functions share a register and none lies outside the window. *)
Theorem ecam_window base b d f off : base mod 2 ^ 28 = 0 → 0 ≤ b < 256 → 0 ≤ d < MAX_DEV → 0 ≤ f < MAX_FUNC → 0 ≤ off < 4096 → off mod 4 = 0 →
  ecam_addr base b d f off = base + b * 2 ^ 20 + d * 2 ^ 15 + f * 2 ^ 12 + off ∧ base ≤ ecam_addr base b d f off < base + 2 ^ 28.
Proof.
  unfold MAX_DEV, MAX_FUNC. intros Hbase Hb Hd Hf Ho Ho4.
  assert (ecam_addr base b d f off = base + b * 2 ^ 20 + d * 2 ^ 15 + f * 2 ^ 12 + off) as E; [|rewrite E; lia].
  unfold ecam_addr. assert (Z.land off 0xFFC = off) as ->.
  { replace off with (off / 4 * 2 ^ 2) at 1 by lia. change 0xFFC with (Z.ones 10 * 2 ^ 2).
    rewrite <- !Z.shiftl_mul_pow2, <- Z.shiftl_land, Z.land_ones, Z.mod_small, Z.shiftl_mul_pow2 by lia. lia. }
  rewrite !Z.shiftl_mul_pow2 by lia.
  rewrite (lor_fields base (b * 2 ^ 20) 28), (lor_fields _ (d * 2 ^ 15) 20), (lor_fields _ (f * 2 ^ 12) 15), (lor_fields _ off 12) by lia. done.
Qed.

Lemma ecam_window_witness : ecam_addr (PCI_ECAM_BASE + 0xFFFF000000000000) 0 31 7 0xFFC = PCI_ECAM_BASE + 0xFFFF000000000000 + 0xFFFFC.
Proof. destruct (ecam_window (PCI_ECAM_BASE + 0xFFFF000000000000) 0 31 7 0xFFC) as [E _]; [reflexivity|lia|unfold MAX_DEV; lia|unfold MAX_FUNC; lia|lia|reflexivity|exact E]. Defined.
