(* ===== verification/Block.v ===== *)
(** * Block device driver ([drivers/virtio/mmio.rs], [drivers/virtio/block.rs])

    The driver talks to the device through its registers and through descriptors
    and rings in physical memory.  The device is the interface [MmioDevice]: a
    state, the effect of a register access, and what the device does between two
    looks of the driver at memory.  [VirtioBlk] states what the VirtIO
    specification (sections 2.7 and 5.2) promises of a block device; the driver is
    verified against it.

    Kernel addresses are the physical address plus the direct-map offset; accesses
    are written at the physical address.  Fences order the accesses the way they
    are listed.  The last section gives the driver as a [BlockDevice], the
    interface the file system uses. *)

From S2P Require Import Prelude.
From S2P Require Import Pmm.
From S2P Require Import Paging.

(** The machine and the devices on its bus. *)
Record Board (D : Type) := mkBoard { bmach : Mach; bdev : D }.
Arguments mkBoard {D} _ _.
Arguments bmach {D} _.
Arguments bdev {D} _.

Class MmioDevice (D : Type) := {
  mmio_read8 : Z → M (Board D) Z;
  mmio_read32 : Z → M (Board D) Z;
  mmio_read64 : Z → M (Board D) Z;
  mmio_write32 : Z → Z → M (Board D) ();
  device_runs : Board D → Board D }.

(** ** The register window *)

Definition MAGIC : Z := 0x000.
Definition VERSION : Z := 0x004.
Definition DEVICE_ID : Z := 0x008.
Definition VENDOR_ID : Z := 0x00C.
Definition DEVICE_FEATURES : Z := 0x010.
Definition DEVICE_FEATURES_SEL : Z := 0x014.
Definition DRIVER_FEATURES : Z := 0x020.
Definition DRIVER_FEATURES_SEL : Z := 0x024.
Definition QUEUE_SEL : Z := 0x030.
Definition QUEUE_NUM_MAX : Z := 0x034.
Definition QUEUE_NUM : Z := 0x038.
Definition QUEUE_ALIGN : Z := 0x03C.
Definition QUEUE_PFN : Z := 0x040.
Definition QUEUE_READY : Z := 0x044.
Definition QUEUE_NOTIFY : Z := 0x050.
Definition INTERRUPT_STATUS : Z := 0x060.
Definition INTERRUPT_ACK : Z := 0x064.
Definition STATUS : Z := 0x070.
Definition QUEUE_DESC_LOW : Z := 0x080.
Definition QUEUE_DESC_HIGH : Z := 0x084.
Definition QUEUE_DRIVER_LOW : Z := 0x090.
Definition QUEUE_DRIVER_HIGH : Z := 0x094.
Definition QUEUE_DEVICE_LOW : Z := 0x0A0.
Definition QUEUE_DEVICE_HIGH : Z := 0x0A4.
Definition CONFIG : Z := 0x100.

Definition STATUS_ACK : Z := 1.
Definition STATUS_DRIVER : Z := 2.
Definition STATUS_FEATURES_OK : Z := 8.
Definition STATUS_DRIVER_OK : Z := 4.
Definition STATUS_FAILED : Z := 128.
Definition VIRTIO_MAGIC : Z := 0x74726976.

Record VirtioMmio := mkMmio { mbase : Z; version : Z }.

Section Mmio.
Context {D : Type} `{MmioDevice D}.
Local Abbreviation MB := (M (Board D)).

Definition read32 (m : VirtioMmio) (off : Z) : MB Z := mmio_read32 (mbase m + off).
Definition write32 (m : VirtioMmio) (off v : Z) : MB () := mmio_write32 (mbase m + off) v.

Definition mmio_new (base : Z) : MB (option VirtioMmio) :=
  let dev := mkMmio base 0 in
  let! magic := read32 dev MAGIC in
  if negb (magic =? VIRTIO_MAGIC) then ret None else
  let! v := read32 dev VERSION in
  if negb (v =? 1) && negb (v =? 2) then ret None else ret (Some (mkMmio base v)).

Definition device_id (m : VirtioMmio) : MB Z := read32 m DEVICE_ID.
Definition vendor_id (m : VirtioMmio) : MB Z := read32 m VENDOR_ID.

Definition mmio_init (m : VirtioMmio) : MB bool :=
  write32 m STATUS 0 ;;;
  write32 m STATUS STATUS_ACK ;;;
  write32 m STATUS (Z.lor STATUS_ACK STATUS_DRIVER) ;;;
  write32 m DEVICE_FEATURES_SEL 0 ;;;
  read32 m DEVICE_FEATURES ;;;
  write32 m DRIVER_FEATURES_SEL 0 ;;;
  write32 m DRIVER_FEATURES 0 ;;;
  write32 m STATUS (Z.lor (Z.lor STATUS_ACK STATUS_DRIVER) STATUS_FEATURES_OK) ;;;
  let! status := read32 m STATUS in
  if Z.land status STATUS_FEATURES_OK =? 0 then write32 m STATUS STATUS_FAILED ;;; ret false else ret true.

Definition setup_queue (m : VirtioMmio) (queue_idx queue_size desc_phys avail_phys used_phys : Z) : MB () :=
  write32 m QUEUE_SEL queue_idx ;;;
  write32 m QUEUE_NUM queue_size ;;;
  if version m =? 1 then
    write32 m QUEUE_ALIGN 4096 ;;;
    write32 m QUEUE_PFN (desc_phys / 4096 mod 2 ^ 32)
  else
    write32 m QUEUE_DESC_LOW (desc_phys mod 2 ^ 32) ;;;
    write32 m QUEUE_DESC_HIGH (Z.shiftr desc_phys 32) ;;;
    write32 m QUEUE_DRIVER_LOW (avail_phys mod 2 ^ 32) ;;;
    write32 m QUEUE_DRIVER_HIGH (Z.shiftr avail_phys 32) ;;;
    write32 m QUEUE_DEVICE_LOW (used_phys mod 2 ^ 32) ;;;
    write32 m QUEUE_DEVICE_HIGH (Z.shiftr used_phys 32) ;;;
    write32 m QUEUE_READY 1.

Definition is_legacy (m : VirtioMmio) : bool := version m =? 1.
Definition queue_max_size (m : VirtioMmio) (queue_idx : Z) : MB Z := write32 m QUEUE_SEL queue_idx ;;; read32 m QUEUE_NUM_MAX.
Definition notify (m : VirtioMmio) (queue_idx : Z) : MB () := write32 m QUEUE_NOTIFY queue_idx.
Definition driver_ok (m : VirtioMmio) : MB () := let! status := read32 m STATUS in write32 m STATUS (Z.lor status STATUS_DRIVER_OK).
Definition ack_interrupt (m : VirtioMmio) : MB () := let! status := read32 m INTERRUPT_STATUS in write32 m INTERRUPT_ACK status.
Definition read_config8 (m : VirtioMmio) (off : Z) : MB Z := mmio_read8 (mbase m + CONFIG + off).
Definition read_config64 (m : VirtioMmio) (off : Z) : MB Z := mmio_read64 (mbase m + CONFIG + off).
End Mmio.

(** ** The driver *)

Definition SECTOR_SIZE : Z := 512.
Definition QUEUE_SIZE : Z := 16.
Definition VIRTIO_BLK_T_IN : Z := 0.
Definition VIRTIO_BLK_T_OUT : Z := 1.
Definition VRING_DESC_F_NEXT : Z := 1.
Definition VRING_DESC_F_WRITE : Z := 2.
Definition POLL_LIMIT : Z := 10000000.

(** The error strings. *)
Definition E_NO_DEVICE : Z := 1001.
Definition E_TIMEOUT : Z := 1002.
Definition E_READ : Z := 1003.
Definition E_WRITE : Z := 1004.

Record VirtioBlock := mkBlock {
  mmio : VirtioMmio; capacity : Z; desc_ptr : Z; avail_ptr : Z; used_ptr : Z;
  req_header : Z; data_buf : Z; status_ptr : Z; last_used_idx : Z }.

Definition set_last (x : Z) (v : VirtioBlock) : VirtioBlock :=
  mkBlock (mmio v) (capacity v) (desc_ptr v) (avail_ptr v) (used_ptr v) (req_header v) (data_buf v) (status_ptr v) x.

Record Blk (D : Type) := mkBlk { board : Board D; BLOCK_DEV : option VirtioBlock }.
Arguments mkBlk {D} _ _.
Arguments board {D} _.
Arguments BLOCK_DEV {D} _.

(** Structures in memory. *)
Definition header_bytes (typ sector : Z) : list Z := to_le 4 typ ++ to_le 4 0 ++ to_le 8 sector.
Definition desc_bytes (addr len flags next : Z) : list Z := to_le 8 addr ++ to_le 4 len ++ to_le 2 flags ++ to_le 2 next.

Section Driver.
Context {D : Type} `{MmioDevice D} (hhdm : Z).
Local Abbreviation MB := (M (Board D)).
Local Abbreviation MK := (M (Blk D)).

Definition on_board {A} (m : MB A) : MK A := λ s, let '(r, b) := m (board s) in (r, mkBlk b (BLOCK_DEV s)).
Definition on_bmach {A} (m : M Mach A) : MB A := λ b, let '(r, x) := m (bmach b) in (r, mkBoard x (bdev b)).
Definition poke (addr : Z) (data : list Z) : MB () := on_bmach (modify (λ s, set_mem (wr_bytes (mem s) addr data) s)).
Definition peek (addr : Z) (n : nat) : MB (list Z) := on_bmach (gets (λ s, rd_bytes (mem s) addr n)).

(** [alloc_page().unwrap()], then the page is cleared. *)
Definition zeroed_page : MB Z :=
  let! o := on_bmach (lift_pmm Pmm.alloc_page) in
  let! p := or_panic o in
  on_bmach (write_zero_page p) ;;; ret p.

Definition init_block_device (m : VirtioMmio) : MK () :=
  let! ok := on_board (mmio_init m) in
  if negb ok then ret tt else
  let! cap := on_board (read_config64 m 0) in
  let! o := on_board (on_bmach (lift_pmm Pmm.alloc_page)) in
  let! queue_phys := or_panic o in
  let! o := on_board (on_bmach (lift_pmm Pmm.alloc_page)) in
  let! queue_phys2 := or_panic o in
  on_board (on_bmach (write_zero_page queue_phys)) ;;;
  on_board (on_bmach (write_zero_page queue_phys2)) ;;;
  let avail_phys := queue_phys + 16 * QUEUE_SIZE in
  on_board (setup_queue m 0 QUEUE_SIZE queue_phys avail_phys queue_phys2) ;;;
  let! req := on_board zeroed_page in
  let! data := on_board zeroed_page in
  on_board (driver_ok m) ;;;
  modify (λ s, mkBlk (board s) (Some (mkBlock m cap queue_phys avail_phys queue_phys2 req data (req + 16) 0))).

Definition VIRTIO_MMIO_BASE : Z := 0x0a000000.
Definition VIRTIO_MMIO_STRIDE : Z := 0x200.

Fixpoint probe_slots (l : list Z) : MK () :=
  match l with
  | [] => ret tt
  | i :: l' =>
      let base := VIRTIO_MMIO_BASE + i * VIRTIO_MMIO_STRIDE + hhdm in
      let! o := on_board (mmio_new base) in
      match o with
      | None => probe_slots l'
      | Some m =>
          let! i := on_board (device_id m) in
          if i =? 0 then probe_slots l' else if i =? 2 then init_block_device m else probe_slots l'
      end
  end.

Definition probe : MK () := probe_slots (seqZ 0 32).

(** The descriptor chain header, data, status; its entry in the available ring;
    the doorbell. *)
Definition submit (v : VirtioBlock) (typ sector data_flags : Z) : MB () :=
  poke (req_header v) (header_bytes typ sector) ;;;
  poke (status_ptr v) [0xFF] ;;;
  poke (desc_ptr v) (desc_bytes (req_header v) 16 VRING_DESC_F_NEXT 1) ;;;
  poke (desc_ptr v + 16) (desc_bytes (data_buf v) SECTOR_SIZE data_flags 2) ;;;
  poke (desc_ptr v + 32) (desc_bytes (status_ptr v) 1 VRING_DESC_F_WRITE 0) ;;;
  let! i := peek (avail_ptr v + 2) 2 in
  let idx := from_le i in
  poke (avail_ptr v + 4 + 2 * (idx mod QUEUE_SIZE)) (to_le 2 0) ;;;
  poke (avail_ptr v + 2) (to_le 2 ((idx + 1) mod 2 ^ 16)) ;;;
  notify (mmio v) 0.

(** Looking at the used ring, at most [polls] times. *)
Fixpoint poll_used (polls : nat) (v : VirtioBlock) : MB bool :=
  match polls with
  | O => ret false
  | S p =>
      let! i := peek (used_ptr v + 2) 2 in
      if negb (from_le i =? last_used_idx v) then ret true else modify device_runs ;;; poll_used p v
  end.

(** The completion is consumed; the status the device wrote. *)
Definition complete (v : VirtioBlock) : MK Z :=
  modify (λ s, mkBlk (board s) (Some (set_last ((last_used_idx v + 1) mod 2 ^ 16) v))) ;;;
  on_board (ack_interrupt (mmio v)) ;;;
  let! st := on_board (peek (status_ptr v) 1) in ret (from_le st).

Definition the_device : MK VirtioBlock := let! o := gets BLOCK_DEV in ok_or o E_NO_DEVICE.

(** [buf] is the caller's buffer, [offset] bytes of it are filled. *)
Fixpoint read_loop (l : list Z) (start : Z) (buf : list Z) (offset : nat) : MK (list Z) :=
  match l with
  | [] => ret buf
  | i :: l' =>
      let! v := the_device in
      let! sector := or_panic (add64 start i) in
      on_board (submit v VIRTIO_BLK_T_IN sector (Z.lor VRING_DESC_F_WRITE VRING_DESC_F_NEXT)) ;;;
      let! ok := on_board (poll_used (Z.to_nat (POLL_LIMIT + 1)) v) in
      if negb ok then fail E_TIMEOUT else
      let! status := complete v in
      if negb (status =? 0) then fail E_READ else
      let copy_len := Nat.min 512 (length buf - offset) in
      let! bytes := on_board (peek (data_buf v) copy_len) in
      read_loop l' start (take offset buf ++ bytes ++ drop (offset + copy_len) buf) (offset + copy_len)
  end.

Definition read_sectors (start_sector count : Z) (buf : list Z) : MK (list Z) :=
  the_device ;;; read_loop (seqZ 0 count) start_sector buf 0.

(** The wait for a write has no limit: [polls] looks, [None] if the device has not
    answered by then. *)
Fixpoint write_loop (polls : nat) (l : list Z) (start : Z) (data : list Z) : MK (option ()) :=
  match l with
  | [] => ret (Some tt)
  | i :: l' =>
      let! v := the_device in
      let! sector := or_panic (add64 start i) in
      on_board (poke (data_buf v) (take 512 data)) ;;;
      on_board (submit v VIRTIO_BLK_T_OUT sector VRING_DESC_F_NEXT) ;;;
      let! ok := on_board (poll_used polls v) in
      if negb ok then ret None else
      let! status := complete v in
      if negb (status =? 0) then fail E_WRITE else
      write_loop polls l' start (drop 512 data)
  end.

Definition write_sectors (polls : nat) (start_sector count : Z) (data : list Z) : MK (option ()) :=
  the_device ;;; write_loop polls (seqZ 0 count) start_sector data.

Definition capacity_sectors (s : Blk D) : Z := match BLOCK_DEV s with Some v => capacity v | None => 0 end.
End Driver.

(** ** Bytes in memory *)

Lemma length_rd_bytes f a n : length (rd_bytes f a n) = n.
Proof. unfold rd_bytes. rewrite length_fmap, length_seqZ. lia. Qed.

Lemma rd_bytes_lookup f a n i : (i < n)%nat → rd_bytes f a n !! i = Some (f (a + Z.of_nat i)).
Proof. intros Hi. unfold rd_bytes. rewrite list_lookup_fmap, lookup_seqZ_lt by lia. cbn. do 2 f_equal. Qed.

Lemma rd_bytes_ext f g a n : (∀ x, a ≤ x < a + Z.of_nat n → f x = g x) → rd_bytes f a n = rd_bytes g a n.
Proof. intros E. unfold rd_bytes. apply list_fmap_ext. intros i x Hx%lookup_seqZ. apply E. lia. Qed.

Lemma wr_bytes_out f a data x : ¬ (a ≤ x < a + Z.of_nat (length data)) → wr_bytes f a data x = f x.
Proof. intros Hx. unfold wr_bytes. by rewrite bool_decide_eq_false_2. Qed.

Lemma rd_wr_same f a data n : length data = n → rd_bytes (wr_bytes f a data) a n = data.
Proof.
  intros <-. apply list_eq_same_length with (n := length data); [done|by rewrite length_rd_bytes|].
  intros i x y Hi. rewrite rd_bytes_lookup by done. unfold wr_bytes. rewrite bool_decide_eq_true_2 by lia.
  replace (Z.to_nat (a + Z.of_nat i - a)) with i by lia. intros [= <-] Hy. by rewrite Hy.
Qed.

Lemma rd_wr_apart f a data b n : b + Z.of_nat n ≤ a ∨ a + Z.of_nat (length data) ≤ b → rd_bytes (wr_bytes f a data) b n = rd_bytes f b n.
Proof. intros Hd. apply rd_bytes_ext. intros x Hx. apply wr_bytes_out. lia. Qed.

Lemma rd_bytes_split f a n m : rd_bytes f a (n + m) = rd_bytes f a n ++ rd_bytes f (a + Z.of_nat n) m.
Proof.
  unfold rd_bytes. rewrite Nat2Z.inj_add, seqZ_app, fmap_app by lia. f_equal. rewrite Z.add_0_l.
  replace (seqZ (Z.of_nat n) (Z.of_nat m)) with (Z.add (Z.of_nat n) <$> seqZ 0 (Z.of_nat m)) by (by rewrite fmap_add_seqZ, Z.add_0_r).
  rewrite <- list_fmap_compose. apply list_fmap_ext. intros i x _. cbn. f_equal. lia.
Qed.

Lemma take_rd_bytes f a n m : (n ≤ m)%nat → take n (rd_bytes f a m) = rd_bytes f a n.
Proof. intros Hn. replace m with (n + (m - n))%nat by lia. rewrite rd_bytes_split. by rewrite take_app_length' by (by rewrite length_rd_bytes). Qed.

(** ** What a block device promises *)

(** The driver's structures: one page of queue, one for the used ring, one for the
    header and the status byte, one for the data. *)
Record Layout := mkLayout { p_queue : Z; p_used : Z; p_req : Z; p_data : Z }.
Definition l_avail (l : Layout) : Z := p_queue l + 256.
Definition l_status (l : Layout) : Z := p_req l + 16.
Definition pages (l : Layout) : list Z := [p_queue l; p_used l; p_req l; p_data l].
Definition apart (l : Layout) : Prop := NoDup (pages l) ∧ Forall (λ p, p mod 4096 = 0 ∧ 0 ≤ p < 2 ^ 64) (pages l).

Definition used_idx (f : Z → Z) (l : Layout) : Z := from_le (rd_bytes f (p_used l + 2) 2).
Definition avail_idx (f : Z → Z) (l : Layout) : Z := from_le (rd_bytes f (l_avail l + 2) 2).

(** A read request for [sector] is the [n]th entry of the available ring. *)
Record posted (f : Z → Z) (l : Layout) (n sector : Z) : Prop := {
  posted_header : rd_bytes f (p_req l) 16 = header_bytes VIRTIO_BLK_T_IN sector;
  posted_desc0 : rd_bytes f (p_queue l) 16 = desc_bytes (p_req l) 16 VRING_DESC_F_NEXT 1;
  posted_desc1 : rd_bytes f (p_queue l + 16) 16 = desc_bytes (p_data l) SECTOR_SIZE (Z.lor VRING_DESC_F_WRITE VRING_DESC_F_NEXT) 2;
  posted_desc2 : rd_bytes f (p_queue l + 32) 16 = desc_bytes (l_status l) 1 VRING_DESC_F_WRITE 0;
  posted_ring : rd_bytes f (l_avail l + 4 + 2 * (n mod QUEUE_SIZE)) 2 = to_le 2 0;
  posted_idx : avail_idx f l = (n + 1) mod 2 ^ 16 }.

(** The request has been served: the data, a zero status and one more used entry,
    and nothing else in memory but the used ring. *)
Record served (f g : Z → Z) (l : Layout) (bytes : list Z) : Prop := {
  served_data : rd_bytes g (p_data l) 512 = bytes;
  served_status : g (l_status l) = 0;
  served_used : used_idx g l = (used_idx f l + 1) mod 2 ^ 16;
  served_rest : ∀ x, ¬ (p_data l ≤ x < p_data l + 512) → x ≠ l_status l → ¬ (p_used l ≤ x < p_used l + 4096) → g x = f x }.

Definition bram {D} (b : Board D) : Z → Z := mem (bmach b).

(** A device answers within [latency] rounds, in order; register accesses of the
    driver other than the doorbell do not touch memory. *)
Class VirtioBlk (D : Type) `{MmioDevice D} := {
  disk : D → Z → list Z;
  sectors : D → Z;
  window : D → Z;
  queue_of : D → option Layout;
  consumed : D → Z;
  latency : nat;
  latency_bound : Z.of_nat latency ≤ POLL_LIMIT;
  disk_sector d k : length (disk d k) = 512%nat;
  blk_serves b l sector : queue_of (bdev b) = Some l → apart l → 0 ≤ consumed (bdev b) < 2 ^ 16 →
    posted (bram b) l (consumed (bdev b)) sector → 0 ≤ sector < sectors (bdev b) →
    ∃ b0 k, mmio_write32 (window (bdev b) + QUEUE_NOTIFY) 0 b = (Ok tt, b0) ∧ (k ≤ latency)%nat ∧
      (∀ j, (j < k)%nat → used_idx (bram (Nat.iter j device_runs b0)) l = used_idx (bram b) l) ∧
      let b' := Nat.iter k device_runs b0 in
      served (bram b) (bram b') l (disk (bdev b) sector) ∧ mpmm (bmach b') = mpmm (bmach b) ∧
      disk (bdev b') = disk (bdev b) ∧ sectors (bdev b') = sectors (bdev b) ∧ window (bdev b') = window (bdev b) ∧
      queue_of (bdev b') = Some l ∧ consumed (bdev b') = (consumed (bdev b) + 1) mod 2 ^ 16;
  blk_ack b m : mbase m = window (bdev b) → ∃ d, ack_interrupt m b = (Ok tt, mkBoard (bmach b) d) ∧
    disk d = disk (bdev b) ∧ sectors d = sectors (bdev b) ∧ window d = window (bdev b) ∧ queue_of d = queue_of (bdev b) ∧
    consumed d = consumed (bdev b) }.

(** ** Reading *)

Section ReadProof.
Context {D : Type} `{VirtioBlk D}.

Definition layout_of (v : VirtioBlock) : Layout := mkLayout (desc_ptr v) (used_ptr v) (req_header v) (data_buf v).

(** The driver is set up on a device and no request is outstanding. *)
Record blk_ready (s : Blk D) (v : VirtioBlock) : Prop := {
  rd_dev : BLOCK_DEV s = Some v;
  rd_layout : avail_ptr v = l_avail (layout_of v) ∧ status_ptr v = l_status (layout_of v);
  rd_apart : apart (layout_of v);
  rd_queue : queue_of (bdev (board s)) = Some (layout_of v);
  rd_window : mbase (mmio v) = window (bdev (board s));
  rd_avail : avail_idx (bram (board s)) (layout_of v) = consumed (bdev (board s));
  rd_used : used_idx (bram (board s)) (layout_of v) = last_used_idx v;
  rd_idx : 0 ≤ consumed (bdev (board s)) < 2 ^ 16 ∧ 0 ≤ last_used_idx v < 2 ^ 16 }.

(** The stores of [submit], up to the doorbell. *)
Definition posting (l : Layout) (sector n : Z) (f : Z → Z) : Z → Z :=
  let f := wr_bytes f (p_req l) (header_bytes VIRTIO_BLK_T_IN sector) in
  let f := wr_bytes f (l_status l) [0xFF] in
  let f := wr_bytes f (p_queue l) (desc_bytes (p_req l) 16 VRING_DESC_F_NEXT 1) in
  let f := wr_bytes f (p_queue l + 16) (desc_bytes (p_data l) SECTOR_SIZE (Z.lor VRING_DESC_F_WRITE VRING_DESC_F_NEXT) 2) in
  let f := wr_bytes f (p_queue l + 32) (desc_bytes (l_status l) 1 VRING_DESC_F_WRITE 0) in
  let f := wr_bytes f (l_avail l + 4 + 2 * (n mod QUEUE_SIZE)) (to_le 2 0) in
  wr_bytes f (l_avail l + 2) (to_le 2 ((n + 1) mod 2 ^ 16)).

Lemma apart_pages l : apart l → ∃ q u r d, p_queue l = 4096 * q ∧ p_used l = 4096 * u ∧ p_req l = 4096 * r ∧ p_data l = 4096 * d ∧
  0 ≤ q < 2 ^ 52 ∧ 0 ≤ u < 2 ^ 52 ∧ 0 ≤ r < 2 ^ 52 ∧ 0 ≤ d < 2 ^ 52 ∧ q ≠ u ∧ q ≠ r ∧ q ≠ d ∧ u ≠ r ∧ u ≠ d ∧ r ≠ d.
Proof.
  intros [Hn Hp]. unfold pages in *. rewrite !Forall_cons in Hp. destruct Hp as (H1 & H2 & H3 & H4 & _).
  rewrite !NoDup_cons in Hn. destruct Hn as (N1 & N2 & N3 & _).
  rewrite !not_elem_of_cons in N1. rewrite !not_elem_of_cons in N2. rewrite !not_elem_of_cons in N3.
  cbv beta in *. change (2 ^ 64) with (4096 * 2 ^ 52) in *. exists (p_queue l / 4096), (p_used l / 4096), (p_req l / 4096), (p_data l / 4096). lia.
Qed.

Lemma length_desc a n f x : length (desc_bytes a n f x) = 16%nat.
Proof. unfold desc_bytes. by rewrite !length_app, !length_to_le. Qed.
Lemma length_header t x : length (header_bytes t x) = 16%nat.
Proof. unfold header_bytes. by rewrite !length_app, !length_to_le. Qed.

(** Reading back through a series of stores. *)
Ltac read_back :=
  repeat first
    [ rewrite rd_wr_same by (rewrite ?length_desc, ?length_header, ?length_to_le; reflexivity)
    | rewrite rd_wr_apart by (rewrite ?length_desc, ?length_header, ?length_to_le; cbn [length]; lia) ].

Lemma posting_posted l sector n f : apart l → posted (posting l sector n f) l n sector.
Proof.
  intros Ha. destruct (apart_pages l Ha) as (q & u & r & d & Eq & Eu & Er & Ed & Hall).
  pose proof (Z.mod_pos_bound n QUEUE_SIZE eq_refl) as Hk. change QUEUE_SIZE with 16 in *.
  split; unfold posting, avail_idx, l_avail, l_status; change QUEUE_SIZE with 16; rewrite ?Eq, ?Eu, ?Er, ?Ed; read_back; try reflexivity.
  rewrite from_to_le. apply Z.mod_small. pose proof (Z.mod_pos_bound (n + 1) (2 ^ 16) ltac:(lia)). cbn. lia.
Qed.

(** The stores stay in the queue page and the request page. *)
Lemma posting_outside l sector n f x : apart l → 0 ≤ n → ¬ (p_queue l ≤ x < p_queue l + 4096) → ¬ (p_req l ≤ x < p_req l + 4096) →
  posting l sector n f x = f x.
Proof.
  intros Ha Hn Hq Hr. pose proof (Z.mod_pos_bound n QUEUE_SIZE eq_refl) as Hk. change QUEUE_SIZE with 16 in *.
  unfold posting, l_avail, l_status. change QUEUE_SIZE with 16. cbv zeta.
  rewrite !wr_bytes_out; rewrite ?length_desc, ?length_header, ?length_to_le; cbn [length]; first [done|lia].
Qed.

Lemma bind_on_bmach {A B} (m : M Mach A) (k : A → M (Board D) B) b a x : m (bmach b) = (Ok a, x) →
  bind (on_bmach m) k b = k a (mkBoard x (bdev b)).
Proof. intros E. unfold bind, on_bmach. by rewrite E. Qed.

Lemma submit_spec v sector s : blk_ready s v →
  ∀ b', b' = mkBoard (set_mem (posting (layout_of v) sector (consumed (bdev (board s))) (bram (board s))) (bmach (board s))) (bdev (board s)) →
  submit v VIRTIO_BLK_T_IN sector (Z.lor VRING_DESC_F_WRITE VRING_DESC_F_NEXT) (board s) = notify (mmio v) 0 b'.
Proof.
  intros [_ [Ea Est] Hap _ _ Hav _ [Hc _]] b' ->. unfold submit, poke, peek.
  rewrite !(bind_on_bmach (modify _) _ _ tt _ eq_refl). cbn [bmach bdev mem set_mem].
  rewrite (bind_on_bmach (gets _) _ _ _ _ eq_refl). rewrite !(bind_on_bmach (modify _) _ _ tt _ eq_refl). cbn [bmach bdev mem set_mem].
  assert (∀ f, from_le (rd_bytes (wr_bytes (wr_bytes (wr_bytes (wr_bytes (wr_bytes f (req_header v) (header_bytes VIRTIO_BLK_T_IN sector))
    (status_ptr v) [0xFF]) (desc_ptr v) (desc_bytes (req_header v) 16 VRING_DESC_F_NEXT 1))
    (desc_ptr v + 16) (desc_bytes (data_buf v) SECTOR_SIZE (Z.lor VRING_DESC_F_WRITE VRING_DESC_F_NEXT) 2))
    (desc_ptr v + 32) (desc_bytes (status_ptr v) 1 VRING_DESC_F_WRITE 0)) (avail_ptr v + 2) 2) = avail_idx f (layout_of v)) as Eidx.
  { intros f. destruct (apart_pages _ Hap) as (q & u & r & d & Eq & Eu & Er & Ed & Hall). unfold avail_idx. rewrite Ea, Est.
    unfold l_avail, l_status, layout_of in *. cbn [p_queue p_req p_used p_data] in *. rewrite Eq, Er. by read_back. }
  rewrite Eidx. change (mem (bmach (board s))) with (bram (board s)). rewrite Hav, Ea, Est. reflexivity.
Qed.

Lemma poll_used_spec v l b k : l = layout_of v → ∀ n, (k < n)%nat →
  (∀ j, (j < k)%nat → used_idx (bram (Nat.iter j device_runs b)) l = last_used_idx v) →
  used_idx (bram (Nat.iter k device_runs b)) l ≠ last_used_idx v →
  poll_used n v b = (Ok true, Nat.iter k device_runs b).
Proof.
  intros ->. revert b. induction k as [|k IH]; intros b [|n] Hn Hlt Hk; [lia| |lia|]; cbn [poll_used]; unfold peek;
    rewrite (bind_on_bmach (gets _) _ _ _ _ eq_refl).
  - cbn [Nat.iter nat_rect] in Hk. unfold used_idx, layout_of, bram in Hk. cbn [p_used] in Hk. rewrite (proj2 (Z.eqb_neq _ _) Hk).
    by destruct b.
  - pose proof (Hlt 0%nat ltac:(lia)) as H0'. cbn [Nat.iter nat_rect] in H0'. unfold used_idx, layout_of, bram in H0'. cbn [p_used] in H0'.
    rewrite (proj2 (Z.eqb_eq _ _) H0'). cbn [negb]. rewrite bind_modify.
    replace (mkBoard (bmach b) (bdev b)) with b by (by destruct b). rewrite Nat.iter_succ_r. apply IH; [lia| |].
    + intros j Hj. rewrite <- Nat.iter_succ_r. apply Hlt. lia.
    + by rewrite <- Nat.iter_succ_r.
Qed.

(** [v'] is [v] after one more request. *)
Definition same_device (s s' : Blk D) : Prop :=
  disk (bdev (board s')) = disk (bdev (board s)) ∧ sectors (bdev (board s')) = sectors (bdev (board s)).

Lemma transfer {A} v s sector (k : M (Blk D) A) : blk_ready s v → 0 ≤ sector < sectors (bdev (board s)) →
  ∃ s' v', blk_ready s' v' ∧ data_buf v' = data_buf v ∧ same_device s s' ∧
    rd_bytes (bram (board s')) (data_buf v) 512 = disk (bdev (board s)) sector ∧
    (on_board (submit v VIRTIO_BLK_T_IN sector (Z.lor VRING_DESC_F_WRITE VRING_DESC_F_NEXT)) ;;;
     let! ok := on_board (poll_used (Z.to_nat (POLL_LIMIT + 1)) v) in
     if negb ok then fail E_TIMEOUT else
     let! status := complete v in
     if negb (status =? 0) then fail E_READ else k) s = k s'.
Proof.
  intros Hr Hs. pose proof latency_bound as Hlat. set (lim := Z.to_nat (POLL_LIMIT + 1)). assert (latency < lim)%nat as Hlim by lia. clearbody lim.
  pose proof (submit_spec v sector s Hr _ eq_refl) as Esub. set (b1 := mkBoard _ _) in Esub.
  destruct Hr as [Hd [Ea Est] Hap Hq Hw Hav Hu [Hc Hl]]. set (l := layout_of v) in *.
  assert (posted (bram b1) l (consumed (bdev b1)) sector) as Hpost by (by apply posting_posted).
  destruct (blk_serves b1 l sector Hq Hap Hc Hpost Hs) as (b2 & n & En & Hn & Hsame & Hsv & _ & Hdk & Hsec & Hwin & Hq' & Hc').
  set (b3 := Nat.iter n device_runs b2) in *. assert (used_idx (bram b1) l = last_used_idx v) as Hu1.
  { rewrite <- Hu. unfold used_idx. f_equal. apply rd_bytes_ext. intros x Hx. destruct (apart_pages l Hap) as (q & u & r & d & Eq & Eu & Er & Ed & Hall).
    apply posting_outside; [done|lia|lia|lia]. }
  destruct Hsv as [Hdata Hst Hus Hrest]. rewrite Hu1 in Hus.
  assert (poll_used lim v b2 = (Ok true, b3)) as Epoll.
  { apply (poll_used_spec v l b2 n eq_refl lim); [lia| |].
    - intros j Hj. by rewrite Hsame.
    - fold b3. rewrite Hus. intros E. pose proof (Z.div_mod (last_used_idx v + 1) (2 ^ 16) ltac:(lia)). lia. }
  set (v' := set_last ((last_used_idx v + 1) mod 2 ^ 16) v).
  destruct (blk_ack b3 (mmio v)) as (d' & Eack & Ad & As & Aw & Aq & Ac); [by rewrite Hwin|].
  set (s' := mkBlk (mkBoard (bmach b3) d') (Some v')). exists s', v'.
  assert (bram (board s') = bram b3) as Eram by done.
  assert (∀ o, complete v (mkBlk b3 o) = (Ok 0, s')) as Ecomp.
  { intros o. unfold complete. rewrite bind_modify. unfold bind, on_board. cbn [board BLOCK_DEV]. rewrite Eack. unfold peek, on_bmach. cbn [board bmach gets BLOCK_DEV bdev].
    rewrite Est. change (rd_bytes (mem (bmach b3)) (status_ptr v) 1) with [bram b3 (status_ptr v + 0)]. unfold gets. cbn [ret]. unfold ret.
    do 2 f_equal. change (rd_bytes _ _ 1) with [bram b3 (l_status l + 0)]. by rewrite Z.add_0_r, Hst. }
  assert (layout_of v' = l) as Elay by done. split; [|split; [done|split; [|split]]].
  - split; rewrite ?Elay; [done|done|done| | |rewrite Eram|rewrite Eram|]; cbn [board bdev s' v' mmio last_used_idx set_last].
    + by rewrite Aq.
    + by rewrite Aw, Hwin.
    + rewrite Ac, Hc'. replace (avail_idx (bram b3) l) with (avail_idx (bram b1) l); [apply (posted_idx _ _ _ _ Hpost)|].
      unfold avail_idx. f_equal. apply rd_bytes_ext. intros x Hx. destruct (apart_pages l Hap) as (q & u & r & d & Eq & Eu & Er & Ed & Hall).
      unfold l_avail in Hx. symmetry. apply Hrest; unfold l_status; lia.
    + exact Hus.
    + rewrite Ac, Hc'. pose proof (Z.mod_pos_bound (consumed (bdev b1) + 1) (2 ^ 16) ltac:(lia)).
      pose proof (Z.mod_pos_bound (last_used_idx v + 1) (2 ^ 16) ltac:(lia)). lia.
  - split; cbn; [by rewrite Ad, Hdk|by rewrite As, Hsec].
  - exact Hdata.
  - unfold bind at 1, on_board at 1. rewrite Esub. unfold notify, write32. rewrite Hw. change (bdev (board s)) with (bdev b1). rewrite En.
    cbn beta iota. unfold bind at 1, on_board at 1. cbn [board]. rewrite Epoll. cbn [negb].
    rewrite (bind_ok _ _ _ 0 s' (Ecomp _)). reflexivity.
Qed.

Lemma read_loop_spec start n : ∀ i buf offset s v, blk_ready s v → 0 ≤ i → 0 ≤ start → start + i + Z.of_nat n ≤ sectors (bdev (board s)) →
  sectors (bdev (board s)) ≤ 2 ^ 64 → length buf = (offset + 512 * n)%nat →
  ∃ s' v', read_loop (seqZ i (Z.of_nat n)) start buf offset s =
      (Ok (take offset buf ++ concat (disk (bdev (board s)) <$> seqZ (start + i) (Z.of_nat n))), s') ∧
    blk_ready s' v' ∧ same_device s s'.
Proof.
  induction n as [|n IH]; intros i buf offset s v Hr Hi Hst Hcap Hmax Hlen.
  { exists s, v. cbn. rewrite app_nil_r, take_ge by lia. done. }
  rewrite !(seqZ_cons _ (Z.of_nat (S n))) by lia. replace (Z.pred (Z.of_nat (S n))) with (Z.of_nat n) by lia. cbn [read_loop].
  unfold the_device at 1. rewrite bind_assoc, bind_gets, (rd_dev _ _ Hr). rewrite bind_ok_or.
  unfold add64 at 1. rewrite bool_decide_eq_true_2 by lia. rewrite bind_or_panic.
  destruct (transfer v s (start + i) (let copy_len := Nat.min 512 (length buf - offset) in
    let! bytes := on_board (peek (data_buf v) copy_len) in
    read_loop (seqZ (Z.succ i) (Z.of_nat n)) start (take offset buf ++ bytes ++ drop (offset + copy_len) buf) (offset + copy_len)) Hr ltac:(lia))
    as (s1 & v1 & Hr1 & _ & [Hdk Hsec] & Hdata & E).
  cbv zeta in E |- *. rewrite E. replace (Nat.min 512 (length buf - offset)) with 512%nat by lia.
  unfold bind at 1, on_board, peek, on_bmach, gets. cbn [board bmach BLOCK_DEV]. change (mem (bmach (board s1))) with (bram (board s1)). rewrite Hdata.
  replace (mkBlk (mkBoard (bmach (board s1)) (bdev (board s1))) (BLOCK_DEV s1)) with s1 by (by destruct s1 as [[] ?]).
  set (x := disk (bdev (board s)) (start + i)). assert (length x = 512%nat) as Hx by apply disk_sector.
  edestruct (IH (Z.succ i) (take offset buf ++ x ++ drop (offset + 512) buf) (offset + 512)%nat s1 v1 Hr1) as (s2 & v2 & E2 & Hr2 & Hd2 & Hs2);
    [lia|lia|rewrite Hsec; lia|rewrite Hsec; lia|rewrite !length_app, length_take, length_drop, Hx; lia|].
  exists s2, v2. split; [|split; [done|]].
  - rewrite E2, Hdk. cbn [fmap list_fmap concat]. fold x. do 2 f_equal. rewrite app_assoc, take_app_length' by (rewrite length_app, length_take, Hx; lia).
    rewrite <- app_assoc. by replace (start + Z.succ i) with (Z.succ (start + i)) by lia.
  - split; [by rewrite Hd2|by rewrite Hs2].
Qed.
End ReadProof.

Lemma read_sectors_spec `{VirtioBlk D} start count buf (s : Blk D) v : blk_ready s v →
  0 ≤ start → 0 ≤ count → start + count ≤ sectors (bdev (board s)) ≤ 2 ^ 64 → length buf = Z.to_nat (512 * count) →
  ∃ s' v', read_sectors start count buf s = (Ok (concat (disk (bdev (board s)) <$> seqZ start count)), s') ∧
    blk_ready s' v' ∧ same_device s s'.
Proof.
  intros Hr Hs Hc Hcap Hlen. unfold read_sectors, the_device at 1. rewrite bind_assoc, bind_gets, (rd_dev _ _ Hr), bind_ok_or.
  destruct (read_loop_spec start (Z.to_nat count) 0 buf 0 s v Hr) as (s' & v' & E & H'); [lia|lia|lia|lia|lia|].
  rewrite Z2Nat.id, Z.add_0_r in E by lia. by exists s', v'.
Qed.

(** Reads one after another, each of [count] sectors from [start] into a fresh
    buffer. *)
Fixpoint read_all `{MmioDevice D} (reqs : list (Z * Z)) : M (Blk D) (list (list Z)) :=
  match reqs with
  | [] => ret []
  | (start, count) :: reqs =>
      let! x := read_sectors start count (replicate (Z.to_nat (512 * count)) 0) in
      let! xs := read_all reqs in ret (x :: xs)
  end.

(** C5. The driver implements a disk: on a device that keeps the promises of a
    VirtIO block device, a series of reads of any length, each within the disk,
    returns for each request exactly the contents of its sectors.  The requests the
    driver posts are the ones the specification asks for, and driver and device
    stay in step over any number of them (their indices wrap around together). *)
Theorem driver_refines_disk `{VirtioBlk D} reqs (s : Blk D) v : blk_ready s v → sectors (bdev (board s)) ≤ 2 ^ 64 →
  Forall (λ r, 0 ≤ r.1 ∧ 0 ≤ r.2 ∧ r.1 + r.2 ≤ sectors (bdev (board s))) reqs →
  ∃ s', read_all reqs s = (Ok ((λ r, concat (disk (bdev (board s)) <$> seqZ r.1 r.2)) <$> reqs), s').
Proof.
  revert s v. induction reqs as [|[start count] reqs IH]; intros s v Hr Hmax Hall; [by exists s|].
  apply Forall_cons in Hall as [(H1 & H2 & H3) Hall]. cbn [fst snd] in *. cbn [read_all].
  destruct (read_sectors_spec start count (replicate (Z.to_nat (512 * count)) 0) s v Hr) as (s1 & v1 & E & Hr1 & Hd & Hs);
    [done|done|done|by rewrite length_replicate|].
  rewrite (bind_ok _ _ _ _ _ E). destruct (IH s1 v1 Hr1) as (s2 & E2); [by rewrite Hs|by rewrite Hs|].
  exists s2. rewrite (bind_ok _ _ _ _ _ E2), Hd. done.
Qed.

(** ** A device *)

(** A device that serves a read as soon as the doorbell rings; a model of the
    promises above. *)
Record RamDisk := mkRam { r_sector : Z → list Z; r_count : Z; r_queue : option Layout; r_seen : Z }.

Definition field (f : Z → Z) (a : Z) (n : nat) : Z := from_le (rd_bytes f a n).

(** The writes of the device for the chain that starts at descriptor [head]. *)
Definition answer (d : RamDisk) (l : Layout) (head : Z) (f : Z → Z) : Z → Z :=
  let next1 := field f (p_queue l + 16 * head + 14) 2 in
  let next2 := field f (p_queue l + 16 * next1 + 14) 2 in
  let hdr := field f (p_queue l + 16 * head) 8 in
  let data := field f (p_queue l + 16 * next1) 8 in
  let st := field f (p_queue l + 16 * next2) 8 in
  let idx := used_idx f l in
  if negb (field f hdr 4 =? VIRTIO_BLK_T_IN) then f else
  let f := wr_bytes f data (take 512 (r_sector d (field f (hdr + 8) 8) ++ replicate 512 0)) in
  let f := wr_bytes f st [0] in
  let f := wr_bytes f (p_used l + 4 + 8 * (idx mod QUEUE_SIZE)) (to_le 4 head ++ to_le 4 513) in
  wr_bytes f (p_used l + 2) (to_le 2 ((idx + 1) mod 2 ^ 16)).

Definition ring_bell (b : Board RamDisk) : Board RamDisk :=
  match r_queue (bdev b) with
  | Some l =>
      let d := bdev b in
      if avail_idx (bram b) l =? r_seen d then b
      else
        let head := field (bram b) (l_avail l + 4 + 2 * (r_seen d mod QUEUE_SIZE)) 2 in
        mkBoard (set_mem (answer d l head (bram b)) (bmach b)) (mkRam (r_sector d) (r_count d) (r_queue d) ((r_seen d + 1) mod 2 ^ 16))
  | None => b
  end.

#[export] Instance RamDisk_mmio : MmioDevice RamDisk := {
  mmio_read8 _ := ret 0;
  mmio_read32 _ := ret 0;
  mmio_read64 _ := gets (λ b, r_count (bdev b));
  mmio_write32 a _ := if a =? VIRTIO_MMIO_BASE + QUEUE_NOTIFY then modify ring_bell else ret tt;
  device_runs b := b }.

Lemma field_prefix f a n m l : (n ≤ m)%nat → rd_bytes f a m = l → field f a n = from_le (take n l).
Proof. intros Hn <-. unfold field. by rewrite take_rd_bytes. Qed.

Lemma field_suffix f a n m l : rd_bytes f a (n + m) = l → field f (a + Z.of_nat n) m = from_le (drop n l).
Proof. intros <-. unfold field. rewrite rd_bytes_split. by rewrite drop_app_length' by (by rewrite length_rd_bytes). Qed.

Lemma from_to_small n v : 0 ≤ v < 256 ^ Z.of_nat n → from_le (to_le n v) = v.
Proof. intros Hv. rewrite from_to_le. by apply Z.mod_small. Qed.

Lemma desc_addr f a x len fl nx : rd_bytes f a 16 = desc_bytes x len fl nx → 0 ≤ x < 2 ^ 64 → field f a 8 = x.
Proof.
  intros E Hx. rewrite (field_prefix f a 8 16 _ ltac:(lia) E). unfold desc_bytes. rewrite take_app_length' by (by rewrite length_to_le).
  by apply from_to_small.
Qed.

Lemma desc_next f a x len fl nx : rd_bytes f a 16 = desc_bytes x len fl nx → 0 ≤ nx < 2 ^ 16 → field f (a + 14) 2 = nx.
Proof.
  intros E Hx. change (a + 14) with (a + Z.of_nat 14). rewrite (field_suffix f a 14 2 _ E). unfold desc_bytes. rewrite !app_assoc, drop_app_length' by (by rewrite !length_app, !length_to_le).
  by apply from_to_small.
Qed.

Lemma header_fields f a typ sector : rd_bytes f a 16 = header_bytes typ sector → 0 ≤ typ < 2 ^ 32 → 0 ≤ sector < 2 ^ 64 →
  field f a 4 = typ ∧ field f (a + 8) 8 = sector.
Proof.
  intros E Ht Hs. split.
  - rewrite (field_prefix f a 4 16 _ ltac:(lia) E). unfold header_bytes. rewrite take_app_length' by (by rewrite length_to_le). by apply from_to_small.
  - change (a + 8) with (a + Z.of_nat 8). rewrite (field_suffix f a 8 8 _ E). unfold header_bytes. rewrite app_assoc, drop_app_length' by (by rewrite !length_app, !length_to_le).
    by apply from_to_small.
Qed.

(** The chain of a posted request, as the device reads it. *)
Lemma posted_chain f l n sector : posted f l n sector → apart l → 0 ≤ sector < 2 ^ 64 →
  field f (l_avail l + 4 + 2 * (n mod QUEUE_SIZE)) 2 = 0 ∧ field f (p_queue l + 16 * 0 + 14) 2 = 1 ∧ field f (p_queue l + 16 * 1 + 14) 2 = 2 ∧
  field f (p_queue l + 16 * 0) 8 = p_req l ∧ field f (p_queue l + 16 * 1) 8 = p_data l ∧ field f (p_queue l + 16 * 2) 8 = l_status l ∧
  field f (p_req l) 4 = VIRTIO_BLK_T_IN ∧ field f (p_req l + 8) 8 = sector.
Proof.
  intros [Hh H0 H1 H2 Hr _] Ha Hs. destruct (apart_pages l Ha) as (q & u & r & d & Eq & Eu & Er & Ed & Hall).
  rewrite Z.mul_0_r, Z.add_0_r. split_and!.
  - unfold field. by rewrite Hr.
  - by apply (desc_next _ _ _ _ _ _ H0).
  - by apply (desc_next _ _ _ _ _ _ H1).
  - apply (desc_addr _ _ _ _ _ _ H0). lia.
  - apply (desc_addr _ _ _ _ _ _ H1). lia.
  - apply (desc_addr _ _ _ _ _ _ H2). unfold l_status. lia.
  - by apply (header_fields _ _ _ _ Hh).
  - by apply (header_fields _ _ _ _ Hh).
Qed.

Lemma answer_served d l f n sector : posted f l n sector → apart l → 0 ≤ sector < 2 ^ 64 →
  served f (answer d l 0 f) l (take 512 (r_sector d sector ++ replicate 512 0)).
Proof.
  intros Hp Ha Hs. destruct (posted_chain f l n sector Hp Ha Hs) as (_ & E1 & E2 & E3 & E4 & E5 & E6 & E7).
  destruct (apart_pages l Ha) as (q & u & r & dd & Eq & Eu & Er & Ed & Hall).
  assert (answer d l 0 f = wr_bytes (wr_bytes (wr_bytes (wr_bytes f (p_data l) (take 512 (r_sector d sector ++ replicate 512 0)))
    (l_status l) [0]) (p_used l + 4 + 8 * (used_idx f l mod QUEUE_SIZE)) (to_le 4 0 ++ to_le 4 513))
    (p_used l + 2) (to_le 2 ((used_idx f l + 1) mod 2 ^ 16))) as ->.
  { unfold answer. rewrite E1, E2, E3, E4, E5, E6, E7. reflexivity. }
  set (x := take 512 _). assert (length x = 512%nat) as Hx by (unfold x; rewrite length_take, length_app, length_replicate; lia). clearbody x.
  pose proof (Z.mod_pos_bound (used_idx f l) QUEUE_SIZE eq_refl) as Hk. change QUEUE_SIZE with 16 in *. set (k := used_idx f l mod 16) in *. clearbody k.
  assert (length (to_le 4 0 ++ to_le 4 513) = 8%nat) as H8 by done. set (e := to_le 4 0 ++ to_le 4 513) in *. clearbody e.
  split; unfold used_idx, l_status in *.
  - rewrite !rd_wr_apart by (rewrite ?length_to_le, ?H8; cbn [length]; lia). by apply rd_wr_same.
  - rewrite !wr_bytes_out by (rewrite ?length_to_le, ?H8; cbn [length]; lia). unfold wr_bytes. rewrite bool_decide_eq_true_2 by (cbn [length]; lia).
    by rewrite Z.sub_diag.
  - rewrite rd_wr_same by apply length_to_le. apply from_to_small. pose proof (Z.mod_pos_bound (from_le (rd_bytes f (p_used l + 2) 2) + 1) (2 ^ 16) ltac:(lia)). cbn. lia.
  - intros y H1 H2 H3. rewrite !wr_bytes_out by (rewrite ?length_to_le, ?H8, ?Hx; cbn [length]; lia). done.
Qed.

#[local] Obligation Tactic := idtac.

#[export] Program Instance RamDisk_blk : VirtioBlk RamDisk := {
  disk d k := take 512 (r_sector d k ++ replicate 512 0);
  sectors d := Z.min (r_count d) (2 ^ 64);
  window _ := VIRTIO_MMIO_BASE;
  queue_of := r_queue;
  consumed := r_seen;
  latency := 0 }.
Next Obligation. done. Qed.
Next Obligation. intros d k. cbv beta. rewrite length_take, length_app, length_replicate. lia. Qed.
Next Obligation.
  intros b l sector Hq Ha Hc Hp Hs. cbv beta in *. exists (ring_bell b), 0%nat.
  split; [done|]. split; [done|]. split; [lia|]. cbv zeta. cbn [Nat.iter nat_rect].
  pose proof (posted_idx _ _ _ _ Hp) as Hi.
  assert (avail_idx (bram b) l ≠ r_seen (bdev b)) as Hne.
  { rewrite Hi. pose proof (Z.div_mod (r_seen (bdev b) + 1) (2 ^ 16) ltac:(lia)). lia. }
  destruct (posted_chain _ _ _ _ Hp Ha ltac:(lia)) as [E0 _].
  unfold ring_bell. rewrite Hq, (proj2 (Z.eqb_neq _ _) Hne), E0. cbn. split; [|done]. by apply (answer_served _ _ _ (r_seen (bdev b))); [| |lia].
Qed.
Next Obligation. intros b m Hm. exists (bdev b). split; [|done]. unfold ack_interrupt, read32, write32. rewrite Hm. by destruct b. Qed.

(** A disk of eight sectors, sector [k] filled with [k], behind a driver that is set
    up. *)
Definition demo_layout : Layout := mkLayout 0x1000 0x2000 0x3000 0x4000.
Definition demo_blk : Blk RamDisk :=
  mkBlk (mkBoard (mkMach (Pmm.mkPmm [] 0 0) (λ _, 0)) (mkRam (λ k, replicate 512 k) 8 (Some demo_layout) 0))
    (Some (mkBlock (mkMmio VIRTIO_MMIO_BASE 2) 8 0x1000 0x1100 0x2000 0x3000 0x4000 0x3010 0)).

Lemma demo_blk_ready : blk_ready demo_blk (mkBlock (mkMmio VIRTIO_MMIO_BASE 2) 8 0x1000 0x1100 0x2000 0x3000 0x4000 0x3010 0).
Proof.
  split; try done. split.
  - apply (bool_decide_unpack _). vm_compute. exact I.
  - unfold pages. cbn. rewrite !Forall_cons. split_and!; try lia. constructor.
Qed.

Lemma driver_refines_disk_witness : ∃ s', read_all [(3, 2); (0, 1)] demo_blk = (Ok [replicate 512 3 ++ replicate 512 4; replicate 512 0], s').
Proof.
  destruct (driver_refines_disk [(3, 2); (0, 1)] demo_blk _ demo_blk_ready) as (s' & E); [vm_compute; discriminate| |].
  - refine (bool_decide_unpack _ _). vm_compute. exact I.
  - exists s'. rewrite E. f_equal.
Defined.

(** ** The interface of the file system *)

(** [bd_read start count buf] fills [buf], of [count] sectors. *)
Class BlockDevice (S : Type) := { bd_read : Z → Z → list Z → M S (list Z) }.

(** The bytes at addresses [a] to [a + n - 1]. *)
Definition span (byte : Z → Z) (a n : Z) : list Z := byte <$> seqZ a n.

(** A read within the device returns its bytes and changes none of them. *)
Class BlockLaws (S : Type) `{BlockDevice S} := {
  bd_ok : S → Prop;
  bd_byte : S → Z → Z;
  bd_count : S → Z;
  bd_reads s start count buf : bd_ok s → 0 ≤ start → 0 ≤ count → start + count ≤ bd_count s → length buf = Z.to_nat (512 * count) →
    ∃ s', bd_read start count buf s = (Ok (span (bd_byte s) (512 * start) (512 * count)), s') ∧ bd_ok s' ∧
      bd_byte s' = bd_byte s ∧ bd_count s' = bd_count s }.

#[export] Instance driver_block `{MmioDevice D} : BlockDevice (Blk D) := { bd_read := read_sectors }.

Definition disk_byte `{VirtioBlk D} (s : Blk D) (a : Z) : Z := default 0 (disk (bdev (board s)) (a / 512) !! Z.to_nat (a mod 512)).

Lemma disk_span `{VirtioBlk D} (s : Blk D) n : ∀ start, 0 ≤ start →
  concat (disk (bdev (board s)) <$> seqZ start (Z.of_nat n)) = span (disk_byte s) (512 * start) (512 * Z.of_nat n).
Proof.
  induction n as [|n IH]; intros start Hs; [done|]. rewrite seqZ_cons by lia. replace (Z.pred (Z.of_nat (S n))) with (Z.of_nat n) by lia.
  cbn [fmap list_fmap concat]. rewrite IH by lia. unfold span. replace (512 * Z.of_nat (S n)) with (512 + 512 * Z.of_nat n) by lia.
  rewrite seqZ_app, fmap_app by lia. replace (512 * start + 512) with (512 * Z.succ start) by lia. f_equal.
  apply list_eq_same_length with (n := 512%nat); [done|by rewrite disk_sector|].
  intros i x y Hi Hx. rewrite list_lookup_fmap, lookup_seqZ_lt by lia. intros [= <-]. unfold disk_byte.
  replace ((512 * start + Z.of_nat i) / 512) with start by lia. replace ((512 * start + Z.of_nat i) mod 512) with (Z.of_nat i) by lia.
  by rewrite Nat2Z.id, Hx.
Qed.

#[export] Program Instance driver_laws `{VirtioBlk D} : BlockLaws (Blk D) := {
  bd_ok s := (∃ v, blk_ready s v) ∧ sectors (bdev (board s)) ≤ 2 ^ 64;
  bd_byte := disk_byte;
  bd_count s := sectors (bdev (board s)) }.
Next Obligation.
  cbv beta. intros D ? ? s start count buf [[v Hr] Hmax] Hs Hc Hle Hlen.
  destruct (read_sectors_spec start count buf s v Hr Hs Hc (conj Hle Hmax) Hlen) as (s' & v' & E & Hr' & Hd & Hse).
  exists s'. split; [|split_and!; [by exists v'|by rewrite Hse| |done]].
  - change (read_sectors start count buf s = (Ok (span (disk_byte s) (512 * start) (512 * count)), s')). rewrite E.
    rewrite <- (Z2Nat.id count) by lia. by rewrite disk_span.
  - unfold disk_byte. by rewrite Hd.
Qed.
