(* ===== verification/Gpu.v ===== *)
(** * Graphics device driver ([drivers/virtio/gpu.rs])

    The driver sends commands through one queue, with a page for the command and a
    page for the answer.  What the commands do to a display is the state machine
    [exec_cmd] on [Screen], after the VirtIO specification (section 5.7): a valid
    command is carried out, an invalid one answered with an error; a device
    that keeps these promises is the class [VirtioGpuDev], and the driver is verified
    against it.  Devices, registers and memory are those of [Block]. *)

From S2P Require Import Prelude.
From S2P Require Import Pmm.
From S2P Require Import Paging.
From S2P Require Import Block.

Definition VIRTIO_GPU_CMD_GET_DISPLAY_INFO : Z := 0x0100.
Definition VIRTIO_GPU_CMD_RESOURCE_CREATE_2D : Z := 0x0101.
Definition VIRTIO_GPU_CMD_SET_SCANOUT : Z := 0x0103.
Definition VIRTIO_GPU_CMD_RESOURCE_FLUSH : Z := 0x0104.
Definition VIRTIO_GPU_CMD_TRANSFER_TO_HOST_2D : Z := 0x0105.
Definition VIRTIO_GPU_CMD_RESOURCE_ATTACH_BACKING : Z := 0x0106.
Definition VIRTIO_GPU_RESP_OK_NODATA : Z := 0x1100.
Definition VIRTIO_GPU_RESP_OK_DISPLAY_INFO : Z := 0x1101.
Definition VIRTIO_GPU_FORMAT_B8G8R8X8_UNORM : Z := 2.
Definition DEFAULT_WIDTH : Z := 1024.
Definition DEFAULT_HEIGHT : Z := 768.

(** ** The command structures in memory *)

Definition GpuCtrlHdr (cmd_type : Z) : list Z := to_le 4 cmd_type ++ to_le 4 0 ++ to_le 8 0 ++ to_le 4 0 ++ to_le 4 0.
Definition GpuRect (x y width height : Z) : list Z := to_le 4 x ++ to_le 4 y ++ to_le 4 width ++ to_le 4 height.
Definition GpuResourceCreate2d (resource_id format width height : Z) : list Z :=
  GpuCtrlHdr VIRTIO_GPU_CMD_RESOURCE_CREATE_2D ++ to_le 4 resource_id ++ to_le 4 format ++ to_le 4 width ++ to_le 4 height.
Definition GpuResourceAttachBacking (resource_id nr_entries : Z) : list Z :=
  GpuCtrlHdr VIRTIO_GPU_CMD_RESOURCE_ATTACH_BACKING ++ to_le 4 resource_id ++ to_le 4 nr_entries.
Definition GpuMemEntry (addr length : Z) : list Z := to_le 8 addr ++ to_le 4 length ++ to_le 4 0.
Definition GpuSetScanout (x y width height scanout_id resource_id : Z) : list Z :=
  GpuCtrlHdr VIRTIO_GPU_CMD_SET_SCANOUT ++ GpuRect x y width height ++ to_le 4 scanout_id ++ to_le 4 resource_id.
Definition GpuTransferToHost2d (x y width height offset resource_id : Z) : list Z :=
  GpuCtrlHdr VIRTIO_GPU_CMD_TRANSFER_TO_HOST_2D ++ GpuRect x y width height ++ to_le 8 offset ++ to_le 4 resource_id ++ to_le 4 0.
Definition GpuResourceFlush (x y width height resource_id : Z) : list Z :=
  GpuCtrlHdr VIRTIO_GPU_CMD_RESOURCE_FLUSH ++ GpuRect x y width height ++ to_le 4 resource_id ++ to_le 4 0.

(** ** The driver *)

(** Pointers are physical addresses. *)
Record VirtioGpu := mkGpu {
  g_mmio : VirtioMmio; g_desc : Z; g_avail : Z; g_used : Z; last_used : Z; g_avail_idx : Z;
  cmd_phys : Z; resp_phys : Z; fb_phys : Z; width : Z; height : Z; resource_id : Z }.

Definition set_used (x : Z) (v : VirtioGpu) : VirtioGpu :=
  mkGpu (g_mmio v) (g_desc v) (g_avail v) (g_used v) x (g_avail_idx v) (cmd_phys v) (resp_phys v) (fb_phys v) (width v) (height v) (resource_id v).
Definition set_size (w h : Z) (v : VirtioGpu) : VirtioGpu :=
  mkGpu (g_mmio v) (g_desc v) (g_avail v) (g_used v) (last_used v) (g_avail_idx v) (cmd_phys v) (resp_phys v) (fb_phys v) w h (resource_id v).
Definition set_fb (p : Z) (v : VirtioGpu) : VirtioGpu :=
  mkGpu (g_mmio v) (g_desc v) (g_avail v) (g_used v) (last_used v) (g_avail_idx v) (cmd_phys v) (resp_phys v) p (width v) (height v) (resource_id v).

Record Gpu (D : Type) := mkGpuSt { gboard : Board D; GPU_DEV : option VirtioGpu }.
Arguments mkGpuSt {D} _ _.
Arguments gboard {D} _.
Arguments GPU_DEV {D} _.

Definition mul32 (a b : Z) : option Z := if bool_decide (a * b < 2 ^ 32) then Some (a * b) else None.
Definition add32 (a b : Z) : option Z := if bool_decide (a + b < 2 ^ 32) then Some (a + b) else None.

Section Driver.
Context {D : Type} `{MmioDevice D} (hhdm : Z).
Local Abbreviation MB := (M (Board D)).
Local Abbreviation MG := (M (Gpu D)).

(** Looks at the used ring until it has advanced, [looks] at most. *)
Fixpoint wait_used (looks : nat) (used last : Z) : MB () :=
  match looks with
  | O => ret tt
  | S n =>
      let! i := peek (used + 2) 2 in
      if negb (from_le i =? last) then ret tt else modify device_runs ;;; wait_used n used last
  end.

Definition submit_cmd (cmd_len resp_len : Z) (v : VirtioGpu) : MB VirtioGpu :=
  poke (g_desc v) (desc_bytes (cmd_phys v) cmd_len VRING_DESC_F_NEXT 1) ;;;
  poke (g_desc v + 16) (desc_bytes (resp_phys v) resp_len VRING_DESC_F_WRITE 0) ;;;
  let! i := peek (g_avail v + 2) 2 in
  let ai := from_le i in
  poke (g_avail v + 4 + 2 * (ai mod QUEUE_SIZE)) (to_le 2 0) ;;;
  poke (g_avail v + 2) (to_le 2 ((ai + 1) mod 2 ^ 16)) ;;;
  notify (g_mmio v) 0 ;;;
  wait_used (Z.to_nat (POLL_LIMIT + 1)) (g_used v) (last_used v) ;;;
  ack_interrupt (g_mmio v) ;;;
  ret (set_used ((last_used v + 1) mod 2 ^ 16) v).

(** A command is written to its page and sent. *)
Definition send (cmd : list Z) (resp_len : Z) (v : VirtioGpu) : MB VirtioGpu :=
  poke (cmd_phys v) cmd ;;; submit_cmd (Z.of_nat (length cmd)) resp_len v.

Definition get_display_info (v : VirtioGpu) : MB VirtioGpu :=
  let! v := send (GpuCtrlHdr VIRTIO_GPU_CMD_GET_DISPLAY_INFO) (4 + 4 + 24 * 16) v in
  let! t := peek (resp_phys v) 4 in
  if from_le t =? VIRTIO_GPU_RESP_OK_DISPLAY_INFO then
    let! w := peek (resp_phys v + 24 + 4 * 2) 4 in
    let! h := peek (resp_phys v + 24 + 4 * 3) 4 in
    ret (if (0 <? from_le w) && (0 <? from_le h) then set_size (from_le w) (from_le h) v else v)
  else ret v.

Definition resource_create_2d (resource_id w h : Z) : VirtioGpu → MB VirtioGpu :=
  send (GpuResourceCreate2d resource_id VIRTIO_GPU_FORMAT_B8G8R8X8_UNORM w h) 24.

(** Two stores, one after the other. *)
Definition resource_attach_backing (resource_id fb fb_size : Z) (v : VirtioGpu) : MB VirtioGpu :=
  poke (cmd_phys v) (GpuResourceAttachBacking resource_id 1) ;;;
  poke (cmd_phys v + 32) (GpuMemEntry fb fb_size) ;;;
  submit_cmd (32 + 16) 24 v.

Definition set_scanout (scanout_id resource_id w h : Z) : VirtioGpu → MB VirtioGpu :=
  send (GpuSetScanout 0 0 w h scanout_id resource_id) 24.

Definition transfer_and_flush (x y w h : Z) (v : VirtioGpu) : MB VirtioGpu :=
  let! start := or_panic (n ← mul32 y (width v); add32 n x) in
  let! v := send (GpuTransferToHost2d x y w h (start * 4) (resource_id v)) 24 v in
  send (GpuResourceFlush x y w h (resource_id v)) 24 v.

(** The end of [init_gpu]: the framebuffer becomes resource 1 and feeds the screen. *)
Definition put_on_screen (v : VirtioGpu) : MB VirtioGpu :=
  let! v := resource_create_2d 1 (width v) (height v) v in
  let! n := or_panic (n ← mul32 (width v) (height v); mul32 n 4) in
  let! v := resource_attach_backing 1 (fb_phys v) n v in
  set_scanout 0 1 (width v) (height v) v.

(** The pages that follow the first are assumed to lie behind it. *)
Definition alloc_contiguous (n : Z) : MB Z :=
  let! first := zeroed_page in
  for_each (seqZ 1 (n - 1)) (λ _, let! p := zeroed_page in ret tt) ;;;
  ret first.

Definition on_gboard {A} (m : MB A) : MG A := λ s, let '(r, b) := m (gboard s) in (r, mkGpuSt b (GPU_DEV s)).

Definition init_gpu (m : VirtioMmio) : MG () :=
  let! ok := on_gboard (mmio_init m) in
  if negb ok then ret tt else
  let! o := on_gboard (on_bmach (lift_pmm Pmm.alloc_page)) in
  let! p0 := or_panic o in
  let! o := on_gboard (on_bmach (lift_pmm Pmm.alloc_page)) in
  let! p1 := or_panic o in
  on_gboard (on_bmach (write_zero_page p0)) ;;;
  on_gboard (on_bmach (write_zero_page p1)) ;;;
  let avail_phys := p0 + 16 * QUEUE_SIZE in
  on_gboard (setup_queue m 0 QUEUE_SIZE p0 avail_phys p1) ;;;
  on_gboard (driver_ok m) ;;;
  let! o := on_gboard (on_bmach (lift_pmm Pmm.alloc_page)) in
  let! cmd := or_panic o in
  let! o := on_gboard (on_bmach (lift_pmm Pmm.alloc_page)) in
  let! resp := or_panic o in
  on_gboard (on_bmach (write_zero_page cmd)) ;;;
  on_gboard (on_bmach (write_zero_page resp)) ;;;
  let gpu := mkGpu m p0 avail_phys p1 0 0 cmd resp 0 DEFAULT_WIDTH DEFAULT_HEIGHT 1 in
  let! gpu := on_gboard (get_display_info gpu) in
  let w := width gpu in let h := height gpu in
  let! bytes := or_panic (n ← mul64 w h; mul64 n 4) in
  let! fb_bytes := or_panic (add64 bytes 4095) in
  let! fb := on_gboard (alloc_contiguous (fb_bytes / 4096)) in
  let gpu := set_fb fb gpu in
  let! gpu := on_gboard (put_on_screen gpu) in
  modify (λ s, mkGpuSt (gboard s) (Some gpu)).

Fixpoint gpu_probe_slots (l : list Z) : MG () :=
  match l with
  | [] => ret tt
  | i :: l' =>
      let base := VIRTIO_MMIO_BASE + i * VIRTIO_MMIO_STRIDE + hhdm in
      let! o := on_gboard (mmio_new base) in
      match o with
      | None => gpu_probe_slots l'
      | Some m => let! i := on_gboard (device_id m) in if i =? 16 then init_gpu m else gpu_probe_slots l'
      end
  end.
Definition gpu_probe : MG () := gpu_probe_slots (seqZ 0 32).

(** An operation on the device, if there is one. *)
Definition with_gpu (m : VirtioGpu → MB VirtioGpu) : MG () :=
  let! o := gets GPU_DEV in
  match o with
  | Some v => let! v' := on_gboard (m v) in modify (λ s, mkGpuSt (gboard s) (Some v'))
  | None => ret tt
  end.

Definition flush_rect (x y w h : Z) : MG () := with_gpu (transfer_and_flush x y w h).
Definition flush_all : MG () := with_gpu (λ v, transfer_and_flush 0 0 (width v) (height v) v).
Definition framebuffer_info (s : Gpu D) : option (Z * Z * Z) := (λ v, (fb_phys v, width v, height v)) <$> GPU_DEV s.
Definition framebuffer_virt (s : Gpu D) : Z := from_option (λ v, fb_phys v + hhdm) 0 (GPU_DEV s).
Definition is_available (s : Gpu D) : bool := bool_decide (is_Some (GPU_DEV s)).
End Driver.

(** ** What a display does with the commands *)

(** The device side, after section 5.7.6 of the specification: a command is
    carried out only when it is valid, and answered with an error otherwise. *)
Definition VIRTIO_GPU_RESP_ERR_UNSPEC : Z := 0x1200.
Definition VIRTIO_GPU_RESP_ERR_OUT_OF_MEMORY : Z := 0x1201.
Definition VIRTIO_GPU_RESP_ERR_INVALID_SCANOUT_ID : Z := 0x1202.
Definition VIRTIO_GPU_RESP_ERR_INVALID_RESOURCE_ID : Z := 0x1203.
Definition VIRTIO_GPU_RESP_ERR_INVALID_PARAMETER : Z := 0x1205.

(** A resource: its format and size, the guest memory behind it (pieces of an
    address and a length) and its pixels, four bytes each. *)
Record Resource := mkRes { r_format : Z; r_width : Z; r_height : Z; r_backing : list (Z * Z); r_pixel : Z → Z → list Z }.

Record Rect := mkRect { rx : Z; ry : Z; rw : Z; rh : Z }.
Definition inside (x y w h px py : Z) : bool := (x <=? px) && (px <? x + w) && (y <=? py) && (py <? y + h).
Definition within (r : Rect) (w h : Z) : bool := (rx r + rw r <=? w) && (ry r + rh r <=? h).

(** [outputs]: the number of outputs; [mode]: the size of output 0; [room]: the
    bytes left for resources; [scanouts]: the rectangle of a resource each output is
    fed from; [shown]: the colour (red, green, blue) of each pixel of each output. *)
Record Screen := mkScreen {
  outputs : Z; mode : Z * Z; room : Z; resources : gmap Z Resource; scanouts : gmap Z (Z * Rect); shown : Z → Z → Z → Z * Z * Z }.

(** Where red, green and blue are in the four bytes of a pixel: the formats
    BGRA and BGRX, ARGB and XRGB, RGBA and RGBX, XBGR and ABGR. *)
Definition components (format : Z) : option (nat * nat * nat) :=
  if bool_decide (format ∈ [1; 2]) then Some (2, 1, 0)%nat
  else if bool_decide (format ∈ [3; 4]) then Some (1, 2, 3)%nat
  else if bool_decide (format ∈ [67; 134]) then Some (0, 1, 2)%nat
  else if bool_decide (format ∈ [68; 121]) then Some (3, 2, 1)%nat
  else None.
Definition colour (format : Z) (px : list Z) : Z * Z * Z :=
  from_option (λ '(r, g, b), (nth r px 0, nth g px 0, nth b px 0)) (0, 0, 0) (components format).

Inductive GpuCmd :=
  | GetDisplayInfo
  | ResourceCreate2d (id format w h : Z)
  | ResourceAttachBacking (id : Z) (entries : list (Z * Z))
  | SetScanout (r : Rect) (scanout_id id : Z)
  | TransferToHost2d (r : Rect) (offset id : Z)
  | ResourceFlush (r : Rect) (id : Z).

(** Byte fields of a command. *)
Definition at_ (cmd : list Z) (off : nat) (n : nat) : Z := from_le (take n (drop off cmd)).
Definition rect_at (cmd : list Z) (off : nat) : Rect := mkRect (at_ cmd off 4) (at_ cmd (off + 4) 4) (at_ cmd (off + 8) 4) (at_ cmd (off + 12) 4).
Definition entries_at (cmd : list Z) (n : nat) : list (Z * Z) := map (λ i, (at_ cmd (32 + 16 * i) 8, at_ cmd (40 + 16 * i) 4)) (seq 0 n).

(** The command in the bytes; [None] when it is unknown or cut short. *)
Definition parse_cmd (cmd : list Z) : option GpuCmd :=
  let typ := at_ cmd 0 4 in
  let needs n c := if (n <=? Z.of_nat (length cmd)) then Some c else None in
  if typ =? VIRTIO_GPU_CMD_GET_DISPLAY_INFO then needs 24 GetDisplayInfo
  else if typ =? VIRTIO_GPU_CMD_RESOURCE_CREATE_2D then needs 40 (ResourceCreate2d (at_ cmd 24 4) (at_ cmd 28 4) (at_ cmd 32 4) (at_ cmd 36 4))
  else if typ =? VIRTIO_GPU_CMD_RESOURCE_ATTACH_BACKING then
    needs (32 + 16 * at_ cmd 28 4) (ResourceAttachBacking (at_ cmd 24 4) (entries_at cmd (Z.to_nat (at_ cmd 28 4))))
  else if typ =? VIRTIO_GPU_CMD_SET_SCANOUT then needs 48 (SetScanout (rect_at cmd 24) (at_ cmd 40 4) (at_ cmd 44 4))
  else if typ =? VIRTIO_GPU_CMD_TRANSFER_TO_HOST_2D then needs 56 (TransferToHost2d (rect_at cmd 24) (at_ cmd 40 8) (at_ cmd 48 4))
  else if typ =? VIRTIO_GPU_CMD_RESOURCE_FLUSH then needs 48 (ResourceFlush (rect_at cmd 24) (at_ cmd 40 4))
  else None.

(** The error of the first test that holds, if one does. *)
Fixpoint verdict (tests : list (bool * Z)) : Z :=
  match tests with
  | [] => VIRTIO_GPU_RESP_OK_NODATA
  | (fails, e) :: tests' => if fails : bool then e else verdict tests'
  end.

(** Tests on a resource that has to be there. *)
Definition of_resource (s : Screen) (id : Z) (tests : Resource → list (bool * Z)) : Z :=
  match resources s !! id with Some r => verdict (tests r) | None => VIRTIO_GPU_RESP_ERR_INVALID_RESOURCE_ID end.

(** The type of the answer to a command. *)
Definition check_cmd (c : GpuCmd) (s : Screen) : Z :=
  match c with
  | GetDisplayInfo => VIRTIO_GPU_RESP_OK_DISPLAY_INFO
  | ResourceCreate2d id format w h => verdict
      [((id =? 0) || bool_decide (is_Some (resources s !! id)), VIRTIO_GPU_RESP_ERR_INVALID_RESOURCE_ID);
       (negb (bool_decide (is_Some (components format))) || (w <=? 0) || (h <=? 0), VIRTIO_GPU_RESP_ERR_INVALID_PARAMETER);
       (room s <? w * h * 4, VIRTIO_GPU_RESP_ERR_OUT_OF_MEMORY)]
  | ResourceAttachBacking id entries => of_resource s id (λ r, [(negb (bool_decide (r_backing r = [])), VIRTIO_GPU_RESP_ERR_UNSPEC)])
  | SetScanout r scanout_id id =>
      if outputs s <=? scanout_id then VIRTIO_GPU_RESP_ERR_INVALID_SCANOUT_ID
      else if id =? 0 then VIRTIO_GPU_RESP_OK_NODATA
      else of_resource s id (λ p, [((rw r <=? 0) || (rh r <=? 0) || negb (within r (r_width p) (r_height p)), VIRTIO_GPU_RESP_ERR_INVALID_PARAMETER)])
  | TransferToHost2d r offset id => of_resource s id (λ p,
      [(bool_decide (r_backing p = []), VIRTIO_GPU_RESP_ERR_UNSPEC); (negb (within r (r_width p) (r_height p)), VIRTIO_GPU_RESP_ERR_INVALID_PARAMETER)])
  | ResourceFlush r id => of_resource s id (λ p, [(negb (within r (r_width p) (r_height p)), VIRTIO_GPU_RESP_ERR_INVALID_PARAMETER)])
  end.

(** The guest address of byte [off] of the memory behind a resource. *)
Fixpoint backing_at (l : list (Z * Z)) (off : Z) : option Z :=
  match l with [] => None | (a, n) :: l' => if off <? n then Some (a + off) else backing_at l' (off - n) end.

(** The pixels of a rectangle are taken from the memory behind the resource, the
    first at [offset], rows as far apart as the resource is wide; a pixel that
    is not all in that memory keeps its bytes. *)
Definition transfer_pixels (ram : Z → Z) (t : Rect) (offset : Z) (r : Resource) : Resource :=
  mkRes (r_format r) (r_width r) (r_height r) (r_backing r) (λ px py,
    if inside (rx t) (ry t) (rw t) (rh t) px py
    then let o := offset + 4 * r_width r * (py - ry t) + 4 * (px - rx t) in
         default (r_pixel r px py) (mapM (λ i, ram <$> backing_at (r_backing r) (o + i)) [0; 1; 2; 3])
    else r_pixel r px py).

(** An output that is fed from resource [id] takes over its pixels in the rectangle. *)
Definition flush_pixels (s : Screen) (t : Rect) (id : Z) (k px py : Z) : Z * Z * Z :=
  match scanouts s !! k, resources s !! id with
  | Some (i, w), Some r =>
      if bool_decide (i = id) && inside 0 0 (rw w) (rh w) px py && inside (rx t) (ry t) (rw t) (rh t) (rx w + px) (ry w + py)
      then colour (r_format r) (r_pixel r (rx w + px) (ry w + py)) else shown s k px py
  | _, _ => shown s k px py
  end.

(** A valid command on the display. *)
Definition run_cmd (ram : Z → Z) (c : GpuCmd) (s : Screen) : Screen :=
  match c with
  | GetDisplayInfo => s
  | ResourceCreate2d id format w h =>
      mkScreen (outputs s) (mode s) (room s - w * h * 4) (<[id := mkRes format w h [] (λ _ _, [0; 0; 0; 0])]> (resources s)) (scanouts s) (shown s)
  | ResourceAttachBacking id entries =>
      mkScreen (outputs s) (mode s) (room s)
        (alter (λ r, mkRes (r_format r) (r_width r) (r_height r) entries (r_pixel r)) id (resources s)) (scanouts s) (shown s)
  | SetScanout r scanout_id id =>
      mkScreen (outputs s) (mode s) (room s) (resources s)
        (if id =? 0 then delete scanout_id (scanouts s) else <[scanout_id := (id, r)]> (scanouts s)) (shown s)
  | TransferToHost2d r offset id =>
      mkScreen (outputs s) (mode s) (room s) (alter (transfer_pixels ram r offset) id (resources s)) (scanouts s) (shown s)
  | ResourceFlush r id => mkScreen (outputs s) (mode s) (room s) (resources s) (scanouts s) (flush_pixels s r id)
  end.

Definition exec_cmd (ram : Z → Z) (cmd : list Z) (s : Screen) : Screen :=
  match parse_cmd cmd with
  | Some c => if check_cmd c s =? VIRTIO_GPU_RESP_OK_NODATA then run_cmd ram c s else s
  | None => s
  end.

(** The answer, cut to the space for it. *)
Definition response (cmd : list Z) (s : Screen) (len : Z) : list Z :=
  take (Z.to_nat len) (match parse_cmd cmd with
    | Some GetDisplayInfo =>
        GpuCtrlHdr VIRTIO_GPU_RESP_OK_DISPLAY_INFO ++ GpuRect 0 0 (mode s).1 (mode s).2 ++ to_le 4 1 ++ to_le 4 0 ++ replicate (24 * 15) 0
    | Some c => GpuCtrlHdr (check_cmd c s)
    | None => GpuCtrlHdr VIRTIO_GPU_RESP_ERR_UNSPEC
    end).

(** A command of [len] bytes with room for an answer of [rlen] is the [n]th entry
    of the available ring ([p_req] is the page of the command, [p_data] that of the
    answer). *)
Record gposted (f : Z → Z) (l : Layout) (n len rlen : Z) : Prop := {
  gp_desc0 : rd_bytes f (p_queue l) 16 = desc_bytes (p_req l) len VRING_DESC_F_NEXT 1;
  gp_desc1 : rd_bytes f (p_queue l + 16) 16 = desc_bytes (p_data l) rlen VRING_DESC_F_WRITE 0;
  gp_ring : rd_bytes f (l_avail l + 4 + 2 * (n mod QUEUE_SIZE)) 2 = to_le 2 0;
  gp_idx : avail_idx f l = (n + 1) mod 2 ^ 16 }.

Record ganswered (f g : Z → Z) (l : Layout) (bytes : list Z) : Prop := {
  ga_data : rd_bytes g (p_data l) (length bytes) = bytes;
  ga_used : used_idx g l = (used_idx f l + 1) mod 2 ^ 16;
  ga_rest : ∀ x, ¬ (p_data l ≤ x < p_data l + 4096) → ¬ (p_used l ≤ x < p_used l + 4096) → g x = f x }.

Class VirtioGpuDev (D : Type) `{MmioDevice D} := {
  screen : D → Screen;
  gwindow : D → Z;
  gqueue : D → option Layout;
  gseen : D → Z;
  glatency : nat;
  glatency_bound : Z.of_nat glatency ≤ POLL_LIMIT;
  gpu_serves b l len rlen : gqueue (bdev b) = Some l → apart l → 0 ≤ gseen (bdev b) < 2 ^ 16 → 0 ≤ len ≤ 4096 → 0 ≤ rlen ≤ 4096 →
    gposted (bram b) l (gseen (bdev b)) len rlen →
    ∃ b0 k, mmio_write32 (gwindow (bdev b) + QUEUE_NOTIFY) 0 b = (Ok tt, b0) ∧ (k ≤ glatency)%nat ∧
      (∀ j, (j < k)%nat → used_idx (bram (Nat.iter j device_runs b0)) l = used_idx (bram b) l) ∧
      let b' := Nat.iter k device_runs b0 in let cmd := rd_bytes (bram b) (p_req l) (Z.to_nat len) in
      ganswered (bram b) (bram b') l (response cmd (screen (bdev b)) rlen) ∧
      screen (bdev b') = exec_cmd (bram b) cmd (screen (bdev b)) ∧ gwindow (bdev b') = gwindow (bdev b) ∧
      gqueue (bdev b') = Some l ∧ gseen (bdev b') = (gseen (bdev b) + 1) mod 2 ^ 16;
  gpu_ack b m : mbase m = gwindow (bdev b) → ∃ d, ack_interrupt m b = (Ok tt, mkBoard (bmach b) d) ∧
    screen d = screen (bdev b) ∧ gwindow d = gwindow (bdev b) ∧ gqueue d = gqueue (bdev b) ∧ gseen d = gseen (bdev b) }.

(** ** Sending a command *)

Section Send.
Context {D : Type} `{VirtioGpuDev D}.

Definition glayout (v : VirtioGpu) : Layout := mkLayout (g_desc v) (g_used v) (cmd_phys v) (resp_phys v).

(** The driver is set up on a device and no command is outstanding. *)
Record gpu_ready (b : Board D) (v : VirtioGpu) : Prop := {
  gr_avail_ptr : g_avail v = l_avail (glayout v);
  gr_apart : apart (glayout v);
  gr_queue : gqueue (bdev b) = Some (glayout v);
  gr_window : mbase (g_mmio v) = gwindow (bdev b);
  gr_avail : avail_idx (bram b) (glayout v) = gseen (bdev b);
  gr_used : used_idx (bram b) (glayout v) = last_used v;
  gr_idx : 0 ≤ gseen (bdev b) < 2 ^ 16 ∧ 0 ≤ last_used v < 2 ^ 16 }.

(** Memory outside the driver's four pages. *)
Definition elsewhere (v : VirtioGpu) (x : Z) : Prop := Forall (λ p, ¬ (p ≤ x < p + 4096)) (pages (glayout v)).

Definition gposting (l : Layout) (len rlen n : Z) (f : Z → Z) : Z → Z :=
  let f := wr_bytes f (p_queue l) (desc_bytes (p_req l) len VRING_DESC_F_NEXT 1) in
  let f := wr_bytes f (p_queue l + 16) (desc_bytes (p_data l) rlen VRING_DESC_F_WRITE 0) in
  let f := wr_bytes f (l_avail l + 4 + 2 * (n mod QUEUE_SIZE)) (to_le 2 0) in
  wr_bytes f (l_avail l + 2) (to_le 2 ((n + 1) mod 2 ^ 16)).

Ltac read_back :=
  repeat first
    [ rewrite rd_wr_same by (rewrite ?length_desc, ?length_to_le; reflexivity)
    | rewrite rd_wr_apart by (rewrite ?length_desc, ?length_to_le; cbn [length]; lia) ].

Lemma gposting_posted l len rlen n f : apart l → gposted (gposting l len rlen n f) l n len rlen.
Proof.
  intros Ha. destruct (apart_pages l Ha) as (q & u & r & d & Eq & Eu & Er & Ed & Hall).
  pose proof (Z.mod_pos_bound n QUEUE_SIZE eq_refl) as Hk. change QUEUE_SIZE with 16 in *.
  split; unfold gposting, avail_idx, l_avail; change QUEUE_SIZE with 16; rewrite ?Eq, ?Eu, ?Er, ?Ed; read_back; try reflexivity.
  rewrite from_to_le. apply Z.mod_small. pose proof (Z.mod_pos_bound (n + 1) (2 ^ 16) ltac:(lia)). cbn. lia.
Qed.

(** The stores stay in the queue page. *)
Lemma gposting_outside l len rlen n f x : 0 ≤ n → ¬ (p_queue l ≤ x < p_queue l + 4096) → gposting l len rlen n f x = f x.
Proof.
  intros Hn Hq. pose proof (Z.mod_pos_bound n QUEUE_SIZE eq_refl) as Hk. change QUEUE_SIZE with 16 in *.
  unfold gposting, l_avail. change QUEUE_SIZE with 16. cbv zeta.
  rewrite !wr_bytes_out; rewrite ?length_desc, ?length_to_le; cbn [length]; first [done|lia].
Qed.

Lemma wait_used_spec v b k : ∀ n, (k < n)%nat →
  (∀ j, (j < k)%nat → used_idx (bram (Nat.iter j device_runs b)) (glayout v) = last_used v) →
  used_idx (bram (Nat.iter k device_runs b)) (glayout v) ≠ last_used v →
  wait_used n (g_used v) (last_used v) b = (Ok tt, Nat.iter k device_runs b).
Proof.
  revert b. induction k as [|k IH]; intros b [|n] Hn Hlt Hk; [lia| |lia|]; cbn [wait_used]; unfold peek;
    rewrite (bind_on_bmach (gets _) _ _ _ _ eq_refl).
  - cbn [Nat.iter nat_rect] in Hk. unfold used_idx, glayout, bram in Hk. cbn [p_used] in Hk. rewrite (proj2 (Z.eqb_neq _ _) Hk).
    by destruct b.
  - pose proof (Hlt 0%nat ltac:(lia)) as H0'. cbn [Nat.iter nat_rect] in H0'. unfold used_idx, glayout, bram in H0'. cbn [p_used] in H0'.
    rewrite (proj2 (Z.eqb_eq _ _) H0'). cbn [negb]. rewrite bind_modify.
    replace (mkBoard (bmach b) (bdev b)) with b by (by destruct b). rewrite Nat.iter_succ_r. apply IH; [lia| |].
    + intros j Hj. rewrite <- Nat.iter_succ_r. apply Hlt. lia.
    + by rewrite <- Nat.iter_succ_r.
Qed.

Lemma post_spec v len rlen b : gpu_ready b v →
  submit_cmd len rlen v b =
  (notify (g_mmio v) 0 ;;; wait_used (Z.to_nat (POLL_LIMIT + 1)) (g_used v) (last_used v) ;;;
   ack_interrupt (g_mmio v) ;;; ret (set_used ((last_used v + 1) mod 2 ^ 16) v))
   (mkBoard (set_mem (gposting (glayout v) len rlen (gseen (bdev b)) (bram b)) (bmach b)) (bdev b)).
Proof.
  intros [Ea Hap _ _ Hav _ [Hc _]]. unfold submit_cmd, poke, peek.
  rewrite !(bind_on_bmach (modify _) _ _ tt _ eq_refl). cbn [bmach bdev mem set_mem].
  rewrite (bind_on_bmach (gets _) _ _ _ _ eq_refl). rewrite !(bind_on_bmach (modify _) _ _ tt _ eq_refl). cbn [bmach bdev mem set_mem].
  assert (∀ f, from_le (rd_bytes (wr_bytes (wr_bytes f (g_desc v) (desc_bytes (cmd_phys v) len VRING_DESC_F_NEXT 1))
    (g_desc v + 16) (desc_bytes (resp_phys v) rlen VRING_DESC_F_WRITE 0)) (g_avail v + 2) 2) = avail_idx f (glayout v)) as Eidx.
  { intros f. unfold avail_idx. rewrite Ea. unfold l_avail, glayout in *. cbn [p_queue] in *. by read_back. }
  rewrite Eidx. change (mem (bmach b)) with (bram b). rewrite Hav, Ea. reflexivity.
Qed.

(** What a command leaves behind: the driver ready for the next, the screen after
    the command, the answer in its page, the rest of memory as it was. *)
Record gpu_done (b : Board D) (v : VirtioGpu) (cmd : list Z) (rlen : Z) (b' : Board D) (v' : VirtioGpu) : Prop := {
  gd_ready : gpu_ready b' v';
  gd_same : v' = set_used ((last_used v + 1) mod 2 ^ 16) v;
  gd_screen : ∃ ram, (∀ x, elsewhere v x → ram x = bram b x) ∧ screen (bdev b') = exec_cmd ram cmd (screen (bdev b));
  gd_memory : ∀ x, elsewhere v x → bram b' x = bram b x;
  gd_answer : let r := response cmd (screen (bdev b)) rlen in rd_bytes (bram b') (resp_phys v) (length r) = r }.

Lemma elsewhere_pages v x : elsewhere v x ↔ ¬ (g_desc v ≤ x < g_desc v + 4096) ∧ ¬ (g_used v ≤ x < g_used v + 4096) ∧
  ¬ (cmd_phys v ≤ x < cmd_phys v + 4096) ∧ ¬ (resp_phys v ≤ x < resp_phys v + 4096).
Proof. unfold elsewhere, pages, glayout. cbn. rewrite !Forall_cons, Forall_nil. tauto. Qed.

Lemma submit_cmd_spec v len rlen b : gpu_ready b v → 0 ≤ len ≤ 4096 → 0 ≤ rlen ≤ 4096 →
  ∃ b' v', submit_cmd len rlen v b = (Ok v', b') ∧ gpu_done b v (rd_bytes (bram b) (cmd_phys v) (Z.to_nat len)) rlen b' v'.
Proof.
  intros Hr Hlen Hrl. rewrite (post_spec v len rlen b Hr). pose proof glatency_bound as Hlat.
  set (lim := Z.to_nat (POLL_LIMIT + 1)). assert (glatency < lim)%nat as Hlim by lia. clearbody lim.
  destruct Hr as [Ea Hap Hq Hw Hav Hu [Hc Hl]]. set (l := glayout v) in *. set (b1 := mkBoard _ _).
  destruct (apart_pages l Hap) as (q & u & r & d & Eq & Eu & Er & Ed & Hall).
  assert (∀ x, ¬ (p_queue l ≤ x < p_queue l + 4096) → bram b1 x = bram b x) as Hout by (intros x Hx; apply gposting_outside; [lia|done]).
  assert (gposted (bram b1) l (gseen (bdev b1)) len rlen) as Hpost by (by apply gposting_posted).
  destruct (gpu_serves b1 l len rlen Hq Hap Hc Hlen Hrl Hpost) as (b2 & n & En & Hn & Hsame & Hsv & Hsc & Hwin & Hq' & Hc').
  cbv zeta in Hsv, Hsc. set (b3 := Nat.iter n device_runs b2) in *.
  assert (rd_bytes (bram b1) (p_req l) (Z.to_nat len) = rd_bytes (bram b) (cmd_phys v) (Z.to_nat len)) as Ecmd.
  { apply rd_bytes_ext. intros x Hx. apply Hout. change (cmd_phys v) with (p_req l) in Hx. lia. }
  rewrite Ecmd in Hsv, Hsc. change (screen (bdev b1)) with (screen (bdev b)) in Hsv, Hsc.
  assert (used_idx (bram b1) l = last_used v) as Hu1.
  { rewrite <- Hu. unfold used_idx. f_equal. apply rd_bytes_ext. intros x Hx. apply Hout. lia. }
  destruct Hsv as [Hdata Hus Hrest]. rewrite Hu1 in Hus.
  assert (wait_used lim (g_used v) (last_used v) b2 = (Ok tt, b3)) as Ewait.
  { apply (wait_used_spec v b2 n lim); [lia| |].
    - intros j Hj. fold l. by rewrite Hsame.
    - fold b3 l. rewrite Hus. intros E. pose proof (Z.div_mod (last_used v + 1) (2 ^ 16) ltac:(lia)). lia. }
  destruct (gpu_ack b3 (g_mmio v)) as (d' & Eack & As & Aw & Aq & Ac); [by rewrite Hwin|].
  eexists (mkBoard (bmach b3) d'), _. split; [|split; [| reflexivity| | |exact Hdata]].
  - unfold notify, write32. rewrite Hw, (bind_ok _ _ _ _ _ En), (bind_ok _ _ _ _ _ Ewait), (bind_ok _ _ _ _ _ Eack). reflexivity.
  - change (glayout (set_used _ v)) with l. split; cbn [bdev g_mmio set_used last_used]; change (bram (mkBoard (bmach b3) d')) with (bram b3);
      change (glayout (set_used _ v)) with l; [done|done|by rewrite Aq|by rewrite Aw, Hwin| |exact Hus|].
    + rewrite Ac, Hc'. rewrite <- (gp_idx _ _ _ _ _ Hpost). unfold avail_idx. f_equal. apply rd_bytes_ext. intros x Hx. unfold l_avail in Hx.
      apply Hrest; lia.
    + rewrite Ac, Hc'. pose proof (Z.mod_pos_bound (gseen (bdev b1) + 1) (2 ^ 16) ltac:(lia)).
      pose proof (Z.mod_pos_bound (last_used v + 1) (2 ^ 16) ltac:(lia)). lia.
  - exists (bram b1). split; [|by cbn; rewrite As, Hsc]. intros x Hx%elsewhere_pages. apply Hout, Hx.
  - intros x Hx%elsewhere_pages. change (bram b3 x = bram b x). rewrite Hrest by apply Hx. apply Hout, Hx.
Qed.

(** Stores to the page of the command change nothing the device looks at. *)
Lemma poke_cmd_ready v off data b : gpu_ready b v → 0 ≤ off → off + Z.of_nat (length data) ≤ 4096 →
  gpu_ready (mkBoard (set_mem (wr_bytes (bram b) (cmd_phys v + off) data) (bmach b)) (bdev b)) v.
Proof.
  intros [Ea Hap Hq Hw Hav Hu Hi] Ho Hd. destruct (apart_pages _ Hap) as (q & u & r & d & Eq & Eu & Er & Ed & Hall).
  change (cmd_phys v) with (p_req (glayout v)). split; try done; cbn [bdev].
  - rewrite <- Hav. unfold avail_idx, l_avail, bram. cbn [bmach mem set_mem]. f_equal. apply rd_wr_apart. lia.
  - rewrite <- Hu. unfold used_idx, bram. cbn [bmach mem set_mem]. f_equal. apply rd_wr_apart. lia.
Qed.

Lemma poke_cmd_elsewhere v off data f x : 0 ≤ off → off + Z.of_nat (length data) ≤ 4096 → elsewhere v x → wr_bytes f (cmd_phys v + off) data x = f x.
Proof. intros Ho Hd Hx%elsewhere_pages. apply wr_bytes_out. lia. Qed.

Lemma gpu_done_before v cmd rlen b b1 b' v' : bdev b1 = bdev b → (∀ x, elsewhere v x → bram b1 x = bram b x) →
  gpu_done b1 v cmd rlen b' v' → gpu_done b v cmd rlen b' v'.
Proof.
  intros Ed Hm [H1 H2 (ram & Hr & Hs) H4 H5]. rewrite Ed in Hs, H5. split; try done.
  - exists ram. split; [|done]. intros x Hx. by rewrite Hr, Hm.
  - intros x Hx. by rewrite H4, Hm.
Qed.

Lemma send_spec v cmd rlen b : gpu_ready b v → Z.of_nat (length cmd) ≤ 4096 → 0 ≤ rlen ≤ 4096 →
  ∃ b' v', send cmd rlen v b = (Ok v', b') ∧ gpu_done b v cmd rlen b' v'.
Proof.
  intros Hr Hc Hrl. unfold send, poke. rewrite (bind_on_bmach (modify _) _ _ tt _ eq_refl).
  pose proof (poke_cmd_ready v 0 cmd b Hr ltac:(lia) ltac:(lia)) as Hr1. rewrite Z.add_0_r in Hr1.
  change (mem (bmach b)) with (bram b). set (b1 := mkBoard _ _) in *.
  destruct (submit_cmd_spec v (Z.of_nat (length cmd)) rlen b1 Hr1) as (b' & v' & E & Hd); [lia|done|]. exists b', v'. split; [exact E|].
  eapply gpu_done_before; [| |replace cmd with (rd_bytes (bram b1) (cmd_phys v) (Z.to_nat (Z.of_nat (length cmd)))); [exact Hd|]]; [done| |].
  - intros x Hx. pose proof (poke_cmd_elsewhere v 0 cmd (bram b) x ltac:(lia) ltac:(lia) Hx) as E1. by rewrite Z.add_0_r in E1.
  - unfold b1, bram. cbn [bmach mem set_mem]. rewrite Nat2Z.id. by apply rd_wr_same.
Qed.

(** ** The commands on the screen *)

Definition u32_ok (x : Z) : Prop := 0 ≤ x < 2 ^ 32.

Lemma at_u32 x : u32_ok x → from_le (to_le 4 x) = x.
Proof. intros Hx. rewrite from_to_le. apply Z.mod_small. exact Hx. Qed.
Lemma at_u64 x : u64_ok x → from_le (to_le 8 x) = x.
Proof. intros Hx. rewrite from_to_le. apply Z.mod_small. exact Hx. Qed.

(** The device reads back what the driver wrote. *)
Ltac parse_back c := transitivity (Some c); [reflexivity|]; by rewrite ?at_u32, ?at_u64.

Lemma parse_create i f w h : u32_ok i → u32_ok f → u32_ok w → u32_ok h →
  parse_cmd (GpuResourceCreate2d i f w h) = Some (ResourceCreate2d i f w h).
Proof. intros. parse_back (ResourceCreate2d (from_le (to_le 4 i)) (from_le (to_le 4 f)) (from_le (to_le 4 w)) (from_le (to_le 4 h))). Qed.
Lemma parse_attach i a n : u32_ok i → u64_ok a → u32_ok n →
  parse_cmd (GpuResourceAttachBacking i 1 ++ GpuMemEntry a n) = Some (ResourceAttachBacking i [(a, n)]).
Proof. intros. parse_back (ResourceAttachBacking (from_le (to_le 4 i)) [(from_le (to_le 8 a), from_le (to_le 4 n))]). Qed.

Definition rect_ok (x y w h : Z) : Prop := u32_ok x ∧ u32_ok y ∧ u32_ok w ∧ u32_ok h.
Definition rect_le (x y w h : Z) : Rect := mkRect (from_le (to_le 4 x)) (from_le (to_le 4 y)) (from_le (to_le 4 w)) (from_le (to_le 4 h)).

Lemma rect_back x y w h : rect_ok x y w h → rect_le x y w h = mkRect x y w h.
Proof. intros (? & ? & ? & ?). unfold rect_le. by rewrite !at_u32. Qed.

Lemma parse_scanout x y w h k i : rect_ok x y w h → u32_ok k → u32_ok i →
  parse_cmd (GpuSetScanout x y w h k i) = Some (SetScanout (mkRect x y w h) k i).
Proof. intros Hr Hk Hi. transitivity (Some (SetScanout (rect_le x y w h) (from_le (to_le 4 k)) (from_le (to_le 4 i)))); [reflexivity|]. by rewrite rect_back, !at_u32. Qed.
Lemma parse_transfer x y w h o i : rect_ok x y w h → u64_ok o → u32_ok i →
  parse_cmd (GpuTransferToHost2d x y w h o i) = Some (TransferToHost2d (mkRect x y w h) o i).
Proof. intros Hr Hk Hi. transitivity (Some (TransferToHost2d (rect_le x y w h) (from_le (to_le 8 o)) (from_le (to_le 4 i)))); [reflexivity|]. by rewrite rect_back, at_u32, at_u64. Qed.
Lemma parse_flush x y w h i : rect_ok x y w h → u32_ok i →
  parse_cmd (GpuResourceFlush x y w h i) = Some (ResourceFlush (mkRect x y w h) i).
Proof. intros Hr Hi. transitivity (Some (ResourceFlush (rect_le x y w h) (from_le (to_le 4 i)))); [reflexivity|]. by rewrite rect_back, at_u32. Qed.

Lemma exec_valid ram cmd c s : parse_cmd cmd = Some c → check_cmd c s = VIRTIO_GPU_RESP_OK_NODATA → exec_cmd ram cmd s = run_cmd ram c s.
Proof. intros E1 E2. unfold exec_cmd. by rewrite E1, E2. Qed.

(** The resource of the driver's framebuffer. *)
Definition fb_resource (v : VirtioGpu) (px : Z → Z → list Z) : Resource :=
  mkRes VIRTIO_GPU_FORMAT_B8G8R8X8_UNORM (width v) (height v) [(fb_phys v, width v * height v * 4)] px.

(** The first output is fed from all of the driver's resource, backed by its framebuffer. *)
Definition screen_ok (s : Screen) (v : VirtioGpu) : Prop :=
  scanouts s !! 0 = Some (resource_id v, mkRect 0 0 (width v) (height v)) ∧ ∃ px, resources s !! resource_id v = Some (fb_resource v px).

(** The display before the driver sets it up: it has an output, it has no
    resource 1 and it has room for one of the size of the framebuffer. *)
Definition screen_new (s : Screen) (v : VirtioGpu) : Prop :=
  0 < outputs s ∧ resources s !! 1 = None ∧ width v * height v * 4 ≤ room s.

(** The framebuffer: its size, and where it may lie. *)
Record fb_ok (v : VirtioGpu) : Prop := {
  fb_id : u32_ok (resource_id v);
  fb_addr : u64_ok (fb_phys v);
  fb_size : 0 < width v ∧ 0 < height v ∧ width v * height v * 4 < 2 ^ 32;
  fb_apart : ∀ x, fb_phys v ≤ x < fb_phys v + width v * height v * 4 → elsewhere v x }.

(** Blue, green and red lie in this order in memory, and a byte that is not used. *)
Definition bgrx (f : Z → Z) (a : Z) : Z * Z * Z := (f (a + 2), f (a + 1), f a).
(** The colour in memory behind a pixel. *)
Definition pixel_at (f : Z → Z) (v : VirtioGpu) (px py : Z) : Z * Z * Z := bgrx f (fb_phys v + 4 * (py * width v + px)).

Lemma pixel_ext f g v px py : fb_ok v → 0 ≤ px < width v → 0 ≤ py < height v → (∀ x, elsewhere v x → f x = g x) → pixel_at f v px py = pixel_at g v px py.
Proof.
  intros [_ _ (Hw & Hh & _) Ha] Hx Hy E. assert (py * width v + px + 1 ≤ width v * height v) by nia.
  unfold pixel_at, bgrx. by rewrite !E by (apply Ha; lia).
Qed.

Lemma fb_ok_used u v : fb_ok v → fb_ok (set_used u v).
Proof. by intros [? ? ? ?]. Qed.

Lemma fb_bounds v : fb_ok v → u32_ok (width v) ∧ u32_ok (height v) ∧ u32_ok (width v * height v * 4).
Proof. intros [_ _ (Hw & Hh & Hs) _]. unfold u32_ok. repeat split; nia. Qed.

Definition in_fb (v : VirtioGpu) (x y w h : Z) : Prop := 0 ≤ x ∧ 0 ≤ y ∧ 0 < w ∧ 0 < h ∧ x + w ≤ width v ∧ y + h ≤ height v.

Lemma in_fb_rect v x y w h : fb_ok v → in_fb v x y w h → rect_ok x y w h ∧ within (mkRect x y w h) (width v) (height v) = true.
Proof.
  intros Hf (Hx & Hy & Hw & Hh & Hxw & Hyh). destruct (fb_bounds v Hf) as (Bw & Bh & _). unfold u32_ok in *. split; [unfold rect_ok, u32_ok; lia|].
  unfold within. cbn. by rewrite !(proj2 (Z.leb_le _ _)) by lia.
Qed.

(** A pixel of the rectangle after the transfer, as the output shows it. *)
Lemma transfer_colour ram x y w h v pxs px py : fb_ok v → in_fb v x y w h → inside x y w h px py = true →
  colour VIRTIO_GPU_FORMAT_B8G8R8X8_UNORM (r_pixel (transfer_pixels ram (mkRect x y w h) ((y * width v + x) * 4) (fb_resource v pxs)) px py) = pixel_at ram v px py.
Proof.
  intros Hf (Hx & Hy & Hw & Hh & Hxw & Hyh) Hin. unfold transfer_pixels, fb_resource. cbn [r_pixel r_width r_backing rx ry rw rh]. rewrite Hin.
  unfold inside in Hin. rewrite !andb_true_iff, !Z.leb_le, !Z.ltb_lt in Hin. assert (py * width v + px + 1 ≤ width v * height v) by nia.
  set (o := (y * width v + x) * 4 + _ + _). assert (o = 4 * (py * width v + px)) as -> by (unfold o; lia). cbn [backing_at mapM].
  rewrite !(proj2 (Z.ltb_lt _ _)) by lia. cbn [fmap option_fmap option_map mbind option_bind mret option_ret default from_option].
  unfold colour, pixel_at, bgrx. cbn -[Z.add Z.mul]. rewrite !Z.add_0_r, !Z.add_assoc. done.
Qed.

Lemma transfer_and_flush_spec x y w h v b : gpu_ready b v → fb_ok v → screen_ok (screen (bdev b)) v → in_fb v x y w h →
  ∃ b' v', transfer_and_flush x y w h v b = (Ok v', b') ∧ gpu_ready b' v' ∧ (∃ u, v' = set_used u v) ∧ screen_ok (screen (bdev b')) v' ∧
    (∀ a, elsewhere v a → bram b' a = bram b a) ∧
    ∀ px py, shown (screen (bdev b')) 0 px py = if inside x y w h px py then pixel_at (bram b) v px py else shown (screen (bdev b)) 0 px py.
Proof.
  intros Hr Hf [Hso (pxs & Hres)] Hin. destruct (in_fb_rect v x y w h Hf Hin) as [Hrect Hwithin]. destruct (fb_bounds v Hf) as (Bw & Bh & Bs). pose proof (fb_id v Hf) as Hid.
  pose proof Hin as (Hx & Hy & Hw & Hh & Hxw & Hyh). assert (y * width v + x < width v * height v) as Hst by nia. unfold u32_ok in Bw, Bh, Bs.
  assert (0 ≤ y * width v) by nia.
  unfold transfer_and_flush, mul32, add32. rewrite bool_decide_eq_true_2 by lia. cbn [mbind option_bind]. rewrite bool_decide_eq_true_2 by lia. rewrite bind_or_panic.
  destruct (send_spec v (GpuTransferToHost2d x y w h ((y * width v + x) * 4) (resource_id v)) 24 b Hr) as (b1 & v1 & E1 & [R1 -> (ram & Hram & S1) M1 _]); [done|done|].
  rewrite (bind_ok _ _ _ _ _ E1). cbn [resource_id set_used].
  edestruct (send_spec _ (GpuResourceFlush x y w h (resource_id v)) 24 b1 R1) as (b2 & v2 & E2 & [R2 -> (ram2 & _ & S2) M2 _]); [done|done|].
  eexists b2, _. split; [exact E2|]. split; [exact R2|]. split; [by eexists|].
  assert (u64_ok ((y * width v + x) * 4)) as Ho by (unfold u64_ok; lia).
  rewrite (exec_valid _ _ _ _ (parse_transfer x y w h _ _ Hrect Ho Hid)) in S1
    by (cbn; unfold of_resource; rewrite Hres; cbn; by rewrite Hwithin).
  assert (resources (screen (bdev b1)) !! resource_id v = Some (transfer_pixels ram (mkRect x y w h) ((y * width v + x) * 4) (fb_resource v pxs))) as Hr1.
  { rewrite S1. cbn [resources run_cmd]. by rewrite lookup_alter_eq, Hres. }
  assert (scanouts (screen (bdev b1)) !! 0 = Some (resource_id v, mkRect 0 0 (width v) (height v))) as Hs1 by (by rewrite S1).
  rewrite (exec_valid _ _ _ _ (parse_flush x y w h _ Hrect Hid)) in S2 by (cbn; unfold of_resource; rewrite Hr1; cbn; by rewrite Hwithin).
  split; [|split].
  - rewrite S2. split; [exact Hs1|]. eexists. exact Hr1.
  - intros a Ha. rewrite M2 by done. by apply M1.
  - intros px py. rewrite S2. cbn [shown run_cmd]. unfold flush_pixels. rewrite Hs1, Hr1. rewrite bool_decide_eq_true_2 by done. cbn [andb rw rh rx ry]. rewrite !Z.add_0_l.
    replace (shown (screen (bdev b1)) 0 px py) with (shown (screen (bdev b)) 0 px py) by (by rewrite S1).
    destruct (inside x y w h px py) eqn:Ein; [|by rewrite andb_false_r]. pose proof Ein as Ein'. unfold inside in Ein'. rewrite !andb_true_iff, !Z.leb_le, !Z.ltb_lt in Ein'.
    assert (inside 0 0 (width v) (height v) px py = true) as -> by (unfold inside; rewrite !andb_true_iff, !Z.leb_le, !Z.ltb_lt; lia).
    cbn [andb]. rewrite <- (pixel_ext ram (bram b) v px py) by (done || lia). rewrite <- (transfer_colour ram x y w h v pxs px py Hf Hin Ein). done.
Qed.

Lemma attach_spec v fb n b : gpu_ready b v →
  ∃ b' v', resource_attach_backing 1 fb n v b = (Ok v', b') ∧ gpu_done b v (GpuResourceAttachBacking 1 1 ++ GpuMemEntry fb n) 24 b' v'.
Proof.
  intros Hr. unfold resource_attach_backing, poke. rewrite !(bind_on_bmach (modify _) _ _ tt _ eq_refl). cbn [bmach bdev mem set_mem]. change (mem (bmach b)) with (bram b).
  pose proof (poke_cmd_ready v 0 (GpuResourceAttachBacking 1 1) b Hr ltac:(lia) ltac:(cbn; lia)) as Hr1. rewrite Z.add_0_r in Hr1.
  pose proof (poke_cmd_ready v 32 (GpuMemEntry fb n) _ Hr1 ltac:(lia) ltac:(cbn; lia)) as Hr2. unfold bram in Hr2 at 1. cbn [bmach bdev mem set_mem] in Hr2.
  set (b2 := mkBoard _ _) in Hr2 |- *. destruct (submit_cmd_spec v (32 + 16) 24 b2 Hr2) as (b' & v' & E & Hd); [lia|lia|]. exists b', v'. split; [exact E|].
  eapply gpu_done_before; [| |replace (GpuResourceAttachBacking 1 1 ++ _) with (rd_bytes (bram b2) (cmd_phys v) (Z.to_nat (32 + 16))); [exact Hd|]]; [done| |].
  - intros x Hx. unfold b2, bram. cbn [bmach mem set_mem]. rewrite (poke_cmd_elsewhere v 32) by (done || (cbn; lia)).
    pose proof (poke_cmd_elsewhere v 0 (GpuResourceAttachBacking 1 1) (bram b) x ltac:(lia) ltac:(cbn; lia) Hx) as E1. by rewrite Z.add_0_r in E1.
  - unfold b2, bram. cbn [bmach mem set_mem]. change (Z.to_nat (32 + 16)) with (32 + 16)%nat. rewrite rd_bytes_split. change (Z.of_nat 32) with 32. f_equal.
    + rewrite rd_wr_apart by lia. by apply rd_wr_same.
    + by apply rd_wr_same.
Qed.

Lemma put_on_screen_spec v b : gpu_ready b v → fb_ok v → resource_id v = 1 → screen_new (screen (bdev b)) v →
  ∃ b' v', put_on_screen v b = (Ok v', b') ∧ gpu_ready b' v' ∧ (∃ u, v' = set_used u v) ∧ screen_ok (screen (bdev b')) v' ∧
    ∀ a, elsewhere v a → bram b' a = bram b a.
Proof.
  intros Hr Hf Hid (Hout & Hnone & Hroom). destruct (fb_bounds v Hf) as (Bw & Bh & Bs). pose proof (fb_addr v Hf) as Hfa. assert (u32_ok 1) as H1 by done.
  assert (u32_ok VIRTIO_GPU_FORMAT_B8G8R8X8_UNORM) as H2 by done. assert (u32_ok 0) as H3 by done. destruct (fb_size v Hf) as (Hw & Hh & _).
  unfold put_on_screen, resource_create_2d.
  destruct (send_spec v (GpuResourceCreate2d 1 VIRTIO_GPU_FORMAT_B8G8R8X8_UNORM (width v) (height v)) 24 b Hr) as (b1 & v1 & E1 & [R1 -> (? & _ & S1) M1 _]); [done|done|].
  rewrite (bind_ok _ _ _ _ _ E1). cbn [width height fb_phys set_used]. unfold mul32.
  rewrite bool_decide_eq_true_2 by (unfold u32_ok in Bs; nia). cbn [mbind option_bind]. rewrite bool_decide_eq_true_2 by (unfold u32_ok in Bs; lia). rewrite bind_or_panic.
  destruct (attach_spec _ (fb_phys v) (width v * height v * 4) b1 R1) as (b2 & v2 & E2 & [R2 -> (? & _ & S2) M2 _]).
  rewrite (bind_ok _ _ _ _ _ E2). cbn [width height set_used]. unfold set_scanout.
  edestruct (send_spec _ (GpuSetScanout 0 0 (width v) (height v) 0 1) 24 b2 R2) as (b3 & v3 & E3 & [R3 -> (? & _ & S3) M3 _]); [done|done|].
  eexists b3, _. split; [exact E3|]. split; [exact R3|]. split; [by eexists|]. split.
  - rewrite (exec_valid _ _ _ _ (parse_create _ _ _ _ H1 H2 Bw Bh)) in S1
      by (cbn; rewrite Hnone, (proj2 (Z.leb_gt (width v) 0)), (proj2 (Z.leb_gt (height v) 0)), (proj2 (Z.ltb_ge _ _)) by lia; done).
    rewrite (exec_valid _ _ _ _ (parse_attach _ _ _ H1 Hfa Bs)) in S2 by (cbn; unfold of_resource; rewrite S1; cbn; by rewrite lookup_insert_eq).
    rewrite (exec_valid _ _ _ _ (parse_scanout 0 0 (width v) (height v) 0 1 (conj H3 (conj H3 (conj Bw Bh))) H3 H1)) in S3.
    { rewrite S3, S2, S1. unfold screen_ok. cbn. rewrite Hid, lookup_insert_eq, lookup_alter_eq, lookup_insert_eq. split; [done|]. by eexists. }
    cbn. rewrite S2, S1. cbn. rewrite (proj2 (Z.leb_gt (outputs _) 0)) by lia. unfold of_resource. cbn. rewrite lookup_alter_eq, lookup_insert_eq. cbn.
    unfold within. cbn. rewrite (proj2 (Z.leb_gt (width v) 0)), (proj2 (Z.leb_gt (height v) 0)), !(proj2 (Z.leb_le _ _)) by lia. done.
  - intros a Ha. rewrite M3, M2 by done. by apply M1.
Qed.

Lemma gpu_ready_draw b b' v : gpu_ready b v → bdev b' = bdev b → (∀ x, ¬ elsewhere v x → bram b' x = bram b x) → gpu_ready b' v.
Proof.
  intros [Ea Hap Hq Hw Hav Hu Hi] Ed Hm. rewrite <- Ed in *. split; try done.
  - rewrite <- Hav. unfold avail_idx, l_avail, glayout. cbn [p_queue]. f_equal. apply rd_bytes_ext. intros x Hx. apply Hm. rewrite elsewhere_pages. lia.
  - rewrite <- Hu. unfold used_idx, glayout. cbn [p_used]. f_equal. apply rd_bytes_ext. intros x Hx. apply Hm. rewrite elsewhere_pages. lia.
Qed.

(** A drawing program writes to memory, but not to the driver's pages. *)
Definition draws (v : VirtioGpu) (b b' : Board D) : Prop := bdev b' = bdev b ∧ ∀ x, ¬ elsewhere v x → bram b' x = bram b x.

(** C32. The screen shows the framebuffer: once the driver has set the display up, on a
    device with an output, no resource 1 yet and room for the picture, and
    whatever has been drawn since, [flush_all] makes every pixel of the first output
    the colour at its place in the framebuffer (the bytes blue, green, red at
    [fb_phys + 4 * (py * width + px)]), and leaves that memory alone; the driver is
    ready for the next flush.  The device carries out a command only if its output,
    resource, rectangle, format and backing are valid. *)
Theorem display_shows_framebuffer v b : gpu_ready b v → fb_ok v → resource_id v = 1 → screen_new (screen (bdev b)) v →
  ∃ b1 v1, put_on_screen v b = (Ok v1, b1) ∧ ∀ b2, draws v b1 b2 →
    ∃ s3 v3, flush_all (mkGpuSt b2 (Some v1)) = (Ok tt, s3) ∧ GPU_DEV s3 = Some v3 ∧ gpu_ready (gboard s3) v3 ∧
      ∀ px py, 0 ≤ px < width v → 0 ≤ py < height v →
        let a := fb_phys v + 4 * (py * width v + px) in
        shown (screen (bdev (gboard s3))) 0 px py = (bram b2 (a + 2), bram b2 (a + 1), bram b2 a) ∧
        pixel_at (bram (gboard s3)) v px py = pixel_at (bram b2) v px py.
Proof.
  intros Hr Hf Hid Hn. destruct (put_on_screen_spec v b Hr Hf Hid Hn) as (b1 & v1 & E & Hr1 & [u ->] & Hs & _). eexists b1, _. split; [exact E|].
  intros b2 [Ed Hm]. assert (gpu_ready b2 (set_used u v)) as Hr2 by (by apply (gpu_ready_draw b1)).
  assert (in_fb v 0 0 (width v) (height v)) as Hin by (destruct (fb_size v Hf); unfold in_fb; lia).
  destruct (transfer_and_flush_spec 0 0 (width v) (height v) (set_used u v) b2 Hr2) as (b3 & v3 & E3 & Hr3 & _ & _ & Hmem & Hpx);
    [by apply fb_ok_used|by rewrite Ed|done|].
  exists (mkGpuSt b3 (Some v3)), v3. split; [|split; [done|split; [done|]]].
  - unfold flush_all, with_gpu, bind, gets, on_gboard. cbn. rewrite E3. done.
  - intros px py Hx Hy a. split; [|by apply pixel_ext]. cbn [gboard]. rewrite Hpx. unfold inside.
    rewrite (proj2 (Z.leb_le 0 px)), (proj2 (Z.ltb_lt px _)), (proj2 (Z.leb_le 0 py)), (proj2 (Z.ltb_lt py _)) by lia. done.
Qed.

(** Flushing a rectangle brings exactly its pixels up to date. *)
Theorem flush_rect_exact x y w h v b : gpu_ready b v → fb_ok v → screen_ok (screen (bdev b)) v → in_fb v x y w h →
  ∃ s' v', flush_rect x y w h (mkGpuSt b (Some v)) = (Ok tt, s') ∧ GPU_DEV s' = Some v' ∧ gpu_ready (gboard s') v' ∧
    ∀ px py, shown (screen (bdev (gboard s'))) 0 px py = if inside x y w h px py then pixel_at (bram b) v px py else shown (screen (bdev b)) 0 px py.
Proof.
  intros Hr Hf Hs Hin. destruct (transfer_and_flush_spec x y w h v b Hr Hf Hs Hin) as (b' & v' & E & Hr' & _ & _ & _ & Hpx).
  exists (mkGpuSt b' (Some v')), v'. split; [|done]. unfold flush_rect, with_gpu, bind, gets, on_gboard. cbn. by rewrite E.
Qed.
End Send.

(** ** A device *)

Record RamGpu := mkRamGpu { rg_screen : Screen; rg_queue : option Layout; rg_seen : Z }.

(** The command at the head of the chain that starts at descriptor [head]. *)
Definition rg_command (f : Z → Z) (l : Layout) (head : Z) : list Z :=
  rd_bytes f (field f (p_queue l + 16 * head) 8) (Z.to_nat (field f (p_queue l + 16 * head + 8) 4)).

Definition rg_answer (s : Screen) (l : Layout) (head : Z) (f : Z → Z) : Z → Z :=
  let next := field f (p_queue l + 16 * head + 14) 2 in
  let idx := used_idx f l in
  let g := wr_bytes f (field f (p_queue l + 16 * next) 8) (response (rg_command f l head) s (field f (p_queue l + 16 * next + 8) 4)) in
  let g := wr_bytes g (p_used l + 4 + 8 * (idx mod QUEUE_SIZE)) (to_le 4 head ++ to_le 4 24) in
  wr_bytes g (p_used l + 2) (to_le 2 ((idx + 1) mod 2 ^ 16)).

Definition rg_bell (b : Board RamGpu) : Board RamGpu :=
  let d := bdev b in
  match rg_queue d with
  | Some l =>
      if avail_idx (bram b) l =? rg_seen d then b
      else
        let head := field (bram b) (l_avail l + 4 + 2 * (rg_seen d mod QUEUE_SIZE)) 2 in
        mkBoard (set_mem (rg_answer (rg_screen d) l head (bram b)) (bmach b))
          (mkRamGpu (exec_cmd (bram b) (rg_command (bram b) l head) (rg_screen d)) (rg_queue d) ((rg_seen d + 1) mod 2 ^ 16))
  | None => b
  end.

#[export] Instance RamGpu_mmio : MmioDevice RamGpu := {
  mmio_read8 _ := ret 0;
  mmio_read32 _ := ret 0;
  mmio_read64 _ := ret 0;
  mmio_write32 a _ := if a =? VIRTIO_MMIO_BASE + QUEUE_NOTIFY then modify rg_bell else ret tt;
  device_runs b := b }.

Lemma desc_len f a x len fl nx : rd_bytes f a 16 = desc_bytes x len fl nx → 0 ≤ len < 2 ^ 32 → field f (a + 8) 4 = len.
Proof.
  intros E Hx. change (a + 8) with (a + Z.of_nat 8). unfold field. rewrite <- (take_rd_bytes _ _ 4 8) by lia.
  pose proof (field_suffix f a 8 8 _ E) as E8. unfold field in E8.
  assert (rd_bytes f (a + Z.of_nat 8) 8 = drop 8 (desc_bytes x len fl nx)) as ->.
  { rewrite <- E. change 16%nat with (8 + 8)%nat. rewrite rd_bytes_split. by rewrite drop_app_length' by (by rewrite length_rd_bytes). }
  unfold desc_bytes. rewrite drop_app_length', take_app_length' by (by rewrite length_to_le). by apply from_to_small.
Qed.

Lemma gposted_chain f l n len rlen : gposted f l n len rlen → apart l → 0 ≤ len ≤ 4096 → 0 ≤ rlen ≤ 4096 →
  field f (l_avail l + 4 + 2 * (n mod QUEUE_SIZE)) 2 = 0 ∧ rg_command f l 0 = rd_bytes f (p_req l) (Z.to_nat len) ∧
  field f (p_queue l + 16 * 0 + 14) 2 = 1 ∧ field f (p_queue l + 16 * 1) 8 = p_data l ∧ field f (p_queue l + 16 * 1 + 8) 4 = rlen.
Proof.
  intros [H0 H1 Hr _] Ha Hl Hrl. destruct (apart_pages l Ha) as (q & u & r & d & Eq & Eu & Er & Ed & Hall).
  unfold rg_command. rewrite Z.mul_0_r, Z.add_0_r. split_and!.
  - unfold field. by rewrite Hr.
  - rewrite (desc_addr _ _ _ _ _ _ H0), (desc_len _ _ _ _ _ _ H0) by lia. done.
  - by apply (desc_next _ _ _ _ _ _ H0).
  - apply (desc_addr _ _ _ _ _ _ H1). lia.
  - apply (desc_len _ _ _ _ _ _ H1). lia.
Qed.

Lemma length_response cmd s n : 0 ≤ n ≤ 4096 → Z.of_nat (length (response cmd s n)) ≤ 4096.
Proof. intros Hn. unfold response. rewrite length_take. lia. Qed.

Lemma rg_answered s l f n len rlen : gposted f l n len rlen → apart l → 0 ≤ len ≤ 4096 → 0 ≤ rlen ≤ 4096 →
  ganswered f (rg_answer s l 0 f) l (response (rd_bytes f (p_req l) (Z.to_nat len)) s rlen).
Proof.
  intros Hp Ha Hl Hrl. destruct (gposted_chain f l n len rlen Hp Ha Hl Hrl) as (_ & E1 & E2 & E3 & E4).
  destruct (apart_pages l Ha) as (q & u & r & dd & Eq & Eu & Er & Ed & Hall).
  pose proof (length_response (rd_bytes f (p_req l) (Z.to_nat len)) s rlen Hrl) as Hx.
  unfold rg_answer. rewrite E2, E3, E4, E1. cbv zeta. set (x := response _ _ _) in *. clearbody x.
  pose proof (Z.mod_pos_bound (used_idx f l) QUEUE_SIZE eq_refl) as Hk. change QUEUE_SIZE with 16 in *. set (k := used_idx f l mod 16) in *. clearbody k.
  assert (length (to_le 4 0 ++ to_le 4 24) = 8%nat) as H8 by done. set (e := to_le 4 0 ++ to_le 4 24) in *. clearbody e.
  split; unfold used_idx in *.
  - rewrite !rd_wr_apart by (rewrite ?length_to_le, ?H8; lia). by apply rd_wr_same.
  - rewrite rd_wr_same by apply length_to_le. apply from_to_small. pose proof (Z.mod_pos_bound (from_le (rd_bytes f (p_used l + 2) 2) + 1) (2 ^ 16) ltac:(lia)). cbn. lia.
  - intros y H1 H2. rewrite !wr_bytes_out by (rewrite ?length_to_le, ?H8; lia). done.
Qed.

#[local] Obligation Tactic := idtac.

#[export] Program Instance RamGpu_dev : VirtioGpuDev RamGpu := {
  screen := rg_screen;
  gwindow _ := VIRTIO_MMIO_BASE;
  gqueue := rg_queue;
  gseen := rg_seen;
  glatency := 0 }.
Next Obligation. done. Qed.
Next Obligation.
  intros b l len rlen Hq Ha Hc Hl Hrl Hp. cbv beta in *. exists (rg_bell b), 0%nat.
  split; [done|]. split; [done|]. split; [lia|]. cbv zeta. cbn [Nat.iter nat_rect].
  pose proof (gp_idx _ _ _ _ _ Hp) as Hi.
  assert (avail_idx (bram b) l ≠ rg_seen (bdev b)) as Hne.
  { rewrite Hi. pose proof (Z.div_mod (rg_seen (bdev b) + 1) (2 ^ 16) ltac:(lia)). lia. }
  destruct (gposted_chain _ _ _ _ _ Hp Ha Hl Hrl) as (E0 & Ec & _).
  unfold rg_bell. rewrite Hq, (proj2 (Z.eqb_neq _ _) Hne), E0. cbn. split; [by apply (rg_answered _ _ _ (rg_seen (bdev b)))|]. by rewrite Ec.
Qed.
Next Obligation. intros b m Hm. exists (bdev b). split; [|done]. unfold ack_interrupt, read32, write32. rewrite Hm. by destruct b. Qed.

(** A display of two by two pixels, the framebuffer in page 5. *)
Definition demo_gpu : VirtioGpu := mkGpu (mkMmio VIRTIO_MMIO_BASE 2) 0x1000 0x1100 0x2000 0 0 0x3000 0x4000 0x5000 2 2 1.
Definition demo_gboard : Board RamGpu :=
  mkBoard (mkMach (Pmm.mkPmm [] 0 0) (λ _, 0)) (mkRamGpu (mkScreen 1 (2, 2) 4096 ∅ ∅ (λ _ _ _, (0, 0, 0))) (Some demo_layout) 0).

Lemma demo_gpu_ready : gpu_ready demo_gboard demo_gpu.
Proof.
  split; try done. split; [apply (bool_decide_unpack _); vm_compute; exact I|].
  unfold pages. cbn. rewrite !Forall_cons. split_and!; try lia. constructor.
Qed.
Lemma demo_fb_ok : fb_ok demo_gpu.
Proof. split; [done|done|cbn; lia|]. intros x Hx. rewrite elsewhere_pages. cbn in *. lia. Qed.

Lemma demo_screen_new : screen_new (screen (bdev demo_gboard)) demo_gpu.
Proof. done. Qed.

(** The pixel at (1, 1) is drawn in red 9, green 8, blue 7, then shown. *)
Lemma display_shows_framebuffer_witness : ∃ b1 v1 s3, put_on_screen demo_gpu demo_gboard = (Ok v1, b1) ∧
  flush_all (mkGpuSt (mkBoard (set_mem (wr_bytes (bram b1) 0x500C [7; 8; 9; 0]) (bmach b1)) (bdev b1)) (Some v1)) = (Ok tt, s3) ∧
  shown (screen (bdev (gboard s3))) 0 1 1 = (9, 8, 7).
Proof.
  destruct (display_shows_framebuffer demo_gpu demo_gboard demo_gpu_ready demo_fb_ok eq_refl demo_screen_new) as (b1 & v1 & E & H).
  destruct (H (mkBoard (set_mem (wr_bytes (bram b1) 0x500C [7; 8; 9; 0]) (bmach b1)) (bdev b1))) as (s3 & v3 & E3 & _ & _ & Hpx).
  { split; [done|]. intros x Hx. apply wr_bytes_out. rewrite elsewhere_pages in Hx. cbn in *. lia. }
  exists b1, v1, s3. split; [exact E|]. split; [exact E3|]. destruct (Hpx 1 1) as [-> _]; [cbn; lia|cbn; lia|]. vm_compute. reflexivity.
Defined.

Definition demo_screen : Screen :=
  mkScreen 1 (2, 2) 4096 {[1 := mkRes 2 2 2 [(0x5000, 16)] (λ _ _, [0; 0; 0; 0])]} {[0 := (1, mkRect 0 0 2 2)]} (λ _ _ _, (1, 1, 1)).
Definition demo_shown : Board RamGpu := mkBoard (bmach demo_gboard) (mkRamGpu demo_screen (Some demo_layout) 0).

Lemma flush_rect_exact_witness : ∃ s', flush_rect 1 0 1 1 (mkGpuSt demo_shown (Some demo_gpu)) = (Ok tt, s') ∧
  shown (screen (bdev (gboard s'))) 0 1 0 = (0, 0, 0) ∧ shown (screen (bdev (gboard s'))) 0 0 0 = (1, 1, 1).
Proof.
  destruct (flush_rect_exact 1 0 1 1 demo_gpu demo_shown) as (s' & v' & E & _ & _ & Hpx).
  - destruct demo_gpu_ready. by split.
  - exact demo_fb_ok.
  - split; [done|]. by eexists.
  - unfold in_fb. cbn. lia.
  - exists s'. split; [exact E|]. rewrite (Hpx 1 0), (Hpx 0 0). split; vm_compute; reflexivity.
Defined.

(** ** Where the driver relies on luck *)

(** Once the driver has given up on one answer its count is ahead of the device's:
    from then on it does not wait at all. *)
Lemma out_of_step `{MmioDevice D} v n (b : Board D) : used_idx (bram b) (glayout v) ≠ last_used v →
  wait_used (S n) (g_used v) (last_used v) b = (Ok tt, b).
Proof.
  intros Hu. cbn [wait_used]. unfold peek. rewrite (bind_on_bmach (gets _) _ _ _ _ eq_refl).
  unfold used_idx, glayout, bram in Hu. cbn [p_used] in Hu. rewrite (proj2 (Z.eqb_neq _ _) Hu). by destruct b.
Qed.

(** Pages 1 and 3 are free, page 2 is in use: the framebuffer of two pages is taken
    to be pages 1 and 2. *)
Lemma framebuffer_over_used_page : let b := mkBoard (mkMach (Pmm.mkPmm [2 ^ 64 - 1 - 2 - 8] 64 2) (λ _, 0)) (bdev demo_gboard) in
  (alloc_contiguous 2 b).1 = Ok 4096 ∧ mpmm (bmach (alloc_contiguous 2 b).2) = Pmm.mkPmm [2 ^ 64 - 1] 64 0.
Proof. split; vm_compute; reflexivity. Qed.
