(* ===== verification/Drm.v ===== *)
(** * Frame buffer and DRM device ([drivers/framebuffer.rs], [drivers/drm.rs])

    The boot loader's frame buffer and the mode-setting interface: dumb buffers,
    frame buffer ids, page flips and their events.  User structures are read and
    written through the user's pointers unchecked ([RawAccess]); kernel pointers are
    written at their physical address.  [heap] is the allocator's answer to a
    request for that many bytes.  Page flips go on to the graphics driver ([Gpu]),
    whose state holds the machine. *)

From S2P Require Import Prelude.
From S2P Require Import Path.
From S2P Require Import Paging.
From S2P Require Import Input.
From S2P Require Import FileOps.
From S2P Require Import Irq.
From S2P Require Import Block.
From S2P Require Import Gpu.

(** ** State *)

Record FramebufferInfo := mkInfo { fb_address : Z; fb_width : Z; fb_height : Z; fb_pitch : Z; fb_bpp : Z; fb_bytes : Z }.

Record DumbBuffer := mkDumb { d_handle : Z; d_phys : Z; d_size : Z; d_width : Z; d_height : Z; d_pitch : Z }.

Record DrmSt (D : Type) := mkDrm {
  gpu : Gpu D; FB : option FramebufferInfo; DUMB_BUFFERS : gmap Z DumbBuffer; NEXT_HANDLE : Z;
  FB_MAP : gmap Z Z; NEXT_FB_ID : Z; DRM_EVENTS : list (list Z); VBLANK_SEQ : Z; FLIP_SEQ : Z; SEQ : Z }.
Arguments mkDrm {D} _ _ _ _ _ _ _ _ _ _.
Arguments gpu {D} _.
Arguments FB {D} _.
Arguments DUMB_BUFFERS {D} _.
Arguments NEXT_HANDLE {D} _.
Arguments FB_MAP {D} _.
Arguments NEXT_FB_ID {D} _.
Arguments DRM_EVENTS {D} _.
Arguments VBLANK_SEQ {D} _.
Arguments FLIP_SEQ {D} _.
Arguments SEQ {D} _.

Section Fields.
Context {D : Type}.
Definition set_gpu (x : Gpu D) (s : DrmSt D) : DrmSt D :=
  mkDrm x (FB s) (DUMB_BUFFERS s) (NEXT_HANDLE s) (FB_MAP s) (NEXT_FB_ID s) (DRM_EVENTS s) (VBLANK_SEQ s) (FLIP_SEQ s) (SEQ s).
Definition set_info (x : option FramebufferInfo) (s : DrmSt D) : DrmSt D :=
  mkDrm (gpu s) x (DUMB_BUFFERS s) (NEXT_HANDLE s) (FB_MAP s) (NEXT_FB_ID s) (DRM_EVENTS s) (VBLANK_SEQ s) (FLIP_SEQ s) (SEQ s).
Definition set_bufs (x : gmap Z DumbBuffer) (n : Z) (s : DrmSt D) : DrmSt D :=
  mkDrm (gpu s) (FB s) x n (FB_MAP s) (NEXT_FB_ID s) (DRM_EVENTS s) (VBLANK_SEQ s) (FLIP_SEQ s) (SEQ s).
Definition set_fbs (x : gmap Z Z) (n : Z) (s : DrmSt D) : DrmSt D :=
  mkDrm (gpu s) (FB s) (DUMB_BUFFERS s) (NEXT_HANDLE s) x n (DRM_EVENTS s) (VBLANK_SEQ s) (FLIP_SEQ s) (SEQ s).
Definition set_events (x : list (list Z)) (s : DrmSt D) : DrmSt D :=
  mkDrm (gpu s) (FB s) (DUMB_BUFFERS s) (NEXT_HANDLE s) (FB_MAP s) (NEXT_FB_ID s) x (VBLANK_SEQ s) (FLIP_SEQ s) (SEQ s).
Definition set_seqs (v f q : Z) (s : DrmSt D) : DrmSt D :=
  mkDrm (gpu s) (FB s) (DUMB_BUFFERS s) (NEXT_HANDLE s) (FB_MAP s) (NEXT_FB_ID s) (DRM_EVENTS s) v f q.
End Fields.

(** [AtomicU32::fetch_add(1)] *)
Definition next32 (n : Z) : Z := (n + 1) mod 2 ^ 32.

Section Drm.
Context {D : Type} `{MmioDevice D, RawAccess} (hhdm : Z) (heap : Z → option Z).
Local Abbreviation MD := (M (DrmSt D)).

Definition on_gpu {A} (m : M (Gpu D) A) : MD A := λ s, let '(r, x) := m (gpu s) in (r, set_gpu x s).
Definition on_ram {A} (m : M Mach A) : MD A := on_gpu (on_gboard (on_bmach m)).

(** [*(p as *const u32)], [*(p as *mut u32) = v], and so on, through a user pointer. *)
Definition load (a : Z) (n : nat) : MD Z := let! b := on_ram (raw_load a n) in ret (from_le b).
Definition store (a : Z) (n : nat) (v : Z) : MD () := on_ram (raw_store a (to_le n v)).
(** The same at an offset from a pointer; the sum must not overflow. *)
Definition load_at (p off : Z) (n : nat) : MD Z := let! a := or_panic (add64 p off) in load a n.
Definition store_at (p off : Z) (n : nat) (v : Z) : MD () := let! a := or_panic (add64 p off) in store a n v.
(** [copy_nonoverlapping] between kernel addresses, given as physical ones. *)
Definition copy_ram (src dst : Z) (n : Z) : MD () :=
  on_ram (modify (λ m, set_mem (wr_bytes (mem m) dst (rd_bytes (mem m) src (Z.to_nat n))) m)).

(** ** The boot loader's frame buffer *)

(** [fbs]: the boot loader's answer, if any. *)
Definition fb_init (fbs : option (list FramebufferInfo)) : MD () :=
  match fbs with
  | Some (info :: _) =>
      let! pixels := or_panic (mul64 (fb_pitch info / 4) (fb_height info)) in
      for_each (seqZ 0 pixels) (λ i, on_ram (modify (λ m, set_mem (wr_bytes (mem m) (fb_address info - hhdm + 4 * i) (to_le 4 0x002244)) m))) ;;;
      modify (set_info (Some info))
  | _ => ret tt
  end.

Definition get_info : MD (option FramebufferInfo) := gets FB.

Definition write_pixels (offset : Z) (data : list Z) : MD Z :=
  let! o := gets FB in
  match o with
  | Some info =>
      let len := Z.min (Z.of_nat (length data)) (saturating_sub (fb_bytes info) offset) in
      when (0 <? len) (on_ram (modify (λ m, set_mem (wr_bytes (mem m) (fb_address info + offset - hhdm) (take (Z.to_nat len) data)) m))) ;;;
      ret len
  | None => ret 0
  end.

Definition mmap_framebuffer : MD (option (Z * Z)) := gets (λ s, (λ i, (fb_address i, fb_bytes i)) <$> FB s).

(** ** Events *)

Definition vblank_event (seq : Z) : list Z := to_le 4 1 ++ to_le 4 32 ++ replicate 8 0 ++ to_le 4 seq ++ replicate 12 0.
Definition flip_event (user_data seq : Z) : list Z := to_le 4 2 ++ to_le 4 32 ++ to_le 8 user_data ++ to_le 4 seq ++ replicate 12 0.

Definition vblank_tick : MD () :=
  let! s := get in
  match DRM_EVENTS s with
  | [] => put (set_events [vblank_event (VBLANK_SEQ s)] (set_seqs (next32 (VBLANK_SEQ s)) (FLIP_SEQ s) (SEQ s) s))
  | _ :: _ => ret tt
  end.

(** The loop takes one event a turn and ends with the queue. *)
Fixpoint read_events_loop (queue : list (list Z)) (buf count written : Z) : MD Z :=
  if written + 32 <=? count then
    match queue with
    | ev :: queue' =>
        modify (set_events queue') ;;;
        (let! a := or_panic (add64 buf written) in on_ram (raw_store a ev)) ;;;
        read_events_loop queue' buf count (written + 32)
    | [] => ret written
    end
  else ret written.
Definition read_events (buf count : Z) : MD Z := let! q := gets DRM_EVENTS in read_events_loop q buf count 0.
Definition has_events : MD bool := gets (λ s, negb (bool_decide (DRM_EVENTS s = []))).

(** ** Buffers *)

Fixpoint find_phys (l : list DumbBuffer) (offset : Z) : option (Z * Z) :=
  match l with
  | [] => None
  | b :: l' => if d_phys b =? offset then Some (d_phys b, d_size b) else find_phys l' offset
  end.
Definition get_dumb_phys (offset : Z) : MD (option (Z * Z)) := gets (λ s, find_phys (bvalues (DUMB_BUFFERS s)) offset).

(** Rows of [n] bytes from one picture to another. *)
Definition copy_rows (rows : Z) (src : Z → Z) (dst : Z) (dst_pitch n : Z) : MD () :=
  for_each (seqZ 0 rows) (λ row, copy_ram (src row) (dst + row * dst_pitch) n).

Definition blit_to_gpu (db : DumbBuffer) (info : Z * Z * Z) : MD () :=
  let '(gpu_fb_phys, gpu_w, gpu_h) := info in
  copy_rows (Z.min (d_height db) gpu_h) (λ row, d_phys db + row * d_pitch db) gpu_fb_phys (gpu_w * 4) (Z.min (d_width db) gpu_w * 4).

Definition blit_buffer_to_display (db : DumbBuffer) : MD () :=
  let! o := get_info in
  match o with
  | Some fb =>
      copy_rows (Z.min (d_height db) (fb_height fb)) (λ row, d_phys db + row * d_pitch db) (fb_address fb - hhdm) (fb_pitch fb)
        (Z.min (d_pitch db) (fb_pitch fb))
  | None => ret tt
  end ;;;
  let! i := gets (λ s, framebuffer_info (gpu s)) in
  match i with Some info => blit_to_gpu db info | None => ret tt end.

Definition fb_id_to_handle (fb_id : Z) : MD (option Z) := gets (λ s, FB_MAP s !! fb_id).

(** ** Requests *)

Definition DRM_IOCTL_WAIT_VBLANK : Z := 0xC01C643F.
Definition DRM_IOCTL_VERSION : Z := 0xC0406400.
Definition DRM_IOCTL_GET_CAP : Z := 0xC010640C.
Definition DRM_IOCTL_SET_CLIENT_CAP : Z := 0x4010640D.
Definition DRM_IOCTL_MODE_GETRESOURCES : Z := 0xC04064A0.
Definition DRM_IOCTL_MODE_GETCRTC : Z := 0xC06864A1.
Definition DRM_IOCTL_MODE_SETCRTC : Z := 0xC06864A2.
Definition DRM_IOCTL_MODE_GETENCODER : Z := 0xC01464A6.
Definition DRM_IOCTL_MODE_GETCONNECTOR : Z := 0xC05064A7.
Definition DRM_IOCTL_MODE_GETPROPERTY : Z := 0xC04064AA.
Definition DRM_IOCTL_MODE_ADDFB : Z := 0xC01C64AE.
Definition DRM_IOCTL_MODE_ADDFB2 : Z := 0xC04464B8.
Definition DRM_IOCTL_MODE_RMFB : Z := 0xC00464AF.
Definition DRM_IOCTL_MODE_PAGE_FLIP : Z := 0xC01064B0.
Definition DRM_IOCTL_MODE_CREATE_DUMB : Z := 0xC02064B2.
Definition DRM_IOCTL_MODE_MAP_DUMB : Z := 0xC01064B3.
Definition DRM_IOCTL_MODE_DESTROY_DUMB : Z := 0xC00464B4.
Definition DRM_IOCTL_MODE_OBJ_GETPROPERTIES : Z := 0xC02064B9.
Definition DRM_IOCTL_MODE_ATOMIC : Z := 0xC04064BC.
Definition DRM_IOCTL_PRIME_HANDLE_TO_FD : Z := 0xC00C642D.
Definition DRM_IOCTL_PRIME_FD_TO_HANDLE : Z := 0xC00C642E.
Definition DRM_IOCTL_GEM_CLOSE : Z := 0x40086409.

(** A request whose argument is the address of a structure does nothing without it. *)
Definition with_arg (arg : Z) (m : MD ()) : MD Z := when (negb (arg =? 0)) m ;;; ret 0.

Definition drm_version (arg : Z) : MD () :=
  on_ram (raw_store arg (replicate 128 0)) ;;;
  store arg 4 1 ;;; store_at arg 4 4 0 ;;; store_at arg 8 4 0 ;;;
  store_at arg 16 8 6 ;;; store_at arg 32 8 10.

Definition cap_value (cap : Z) : Z :=
  if cap =? 0x1 then 1 else if cap =? 0x2 then 0 else if cap =? 0x3 then 1 else if cap =? 0x4 then 1 else if cap =? 0x6 then 0
  else if cap =? 0x10 then 1 else if cap =? 0x12 then 1 else if cap =? 0x13 then 1 else 0.
Definition drm_get_cap (arg : Z) : MD () := let! cap := load arg 8 in store_at arg 8 8 (cap_value cap).

Definition store_ids (ptr : Z) (ids : list Z) : MD () :=
  for_each (zip (seqZ 0 (Z.of_nat (length ids))) ids) (λ e, store (ptr + 4 * e.1) 4 e.2).

Definition mode_getresources (arg : Z) : MD () :=
  let! fb_ptr := load arg 8 in
  let! crtc_ptr := load_at arg 8 8 in
  let! conn_ptr := load_at arg 16 8 in
  let! enc_ptr := load_at arg 24 8 in
  let! fb_count := gets (λ s, Z.of_nat (size (FB_MAP s)) mod 2 ^ 32) in
  store_at arg 32 4 fb_count ;;; store_at arg 36 4 1 ;;; store_at arg 40 4 1 ;;; store_at arg 44 4 1 ;;;
  store_at arg 48 4 0 ;;; store_at arg 52 4 4096 ;;; store_at arg 56 4 0 ;;; store_at arg 60 4 4096 ;;;
  (let! ids := gets (λ s, bkeys (FB_MAP s)) in when (negb (fb_ptr =? 0)) (store_ids fb_ptr ids)) ;;;
  when (negb (crtc_ptr =? 0)) (store crtc_ptr 4 1) ;;;
  when (negb (conn_ptr =? 0)) (store conn_ptr 4 1) ;;;
  when (negb (enc_ptr =? 0)) (store enc_ptr 4 1).

Definition mode_getcrtc (arg : Z) : MD () :=
  let! o := get_info in
  match o with
  | Some fb =>
      store_at arg 8 4 1 ;;; store_at arg 12 4 0 ;;; store_at arg 16 4 0 ;;; store_at arg 32 4 60000 ;;;
      store_at arg 36 2 (fb_width fb) ;;; store_at arg 52 2 (fb_height fb) ;;; store_at arg 68 4 60
  | None => ret tt
  end.

(** [x as u16 + n] *)
Definition add16 (x n : Z) : option Z := let y := x mod 2 ^ 16 in if bool_decide (y + n < 2 ^ 16) then Some (y + n) else None.
Definition store_timing (p off x n : Z) : MD () := let! v := or_panic (add16 x n) in store_at p off 2 v.
Definition mode_name (fb : FramebufferInfo) : list Z := dec_digits 20 (fb_width fb) [] ++ [120] ++ dec_digits 20 (fb_height fb) [] ++ [0].

Definition store_mode (p : Z) (fb : FramebufferInfo) : MD () :=
  on_ram (raw_store p (replicate 68 0)) ;;;
  store p 4 60000 ;;;
  store_at p 4 2 (fb_width fb) ;;;
  store_timing p 6 (fb_width fb) 88 ;;; store_timing p 8 (fb_width fb) 132 ;;; store_timing p 10 (fb_width fb) 280 ;;;
  store_at p 14 2 (fb_height fb) ;;;
  store_timing p 16 (fb_height fb) 4 ;;; store_timing p 18 (fb_height fb) 9 ;;; store_timing p 20 (fb_height fb) 28 ;;;
  store_at p 24 4 60 ;;; store_at p 32 4 48 ;;;
  let! a := or_panic (add64 p 36) in on_ram (raw_store a (take 32 (mode_name fb))).

Definition mode_getconnector (arg : Z) : MD () :=
  let! modes_ptr := load_at arg 8 8 in
  for_each [(32, 1); (36, 0); (40, 1); (44, 1); (48, 1); (52, 11); (56, 1); (60, 1); (64, 0); (68, 0)] (λ e, store_at arg e.1 4 e.2) ;;;
  if modes_ptr =? 0 then ret tt else
  let! o := get_info in
  match o with Some fb => store_mode modes_ptr fb | None => ret tt end.

Definition mode_getencoder (arg : Z) : MD () := store_at arg 4 4 1 ;;; store_at arg 8 4 1 ;;; store_at arg 12 4 1.

(** Bytes of a row, a multiple of 64. *)
Definition pitch_of (w bpp : Z) : option Z :=
  n ← mul32 w ((if bpp =? 0 then 32 else bpp) / 8); n ← add32 n 63; Some (Z.land n (not32 63)).

Definition mode_create_dumb (arg : Z) : MD () :=
  let! h := load arg 4 in
  let! w := load_at arg 4 4 in
  let! bpp := load_at arg 8 4 in
  let! pitch := or_panic (pitch_of w bpp) in
  let bytes := h * pitch in
  let! virt_addr := or_panic (heap bytes) in
  let! phys_addr := or_panic (sub64 virt_addr hhdm) in
  on_ram (modify (λ m, set_mem (wr_bytes (mem m) phys_addr (replicate (Z.to_nat bytes) 0)) m)) ;;;
  let! s := get in
  let handle := NEXT_HANDLE s in
  put (set_bufs (<[handle := mkDumb handle phys_addr bytes w h pitch]> (DUMB_BUFFERS s)) (next32 handle) s) ;;;
  store_at arg 12 4 handle ;;; store_at arg 16 4 pitch ;;; store_at arg 20 8 bytes.

Definition mode_map_dumb (arg : Z) : MD () :=
  let! handle := load arg 4 in
  let! o := gets (λ s, DUMB_BUFFERS s !! handle) in
  match o with
  | Some db => store_at arg 8 8 (d_phys db)
  | None =>
      let! i := get_info in
      match i with
      | Some fb => store_at arg 8 8 (if hhdm <=? fb_address fb then fb_address fb - hhdm else fb_address fb)
      | None => ret tt
      end
  end.

Definition new_fb (handle : Z) : MD Z :=
  let! s := get in
  put (set_fbs (<[NEXT_FB_ID s := handle]> (FB_MAP s)) (next32 (NEXT_FB_ID s)) s) ;;; ret (NEXT_FB_ID s).
Definition mode_addfb (arg : Z) : MD () :=
  let! handle := load_at arg 20 4 in let! fb_id := new_fb handle in store_at arg 24 4 fb_id.
Definition mode_addfb2 (arg : Z) : MD () :=
  let! handle := load_at arg 20 4 in let! fb_id := new_fb handle in store arg 4 fb_id.
Definition mode_rmfb (arg : Z) : MD () :=
  let! fb_id := load arg 4 in modify (λ s, set_fbs (delete fb_id (FB_MAP s)) (NEXT_FB_ID s) s).

(** The flip itself: the picture, the event, the screen. *)
Definition flip (fb_id user_data : Z) : MD () :=
  let! o := fb_id_to_handle fb_id in
  match o with
  | Some handle =>
      let! b := gets (λ s, DUMB_BUFFERS s !! handle) in
      match b with Some db => blit_buffer_to_display db | None => ret tt end
  | None => ret tt
  end ;;;
  modify (λ s, set_events (DRM_EVENTS s ++ [flip_event user_data (FLIP_SEQ s)]) (set_seqs (VBLANK_SEQ s) (next32 (FLIP_SEQ s)) (SEQ s) s)) ;;;
  on_gpu flush_all.

Definition mode_page_flip (arg : Z) : MD () :=
  let! fb_id := load_at arg 4 4 in
  load_at arg 8 4 ;;;
  let! user_data := load_at arg 16 8 in
  flip fb_id user_data.

(** The buffer of a frame buffer id, or the one with that handle, or the first. *)
Definition crtc_buffer (fb_id : Z) (s : DrmSt D) : option DumbBuffer :=
  match DUMB_BUFFERS s !! default fb_id (FB_MAP s !! fb_id) with
  | Some db => Some db
  | None => head (bvalues (DUMB_BUFFERS s))
  end.

Definition show_on_crtc (fb : FramebufferInfo) (db : DumbBuffer) (src_x src_y : Z) : MD () :=
  copy_rows (Z.min (d_height db) (fb_height fb)) (λ row, d_phys db + ((src_y + row) * d_pitch db + src_x * 4))
    (fb_address fb - hhdm) (fb_pitch fb) (Z.min (d_pitch db) (fb_pitch fb)) ;;;
  let! i := gets (λ s, framebuffer_info (gpu s)) in
  match i with Some info => blit_to_gpu db info ;;; on_gpu flush_all | None => ret tt end.

Definition mode_setcrtc (arg : Z) : MD () :=
  let! fb_id := load_at arg 16 4 in
  let! src_x := load_at arg 20 4 in
  let! src_y := load_at arg 24 4 in
  let! o := get_info in
  match o with
  | None => ret tt
  | Some fb => let! b := gets (crtc_buffer fb_id) in match b with Some db => show_on_crtc fb db src_x src_y | None => ret tt end
  end.

Definition mode_destroy_dumb (arg : Z) : MD () :=
  let! handle := load arg 4 in modify (λ s, set_bufs (delete handle (DUMB_BUFFERS s)) (NEXT_HANDLE s) s).

Definition wait_vblank (arg : Z) : MD Z :=
  let! q := gets SEQ in
  modify (λ s, set_seqs (VBLANK_SEQ s) (FLIP_SEQ s) (next32 (SEQ s)) s) ;;;
  with_arg arg (store_at arg 4 4 q ;;; store_at arg 8 4 0 ;;; store_at arg 12 4 0).

Definition handle_ioctl (request arg : Z) : MD Z :=
  if request =? DRM_IOCTL_VERSION then with_arg arg (drm_version arg)
  else if request =? DRM_IOCTL_GET_CAP then with_arg arg (drm_get_cap arg)
  else if request =? DRM_IOCTL_SET_CLIENT_CAP then ret 0
  else if request =? DRM_IOCTL_MODE_GETRESOURCES then with_arg arg (mode_getresources arg)
  else if request =? DRM_IOCTL_MODE_GETCRTC then with_arg arg (mode_getcrtc arg)
  else if request =? DRM_IOCTL_MODE_GETCONNECTOR then with_arg arg (mode_getconnector arg)
  else if request =? DRM_IOCTL_MODE_GETENCODER then with_arg arg (mode_getencoder arg)
  else if request =? DRM_IOCTL_MODE_CREATE_DUMB then with_arg arg (mode_create_dumb arg)
  else if request =? DRM_IOCTL_MODE_MAP_DUMB then with_arg arg (mode_map_dumb arg)
  else if request =? DRM_IOCTL_MODE_ADDFB then with_arg arg (mode_addfb arg)
  else if request =? DRM_IOCTL_MODE_ADDFB2 then with_arg arg (mode_addfb2 arg)
  else if request =? DRM_IOCTL_MODE_RMFB then with_arg arg (mode_rmfb arg)
  else if request =? DRM_IOCTL_MODE_PAGE_FLIP then with_arg arg (mode_page_flip arg)
  else if request =? DRM_IOCTL_MODE_SETCRTC then with_arg arg (mode_setcrtc arg)
  else if request =? DRM_IOCTL_MODE_DESTROY_DUMB then with_arg arg (mode_destroy_dumb arg)
  else if request =? DRM_IOCTL_MODE_OBJ_GETPROPERTIES then ret 0
  else if request =? DRM_IOCTL_MODE_GETPROPERTY then ret 0
  else if request =? DRM_IOCTL_MODE_ATOMIC then fail EOPNOTSUPP
  else if request =? DRM_IOCTL_PRIME_HANDLE_TO_FD then fail EOPNOTSUPP
  else if request =? DRM_IOCTL_PRIME_FD_TO_HANDLE then fail EOPNOTSUPP
  else if request =? DRM_IOCTL_GEM_CLOSE then ret 0
  else if request =? DRM_IOCTL_WAIT_VBLANK then wait_vblank arg
  else fail ENOTTY.
End Drm.

(** ** Copying pictures *)

(** Row after row, in the order given. *)
Definition rows_copied (l : list Z) (src : Z → Z) (dst pitch n : Z) (f : Z → Z) : Z → Z :=
  foldl (λ f row, wr_bytes f (dst + row * pitch) (rd_bytes f (src row) (Z.to_nat n))) f l.

(** Sources outside the picture that is written: every byte of a row is copied, the
    rest is left alone. *)
Section Rows.
Context (N : Z) (src : Z → Z) (dst pitch n : Z) (Hn : 0 ≤ n ≤ pitch).
Definition in_picture (x : Z) : Prop := dst ≤ x < dst + N * pitch.
Context (Hsrc : ∀ row i, 0 ≤ row < N → 0 ≤ i < n → ¬ in_picture (src row + i)).

Lemma row_in_picture row i : 0 ≤ row < N → 0 ≤ i < n → in_picture (dst + row * pitch + i).
Proof using Hn. unfold in_picture. nia. Qed.

Lemma row_step g f row : 0 ≤ row < N → (∀ x, ¬ in_picture x → g x = f x) →
  let g' := wr_bytes g (dst + row * pitch) (rd_bytes g (src row) (Z.to_nat n)) in
  (∀ i, 0 ≤ i < n → g' (dst + row * pitch + i) = f (src row + i)) ∧ (∀ x, ¬ (dst + row * pitch ≤ x < dst + row * pitch + n) → g' x = g x).
Proof using Hn Hsrc.
  intros Hr Hg g'. split.
  - intros i Hi. unfold g', wr_bytes. rewrite length_rd_bytes, bool_decide_eq_true_2 by lia.
    replace (dst + row * pitch + i - (dst + row * pitch)) with i by lia. rewrite rd_bytes_lookup by lia. cbn. rewrite Z2Nat.id by lia. by apply Hg, Hsrc.
  - intros x Hx. apply wr_bytes_out. rewrite length_rd_bytes. lia.
Qed.

Lemma rows_copied_spec l : Forall (λ r, 0 ≤ r < N) l → ∀ f g, (∀ x, ¬ in_picture x → g x = f x) →
  let g' := rows_copied l src dst pitch n g in
  (∀ row i, row ∈ l → 0 ≤ i < n → g' (dst + row * pitch + i) = f (src row + i)) ∧
  (∀ x, (∀ row, row ∈ l → ¬ (dst + row * pitch ≤ x < dst + row * pitch + n)) → g' x = g x).
Proof using Hn Hsrc.
  induction 1 as [|r l Hr _ IH]; intros f g Hg; cbn [rows_copied foldl]; [split; [by intros ? ? ?%not_elem_of_nil|done]|].
  destruct (row_step g f r Hr Hg) as [H1 H2]. set (g1 := wr_bytes _ _ _) in *.
  destruct (IH f g1) as [I1 I2].
  { intros x Hx. rewrite H2; [by apply Hg|]. intros Hin. apply Hx. replace x with (dst + r * pitch + (x - (dst + r * pitch))) by lia. apply row_in_picture; lia. }
  fold (rows_copied l src dst pitch n g1). split.
  - intros row i Hin Hi. destruct (decide (row ∈ l)) as [Hl|Hl]; [by apply I1|]. apply elem_of_cons in Hin as [->|]; [|done].
    rewrite I2; [by apply H1|]. intros row Hl'. assert (row ≠ r) by (by intros ->). assert (0 ≤ pitch) by lia. intros Hc.
    destruct (Z.lt_total row r) as [|[]]; [|done|]; nia.
  - intros x Hx. rewrite I2 by (intros row Hl; apply Hx; by right). apply H2, Hx. by left.
Qed.

Lemma copied_all f : 0 ≤ N → let g := rows_copied (seqZ 0 N) src dst pitch n f in
  (∀ row i, 0 ≤ row < N → 0 ≤ i < n → g (dst + row * pitch + i) = f (src row + i)) ∧ (∀ x, ¬ in_picture x → g x = f x).
Proof using Hn Hsrc.
  intros HN. destruct (rows_copied_spec (seqZ 0 N)) with (f := f) (g := f) as [H1 H2]; [|done|].
  { apply Forall_forall. intros r Hr%elem_of_seqZ. lia. }
  split.
  - intros row i Hr Hi. apply H1; [apply elem_of_seqZ; lia|done].
  - intros x Hx. apply H2. intros row Hr%elem_of_seqZ Hin. apply Hx. replace x with (dst + row * pitch + (x - (dst + row * pitch))) by lia. apply row_in_picture; lia.
Qed.
End Rows.

Section Proofs.
Context {D : Type} `{MmioDevice D, RawAccess} (hhdm : Z) (heap : Z → option Z).

Definition dboard (s : DrmSt D) : Board D := gboard (gpu s).
Definition dram (s : DrmSt D) : Z → Z := bram (dboard s).
Definition with_board (b : Board D) (s : DrmSt D) : DrmSt D := set_gpu (mkGpuSt b (GPU_DEV (gpu s))) s.
Definition with_ram (f : Z → Z) (s : DrmSt D) : DrmSt D := with_board (mkBoard (set_mem f (bmach (dboard s))) (bdev (dboard s))) s.

Lemma with_ram_same s : with_ram (dram s) s = s.
Proof. by destruct s as [[[[] ?] ?]]. Qed.
Lemma with_ram_twice f g s : with_ram f (with_ram g s) = with_ram f s.
Proof. done. Qed.

Lemma copy_rows_loop l src dst pitch n : ∀ s, for_each l (λ row, copy_ram (src row) (dst + row * pitch) n) s =
  (Ok tt, with_ram (rows_copied l src dst pitch n (dram s)) s).
Proof.
  induction l as [|row l IH]; intros s; [cbn; by rewrite with_ram_same|]. cbn [for_each]. unfold bind at 1.
  unfold copy_ram at 1, on_ram, on_gpu, on_gboard, on_bmach, modify. cbn [fst snd]. rewrite IH. done.
Qed.

Lemma copy_rows_spec rows src dst pitch n s : copy_rows rows src dst pitch n s = (Ok tt, with_ram (rows_copied (seqZ 0 rows) src dst pitch n (dram s)) s).
Proof. apply copy_rows_loop. Qed.

End Proofs.

(** ** Page flips *)

Section Flip.
Context {D : Type} `{VirtioGpuDev D, RawAccess} (hhdm : Z).

(** Memory a copy of the buffer may read: whole rows, and as many pixels as the
    buffer is wide. *)
Definition reads (db : DumbBuffer) (x : Z) : Prop :=
  ∃ row i, 0 ≤ row < d_height db ∧ 0 ≤ i < Z.max (d_pitch db) (d_width db * 4) ∧ x = d_phys db + row * d_pitch db + i.
Definition in_gpu_fb (v : VirtioGpu) (x : Z) : Prop := fb_phys v ≤ x < fb_phys v + width v * height v * 4.
Definition in_boot_fb (fb : FramebufferInfo) (x : Z) : Prop := fb_address fb - hhdm ≤ x < fb_address fb - hhdm + fb_height fb * fb_pitch fb.

(** The graphics device is set up; the buffer, its frame buffer, the boot loader's
    and the driver's pages lie apart. *)
Record flip_ready (s : DrmSt D) (v : VirtioGpu) (db : DumbBuffer) : Prop := {
  fr_dev : GPU_DEV (gpu s) = Some v;
  fr_gpu : gpu_ready (dboard s) v;
  fr_fb : fb_ok v;
  fr_screen : screen_ok (screen (bdev (dboard s))) v;
  fr_dumb : 0 ≤ d_width db ∧ 0 ≤ d_height db ∧ 0 ≤ d_pitch db;
  fr_apart : ∀ x, reads db x → ¬ in_gpu_fb v x ∧ ∀ fb, FB s = Some fb → ¬ in_boot_fb fb x;
  fr_boot : ∀ fb, FB s = Some fb → 0 ≤ fb_height fb ∧ 0 ≤ fb_pitch fb ∧ ∀ x, in_boot_fb fb x → elsewhere v x ∧ ¬ in_gpu_fb v x }.

(** The pixels the buffer and the screen share. *)
Definition covered (db : DumbBuffer) (v : VirtioGpu) (px py : Z) : bool := (px <? Z.min (d_width db) (width v)) && (py <? Z.min (d_height db) (height v)).
Definition dumb_pixel (f : Z → Z) (db : DumbBuffer) (px py : Z) : Z * Z * Z := bgrx f (d_phys db + py * d_pitch db + 4 * px).

Lemma bgrx_eq f g a b : (∀ i, 0 ≤ i < 3 → f (a + i) = g (b + i)) → bgrx f a = bgrx g b.
Proof. intros E. unfold bgrx. pose proof (E 0 ltac:(lia)) as E0. rewrite !Z.add_0_r in E0. by rewrite E0, (E 1), (E 2) by lia. Qed.

Lemma boot_blit s v db : flip_ready s v db → ∃ f, (∀ x, (∀ fb, FB s = Some fb → ¬ in_boot_fb fb x) → f x = dram s x) ∧
  match FB s with
  | Some fb => copy_rows (Z.min (d_height db) (fb_height fb)) (λ row, d_phys db + row * d_pitch db) (fb_address fb - hhdm) (fb_pitch fb) (Z.min (d_pitch db) (fb_pitch fb))
  | None => ret tt
  end s = (Ok tt, with_ram f s).
Proof.
  intros [_ _ _ _ (Hw & Hh & Hp) Ha Hb]. destruct (FB s) as [fb|]; [|exists (dram s); split; [done|by rewrite with_ram_same]].
  destruct (Hb fb eq_refl) as (Hfh & Hfp & _). eexists. split; [|apply copy_rows_spec].
  intros x Hx. specialize (Hx fb eq_refl).
  apply (copied_all (Z.min (d_height db) (fb_height fb)) (λ row, d_phys db + row * d_pitch db) (fb_address fb - hhdm) (fb_pitch fb)
    (Z.min (d_pitch db) (fb_pitch fb))); [lia| |lia|].
  - intros row i Hr Hi Hin. apply (proj2 (Ha (d_phys db + row * d_pitch db + i) ltac:(exists row, i; lia)) fb eq_refl).
    unfold in_picture, in_boot_fb in *. nia.
  - intros Hin. apply Hx. unfold in_picture, in_boot_fb in *. nia.
Qed.

Lemma gpu_blit s v db : flip_ready s v db → ∀ f, (∀ x, reads db x → f x = dram s x) →
  ∃ g, blit_to_gpu db (fb_phys v, width v, height v) (with_ram f s) = (Ok tt, with_ram g s) ∧
    (∀ x, ¬ in_gpu_fb v x → g x = f x) ∧
    ∀ px py, 0 ≤ px < width v → 0 ≤ py < height v →
      pixel_at g v px py = if covered db v px py then dumb_pixel (dram s) db px py else pixel_at f v px py.
Proof.
  intros [_ _ Hf _ (Hw & Hh & Hp) Ha _] f Hd. destruct (fb_size v Hf) as (Hvw & Hvh & _). set (N := Z.min (d_height db) (height v)). set (n := Z.min (d_width db) (width v) * 4).
  pose proof (copied_all N (λ row, d_phys db + row * d_pitch db) (fb_phys v) (width v * 4) n ltac:(lia)) as Hc.
  assert (∀ row i, 0 ≤ row < N → 0 ≤ i < n → ¬ in_picture N (fb_phys v) (width v * 4) (d_phys db + row * d_pitch db + i)) as Hs.
  { intros row i Hr Hi Hin. apply (proj1 (Ha (d_phys db + row * d_pitch db + i) ltac:(exists row, i; lia))). unfold in_picture, in_gpu_fb in *. nia. }
  destruct (Hc Hs f ltac:(lia)) as [C1 C2]. exists (rows_copied (seqZ 0 N) (λ row, d_phys db + row * d_pitch db) (fb_phys v) (width v * 4) n f).
  split; [exact (copy_rows_spec N _ _ _ n (with_ram f s))|]. split.
  - intros x Hx. apply C2. intros Hin. apply Hx. unfold in_picture, in_gpu_fb in *. nia.
  - intros px py Hx Hy. destruct (rows_copied_spec N (λ row, d_phys db + row * d_pitch db) (fb_phys v) (width v * 4) n ltac:(lia) Hs (seqZ 0 N)) with (f := f) (g := f) as [_ C3];
      [apply Forall_forall; intros r Hr%elem_of_seqZ; lia|done|].
    unfold covered. destruct (Z.ltb_spec px (Z.min (d_width db) (width v))), (Z.ltb_spec py (Z.min (d_height db) (height v))); cbn [andb].
    + unfold pixel_at, dumb_pixel. apply bgrx_eq. intros i Hi.
      replace (fb_phys v + 4 * (py * width v + px) + i) with (fb_phys v + py * (width v * 4) + (4 * px + i)) by lia.
      rewrite C1 by lia. rewrite Hd by (exists py, (4 * px + i); lia). f_equal. lia.
    + apply bgrx_eq. intros i Hi. apply C3. intros row Hr%elem_of_seqZ. nia.
    + apply bgrx_eq. intros i Hi. apply C3. intros row Hr%elem_of_seqZ Hc'. assert (row = py) as -> by nia. nia.
    + apply bgrx_eq. intros i Hi. apply C3. intros row Hr%elem_of_seqZ. nia.
Qed.

Lemma pixel_in_fb v px py x : 0 < width v → 0 ≤ px < width v → 0 ≤ py < height v → fb_phys v + 4 * (py * width v + px) ≤ x < fb_phys v + 4 * (py * width v + px) + 4 → in_gpu_fb v x.
Proof. intros Hw Hx Hy Hin. unfold in_gpu_fb. assert (py * width v + px + 1 ≤ width v * height v) by nia. assert (0 ≤ py * width v) by nia. nia. Qed.

Lemma blit_spec s v db : flip_ready s v db → ∃ g, blit_buffer_to_display hhdm db s = (Ok tt, with_ram g s) ∧
  (∀ x, ¬ elsewhere v x → g x = dram s x) ∧
  ∀ px py, 0 ≤ px < width v → 0 ≤ py < height v →
    pixel_at g v px py = if covered db v px py then dumb_pixel (dram s) db px py else pixel_at (dram s) v px py.
Proof.
  intros Hr. destruct (boot_blit s v db Hr) as (f & Hf & E1).
  destruct (gpu_blit s v db Hr f) as (g & E2 & Hg & Hpx). { intros x Hx. apply Hf. apply (fr_apart _ _ _ Hr x Hx). }
  exists g. split; [|split].
  - unfold blit_buffer_to_display, get_info. rewrite bind_gets. rewrite (bind_ok _ _ _ _ _ E1), bind_gets.
    change (framebuffer_info (gpu (with_ram f s))) with (framebuffer_info (gpu s)). unfold framebuffer_info. rewrite (fr_dev _ _ _ Hr). exact E2.
  - intros x Hx. rewrite Hg; [apply Hf|]; [intros fb Hfb Hin; by destruct (proj2 (proj2 (fr_boot _ _ _ Hr fb Hfb)) x Hin)|].
    intros Hin. by apply Hx, (fb_apart _ (fr_fb _ _ _ Hr)).
  - intros px py Hx Hy. rewrite Hpx by done. destruct (covered db v px py); [done|]. apply bgrx_eq. intros i Hi. apply Hf. intros fb Hfb Hb.
    apply (proj2 (proj2 (fr_boot _ _ _ Hr fb Hfb)) _ Hb). eapply pixel_in_fb; [apply (fb_size _ (fr_fb _ _ _ Hr))|done|done|lia].
Qed.

Lemma flip_spec fb_id user_data s v h db : FB_MAP s !! fb_id = Some h → DUMB_BUFFERS s !! h = Some db → flip_ready s v db →
  ∃ s' v', flip hhdm fb_id user_data s = (Ok tt, s') ∧ GPU_DEV (gpu s') = Some v' ∧ gpu_ready (dboard s') v' ∧
    DRM_EVENTS s' = DRM_EVENTS s ++ [flip_event user_data (FLIP_SEQ s)] ∧ FLIP_SEQ s' = next32 (FLIP_SEQ s) ∧
    ∀ px py, 0 ≤ px < width v → 0 ≤ py < height v →
      shown (screen (bdev (dboard s'))) 0 px py = if covered db v px py then dumb_pixel (dram s) db px py else pixel_at (dram s) v px py.
Proof.
  intros Hm Hd Hr. destruct (blit_spec s v db Hr) as (g & E & Hg & Hpx). unfold flip, fb_id_to_handle.
  rewrite bind_gets, Hm. rewrite (bind_ok _ _ s tt (with_ram g s)) by (by rewrite bind_gets, Hd). rewrite bind_modify.
  set (s1 := set_events _ _). assert (gpu_ready (dboard s1) v) as Hr1 by (apply (gpu_ready_draw (dboard s)); [apply Hr|done|exact Hg]).
  assert (in_fb v 0 0 (width v) (height v)) as Hin by (destruct (fb_size v (fr_fb _ _ _ Hr)); unfold in_fb; lia).
  destruct (transfer_and_flush_spec 0 0 (width v) (height v) v (dboard s1) Hr1 (fr_fb _ _ _ Hr) (fr_screen _ _ _ Hr) Hin) as (b3 & v3 & E3 & Hr3 & _ & _ & _ & Hs).
  exists (set_gpu (mkGpuSt b3 (Some v3)) s1), v3. split; [|split; [done|split; [done|split; [done|split; [done|]]]]].
  - assert (gpu s1 = mkGpuSt (dboard s1) (Some v)) as Eg by (rewrite <- (fr_dev _ _ _ Hr); done).
    unfold on_gpu. rewrite Eg. unfold flush_all, with_gpu, bind, gets, on_gboard. cbn [GPU_DEV gboard]. by rewrite E3.
  - intros px py Hx Hy. cbn [dboard gpu set_gpu gboard bdev]. change (bdev (dboard (set_gpu (mkGpuSt b3 (Some v3)) s1))) with (bdev b3). rewrite Hs. unfold inside.
    rewrite (proj2 (Z.leb_le 0 px)), (proj2 (Z.ltb_lt px _)), (proj2 (Z.leb_le 0 py)), (proj2 (Z.ltb_lt py _)) by lia. cbn [andb].
    change (bram (dboard s1)) with g. by apply Hpx.
Qed.

Lemma load_spec a n x (s : DrmSt D) : let m := bmach (dboard s) in raw_load a n m = (Ok x, m) → load a n s = (Ok (from_le x), s).
Proof.
  intros m E. unfold load, bind, on_ram, on_gpu, on_gboard, on_bmach. change (bmach (gboard (gpu s))) with m. rewrite E. by destruct s as [[[] ?]].
Qed.

Lemma load_at_spec p off n x (s : DrmSt D) : let m := bmach (dboard s) in p + off < 2 ^ 64 → raw_load (p + off) n m = (Ok x, m) →
  load_at p off n s = (Ok (from_le x), s).
Proof. intros m Ho E. unfold load_at. rewrite add64_small, bind_or_panic by done. by apply load_spec. Qed.

(** C36. A page flip shows the buffer: when the frame buffer id leads to a dumb buffer
    with 32 bits to the pixel, apart in memory from the frame buffers and the pages
    of the graphics driver, which is set up, the first output afterwards shows, for every pixel
    buffer and screen share, the colour (bytes blue, green, red) of the buffer at
    that place, and elsewhere the colour the driver's frame buffer held; and one
    event is queued behind those that wait: 32 bytes, with type 2, length 32, the
    caller's data at offset 8 and the number of the flip at 16, the rest zero. *)
Theorem page_flip_shows heap arg fb_id user_data s v h db : let m := bmach (dboard s) in
  0 < arg → arg + 16 < 2 ^ 64 → u32_ok fb_id → u64_ok user_data → u32_ok (FLIP_SEQ s) →
  raw_load (arg + 4) 4 m = (Ok (to_le 4 fb_id), m) → (∃ x, raw_load (arg + 8) 4 m = (Ok x, m)) → raw_load (arg + 16) 8 m = (Ok (to_le 8 user_data), m) →
  FB_MAP s !! fb_id = Some h → DUMB_BUFFERS s !! h = Some db → 4 * d_width db ≤ d_pitch db → flip_ready s v db →
  ∃ s' v' ev, handle_ioctl hhdm heap DRM_IOCTL_MODE_PAGE_FLIP arg s = (Ok 0, s') ∧ GPU_DEV (gpu s') = Some v' ∧ gpu_ready (dboard s') v' ∧
    DRM_EVENTS s' = DRM_EVENTS s ++ [ev] ∧ FLIP_SEQ s' = (FLIP_SEQ s + 1) mod 2 ^ 32 ∧
    length ev = 32%nat ∧ at_ ev 0 4 = 2 ∧ at_ ev 4 4 = 32 ∧ at_ ev 8 8 = user_data ∧ at_ ev 16 4 = FLIP_SEQ s ∧ drop 20 ev = replicate 12 0 ∧
    ∀ px py, 0 ≤ px < width v → 0 ≤ py < height v →
      let a := if bool_decide (px < d_width db ∧ py < d_height db) then d_phys db + py * d_pitch db + 4 * px else fb_phys v + 4 * (py * width v + px) in
      shown (screen (bdev (dboard s'))) 0 px py = (dram s (a + 2), dram s (a + 1), dram s a).
Proof.
  intros m Ha Hm Hu Hd Hq E1 [x E2] E3 Hf Hb _ Hr. destruct (flip_spec fb_id user_data s v h db Hf Hb Hr) as (s' & v' & E & Hv & Hg & He & Hn & Hpx).
  exists s', v', (flip_event user_data (FLIP_SEQ s)). split.
  2:{ do 4 (split; [done|]). split; [done|]. do 2 (split; [reflexivity|]). split; [exact (at_u64 _ Hd)|]. split; [exact (at_u32 _ Hq)|]. split; [reflexivity|].
      intros px py Hx Hy a. rewrite Hpx by done. unfold a, covered. case_bool_decide.
      - by rewrite !(proj2 (Z.ltb_lt _ _)) by lia.
      - destruct (Z.ltb_spec px (Z.min (d_width db) (width v))), (Z.ltb_spec py (Z.min (d_height db) (height v))); cbn [andb]; [lia|done..]. }
  unfold handle_ioctl. cbn [Z.eqb]. change (with_arg arg (mode_page_flip hhdm arg) s = (Ok 0, s')). unfold with_arg.
  rewrite (proj2 (Z.eqb_neq arg 0)) by lia. cbn [negb when]. unfold mode_page_flip.
  rewrite (bind_ok _ _ s tt s'); [done|]. rewrite (bind_ok _ _ _ _ _ (load_at_spec arg 4 4 _ s ltac:(lia) E1)).
  rewrite (bind_ok _ _ _ _ _ (load_at_spec arg 8 4 _ s ltac:(lia) E2)), (bind_ok _ _ _ _ _ (load_at_spec arg 16 8 _ s ltac:(lia) E3)).
  by rewrite at_u32, at_u64.
Qed.

(** A buffer with fewer than 32 bits to the pixel is shown as if it had 32: the
    pixels of its last row whose place lies beyond the row show the memory behind
    the buffer. *)
Theorem narrow_buffer_discloses fb_id user_data s v h db px : FB_MAP s !! fb_id = Some h → DUMB_BUFFERS s !! h = Some db → flip_ready s v db →
  d_size db = d_height db * d_pitch db → 0 < d_height db ≤ height v → 0 ≤ px < Z.min (d_width db) (width v) → d_pitch db ≤ 4 * px →
  ∃ s', flip hhdm fb_id user_data s = (Ok tt, s') ∧
    shown (screen (bdev (dboard s'))) 0 px (d_height db - 1) = bgrx (dram s) (d_phys db + d_size db + (4 * px - d_pitch db)).
Proof.
  intros Hf Hb Hr Hsz Hh Hpx Hp. destruct (flip_spec fb_id user_data s v h db Hf Hb Hr) as (s' & v' & E & _ & _ & _ & _ & Hs). exists s'. split; [exact E|].
  rewrite Hs by lia. unfold covered. rewrite (proj2 (Z.ltb_lt px _)), (proj2 (Z.ltb_lt (d_height db - 1) _)) by lia. cbn [andb]. unfold dumb_pixel. f_equal. lia.
Qed.
End Flip.

(** ** Events *)

Definition events_ok {D} (s : DrmSt D) : Prop := Forall (λ e, length e = 32%nat) (DRM_EVENTS s).

(** Reading events with raw accesses to a flat memory. *)
Lemma read_events_loop_spec `{MmioDevice D} q : ∀ buf count w (s : DrmSt D), Forall (λ e, length e = 32%nat) q → DRM_EVENTS s = q →
  0 ≤ buf → 0 ≤ w → buf + count < 2 ^ 64 →
  let n := Nat.min (length q) (Z.to_nat ((count - w) / 32)) in
  ∃ s', read_events_loop (H0:=plain_access) q buf count w s = (Ok (w + 32 * Z.of_nat n), s') ∧ DRM_EVENTS s' = drop n q ∧
    rd_bytes (dram s') (buf + w) (32 * n) = concat (take n q) ∧ ∀ x, ¬ (buf + w ≤ x < buf + w + 32 * Z.of_nat n) → dram s' x = dram s x.
Proof.
  induction q as [|ev q IH]; intros buf count w s Hq Es Hb Hw Hc n; cbn [read_events_loop].
  { exists s. replace n with 0%nat by (unfold n; cbn; lia). rewrite Z.mul_0_r, Z.add_0_r. by destruct (w + 32 <=? count). }
  apply Forall_cons in Hq as [He Hq]. destruct (Z.leb_spec (w + 32) count) as [Hle|Hgt].
  2:{ exists s. replace n with 0%nat by (unfold n; cbn [length]; lia). rewrite Z.mul_0_r, Z.add_0_r. done. }
  rewrite bind_modify, bind_assoc, add64_small, bind_or_panic by lia.
  set (s1 := with_ram (wr_bytes (dram s) (buf + w) ev) (set_events q s)).
  rewrite (bind_ok _ _ _ tt s1) by (destruct s as [[[] ?]]; reflexivity).
  destruct (IH buf count (w + 32) s1 Hq eq_refl Hb ltac:(lia) Hc) as (s' & E & Ed & Er & Ho). cbv zeta in *.
  set (n' := Nat.min (length q) (Z.to_nat ((count - (w + 32)) / 32))) in E, Ed, Er, Ho. assert (n = S n') as ->.
  { unfold n, n'. cbn [length]. assert ((count - w) / 32 = (count - (w + 32)) / 32 + 1) as -> by lia. assert (0 ≤ (count - (w + 32)) / 32) by lia. lia. }
  exists s'. split; [rewrite E; do 2 f_equal; lia|]. split; [done|]. split.
  - replace (32 * S n')%nat with (32 + 32 * n')%nat by lia. rewrite rd_bytes_split. cbn [take concat]. f_equal.
    + rewrite (rd_bytes_ext _ (wr_bytes (dram s) (buf + w) ev)) by (intros x Hx; rewrite Ho by lia; done). by apply rd_wr_same.
    + rewrite <- Er. f_equal. lia.
  - intros x Hx. rewrite Ho by lia. change (wr_bytes (dram s) (buf + w) ev x = dram s x). apply wr_bytes_out. rewrite He. lia.
Qed.

(** Events are read in the order they were queued, whole and as many as fit:
    the buffer holds exactly the first ones, the others stay queued. *)
Theorem drm_events_fifo `{MmioDevice D} buf count (s : DrmSt D) : events_ok s → 0 ≤ buf → buf + count < 2 ^ 64 →
  let n := Nat.min (length (DRM_EVENTS s)) (Z.to_nat (count / 32)) in
  ∃ s', read_events (H0:=plain_access) buf count s = (Ok (32 * Z.of_nat n), s') ∧ DRM_EVENTS s' = drop n (DRM_EVENTS s) ∧
    rd_bytes (dram s') buf (32 * n) = concat (take n (DRM_EVENTS s)) ∧ ∀ x, ¬ (buf ≤ x < buf + 32 * Z.of_nat n) → dram s' x = dram s x.
Proof.
  intros He Hb Hc. destruct (read_events_loop_spec (DRM_EVENTS s) buf count 0 s He eq_refl Hb ltac:(lia) Hc) as (s' & E & H').
  cbv zeta in *. rewrite Z.sub_0_r, Z.add_0_r, Z.add_0_l in *. exists s'. split; [|done]. unfold read_events. by rewrite bind_gets.
Qed.

(** ** Buffers *)

Record dumb_ok (k : Z) (b : DumbBuffer) : Prop := {
  db_handle : d_handle b = k;
  db_size : d_size b = d_height b * d_pitch b;
  db_pitch : d_pitch b mod 64 = 0 ∧ 0 ≤ d_pitch b < 2 ^ 32 }.

Definition drm_wf {D} (s : DrmSt D) : Prop := events_ok s ∧ map_Forall dumb_ok (DUMB_BUFFERS s).

Lemma pitch_aligned w bpp p : pitch_of w bpp = Some p → p mod 64 = 0 ∧ 0 ≤ p < 2 ^ 32.
Proof.
  unfold pitch_of. destruct (mul32 _ _) as [n|]; cbn [mbind option_bind]; [|done]. destruct (add32 n 63) as [x|]; cbn [mbind option_bind]; [|done].
  intros [= <-]. change (not32 63) with (Z.shiftl (Z.ones 26) 6). split.
  - change 64 with (2 ^ 6). rewrite <- Z.land_ones by lia. rewrite <- Z.land_assoc. change (Z.land _ (Z.ones 6)) with 0. apply Z.land_0_r.
  - split; [by apply Z.land_nonneg; right|]. assert (Z.land x (Z.shiftl (Z.ones 26) 6) ≤ Z.shiftl (Z.ones 26) 6) as Hle.
    { rewrite Z.land_comm. apply Z.ldiff_le; [done|]. apply Z.bits_inj'. intros i _. rewrite Z.ldiff_spec, Z.land_spec, Z.bits_0. by destruct (Z.testbit (Z.shiftl (Z.ones 26) 6) i), (Z.testbit x i). }
    change (Z.shiftl (Z.ones 26) 6) with (2 ^ 32 - 64) in *. lia.
Qed.

Section Wf.
Context {D : Type} `{MmioDevice D, RawAccess} (hhdm : Z) (heap : Z → option Z).

Lemma wf_on_gpu {A} (m : M (Gpu D) A) : preserves drm_wf (on_gpu m).
Proof. intros s Hs. unfold on_gpu. by destruct (m (gpu s)). Qed.
Lemma wf_on_ram {A} (m : M Mach A) : preserves drm_wf (on_ram (D:=D) m).
Proof. apply wf_on_gpu. Qed.
#[local] Hint Resolve wf_on_gpu wf_on_ram : preserves.

Lemma wf_load_at p off n : preserves drm_wf (load_at (D:=D) p off n).
Proof. unfold load_at, load. by repeat preserves_step. Qed.
Lemma wf_load p n : preserves drm_wf (load (D:=D) p n).
Proof. unfold load. by repeat preserves_step. Qed.
Lemma wf_store p n v : preserves drm_wf (store (D:=D) p n v).
Proof. unfold store. by repeat preserves_step. Qed.
Lemma wf_store_at p off n v : preserves drm_wf (store_at (D:=D) p off n v).
Proof. unfold store_at, store. by repeat preserves_step. Qed.
#[local] Hint Resolve wf_load wf_load_at wf_store wf_store_at : preserves.
Lemma wf_timing p off x n : preserves drm_wf (store_timing (D:=D) p off x n).
Proof. unfold store_timing. by repeat preserves_step. Qed.
Lemma wf_copy_rows rows src dst pitch n : preserves drm_wf (copy_rows (D:=D) rows src dst pitch n).
Proof. unfold copy_rows, copy_ram. by repeat preserves_step. Qed.
#[local] Hint Resolve wf_timing wf_copy_rows : preserves.

(** Changes that leave events and buffers alone. *)
Lemma wf_quiet f : (∀ s : DrmSt D, DRM_EVENTS (f s) = DRM_EVENTS s ∧ DUMB_BUFFERS (f s) = DUMB_BUFFERS s) → preserves drm_wf (modify f).
Proof. intros Hf. apply preserves_modify. intros s [H1 H2]. destruct (Hf s) as [E1 E2]. unfold drm_wf, events_ok. by rewrite E1, E2. Qed.

Lemma wf_new_fb handle : preserves drm_wf (new_fb (D:=D) handle).
Proof. unfold new_fb. apply preserves_bind_get. by intros s Hs. Qed.
Lemma preserves_bind_or_panic {S A B} (P : S → Prop) (o : option A) (k : A → M S B) : (∀ a, o = Some a → preserves P (k a)) → preserves P (bind (or_panic o) k).
Proof. intros Hk s Hs. destruct o as [a|]; [|done]. exact (Hk a eq_refl s Hs). Qed.

Lemma wf_add_dumb handle b : dumb_ok handle b → ∀ (s : DrmSt D) n, drm_wf s → drm_wf (set_bufs (<[handle := b]> (DUMB_BUFFERS s)) n s).
Proof. intros Hb s n [He Hd]. split; [exact He|]. by apply map_Forall_insert_2. Qed.

Lemma wf_create_dumb arg : preserves drm_wf (mode_create_dumb (D:=D) hhdm heap arg).
Proof.
  unfold mode_create_dumb. do 3 (apply preserves_bind; [auto with preserves|intros ?]).
  apply preserves_bind_or_panic. intros p [Hp1 Hp2]%pitch_aligned. do 3 (apply preserves_bind; [auto with preserves|intros ?]).
  apply preserves_bind_get. intros s Hs. rewrite bind_put. eapply (preserves_bind drm_wf (store_at arg 12 4 _)); [auto with preserves| |].
  - intros _. by repeat preserves_step.
  - apply wf_add_dumb; [by split|done].
Qed.

Lemma wf_blit db : preserves drm_wf (blit_buffer_to_display (D:=D) hhdm db).
Proof. unfold blit_buffer_to_display, blit_to_gpu, get_info. by repeat preserves_step. Qed.
#[local] Hint Resolve wf_new_fb wf_create_dumb wf_blit : preserves.

Lemma wf_flip fb_id user_data : preserves drm_wf (flip (D:=D) hhdm fb_id user_data).
Proof.
  unfold flip, fb_id_to_handle. repeat preserves_step. apply preserves_modify. intros s [He Hd]. split; [|exact Hd].
  unfold events_ok in *. cbn. apply Forall_app. split; [exact He|]. by apply Forall_singleton.
Qed.
#[local] Hint Resolve wf_flip : preserves.

(** Every request, whatever its argument and outcome, keeps the tables sound: each
    dumb buffer is filed under its handle, its pitch is a multiple of 64 and its
    size the product of height and pitch, and each queued event has 32 bytes. *)
Theorem ioctl_keeps_wf request arg : preserves drm_wf (handle_ioctl (D:=D) hhdm heap request arg).
Proof.
  unfold handle_ioctl, with_arg, drm_version, drm_get_cap, mode_getresources, store_ids, mode_getcrtc, mode_getconnector, store_mode, mode_getencoder, mode_map_dumb,
    mode_addfb, mode_addfb2, mode_rmfb, mode_page_flip, mode_setcrtc, show_on_crtc, blit_to_gpu, mode_destroy_dumb, wait_vblank, get_info.
  repeat preserves_step; intros; first [by apply wf_quiet|apply preserves_modify; intros s [He Hd]; split; [exact He|by apply map_Forall_delete]].
Qed.
End Wf.

(** ** Showing a buffer at an offset *)

(** The source offset of a mode setting is not compared with the buffer: without a
    graphics device, byte [i] of row [row] of the display is the byte of memory
    [src_y + row] rows and [src_x] pixels behind the start of the buffer, wherever
    that is; from [src_y = height] on the whole picture is memory behind the buffer. *)
Theorem setcrtc_discloses `{MmioDevice D, RawAccess} hhdm fb db src_x src_y (s : DrmSt D) : GPU_DEV (gpu s) = None →
  0 ≤ d_height db ∧ 0 ≤ d_pitch db ∧ 0 ≤ fb_pitch fb → 0 ≤ fb_height fb →
  let n := Z.min (d_pitch db) (fb_pitch fb) in
  (∀ row i, 0 ≤ row < d_height db → 0 ≤ i < n → ¬ in_boot_fb hhdm fb (d_phys db + ((src_y + row) * d_pitch db + src_x * 4) + i)) →
  ∃ s', show_on_crtc hhdm fb db src_x src_y s = (Ok tt, s') ∧
    ∀ row i, 0 ≤ row < Z.min (d_height db) (fb_height fb) → 0 ≤ i < n →
      dram s' (fb_address fb - hhdm + row * fb_pitch fb + i) = dram s (d_phys db + (src_y + row) * d_pitch db + 4 * src_x + i).
Proof.
  intros Hg (Hh & Hp & Hfp) Hfh n Ha. set (N := Z.min (d_height db) (fb_height fb)).
  destruct (copied_all N (λ row, d_phys db + ((src_y + row) * d_pitch db + src_x * 4)) (fb_address fb - hhdm) (fb_pitch fb) n) with (f := dram s) as [C1 _]; [lia| |lia|].
  { intros row i Hr Hi Hin. apply (Ha row i); [lia|lia|]. unfold in_picture, in_boot_fb in *. nia. }
  eexists. split.
  - unfold show_on_crtc. rewrite (bind_ok _ _ _ _ _ (copy_rows_spec N _ _ _ n s)), bind_gets.
    unfold framebuffer_info. cbn [gpu with_ram with_board set_gpu GPU_DEV]. rewrite Hg. reflexivity.
  - intros row i Hr Hi. change (dram (with_ram ?g s)) with g. rewrite C1 by done. f_equal. lia.
Qed.

(** ** Witnesses *)

(** A two-by-two buffer at page 6 in colour [k] at address [k], the graphics device of
    [Gpu]; the argument of a flip at address 64. *)
Definition demo_dumb : DumbBuffer := mkDumb 1 0x6000 128 2 2 64.
Definition demo_flip_ram : Z → Z := λ x, if bool_decide (0x6000 ≤ x < 0x6100) then x - 0x6000 else if x =? 68 then 5 else if x =? 80 then 9 else 0.
Definition demo_drm : DrmSt RamGpu :=
  mkDrm (mkGpuSt (mkBoard (mkMach (Pmm.mkPmm [] 0 0) demo_flip_ram) (mkRamGpu demo_screen (Some demo_layout) 0)) (Some demo_gpu))
    None {[1 := demo_dumb]} 2 {[5 := 1]} 6 [] 0 0 1.

Lemma demo_flip_ready : flip_ready 0 demo_drm demo_gpu demo_dumb.
Proof.
  split; [done| |exact demo_fb_ok| |cbn; lia| |done].
  - split; try done. split; [apply (bool_decide_unpack _); vm_compute; exact I|]. unfold pages. cbn. rewrite !Forall_cons. split_and!; try lia. constructor.
  - split; [done|]. by eexists.
  - intros x (row & i & Hr & Hi & ->). split; [|done]. unfold in_gpu_fb. cbn in *. lia.
Qed.

Lemma page_flip_shows_witness : ∃ s', handle_ioctl (H0:=plain_access) 0 (λ _, None) DRM_IOCTL_MODE_PAGE_FLIP 64 demo_drm = (Ok 0, s') ∧
  shown (screen (bdev (dboard s'))) 0 1 1 = (70, 69, 68) ∧ ∃ ev, DRM_EVENTS s' = [ev] ∧ at_ ev 8 8 = 9.
Proof.
  destruct (page_flip_shows (H1:=plain_access) 0 (λ _, None) 64 5 9 demo_drm demo_gpu 1 demo_dumb) as (s' & v' & ev & E & _ & _ & He & _ & _ & _ & _ & Hd & _ & _ & Hs);
    [lia|lia|done|done|done|reflexivity|by eexists|reflexivity|reflexivity|reflexivity|cbn; lia|exact demo_flip_ready|].
  exists s'. split; [exact E|]. split; [|exists ev; split; [exact He|exact Hd]]. rewrite Hs by (cbn; lia). vm_compute. reflexivity.
Defined.

(** A buffer of 32 by 2 pixels of eight bits on a screen of that size. *)
Definition demo_wide : VirtioGpu := set_size 32 2 demo_gpu.
Definition demo_narrow : DumbBuffer := mkDumb 1 0x6000 128 32 2 64.
Definition demo_narrow_drm : DrmSt RamGpu :=
  mkDrm (mkGpuSt (mkBoard (mkMach (Pmm.mkPmm [] 0 0) demo_flip_ram)
      (mkRamGpu (mkScreen 1 (32, 2) 4096 {[1 := mkRes 2 32 2 [(0x5000, 256)] (λ _ _, [0; 0; 0; 0])]} {[0 := (1, mkRect 0 0 32 2)]} (λ _ _ _, (0, 0, 0))) (Some demo_layout) 0)) (Some demo_wide))
    None {[1 := demo_narrow]} 2 {[5 := 1]} 6 [] 0 0 1.

Lemma demo_narrow_ready : flip_ready 0 demo_narrow_drm demo_wide demo_narrow.
Proof.
  split; [done| | | |cbn; lia| |done].
  - split; try done. split; [apply (bool_decide_unpack _); vm_compute; exact I|]. unfold pages. cbn. rewrite !Forall_cons. split_and!; try lia. constructor.
  - split; [done|done|cbn; lia|]. intros x Hx. rewrite elsewhere_pages. cbn in *. lia.
  - split; [done|]. by eexists.
  - intros x (row & i & Hr & Hi & ->). split; [|done]. unfold in_gpu_fb. cbn in *. lia.
Qed.

Lemma narrow_buffer_discloses_witness : ∃ s', flip 0 5 9 demo_narrow_drm = (Ok tt, s') ∧ shown (screen (bdev (dboard s'))) 0 20 1 = (146, 145, 144).
Proof.
  destruct (narrow_buffer_discloses 0 5 9 demo_narrow_drm demo_wide 1 demo_narrow 20) as (s' & E & Hs);
    [reflexivity|reflexivity|exact demo_narrow_ready|reflexivity|cbn; lia|cbn; lia|cbn; lia|].
  exists s'. split; [exact E|]. change (d_height demo_narrow - 1) with 1 in Hs. rewrite Hs. vm_compute. reflexivity.
Defined.

Lemma drm_events_fifo_witness : ∃ s', read_events (H0:=plain_access) 0x9000 70 (set_events [flip_event 1 0; flip_event 2 1; flip_event 3 2] demo_drm) = (Ok 64, s') ∧
  DRM_EVENTS s' = [flip_event 3 2] ∧ rd_bytes (dram s') 0x9000 64 = flip_event 1 0 ++ flip_event 2 1.
Proof.
  destruct (drm_events_fifo 0x9000 70 (set_events [flip_event 1 0; flip_event 2 1; flip_event 3 2] demo_drm)) as (s' & E & Ed & Er & _);
    [by repeat constructor|lia|lia|]. by exists s'.
Defined.

Lemma ioctl_keeps_wf_witness : drm_wf (handle_ioctl (H0:=plain_access) 0 (λ _, Some 0x8000) DRM_IOCTL_MODE_CREATE_DUMB 64 demo_drm).2.
Proof.
  apply (ioctl_keeps_wf (H0:=plain_access) 0 (λ _, Some 0x8000) DRM_IOCTL_MODE_CREATE_DUMB 64). split; [by constructor|].
  apply map_Forall_singleton. by split.
Defined.

(** No graphics device; a screen of two by two pixels at page 7. *)
Definition demo_boot_fb : FramebufferInfo := mkInfo 0x7000 2 2 8 32 16.
Definition demo_plain_drm : DrmSt RamGpu := set_gpu (mkGpuSt (dboard demo_drm) None) demo_drm.

Lemma setcrtc_discloses_witness : ∃ s', show_on_crtc 0 demo_boot_fb demo_dumb 0 2 demo_plain_drm = (Ok tt, s') ∧ dram s' 0x7003 = 131.
Proof.
  destruct (setcrtc_discloses (H0:=plain_access) 0 demo_boot_fb demo_dumb 0 2 demo_plain_drm) as (s' & E & Hs); [done|cbn; lia|cbn; lia| |].
  - intros row i Hr Hi. unfold in_boot_fb. cbn in *. lia.
  - exists s'. split; [exact E|]. specialize (Hs 0 3 ltac:(cbn; lia) ltac:(cbn; lia)). change (fb_address demo_boot_fb - 0 + 0 * fb_pitch demo_boot_fb + 3) with 0x7003 in Hs.
    rewrite Hs. vm_compute. reflexivity.
Defined.
