(* ===== verification/Virtq.v ===== *)
(** * Receive queues of VirtIO devices ([drivers/virtio/net.rs], [drivers/virtio/input.rs])

    Both drivers receive in the same way: 64 buffers are offered to the device in
    the available ring; the device fills them and lists them in the used ring; the
    driver takes them from there in order and offers them again.  This file holds
    the ring accesses they share, the invariant [rx_inv] of such a queue, and the
    class [Receiver] of devices that keep the promises of the VirtIO specification
    (section 2.7). *)

From S2P Require Import Prelude.
From S2P Require Import Paging.
From S2P Require Import Block.

(** Both drivers have queues of 64. *)
Definition RX_SIZE : Z := 64.

Section Access.
Context {D : Type} `{MmioDevice D}.
Local Abbreviation MB := (M (Board D)).

(** The index of the used ring and its entry [last % QUEUE_SIZE]. *)
Definition ring_used_idx (used : Z) : MB Z := let! b := peek (used + 2) 2 in ret (from_le b).
Definition ring_used_elem (used last : Z) : MB (Z * Z) :=
  let! b := peek (used + 4 + 8 * (last mod RX_SIZE)) 8 in ret (from_le (take 4 b), from_le (drop 4 b)).

(** Descriptor [i] goes into the available ring, then the index moves on. *)
Definition ring_offer (avail i : Z) : MB () :=
  let! b := peek (avail + 2) 2 in
  let idx := from_le b in
  poke (avail + 4 + 2 * (idx mod RX_SIZE)) (to_le 2 i) ;;;
  poke (avail + 2) (to_le 2 ((idx + 1) mod 2 ^ 16)).
End Access.

(** ** The queue *)

(** Where its parts lie; [q_bufs] are the buffers, each of [q_room] bytes. *)
Record RxQueue := mkRxQueue { q_desc : Z; q_avail : Z; q_used : Z; q_bufs : list Z; q_room : Z }.

(** The parts are apart: the descriptors and the available ring below the used ring
    and the buffers, or above, and so on. *)
Definition disjoint (a n b m : Z) : Prop := a + n ≤ b ∨ b + m ≤ a.
Lemma disjoint_sub a n b m n' m' : disjoint a n b m → n' ≤ n → m' ≤ m → disjoint a n' b m'.
Proof. unfold disjoint. lia. Qed.

Record queue_ok (q : RxQueue) : Prop := {
  qk_len : length (q_bufs q) = 64%nat;
  qk_room : 0 ≤ q_room q < 2 ^ 32;
  qk_desc_avail : disjoint (q_desc q) 1024 (q_avail q) 132;
  qk_desc_used : disjoint (q_desc q) 1024 (q_used q) 516;
  qk_avail_used : disjoint (q_avail q) 132 (q_used q) 516;
  qk_addr i a : q_bufs q !! i = Some a → 0 ≤ a < 2 ^ 64;
  qk_bufs i a : q_bufs q !! i = Some a → disjoint (q_desc q) 1024 a (q_room q) ∧ disjoint (q_avail q) 132 a (q_room q) ∧ disjoint (q_used q) 516 a (q_room q) ∧
    ∀ j a', q_bufs q !! j = Some a' → i ≠ j → disjoint a (q_room q) a' (q_room q) }.

(** [es]: the buffers the device has filled and the driver has not taken, with their
    contents; [av]: the buffers offered and not yet used, in order.  Every
    descriptor lets the device write all of its buffer. *)
Record rx_inv (f : Z → Z) (q : RxQueue) (seen last : Z) (es : list (Z * list Z)) (av : list Z) : Prop := {
  rx_used : from_le (rd_bytes f (q_used q + 2) 2) = (last + Z.of_nat (length es)) mod 2 ^ 16;
  rx_elem (i : nat) (x : Z) (m : list Z) : es !! i = Some (x, m) →
    rd_bytes f (q_used q + 4 + 8 * ((last + Z.of_nat i) mod RX_SIZE)) 8 = to_le 4 x ++ to_le 4 (Z.of_nat (length m));
  rx_data (i : nat) (x : Z) (m : list Z) : es !! i = Some (x, m) → Z.of_nat (length m) ≤ q_room q ∧ ∃ a, q_bufs q !! Z.to_nat x = Some a ∧ rd_bytes f a (length m) = m;
  rx_avail : from_le (rd_bytes f (q_avail q + 2) 2) = (seen + Z.of_nat (length av)) mod 2 ^ 16;
  rx_ring (i : nat) (x : Z) : av !! i = Some x → rd_bytes f (q_avail q + 4 + 2 * ((seen + Z.of_nat i) mod RX_SIZE)) 2 = to_le 2 x;
  rx_ids : NoDup (es.*1 ++ av) ∧ Forall (λ x, 0 ≤ x < RX_SIZE) (es.*1 ++ av) ∧ (length es + length av ≤ 64)%nat;
  rx_last : 0 ≤ last < 2 ^ 16;
  rx_seen : 0 ≤ seen < 2 ^ 16;
  rx_descs (x a : Z) : 0 ≤ x < RX_SIZE → q_bufs q !! Z.to_nat x = Some a → rd_bytes f (q_desc q + 16 * x) 16 = desc_bytes a (q_room q) VRING_DESC_F_WRITE 0 }.

(** A device on a receive queue: [inbox] is everything it has ever received, [heard]
    the number of buffers it has taken from the available ring.  It delivers into
    offered buffers only, in order; its registers do not touch memory. *)
Class Receiver (D : Type) `{MmioDevice D} := {
  inbox : D → list (list Z);
  heard : D → Z;
  rx_window : D → Z;
  rx_queue : D → option RxQueue;
  rx_runs b q last es av : rx_queue (bdev b) = Some q → queue_ok q → rx_inv (bram b) q (heard (bdev b)) last es av →
    ∃ ms, (length ms ≤ length av)%nat ∧ let b' := device_runs b in
      rx_inv (bram b') q (heard (bdev b')) last (es ++ zip av ms) (drop (length ms) av) ∧
      heard (bdev b') = (heard (bdev b) + Z.of_nat (length ms)) mod 2 ^ 16 ∧ inbox (bdev b') = inbox (bdev b) ++ ms ∧ rx_queue (bdev b') = Some q ∧ rx_window (bdev b') = rx_window (bdev b);
  rx_reads b off : ∃ v d, mmio_read32 (rx_window (bdev b) + off) b = (Ok v, mkBoard (bmach b) d) ∧
    inbox d = inbox (bdev b) ∧ heard d = heard (bdev b) ∧ rx_window d = rx_window (bdev b) ∧ rx_queue d = rx_queue (bdev b);
  rx_register b off v : ∃ d, mmio_write32 (rx_window (bdev b) + off) v b = (Ok tt, mkBoard (bmach b) d) ∧
    inbox d = inbox (bdev b) ∧ heard d = heard (bdev b) ∧ rx_window d = rx_window (bdev b) ∧ rx_queue d = rx_queue (bdev b) }.

(** ** Taking a buffer *)

Lemma mod_succ_ne a : (a + 1) mod 2 ^ 16 ≠ a mod 2 ^ 16.
Proof. lia. Qed.

Lemma slot_mod a i : (a mod 2 ^ 16 + i) mod RX_SIZE = (a + i) mod RX_SIZE.
Proof. unfold RX_SIZE. rewrite <- (Z.add_mod_idemp_l (a mod 2 ^ 16)) by lia. rewrite <- (Z.add_mod_idemp_l a) by lia. f_equal. f_equal. lia. Qed.

Lemma slot_ne a i j : 0 ≤ i < 64 → 0 ≤ j < 64 → i ≠ j → (a + i) mod RX_SIZE ≠ (a + j) mod RX_SIZE.
Proof. unfold RX_SIZE. lia. Qed.

(** A descriptor written again leaves the queue as it is. *)
Lemma rx_inv_desc f q seen last es av i b : queue_ok q → rx_inv f q seen last es av → 0 ≤ i < RX_SIZE → q_bufs q !! Z.to_nat i = Some b →
  rx_inv (wr_bytes f (q_desc q + 16 * i) (desc_bytes b (q_room q) VRING_DESC_F_WRITE 0)) q seen last es av.
Proof.
  intros [Hl Hr H1 H2 H3 _ H4] [Hu He Hd Ha Hring Hids Hla Hse Hde] Hi Hb. set (data := desc_bytes b _ _ _).
  assert (length data = 16%nat) as Hlen by apply length_desc. unfold RX_SIZE, disjoint in *.
  assert (∀ a n, disjoint (q_desc q) 1024 a (Z.of_nat n) → rd_bytes (wr_bytes f (q_desc q + 16 * i) data) a n = rd_bytes f a n) as Hout.
  { intros a n Hdis. apply rd_wr_apart. unfold disjoint in Hdis. lia. }
  split; try done.
  - rewrite Hout; [done|]. unfold disjoint. lia.
  - intros j x m Hj. rewrite Hout; [by apply He|]. pose proof (Z.mod_pos_bound (last + Z.of_nat j) RX_SIZE eq_refl). unfold disjoint, RX_SIZE in *. lia.
  - intros j x m Hj. destruct (Hd j x m Hj) as (Hm & a & Hx & Hc). split; [done|]. exists a. split; [done|]. rewrite Hout; [done|].
    destruct (H4 _ _ Hx) as [Hdd _]. unfold disjoint. lia.
  - rewrite Hout; [done|]. unfold disjoint. lia.
  - intros j x Hj. rewrite Hout; [by apply Hring|]. pose proof (Z.mod_pos_bound (seen + Z.of_nat j) RX_SIZE eq_refl). unfold disjoint, RX_SIZE in *. lia.
  - intros x a Hx Hxa. destruct (decide (x = i)) as [->|Hne].
    + rewrite Hb in Hxa. injection Hxa as <-. by rewrite rd_wr_same.
    + rewrite rd_wr_apart by lia. by apply Hde.
Qed.

(** The stores of [ring_offer]. *)
Definition offered (q : RxQueue) (n x : Z) (f : Z → Z) : Z → Z :=
  wr_bytes (wr_bytes f (q_avail q + 4 + 2 * (n mod RX_SIZE)) (to_le 2 x)) (q_avail q + 2) (to_le 2 ((n + 1) mod 2 ^ 16)).

Lemma offered_apart q n x f a k : disjoint (q_avail q) 132 a (Z.of_nat k) → rd_bytes (offered q n x f) a k = rd_bytes f a k.
Proof.
  intros Hd. pose proof (Z.mod_pos_bound n RX_SIZE eq_refl) as Hn. unfold disjoint, offered, RX_SIZE in *.
  rewrite !rd_wr_apart by (rewrite length_to_le; lia). done.
Qed.

(** The first filled buffer is taken and offered again. *)
Lemma rx_inv_take f q seen last x m es av : queue_ok q → rx_inv f q seen last ((x, m) :: es) av →
  rx_inv (offered q ((seen + Z.of_nat (length av)) mod 2 ^ 16) x f) q seen ((last + 1) mod 2 ^ 16) es (av ++ [x]).
Proof.
  intros [Hl Hr H1 H2 H3 _ H4] [Hu He Hd Ha Hring (Hnd & Hb & Hlen) Hla Hse Hde]. cbn [length fmap list_fmap fst app] in *.
  set (n := (seen + Z.of_nat (length av)) mod 2 ^ 16).
  split.
  - rewrite offered_apart by (unfold disjoint in *; lia). rewrite Hu. lia.
  - intros i y k Hi. rewrite offered_apart.
    + rewrite slot_mod. specialize (He (S i) y k Hi). rewrite <- He. do 3 f_equal. f_equal. lia.
    + pose proof (Z.mod_pos_bound ((last + 1) mod 2 ^ 16 + Z.of_nat i) RX_SIZE eq_refl). unfold disjoint, RX_SIZE in *. lia.
  - intros i y k Hi. destruct (Hd (S i) y k Hi) as (Hm & a & Hx & Hc). split; [done|]. exists a. split; [done|]. rewrite offered_apart; [done|].
    destruct (H4 _ _ Hx) as (_ & Hda & _). unfold disjoint in *. lia.
  - unfold offered. rewrite rd_wr_same by apply length_to_le. rewrite from_to_small by (cbn; lia). rewrite length_app. cbn [length]. unfold n. lia.
  - intros i y Hi. unfold offered. pose proof (Z.mod_pos_bound n RX_SIZE eq_refl) as Hn. pose proof (Z.mod_pos_bound (seen + Z.of_nat i) RX_SIZE eq_refl) as Hk.
    assert (n mod RX_SIZE = (seen + Z.of_nat (length av)) mod RX_SIZE) as En by (unfold n; rewrite <- (Z.add_0_r (_ mod 2 ^ 16)), slot_mod, Z.add_0_r; done).
    rewrite rd_wr_apart by (rewrite length_to_le; unfold RX_SIZE in *; lia).
    apply lookup_app_Some in Hi as [Hi|[Hi Hx]].
    + rewrite rd_wr_apart; [by apply Hring|]. rewrite length_to_le. apply lookup_lt_Some in Hi.
      pose proof (slot_ne seen (Z.of_nat i) (Z.of_nat (length av)) ltac:(lia) ltac:(lia) ltac:(lia)). rewrite En. unfold RX_SIZE in *. lia.
    + apply list_lookup_singleton_Some in Hx as [Hi0 <-]. replace i with (length av) by lia. rewrite En. by apply rd_wr_same, length_to_le.
  - apply NoDup_cons in Hnd as [Hx Hnd]. apply Forall_cons in Hb as [Hbx Hb]. rewrite app_assoc. split; [|split].
    + apply NoDup_app. split; [done|]. split; [intros y Hy ->%list_elem_of_singleton; done|apply NoDup_singleton].
    + apply Forall_app. split; [done|by apply Forall_singleton].
    + rewrite length_app. cbn. lia.
  - lia.
  - done.
  - intros y a Hy Ha'. rewrite offered_apart by (unfold disjoint, RX_SIZE in *; lia). by apply Hde.
Qed.

Section Steps.
Context {D : Type} `{MmioDevice D}.

Lemma ring_used_idx_spec used (b : Board D) : ring_used_idx used b = (Ok (from_le (rd_bytes (bram b) (used + 2) 2)), b).
Proof. unfold ring_used_idx, peek. rewrite (bind_on_bmach (gets _) _ _ _ _ eq_refl). by destruct b. Qed.

Lemma ring_used_elem_spec q seen last x m es av (b : Board D) : queue_ok q → rx_inv (bram b) q seen last ((x, m) :: es) av →
  ring_used_elem (q_used q) last b = (Ok (x, Z.of_nat (length m)), b).
Proof.
  intros Hq [_ He Hd _ _ (_ & Hb & _) _ _ _]. unfold ring_used_elem, peek. rewrite (bind_on_bmach (gets _) _ _ _ _ eq_refl). change (mem (bmach b)) with (bram b).
  specialize (He 0%nat x m eq_refl). rewrite Z.add_0_r in He. rewrite He. rewrite take_app_length', drop_app_length' by (by rewrite length_to_le).
  destruct (Hd 0%nat x m eq_refl) as [Hm _]. pose proof (qk_room q Hq). cbn in Hb. apply Forall_cons in Hb as [Hx _]. unfold RX_SIZE in Hx.
  rewrite !from_to_small by (change (256 ^ Z.of_nat 4) with (2 ^ 32); lia). by destruct b.
Qed.

Lemma ring_offer_spec q x (b : Board D) : ring_offer (q_avail q) x b =
  (Ok tt, mkBoard (set_mem (offered q (from_le (rd_bytes (bram b) (q_avail q + 2) 2)) x (bram b)) (bmach b)) (bdev b)).
Proof.
  unfold ring_offer, peek, poke. rewrite (bind_on_bmach (gets _) _ _ _ _ eq_refl). rewrite (bind_on_bmach (modify _) _ _ tt _ eq_refl). by destruct b as [[]].
Qed.

Lemma rx_pending f q seen last es av : rx_inv f q seen last es av → (from_le (rd_bytes f (q_used q + 2) 2) =? last) = bool_decide (es = []).
Proof.
  intros [Hu _ _ _ _ (_ & _ & Hlen) Hla _ _]. rewrite Hu. destruct es as [|e es]; cbn [length] in *.
  - rewrite bool_decide_eq_true_2 by done. apply Z.eqb_eq. lia.
  - rewrite bool_decide_eq_false_2 by done. apply Z.eqb_neq. lia.
Qed.
End Steps.

(** ** A device *)

Lemma desc_fields f p a n fl nx : rd_bytes f p 16 = desc_bytes a n fl nx → 0 ≤ a < 2 ^ 64 → 0 ≤ n < 2 ^ 32 →
  from_le (rd_bytes f p 8) = a ∧ from_le (rd_bytes f (p + 8) 4) = n.
Proof.
  intros E Ha Hn. change 16%nat with (8 + (4 + 4))%nat in E. rewrite !rd_bytes_split in E. unfold desc_bytes in E.
  apply app_inj_1 in E as [E1 E]; [|by rewrite length_rd_bytes, length_to_le]. apply app_inj_1 in E as [E2 _]; [|by rewrite length_rd_bytes, length_to_le].
  change (Z.of_nat 8) with 8 in E2. rewrite E1, E2. by rewrite !from_to_small by (cbn; lia).
Qed.

(** Messages on the wire are delivered one at a run, into the buffer of the
    next descriptor on offer if there is room in it. *)
Record Wire := mkWire { w_wire : list (list Z); w_inbox : list (list Z); w_heard : Z; w_queue : option RxQueue }.

Definition wire_store (f : Z → Z) (q : RxQueue) (x a : Z) (m : list Z) : Z → Z :=
  let idx := from_le (rd_bytes f (q_used q + 2) 2) in
  let g := wr_bytes f a m in
  let g := wr_bytes g (q_used q + 4 + 8 * (idx mod RX_SIZE)) (to_le 4 x ++ to_le 4 (Z.of_nat (length m))) in
  wr_bytes g (q_used q + 2) (to_le 2 ((idx + 1) mod 2 ^ 16)).

Definition wire_deliver (b : Board Wire) : Board Wire :=
  let d := bdev b in
  match w_wire d, w_queue d with
  | m :: ms, Some q =>
      if from_le (rd_bytes (bram b) (q_avail q + 2) 2) =? w_heard d then b
      else
        let x := from_le (rd_bytes (bram b) (q_avail q + 4 + 2 * (w_heard d mod RX_SIZE)) 2) in
        let a := from_le (rd_bytes (bram b) (q_desc q + 16 * x) 8) in
        let room := from_le (rd_bytes (bram b) (q_desc q + 16 * x + 8) 4) in
        if Z.of_nat (length m) <=? room
        then mkBoard (set_mem (wire_store (bram b) q x a m) (bmach b)) (mkWire ms (w_inbox d ++ [m]) ((w_heard d + 1) mod 2 ^ 16) (w_queue d))
        else b
  | _, _ => b
  end.

#[export] Instance Wire_mmio : MmioDevice Wire := {
  mmio_read8 _ := ret 0;
  mmio_read32 _ := ret 0;
  mmio_read64 _ := ret 0;
  mmio_write32 _ _ := ret tt;
  device_runs := wire_deliver }.

Lemma wire_store_out f q x a m p k : disjoint a (Z.of_nat (length m)) p (Z.of_nat k) → disjoint (q_used q) 516 p (Z.of_nat k) →
  rd_bytes (wire_store f q x a m) p k = rd_bytes f p k.
Proof.
  intros H1 H2. unfold wire_store. pose proof (Z.mod_pos_bound (from_le (rd_bytes f (q_used q + 2) 2)) RX_SIZE eq_refl). unfold disjoint, RX_SIZE in *.
  rewrite !rd_wr_apart by (rewrite ?length_app, ?length_to_le; lia). done.
Qed.

Lemma wire_delivers f q seen last es x av a m : queue_ok q → rx_inv f q seen last es (x :: av) → q_bufs q !! Z.to_nat x = Some a → Z.of_nat (length m) ≤ q_room q →
  rx_inv (wire_store f q x a m) q ((seen + 1) mod 2 ^ 16) last (es ++ [(x, m)]) av.
Proof.
  intros [Hl Hr H1 H2 H3 _ H4] [Hu He Hd Ha Hring (Hnd & Hb & Hlen) Hla Hse Hde] Hx Hm. cbn [length] in *.
  destruct (H4 _ _ Hx) as (D1 & D2 & D3 & D4). apply NoDup_app in Hnd as (Hn1 & Hn2 & Hn3). apply NoDup_cons in Hn3 as [Hn3 Hn4].
  apply Forall_app in Hb as [Hb1 Hb2]. apply Forall_cons in Hb2 as [Hb2 Hb3].
  set (n := from_le (rd_bytes f (q_used q + 2) 2)) in *.
  assert (n mod RX_SIZE = (last + Z.of_nat (length es)) mod RX_SIZE) as En by (rewrite Hu; rewrite <- (Z.add_0_r (_ mod 2 ^ 16)), slot_mod, Z.add_0_r; done).
  pose proof (Z.mod_pos_bound n RX_SIZE eq_refl) as Hnb. split.
  - unfold wire_store. fold n. rewrite rd_wr_same by apply length_to_le. rewrite from_to_small by (cbn; lia). rewrite length_app. cbn [length]. lia.
  - intros i y k Hi. pose proof (Z.mod_pos_bound (last + Z.of_nat i) RX_SIZE eq_refl) as Hib. unfold wire_store. fold n.
    rewrite rd_wr_apart by (rewrite length_to_le; unfold RX_SIZE in *; lia). apply lookup_app_Some in Hi as [Hi|[Hi Hy]].
    + pose proof (lookup_lt_Some _ _ _ Hi) as Hli.
      pose proof (slot_ne last (Z.of_nat i) (Z.of_nat (length es)) ltac:(lia) ltac:(lia) ltac:(lia)) as Hne. rewrite <- En in Hne.
      rewrite rd_wr_apart by (rewrite length_app, !length_to_le; unfold RX_SIZE in *; lia).
      rewrite rd_wr_apart by (unfold disjoint, RX_SIZE in *; lia). by apply He.
    + apply list_lookup_singleton_Some in Hy as [Hi0 [= <- <-]]. replace i with (length es) by lia. rewrite <- En. by apply rd_wr_same.
  - intros i y k Hi. apply lookup_app_Some in Hi as [Hi|[Hi Hy]].
    + destruct (Hd i y k Hi) as (Hk & a' & Hy & Hc). split; [done|]. exists a'. split; [done|].
      assert (y ∈ es.*1) as Hye by (apply list_elem_of_fmap; exists (y, k); split; [done|by eapply list_elem_of_lookup_2]).
      pose proof (proj1 (Forall_forall _ _) Hb1 y Hye) as Hyb. cbv beta in Hyb, Hb2.
      assert (Z.to_nat x ≠ Z.to_nat y) as Hne. { intros E. assert (x = y) as -> by (unfold RX_SIZE in *; lia). by apply (Hn2 y Hye); left. }
      specialize (D4 _ _ Hy Hne). destruct (H4 _ _ Hy) as (_ & _ & D5 & _). rewrite wire_store_out; [done|by eapply disjoint_sub|by eapply disjoint_sub].
    + apply list_lookup_singleton_Some in Hy as [Hi0 [= <- <-]]. split; [done|]. exists a. split; [done|]. unfold wire_store. fold n.
      rewrite !rd_wr_apart by (rewrite ?length_app, ?length_to_le; unfold disjoint, RX_SIZE in *; lia). by apply rd_wr_same.
  - rewrite wire_store_out by (unfold disjoint in *; lia). rewrite Ha. lia.
  - intros i y Hi. pose proof (Z.mod_pos_bound ((seen + 1) mod 2 ^ 16 + Z.of_nat i) RX_SIZE eq_refl). rewrite wire_store_out by (unfold disjoint, RX_SIZE in *; lia).
    rewrite slot_mod. specialize (Hring (S i) y Hi). rewrite <- Hring. do 3 f_equal. f_equal. lia.
  - rewrite fmap_app. cbn. rewrite <- app_assoc. cbn. split; [apply NoDup_app; split; [done|split; [done|by apply NoDup_cons]]|].
    split; [apply Forall_app; split; [done|by apply Forall_cons]|]. rewrite length_app. cbn. lia.
  - done.
  - lia.
  - intros y a' Hy Ha'. rewrite wire_store_out by (unfold disjoint, RX_SIZE in *; lia). by apply Hde.
Qed.

#[local] Obligation Tactic := idtac.

#[export] Program Instance Wire_receiver : Receiver Wire := {
  inbox := w_inbox;
  heard := w_heard;
  rx_window _ := VIRTIO_MMIO_BASE;
  rx_queue := w_queue }.
Next Obligation.
  intros b q last es av Hq Hok Hinv. cbv beta in *. cbv zeta. cbn [device_runs Wire_mmio]. unfold wire_deliver.
  assert (∃ ms, (length ms ≤ length av)%nat ∧ rx_inv (bram b) q (w_heard (bdev b)) last (es ++ zip av ms) (drop (length ms) av) ∧
    w_heard (bdev b) = (w_heard (bdev b) + Z.of_nat (length ms)) mod 2 ^ 16 ∧ w_inbox (bdev b) = w_inbox (bdev b) ++ ms ∧
    w_queue (bdev b) = Some q ∧ VIRTIO_MMIO_BASE = VIRTIO_MMIO_BASE) as Hnone.
  { exists []. split; [cbn; lia|]. rewrite zip_with_nil_r, !app_nil_r. pose proof (rx_seen _ _ _ _ _ _ Hinv). split; [done|]. split; [cbn; lia|done]. }
  rewrite Hq. destruct (w_wire (bdev b)) as [|m ms]; [done|]. rewrite (rx_avail _ _ _ _ _ _ Hinv). destruct av as [|x av].
  { cbn [length]. pose proof (rx_seen _ _ _ _ _ _ Hinv). rewrite (proj2 (Z.eqb_eq _ _)) by lia. done. }
  pose proof (rx_seen _ _ _ _ _ _ Hinv) as Hs. destruct (rx_ids _ _ _ _ _ _ Hinv) as (_ & Hb & Hlen). cbn [length] in Hlen |- *.
  rewrite (proj2 (Z.eqb_neq _ _)) by lia. pose proof (rx_ring _ _ _ _ _ _ Hinv 0%nat x eq_refl) as Hx. rewrite Z.add_0_r in Hx. rewrite Hx.
  apply Forall_app in Hb as [_ Hb]. apply Forall_cons in Hb as [Hb _]. unfold RX_SIZE in Hb. rewrite from_to_small by (cbn; lia).
  destruct (lookup_lt_is_Some_2 (q_bufs q) (Z.to_nat x)) as [a Ha]; [rewrite (qk_len q Hok); lia|].
  destruct (desc_fields _ _ _ _ _ _ (rx_descs _ _ _ _ _ _ Hinv x a Hb Ha)) as [-> ->]; [apply (qk_addr q Hok _ _ Ha)|apply (qk_room q Hok)|].
  destruct (Z.leb_spec (Z.of_nat (length m)) (q_room q)) as [Hm|]; [|done].
  exists [m]. split; [cbn; lia|]. cbn. rewrite zip_with_nil_r, drop_0. split; [by apply wire_delivers|]. done.
Qed.
Next Obligation. intros b off. exists 0, (bdev b). split; [by destruct b|done]. Qed.
Next Obligation. intros b off v. exists (bdev b). split; [by destruct b|done]. Qed.
