(* ===== verification/VirtNet.v ===== *)
(** * Network device driver ([drivers/virtio/net.rs])

    One queue to receive, one to send; every frame has a header of ten bytes in
    front.  Receiving is verified against the class [Receiver] of [Virtq].  Pointers
    are physical addresses.  Between two looks at the used ring the device runs. *)

From S2P Require Import Prelude.
From S2P Require Import Pmm.
From S2P Require Import Paging.
From S2P Require Import Block.
From S2P Require Import Virtq.

Definition NET_HDR_LEN : Z := 10.

Record VirtioNet := mkNet {
  n_mmio : VirtioMmio; rx_desc : Z; rx_avail_ptr : Z; rx_used_ptr : Z; rx_bufs : list Z; rx_last_used : Z;
  tx_desc : Z; tx_avail : Z; tx_used : Z; tx_buf_phys : Z; tx_last_used : Z; tx_avail_idx : Z;
  n_rx_pending : list (list Z); n_mac : list Z }.

Definition set_rx (last : Z) (pending : list (list Z)) (v : VirtioNet) : VirtioNet :=
  mkNet (n_mmio v) (rx_desc v) (rx_avail_ptr v) (rx_used_ptr v) (rx_bufs v) last (tx_desc v) (tx_avail v) (tx_used v) (tx_buf_phys v)
    (tx_last_used v) (tx_avail_idx v) pending (n_mac v).
Definition set_tx (last idx : Z) (v : VirtioNet) : VirtioNet :=
  mkNet (n_mmio v) (rx_desc v) (rx_avail_ptr v) (rx_used_ptr v) (rx_bufs v) (rx_last_used v) (tx_desc v) (tx_avail v) (tx_used v) (tx_buf_phys v)
    last idx (n_rx_pending v) (n_mac v).

Record NetDev (D : Type) := mkNetDev { nboard : Board D; NET_DEV : option VirtioNet }.
Arguments mkNetDev {D} _ _.
Arguments nboard {D} _.
Arguments NET_DEV {D} _.

Section Driver.
Context {D : Type} `{MmioDevice D} (hhdm : Z).
Local Abbreviation MB := (M (Board D)).
Local Abbreviation MN := (M (NetDev D)).

Definition on_nboard {A} (m : MB A) : MN A := λ s, let '(r, b) := m (nboard s) in (r, mkNetDev b (NET_DEV s)).

(** Descriptors, available ring and used ring of a new queue. *)
Definition alloc_queue : MB (Z * Z * Z) :=
  let! o := on_bmach (lift_pmm Pmm.alloc_page) in
  let! p0 := or_panic o in
  let! o := on_bmach (lift_pmm Pmm.alloc_page) in
  let! p1 := or_panic o in
  on_bmach (write_zero_page p0) ;;; on_bmach (write_zero_page p1) ;;;
  ret (p0, p0 + 16 * RX_SIZE, p1).

(** One buffer for each receive descriptor. *)
Fixpoint fill_rx (l : list Z) (desc avail : Z) : MB (list Z) :=
  match l with
  | [] => ret []
  | i :: l' =>
      let! buf := zeroed_page in
      poke (desc + 16 * i) (desc_bytes buf 4096 VRING_DESC_F_WRITE 0) ;;;
      poke (avail + 4 + 2 * i) (to_le 2 i) ;;;
      let! bufs := fill_rx l' desc avail in
      ret (buf :: bufs)
  end.

Definition read_mac (m : VirtioMmio) : MB (list Z) :=
  let! b0 := read_config8 m 0 in let! b1 := read_config8 m 1 in let! b2 := read_config8 m 2 in
  let! b3 := read_config8 m 3 in let! b4 := read_config8 m 4 in let! b5 := read_config8 m 5 in
  ret [b0; b1; b2; b3; b4; b5].

Definition init_net_device (m : VirtioMmio) : MN () :=
  let! ok := on_nboard (mmio_init m) in
  if negb ok then ret tt else
  let! mac := on_nboard (read_mac m) in
  let! rx := on_nboard alloc_queue in
  let '(rx_desc, rx_avail, rx_used) := rx in
  on_nboard (setup_queue m 0 RX_SIZE rx_desc rx_avail rx_used) ;;;
  let! tx := on_nboard alloc_queue in
  let '(tx_desc, tx_avail, tx_used) := tx in
  on_nboard (setup_queue m 1 RX_SIZE tx_desc tx_avail tx_used) ;;;
  on_nboard (driver_ok m) ;;;
  let! bufs := on_nboard (fill_rx (seqZ 0 RX_SIZE) rx_desc rx_avail) in
  on_nboard (poke (rx_avail + 2) (to_le 2 RX_SIZE)) ;;;
  on_nboard (notify m 0) ;;;
  let! tx_buf := on_nboard zeroed_page in
  modify (λ s, mkNetDev (nboard s) (Some (mkNet m rx_desc rx_avail rx_used bufs 0 tx_desc tx_avail tx_used tx_buf 0 0 [] mac))).

Fixpoint net_probe_slots (l : list Z) : MN () :=
  match l with
  | [] => ret tt
  | i :: l' =>
      let base := VIRTIO_MMIO_BASE + i * VIRTIO_MMIO_STRIDE + hhdm in
      let! o := on_nboard (mmio_new base) in
      match o with
      | None => net_probe_slots l'
      | Some m => let! i := on_nboard (device_id m) in if i =? 1 then init_net_device m else net_probe_slots l'
      end
  end.
Definition net_probe : MN () := net_probe_slots (seqZ 0 32).

(** ** Sending *)

(** Up to 64 looks at the used ring; each counts one completion. *)
Fixpoint drain_tx (looks : nat) (used last : Z) : MB Z :=
  match looks with
  | O => ret last
  | S n =>
      let! idx := ring_used_idx used in
      if idx =? last then ret last else modify device_runs ;;; drain_tx n used ((last + 1) mod 2 ^ 16)
  end.

(** The frame is put into the buffer and announced. *)
Definition send_frame (frame : list Z) (v : VirtioNet) : MB () :=
  let total := NET_HDR_LEN + Z.of_nat (length frame) in
  poke (tx_buf_phys v) (replicate 10 0) ;;;
  poke (tx_buf_phys v + NET_HDR_LEN) frame ;;;
  let desc_idx := tx_avail_idx v mod RX_SIZE in
  poke (tx_desc v + 16 * desc_idx) (desc_bytes (tx_buf_phys v) total 0 0) ;;;
  ring_offer (tx_avail v) desc_idx ;;;
  notify (n_mmio v) 1.

Definition transmit_frame (frame : list Z) : MN () :=
  let! o := gets NET_DEV in
  match o with
  | None => ret tt
  | Some v =>
      if 4096 <? Z.of_nat (length frame) + NET_HDR_LEN then ret tt else
      on_nboard (send_frame frame v) ;;;
      let! last := on_nboard (drain_tx 64 (tx_used v) (tx_last_used v)) in
      modify (λ s, mkNetDev (nboard s) (Some (set_tx last ((tx_avail_idx v + 1) mod 2 ^ 16) v)))
  end.

(** ** Receiving *)

(** A filled buffer: the frame behind the header is kept, the buffer offered again. *)
Definition take_frame (v : VirtioNet) : MB VirtioNet :=
  let! e := ring_used_elem (rx_used_ptr v) (rx_last_used v) in
  let '(desc_idx, total_len) := e in
  let! frames :=
    if NET_HDR_LEN <? total_len then
      let! buf := or_panic (rx_bufs v !! Z.to_nat desc_idx) in
      let! data := peek (buf + NET_HDR_LEN) (Z.to_nat (total_len - NET_HDR_LEN)) in
      ret (n_rx_pending v ++ [data])
    else ret (n_rx_pending v) in
  let! buf := or_panic (rx_bufs v !! Z.to_nat desc_idx) in
  poke (rx_desc v + 16 * desc_idx) (desc_bytes buf 4096 VRING_DESC_F_WRITE 0) ;;;
  ring_offer (rx_avail_ptr v) desc_idx ;;;
  notify (n_mmio v) 0 ;;;
  ret (set_rx ((rx_last_used v + 1) mod 2 ^ 16) frames v).

(** [turns] bounds the turns of the loop, which ends when the device pauses. *)
Fixpoint poll_rx_loop (turns : nat) (v : VirtioNet) : MB (VirtioNet * bool) :=
  modify device_runs ;;;
  let! used_idx := ring_used_idx (rx_used_ptr v) in
  if used_idx =? rx_last_used v then ret (v, true) else
  match turns with
  | O => ret (v, false)
  | S n => let! v' := take_frame v in poll_rx_loop n v'
  end.

Definition poll_rx (turns : nat) : MN bool :=
  let! o := gets NET_DEV in
  match o with
  | None => ret true
  | Some v => let! r := on_nboard (poll_rx_loop turns v) in modify (λ s, mkNetDev (nboard s) (Some r.1)) ;;; ret r.2
  end.

Definition take_rx_frames : MN (list (list Z)) :=
  let! o := gets NET_DEV in
  match o with
  | Some v => modify (λ s, mkNetDev (nboard s) (Some (set_rx (rx_last_used v) [] v))) ;;; ret (n_rx_pending v)
  | None => ret []
  end.

Definition mac_address (s : NetDev D) : list Z := from_option n_mac (replicate 6 0) (NET_DEV s).
Definition net_is_available (s : NetDev D) : bool := bool_decide (is_Some (NET_DEV s)).
End Driver.

(** ** What is received *)

Section Receive.
Context {D : Type} `{Receiver D}.

Definition net_queue (v : VirtioNet) : RxQueue := mkRxQueue (rx_desc v) (rx_avail_ptr v) (rx_used_ptr v) (rx_bufs v) 4096.

(** The driver is set up on a device; [es] are the messages to take, [av] the
    buffers offered. *)
Record net_ready (b : Board D) (v : VirtioNet) (es : list (Z * list Z)) (av : list Z) : Prop := {
  nr_queue : rx_queue (bdev b) = Some (net_queue v);
  nr_ok : queue_ok (net_queue v);
  nr_inv : rx_inv (bram b) (net_queue v) (heard (bdev b)) (rx_last_used v) es av;
  nr_window : mbase (n_mmio v) = rx_window (bdev b) }.

(** The frames in a series of messages: what follows the header, if anything does. *)
Definition frames_of (ms : list (list Z)) : list (list Z) := drop 10 <$> filter (λ m, (10 < length m)%nat) ms.

Lemma frames_of_cons m ms : frames_of (m :: ms) = (if bool_decide (10 < length m)%nat then [drop 10 m] else []) ++ frames_of ms.
Proof. unfold frames_of. rewrite filter_cons. case_decide; [by rewrite bool_decide_eq_true_2|by rewrite bool_decide_eq_false_2]. Qed.

Lemma take_frame_spec b v x m es av : net_ready b v ((x, m) :: es) av →
  ∃ b' v', take_frame v b = (Ok v', b') ∧ net_ready b' v' es (av ++ [x]) ∧ inbox (bdev b') = inbox (bdev b) ∧ heard (bdev b') = heard (bdev b) ∧ net_queue v' = net_queue v ∧
    n_rx_pending v' = n_rx_pending v ++ frames_of [m].
Proof.
  intros [Hq Hok Hi Hw]. destruct (rx_data _ _ _ _ _ _ Hi 0%nat x m eq_refl) as (Hm & a & Ha & Hc). cbn [q_room q_bufs net_queue] in Hm, Ha.
  unfold take_frame. rewrite (bind_ok _ _ _ _ _ (ring_used_elem_spec _ _ _ _ _ _ _ b Hok Hi)).
  rewrite (bind_ok _ _ b (n_rx_pending v ++ frames_of [m]) b).
  2:{ rewrite frames_of_cons. unfold NET_HDR_LEN. destruct (Z.ltb_spec 10 (Z.of_nat (length m))).
      - rewrite Ha, bind_or_panic. unfold peek. rewrite (bind_on_bmach (gets _) _ _ _ _ eq_refl). rewrite bool_decide_eq_true_2 by lia.
        assert (rd_bytes (mem (bmach b)) (a + 10) (Z.to_nat (Z.of_nat (length m) - 10)) = drop 10 m) as ->; [|by destruct b].
        transitivity (drop 10 (rd_bytes (bram b) a (length m))); [|by rewrite Hc].
        replace (length m) with (10 + (length m - 10))%nat at 2 by lia. rewrite rd_bytes_split, drop_app_length' by (by rewrite length_rd_bytes).
        by replace (Z.to_nat (Z.of_nat (length m) - 10)) with (length m - 10)%nat by lia.
      - rewrite bool_decide_eq_false_2 by lia. cbn. by rewrite app_nil_r. }
  rewrite Ha, bind_or_panic. unfold poke. rewrite (bind_on_bmach (modify _) _ _ tt _ eq_refl). change (mem (bmach b)) with (bram b). set (b1 := mkBoard _ _).
  destruct (rx_ids _ _ _ _ _ _ Hi) as (_ & Hb & _). apply Forall_cons in Hb as [Hx _]. cbn [fst] in Hx.
  assert (rx_inv (bram b1) (net_queue v) (heard (bdev b)) (rx_last_used v) ((x, m) :: es) av) as Hi1 by (by apply (rx_inv_desc (bram b) (net_queue v))).
  rewrite (bind_ok _ _ _ _ _ (ring_offer_spec (net_queue v) x b1)). rewrite (rx_avail _ _ _ _ _ _ Hi1). set (b2 := mkBoard _ (bdev b1)).
  destruct (rx_register b2 QUEUE_NOTIFY 0) as (d & En & Di & Dh & Dw & Dq). unfold notify, write32. rewrite Hw. change (rx_window (bdev b)) with (rx_window (bdev b2)).
  rewrite (bind_ok _ _ _ _ _ En). eexists _, _. split; [reflexivity|]. split; [|by cbn; rewrite Di, Dh]. split; cbn [bdev n_mmio set_rx].
  - by rewrite Dq.
  - done.
  - rewrite Dh. exact (rx_inv_take _ _ _ _ _ _ _ _ Hok Hi1).
  - by rewrite Dw.
Qed.

Lemma zip_fst {A B} (l : list A) (k : list B) : (length k ≤ length l)%nat → (zip l k).*1 = take (length k) l.
Proof. revert k. induction l as [|x l IH]; intros [|y k] Hk; cbn in *; [done|lia|done|]. rewrite IH by lia. done. Qed.
Lemma zip_snd {A B} (l : list A) (k : list B) : (length k ≤ length l)%nat → (zip l k).*2 = k.
Proof. apply snd_zip. Qed.

Lemma poll_rx_loop_spec turns : ∀ b v es av, net_ready b v es av →
  ∃ b' v' fin es' av' ms taken, poll_rx_loop turns v b = (Ok (v', fin), b') ∧ net_ready b' v' es' av' ∧
    heard (bdev b') = (heard (bdev b) + Z.of_nat (length ms)) mod 2 ^ 16 ∧ es'.*1 ++ av' ≡ₚ es.*1 ++ av ∧ net_queue v' = net_queue v ∧
    inbox (bdev b') = inbox (bdev b) ++ ms ∧ es.*2 ++ ms = taken ++ es'.*2 ∧ n_rx_pending v' = n_rx_pending v ++ frames_of taken ∧
    (if fin then es' = [] else length taken = turns).
Proof.
  induction turns as [|turns IH]; intros b v es av Hr; cbn [poll_rx_loop]; rewrite bind_modify;
    destruct (rx_runs b _ _ _ _ (nr_queue _ _ _ _ Hr) (nr_ok _ _ _ _ Hr) (nr_inv _ _ _ _ Hr)) as (ms & Hlen & Hi & Hh & Hin & Hq & Hw);
    set (b1 := device_runs b) in *; set (es1 := es ++ zip av ms) in *; set (av1 := drop (length ms) av) in *;
    (assert (net_ready b1 v es1 av1) as Hr1 by (split; [done|apply Hr|done|by rewrite Hw; apply Hr]));
    (assert (es1.*2 = es.*2 ++ ms) as E2 by (unfold es1; by rewrite fmap_app, zip_snd));
    (assert (es1.*1 ++ av1 = es.*1 ++ av) as E1 by (unfold es1, av1; by rewrite fmap_app, zip_fst, <- app_assoc, take_drop));
    rewrite (bind_ok _ _ _ _ _ (ring_used_idx_spec (rx_used_ptr v) b1)); change (rx_used_ptr v) with (q_used (net_queue v));
    rewrite (rx_pending _ _ _ _ _ _ Hi); clearbody es1 av1.
  - case_bool_decide as Ee.
    + exists b1, v, true, es1, av1, ms, (es.*2 ++ ms). rewrite E1. subst es1. rewrite <- E2, !app_nil_r. done.
    + exists b1, v, false, es1, av1, ms, []. rewrite E1. cbn. rewrite app_nil_r, E2. done.
  - case_bool_decide as Ee.
    + exists b1, v, true, es1, av1, ms, (es.*2 ++ ms). rewrite E1. subst es1. rewrite <- E2, !app_nil_r. done.
    + destruct es1 as [|[x m] es1]; [done|]. destruct (take_frame_spec b1 v x m es1 av1 Hr1) as (b2 & v2 & Et & Hr2 & Hin2 & Hh2 & Hq2 & Hp2).
      rewrite (bind_ok _ _ _ _ _ Et). destruct (IH b2 v2 es1 (av1 ++ [x]) Hr2) as (b3 & v3 & fin & es3 & av3 & ms3 & taken & Ep & Hr3 & Hh3 & Hperm & Hq3 & Hin3 & Eq & Hp3 & Hf).
      exists b3, v3, fin, es3, av3, (ms ++ ms3), (m :: taken). split; [exact Ep|]. split; [done|].
      split; [rewrite Hh3, Hh2, Hh, length_app; lia|]. split; [rewrite Hperm, <- E1; cbn; rewrite app_assoc; symmetry; apply Permutation_cons_append|]. split; [by rewrite Hq3|]. split; [by rewrite Hin3, Hin2, Hin, app_assoc|].
      split; [rewrite app_assoc, <- E2; cbn; by rewrite Eq|]. split; [by rewrite Hp3, Hp2, frames_of_cons, frames_of_cons, app_nil_r, app_assoc|].
      destruct fin; [done|]. cbn. by rewrite Hf.
Qed.
End Receive.

(** The index of the available ring: how many buffers the driver has offered. *)
Definition offers (f : Z → Z) (v : VirtioNet) : Z := from_le (rd_bytes f (rx_avail_ptr v + 2) 2).

(** C33. Frames are received whole and in order, none lost and none twice: whatever the
    device delivers while the driver polls, the frames it then hands on are those
    that had been waiting followed by the contents, without the header, of the
    messages taken, which are the first of those delivered; the rest are still in
    the ring.  The poll ends only when the ring is empty, unless [turns] messages
    have been taken.  Every buffer taken goes back to the device: the available ring
    has moved on by one entry for each, the buffers with a message and those on offer
    are together the same as before, and every descriptor names its buffer. *)
Theorem rx_in_order `{Receiver D} turns (b : Board D) v es av : net_ready b v es av →
  ∃ s' v' fin es' av' ms taken, poll_rx turns (mkNetDev b (Some v)) = (Ok fin, s') ∧ NET_DEV s' = Some v' ∧ net_ready (nboard s') v' es' av' ∧
    inbox (bdev (nboard s')) = inbox (bdev b) ++ ms ∧ es.*2 ++ ms = taken ++ es'.*2 ∧
    (take_rx_frames s').1 = Ok (n_rx_pending v ++ frames_of taken) ∧ (if fin then es' = [] else length taken = turns) ∧
    offers (bram (nboard s')) v = (offers (bram b) v + Z.of_nat (length taken)) mod 2 ^ 16 ∧ es'.*1 ++ av' ≡ₚ es.*1 ++ av ∧
    ∀ x a, 0 ≤ x < 64 → rx_bufs v !! Z.to_nat x = Some a → rd_bytes (bram (nboard s')) (rx_desc v + 16 * x) 16 = desc_bytes a 4096 VRING_DESC_F_WRITE 0.
Proof.
  intros Hr. destruct (poll_rx_loop_spec turns b v es av Hr) as (b' & v' & fin & es' & av' & ms & taken & E & Hr' & Hh & Hperm & Hqq & Hin & Eq & Hp & Hf).
  exists (mkNetDev b' (Some v')), v', fin, es', av', ms, taken. split; [|split; [done|]].
  - unfold poll_rx, bind, gets, on_nboard. cbn. by rewrite E.
  - do 3 (split; [done|]). split; [by rewrite <- Hp|]. split; [done|]. injection Hqq as Ed Ea _ Eb.
    split; [|split; [done|]].
    + pose proof (rx_avail _ _ _ _ _ _ (nr_inv _ _ _ _ Hr)) as A. pose proof (rx_avail _ _ _ _ _ _ (nr_inv _ _ _ _ Hr')) as A'.
      cbn [q_avail net_queue] in A, A'. rewrite Ea in A'. unfold offers. cbn [nboard]. rewrite A, A', Hh.
      apply Permutation_length in Hperm. apply (f_equal length) in Eq. rewrite !length_app, !length_fmap in *. lia.
    + intros x a Hx Ha. pose proof (rx_descs _ _ _ _ _ _ (nr_inv _ _ _ _ Hr') x a Hx) as Hd. cbn [q_bufs q_desc q_room net_queue] in Hd. rewrite Eb, Ed in Hd. by apply Hd.
Qed.

(** ** What is sent *)

Record tx_ok (v : VirtioNet) : Prop := {
  tk_desc_avail : disjoint (tx_desc v) 1024 (tx_avail v) 132;
  tk_desc_used : disjoint (tx_desc v) 1024 (tx_used v) 516;
  tk_desc_buf : disjoint (tx_desc v) 1024 (tx_buf_phys v) 4096;
  tk_avail_used : disjoint (tx_avail v) 132 (tx_used v) 516;
  tk_avail_buf : disjoint (tx_avail v) 132 (tx_buf_phys v) 4096;
  tk_used_buf : disjoint (tx_used v) 516 (tx_buf_phys v) 4096;
  tk_idx : 0 ≤ tx_avail_idx v < 2 ^ 16 }.

(** The [n]th entry of the ring is descriptor [k], which gives the buffer the length of
    header and frame. *)
Definition announced (f : Z → Z) (v : VirtioNet) (n k : Z) (len : nat) : Prop :=
  rd_bytes f (tx_avail v + 4 + 2 * (n mod RX_SIZE)) 2 = to_le 2 k ∧
  rd_bytes f (tx_desc v + 16 * k) 16 = desc_bytes (tx_buf_phys v) (10 + Z.of_nat len) 0 0.
Definition tx_index (f : Z → Z) (v : VirtioNet) : Z := from_le (rd_bytes f (tx_avail v + 2) 2).

(** The stores of [send_frame]. *)
Definition sending (v : VirtioNet) (frame : list Z) (f : Z → Z) : Z → Z :=
  let g := wr_bytes f (tx_buf_phys v) (replicate 10 0) in
  let g := wr_bytes g (tx_buf_phys v + 10) frame in
  let g := wr_bytes g (tx_desc v + 16 * (tx_avail_idx v mod RX_SIZE)) (desc_bytes (tx_buf_phys v) (10 + Z.of_nat (length frame)) 0 0) in
  offered (mkRxQueue 0 (tx_avail v) 0 [] 0) (tx_index f v) (tx_avail_idx v mod RX_SIZE) g.

Lemma send_frame_spec `{MmioDevice D} frame v (b : Board D) : tx_ok v → Z.of_nat (length frame) + 10 ≤ 4096 →
  send_frame frame v b = notify (n_mmio v) 1 (mkBoard (set_mem (sending v frame (bram b)) (bmach b)) (bdev b)).
Proof.
  intros [H1 H2 H3 H4 H5 H6 Hx] Hlen. unfold send_frame, poke. rewrite !(bind_on_bmach (modify _) _ _ tt _ eq_refl). cbn [bmach bdev mem set_mem].
  change (tx_avail v) with (q_avail (mkRxQueue 0 (tx_avail v) 0 [] 0)) at 1. rewrite (bind_ok _ _ _ _ _ (ring_offer_spec _ _ _)).
  pose proof (Z.mod_pos_bound (tx_avail_idx v) RX_SIZE eq_refl) as Hk. unfold sending, tx_index, bram. cbn [bmach bdev mem set_mem q_avail]. unfold NET_HDR_LEN.
  rewrite !(rd_wr_apart _ _ _ (tx_avail v + 2)); [done|..]; rewrite ?length_desc, ?length_replicate; unfold disjoint, RX_SIZE in *; lia.
Qed.

Lemma sending_spec v frame f : tx_ok v → Z.of_nat (length frame) + 10 ≤ 4096 → 0 ≤ tx_index f v < 2 ^ 16 → let g := sending v frame f in
  announced g v (tx_index f v) (tx_avail_idx v mod RX_SIZE) (length frame) ∧ tx_index g v = (tx_index f v + 1) mod 2 ^ 16 ∧
  rd_bytes g (tx_buf_phys v) (10 + length frame) = replicate 10 0 ++ frame ∧
  (∀ n k len, announced f v n k len → 0 ≤ k < RX_SIZE → k ≠ tx_avail_idx v mod RX_SIZE → n mod RX_SIZE ≠ tx_index f v mod RX_SIZE → announced g v n k len) ∧
  rd_bytes g (tx_used v + 2) 2 = rd_bytes f (tx_used v + 2) 2.
Proof.
  intros [H1 H2 H3 H4 H5 H6 Hx] Hlen Hi g. pose proof (Z.mod_pos_bound (tx_avail_idx v) RX_SIZE eq_refl) as Hk. pose proof (Z.mod_pos_bound (tx_index f v) RX_SIZE eq_refl) as Hn.
  unfold g, sending, announced, offered. cbn [q_avail]. unfold disjoint, RX_SIZE in *. set (k := tx_avail_idx v mod 64) in *. set (n := tx_index f v) in *.
  assert (length (desc_bytes (tx_buf_phys v) (10 + Z.of_nat (length frame)) 0 0) = 16%nat) as Hd by apply length_desc. set (dsc := desc_bytes _ _ 0 0) in *.
  split_and!.
  - rewrite rd_wr_apart by (rewrite length_to_le; lia). by apply rd_wr_same, length_to_le.
  - rewrite !rd_wr_apart by (rewrite length_to_le; lia). by apply rd_wr_same.
  - unfold tx_index. rewrite rd_wr_same by apply length_to_le. apply from_to_small. cbn. lia.
  - rewrite !rd_wr_apart by (rewrite ?length_to_le, ?Hd; lia). rewrite rd_bytes_split. change (Z.of_nat 10) with 10. f_equal; [|by apply rd_wr_same].
    rewrite rd_wr_apart by lia. by apply rd_wr_same.
  - intros m j len [E1 E2] Hj Hjk Hmn. pose proof (Z.mod_pos_bound m 64 eq_refl) as Hm. clearbody k n dsc. split.
    + rewrite !rd_wr_apart by (rewrite ?length_to_le, ?Hd, ?length_replicate; lia). done.
    + rewrite !rd_wr_apart by (rewrite ?length_to_le, ?Hd, ?length_replicate; lia). done.
  - clearbody k n dsc. rewrite !rd_wr_apart by (rewrite ?length_to_le, ?Hd, ?length_replicate; lia). done.
Qed.

Section Send.
Context {D : Type} `{Receiver D}.

(** The driver may send, and the device has nothing to report. *)
Record tx_idle (b : Board D) (v : VirtioNet) : Prop := {
  ti_ok : tx_ok v;
  ti_index : tx_index (bram b) v = tx_avail_idx v;
  ti_used : from_le (rd_bytes (bram b) (tx_used v + 2) 2) = tx_last_used v;
  ti_window : mbase (n_mmio v) = rx_window (bdev b) }.

Definition sent (v : VirtioNet) : VirtioNet := set_tx (tx_last_used v) ((tx_avail_idx v + 1) mod 2 ^ 16) v.

Lemma transmit_spec frame b v : tx_idle b v → Z.of_nat (length frame) + 10 ≤ 4096 →
  ∃ d, transmit_frame frame (mkNetDev b (Some v)) = (Ok tt, mkNetDev (mkBoard (set_mem (sending v frame (bram b)) (bmach b)) d) (Some (sent v))) ∧
    tx_idle (mkBoard (set_mem (sending v frame (bram b)) (bmach b)) d) (sent v).
Proof.
  intros [Hok Hi Hu Hw] Hlen. destruct (sending_spec v frame (bram b) Hok Hlen ltac:(rewrite Hi; apply Hok)) as (_ & Ei & _ & _ & Eu).
  set (b1 := mkBoard (set_mem (sending v frame (bram b)) (bmach b)) (bdev b)).
  destruct (rx_register b1 QUEUE_NOTIFY 1) as (d & En & _ & _ & Dw & _). exists d. split.
  - unfold transmit_frame. rewrite bind_gets. cbn [NET_DEV]. unfold NET_HDR_LEN. rewrite (proj2 (Z.ltb_ge _ _)) by lia.
    unfold bind at 1, on_nboard at 1. cbn [nboard NET_DEV]. rewrite send_frame_spec by done. unfold notify, write32. rewrite Hw. change (rx_window (bdev b)) with (rx_window (bdev b1)).
    fold b1. rewrite En. unfold bind at 1, on_nboard at 1. cbn [nboard NET_DEV drain_tx]. rewrite (bind_ok _ _ _ _ _ (ring_used_idx_spec _ _)).
    change (bram (mkBoard (bmach b1) d)) with (sending v frame (bram b)). rewrite Eu, Hu, Z.eqb_refl. done.
  - split; [destruct Hok; split; try done; cbn; lia| | |cbn; by rewrite Dw].
    + change (tx_index (sending v frame (bram b)) v = (tx_avail_idx v + 1) mod 2 ^ 16). by rewrite Ei, Hi.
    + change (from_le (rd_bytes (sending v frame (bram b)) (tx_used v + 2) 2) = tx_last_used v). by rewrite Eu.
Qed.

(** There is one buffer for all frames to send, and nobody waits for the device to
    have read it: two frames sent one after the other before the device looks are
    both announced, but both entries of the ring name the same buffer, which holds
    the second frame. *)
Theorem tx_overwrites a c b v : tx_idle b v → Z.of_nat (length a) + 10 ≤ 4096 → Z.of_nat (length c) + 10 ≤ 4096 →
  let i := tx_avail_idx v in
  ∃ s', (transmit_frame a ;;; transmit_frame c) (mkNetDev b (Some v)) = (Ok tt, s') ∧ let g := bram (nboard s') in
    announced g v i (i mod RX_SIZE) (length a) ∧ announced g v ((i + 1) mod 2 ^ 16) ((i + 1) mod 2 ^ 16 mod RX_SIZE) (length c) ∧
    tx_index g v = (i + 2) mod 2 ^ 16 ∧ rd_bytes g (tx_buf_phys v) (10 + length c) = replicate 10 0 ++ c.
Proof.
  intros Hr Ha Hc i. destruct (transmit_spec a b v Hr Ha) as (d & E1 & Hr1). destruct (transmit_spec c _ _ Hr1 Hc) as (d2 & E2 & _).
  destruct (sending_spec v a (bram b) (ti_ok _ _ Hr) Ha) as (A1 & A2 & _ & _ & _); [rewrite (ti_index _ _ Hr); apply (ti_ok _ _ Hr)|].
  set (f1 := sending v a (bram b)) in *. set (b1 := mkBoard _ d) in *. change (bram b1) with f1 in *.
  destruct (sending_spec (sent v) c f1 (ti_ok _ _ Hr1) Hc) as (B1 & B2 & B3 & B4 & _); [change (tx_index f1 (sent v)) with (tx_index f1 v); rewrite A2; lia|].
  set (f2 := sending (sent v) c f1) in *. rewrite (ti_index _ _ Hr) in A1, A2. fold i in A1, A2.
  change (tx_index f1 (sent v)) with (tx_index f1 v) in B1, B2, B4. rewrite A2 in B1, B2, B4. change (tx_avail_idx (sent v)) with ((i + 1) mod 2 ^ 16) in B1, B4.
  eexists. split; [rewrite (bind_ok _ _ _ _ _ E1); exact E2|]. change (bram (nboard _)) with f2. cbv zeta. pose proof (tk_idx _ (ti_ok _ _ Hr)) as Hi. fold i in Hi.
  split; [apply (B4 i (i mod RX_SIZE) (length a) A1)|split; [exact B1|split; [|exact B3]]].
  - apply Z.mod_pos_bound. done.
  - unfold RX_SIZE. lia.
  - unfold RX_SIZE. lia.
  - change (tx_index f2 (sent v)) with (tx_index f2 v) in B2. rewrite B2. lia.
Qed.
End Send.

(** ** Witnesses *)

(** A driver that has just been set up; two messages are on the wire. *)
Definition demo_bufs : list Z := (λ i, 0x10000 + 4096 * i) <$> seqZ 0 64.
Definition demo_net_dev : VirtioNet := mkNet (mkMmio VIRTIO_MMIO_BASE 2) 0x1000 0x1400 0x2000 demo_bufs 0 0x3000 0x3400 0x4000 0x5000 0 0 [] [2; 0; 0; 0; 0; 1].
Definition demo_rings : Z → Z :=
  wr_bytes (wr_bytes (λ _, 0) 0x1000 (concat ((λ a, desc_bytes a 4096 VRING_DESC_F_WRITE 0) <$> demo_bufs)))
    0x1400 (to_le 2 0 ++ to_le 2 64 ++ concat (to_le 2 <$> seqZ 0 64)).
Definition demo_wire : Board Wire :=
  mkBoard (mkMach (Pmm.mkPmm [] 0 0) demo_rings) (mkWire [replicate 10 0 ++ [1; 2; 3]; replicate 10 0 ++ [4]] [] 0 (Some (net_queue demo_net_dev))).

Lemma demo_queue_ok : queue_ok (net_queue demo_net_dev).
Proof.
  assert (∀ i a, demo_bufs !! i = Some a → a = 0x10000 + 4096 * Z.of_nat i ∧ (i < 64)%nat) as Hb.
  { intros j c. unfold demo_bufs. rewrite list_lookup_fmap. intros (y & [-> ?]%lookup_seqZ & ->)%fmap_Some. lia. }
  split; [done|cbn; lia|unfold disjoint; cbn; lia..| |]; intros i a Hi; cbn [net_queue q_bufs q_desc q_avail q_used q_room demo_net_dev rx_bufs rx_desc rx_avail_ptr rx_used_ptr] in *;
    apply Hb in Hi as [-> Hi]; [lia|].
  unfold disjoint. split_and!; [lia..|]. intros j a' [-> _]%Hb Hij. lia.
Qed.

Lemma demo_net_ready : net_ready demo_wire demo_net_dev [] (seqZ 0 64).
Proof.
  split; [done|exact demo_queue_ok| |done]. split; try done.
  - intros i x Hi. apply lookup_seqZ in Hi as [-> Hi].
    assert (Forall (λ k, rd_bytes demo_rings (0x1400 + 4 + 2 * (k mod RX_SIZE)) 2 = to_le 2 k) (seqZ 0 64)) as Hf by (apply (bool_decide_unpack _); vm_compute; exact I).
    apply (proj1 (Forall_forall _ _) Hf). apply elem_of_seqZ. lia.
  - split; [apply NoDup_seqZ|]. split; [apply Forall_forall; intros x Hx%elem_of_seqZ; unfold RX_SIZE; lia|by rewrite length_seqZ].
  - intros x a Hx Ha. assert (Forall (λ k, ∀ a, demo_bufs !! Z.to_nat k = Some a → rd_bytes demo_rings (0x1000 + 16 * k) 16 = desc_bytes a 4096 VRING_DESC_F_WRITE 0) (seqZ 0 64)) as Hf.
    { apply Forall_forall. intros k Hk c Hc. assert (bool_decide (Forall (λ k, rd_bytes demo_rings (0x1000 + 16 * k) 16 = desc_bytes (0x10000 + 4096 * k) 4096 VRING_DESC_F_WRITE 0) (seqZ 0 64))) as Hd
        by (vm_compute; exact I). apply bool_decide_unpack in Hd. rewrite (proj1 (Forall_forall _ _) Hd k Hk). f_equal.
      unfold demo_bufs in Hc. rewrite list_lookup_fmap in Hc. apply elem_of_seqZ in Hk. apply fmap_Some in Hc as (y & [-> ?]%lookup_seqZ & ->). lia. }
    apply (proj1 (Forall_forall _ _) Hf x); [apply elem_of_seqZ; unfold RX_SIZE in Hx; lia|exact Ha].
Qed.

Lemma rx_in_order_witness : ∃ s' fin es' ms taken, poll_rx 5 (mkNetDev demo_wire (Some demo_net_dev)) = (Ok fin, s') ∧
  ms = taken ++ es' ∧ (take_rx_frames s').1 = Ok (frames_of taken) ∧ (fin = false → length taken = 5%nat) ∧
  offers (bram (nboard s')) demo_net_dev = (64 + Z.of_nat (length taken)) mod 2 ^ 16.
Proof.
  destruct (rx_in_order 5 demo_wire demo_net_dev [] (seqZ 0 64) demo_net_ready) as (s' & v' & fin & es' & av' & ms & taken & E & _ & _ & _ & Eq & Et & Hf & Ho & _).
  exists s', fin, (es'.*2), ms, taken. split; [exact E|]. split; [exact Eq|]. split; [exact Et|]. split; [by intros ->|].
  assert (offers (bram demo_wire) demo_net_dev = 64) as H64 by (vm_compute; reflexivity). rewrite H64 in Ho. exact Ho.
Defined.

(** The same run, computed. *)
Lemma demo_receives : ((poll_rx 5 ;;; take_rx_frames) (mkNetDev demo_wire (Some demo_net_dev))).1 = Ok [[1; 2; 3]; [4]].
Proof. vm_compute. reflexivity. Qed.

Lemma tx_overwrites_witness : ∃ s', (transmit_frame [1; 2; 3] ;;; transmit_frame [7; 8; 9]) (mkNetDev demo_wire (Some demo_net_dev)) = (Ok tt, s') ∧
  announced (bram (nboard s')) demo_net_dev 0 0 3 ∧ rd_bytes (bram (nboard s')) 0x5000 13 = replicate 10 0 ++ [7; 8; 9].
Proof.
  destruct (tx_overwrites [1; 2; 3] [7; 8; 9] demo_wire demo_net_dev) as (s' & E & H1 & _ & _ & H2); [|cbn; lia|cbn; lia|by exists s'].
  split; [|done|done|done]. split; unfold disjoint; cbn; lia.
Defined.
