(* ===== verification/VirtInput.v ===== *)
(** * Input device driver ([drivers/virtio/input.rs])

    Keyboards and mice deliver events of eight bytes through a receive queue; the
    interrupt handler hands them to the event queues of [Input].  Receiving is
    verified against the class [Receiver] of [Virtq].  [queue_raw] and [event_raw]
    are the addresses of the two blocks [probe] takes from the heap; [ticks] is the
    clock, which stands still during an interrupt. *)

From S2P Require Import Prelude.
From S2P Require Import Paging.
From S2P Require Import Input.
From S2P Require Import Gic.
From S2P Require Import Block.
From S2P Require Import Virtq.

Definition EVENT_SIZE : Z := 8.

(** Pointers are physical addresses. *)
Record VirtioInput := mkVirtioInput {
  i_mmio : VirtioMmio; slot : Z; i_desc : Z; i_avail : Z; i_used : Z; event_bufs : Z; i_last : Z }.
Definition set_i_last (x : Z) (v : VirtioInput) : VirtioInput :=
  mkVirtioInput (i_mmio v) (slot v) (i_desc v) (i_avail v) (i_used v) (event_bufs v) x.

Record InDev (D : Type) := mkInDev { iboard : Board D; ihw : Hw; iinput : Input; DEVICES : list VirtioInput }.
Arguments mkInDev {D} _ _ _ _.
Arguments iboard {D} _.
Arguments ihw {D} _.
Arguments iinput {D} _.
Arguments DEVICES {D} _.

(** [(x + 4095) & !4095] *)
Definition page_up (x : Z) : option Z := y ← add64 x 4095; Some (Z.land y (not64 4095)).

Section Driver.
Context {D : Type} `{MmioDevice D} (hhdm ticks cpu : Z).
Local Abbreviation MB := (M (Board D)).
Local Abbreviation MI := (M (InDev D)).

Definition on_iboard {A} (m : MB A) : MI A := λ s, let '(r, b) := m (iboard s) in (r, mkInDev b (ihw s) (iinput s) (DEVICES s)).
Definition on_ihw {A} (m : M Hw A) : MI A := λ s, let '(r, x) := m (ihw s) in (r, mkInDev (iboard s) x (iinput s) (DEVICES s)).

(** A block from the heap, cleared. *)
Definition clear (virt n : Z) : MB () := poke (virt - hhdm) (replicate (Z.to_nat n) 0).

(** The queue: every descriptor names one event buffer and is offered. *)
Definition fill_queue (desc avail bufs : Z) : MB () :=
  for_each (seqZ 0 RX_SIZE) (λ i, poke (desc + 16 * i) (desc_bytes (bufs + i * EVENT_SIZE) EVENT_SIZE 2 0)) ;;;
  poke avail (to_le 2 0) ;;;
  poke (avail + 2) (to_le 2 RX_SIZE) ;;;
  for_each (seqZ 0 RX_SIZE) (λ i, poke (avail + 4 + 2 * i) (to_le 2 i)).

Definition desc_size : Z := 16 * RX_SIZE.
Definition avail_size : Z := 4 + 2 * RX_SIZE.

Definition init_input (m : VirtioMmio) (slot_ queue_raw event_raw : Z) : MI bool :=
  let! ok := on_iboard (mmio_init m) in
  if negb ok then ret false else
  let alloc_bytes := desc_size + avail_size + 4096 + (4 + 8 * RX_SIZE) + 4096 in
  on_iboard (clear queue_raw alloc_bytes) ;;;
  let! queue_virt := or_panic (page_up queue_raw) in
  let! queue_phys := or_panic (sub64 queue_virt hhdm) in
  let! used_phys := or_panic (page_up (queue_phys + desc_size + avail_size)) in
  let! used_virt := or_panic (page_up (queue_virt + desc_size + avail_size)) in
  on_iboard (clear event_raw (EVENT_SIZE * RX_SIZE + 4096)) ;;;
  let! event_virt := or_panic (page_up event_raw) in
  let! event_phys := or_panic (sub64 event_virt hhdm) in
  on_iboard (fill_queue queue_phys (queue_phys + desc_size) event_phys) ;;;
  on_iboard (setup_queue m 0 RX_SIZE queue_phys (queue_phys + desc_size) used_phys) ;;;
  on_iboard (driver_ok m) ;;;
  on_ihw (enable_irq cpu (48 + slot_)) ;;;
  modify (λ s, mkInDev (iboard s) (ihw s) (iinput s)
    (DEVICES s ++ [mkVirtioInput m slot_ queue_phys (queue_phys + desc_size) (used_virt - hhdm) event_phys 0])) ;;;
  ret true.

Definition input_probe (base slot_ queue_raw event_raw : Z) : MI bool :=
  let! o := on_iboard (mmio_new (base + hhdm)) in
  match o with
  | None => ret false
  | Some m => let! i := on_iboard (device_id m) in if negb (i =? 18) then ret false else init_input m slot_ queue_raw event_raw
  end.

(** One event: read, handed on, its buffer offered again. *)
Definition take_event (v : VirtioInput) : MI VirtioInput :=
  let! e := on_iboard (ring_used_elem (i_used v) (i_last v)) in
  let! ev := on_iboard (peek (event_bufs v + e.1 * EVENT_SIZE) 8) in
  modify (λ s, mkInDev (iboard s) (ihw s)
    (push_virtio_event ticks ticks (from_le (take 2 ev)) (from_le (take 2 (drop 2 ev))) (from_le (drop 4 ev)) (iinput s)) (DEVICES s)) ;;;
  on_iboard (ring_offer (i_avail v) e.1) ;;;
  on_iboard (notify (i_mmio v) 0) ;;;
  ret (set_i_last ((i_last v + 1) mod 2 ^ 16) v).

(** [turns] bounds the turns of the loop, which ends when the device pauses. *)
Fixpoint drain_events (turns : nat) (v : VirtioInput) : MI (VirtioInput * bool) :=
  on_iboard (modify device_runs) ;;;
  let! used_idx := on_iboard (ring_used_idx (i_used v)) in
  if i_last v =? used_idx then ret (v, true) else
  match turns with
  | O => ret (v, false)
  | S n => let! v' := take_event v in drain_events n v'
  end.

(** The first device of a slot and its place. *)
Fixpoint find_slot (irq_slot : Z) (l : list VirtioInput) (i : nat) : option (nat * VirtioInput) :=
  match l with
  | [] => None
  | v :: l' => if slot v =? irq_slot then Some (i, v) else find_slot irq_slot l' (S i)
  end.

Definition handle_irq (turns : nat) (irq_slot : Z) : MI bool :=
  let! o := gets (λ s, find_slot irq_slot (DEVICES s) 0) in
  match o with
  | None => ret true
  | Some (i, v) =>
      on_iboard (ack_interrupt (i_mmio v)) ;;;
      let! r := drain_events turns v in
      modify (λ s, mkInDev (iboard s) (ihw s) (iinput s) (<[i := r.1]> (DEVICES s))) ;;;
      ret r.2
  end.

Fixpoint poll_from (turns : nat) (l : list nat) : MI bool :=
  match l with
  | [] => ret true
  | i :: l' =>
      let! o := gets (λ s, slot <$> DEVICES s !! i) in
      let! fin := match o with Some s => handle_irq turns s | None => ret true end in
      if fin then poll_from turns l' else ret false
  end.
Definition poll_all (turns : nat) : MI bool := let! n := gets (λ s, length (DEVICES s)) in poll_from turns (seq 0 n).
End Driver.

(** ** What is handed on *)

Section Events.
Context {D : Type} `{Receiver D} (ticks : Z).

Definition input_queue (v : VirtioInput) : RxQueue :=
  mkRxQueue (i_desc v) (i_avail v) (i_used v) ((λ i, event_bufs v + i * EVENT_SIZE) <$> seqZ 0 64) EVENT_SIZE.

Record input_ready (b : Board D) (v : VirtioInput) (es : list (Z * list Z)) (av : list Z) : Prop := {
  ir_queue : rx_queue (bdev b) = Some (input_queue v);
  ir_ok : queue_ok (input_queue v);
  ir_inv : rx_inv (bram b) (input_queue v) (heard (bdev b)) (i_last v) es av;
  ir_window : mbase (i_mmio v) = rx_window (bdev b) }.

(** The event in a message of eight bytes: type, code, value. *)
Definition push_message (m : list Z) (i : Input) : Input :=
  push_virtio_event ticks ticks (from_le (take 2 m)) (from_le (take 2 (drop 2 m))) (from_le (drop 4 m)) i.
Definition is_event (m : list Z) : Prop := length m = 8%nat.

Lemma take_event_spec s v x m es av : input_ready (iboard s) v ((x, m) :: es) av →
  ∃ s' v', take_event ticks v s = (Ok v', s') ∧ input_ready (iboard s') v' es (av ++ [x]) ∧ inbox (bdev (iboard s')) = inbox (bdev (iboard s)) ∧
    DEVICES s' = DEVICES s ∧ v' = set_i_last ((i_last v + 1) mod 2 ^ 16) v ∧ (is_event m → iinput s' = push_message m (iinput s)).
Proof.
  intros [Hq Hok Hi Hw]. destruct (rx_data _ _ _ _ _ _ Hi 0%nat x m eq_refl) as (Hm & a & Ha & Hc). cbn [q_room q_bufs input_queue] in Hm, Ha.
  destruct (rx_ids _ _ _ _ _ _ Hi) as (_ & Hb & _). apply Forall_cons in Hb as [Hx _]. cbn [fst] in Hx. unfold RX_SIZE in Hx.
  rewrite list_lookup_fmap in Ha. apply fmap_Some in Ha as (y & [-> _]%lookup_seqZ & ->). rewrite Z.add_0_l, Z2Nat.id in Hc by lia.
  destruct s as [b h i l]. cbn [iboard iinput DEVICES] in *. unfold take_event.
  unfold bind at 1, on_iboard at 1. cbn [iboard ihw iinput DEVICES]. change (i_used v) with (q_used (input_queue v)). rewrite (ring_used_elem_spec (input_queue v) _ _ _ _ _ _ b Hok Hi). cbn [fst].
  unfold bind at 1, on_iboard at 1, peek, on_bmach, gets. cbn [iboard ihw iinput DEVICES]. change (mem (bmach b)) with (bram b).
  replace (mkBoard (bmach b) (bdev b)) with b by (by destruct b). rewrite bind_modify. cbn [iboard ihw iinput DEVICES].
  unfold bind at 1, on_iboard at 1. cbn [iboard ihw iinput DEVICES]. change (i_avail v) with (q_avail (input_queue v)). rewrite ring_offer_spec.
  rewrite (rx_avail _ _ _ _ _ _ Hi). set (b2 := mkBoard _ _). unfold bind at 1, on_iboard at 1. cbn [iboard ihw iinput DEVICES].
  destruct (rx_register b2 QUEUE_NOTIFY 0) as (d & En & Di & Dh & Dw & Dq). unfold notify, write32. rewrite Hw. change (rx_window (bdev b)) with (rx_window (bdev b2)). rewrite En.
  eexists _, _. split; [reflexivity|]. cbn [iboard ihw iinput DEVICES bdev]. split; [|split; [by rewrite Di|split; [done|split; [done|]]]].
  - split; cbn [bdev i_mmio set_i_last]; [by rewrite Dq|done| |by rewrite Dw]. rewrite Dh. exact (rx_inv_take _ _ _ _ _ _ _ _ Hok Hi).
  - intros He. unfold push_message. unfold is_event in He. rewrite He in Hc. by rewrite Hc.
Qed.

Lemma drain_events_spec turns : ∀ s v es av, input_ready (iboard s) v es av →
  ∃ s' v' fin es' av' ms taken, drain_events ticks turns v s = (Ok (v', fin), s') ∧ input_ready (iboard s') v' es' av' ∧ DEVICES s' = DEVICES s ∧
    inbox (bdev (iboard s')) = inbox (bdev (iboard s)) ++ ms ∧ es.*2 ++ ms = taken ++ es'.*2 ∧ (Forall is_event taken → iinput s' = foldl (λ i m, push_message m i) (iinput s) taken) ∧
    (∃ u, v' = set_i_last u v) ∧ if fin then es' = [] else length taken = turns.
Proof.
  induction turns as [|turns IH]; intros s v es av Hr; cbn [drain_events];
    destruct (rx_runs (iboard s) _ _ _ _ (ir_queue _ _ _ _ Hr) (ir_ok _ _ _ _ Hr) (ir_inv _ _ _ _ Hr)) as (ms & Hlen & Hi & _ & Hin & Hq & Hw);
    unfold bind at 1, on_iboard at 1, modify at 1; cbv beta iota; set (b1 := device_runs (iboard s)) in *; set (es1 := es ++ zip av ms) in *; set (av1 := drop (length ms) av) in *;
    set (s1 := mkInDev b1 (ihw s) (iinput s) (DEVICES s));
    (assert (input_ready (iboard s1) v es1 av1) as Hr1 by (split; [done|apply Hr|done|cbn; by rewrite Hw; apply Hr]));
    (assert (es1.*2 = es.*2 ++ ms) as E2 by (unfold es1; by rewrite fmap_app, snd_zip));
    (assert (on_iboard (ring_used_idx (i_used v)) s1 = (Ok (from_le (rd_bytes (bram b1) (q_used (input_queue v) + 2) 2)), s1)) as Eu
       by (unfold on_iboard; cbn [iboard s1]; by rewrite ring_used_idx_spec));
    rewrite (bind_ok _ _ _ _ _ Eu), Z.eqb_sym, (rx_pending _ _ _ _ _ _ Hi); clearbody es1 av1.
  - assert (∃ u, v = set_i_last u v) as Hu by (exists (i_last v); by destruct v). case_bool_decide as Ee.
    + exists s1, v, true, es1, av1, ms, []. subst es1. cbn. rewrite <- E2. by split_and!.
    + exists s1, v, false, es1, av1, ms, []. cbn. rewrite E2. by split_and!.
  - assert (∃ u, v = set_i_last u v) as Hu by (exists (i_last v); by destruct v). case_bool_decide as Ee.
    + exists s1, v, true, es1, av1, ms, []. subst es1. cbn. rewrite <- E2. by split_and!.
    + destruct es1 as [|[x m] es1]; [done|]. destruct (take_event_spec s1 v x m es1 av1 Hr1) as (s2 & v2 & Et & Hr2 & Hin2 & Hd2 & Ev & Hp2).
      rewrite (bind_ok _ _ _ _ _ Et). destruct (IH s2 v2 es1 (av1 ++ [x]) Hr2) as (s3 & v3 & fin & es3 & av3 & ms3 & taken & Ep & Hr3 & Hd3 & Hin3 & Eq & Hp3 & (u & Ev3) & Hf).
      exists s3, v3, fin, es3, av3, (ms ++ ms3), (m :: taken). split; [exact Ep|]. split; [done|]. split; [by rewrite Hd3, Hd2|].
      split; [by rewrite Hin3, Hin2; cbn; rewrite Hin, app_assoc|]. split; [rewrite app_assoc, <- E2; cbn; by rewrite Eq|]. split; [|split].
      * intros [Hm Ht]%Forall_cons. rewrite Hp3 by done. cbn. by rewrite Hp2.
      * exists u. by rewrite Ev3, Ev.
      * destruct fin; [done|]. cbn. by rewrite Hf.
Qed.
End Events.

Lemma ack_spec `{Receiver D} m (b : Board D) : mbase m = rx_window (bdev b) → ∃ d, ack_interrupt m b = (Ok tt, mkBoard (bmach b) d) ∧
  inbox d = inbox (bdev b) ∧ heard d = heard (bdev b) ∧ rx_window d = rx_window (bdev b) ∧ rx_queue d = rx_queue (bdev b).
Proof.
  intros Hm. unfold ack_interrupt, read32, write32. rewrite Hm. destruct (rx_reads b INTERRUPT_STATUS) as (v & d & E & H1 & H2 & H3 & H4).
  rewrite (bind_ok _ _ _ _ _ E). destruct (rx_register (mkBoard (bmach b) d) INTERRUPT_ACK v) as (d' & E' & I1 & I2 & I3 & I4). cbn [bdev bmach] in *.
  rewrite <- H3. exists d'. split; [exact E'|]. by rewrite I1, I2, I3, I4.
Qed.

Lemma find_slot_Some irq l : ∀ k i v, find_slot irq l k = Some (i, v) → (k ≤ i)%nat ∧ l !! (i - k)%nat = Some v ∧ slot v = irq.
Proof.
  induction l as [|u l IH]; intros k i v; cbn; [done|]. destruct (Z.eqb_spec (slot u) irq) as [E|].
  - intros [= <- <-]. by rewrite Nat.sub_diag.
  - intros (H1 & H2 & H3)%IH. split; [lia|]. replace (i - k)%nat with (S (i - S k)) by lia. done.
Qed.

(** The interrupt handler hands on the events of its device whole and in order: if
    the messages taken are events, the queues of [Input] are as after pushing them
    one after the other; the messages taken are the first of those delivered, the
    others are still in the ring; it ends when the ring is empty, unless [turns]
    events have been taken; other devices are left alone. *)
Theorem events_in_order `{Receiver D} ticks turns irq (s : InDev D) i v es av : find_slot irq (DEVICES s) 0 = Some (i, v) → input_ready (iboard s) v es av →
  ∃ s' v' fin es' av' ms taken, handle_irq ticks turns irq s = (Ok fin, s') ∧ DEVICES s' = <[i := v']> (DEVICES s) ∧ slot v' = irq ∧ input_ready (iboard s') v' es' av' ∧
    inbox (bdev (iboard s')) = inbox (bdev (iboard s)) ++ ms ∧ es.*2 ++ ms = taken ++ es'.*2 ∧
    (Forall is_event taken → iinput s' = foldl (λ q m, push_message ticks m q) (iinput s) taken) ∧ if fin then es' = [] else length taken = turns.
Proof.
  intros Hf [Hq Hok Hi Hw]. destruct (ack_spec (i_mmio v) (iboard s) Hw) as (d & Ea & D1 & D2 & D3 & D4).
  set (s1 := mkInDev (mkBoard (bmach (iboard s)) d) (ihw s) (iinput s) (DEVICES s)).
  assert (input_ready (iboard s1) v es av) as Hr1 by (split; cbn; [by rewrite D4|done|by rewrite D2|by rewrite D3]).
  destruct (drain_events_spec ticks turns s1 v es av Hr1) as (s2 & v' & fin & es' & av' & ms & taken & E & Hr2 & Hd & Hin & Eq & Hp & (u & ->) & Hfin).
  apply find_slot_Some in Hf as Hfs. destruct Hfs as (_ & _ & Hs).
  exists (mkInDev (iboard s2) (ihw s2) (iinput s2) (<[i := set_i_last u v]> (DEVICES s2))), (set_i_last u v), fin, es', av', ms, taken. split.
  - unfold handle_irq. rewrite bind_gets, Hf. rewrite (bind_ok _ _ s tt s1) by (unfold on_iboard; by rewrite Ea). by rewrite (bind_ok _ _ _ _ _ E).
  - cbn [DEVICES iboard iinput]. rewrite Hd. split_and!; try done. rewrite Hin. cbn. by rewrite D1.
Qed.

(** ** Witness *)

(** A keyboard in slot 3 that has just been set up; a key press is on the wire. *)
Definition demo_kbd : VirtioInput := mkVirtioInput (mkMmio VIRTIO_MMIO_BASE 2) 3 0x1000 0x1400 0x2000 0x3000 0.
Definition demo_key : list Z := to_le 2 1 ++ to_le 2 30 ++ to_le 4 1.
Definition demo_input_rings : Z → Z :=
  wr_bytes (wr_bytes (λ _, 0) 0x1000 (concat ((λ a, desc_bytes a EVENT_SIZE VRING_DESC_F_WRITE 0) <$> q_bufs (input_queue demo_kbd))))
    0x1400 (to_le 2 0 ++ to_le 2 64 ++ concat (to_le 2 <$> seqZ 0 64)).
Definition demo_in : InDev Wire :=
  mkInDev (mkBoard (mkMach (Pmm.mkPmm [] 0 0) demo_input_rings)
    (mkWire [demo_key] [] 0 (Some (input_queue demo_kbd)))) demo_hw demo_input [demo_kbd].

Lemma demo_input_ready : input_ready (iboard demo_in) demo_kbd [] (seqZ 0 64).
Proof.
  split; [done| | |done].
  - split; [done|cbn; unfold EVENT_SIZE; lia|unfold disjoint; cbn; lia..| |]; intros i a Hi; cbn [input_queue q_bufs q_desc q_avail q_used q_room demo_kbd i_desc i_avail i_used event_bufs] in *;
      rewrite list_lookup_fmap in Hi; apply fmap_Some in Hi as (y & [-> Hb]%lookup_seqZ & ->); unfold disjoint, EVENT_SIZE; [lia|]. split_and!; [lia..|].
    intros j a' Hj Hij. rewrite list_lookup_fmap in Hj. apply fmap_Some in Hj as (z & [-> _]%lookup_seqZ & ->). lia.
  - split; try done.
    + intros i x Hi. apply lookup_seqZ in Hi as [-> Hi].
      assert (Forall (λ k, rd_bytes (bram (iboard demo_in)) (0x1400 + 4 + 2 * (k mod RX_SIZE)) 2 = to_le 2 k) (seqZ 0 64)) as Hf by (apply (bool_decide_unpack _); vm_compute; exact I).
      apply (proj1 (Forall_forall _ _) Hf). apply elem_of_seqZ. lia.
    + split; [apply NoDup_seqZ|]. split; [apply Forall_forall; intros x Hx%elem_of_seqZ; unfold RX_SIZE; lia|by rewrite length_seqZ].
    + intros x a Hx Ha. assert (bool_decide (Forall (λ k, (λ a, bool_decide (rd_bytes demo_input_rings (0x1000 + 16 * k) 16 = desc_bytes a EVENT_SIZE VRING_DESC_F_WRITE 0)) <$>
          q_bufs (input_queue demo_kbd) !! Z.to_nat k = Some true) (seqZ 0 64))) as Hd by (vm_compute; exact I).
      apply bool_decide_unpack in Hd. pose proof (proj1 (Forall_forall _ _) Hd x ltac:(apply elem_of_seqZ; unfold RX_SIZE in Hx; lia)) as Hr.
      cbv beta in Hr. rewrite Ha in Hr. cbn [fmap option_fmap option_map] in Hr. injection Hr as Hr. by apply bool_decide_eq_true in Hr.
Qed.

Lemma events_in_order_witness : ∃ s' fin es' ms taken, handle_irq 7 5 3 demo_in = (Ok fin, s') ∧ ms = taken ++ es' ∧
  (Forall is_event taken → iinput s' = foldl (λ q m, push_message 7 m q) demo_input taken) ∧ (fin = false → length taken = 5%nat).
Proof.
  destruct (events_in_order 7 5 3 demo_in 0 demo_kbd [] (seqZ 0 64) eq_refl demo_input_ready) as (s' & v' & fin & es' & av' & ms & taken & E & _ & _ & _ & _ & Eq & Ei & Hf).
  exists s', fin, (es'.*2), ms, taken. split; [exact E|]. split; [exact Eq|]. split; [exact Ei|]. by intros ->.
Defined.

(** The same run, computed: the key is in the keyboard's queue. *)
Lemma demo_key_arrives : (handle_irq 7 5 3 demo_in).1 = Ok true ∧ length (KBD_QUEUE (iinput (handle_irq 7 5 3 demo_in).2)) = (2 + length (KBD_QUEUE demo_input))%nat.
Proof. split; vm_compute; reflexivity. Qed.
