(* ===== verification/Ext4.v ===== *)
(** * The ext4 reader ([fs/ext4.rs])

    A read-only reader of the on-disk format, over the interface [BlockDevice] of
    [Block].  The error strings are the numbers [E_*].

    Structures are read from byte buffers through raw pointers; what is modelled is
    the fields the code uses.  A field beyond the end of its buffer is undefined in
    the source and is [Panic] here.  Buffers that a read fills start as zeros, so a
    read is the list of bytes it filled, and [padded] is the whole buffer. *)

From S2P Require Import Prelude.
From S2P Require Import Path.
From S2P Require Import Pty.
From S2P Require Import Block.

Definition EXT4_SUPER_MAGIC : Z := 0xEF53.
Definition EXT4_ROOT_INO : Z := 2.
Definition S_IFMT : Z := 0xF000.
Definition S_IFDIR : Z := 0x4000.

Definition E_MAGIC : Z := 1101.
Definition E_SYMLINKS : Z := 1102.
Definition E_NOT_FOUND : Z := 1103.
Definition E_SYMLINK : Z := 1104.
Definition E_NOT_MOUNTED : Z := 1105.

(** A little-endian field of [n] bytes at [off]. *)
Definition le_at (off n : nat) (buf : list Z) : Z := from_le (slice off (off + n) buf).

Record Superblock := mkSuper {
  s_inodes_count : Z; s_blocks_count_lo : Z; s_log_block_size : Z; s_inodes_per_group : Z;
  s_magic : Z; s_inode_size : Z; s_feature_incompat : Z }.
Definition parse_super (b : list Z) : Superblock :=
  mkSuper (le_at 0 4 b) (le_at 4 4 b) (le_at 24 4 b) (le_at 40 4 b) (le_at 56 2 b) (le_at 88 2 b) (le_at 96 4 b).

Record Inode := mkInode { i_mode : Z; i_size_lo : Z; i_block : list Z; i_size_high : Z }.
Definition parse_inode (b : list Z) : Inode := mkInode (le_at 0 2 b) (le_at 4 4 b) (slice 40 100 b) (le_at 108 4 b).

Record ExtentHeader := mkHeader { eh_magic : Z; eh_entries : Z; eh_depth : Z }.
Definition parse_header (b : list Z) : ExtentHeader := mkHeader (le_at 0 2 b) (le_at 2 2 b) (le_at 6 2 b).

Record Extent := mkExtent { ee_block : Z; ee_len : Z; ee_start_hi : Z; ee_start_lo : Z }.
Definition parse_extent (b : list Z) : Extent := mkExtent (le_at 0 4 b) (le_at 4 2 b) (le_at 6 2 b) (le_at 8 4 b).
Definition phys_block (e : Extent) : Z := Z.lor (ee_start_lo e) (Z.shiftl (ee_start_hi e) 32).

(** [ExtentIdx], as the block it points to. *)
Definition parse_idx (b : list Z) : Z := Z.lor (le_at 4 4 b) (Z.shiftl (le_at 8 2 b) 32).

(** A directory entry: name, inode, file type. *)
Definition Entry : Type := list Z * Z * Z.

Record Ext4Fs := mkExt4 { block_size : Z; sb : Superblock; desc_size : Z }.

(** The records of 12 bytes that follow a header. *)
Definition records_after {A} (parse : list Z → A) (n : Z) (buf : list Z) : option (list A) :=
  if bool_decide (12 + 12 * n ≤ Z.of_nat (length buf)) then Some ((λ i, parse (slice (12 + 12 * i) (24 + 12 * i) buf)) <$> seq 0 (Z.to_nat n))
  else None.

Definition padded (n : nat) (l : list Z) : list Z := l ++ replicate (n - length l) 0.

(** [a / b], [a % b] *)
Definition div_checked (a b : Z) : option Z := if b =? 0 then None else Some (a / b).
Definition rem_checked (a b : Z) : option Z := if b =? 0 then None else Some (a mod b).

Section Ext4.
Context {Dv : Type} `{BlockDevice Dv}.

(** [vec![0u8; n]] *)
Definition zeroed (n : Z) : M Dv (list Z) := if n <? 2 ^ 63 then ret (replicate (Z.to_nat n) 0) else panic.

Definition mount_fs : M Dv Ext4Fs :=
  let! buf := bd_read 2 2 (replicate 1024 0) in
  let sb := parse_super buf in
  if negb (s_magic sb =? EXT4_SUPER_MAGIC) then fail E_MAGIC else
  if 64 <=? s_log_block_size sb then panic else
  ret (mkExt4 (Z.shiftl 1024 (s_log_block_size sb) mod 2 ^ 64) sb (if has (s_feature_incompat sb) 0x80 then 64 else 32)).

Section Mounted.
Context (fs : Ext4Fs).

Definition read_block (block_num : Z) (buf : list Z) : M Dv (list Z) :=
  let sectors_per_block := block_size fs / 512 in
  let! start_sector := or_panic (mul64 block_num sectors_per_block) in
  bd_read start_sector sectors_per_block buf.

Definition read_inode (ino : Z) : M Dv Inode :=
  let! i := or_panic (sub64 ino 1) in
  let! group := or_panic (div_checked i (s_inodes_per_group (sb fs))) in
  let! index := or_panic (rem_checked i (s_inodes_per_group (sb fs))) in
  let desc_block := if block_size fs =? 1024 then 2 else 1 in
  let desc_offset := group * desc_size fs in
  let! desc_blocks := or_panic (div_checked desc_offset (block_size fs)) in
  let! block_buf := zeroed (block_size fs) in
  let! block_buf := read_block (desc_block + desc_blocks) block_buf in
  let bg_inode_table_lo := le_at (Z.to_nat (desc_offset mod block_size fs) + 8) 4 block_buf in
  let inode_offset := index * s_inode_size (sb fs) in
  let inode_block := bg_inode_table_lo + inode_offset / block_size fs in
  let! block_buf := read_block inode_block block_buf in
  let off := inode_offset mod block_size fs in
  if block_size fs <? off + 112 then panic else ret (parse_inode (drop (Z.to_nat off) block_buf)).

Definition inode_size (n : Inode) : Z := Z.lor (i_size_lo n) (Z.shiftl (i_size_high n) 32).

(** The loop over the blocks of one extent: [left] bytes from [cur_block]. *)
Fixpoint read_blocks (fuel : nat) (cur_block cur_offset left : Z) (block_buf : list Z) : M Dv (list Z) :=
  match fuel with
  | O => ret []
  | S fuel' =>
      if left <=? 0 then ret [] else
      let! block_buf := read_block cur_block block_buf in
      let chunk := Z.min (block_size fs - cur_offset) left in
      let! rest := read_blocks fuel' (cur_block + 1) 0 (left - chunk) block_buf in
      ret (take (Z.to_nat chunk) (drop (Z.to_nat cur_offset) block_buf) ++ rest)
  end.

(** The bytes from [file_offset] on, at most [remaining] of them. *)
Fixpoint read_from_extents (extents : list Extent) (file_offset remaining : Z) : M Dv (list Z) :=
  match extents with
  | [] => ret []
  | ext :: extents' =>
      let! ext_start := or_panic (mul64 (ee_block ext) (block_size fs)) in
      let! ext_len := or_panic (mul64 (ee_len ext) (block_size fs)) in
      let! ext_end := or_panic (add64 ext_start ext_len) in
      if ext_end <=? file_offset then read_from_extents extents' file_offset remaining else
      if file_offset <? ext_start then ret [] else
      let offset_in_ext := file_offset - ext_start in
      let to_read := Z.min remaining (ext_len - offset_in_ext) in
      let! block_buf := zeroed (block_size fs) in
      let! bytes := read_blocks (Z.to_nat to_read) (phys_block ext + offset_in_ext / block_size fs) (offset_in_ext mod block_size fs) to_read block_buf in
      let! rest := read_from_extents extents' (file_offset + to_read) (remaining - to_read) in
      ret (bytes ++ rest)
  end.

Fixpoint read_direct (l : list nat) (n : Inode) (file_off remaining : Z) (block_buf : list Z) : M Dv (list Z) :=
  match l with
  | [] => ret []
  | i :: l' =>
      let block_num := le_at (4 * i) 4 (i_block n) in
      if block_num =? 0 then ret [] else
      let block_start := Z.of_nat i * block_size fs in
      if block_start + block_size fs <=? file_off then read_direct l' n file_off remaining block_buf else
      if file_off <? block_start then ret [] else
      let! block_buf := read_block block_num block_buf in
      let off_in_block := file_off - block_start in
      let chunk := Z.min (block_size fs - off_in_block) remaining in
      let bytes := take (Z.to_nat chunk) (drop (Z.to_nat off_in_block) block_buf) in
      if remaining - chunk =? 0 then ret bytes else
      let! rest := read_direct l' n (file_off + chunk) (remaining - chunk) block_buf in
      ret (bytes ++ rest)
  end.

Definition read_direct_blocks (n : Inode) (offset want : Z) : M Dv (list Z) :=
  let! block_buf := zeroed (block_size fs) in read_direct (seq 0 12) n offset want block_buf.

(** The leaf extents below the index nodes of the inode. *)
Fixpoint collect_extents (leaves : list Z) : M Dv (list Extent) :=
  match leaves with
  | [] => ret []
  | leaf :: leaves' =>
      let! leaf_buf := zeroed (block_size fs) in
      let! leaf_buf := read_block leaf leaf_buf in
      let h := parse_header leaf_buf in
      if negb (eh_magic h =? 0xF30A) || negb (eh_depth h =? 0) then collect_extents leaves'
      else
        let! extents := or_panic (records_after parse_extent (eh_entries h) leaf_buf) in
        let! rest := collect_extents leaves' in ret (extents ++ rest)
  end.

Definition read_extents (n : Inode) (offset want : Z) : M Dv (list Z) :=
  let h := parse_header (i_block n) in
  if negb (eh_magic h =? 0xF30A) then read_direct_blocks n offset want
  else if eh_depth h =? 0 then
    let! extents := or_panic (records_after parse_extent (eh_entries h) (i_block n)) in
    read_from_extents extents offset want
  else
    let! leaves := or_panic (records_after parse_idx (eh_entries h) (i_block n)) in
    let! all_extents := collect_extents leaves in
    read_from_extents all_extents offset want.

(** The whole file as a buffer of its size. *)
Definition read_data (n : Inode) : M Dv (list Z) :=
  let! buf := zeroed (inode_size n) in
  let! bytes := read_extents n 0 (inode_size n) in
  ret (padded (length buf) bytes).

(** ** Directories *)

(** The entries from [pos] on; [None] when the fuel is used up. *)
Fixpoint scan_entries (fuel : nat) (bs : Z) (data : list Z) (pos : nat) : option (list Entry) :=
  match fuel with
  | O => None
  | S fuel' =>
      if bool_decide (length data < pos + 8)%nat then Some [] else
      let rec_len := le_at (pos + 4) 2 data in
      let name_len := Z.to_nat (le_at (pos + 6) 1 data) in
      if rec_len =? 0 then Some []
      else if le_at pos 4 data =? 0 then
        let next_block := Z.to_nat ((Z.of_nat pos / bs + 1) * bs) in
        if bool_decide (length data ≤ next_block)%nat then Some [] else scan_entries fuel' bs data next_block
      else
        let e := if bool_decide (0 < name_len ∧ pos + 8 + name_len ≤ length data)%nat
                 then [(default [63] (from_utf8 (slice (pos + 8) (pos + 8 + name_len) data)), le_at pos 4 data, le_at (pos + 7) 1 data)]
                 else [] in
        let pos := (pos + Z.to_nat rec_len)%nat in
        if bool_decide (length data ≤ pos)%nat then Some e else app e <$> scan_entries fuel' bs data pos
  end.

Definition read_dir (ino : Z) : M Dv (list Entry) :=
  let! n := read_inode ino in
  let! data := read_data n in
  or_panic (scan_entries (1 + length data) (block_size fs) data 0).

Definition read_file_ino (ino : Z) : M Dv (list Z) := let! n := read_inode ino in read_data n.

Definition read_symlink (ino : Z) : M Dv (list Z) :=
  let! n := read_inode ino in
  if inode_size n <=? 60 then ok_or (from_utf8 (take (Z.to_nat (inode_size n)) (i_block n))) E_SYMLINK
  else let! data := read_data n in ok_or (from_utf8 data) E_SYMLINK.

(** ** Paths *)

(** [path.split('/').filter(|s| !s.is_empty() && *s != ".")] *)
Definition components (path : list Z) : list (list Z) := filter (λ c, c ≠ [] ∧ c ≠ [46]) (split slash path).

Definition find_entry (name : list Z) (l : list Entry) : option Entry := head (filter (λ e, e.1.1 = name) l).

(** [d] is the number of nested symlinks still allowed, [9 - depth].  After a
    symlink the source joins the remaining components and looks the result up at
    the same depth, which is the walk over them ([components_join]). *)
Fixpoint lookup_from (d : nat) (start_ino : Z) (path : list Z) : M Dv Z :=
  match d with
  | O => fail E_SYMLINKS
  | S d' =>
      let start_ino := if starts_with [slash] path then EXT4_ROOT_INO else start_ino in
      let path := if starts_with [slash] path then trim_start slash path else path in
      (fix walk (cs : list (list Z)) (current_ino : Z) : M Dv Z :=
         match cs with
         | [] => ret current_ino
         | c :: cs' =>
             if bool_decide (c = [46; 46]) then walk cs' EXT4_ROOT_INO else
             let! entries := read_dir current_ino in
             match find_entry c entries with
             | None => fail E_NOT_FOUND
             | Some (_, ino, ftype) =>
                 if ftype =? 7 then
                   let! target := read_symlink ino in
                   let! ino := (if starts_with [slash] target then lookup_from d' EXT4_ROOT_INO (trim_start slash target)
                                else lookup_from d' current_ino target) in
                   walk cs' ino
                 else walk cs' ino
             end
         end) (components path) start_ino
  end.

Definition lookup (path : list Z) : M Dv Z := lookup_from 9 EXT4_ROOT_INO path.
Definition read_file_by_path (path : list Z) : M Dv (list Z) := let! ino := lookup path in read_file_ino ino.
Definition is_dir (ino : Z) : M Dv bool := let! n := read_inode ino in ret (Z.land (i_mode n) S_IFMT =? S_IFDIR).
Definition inode_mode (ino : Z) : M Dv Z := let! n := read_inode ino in ret (i_mode n).
Definition file_size (ino : Z) : M Dv Z := let! n := read_inode ino in ret (inode_size n).
End Mounted.
End Ext4.

(** ** The mounted file system *)

Record Vol (Dv : Type) := mkVol { vdev : Dv; EXT4 : option Ext4Fs }.
Arguments mkVol {Dv} _ _.
Arguments vdev {Dv} _.
Arguments EXT4 {Dv} _.

Section Volume.
Context {Dv : Type} `{BlockDevice Dv}.

Definition on_dev {A} (m : M Dv A) : M (Vol Dv) A := λ s, let '(r, d) := m (vdev s) in (r, mkVol d (EXT4 s)).
Definition mounted : M (Vol Dv) Ext4Fs := let! o := gets EXT4 in ok_or o E_NOT_MOUNTED.

Definition mount : M (Vol Dv) () := let! fs := on_dev mount_fs in modify (λ s, mkVol (vdev s) (Some fs)).
Definition read_file (path : list Z) : M (Vol Dv) (list Z) := let! fs := mounted in on_dev (read_file_by_path fs path).
Definition list_dir (path : list Z) : M (Vol Dv) (list Entry) :=
  let! fs := mounted in
  let! ino := on_dev (lookup fs path) in on_dev (read_dir fs ino).
End Volume.

(** ** An image *)

(** A device that is its bytes. *)
#[export] Instance image_device : BlockDevice (Z → Z) := {
  bd_read start count _ := gets (λ f, span f (512 * start) (512 * count)) }.

#[local] Obligation Tactic := idtac.
#[export] Program Instance image_laws : BlockLaws (Z → Z) := {
  bd_ok _ := True; bd_byte f := f; bd_count _ := 2 ^ 55 }.
Next Obligation. cbv beta. intros f start count buf _ Hs Hc Hle Hlen. by exists f. Qed.

(** A file system with blocks of 1 KiB: the root directory (inode 2) holds a file
    [hello] of five bytes and the symlinks [link] to [/hello] and [loop] to
    itself. *)
Definition dirent (ino rec_len ftype : Z) (name : list Z) : list Z :=
  to_le 4 ino ++ to_le 2 rec_len ++ [Z.of_nat (length name); ftype] ++ name.
Definition extent_root (len start : Z) : list Z := to_le 2 0xF30A ++ to_le 2 1 ++ to_le 2 4 ++ to_le 2 0 ++ to_le 4 0 ++ to_le 4 0 ++ to_le 2 len ++ to_le 2 0 ++ to_le 4 start.
Definition put (a : Z) (l : list Z) (f : Z → Z) : Z → Z := Paging.wr_bytes f a l.
Definition put_inode (ino mode size : Z) (blocks : list Z) (f : Z → Z) : Z → Z :=
  let a := 3072 + 128 * (ino - 1) in put (a + 40) blocks (put (a + 4) (to_le 4 size) (put a (to_le 2 mode) f)).
Definition demo_image : Z → Z :=
  put 1064 (to_le 4 16) (put 1080 (to_le 2 0xEF53) (put 1112 (to_le 2 128) (put 2056 (to_le 4 3)
  (put_inode 2 0x41ED 1024 (extent_root 1 5) (put_inode 12 0x81A4 5 (extent_root 1 6)
  (put_inode 13 0xA1FF 6 (bytes_of "/hello") (put_inode 14 0xA1FF 4 (bytes_of "loop")
  (put 5120 (dirent 2 12 2 (bytes_of ".")) (put 5132 (dirent 12 16 1 (bytes_of "hello"))
  (put 5148 (dirent 13 12 7 (bytes_of "link")) (put 5160 (dirent 14 984 7 (bytes_of "loop"))
  (put 6144 (bytes_of "world") (λ _, 0))))))))))))).
Definition demo_fs : Ext4Fs := mkExt4 1024 (mkSuper 0 0 0 16 0xEF53 128 0) 32.

Example demo_mounts : mount_fs demo_image = (Ok demo_fs, demo_image).
Proof. unfold mount_fs, bd_read, image_device. rewrite bind_gets. set (b := span _ _ _). vm_compute in b. subst b. reflexivity. Qed.

Example demo_follows_link : (read_file_by_path demo_fs (bytes_of "/link") demo_image).1 = Ok (bytes_of "world").
Proof. vm_compute. reflexivity. Qed.

Example demo_loop_fails : (lookup demo_fs (bytes_of "/loop") demo_image).1 = Err E_SYMLINKS.
Proof. vm_compute. reflexivity. Qed.

(** ** File contents *)

Lemma span_app byte a n m : 0 ≤ n → 0 ≤ m → span byte a (n + m) = span byte a n ++ span byte (a + n) m.
Proof. intros. unfold span. by rewrite seqZ_app, fmap_app by lia. Qed.

Lemma length_span byte a n : length (span byte a n) = Z.to_nat n.
Proof. unfold span. by rewrite length_fmap, length_seqZ. Qed.

Lemma span_sub byte a n o m : 0 ≤ o → 0 ≤ m → o + m ≤ n → take (Z.to_nat m) (drop (Z.to_nat o) (span byte a n)) = span byte (a + o) m.
Proof.
  intros Ho Hm Hle. replace n with (o + (m + (n - o - m))) by lia. rewrite span_app, drop_app_length' by (rewrite ?length_span; lia).
  by rewrite span_app, take_app_length' by (rewrite ?length_span; lia).
Qed.

(** The byte at offset [i] of a file with the given extents; unmapped bytes are
    zero. *)
Definition holds (bs : Z) (e : Extent) (i : Z) : bool := (ee_block e * bs <=? i) && (i <? (ee_block e + ee_len e) * bs).
Fixpoint file_byte (byte : Z → Z) (bs : Z) (exts : list Extent) (i : Z) : Z :=
  match exts with
  | [] => 0
  | e :: es => if holds bs e i then byte (phys_block e * bs + (i - ee_block e * bs)) else file_byte byte bs es i
  end.

(** Extents that map the file from block [b] on without a gap, within a device of
    [nb] blocks. *)
Fixpoint dense (nb b : Z) (exts : list Extent) : Prop :=
  match exts with
  | [] => True
  | e :: es => ee_block e = b ∧ 0 < ee_len e ∧ 0 ≤ phys_block e ∧ phys_block e + ee_len e ≤ nb ∧ dense nb (b + ee_len e) es
  end.
Fixpoint blocks (exts : list Extent) : Z := match exts with [] => 0 | e :: es => ee_len e + blocks es end.

Section Contents.
Context {Dv : Type} `{BlockLaws Dv} (fs : Ext4Fs) (nb : Z).
Local Abbreviation bs := (block_size fs).
Context (Hbs : 512 ≤ bs < 2 ^ 63) (Hdiv : bs mod 512 = 0).

(** A device of at least [nb] blocks. *)
Definition volume (s : Dv) : Prop := bd_ok s ∧ nb * (bs / 512) ≤ bd_count s ∧ bd_count s ≤ 2 ^ 55.
(** [s'] is such a device with the bytes of [s]. *)
Definition stable (s s' : Dv) : Prop := volume s' ∧ bd_byte s' = bd_byte s.

Lemma stable_trans s1 s2 s3 : stable s1 s2 → stable s2 s3 → stable s1 s3.
Proof. intros [_ E1] [H2 E2]. split; [done|by rewrite E2]. Qed.

Lemma zeroed_ok (s : Dv) : zeroed bs s = (Ok (replicate (Z.to_nat bs) 0), s).
Proof using All. unfold zeroed. by rewrite (proj2 (Z.ltb_lt bs (2 ^ 63))) by lia. Qed.

Lemma read_block_spec n buf s : volume s → 0 ≤ n < nb → length buf = Z.to_nat bs →
  ∃ s', read_block fs n buf s = (Ok (span (bd_byte s) (n * bs) bs), s') ∧ stable s s'.
Proof using All.
  intros (Hok & Hnb & Hmax) Hn Hlen. unfold read_block. set (spb := bs / 512) in *. assert (bs = 512 * spb) as Eb by (unfold spb; lia).
  assert (n * spb + spb ≤ bd_count s) as Hle by nia. unfold mul64. rewrite bool_decide_eq_true_2 by lia. rewrite bind_or_panic.
  destruct (bd_reads s (n * spb) spb buf) as (s' & E & Hok' & Hb & Hc); [done|nia|lia|lia|by rewrite <- Eb|].
  exists s'. split; [|by split; [unfold volume; rewrite Hc|]]. rewrite E. do 2 f_equal. unfold span. f_equal. f_equal; lia.
Qed.

Lemma read_blocks_spec fuel : ∀ blk off left buf s, volume s → (Z.to_nat left ≤ fuel)%nat → 0 ≤ left → 0 ≤ blk → 0 ≤ off < bs →
  blk * bs + off + left ≤ nb * bs → length buf = Z.to_nat bs →
  ∃ s', read_blocks fs fuel blk off left buf s = (Ok (span (bd_byte s) (blk * bs + off) left), s') ∧ stable s s'.
Proof using All.
  induction fuel as [|fuel IH]; intros blk off left buf s Hv Hf Hl Hb Ho Hle Hlen; cbn [read_blocks].
  { exists s. by replace left with 0 by lia. }
  destruct (Z.leb_spec left 0) as [Hz|Hpos]; [exists s; by replace left with 0 by lia|].
  assert (blk < nb) as Hlt by (apply (Z.mul_lt_mono_pos_r bs); lia).
  assert ((blk + 1) * bs ≤ nb * bs) as Hnext by (apply Z.mul_le_mono_nonneg_r; lia).
  destruct (read_block_spec blk buf s Hv (conj Hb Hlt) Hlen) as (s1 & E1 & Hs1). rewrite (bind_ok _ _ _ _ _ E1).
  set (chunk := Z.min (bs - off) left). pose proof Hs1 as [Hv1 Eb1].
  destruct (IH (blk + 1) 0 (left - chunk) (span (bd_byte s) (blk * bs) bs) s1) as (s2 & E2 & Hs2);
    [done|unfold chunk; lia|unfold chunk; lia|lia|lia|unfold chunk; lia|by rewrite length_span|].
  rewrite (bind_ok _ _ _ _ _ E2). exists s2. split; [|by eapply stable_trans]. rewrite Eb1, span_sub by (unfold chunk; lia).
  cbn [ret]. unfold ret. do 2 f_equal. destruct (Z.le_gt_cases (bs - off) left).
  - assert (chunk = bs - off) as -> by (unfold chunk; lia). replace ((blk + 1) * bs + 0) with (blk * bs + off + (bs - off)) by lia.
    rewrite <- span_app by lia. f_equal. lia.
  - assert (chunk = left) as -> by (unfold chunk; lia). rewrite Z.sub_diag. by rewrite app_nil_r.
Qed.

(** An extent's arithmetic does not overflow. *)
Definition small (e : Extent) : Prop := 0 ≤ ee_block e ∧ 0 ≤ ee_len e ∧ (ee_block e + ee_len e) * bs < 2 ^ 64.

Lemma extent_step e es off rem s : small e →
  read_from_extents fs (e :: es) off rem s =
    (if (ee_block e + ee_len e) * bs <=? off then read_from_extents fs es off rem
     else if off <? ee_block e * bs then ret []
     else
       let o := off - ee_block e * bs in
       let n := Z.min rem (ee_len e * bs - o) in
       let! bytes := read_blocks fs (Z.to_nat n) (phys_block e + o / bs) (o mod bs) n (replicate (Z.to_nat bs) 0) in
       let! rest := read_from_extents fs es (off + n) (rem - n) in ret (bytes ++ rest)) s.
Proof using All.
  intros (Hb & Hl & Hlt). cbn [read_from_extents]. unfold mul64. rewrite !bool_decide_eq_true_2 by nia. rewrite !bind_or_panic.
  rewrite add64_small, bind_or_panic by lia. rewrite <- Z.mul_add_distr_r. destruct (_ <=? off); [done|]. destruct (off <? _); [done|].
  cbv zeta. by rewrite (bind_ok _ _ _ _ _ (zeroed_ok s)).
Qed.

Lemma read_none es off s : Forall small es → ∃ s', read_from_extents fs es off 0 s = (Ok [], s') ∧ (volume s → stable s s').
Proof using All.
  revert off s. induction es as [|e es IH]; intros off s Hs; [by exists s|]. apply Forall_cons in Hs as [He Hs].
  rewrite extent_step by done. destruct (_ <=? off) eqn:E1; [by apply IH|]. destruct (off <? _) eqn:E2; [by exists s|]. cbv zeta.
  apply Z.leb_gt in E1. apply Z.ltb_ge in E2. rewrite Z.min_l by lia. rewrite (bind_ok _ _ _ [] s) by done. rewrite Z.sub_0_r.
  destruct (IH (off + 0) s Hs) as (s' & E & Hst). rewrite (bind_ok _ _ _ _ _ E). by exists s'.
Qed.

Lemma file_byte_skip byte e es a n : 0 ≤ n → (ee_block e + ee_len e) * bs ≤ a →
  file_byte byte bs (e :: es) <$> seqZ a n = file_byte byte bs es <$> seqZ a n.
Proof.
  intros Hn Ha. apply list_fmap_ext. intros i x Hx%lookup_seqZ. cbn [file_byte]. unfold holds. rewrite (proj2 (Z.ltb_ge x _)) by lia. by rewrite andb_false_r.
Qed.

Lemma file_byte_here byte e es a n : ee_block e * bs ≤ a → 0 ≤ n → a + n ≤ (ee_block e + ee_len e) * bs →
  file_byte byte bs (e :: es) <$> seqZ a n = span byte (phys_block e * bs + (a - ee_block e * bs)) n.
Proof.
  intros Ha Hn Hle. unfold span. set (c := phys_block e * bs + (a - ee_block e * bs)).
  replace (seqZ c n) with (Z.add (c - a) <$> seqZ a n) by (rewrite fmap_add_seqZ; f_equal; lia). rewrite <- list_fmap_compose.
  apply list_fmap_ext. intros i x Hx%lookup_seqZ. cbn [file_byte compose]. unfold holds.
  rewrite (proj2 (Z.leb_le _ x)), (proj2 (Z.ltb_lt x _)) by lia. cbn. f_equal. unfold c. lia.
Qed.

Lemma dense_small exts : ∀ b, dense nb b exts → 0 ≤ b → (b + blocks exts) * bs < 2 ^ 64 → Forall small exts ∧ 0 ≤ blocks exts.
Proof using All.
  induction exts as [|e es IH]; intros b Hd Hb Hlt; [by split; [constructor|]|]. cbn in Hd, Hlt |- *. destruct Hd as (Eb & Hl & _ & _ & Hd).
  destruct (IH (b + ee_len e) Hd) as [Hs Hp]; [lia|by rewrite <- Z.add_assoc|]. split; [|lia]. constructor; [|done]. split_and!; [lia|lia|rewrite Eb; nia].
Qed.

(** Reading through gapless extents. *)
Lemma read_dense exts : ∀ b off want s, volume s → dense nb b exts → 0 ≤ b → (b + blocks exts) * bs < 2 ^ 64 →
  b * bs ≤ off → 0 ≤ want → off + want ≤ (b + blocks exts) * bs →
  ∃ s', read_from_extents fs exts off want s = (Ok (file_byte (bd_byte s) bs exts <$> seqZ off want), s') ∧ stable s s'.
Proof using All.
  induction exts as [|e es IH]; intros b off want s Hv Hd Hb Hlt Ho Hw Hle.
  { exists s. cbn in Hle. by replace want with 0 by lia. }
  destruct (dense_small _ _ Hd Hb Hlt) as [[He Hes]%Forall_cons Hp]. cbn in Hd, Hlt, Hle, Hp. destruct Hd as (Eb & Hl & Hph & Hnb & Hd).
  destruct (dense_small _ _ Hd ltac:(lia) ltac:(by rewrite <- Z.add_assoc)) as [_ Hp'].
  rewrite extent_step by done. destruct (Z.leb_spec ((ee_block e + ee_len e) * bs) off) as [Hge|Hlt'].
  { destruct (IH (b + ee_len e) off want s Hv Hd) as (s' & E & Hs); [lia|by rewrite <- Z.add_assoc|lia|lia|lia|]. exists s'. by rewrite file_byte_skip by lia. }
  rewrite (proj2 (Z.ltb_ge off _)) by lia. cbv zeta. set (o := off - ee_block e * bs). set (n := Z.min want (ee_len e * bs - o)).
  assert (0 ≤ o) by lia. pose proof (Z.div_mod o bs ltac:(lia)) as Hdm. pose proof (Z.mod_pos_bound o bs ltac:(lia)) as Hmb.
  assert (0 ≤ o / bs) by (apply Z.div_pos; lia). assert ((phys_block e + ee_len e) * bs ≤ nb * bs) by (apply Z.mul_le_mono_nonneg_r; lia).
  destruct (read_blocks_spec (Z.to_nat n) (phys_block e + o / bs) (o mod bs) n (replicate (Z.to_nat bs) 0) s) as (s1 & E1 & Hs1);
    [done|done|lia|lia|done|lia|by rewrite length_replicate|].
  rewrite (bind_ok _ _ _ _ _ E1). pose proof Hs1 as [Hv1 Eb1].
  replace ((phys_block e + o / bs) * bs + o mod bs) with (phys_block e * bs + o) by lia.
  destruct (Z.le_gt_cases want (ee_len e * bs - o)) as [Hshort|Hlong].
  - assert (n = want) as -> by lia. rewrite Z.sub_diag. destruct (read_none es (off + want) s1 Hes) as (s2 & E2 & Hs2).
    rewrite (bind_ok _ _ _ _ _ E2). exists s2. split; [|by eapply stable_trans; [|apply Hs2]]. rewrite app_nil_r, file_byte_here by lia. done.
  - assert (n = ee_len e * bs - o) as En by lia. destruct (IH (b + ee_len e) (off + n) (want - n) s1 Hv1 Hd) as (s2 & E2 & Hs2);
      [lia|by rewrite <- Z.add_assoc|lia|lia|lia|].
    rewrite (bind_ok _ _ _ _ _ E2). exists s2. split; [|by eapply stable_trans]. rewrite Eb1.
    replace want with (n + (want - n)) at 2 by lia. rewrite seqZ_app, fmap_app by lia. rewrite file_byte_here, file_byte_skip by lia. done.
Qed.
End Contents.

(** The inode stores these extents inline. *)
Definition has_extents (n : Inode) (exts : list Extent) : Prop :=
  let h := parse_header (i_block n) in eh_magic h = 0xF30A ∧ eh_depth h = 0 ∧ records_after parse_extent (eh_entries h) (i_block n) = Some exts.

Lemma read_data_extents `{BlockDevice Dv} fs n exts (s : Dv) : has_extents n exts → inode_size n < 2 ^ 63 →
  read_data fs n s = (let! bytes := read_from_extents fs exts 0 (inode_size n) in ret (padded (Z.to_nat (inode_size n)) bytes)) s.
Proof.
  intros (Hm & Hd & Hr) Hsz. unfold read_data, zeroed. rewrite (proj2 (Z.ltb_lt _ (2 ^ 63))) by lia. rewrite bind_ret. rewrite length_replicate.
  unfold read_extents. by rewrite Hm, Hd, Hr.
Qed.

(** C14. Reading a file returns its contents: for an inode whose inline extents map
    the file without a gap, on a device that keeps its promises, the bytes read are
    those at the mapped disk addresses, each at its offset, and their number is the
    size of the file.  The block size is that of the mounted file system. *)
Theorem read_data_contents `{BlockLaws Dv} fs nb n exts (s : Dv) :
  512 ≤ block_size fs < 2 ^ 63 → block_size fs mod 512 = 0 → volume fs nb s →
  has_extents n exts → dense nb 0 exts → 0 ≤ inode_size n ≤ blocks exts * block_size fs → blocks exts * block_size fs < 2 ^ 63 →
  ∃ s', read_data fs n s = (Ok (file_byte (bd_byte s) (block_size fs) exts <$> seqZ 0 (inode_size n)), s') ∧ stable fs nb s s'.
Proof.
  intros Hbs Hdiv Hv He Hd Hsz Hmax. rewrite (read_data_extents _ _ exts) by (done || lia).
  destruct (read_dense fs nb Hbs Hdiv exts 0 0 (inode_size n) s) as (s' & E & Hs); [done|done|lia|lia|lia|lia|lia|].
  exists s'. split; [|done]. rewrite (bind_ok _ _ _ _ _ E). unfold ret, padded.
  rewrite length_fmap, length_seqZ, Nat.sub_diag. by rewrite app_nil_r.
Qed.

Definition demo_hello : Inode := mkInode 0x81A4 5 (extent_root 1 6 ++ replicate 36 0) 0.

Lemma read_data_contents_witness : ∃ s', read_data demo_fs demo_hello demo_image = (Ok (bytes_of "world"), s').
Proof.
  destruct (read_data_contents demo_fs 16 demo_hello [mkExtent 0 1 0 6] demo_image) as (s' & E & _);
    [cbn; lia|reflexivity|split; [exact I|split; vm_compute; discriminate]|split_and!; reflexivity|vm_compute; split_and!; first [reflexivity|discriminate|exact I]|vm_compute; split; discriminate|reflexivity|].
  exists s'. rewrite E. f_equal.
Defined.

(** The contents behind a hole are lost: when the second extent of a file does
    not start where the first one ends, everything after the first extent reads as
    zeros, the bytes that the later extents map included, and no error is
    reported. *)
Theorem hole_hides_data `{BlockLaws Dv} fs nb n e1 e2 es (s : Dv) :
  512 ≤ block_size fs < 2 ^ 63 → block_size fs mod 512 = 0 → volume fs nb s →
  has_extents n (e1 :: e2 :: es) → dense nb 0 [e1] → small fs e2 → ee_len e1 < ee_block e2 →
  ee_len e1 * block_size fs ≤ inode_size n < 2 ^ 63 →
  let k := ee_len e1 * block_size fs in
  ∃ s', read_data fs n s = (Ok (span (bd_byte s) (phys_block e1 * block_size fs) k ++ replicate (Z.to_nat (inode_size n - k)) 0), s').
Proof.
  intros Hbs Hdiv Hv He Hd H2 Hgap Hsz k. rewrite (read_data_extents _ _ _ _ He) by lia. cbn in Hd. destruct Hd as (Eb & Hl & Hph & Hnb & _).
  assert (small fs e1) as H1 by (split_and!; [lia|lia|rewrite Eb; cbn; lia]).
  assert (k < ee_block e2 * block_size fs) as Hk by (apply Z.mul_lt_mono_pos_r; lia). assert (0 < k) by (unfold k; nia).
  rewrite (bind_ok _ _ _ (span (bd_byte s) (phys_block e1 * block_size fs) k) (read_from_extents fs (e1 :: e2 :: es) 0 (inode_size n) s).2).
  - eexists. unfold ret, padded. do 2 f_equal. f_equal. rewrite length_span. f_equal. lia.
  - rewrite (extent_step fs nb Hbs Hdiv e1) by done. rewrite Eb. rewrite (proj2 (Z.leb_gt _ 0)) by lia. rewrite (proj2 (Z.ltb_ge 0 _)) by lia. cbv zeta.
    rewrite Z.mul_0_l, Z.sub_0_r, Z.sub_0_r, Z.div_0_l, Z.mod_0_l, Z.add_0_r by lia. fold k. rewrite Z.min_r by lia.
    destruct (read_blocks_spec fs nb Hbs Hdiv (Z.to_nat k) (phys_block e1) 0 k (replicate (Z.to_nat (block_size fs)) 0) s) as (s1 & E1 & _);
      [done|done|lia|lia|lia|unfold k; nia|by rewrite length_replicate|].
    rewrite (bind_ok _ _ _ _ _ E1), Z.add_0_r, Z.add_0_l. unfold bind. rewrite (extent_step fs nb Hbs Hdiv e2) by done.
    rewrite (proj2 (Z.leb_gt _ k)), (proj2 (Z.ltb_lt k _)) by (destruct H2; nia). cbn. by rewrite app_nil_r.
Qed.

(** Blocks 0 and 3 of a file of four blocks are mapped, to disk blocks 6 and 5. *)
Definition demo_sparse : Inode :=
  mkInode 0x81A4 4096 (to_le 2 0xF30A ++ to_le 2 2 ++ to_le 2 4 ++ to_le 2 0 ++ to_le 4 0 ++
    (to_le 4 0 ++ to_le 2 1 ++ to_le 2 0 ++ to_le 4 6) ++ (to_le 4 3 ++ to_le 2 1 ++ to_le 2 0 ++ to_le 4 5) ++ replicate 24 0) 0.

Lemma hole_hides_data_witness : file_byte demo_image 1024 [mkExtent 0 1 0 6; mkExtent 3 1 0 5] 3072 = 2 ∧
  ∃ s', read_data demo_fs demo_sparse demo_image = (Ok (span demo_image 6144 1024 ++ replicate 3072 0), s').
Proof.
  split; [vm_compute; reflexivity|].
  destruct (hole_hides_data demo_fs 16 demo_sparse (mkExtent 0 1 0 6) (mkExtent 3 1 0 5) [] demo_image) as (s' & E);
    [cbn; lia|reflexivity|split; [exact I|split; vm_compute; discriminate]|split_and!; reflexivity
    |vm_compute; split_and!; first [reflexivity|discriminate|exact I]|vm_compute; split_and!; first [reflexivity|discriminate]|reflexivity
    |vm_compute; split; [discriminate|reflexivity]|].
  exists s'. rewrite E. reflexivity.
Defined.

(** ** Directories *)

Lemma le_at_nonneg off n data : Forall byte_ok data → 0 ≤ le_at off n data.
Proof. intros Hd. unfold le_at, slice. apply from_le_bound. by apply Forall_take, Forall_drop. Qed.

(** Scanning a directory ends, whatever its bytes: every round moves forward,
    past a record of nonzero length or to the next block, so one round per byte is
    enough fuel. *)
Theorem scan_entries_terminates bs data : 0 < bs → Forall byte_ok data → is_Some (scan_entries (1 + length data) bs data 0).
Proof.
  intros Hbs Hd. cut (∀ fuel pos, (pos ≤ length data < fuel + pos)%nat → is_Some (scan_entries fuel bs data pos)); [intros H; apply H; lia|].
  intros fuel. induction fuel as [|fuel IH]; intros pos Hf; cbn [scan_entries].
  { lia. }
  case_bool_decide; [done|]. destruct (Z.eqb_spec (le_at (pos + 4) 2 data) 0) as [|Hrec]; [done|].
  destruct (le_at pos 4 data =? 0).
  - case_bool_decide; [done|]. apply IH. pose proof (Z.div_mod (Z.of_nat pos) bs ltac:(lia)). pose proof (Z.mod_pos_bound (Z.of_nat pos) bs ltac:(lia)). nia.
  - case_bool_decide; [done|]. apply fmap_is_Some, IH. pose proof (le_at_nonneg (pos + 4) 2 data Hd). lia.
Qed.

Lemma scan_entries_terminates_witness : is_Some (scan_entries 1025 1024 (span demo_image 5120 1024) 0).
Proof.
  apply (scan_entries_terminates 1024 (span demo_image 5120 1024)); [lia|]. apply (bool_decide_unpack _). vm_compute. exact I.
Defined.

(** A block that starts with a deleted entry (inode 0) contributes no entries,
    whatever follows in it. *)
Theorem deleted_first_hides_block fuel bs data pos : 0 < bs → (pos + 8 ≤ length data)%nat → le_at pos 4 data = 0 →
  Z.of_nat pos mod bs = 0 → Z.of_nat (length data) ≤ Z.of_nat pos + bs → scan_entries (S fuel) bs data pos = Some [].
Proof.
  intros Hbs Hp Hi Hm Hl. cbn [scan_entries]. rewrite bool_decide_eq_false_2 by lia. destruct (_ =? 0); [done|]. rewrite Hi. cbn.
  rewrite bool_decide_eq_true_2; [done|]. pose proof (Z.div_mod (Z.of_nat pos) bs ltac:(lia)). nia.
Qed.

(** ** The device under the reader *)

(** The reader acts on the device only by reading blocks: what reading preserves,
    every operation preserves. *)
Section Preserved.
Context {Dv : Type} `{BlockDevice Dv} (P : Dv → Prop) (fs : Ext4Fs).
Context (Hread : ∀ start count buf, preserves P (bd_read start count buf)).

Lemma preserves_zeroed n : preserves P (zeroed n).
Proof. unfold zeroed. repeat preserves_step. Qed.
Lemma preserves_read_block n buf : preserves P (read_block fs n buf).
Proof using All. unfold read_block. repeat preserves_step. Qed.
#[local] Hint Resolve preserves_zeroed preserves_read_block : preserves.

Lemma preserves_read_inode ino : preserves P (read_inode fs ino).
Proof using All. unfold read_inode. repeat preserves_step. Qed.
Lemma preserves_read_blocks fuel : ∀ blk off left buf, preserves P (read_blocks fs fuel blk off left buf).
Proof using All. induction fuel; intros; cbn [read_blocks]; repeat preserves_step. Qed.
#[local] Hint Resolve preserves_read_inode preserves_read_blocks : preserves.

Lemma preserves_read_from_extents l : ∀ off rem, preserves P (read_from_extents fs l off rem).
Proof using All. induction l; intros; cbn [read_from_extents]; repeat preserves_step. Qed.
Lemma preserves_read_direct n l : ∀ off rem buf, preserves P (read_direct fs l n off rem buf).
Proof using All. induction l; intros; cbn [read_direct]; repeat preserves_step. Qed.
Lemma preserves_collect l : preserves P (collect_extents fs l).
Proof using All. induction l; cbn [collect_extents]; repeat preserves_step. Qed.
#[local] Hint Resolve preserves_read_from_extents preserves_read_direct preserves_collect : preserves.

Lemma preserves_read_data n : preserves P (read_data fs n).
Proof using All. unfold read_data, read_extents, read_direct_blocks. repeat preserves_step. Qed.
#[local] Hint Resolve preserves_read_data : preserves.

Lemma preserves_read_dir ino : preserves P (read_dir fs ino).
Proof using All. unfold read_dir. repeat preserves_step. Qed.
Lemma preserves_read_symlink ino : preserves P (read_symlink fs ino).
Proof using All. unfold read_symlink. repeat preserves_step. Qed.
End Preserved.

(** ** Symlinks *)

Lemma components_nonempty path : Forall (λ c, c ≠ [] ∧ c ≠ [46] ∧ (slash ∉ c)) (components path).
Proof.
  apply Forall_forall. intros c Hc. unfold components in Hc. apply list_elem_of_filter in Hc as [[H1 H2] Hc].
  split_and!; [done..|]. pose proof (split_pieces slash path) as Hs. rewrite Forall_forall in Hs. by apply Hs.
Qed.

(** Joining the components that are left and splitting them again changes nothing,
    and the joined path is relative. *)
Lemma components_join cs : cs ≠ [] → Forall (λ c, c ≠ [] ∧ c ≠ [46] ∧ (slash ∉ c)) cs →
  components (join slash cs) = cs ∧ starts_with [slash] (join slash cs) = false.
Proof.
  intros Hne Hcs. split.
  - unfold components. rewrite split_join; [|done|eapply Forall_impl; [done|naive_solver]].
    clear Hne. induction Hcs as [|c cs (H1 & H2 & _) _ IH]; [done|]. by rewrite filter_cons_True, IH.
  - destruct cs as [|c cs]; [done|]. apply Forall_cons in Hcs as [(Hc & _ & Hs) _]. unfold starts_with. apply bool_decide_eq_false_2.
    destruct c as [|x c]; [done|]. apply not_elem_of_cons in Hs as [Hx _]. destruct cs; cbn; congruence.
Qed.

(** A symlink that points to itself ends in an error: whatever else the root
    directory holds, looking the link up stops at the ninth nested symlink and
    reports too many of them.  ([I] is an invariant of the device under which the
    directory and the link read the same every time.) *)
Theorem symlink_loop_ends `{BlockDevice Dv} fs (I : Dv → Prop) name nm ino es s :
  (∀ s, I s → ∃ s', read_dir fs EXT4_ROOT_INO s = (Ok es, s') ∧ I s') → find_entry name es = Some (nm, ino, 7) →
  (∀ s, I s → ∃ s', read_symlink fs ino s = (Ok name, s') ∧ I s') →
  components name = [name] → starts_with [slash] name = false → name ≠ [46; 46] → I s →
  ∃ s', lookup fs (slash :: name) s = (Err E_SYMLINKS, s').
Proof.
  intros Hdir Hfind Hlink Hc Hrel Hdd Hs.
  assert (∀ d s, I s → ∃ s', lookup_from fs d EXT4_ROOT_INO name s = (Err E_SYMLINKS, s')) as Hloop.
  { clear s Hs. intros d. induction d as [|d IH]; intros s Hs; [by exists s|]. cbn [lookup_from]. rewrite Hrel, Hc. cbv beta iota.
    rewrite bool_decide_eq_false_2 by done. destruct (Hdir s Hs) as (s1 & E1 & Hs1). rewrite (bind_ok _ _ _ _ _ E1), Hfind. cbn [Z.eqb Pos.eqb].
    destruct (Hlink s1 Hs1) as (s2 & E2 & Hs2). rewrite (bind_ok _ _ _ _ _ E2), Hrel. destruct (IH s2 Hs2) as (s3 & E3).
    exists s3. by rewrite (bind_err _ _ _ _ _ E3). }
  destruct (Hloop 9%nat s Hs) as (s' & E). exists s'. rewrite <- E. unfold lookup. cbn [lookup_from].
  change (starts_with [slash] (slash :: name)) with true. rewrite Hrel. cbn [trim_start]. rewrite Z.eqb_refl.
  replace (trim_start slash name) with name; [done|]. destruct name as [|x name]; [done|]. cbn. destruct (Z.eqb_spec x slash) as [->|]; [|done].
  done.
Qed.

Lemma demo_dir f : f = demo_image → ∃ f', read_dir demo_fs EXT4_ROOT_INO f =
  (Ok [(bytes_of ".", 2, 2); (bytes_of "hello", 12, 1); (bytes_of "link", 13, 7); (bytes_of "loop", 14, 7)], f') ∧ f' = demo_image.
Proof.
  intros ->. exists (read_dir demo_fs EXT4_ROOT_INO demo_image).2. split; [|exact (preserves_read_dir (λ f, f = demo_image) demo_fs (λ _ _ _ f Hf, Hf) EXT4_ROOT_INO demo_image eq_refl)].
  rewrite (surjective_pairing (read_dir _ _ _)) at 1. apply (f_equal2 pair); [vm_compute; reflexivity|reflexivity].
Qed.

Lemma demo_link f : f = demo_image → ∃ f', read_symlink demo_fs 14 f = (Ok (bytes_of "loop"), f') ∧ f' = demo_image.
Proof.
  intros ->. exists (read_symlink demo_fs 14 demo_image).2. split; [|exact (preserves_read_symlink (λ f, f = demo_image) demo_fs (λ _ _ _ f Hf, Hf) 14 demo_image eq_refl)].
  rewrite (surjective_pairing (read_symlink _ _ _)) at 1. apply (f_equal2 pair); [vm_compute; reflexivity|reflexivity].
Qed.

Lemma symlink_loop_ends_witness : ∃ s', lookup demo_fs (bytes_of "/loop") demo_image = (Err E_SYMLINKS, s').
Proof.
  apply (symlink_loop_ends demo_fs (λ f, f = demo_image) (bytes_of "loop") (bytes_of "loop") 14
    [(bytes_of ".", 2, 2); (bytes_of "hello", 12, 1); (bytes_of "link", 13, 7); (bytes_of "loop", 14, 7)] demo_image);
    [exact demo_dir|reflexivity|exact demo_link|reflexivity|reflexivity|discriminate|reflexivity].
Defined.
