(* ===== verification/Boot.v ===== *)
(** * Booting ([main.rs])

    The kernel's main function above the drivers: the embedded test program, the
    files copied from the disk into the tree, the first process.  [ext4] is the
    content of the mounted disk by path, as in [Exec]; [cpu] is the boot processor,
    number 0 in the run queues.  Log output is left out. *)

From S2P Require Import Prelude.
From S2P Require Import Path.
From S2P Require Import Vfs.
From S2P Require Import Paging.
From S2P Require Import User.
From S2P Require Import Pty.
From S2P Require Import Sched.
From S2P Require Import Kernel.
From S2P Require Import Proc.
From S2P Require Import Clone.
From S2P Require Import Aspace.
From S2P Require Import Elf.
From S2P Require Import Signal.
From S2P Require Import File.
From S2P Require Import FileOps.
From S2P Require Import FsSys.
From S2P Require Import Exec.
From S2P Require Import Procfs.

(** ** The test program *)

(** [elf[off..off + n].copy_from_slice(bytes)] *)
Definition put_at (off : Z) (bytes l : list Z) : list Z :=
  take (Z.to_nat off) l ++ bytes ++ drop (Z.to_nat off + length bytes) l.

Definition hello_text : list Z := bytes_of "Hello from userspace!" ++ [10].

Definition test_code : list Z :=
  [0x20; 0x00; 0x80; 0xd2;  0xe1; 0x00; 0x00; 0x10;  0xc2; 0x02; 0x80; 0xd2;  0x08; 0x08; 0x80; 0xd2;
   0x01; 0x00; 0x00; 0xd4;  0x00; 0x00; 0x80; 0xd2;  0xa8; 0x0b; 0x80; 0xd2;  0x01; 0x00; 0x00; 0xd4] ++ hello_text.

Definition entry_vaddr : Z := 0x400080.

(** The assignments to the image, in order. *)
Definition test_fields : list (Z * list Z) :=
  [(0, ELF_MAGIC); (4, [2]); (5, [1]); (6, [1]); (16, to_le 2 2); (18, to_le 2 ELF_MACHINE); (20, to_le 4 1);
   (24, to_le 8 entry_vaddr); (32, to_le 8 64); (52, to_le 2 64); (54, to_le 2 56); (56, to_le 2 1);
   (64, to_le 4 1); (68, to_le 4 7); (80, to_le 8 0x400000); (88, to_le 8 0x400000); (96, to_le 8 4096);
   (104, to_le 8 4096); (112, to_le 8 0x1000); (128, test_code)].

Definition test_elf : list Z := foldl (λ l e, put_at e.1 e.2 l) (replicate 4096 0) test_fields.

(** A file of the kernel's own in a directory. *)
Definition put_file (dir : Z) (name data : list Z) : M Os () :=
  let! h := on_tree (alloc_inode (set_data data (new_file 0x1ED))) in
  on_tree (modify (add_child dir name h)).

Definition create_test_elf : M Os () :=
  let! r := on_tree root in
  let! o := gets (λ s, child (tree s) r (bytes_of "bin")) in
  match o with Some bin => put_file bin (bytes_of "hello") test_elf | None => ret tt end.

(** ** Files from the disk *)

Definition INTERP_NAME : list Z := bytes_of "ld-linux-aarch64.so.1".
Definition GNU_LIB_DIR : list Z := bytes_of "aarch64-linux-gnu".

(** [haystack.contains(needle)] *)
Fixpoint contains (needle l : list Z) : bool :=
  starts_with needle l || match l with [] => false | _ :: l' => contains needle l' end.

Definition arch_paths : list (list Z) :=
  let lib := bytes_of "/lib/" in let usr_lib := bytes_of "/usr/lib/" in let gnu n := GNU_LIB_DIR ++ slash :: n in
  [lib ++ INTERP_NAME; usr_lib ++ gnu INTERP_NAME; lib ++ gnu (bytes_of "libc.so.6"); usr_lib ++ gnu (bytes_of "libc.so.6");
   lib ++ gnu (bytes_of "libm.so.6"); lib ++ gnu (bytes_of "libdl.so.2"); usr_lib ++ gnu (bytes_of "libdl.so.2");
   lib ++ gnu (bytes_of "libpthread.so.0"); lib ++ gnu (bytes_of "libgcc_s.so.1"); lib ++ gnu (bytes_of "libtinfo.so.6");
   lib ++ gnu (bytes_of "libreadline.so.8")].

Definition static_paths : list (list Z) := bytes_of <$>
  ["/sbin/init"; "/usr/sbin/init"; "/bin/bash"; "/usr/bin/bash"; "/bin/sh"; "/usr/bin/sh"; "/bin/hello"; "/bin/hello_raw";
   "/bin/hello_dyn"; "/usr/bin/weston"; "/usr/bin/startxfce4"; "/usr/bin/xfce4-session"]%string.

Definition all_paths : list (list Z) := arch_paths ++ static_paths.

Section Load.
Context (depth fuel : nat) (ext4 : list Z → option (list Z)).

(** [current] is the path so far. *)
Fixpoint make_dirs (current : list Z) (parts : list (list Z)) : M Os () :=
  match parts with
  | [] => ret tt
  | part :: l =>
      let current := current ++ slash :: part in
      ignore (mkdirat depth fuel (-1) current 0x1ED) ;;; make_dirs current l
  end.

Definition ensure_vfs_dir (path : list Z) : M Os () := make_dirs [] (filter (λ p, p ≠ []) (split slash path)).

(** The file into the directory at a path, if that exists. *)
Definition put_in (dir name data : list Z) : M Os () :=
  let! r := try (resolve_os depth dir) in
  match r with inl p => put_file p name data | inr _ => ret tt end.

(** The round of the loop for one path. *)
Definition load_path (path : list Z) : M Os () :=
  match rsplit_once slash path with Some (dir, _) => ensure_vfs_dir dir | None => ret tt end ;;;
  match ext4 path with
  | Some data => let! (dir, name) := or_panic (rsplit_once slash path) in put_in dir name data
  | None => ret tt
  end ;;;
  when (contains INTERP_NAME path)
    match ext4 path with Some data => put_in (bytes_of "/lib") INTERP_NAME data | None => ret tt end.

Definition load_rootfs_to_vfs : M Os () := for_each all_paths load_path.
End Load.

(** ** The first process *)

Definition init_paths : list (list Z) := bytes_of <$>
  ["/usr/bin/startxfce4"; "/usr/bin/xfce4-session"; "/usr/bin/weston"; "/bin/bash"; "/bin/hello_raw"; "/bin/hello"]%string.
Definition init_env : list (list Z) := bytes_of <$>
  ["PATH=/usr/local/sbin:/usr/local/bin:/usr/sbin:/usr/bin:/sbin:/bin"; "HOME=/root"; "TERM=linux"; "DISPLAY=:0"]%string.

Section First.
Context (cpu : nat) (depth fuel : nat) (disk : option (list Z → option (list Z))) (counter trampoline kstack_top : Z) `{Goblin}.

(** Reads from a disk that is not mounted fail. *)
Definition ext4_of : list Z → option (list Z) := default (λ _, None) disk.

Fixpoint spawn_first (paths : list (list Z)) : M Os (option (list Z * Z)) :=
  match paths with
  | [] => ret None
  | path :: l =>
      let! r := try (spawn_user_process cpu depth ext4_of counter trampoline kstack_top path [path] init_env) in
      match r with inl pid => ret (Some (path, pid)) | inr _ => spawn_first l end
  end.

(** [None] when there is no user thread at the front of queue 0; interrupts are
    masked before the switch. *)
Definition run_first_user_process : M Os (option Switch) :=
  let! qs := gets (λ s, run_queues (SCHEDULER (sched (the_k s)))) in
  let! q := or_panic (qs !! 0%nat) in
  if match q with t :: _ => is_user t | [] => false end then on_k (on_sched (schedule cpu)) else ret None.

(** [_start] from the mount on.  The interrupts of the two seconds it waits for the
    tick counts of the processors are left out. *)
Definition start_userspace : M Os (option Switch) :=
  match disk with Some ext4 => load_rootfs_to_vfs depth fuel ext4 | None => create_test_elf end ;;;
  let! r := try (resolve_os depth (bytes_of "/bin/hello")) in
  match r with inl _ => ret tt | inr _ => create_test_elf end ;;;
  spawn_first init_paths ;;;
  run_first_user_process.

(** [_start] from [fs::init] on, with [n] processors: the file tree, the scheduler,
    the console terminal, then the programs. *)
Definition start (n : nat) (idle_name : nat → string) : M Os (option Switch) :=
  fs_init cpu ;;;
  on_k (on_sched (modify (Sched.init n idle_name))) ;;;
  modify (λ s, set_ptys (create_console_pty (ptys s)).2 s) ;;;
  start_userspace.
End First.

(** ** What the test program does

    The three instructions it uses, decoded from their encoding: [movz] and [adr]
    write a register, [svc] calls the kernel. *)

Inductive Insn := Movz (rd imm : Z) | Adr (rd off : Z) | Svc (imm : Z).

Definition bits (w lo n : Z) : Z := Z.shiftr w lo mod 2 ^ n.

Definition decode (w : Z) : option Insn :=
  if bits w 21 11 =? 0x694 then Some (Movz (bits w 0 5) (bits w 5 16))
  else if (bits w 31 1 =? 0) && (bits w 24 5 =? 0x10) then
    let imm := bits w 5 19 * 4 + bits w 29 2 in
    Some (Adr (bits w 0 5) (if imm <? 2 ^ 20 then imm else imm - 2 ^ 21))
  else if (bits w 21 11 =? 0x6A0) && (bits w 0 5 =? 1) then Some (Svc (bits w 5 16))
  else None.

Definition fetch (mem : Z → option Z) (pc : Z) : option Z := from_le <$> mapM mem (seqZ pc 4).
Definition upd (r v : Z) (x : Z → Z) : Z → Z := λ i, if i =? r then v else x i.

(** Runs up to the next system call, at most [n] instructions: the address behind it
    and the registers it is made with. *)
Fixpoint to_call (n : nat) (mem : Z → option Z) (pc : Z) (x : Z → Z) : option (Z * (Z → Z)) :=
  match n with
  | O => None
  | S n' =>
      w ← fetch mem pc; i ← decode w;
      match i with
      | Movz rd imm => to_call n' mem (pc + 4) (upd rd imm x)
      | Adr rd off => to_call n' mem (pc + 4) (upd rd (pc + off) x)
      | Svc _ => Some (pc + 4, x)
      end
  end.

(** A memory that holds the image at its address. *)
Definition holds_image (mem : Z → option Z) : Prop :=
  ∀ x, 0x400000 ≤ x < 0x401000 → mem x = test_elf !! Z.to_nat (x - 0x400000).

Lemma mapM_same {A B} (f g : A → option B) l : (∀ x, x ∈ l → f x = g x) → mapM f l = mapM g l.
Proof.
  induction l as [|x l IH]; intros H; [done|]. cbn. rewrite (H x) by left. rewrite IH; [done|]. intros y Hy. apply H. by right.
Qed.

Lemma image_bytes mem a n : holds_image mem → 0x400000 ≤ a → a + n ≤ 0x401000 →
  mapM mem (seqZ a n) = mapM (λ x, test_elf !! Z.to_nat (x - 0x400000)) (seqZ a n).
Proof. intros Hm Ha Hn. apply mapM_same. intros x Hx%elem_of_seqZ. apply Hm. lia. Qed.

Definition hello_words : list Z := [0xd2800020; 0x100000e1; 0xd28002c2; 0xd2800808; 0xd4000001; 0xd2800000; 0xd2800ba8; 0xd4000001].

Lemma fetch_hello mem i w : holds_image mem → hello_words !! i = Some w → fetch mem (entry_vaddr + 4 * Z.of_nat i) = Some w.
Proof.
  intros Hm Hw. pose proof (lookup_lt_Some _ _ _ Hw) as Hi. cbn in Hi. unfold fetch, entry_vaddr. rewrite image_bytes by (done || lia).
  do 8 (destruct i as [|i]; [vm_compute in Hw; injection Hw as <-; vm_compute; reflexivity|]). exfalso. lia.
Qed.

Lemma decode_hello : decode <$> hello_words =
  [Some (Movz 0 1); Some (Adr 1 28); Some (Movz 2 22); Some (Movz 8 64); Some (Svc 0); Some (Movz 0 0); Some (Movz 8 93); Some (Svc 0)].
Proof. vm_compute. reflexivity. Qed.

(** The calls the program makes: [write(1, text, 22)] and, whatever that returns,
    [exit(0)]. *)
Definition says_hello (mem : Z → option Z) (pc : Z) : Prop :=
  ∀ x, ∃ pc1 x1, to_call 5 mem pc x = Some (pc1, x1) ∧
    x1 8 = 64 ∧ x1 0 = 1 ∧ mapM mem (seqZ (x1 1) (x1 2)) = Some (bytes_of "Hello from userspace!" ++ [10]) ∧
    ∀ result, ∃ pc2 x2, to_call 3 mem pc1 (upd 0 result x1) = Some (pc2, x2) ∧ x2 8 = 93 ∧ x2 0 = 0.

Lemma hello_calls mem : holds_image mem → says_hello mem entry_vaddr.
Proof.
  intros Hm x. pose proof (λ i w, fetch_hello mem i w Hm) as F.
  assert (∀ n i ins pc y, pc = entry_vaddr + 4 * Z.of_nat i → (w ← hello_words !! i; decode w) = Some ins →
    to_call (S n) mem pc y = match ins with
      | Movz rd imm => to_call n mem (pc + 4) (upd rd imm y)
      | Adr rd off => to_call n mem (pc + 4) (upd rd (pc + off) y)
      | Svc _ => Some (pc + 4, y) end) as Hstep.
  { intros n i ins pc y -> Hi. cbn [to_call]. destruct (hello_words !! i) as [w|] eqn:Ew; [|done]. cbn [mbind option_bind] in Hi.
    rewrite (F i w Ew). cbn [mbind option_bind]. by rewrite Hi. }
  rewrite (Hstep 4 0 (Movz 0 1))%nat by (reflexivity || (vm_compute; reflexivity)).
  rewrite (Hstep 3 1 (Adr 1 28))%nat by (reflexivity || (vm_compute; reflexivity)).
  rewrite (Hstep 2 2 (Movz 2 22))%nat by (reflexivity || (vm_compute; reflexivity)).
  rewrite (Hstep 1 3 (Movz 8 64))%nat by (reflexivity || (vm_compute; reflexivity)).
  rewrite (Hstep 0 4 (Svc 0))%nat by (reflexivity || (vm_compute; reflexivity)).
  eexists _, _. split; [reflexivity|]. split; [done|]. split; [done|]. split.
  { cbn [upd Z.eqb]. rewrite image_bytes by (done || (vm_compute; congruence)). vm_compute. reflexivity. }
  intros result.
  rewrite (Hstep 2 5 (Movz 0 0))%nat by (reflexivity || (vm_compute; reflexivity)).
  rewrite (Hstep 1 6 (Movz 8 93))%nat by (reflexivity || (vm_compute; reflexivity)).
  rewrite (Hstep 0 7 (Svc 0))%nat by (reflexivity || (vm_compute; reflexivity)).
  eexists _, _. by split.
Qed.

Definition hello_header : Header := mkHeader ([0x7f; 69; 76; 70; 2; 1; 1] ++ replicate 9 0) 2 183 entry_vaddr 64 56 1.
Definition hello_phdr : ProgramHeader := mkPhdr PT_LOAD 7 0 0x400000 4096 4096.

Lemma test_elf_length : length test_elf = 4096%nat.
Proof. apply Nat2Z.inj. vm_compute. reflexivity. Qed.

Lemma hello_static : static_image (H := elf64) test_elf hello_header [hello_phdr].
Proof.
  constructor.
  - rewrite test_elf_length. apply Nat.leb_le. reflexivity.
  - rewrite test_elf_length. reflexivity.
  - vm_compute. reflexivity.
  - reflexivity.
  - reflexivity.
  - reflexivity.
  - vm_compute. reflexivity.
  - by repeat constructor.
  - cbn. apply Forall_singleton. constructor; try rewrite test_elf_length; vm_compute; (reflexivity || (split; congruence) || congruence).
  - cbn. split; [vm_compute; congruence|done].
  - intros ph ->%list_elem_of_singleton _. vm_compute. congruence.
  - by repeat constructor.
  - by split.
  - by split.
Qed.

Lemma test_elf_plain : parse_shebang test_elf = None ∧ test_elf ≠ [].
Proof. split; [vm_compute; reflexivity|]. intros E. pose proof test_elf_length as H. by rewrite E in H. Qed.

(** The one segment is the image. *)
Lemma hello_segment x : 0x400000 ≤ x < 0x401000 →
  in_seg 0 hello_phdr x = true ∧ Some (seg_byte test_elf 0 hello_phdr x) = test_elf !! Z.to_nat (x - 0x400000).
Proof.
  intros Hx. split.
  - apply within_spec. change (seg_lo 0 hello_phdr) with 0x400000. change (seg_hi 0 hello_phdr) with 0x401000. lia.
  - unfold seg_byte, seg_start. cbn [p_vaddr p_filesz p_offset hello_phdr]. rewrite (proj2 (within_spec _ _ _)) by lia.
    destruct (lookup_lt_is_Some_2 test_elf (Z.to_nat (x - 0x400000))) as [b Hb]; [rewrite test_elf_length; lia|]. rewrite Hb.
    rewrite Z.add_0_r, Z.add_0_l. by rewrite Hb.
Qed.

(** ** Spawning a program *)

(** What a new process runs: its segments, its stack, its thread at the end of the
    chosen queue and its entry in the process table. *)
Record spawned `{Goblin} (s s' : Os) (name data : list Z) (argv envp : list (list Z)) (h : Header) (l : list ProgramHeader)
    (parent : Z) (thread : Z → Z → Thread) (rt usp : Z) : Prop := {
  sp_seg : ∀ ph x, ph ∈ l → is_load ph = true → 0 ≤ x < VA_END → in_seg (bias_of h) ph x = true →
    user_byte (mem (mach_of s')) rt x = Some (seg_byte data (bias_of h) ph x) ∧ user_perm (mach_of s') rt x = Some (seg_perm ph);
  sp_stack : ∃ aux, start_stack (address_space rt) (mach_of s') usp argv envp aux;
  sp_sched : SCHEDULER (sched (the_k s')) = SCHEDULER (set_queues
    (let d := SCHEDULER (sched (the_k s)) in let c := least_loaded_cpu d in
     <[c := default [] (run_queues d !! c) ++ [thread usp rt]]> (run_queues d)) (sched (the_k s)));
  sp_proc : ∃ p, PROCESS_TABLE (the_k s') !! NEXT_PID (sched (the_k s)) = Some p ∧ p_name p = string_of name ∧ ppid p = parent;
  sp_files : tree s' = tree s ∧ FILES s' = FILES s ∧ fd_files s' = fd_files s ∧ fd_cloexec s' = fd_cloexec s ∧ ptys s' = ptys s }.

Lemma spawn_spec `{Goblin} cpu depth ext4 counter trampoline kst path argv envp s name argv' data h l u g eu eg :
  resolve_exec_image depth ext4 path argv s = (Ok (name, argv', data), s) → static_image data h l →
  Pmm.pmm_inv (mpmm (mach_of s)) → 4 * (total_pages (bias_of h) l + 2048) + 1 ≤ Pmm.free_pages (mpmm (mach_of s)) →
  strings_size argv' + strings_size envp + 8 * (27 + Z.of_nat (length argv') + Z.of_nat (length envp)) + 64 ≤ STACK_SIZE →
  current_creds cpu (the_k s) = (u, g, eu, eg) → Forall u64_ok [e_phentsize h; e_phnum h; u; g; eu; eg] →
  let d := SCHEDULER (sched (the_k s)) in is_Some (run_queues d !! least_loaded_cpu d) →
  ∃ s' rt usp, spawn_user_process cpu depth ext4 counter trampoline kst path argv envp s = (Ok (NEXT_PID (sched (the_k s))), s') ∧
    spawned s s' name data argv' envp h l (current_pid cpu (the_k s))
      (λ usp rt, new_user (string_of name) (NEXT_PID (sched (the_k s))) (e_entry h + bias_of h) usp rt trampoline kst) rt usp.
Proof.
  intros Himg Him Hpmm Hfree Hsize Hcr Hids d [q Hq].
  assert (0 ≤ total_pages (bias_of h) l) as Htot by (eapply total_pages_nonneg; [|apply Him]; unfold bias_of, PIE_BASE; case_match; lia).
  destruct (new_table_spec s E_NO_ASPACE Hpmm ltac:(lia)) as (rt & m & lv & En & Ho & Hf).
  set (pt := os_table (address_space rt)) in *.
  destruct (image_and_stack pt (vfs_data depth) (ext4_data ext4) data h l counter argv' envp u g eu eg (with_mach m s))
    as (r & s1 & usp & ra & s2 & E1 & E2 & He & _ & Hst & Hseg); [done|by exists lv|change (4 * (total_pages (bias_of h) l + 2048) ≤ Pmm.free_pages (mpmm m)); lia|done|done|].
  assert (memory_only s s1) as [m1 ->].
  { replace s1 with (load_elf pt (vfs_data depth) (ext4_data ext4) data (with_mach m s)).2 by (by rewrite E1).
    apply load_elf_memory. by exists m. }
  assert (memory_only s s2) as [m2 ->].
  { replace s2 with (setup_user_stack pt counter (u, g, eu, eg) (stack_top r) argv' envp r (with_mach m1 s)).2 by (by rewrite E2).
    apply setup_user_stack_memory. by exists m1. }
  unfold spawn_user_process. rewrite (bind_ok _ _ _ _ _ (map_err_ok _ _ _ _ _ Himg)). cbv beta iota.
  rewrite (bind_ok _ _ _ _ _ En), (bind_ok _ _ _ _ _ E1), bind_gets, current_creds_with, Hcr, (bind_ok _ _ _ _ _ E2).
  erewrite bind_ok by reflexivity. match goal with |- context [bind (gets _) _ ?x] => set (s3 := x) end. rewrite !bind_gets.
  erewrite bind_ok by reflexivity. match goal with |- context [bind (gets _) _ ?x] => set (s4 := x) end. rewrite bind_gets.
  change (run_queues (SCHEDULER (sched (the_k s4)))) with (run_queues d).
  destruct (run_queues d) as [|q0 qs] eqn:Eqs; [by rewrite lookup_nil in Hq|]. rewrite <- Eqs in Hq |- *. rewrite bind_gets.
  change (least_loaded_cpu (SCHEDULER (sched (the_k s4)))) with (least_loaded_cpu d). rewrite Hq. kstep.
  eexists _, rt, usp. split; [reflexivity|]. constructor.
  - exact Hseg.
  - eexists. exact (start_stack_mach _ _ _ _ _ _ Hst).
  - cbv zeta. fold d. rewrite Hq, He. cbn [default]. rewrite Eqs. reflexivity.
  - eexists. split; [cbn; rewrite lookup_insert_eq; reflexivity|]. unfold new_process. by destruct (parent_creds _ _) as [[[[[]]]]].
  - done.
Qed.

(** ** Booting without a disk *)

(** The directories of the first tree. *)
Definition usr_h : Z := 7.
Definition bin_h : Z := 8.
Definition usr_bin_h : Z := 13.

(** The tree is still the one of [fs::init], but for [/proc]. *)
Record fresh_tree (t : Fs) : Prop := {
  ft_closed : closed t;
  ft_root : ROOT t = Some 0;
  ft_node : ∀ h, h ∈ [0; usr_h; bin_h; usr_bin_h] → is_Some (inodes t !! h) ∧ node t h = node boot_tree h }.

Lemma booted_fresh cpu k t d : booted cpu k t d → fresh_tree t.
Proof.
  intros [[Hr _] _ _ _ Hc Ho]. split; [done|done|]. intros h Hh. apply Ho.
  - assert (Forall (λ h, is_Some (inodes boot_tree !! h)) [0; usr_h; bin_h; usr_bin_h]) as H by by_names. rewrite Forall_forall in H. by apply H.
  - intros ->. assert (proc_h ∉ [0; usr_h; bin_h; usr_bin_h]) as H by by_names. contradiction.
Qed.

(** The entries the first paths need. *)
Lemma boot_entries : Forall (λ h, itype (node boot_tree h) = IDirectory) [0; usr_h; bin_h; usr_bin_h] ∧
  child boot_tree 0 (bytes_of "usr") = Some usr_h ∧ child boot_tree 0 (bytes_of "bin") = Some bin_h ∧
  child boot_tree usr_h (bytes_of "bin") = Some usr_bin_h ∧
  children (node boot_tree bin_h) = ∅ ∧ children (node boot_tree usr_bin_h) = ∅.
Proof. by_names. Qed.

#[local] Opaque boot_tree test_elf.

(** The tree with the test program. *)
Definition with_hello (t : Fs) : Fs := with_new (set_data test_elf (new_file 0x1ED)) bin_h (bytes_of "hello") t.

Section WithHello.
Context (t : Fs) (Ht : fresh_tree t).

Lemma create_test_elf_run s : tree s = t → create_test_elf s = (Ok tt, set_tree (with_hello t) s).
Proof using Ht.
  intros Es. unfold create_test_elf. rewrite (bind_ok _ _ s 0 s).
  2:{ unfold on_tree, root, bind, get. rewrite Es, (ft_root _ Ht). cbn. rewrite <- Es. by destruct s. }
  rewrite bind_gets, Es. destruct (ft_node _ Ht 0) as [_ Hn]; [left|]. destruct boot_entries as (_ & _ & Hb & _).
  assert (child t 0 (bytes_of "bin") = Some bin_h) as -> by (unfold child; rewrite Hn; exact Hb).
  unfold put_file, with_hello, with_new. rewrite <- Es. reflexivity.
Qed.

Lemma hello_nodes h : h ∈ [0; usr_h; usr_bin_h] → node (with_hello t) h = node boot_tree h.
Proof using Ht.
  intros Hh. assert (h ∈ [0; usr_h; bin_h; usr_bin_h] ∧ h ≠ bin_h) as [Hin Hne].
  { assert (Forall (λ h, h ∈ [0; usr_h; bin_h; usr_bin_h] ∧ h ≠ bin_h) [0; usr_h; usr_bin_h]) as H by by_names. rewrite Forall_forall in H. by apply H. }
  destruct (ft_node _ Ht h Hin) as [Hp Hn]. destruct (ft_node _ Ht bin_h) as [Hb _]; [right; right; left|].
  rewrite <- Hn. by apply (ad_node _ _ _ (with_new_adds (set_data test_elf (new_file 0x1ED)) bin_h (bytes_of "hello") t (ft_closed _ Ht) Hb eq_refl)).
Qed.

Lemma hello_bin : itype (node (with_hello t) bin_h) = IDirectory ∧
  ∀ c, child (with_hello t) bin_h c = if bool_decide (c = bytes_of "hello") then Some (NEXT_INODE t) else None.
Proof using Ht.
  destruct (ft_node _ Ht bin_h) as [Hb Hn]; [right; right; left|]. destruct boot_entries as (Hd & _ & _ & _ & He & _).
  split.
  - unfold with_hello. rewrite (with_new_type _ _ _ _ (ft_closed _ Ht) Hb), Hn. rewrite Forall_forall in Hd. apply Hd. right. right. left.
  - intros c. unfold with_hello. rewrite (with_new_child _ _ _ _ _ (ft_closed _ Ht) Hb). case_bool_decide; [done|]. unfold child. by rewrite Hn, He.
Qed.

Lemma hello_resolves depth : resolve_path (S depth) (with_hello t) (bytes_of "/bin/hello") = Ok (NEXT_INODE t) ∧
  idata (node (with_hello t) (NEXT_INODE t)) = test_elf.
Proof using Ht.
  destruct boot_entries as (Hd & _ & Hb & _). rewrite Forall_forall in Hd. destruct hello_bin as [Hty Hch].
  assert (node (with_hello t) (NEXT_INODE t) = set_data test_elf (new_file 0x1ED)) as Hnew.
  { apply with_new_node; [apply Ht|]. by apply (ft_node _ Ht bin_h); right; right; left. }
  split; [|by rewrite Hnew]. change (bytes_of "/bin/hello") with (path_str (bytes_of <$> ["bin"; "hello"]%string)).
  rewrite resolve_comps. assert (ROOT (with_hello t) = Some 0) as -> by apply (ft_root _ Ht).
  rewrite comps_path_str by by_names. cbn [fmap list_fmap].
  rewrite (walk_step _ _ 0 bin_h), (walk_step _ _ bin_h (NEXT_INODE t)); [done|..].
  - by_names.
  - exact Hty.
  - by rewrite Hch, bool_decide_eq_true_2.
  - by rewrite Hnew.
  - by_names.
  - rewrite (hello_nodes 0 ltac:(left)). apply Hd. left.
  - unfold child. rewrite (hello_nodes 0 ltac:(left)). exact Hb.
  - by rewrite Hty.
Qed.

Lemma hello_dirs : goto (with_hello t) 0 [bytes_of "bin"] = Some bin_h ∧ goto (with_hello t) 0 (bytes_of <$> ["usr"; "bin"]%string) = Some usr_bin_h.
Proof using Ht.
  destruct boot_entries as (Hd & Hu & Hb & Hub & _). rewrite Forall_forall in Hd.
  assert (∀ h, h ∈ [0; usr_h; usr_bin_h] → itype (node (with_hello t) h) = IDirectory ∧ ∀ c, child (with_hello t) h c = child boot_tree h c) as H.
  { intros h Hh. unfold child. rewrite (hello_nodes h Hh). split; [|reflexivity]. apply Hd. revert Hh. clear. rewrite !elem_of_cons. tauto. }
  destruct (H 0) as [T0 C0]; [left|]. destruct (H usr_h) as [T1 C1]; [right; left|]. cbn [goto fmap list_fmap].
  rewrite T0, !C0, Hb, Hu. cbn [mbind option_bind]. rewrite T1, C1, Hub. change (bool_decide (IDirectory = IDirectory)) with true. split; reflexivity.
Qed.

(** The programs tried before it are not there. *)
Lemma others_missing depth p : p ∈ take 5 init_paths → resolve_path (S depth) (with_hello t) p = Err ENOENT.
Proof using Ht.
  destruct boot_entries as (Hd & _ & _ & _ & _ & Heu). rewrite Forall_forall in Hd. destruct hello_bin as [Hty Hch], hello_dirs as [Gb Gu].
  assert (ROOT (with_hello t) = Some 0) as Hr by apply (ft_root _ Ht).
  assert (∀ c, good_name (bytes_of c) → resolve_path (S depth) (with_hello t) (path_str ((bytes_of <$> ["usr"; "bin"]%string) ++ [bytes_of c])) = Err ENOENT) as Husr.
  { intros c Hc. apply (resolve_missing _ _ _ 0 usr_bin_h); [exact Hr|by_names|exact Hc|exact Gu| |]; unfold child; rewrite (hello_nodes usr_bin_h ltac:(right; right; left)).
    - apply Hd. right. right. right. left.
    - rewrite Heu. apply lookup_empty. }
  assert (∀ c, good_name (bytes_of c) → bytes_of c ≠ bytes_of "hello" → resolve_path (S depth) (with_hello t) (path_str ([bytes_of "bin"] ++ [bytes_of c])) = Err ENOENT) as Hbin.
  { intros c Hc Hn. apply (resolve_missing _ _ _ 0 bin_h); [exact Hr|by_names|exact Hc|exact Gb|exact Hty|]. by rewrite Hch, bool_decide_eq_false_2. }
  intros Hp. change (take 5 init_paths) with (bytes_of <$> ["/usr/bin/startxfce4"; "/usr/bin/xfce4-session"; "/usr/bin/weston"; "/bin/bash"; "/bin/hello_raw"]%string) in Hp.
  apply list_elem_of_fmap in Hp as (c & -> & Hc). 
  apply elem_of_cons in Hc as [->|Hc]; [apply (Husr "startxfce4"%string); by_names|].
  apply elem_of_cons in Hc as [->|Hc]; [apply (Husr "xfce4-session"%string); by_names|].
  apply elem_of_cons in Hc as [->|Hc]; [apply (Husr "weston"%string); by_names|].
  apply elem_of_cons in Hc as [->|Hc]; [apply (Hbin "bash"%string); by_names|].
  apply list_elem_of_singleton in Hc as ->. apply (Hbin "hello_raw"%string); by_names.
Qed.
End WithHello.

(** ** The first process *)

Lemma spawn_missing `{Goblin} cpu depth ext4 counter tr kst path argv envp s e : resolve_path depth (tree s) path = Err e → ext4 path = None →
  spawn_user_process cpu depth ext4 counter tr kst path argv envp s = (Err E_FILE_NOT_FOUND, s).
Proof.
  intros Hr He. unfold spawn_user_process. apply bind_err. unfold map_err, resolve_exec_image.
  by rewrite (bind_err _ _ _ _ _ (load_missing depth ext4 path e s Hr He)).
Qed.

(** Programs that are missing are passed over. *)
Lemma spawn_first_skip `{Goblin} cpu depth disk counter tr kst l1 l2 s :
  Forall (λ p, (∃ e, resolve_path depth (tree s) p = Err e) ∧ ext4_of disk p = None) l1 →
  spawn_first cpu depth disk counter tr kst (l1 ++ l2) s = spawn_first cpu depth disk counter tr kst l2 s.
Proof.
  induction 1 as [|p l1 [[e Hr] He] Hl IH]; [done|]. cbn [app spawn_first]. rewrite (bind_ok _ _ s (inr E_FILE_NOT_FOUND) s); [exact IH|].
  unfold try. by rewrite (spawn_missing _ _ _ _ _ _ _ _ _ _ e).
Qed.

Lemma min_by_key_head {A} (f : A → Z) x l : (∀ y, y ∈ l → f x ≤ f y) → min_by_key f (x :: l) = Some x.
Proof.
  intros H. cbn. destruct (min_by_key f l) as [y|] eqn:E; [|done]. apply min_by_key_spec in E as [Hy _].
  by rewrite (proj2 (Z.ltb_ge _ _)) by (by apply H).
Qed.

(** With nothing to run, processor 0 is the least loaded. *)
Lemma idle_least_loaded n cur : (0 < n)%nat → least_loaded_cpu (mkScheduler (replicate n []) cur n true) = 0%nat.
Proof.
  intros Hn. destruct n as [|n]; [lia|]. unfold least_loaded_cpu. cbn [run_queues num_cpus seq]. rewrite min_by_key_head; [done|].
  intros y _. apply Z.le_trans with 0; [apply Z.eq_le_incl; reflexivity|lia].
Qed.

(** The switch from the idle thread to the only user thread. *)
Lemma schedule_from_idle s t nm : let d := SCHEDULER s in initialized d = true → (0 < num_cpus d)%nat →
  current d !! 0%nat = Some (Some (new_idle nm)) → run_queues d !! 0%nat = Some [t] → state t = Ready → is_user t = true →
  ∃ s', schedule 0 s = (Ok (Some (mkSwitch None (pid t) true (Some (page_table_root (context (start_next t)))))), s') ∧
    current (SCHEDULER s') !! 0%nat = Some (Some (start_next t)).
Proof.
  intros d Hi Hn Hc Hq Hs Hu. unfold schedule. rewrite bind_get. fold d. rewrite Hi, (proj2 (Nat.leb_gt _ _) Hn), Hc, Hq. cbn [negb orb]. kstep.
  assert (pick_next 0 d = Some (t, <[0%nat := []]> (run_queues d))) as ->.
  { unfold pick_next. rewrite Hq. cbn [mbind option_bind]. assert (ready_entries [t] = [(0%nat, t)]) as Er.
    { unfold ready_entries. cbn [imap]. rewrite filter_cons, decide_True; [done|]. cbn. unfold is_ready. by rewrite bool_decide_eq_true_2. }
    unfold pick_local. rewrite Er. reflexivity. }
  cbv beta iota. kstep. cbn [fmap option_fmap option_map charge new_idle pid Z.eqb set_vruntime].
  assert (is_user (start_next t) = true) as -> by (unfold start_next; by destruct (is_user t && first_run t)).
  assert (pid (start_next t) = pid t) as -> by (unfold start_next; by destruct (is_user t && first_run t)).
  kstep. eexists. split; [reflexivity|].
  assert (0 < length (current d))%nat as Hl by (by eapply lookup_lt_Some).
  unfold set_current_pid. cbn [Nat.ltb Nat.leb MAX_CPUS]. cbn. rewrite list_lookup_insert_eq; [done|]. by rewrite length_insert.
Qed.

(** The kernel after [mm::init]: nothing started, and memory for the program. *)
Record at_boot (s : Os) : Prop := {
  ab_tree : tree s = empty_fs;
  ab_fds : fd_files s = [];
  ab_console : console_pty_id (ptys s) = u32_max;
  ab_table : PROCESS_TABLE (the_k s) = ∅;
  ab_sched : SCHEDULER (sched (the_k s)) = mkScheduler [] [] 0 false;
  ab_pmm : Pmm.pmm_inv (mpmm (mach_of s));
  ab_free : 8197 ≤ Pmm.free_pages (mpmm (mach_of s)) }.

Lemma on_k_sched_ok {A} (m : M Sched.Sys A) s a x : m (sched (the_k s)) = (Ok a, x) →
  ∃ s', on_k (on_sched m) s = (Ok a, s') ∧ sched (the_k s') = x ∧ mach_of s' = mach_of s ∧
    FILES s' = FILES s ∧ fd_files s' = fd_files s ∧ fd_cloexec s' = fd_cloexec s.
Proof.
  intros E. unfold on_k, on_sig, on_kern, on_sched. change (sched (kern (sig s))) with (sched (the_k s)). rewrite E. by eexists.
Qed.

(** Nothing but the last path names a program. *)
Lemma spawn_first_hello depth counter tr kst t s : fresh_tree t → tree s = with_hello t →
  spawn_first (H := elf64) 0 (S depth) None counter tr kst init_paths s = spawn_first (H := elf64) 0 (S depth) None counter tr kst [bytes_of "/bin/hello"] s.
Proof.
  intros Hft Et. change init_paths with (take 5 init_paths ++ [bytes_of "/bin/hello"]). apply spawn_first_skip, Forall_forall. intros p Hp.
  split; [|done]. rewrite Et. eexists. by apply others_missing.
Qed.

(** The part from the mount on, in the tree of [fs::init]. *)
Lemma start_userspace_hello depth fuel counter tr kst n idle_name s : fresh_tree (tree s) → PROCESS_TABLE (the_k s) = ∅ →
  SCHEDULER (sched (the_k s)) = mkScheduler (replicate n []) ((λ i, Some (new_idle (idle_name i))) <$> seq 0 n) n true → (0 < n)%nat →
  Pmm.pmm_inv (mpmm (mach_of s)) → 8197 ≤ Pmm.free_pages (mpmm (mach_of s)) →
  ∃ s' rt t, start_userspace (H := elf64) 0 (S depth) fuel None counter tr kst s = (Ok (Some (mkSwitch None (NEXT_PID (sched (the_k s))) true (Some rt))), s') ∧
    current (SCHEDULER (sched (the_k s'))) !! 0%nat = Some (Some t) ∧ pid t = NEXT_PID (sched (the_k s)) ∧ user_pc (context t) = entry_vaddr ∧
    says_hello (user_byte (mem (mach_of s')) rt) entry_vaddr ∧ FILES s' = FILES s ∧ fd_files s' = fd_files s ∧ fd_cloexec s' = fd_cloexec s.
Proof.
  intros Hft Htab Hsch Hn Hpmm Hfree. set (s1 := set_tree (with_hello (tree s)) s). destruct (hello_resolves (tree s) Hft depth) as [Hres Hdata].
  unfold start_userspace. rewrite (bind_ok _ _ _ _ _ (create_test_elf_run (tree s) Hft s eq_refl)). fold s1.
  rewrite (bind_ok _ _ s1 (inl (NEXT_INODE (tree s))) s1).
  2:{ unfold try, resolve_os, on_tree, resolve. cbn [tree set_tree s1]. by rewrite Hres. }
  rewrite bind_ret. set (hello := bytes_of "/bin/hello"). destruct test_elf_plain as [Hsh Hne].
  destruct (spawn_spec (H := elf64) 0 (S depth) (ext4_of None) counter tr kst hello [hello] init_env s1 hello [hello] test_elf hello_header [hello_phdr] 0 0 0 0)
    as (s2 & rt & usp & Esp & Hsp).
  - rewrite (resolve_plain_image _ _ _ _ (NEXT_INODE (tree s)) s1 Hres); cbn [tree set_tree s1]; rewrite Hdata; done.
  - exact hello_static.
  - exact Hpmm.
  - exact Hfree.
  - vm_compute. congruence.
  - unfold current_creds, cur_proc. change (the_k s1) with (the_k s). by rewrite Htab, lookup_empty.
  - by repeat constructor.
  - change (the_k s1) with (the_k s). rewrite Hsch, idle_least_loaded by done. cbn. destruct n; [lia|]. eauto.
  - rewrite (bind_ok _ _ s1 (Some (hello, NEXT_PID (sched (the_k s)))) s2).
    2:{ rewrite (spawn_first_hello depth counter tr kst (tree s) s1 Hft eq_refl). cbn [spawn_first].
        rewrite (bind_ok _ _ s1 (inl (NEXT_PID (sched (the_k s)))) s2); [done|]. unfold try. fold hello. by rewrite Esp. }
    pose proof (sp_sched _ _ _ _ _ _ _ _ _ _ _ _ Hsp) as Hq. change (the_k s1) with (the_k s) in Hq. unfold set_queues in Hq. cbn [SCHEDULER Sched.set_sched] in Hq.
    rewrite Hsch in Hq. rewrite idle_least_loaded in Hq by done. cbn [run_queues current num_cpus initialized] in Hq.
    destruct n as [|n]; [lia|]. cbn [replicate lookup list_lookup default app] in Hq. change (<[0%nat := ?x]> ([] :: ?l)) with (x :: l) in Hq.
    set (th := new_user _ _ _ _ _ _ _) in Hq.
    destruct (schedule_from_idle (sched (the_k s2)) th (idle_name 0%nat)) as (x & Ex & Hcur); [rewrite Hq; done || (cbn; lia)..|done|done|].
    destruct (on_k_sched_ok (schedule 0) s2 _ x Ex) as (s' & E' & Hx & Hm & Hf1 & Hf2 & Hf3).
    destruct (sp_files _ _ _ _ _ _ _ _ _ _ _ _ Hsp) as (_ & Hg1 & Hg2 & Hg3 & _).
    exists s', rt, (start_next th). split; [|rewrite Hx; split_and!].
    + unfold run_first_user_process. rewrite bind_gets, Hq. exact E'.
    + exact Hcur.
    + done.
    + done.
    + apply hello_calls. intros a Ha. rewrite Hm. destruct (hello_segment a Ha) as [Hin Hb]. rewrite <- Hb.
      apply (sp_seg _ _ _ _ _ _ _ _ _ _ _ _ Hsp hello_phdr a); [left|done|change VA_END with (2 ^ 48); lia|exact Hin].
    + by rewrite Hf1, Hg1.
    + by rewrite Hf2, Hg2.
    + by rewrite Hf3, Hg3.
Qed.

(** C37. Without a disk the kernel boots into the embedded program: from a kernel in
    which nothing is started and memory is left, building the file tree, starting the
    scheduler on any number of processors and looking for a program ends in a switch to
    the first process at the entry point of the image, in whose address space the
    machine code calls [write] with the greeting of 22 bytes on descriptor 1 and then
    [exit] with 0. *)
Theorem boot_says_hello depth fuel counter trampoline kstack_top n idle_name s : at_boot s → (0 < n)%nat →
  ∃ s' rt t, start (H := elf64) 0 (S depth) fuel None counter trampoline kstack_top n idle_name s =
      (Ok (Some (mkSwitch None (NEXT_PID (sched (the_k s))) true (Some rt))), s') ∧
    current (SCHEDULER (sched (the_k s'))) !! 0%nat = Some (Some t) ∧ pid t = NEXT_PID (sched (the_k s)) ∧ user_pc (context t) = entry_vaddr ∧
    says_hello (user_byte (mem (mach_of s')) rt) entry_vaddr.
Proof.
  intros [Ht Hfd Hcon Htab Hsch Hpmm Hfree] Hn. destruct (fs_init_spec 0 s Ht Hfd) as (t & d & E & B).
  destruct (ensure_init_kern s) as (Hk & _ & _). set (s1 := (ensure_init s).2) in *.
  unfold start. rewrite (bind_ok _ _ _ _ _ E). erewrite bind_ok by reflexivity.
  match goal with |- context [bind (modify _) _ ?x] => set (s2 := x) end. rewrite bind_modify. set (s3 := set_ptys _ s2).
  assert (the_k s3 = set_sched (Sched.init n idle_name (sched (the_k s))) (the_k s)) as Hk3 by (unfold s3, s2, the_k; cbn; by rewrite Hk).
  destruct (start_userspace_hello depth fuel counter trampoline kstack_top n idle_name s3) as (s' & rt & th & Es & Hc & Hp & Hpc & Hs & F1 & F2 & F3).
  - exact (booted_fresh _ _ _ _ B).
  - by rewrite Hk3.
  - rewrite Hk3. unfold Sched.init. cbn [sched Kernel.set_sched SCHEDULER Sched.set_sched]. by rewrite Hsch.
  - done.
  - unfold mach_of. by rewrite Hk3.
  - unfold mach_of. by rewrite Hk3.
  - rewrite Hk3 in *. exists s', rt, th. split_and!; [exact Es|done|done|done|done].
Qed.

(** Four processors and nine thousand free pages. *)
Definition demo_boot (p : Pmm.BitmapAllocator) : Os := with_mach (mkMach p (λ _, 0)) demo_os.

Lemma boot_says_hello_witness : ∃ p s' rt, start (H := elf64) 0 9 0 None 0 0 0 4 (λ _, ""%string) (demo_boot p) =
    (Ok (Some (mkSwitch None 1 true (Some rt))), s') ∧
  says_hello (user_byte (mem (mach_of s')) rt) entry_vaddr.
Proof.
  destruct (demo_pmm 9000) as (p & Hi & Hf & _); [lia|]. exists p.
  destruct (boot_says_hello 8 0 0 0 0 4 (λ _, ""%string) (demo_boot p)) as (s' & rt & t & E & _ & _ & _ & Hs).
  - constructor; [reflexivity|reflexivity|reflexivity|reflexivity|reflexivity|exact Hi|].
    change (8197 ≤ Pmm.free_pages p). lia.
  - lia.
  - exists s', rt. exact (conj E Hs).
Defined.

(** ** Directories on the way *)

(** The directories named by [cs], one after the other, exist or can be made: as far
    as the walk gets it meets directories, and then a name that is free. *)
Fixpoint clear_way (t : Fs) (cur : Z) (cs : list (list Z)) : Prop :=
  itype (node t cur) = IDirectory ∧
  match cs with
  | [] => True
  | c :: cs' => match child t cur c with Some h => clear_way t h cs' | None => True end
  end.

Lemma clear_way_dir t cur cs : clear_way t cur cs → itype (node t cur) = IDirectory.
Proof. by destruct cs as [|c cs]; intros [H _]. Qed.

#[export] Instance clear_way_dec t cs : ∀ cur, Decision (clear_way t cur cs).
Proof. induction cs as [|c cs IH]; intros cur; cbn [clear_way]; [apply _|]. destruct (child t cur c); apply _. Defined.

(** [t'] has the nodes and entries of [t]. *)
Definition tree_extends (t t' : Fs) : Prop := Vfs.grows t t' ∧ closed t' ∧ ∀ h, is_Some (inodes t !! h) → is_Some (inodes t' !! h).

Lemma tree_extends_refl t : closed t → tree_extends t t.
Proof. intros Hc. split_and!; [by split|done|done]. Qed.

Lemma tree_extends_trans t1 t2 t3 : tree_extends t1 t2 → tree_extends t2 t3 → tree_extends t1 t3.
Proof.
  intros ([R1 N1 C1] & _ & D1) ([R2 N2 C2] & Hc & D2). split_and!; [split|done|auto].
  - congruence.
  - intros h Hh. destruct (N1 h Hh) as [<- <-]. auto.
  - auto.
Qed.

Lemma with_new_extends i d n t : closed t → is_Some (inodes t !! d) → child t d n = None → children i = ∅ → tree_extends t (with_new i d n t).
Proof.
  intros Hc Hd Hn Hi. destruct (with_new_spec i d n t Hc Hd Hn Hi) as (Hg & Hc' & _). split_and!; [done|done|].
  exact (ad_dom _ _ _ (with_new_adds i d n t Hc Hd Hi)).
Qed.

Lemma goto_grows t t' cs : closed t → Vfs.grows t t' → ∀ cur h, is_Some (inodes t !! cur) → goto t cur cs = Some h → goto t' cur cs = Some h.
Proof.
  intros Hc Hg. induction cs as [|c cs IH]; intros cur h Hp; cbn [goto]; [done|]. destruct (gr_node _ _ Hg cur Hp) as [-> _].
  case_bool_decide; [|done]. destruct (child t cur c) as [x|] eqn:E; cbn [mbind option_bind]; [|done]. rewrite (gr_child _ _ Hg _ _ _ E).
  apply IH. exact (cl_child _ Hc _ _ _ E).
Qed.

Lemma goto_app t cs1 cs2 : ∀ cur, goto t cur (cs1 ++ cs2) = d ← goto t cur cs1; goto t d cs2.
Proof.
  induction cs1 as [|c cs1 IH]; intros cur; [done|]. cbn [app goto]. case_bool_decide; [|done]. destruct (child t cur c); [apply IH|done].
Qed.

(** The path so far, without the slash of the root. *)
Definition way (cs : list (list Z)) : list Z := concat (cons slash <$> cs).

Lemma way_snoc cs c : way (cs ++ [c]) = way cs ++ slash :: c.
Proof. unfold way. rewrite fmap_app, concat_app. cbn. by rewrite app_nil_r. Qed.

Lemma way_path cs : cs ≠ [] → way cs = path_str cs.
Proof.
  intros Hn. unfold path_str. rewrite bool_decide_eq_false_2 by done. induction cs as [|c cs IH]; [done|].
  destruct cs as [|c' cs]; [cbn; by rewrite app_nil_r|]. change (way (c :: c' :: cs)) with (slash :: c ++ way (c' :: cs)). by rewrite IH.
Qed.

Section Way.
Context (depth fuel : nat) (r : Z).

(** One [mkdir] of the chain. *)
Lemma mkdirat_way pre d c mode s : ROOT (tree s) = Some r → Forall good_name (pre ++ [c]) → goto (tree s) r pre = Some d →
  itype (node (tree s) d) = IDirectory →
  ignore (mkdirat (S depth) fuel (-1) (way (pre ++ [c])) mode) s =
    (Ok tt, match child (tree s) d c with Some _ => s | None => set_tree (with_new (new_dir mode) d c (tree s)) s end).
Proof.
  intros Hr Hg Hd Ht. pose proof Hg as [Hpre [Hc _]%Forall_cons]%Forall_app. rewrite way_path by (by destruct pre).
  unfold ignore, mkdirat, resolve_at_path. assert (starts_with [slash] (path_str (pre ++ [c])) = true) as ->.
  { unfold path_str. rewrite bool_decide_eq_false_2 by (by destruct pre). reflexivity. }
  rewrite bind_ret. unfold on_tree, mkdir. rewrite rsplit_path_str by done.
  rewrite (bind_ok _ _ _ d (tree s)) by (unfold resolve; by rewrite (goto_resolve _ r pre d) by (done || congruence)).
  rewrite bind_gets. destruct (child (tree s) d c); [by destruct s|reflexivity].
Qed.

Lemma make_dirs_spec cs : ∀ pre cur s, closed (tree s) → ROOT (tree s) = Some r → Forall good_name (pre ++ cs) →
  goto (tree s) r pre = Some cur → clear_way (tree s) cur cs →
  ∃ t d, make_dirs (S depth) fuel (way pre) cs s = (Ok tt, set_tree t s) ∧ tree_extends (tree s) t ∧
    goto t r (pre ++ cs) = Some d ∧ itype (node t d) = IDirectory ∧ (t = tree s ∨ children (node t d) = ∅).
Proof.
  induction cs as [|c cs IH]; intros pre cur s Hc Hr Hg Hp Hw; pose proof (clear_way_dir _ _ _ Hw) as Hd.
  { exists (tree s), cur. rewrite app_nil_r. split_and!; [by destruct s|by apply tree_extends_refl|done|done|by left]. }
  replace (pre ++ c :: cs) with ((pre ++ [c]) ++ cs) in * by (by rewrite <- app_assoc). pose proof Hg as [Hg1 _]%Forall_app.
  cbn [make_dirs]. rewrite <- way_snoc, (bind_ok _ _ _ _ _ (mkdirat_way pre cur c 0x1ED s Hr Hg1 Hp Hd)).
  cbn [clear_way] in Hw. destruct Hw as [_ Hw]. destruct (child (tree s) cur c) as [h|] eqn:E.
  - apply (IH _ h); [done..| |done]. rewrite goto_snoc, Hp. cbn [mbind option_bind]. by rewrite bool_decide_eq_true_2.
  - set (t1 := with_new (new_dir 0x1ED) cur c (tree s)). pose proof (dir_present _ _ Hd) as Hcur.
    destruct (with_new_spec (new_dir 0x1ED) cur c (tree s) Hc Hcur E eq_refl) as (Hgr & Hc1 & Hch & Hnew). fold t1 in Hgr, Hc1, Hch, Hnew.
    pose proof (with_new_extends (new_dir 0x1ED) cur c (tree s) Hc Hcur E eq_refl) as Hex.
    assert (goto t1 r (pre ++ [c]) = Some (NEXT_INODE (tree s))) as Hgo.
    { rewrite goto_snoc, (goto_grows _ t1 pre Hc Hgr r cur (cl_root _ Hc r Hr) Hp). cbn [mbind option_bind].
      by rewrite (proj1 (gr_node _ _ Hgr cur Hcur)), bool_decide_eq_true_2. }
    assert (∀ x, child t1 (NEXT_INODE (tree s)) x = None) as Hemp by (intros x; unfold child; rewrite Hnew; apply lookup_empty).
    destruct (IH (pre ++ [c]) (NEXT_INODE (tree s)) (set_tree t1 s)) as (t & d & Em & He & Hgd & Hty & Hor).
    + done.
    + exact (eq_trans (gr_root _ _ Hgr) Hr).
    + done.
    + done.
    + change (clear_way t1 (NEXT_INODE (tree s)) cs). destruct cs as [|c' cs']; cbn [clear_way]; rewrite Hnew; [done|]. by rewrite Hemp.
    + exists t, d. split_and!; [exact Em|by eapply tree_extends_trans|done|done|]. right. destruct Hor as [->|]; [|done].
      change (tree (set_tree t1 s)) with t1 in Hgd |- *. rewrite goto_app, Hgo in Hgd. cbn [mbind option_bind] in Hgd.
      destruct cs as [|c' cs']; cbn [goto] in Hgd; [injection Hgd as <-; by rewrite Hnew|].
      case_bool_decide; [|done]. by rewrite Hemp in Hgd.
Qed.

Lemma parts_path cs : Forall good_name cs → filter (λ p, p ≠ []) (split slash (path_str cs)) = cs.
Proof.
  intros Hg. unfold path_str. case_bool_decide as E; [by subst|]. change (slash :: join slash cs) with ([] ++ slash :: join slash cs).
  rewrite split_app_sep by apply not_elem_of_nil. rewrite filter_cons_False by (by intros []).
  rewrite split_join; [|done|by apply (Forall_impl _ _ _ Hg); intros ? []]. clear E.
  induction Hg as [|c cs Hc _ IH]; [done|]. by rewrite filter_cons_True, IH by (by apply good_nonempty).
Qed.

(** [mkdir -p]: the directories that are missing are made. *)
Lemma ensure_vfs_dir_spec cs s : closed (tree s) → ROOT (tree s) = Some r → Forall good_name cs → clear_way (tree s) r cs →
  ∃ t d, ensure_vfs_dir (S depth) fuel (path_str cs) s = (Ok tt, set_tree t s) ∧ tree_extends (tree s) t ∧
    goto t r cs = Some d ∧ itype (node t d) = IDirectory ∧ (t = tree s ∨ children (node t d) = ∅).
Proof. intros Hc Hr Hg Hw. unfold ensure_vfs_dir. rewrite parts_path by done. by apply (make_dirs_spec cs [] r s). Qed.

Lemma rsplit_once_path cs n : cs ≠ [] → good_name n → rsplit_once slash (path_str (cs ++ [n])) = Some (path_str cs, n).
Proof.
  intros Hn [_ Hs]. rewrite <- !way_path by (done || by destruct cs). rewrite way_snoc. by apply rsplit_once_app.
Qed.

Lemma load_path_spec ext4 cs n data s : closed (tree s) → ROOT (tree s) = Some r → Forall good_name (cs ++ [n]) → cs ≠ [] →
  clear_way (tree s) r cs → goto (tree s) r (cs ++ [n]) = None →
  ext4 (path_str (cs ++ [n])) = Some data → contains INTERP_NAME (path_str (cs ++ [n])) = false →
  ∃ t h, load_path (S depth) fuel ext4 (path_str (cs ++ [n])) s = (Ok tt, set_tree t s) ∧ tree_extends (tree s) t ∧
    goto t r (cs ++ [n]) = Some h ∧ node t h = set_data data (new_file 0x1ED).
Proof.
  intros Hc Hr Hg Hne Hw Hfree He Hi. pose proof Hg as [Hcs [Hn _]%Forall_cons]%Forall_app.
  destruct (ensure_vfs_dir_spec cs s Hc Hr Hcs Hw) as (t & d & E & Hex & Hd & Ht & Hor).
  assert (child t d n = None) as Hno.
  { destruct Hor as [->|Hem]; [|unfold child; rewrite Hem; apply lookup_empty].
    rewrite goto_snoc, Hd in Hfree. cbn [mbind option_bind] in Hfree. by rewrite bool_decide_eq_true_2 in Hfree. }
  pose proof Hex as (Hgr & Hct & _). pose proof (dir_present _ _ Ht) as Hp. set (i := set_data data (new_file 0x1ED)).
  destruct (with_new_spec i d n t Hct Hp Hno eq_refl) as (Hgr' & _ & Hch & Hnew).
  assert (ROOT t = Some r) as Hrt by (by rewrite (gr_root _ _ Hgr)).
  exists (with_new i d n t), (NEXT_INODE t). split_and!.
  - unfold load_path. rewrite rsplit_once_path, (bind_ok _ _ _ _ _ E), He, Hi by done. erewrite bind_ok; [reflexivity|].
    kstep. unfold put_in. rewrite (bind_ok _ _ _ (inl d) (set_tree t s)).
    { reflexivity. }
    unfold try, resolve_os, on_tree, resolve. cbn [tree set_tree]. by rewrite (goto_resolve t r cs d) by (done || congruence).
  - eapply tree_extends_trans; [done|]. by apply with_new_extends.
  - rewrite goto_snoc, (goto_grows t _ cs Hct Hgr' r d (cl_root _ Hct r Hrt) Hd). cbn [mbind option_bind].
    by rewrite (proj1 (gr_node _ _ Hgr' d Hp)), bool_decide_eq_true_2.
  - exact Hnew.
Qed.
End Way.

(** Loading a file from the disk: for a path whose directories exist or can be
    made and that names nothing yet, one round makes the missing directories and puts
    the file in: the path then resolves to a file with the bytes of the disk and mode
    755, and every path that resolved before still does, to the same node. *)
Theorem load_path_loads depth fuel ext4 r cs n data s : closed (tree s) → ROOT (tree s) = Some r → Forall good_name (cs ++ [n]) → cs ≠ [] →
  clear_way (tree s) r cs → goto (tree s) r (cs ++ [n]) = None →
  ext4 (path_str (cs ++ [n])) = Some data → contains INTERP_NAME (path_str (cs ++ [n])) = false →
  ∃ t h, load_path (S depth) fuel ext4 (path_str (cs ++ [n])) s = (Ok tt, set_tree t s) ∧
    resolve_path (S depth) t (path_str (cs ++ [n])) = Ok h ∧ node t h = set_data data (new_file 0x1ED) ∧
    (∀ e q x, resolve_path e (tree s) q = Ok x → resolve_path e t q = Ok x) ∧ closed t.
Proof.
  intros Hc Hr Hg Hne Hw Hfree He Hi.
  destruct (load_path_spec depth fuel r ext4 cs n data s Hc Hr Hg Hne Hw Hfree He Hi) as (t & h & E & (Hgr & Hct & _) & Hgo & Hn).
  exists t, h. split_and!; [done| |done|by intros e; apply resolve_grows|done].
  apply (goto_resolve t r); [by rewrite (gr_root _ _ Hgr)|done|by rewrite Hn|done].
Qed.

(** A library goes into a new directory under [/lib]. *)
Lemma load_path_loads_witness : ∃ t h,
  let path := bytes_of "/lib/aarch64-linux-gnu/libm.so.6" in
  load_path 9 0 (λ _, Some [1; 2; 3]) path (set_tree boot_tree demo_os) = (Ok tt, set_tree t (set_tree boot_tree demo_os)) ∧
  resolve_path 9 t path = Ok h ∧ node t h = set_data [1; 2; 3] (new_file 0x1ED) ∧
  resolve_path 9 t (bytes_of "/dev/null") = Ok 16.
Proof.
  destruct (load_path_loads 8 0 (λ _, Some [1; 2; 3]) 0 (bytes_of <$> ["lib"; "aarch64-linux-gnu"]%string) (bytes_of "libm.so.6") [1; 2; 3]
    (set_tree boot_tree demo_os)) as (t & h & E & Hr & Hn & Hold & _).
  - exact boot_tree_closed.
  - by_names.
  - by_names.
  - intros [=].
  - by_names.
  - by_names.
  - reflexivity.
  - vm_compute. reflexivity.
  - exists t, h. split; [exact E|]. split; [exact Hr|]. split; [exact Hn|]. apply Hold. vm_compute. reflexivity.
Defined.
